(* ===== verification/_CoqProject ===== *)
-Q . S2P
Prelude.v
GoStd.v
GoStdFacts.v
StringFacts.v
Sha256.v
GoErrors.v
Uuid.v
Names.v
CoderErrors.v
ApiTypes.v
Examples.v
Providers.v
AggTypes.v
Sdk.v
Convert.v
Watch.v
TemplateFiles.v
Storage.v
HandlerLogic.v
WorkspaceStorage.v
BuildWait.v
TemplateStorage.v
KubeObjects.v
Kube.v
ControlPlaneNames.v
ControlPlaneStatus.v
OperatorAccess.v
License.v
ServiceAccounts.v
WorkspaceRBAC.v
Workload.v
Exposure.v
ControlPlane.v
Triggers.v
SteadyState.v
ProvisionerNames.v
Provisioner.v
ProvisionerErrors.v
ProvisionerReconcile.v
ProvisionerTriggers.v
WorkspaceProxy.v
Calls.v
BootstrapClient.v
LicenseClient.v
Locality.v
OperatorDatabase.v
Times.v
OpenApi.v
McpTools.v
McpServing.v
ApiServer.v
Dispatch.v
McpHttp.v
Setup.v
Drift.v
Linked.v
DocsText.v
DocsGen.v
Memory.v
DeepCopies.v
