(* ===== verification/Prelude.v ===== *)
(** * coder-k8s: a verification development

    coder-k8s runs Coder on Kubernetes.  It has two halves.  An operator
    (src/internal/controller, src/internal/coderbootstrap) reconciles the custom
    resources CoderControlPlane, CoderProvisioner and CoderWorkspaceProxy.  An
    aggregated API server (src/internal/aggregated) shows the workspaces and
    templates of the Coder deployments the operator runs as Kubernetes objects:
    a REST handler finds the deployment that serves the request's namespace
    through a client provider, which reads the control planes the operator
    maintains, and translates the request into calls of Coder's HTTP API.  An MCP
    server (src/internal/app/mcpapp) offers both to language models as tools.  One
    binary runs each of them, or all together (src/app_dispatch.go, src/internal/app).
    This development verifies the aggregated API server, the operator's three
    controllers, the clients through which they talk to Coder's API and database, the
    MCP server, how the modes are chosen, put together and started, the copies of API
    objects in memory, and the generator of the documentation skill.

    ** Files

    - [Prelude]: Go's three-way outcomes (value, error, panic), the state and
      outcome monad [M] with its weakest preconditions [wp], loops, tactics.
    - [GoStd], [GoStdFacts], [StringFacts], [Sha256]: what the source uses of
      Go's standard library (strings, path.Clean, UTF-8, sorting, int64
      wrap-around, FNV, strconv, SHA-256).
    - [GoErrors]: error values with their wrapping chains, and the API status
      errors of k8s.io/apimachinery.  Formatted messages are kept as the format
      and its arguments: the code never inspects a formatted text.
    - [Uuid]: google/uuid's text form and parser.
    - [Names] (aggregated/coder/names.go): names of the form
      organization.user.workspace and organization.template.
    - [CoderErrors] (aggregated/coder/errors.go, storage/errors.go): backend
      errors as API errors.
    - [ApiTypes], [AggTypes] (api/v1alpha1, api/aggregation/v1alpha1): the
      resource types; [Examples] has control planes the witnesses use.
    - [Providers] (aggregated/coder/{config,provider,controlplane_provider}.go,
      app/apiserverapp/apiserverapp.go): which deployment serves a namespace.
      [ClientProvider] is the interface; the static provider and the
      control-plane provider implement it.
    - [Sdk]: the interface of Coder's API as the handlers use it.  The vendored
      package codersdk is not modelled: its methods are one parameter
      [sdk], a function from a client and a request to an arbitrary effect on an
      arbitrary world [W].  A handler runs in the state [Sdk.st]: that world,
      the list of requests issued so far, and the watch-event queue.
    - [Convert] (aggregated/convert): conversions both ways.
    - [Watch] (aggregated/storage/watch.go and the queue of workspace.go and
      template.go): option validation and the filter as functions; the event
      queue with its producers, dispatcher goroutine and Destroy, and the
      stop-aware watcher, as transition systems.
    - [TemplateFiles] (aggregated/storage/template_files.go): source archives.
      archive/zip is the interface [ZipArchive] with the laws [ZipLaws].
    - [Storage]: what both storages share (workspace.go from line 757), and
      the Watch handler.
    - [HandlerLogic]: proof rules for REST handlers.
    - [WorkspaceStorage] (workspace.go), [BuildWait] and [TemplateStorage]
      (template.go): the REST handlers, each one function composed from the
      pieces of the Go function in their order, every guard and early return
      included.  A nil receiver, context, object or interface is [None].
    - [KubeObjects]: the Kubernetes objects the operator writes, and the vendored
      helpers on them (owner references, finalizers, conditions).
    - [Kube]: the calls of a reconciler.  The API server, its cache, the database
      behind the access provisioner, coderd behind the license and entitlement
      clients and the clock are one parameter [env], which answers every
      [action] with an arbitrary reply in an arbitrary world, so other writers
      may act between any two calls.  A run records its calls ([made]);
      controllerutil.CreateOrUpdate and retry.RetryOnConflict are definitions.
    - The parts of controller/codercontrolplane_controller.go:
      [ControlPlaneNames] (constants, derived names, switches),
      [ControlPlaneStatus] (desiredStatus, conditions, merge and write of the
      status), [OperatorAccess], [License] (license and entitlements),
      [ServiceAccounts], [WorkspaceRBAC] (permissions and the finalizer),
      [Workload] (deployment and service), [Exposure] (ingress and HTTP route),
      [ControlPlane] (Reconcile, which calls them all), [Triggers] (indexes and
      the mapping of changed secrets and config maps to requests), and
      [SteadyState] (what a second reconciliation does).
      Each has its operations as in the file, an inductive predicate or a
      relation for the calls it may make ([account_call], [rbac_call], ...), and
      one for what a run that returns has achieved ([account_outcome], ...);
      [ControlPlane] composes these.
    - The parts of controller/coderprovisioner_controller.go:
      [ProvisionerNames] (names, hashes, the rate-limit delay with its jitter in
      64-bit floating point), [Provisioner] (Reconcile with everything it calls,
      as steps on the one provisioner object the Go code changes in place),
      [ProvisionerErrors] (every error of a run that is a rate limit, and every panic,
      is the answer to a call), [ProvisionerReconcile] (its properties: [sat] is the logic of steps,
      [provisioner_call] what a run may call, [provisioned] what a successful one
      has achieved, [deletion_run] a deletion), [ProvisionerTriggers] (which
      provisioners a changed control plane concerns).
    - [WorkspaceProxy] (controller/coderworkspaceproxy_controller.go): the whole
      controller and its properties.
    - [Calls]: programs that make calls; [runs] relates the calls of a run to its
      outcome, [says] also their answers: [straight] runs end with the first call
      that is answered with an error.
    - [BootstrapClient] (coderbootstrap/client.go, provisionerkeys.go): what the
      controllers' calls [AEnsureProvisionerKey], [ADeleteProvisionerKey],
      [AEnsureWorkspaceProxy] and [AEntitlements] do, as requests to Coder's API.
    - [LicenseClient] (the SDK clients of codercontrolplane_controller.go): what
      [AAddLicense], [AHasAnyLicense] and the entitlements inspector do, as
      requests to Coder's API.
    - [Locality]: a reconciliation changes the world only through its calls, so a
      property of the world that no call of the allowed kind breaks is kept.
    - [OperatorDatabase] (coderbootstrap/operator_access_postgres.go): what
      [AEnsureOperatorToken] and [ARevokeOperatorToken] do, as statements in a
      transaction on coderd's database.
    - [Times]: package time as far as a time is written and read as RFC 3339: the
      proleptic Gregorian calendar on nanoseconds, formatting, and both readers.
    - [OpenApi] (getOpenAPIDefinitions of app/apiserverapp/apiserverapp.go, the field
      tags of api/aggregation/v1alpha1/types.go): the schemas, what it is to conform
      to one, and the JSON form of the aggregated types.
    - [McpTools] (app/mcpapp/tools.go): every tool of the MCP server, as calls to a
      Kubernetes client; [McpServing] answers these calls with the handlers of
      [WorkspaceStorage] and [TemplateStorage] and with the controllers' deployments.
    - [McpHttp] (app/mcpapp/http.go, server.go): its clients, its routes, and the life
      of the server, a transition system of two goroutines.
    - [ApiServer] (app/apiserverapp/apiserverapp.go): the start of the aggregated API
      server as calls into k8s.io/apiserver, and the API group that is installed.
    - [Setup] (SetupWithManager of the controllers, app/controllerapp, app/allapp,
      app/sharedscheme): modes "controller" and "all" as calls into
      controller-runtime, and the two runnables.
    - [Dispatch] (app_dispatch.go, main.go): the command line and the modes.
    - [Drift]: the registrations of [Setup] put together with the three reconcilers
      through the event handlers of controller-runtime.
    - [Linked]: the three reconcilers put together with the clients that talk to
      coderd and to its database, over one world.

    - [Memory]: Go values with the memory behind them: a heap of variables, arrays and
      maps, the statements of generated copy functions, what a value contains and which
      cells it reaches.  [DeepCopies] (zz_generated.deepcopy.go of both API groups): the
      types and their DeepCopyInto, DeepCopy and DeepCopyObject on that memory.
    - [DocsText], [DocsGen] (hack/gen-coder-docs-skill/main.go): the generator of the
      documentation skill; its texts and paths, and the program as calls to a file
      system.

    ** What the theorems show

    - The handlers: [template_Update_contract], [workspace_Update_contract] and
      the contracts of Create and Delete say of every run, for every backend,
      provider, admission hook and patch, which requests that change a backend
      it made, in which order, on what evidence, and which watch event it
      queued; [template_List_all] describes all-namespaces lists.  They are
      stated over the states the run passes through ([call sdk c r s = (o, s')]
      is one request).
    - Source archives: [validateTemplateSourcePath_safe] (no path traversal),
      [buildSourceZip_roundtrip], [buildMergedSourceZip_merges].
    - The build wait: [wait_terminates], [poll_interval_bounds],
      [wait_error_mapping].
    - Watches: [queue_safety] (every interleaving of the producers, the dispatcher
      and Destroy: what each call did, and what became of each event, read off the
      steps of the run by [observe]), [queue_refines_window] (calls that do not
      overlap: the newest 100 events), [enqueue_wait_free], [watch_stops_once],
      [watch_confined].  [newest_event_can_be_lost] is a run in which overlapping
      calls lose the newest event.
    - Names, identity, errors, providers: [names_inverse],
      [WorkspaceToK8s_identity], [MapCoderError_status],
      [cp_ClientForNamespace_unambiguous],
      [cp_EligibleNamespaces_order_independent].

    - The control plane controller: [reconcile_safety] bounds the calls of every
      run of Reconcile, whatever the cluster answers, and [reconcile_converges]
      says what a successful run has achieved, a deletion included, with one
      exception: a status write whose context ends.  The components' contracts are
      [operator_access_contract], [license_contract], [entitlements_contract],
      [workspace_rbac_contract], [finalizer_contract], [exposure_contract],
      [reconcileStatus_contract] with [status_merge_laws]; the objects written
      are described by [deployment_contract] and [service_reaches_pod], their
      names by [workspace_rbac_names] and [derived_names_valid].
      [reconciled_objects_are_stable] is the steady state, and
      [changes_reach_control_planes] says which changes cause a reconciliation.
      [interrupted_write_reports_success] and [cert_paths_clash] are runs in
      which the code does not do what it means to.
    - The provisioner controller: [provisioner_safety] bounds the calls of every
      run of Reconcile, [provisioner_converges] says what a successful run has
      achieved, [provisioner_rate_limit] what becomes of its errors, coderd's rate
      limit above all;
      [provisioner_names] bounds the derived names and
      [control_plane_reaches_provisioners] describes the requests for a changed
      control plane.  [provisioner_runs] and [provisioner_backs_off] are runs in
      a concrete cluster.
    - The proxy controller and the client: [workspace_proxy_contract],
      [provisioner_key_client], [workspace_proxy_client]; with concrete runs
      [proxy_registered_if_needed] and [key_is_made_once].
    - The access provisioner: [operator_token_contract] (what was committed when
      a token is returned, and that a failed run committed nothing) and
      [random_token_part]; with the runs [new_token_is_made] and
      [valid_token_is_kept].

    - The MCP server: [mcp_tools_contract] (inputs, the one read, the one write of each
      tool), [pod_logs_bounded], [control_plane_pods_listed], [timestamps_read_back],
      and put together with the other halves [set_workspace_running_transitions],
      [set_template_running_ignored] and [selected_pods_are_its_own];
      [mcp_http_contract] is the shutdown of its two goroutines.
    - What is published: [openapi_schemas_fit] and [json_form_reads_back];
      [unused_workspace_breaks_schema] is where the two differ.
    - Starting: [dispatch_contract] (the grammar of the command line, the mode that is
      run and what it is given), [process_start_up_contract] and
      [runnables_serve_synced] (manager, controllers, probes, runnables),
      [server_start_up_contract] (the aggregated API server).
    - The operator as a whole: [written_objects_are_watched] says that whatever a
      reconciliation writes leads, when it is changed, back to that reconciliation,
      but for foreign roles, which are polled, and for HTTPRoutes if the cluster did
      not serve them when the operator was started.

    - The operator and coderd: [provisioner_and_coderd], [plane_and_coderd] and
      [proxy_and_coderd] say what a reconciliation asks of coderd and of its
      database, request by request, and on which objects of the cluster and which
      answers of coderd each request rests.  [key_is_made],
      [unreadable_key_is_replaced] and [token_goes_to_recorded_url] are runs.

    - The API objects in memory: [deep_copies_are_deep] (a copy shares nothing with its
      original, for every type; this is what lets the other files represent objects by
      their contents); [shallow_copy_is_seen] is what would happen otherwise.
    - The documentation generator: [docs_generation_contract] (what it reads, removes and
      writes, in which order and on what evidence), [sync_copies_tree] (what is copied of
      a documentation tree, with enough fuel), [skill_update_laws] (sections of a text
      between markers); [docs_are_generated] is a whole run, and
      [nested_sections_are_lost] shows why the sections have to be apart.

    A theorem [t] with hypotheses has a lemma [t_witness] that applies it to a
    concrete run.

    ** Parameters, bounds and fuel

    The world, the SDK, url.Parse, time.ParseDuration, os.Getenv, the iteration
    order of maps ([range], any permutation of the entries), archive/zip, the
    clock, the random bytes of the jitter, the text of a formatted condition
    message ([render]) and the API server's admission and patch code are
    parameters.  Three loops have fuel.  The polling loop of [BuildWait] has the
    effective wait time divided by the initial poll interval, plus two, and
    [wait_terminates] shows that under the laws of the clock it never runs out.
    The loop of [randomTokenPart] skips bytes for as long as the random source
    gives unusable ones: its fuel is arbitrary, and [random_token_part] shows that
    it is enough as soon as it covers as many usable bytes as characters.
    The walk of [DocsGen] over a directory tree has arbitrary fuel, and
    [sync_copies_tree] shows that the depth of the tree is enough.
    [RetryOnConflict] makes the five attempts of retry.DefaultRetry.
    Durations and times are nanoseconds in [Z]; where Go's int64 can overflow
    (doubling the poll interval, [timeoutSeconds], UnixNano) the wrap-around is
    written out.

    ** Not modelled

    ConvertToTable (a call into apiserver code) is left out, and so are the tests and the
    build scripts.  The libraries that the modes are built from (k8s.io/apiserver,
    controller-runtime, net/http's transport) are behind the calls of [ApiServer], [Setup]
    and [McpHttp], except for the event handlers of controller-runtime, which [Drift]
    needs.  Of Kubernetes objects, fields that the operator neither reads nor writes are
    kept as uninterpreted values.  What a statement means is PostgreSQL's matter: it is
    represented by its query and arguments.  Objects are shared in memory in [Memory] and
    [DeepCopies] only: the other files represent a Go value by its contents, and where the
    code changes an object in place they pass it on explicitly. *)








From stdpp Require Export prelude strings list gmap sorting.
From Stdlib Require Export Ascii String ZArith.

#[export] Set Warnings "-clear-no-such-hyp".
#[export] Set Default Goal Selector "!".

(** ** Outcomes

    A Go call either returns its value, returns a non-nil error, or panics.
    The payload of a panic is kept as an error value. *)

Inductive outcome (E A : Type) : Type :=
  | Ret (a : A)
  | Err (e : E)
  | Panic (e : E).
Arguments Ret {E A} a.
Arguments Err {E A} e.
Arguments Panic {E A} e.

Section outcome_monad.
Context {E : Type}.

Definition outcome_bind {A B} (f : A → outcome E B) (m : outcome E A) : outcome E B :=
  match m with
  | Ret a => f a
  | Err e => Err e
  | Panic e => Panic e
  end.

#[global] Instance outcome_mret : MRet (outcome E) := λ A a, Ret a.
#[global] Instance outcome_mbind : MBind (outcome E) := λ A B f m, outcome_bind f m.
#[global] Instance outcome_fmap : FMap (outcome E) :=
  λ A B f m, outcome_bind (λ a, Ret (f a)) m.

(** [if b { return err }] *)
Definition fail_if (b : bool) (e : E) : outcome E () := if b then Err e else Ret tt.
(** [if b { panic(msg) }] *)
Definition panic_if (b : bool) (e : E) : outcome E () := if b then Panic e else Ret tt.

Lemma outcome_bind_Ret {A B} (m : outcome E A) (f : A → outcome E B) b :
  (m ≫= f) = Ret b ↔ ∃ a, m = Ret a ∧ f a = Ret b.
Proof. destruct m; cbn; naive_solver. Qed.

Lemma outcome_bind_Err {A B} (m : outcome E A) (f : A → outcome E B) e :
  (m ≫= f) = Err e ↔ m = Err e ∨ ∃ a, m = Ret a ∧ f a = Err e.
Proof. destruct m; cbn; naive_solver. Qed.

Lemma outcome_bind_Panic {A B} (m : outcome E A) (f : A → outcome E B) e :
  (m ≫= f) = Panic e ↔ m = Panic e ∨ ∃ a, m = Ret a ∧ f a = Panic e.
Proof. destruct m; cbn; naive_solver. Qed.

Lemma outcome_bind_assoc {A B C} (m : outcome E A) (f : A → outcome E B) (g : B → outcome E C) :
  (m ≫= f) ≫= g = m ≫= (λ a, f a ≫= g).
Proof. by destruct m. Qed.

Lemma Ret_inj {A} (a b : A) : @Ret E A a = Ret b → a = b.
Proof. by intros [= ->]. Qed.

Lemma fail_if_Ret b e u : fail_if b e = Ret u ↔ b = false.
Proof. destruct u, b; cbn; naive_solver. Qed.
Lemma fail_if_Err b e e' : fail_if b e = Err e' ↔ b = true ∧ e' = e.
Proof. destruct b; cbn; naive_solver. Qed.
Lemma fail_if_Panic b e e' : fail_if b e = Panic e' ↔ False.
Proof. destruct b; cbn; naive_solver. Qed.
Lemma panic_if_Ret b e u : panic_if b e = Ret u ↔ b = false.
Proof. destruct u, b; cbn; naive_solver. Qed.
Lemma panic_if_Err b e e' : panic_if b e = Err e' ↔ False.
Proof. destruct b; cbn; naive_solver. Qed.
Lemma panic_if_Panic b e e' : panic_if b e = Panic e' ↔ b = true ∧ e' = e.
Proof. destruct b; cbn; naive_solver. Qed.

(** Loops over a list that stop at the first error. *)
Fixpoint mfold {A B} (f : B → A → outcome E B) (b : B) (l : list A) : outcome E B :=
  match l with
  | [] => Ret b
  | a :: l' => f b a ≫= λ b', mfold f b' l'
  end.

Lemma mfold_app {A B} (f : B → A → outcome E B) b l1 l2 :
  mfold f b (l1 ++ l2) = mfold f b l1 ≫= λ b', mfold f b' l2.
Proof.
  revert b. induction l1 as [|a l1 IH]; intros b; cbn; [done|].
  destruct (f b a); cbn; auto.
Qed.

(** An invariant of a successful loop. *)
Lemma mfold_invariant {A B} (f : B → A → outcome E B) (I : list A → B → Prop) b l r :
  I [] b →
  (∀ done a x y, I done x → f x a = Ret y → a ∈ l → I (done ++ [a]) y) →
  mfold f b l = Ret r → I l r.
Proof.
  intros H0 Hstep.
  enough (∀ done b, I done b → mfold f b l = Ret r → I (done ++ l) r) as HH.
  { intros Hr. by apply (HH [] b). }
  clear b H0. induction l as [|a l IH]; intros done b HI; cbn.
  - intros [= ->]. by rewrite app_nil_r.
  - intros (b' & Hb' & Hr)%outcome_bind_Ret.
    rewrite cons_middle, app_assoc. eapply IH; [| |exact Hr].
    + intros d a' x y Hd Hf Hin. eapply Hstep; [done|done|by right].
    + eapply Hstep; [done|done|by left].
Qed.

(** A loop whose body never fails is a plain fold. *)
Lemma mfold_foldl {A B} (f : B → A → outcome E B) (g : B → A → B) b l :
  (∀ x a, a ∈ l → f x a = Ret (g x a)) → mfold f b l = Ret (foldl g b l).
Proof.
  revert b. induction l as [|a l IH]; intros b H; cbn; [done|].
  rewrite H by (by left). cbn. apply IH. intros x a' ?. apply H. by right.
Qed.
End outcome_monad.

Arguments fail_if {E} b e : simpl never.
Arguments panic_if {E} b e : simpl never.

(** ** State and outcome

    A handler threads a state (the remote systems it talks to, the requests it
    has issued, its queues) and produces an outcome. *)

Definition M (S E A : Type) : Type := S → outcome E A * S.

Section state_monad.
Context {S E : Type}.

#[global] Instance M_ret : MRet (M S E) := λ A a s, (Ret a, s).
#[global] Instance M_bind : MBind (M S E) := λ A B f m s,
  match m s with
  | (Ret a, s') => f a s'
  | (Err e, s') => (Err e, s')
  | (Panic e, s') => (Panic e, s')
  end.

#[global] Instance M_fmap : FMap (M S E) := λ A B f m s,
  match m s with
  | (Ret a, s') => (Ret (f a), s')
  | (Err e, s') => (Err e, s')
  | (Panic e, s') => (Panic e, s')
  end.

(** A pure computation inside a handler. *)
Definition lift {A} (o : outcome E A) : M S E A := λ s, (o, s).
Definition throw {A} (e : E) : M S E A := λ s, (Err e, s).
Definition guard_err (b : bool) (e : E) : M S E () := lift (fail_if b e).
Definition get : M S E S := λ s, (Ret s, s).
Definition modify (f : S → S) : M S E () := λ s, (Ret tt, f s).
(** [x, err := m]: the caller inspects the error itself; a panic still unwinds. *)
Definition attempt {A} (m : M S E A) : M S E (A + E) := λ s,
  match m s with
  | (Ret a, s') => (Ret (inl a), s')
  | (Err e, s') => (Ret (inr e), s')
  | (Panic e, s') => (Panic e, s')
  end.
(** [if err != nil { return f(err) }] *)
Definition map_err {A} (f : E → E) (m : M S E A) : M S E A := λ s,
  match m s with
  | (Ret a, s') => (Ret a, s')
  | (Err e, s') => (Err (f e), s')
  | (Panic e, s') => (Panic e, s')
  end.

Fixpoint mfor {A B} (f : B → A → M S E B) (b : B) (l : list A) : M S E B :=
  match l with
  | [] => mret b
  | a :: l' => f b a ≫= λ b', mfor f b' l'
  end.

(** The weakest precondition of a handler: what holds of its outcome and
    final state when it runs from [s]. *)
Definition wp {A} (m : M S E A) (Q : outcome E A → S → Prop) (s : S) : Prop :=
  Q (m s).1 (m s).2.

(** The continuation of a bind: only a returned value goes on. *)
Definition wp_cont {A B} (f : A → M S E B) (Q : outcome E B → S → Prop)
    (o : outcome E A) (s : S) : Prop :=
  match o with
  | Ret a => wp (f a) Q s
  | Err e => Q (Err e) s
  | Panic e => Q (Panic e) s
  end.

Lemma wp_bind {A B} (m : M S E A) (f : A → M S E B) Q s :
  wp m (wp_cont f Q) s ↔ wp (m ≫= f) Q s.
Proof.
  unfold wp, wp_cont, mbind, M_bind. destruct (m s) as [[a|e|e] s']; reflexivity.
Qed.

Lemma wp_ret {A} (a : A) (Q : outcome E A → S → Prop) s : Q (Ret a) s → wp (mret a) Q s.
Proof. done. Qed.
Lemma wp_throw {A} e (Q : outcome E A → S → Prop) s : Q (Err e) s → wp (throw e) Q s.
Proof. done. Qed.
Lemma wp_lift {A} (o : outcome E A) (Q : outcome E A → S → Prop) s : Q o s → wp (lift o) Q s.
Proof. done. Qed.
Lemma wp_get Q s : Q (Ret s) s → wp get Q s.
Proof. done. Qed.
Lemma wp_modify f Q s : Q (Ret tt) (f s) → wp (modify f) Q s.
Proof. done. Qed.
Lemma wp_guard b e Q s :
  (b = true → Q (Err e) s) → (b = false → Q (Ret tt) s) → wp (guard_err b e) Q s.
Proof. unfold wp, guard_err, lift, fail_if. destruct b; cbn; auto. Qed.
Lemma wp_attempt {A} (m : M S E A) Q s :
  wp m (λ o s', match o with
                | Ret a => Q (Ret (inl a)) s'
                | Err e => Q (Ret (inr e)) s'
                | Panic e => Q (Panic e) s'
                end) s → wp (attempt m) Q s.
Proof. unfold wp, attempt. destruct (m s) as [[a|e|e] s']; done. Qed.
Lemma wp_map_err {A} f (m : M S E A) Q s :
  wp m (λ o s', match o with
                | Ret a => Q (Ret a) s'
                | Err e => Q (Err (f e)) s'
                | Panic e => Q (Panic e) s'
                end) s → wp (map_err f m) Q s.
Proof. unfold wp, map_err. destruct (m s) as [[a|e|e] s']; done. Qed.

Lemma wp_fmap {A B} (f : A → B) (m : M S E A) Q s :
  wp m (λ o s', match o with
                | Ret a => Q (Ret (f a)) s'
                | Err e => Q (Err e) s'
                | Panic e => Q (Panic e) s'
                end) s → wp (f <$> m) Q s.
Proof. unfold wp, fmap, M_fmap. destruct (m s) as [[a|e|e] s']; done. Qed.

(** Inversion of a run that returned a value. *)
Lemma M_bind_Ret {A B} (m : M S E A) (f : A → M S E B) s b s' :
  (m ≫= f) s = (Ret b, s') ↔ ∃ a s1, m s = (Ret a, s1) ∧ f a s1 = (Ret b, s').
Proof. unfold mbind, M_bind. destruct (m s) as [[a|e|e] s1]; naive_solver. Qed.
Lemma guard_err_Ret b e s u s' : guard_err b e s = (Ret u, s') ↔ b = false ∧ s' = s.
Proof. destruct u. unfold guard_err, lift, fail_if. destruct b; naive_solver. Qed.
Lemma lift_Ret {A} (o : outcome E A) s a s' : lift o s = (Ret a, s') ↔ o = Ret a ∧ s' = s.
Proof. unfold lift. naive_solver. Qed.
Lemma mret_Ret {A} (a b : A) s s' : (mret a : M S E A) s = (Ret b, s') ↔ b = a ∧ s' = s.
Proof. unfold mret, M_ret. naive_solver. Qed.
Lemma map_err_Ret {A} f (m : M S E A) s a s' : map_err f m s = (Ret a, s') ↔ m s = (Ret a, s').
Proof. unfold map_err. destruct (m s) as [[x|e|e] s1]; naive_solver. Qed.
Lemma M_fmap_Ret {A B} (f : A → B) (m : M S E A) s b s' :
  (f <$> m) s = (Ret b, s') ↔ ∃ a, m s = (Ret a, s') ∧ b = f a.
Proof. unfold fmap, M_fmap. destruct (m s) as [[x|e|e] s1]; naive_solver. Qed.

Lemma wp_mono {A} (m : M S E A) (P Q : outcome E A → S → Prop) s :
  (∀ o s', P o s' → Q o s') → wp m P s → wp m Q s.
Proof. unfold wp. auto. Qed.

Lemma wp_run {A} (m : M S E A) Q s o s' : wp m Q s → m s = (o, s') → Q o s'.
Proof. unfold wp. intros H Heq. by rewrite Heq in H. Qed.

Lemma wp_of_run {A} (m : M S E A) Q s : (∀ o s', m s = (o, s') → Q o s') → wp m Q s.
Proof. unfold wp. intros H. apply H. by destruct (m s). Qed.

Lemma wp_mfor {A B} (f : B → A → M S E B) (I : list A → B → S → Prop)
    (Q : outcome E B → S → Prop) l b s :
  I [] b s →
  (∀ done a x s1, done ++ [a] `prefix_of` l → I done x s1 →
     wp (f x a) (λ o s2, match o with Ret y => I (done ++ [a]) y s2 | o' => Q o' s2 end) s1) →
  (∀ x s1, I l x s1 → Q (Ret x) s1) →
  wp (mfor f b l) Q s.
Proof.
  intros H0 Hstep Hend.
  enough (∀ rest done b s, done ++ rest = l → I done b s → wp (mfor f b rest) Q s) as HH
    by (by apply (HH l [])).
  clear b s H0. induction rest as [|a rest IH]; intros done b s Heq HI; cbn.
  - apply wp_ret, Hend. by rewrite app_nil_r in Heq; subst.
  - apply wp_bind. eapply wp_mono; [|apply (Hstep done a b s); [|done]].
    + intros [y|e|e] s'; cbn; [|done|done]. intros Hy. apply (IH (done ++ [a])); [|done].
      by rewrite <-app_assoc.
    + exists rest. by rewrite <-Heq, <-app_assoc.
Qed.

(** An invariant of a loop that ended, over the elements it has run for. *)
Lemma mfor_Ret {A B} (f : B → A → M S E B) (I : list A → B → Prop) l b s r s' :
  I [] b →
  (∀ done a x y s1 s2, a ∈ l → I done x → f x a s1 = (Ret y, s2) → I (done ++ [a]) y) →
  mfor f b l s = (Ret r, s') → I l r.
Proof.
  intros H0 Hstep.
  enough (∀ rest done b s, done ++ rest = l → I done b → mfor f b rest s = (Ret r, s') → I l r) as HH
    by (by apply (HH l [])).
  clear b s H0. induction rest as [|a rest IH]; intros done b s Heq HI; cbn.
  - rewrite mret_Ret. intros [-> _]. rewrite app_nil_r in Heq. by subst.
  - intros (y & s1 & Hy & Hrest)%M_bind_Ret. apply (IH (done ++ [a]) y s1); [|eapply Hstep; [|done|done]|done].
    + by rewrite <-Heq, <-app_assoc.
    + rewrite <-Heq, elem_of_app. right. by left.
Qed.
End state_monad.

#[global] Typeclasses Opaque M.

(** One step of a weakest-precondition proof. *)
Ltac wp_step :=
  match goal with
  | |- wp (mbind _ _) _ _ => apply wp_bind
  | |- wp (mret _) _ _ => apply wp_ret
  | |- wp (throw _) _ _ => apply wp_throw
  | |- wp (lift _) _ _ => apply wp_lift
  | |- wp get _ _ => apply wp_get
  | |- wp (modify _) _ _ => apply wp_modify
  | |- wp (guard_err _ _) _ _ => apply wp_guard; let H := fresh "Hg" in intros H
  | |- wp (attempt _) _ _ => apply wp_attempt
  | |- wp (map_err _ _) _ _ => apply wp_map_err
  | |- wp_cont _ _ _ _ => unfold wp_cont
  end.

(** ** Hint databases and tactics of the development *)


Create HintDb go.
Create Rewrite HintDb go.
#[export] Hint Rewrite @outcome_bind_Ret @outcome_bind_Err @outcome_bind_Panic
  @fail_if_Ret @fail_if_Err @fail_if_Panic @panic_if_Ret @panic_if_Err @panic_if_Panic : go.

(** Turn a fact about the result of a chain of guards into the facts about its
    guards and its last step. *)
Ltac inv_outcome H :=
  lazymatch type of H with
  | (_ ≫= _) = Ret _ =>
      apply outcome_bind_Ret in H; let x := fresh "x" in let Hx := fresh "Hx" in
      destruct H as (x & Hx & H); inv_outcome Hx; inv_outcome H
  | fail_if _ _ = Ret _ => apply fail_if_Ret in H
  | fail_if _ _ = Panic _ => apply fail_if_Panic in H; destruct H
  | panic_if _ _ = Ret _ => apply panic_if_Ret in H
  | panic_if _ _ = Err _ => apply panic_if_Err in H; destruct H
  | mret _ = _ => unfold mret, outcome_mret in H; inv_outcome H
  | Ret _ = Ret _ => apply Ret_inj in H; simplify_eq
  | _ => try discriminate H
  end.

(** Invert a run of a handler that returned a value. *)
Ltac inv_run H :=
  lazymatch type of H with
  | (_ ≫= _) _ = (Ret _, _) =>
      apply M_bind_Ret in H; let a := fresh "a" in let s := fresh "s" in let Ha := fresh "Hrun" in
      destruct H as (a & s & Ha & H); inv_run Ha; inv_run H
  | (_ <$> _) _ = (Ret _, _) =>
      apply M_fmap_Ret in H; let a := fresh "a" in destruct H as (a & H & ?); inv_run H
  | guard_err _ _ _ = (Ret _, _) => apply guard_err_Ret in H; destruct H as [H ?]; subst
  | lift _ _ = (Ret _, _) =>
      apply lift_Ret in H; destruct H as [H ?]; subst; inv_outcome H
  | (mret _) _ = (Ret _, _) => apply mret_Ret in H; destruct H; subst
  | throw _ _ = (Ret _, _) => discriminate H
  | map_err _ _ _ = (Ret _, _) => apply map_err_Ret in H; inv_run H
  | _ => try discriminate H
  end.

(** Split every boolean connective in the context. *)
Ltac bool_simpl :=
  repeat match goal with
  | H : _ && _ = true |- _ => apply andb_true_iff in H; destruct H
  | H : _ || _ = false |- _ => apply orb_false_iff in H; destruct H
  | H : negb _ = true |- _ => apply negb_true_iff in H
  | H : negb _ = false |- _ => apply negb_false_iff in H
  | H : bool_decide _ = true |- _ => apply bool_decide_eq_true in H
  | H : bool_decide _ = false |- _ => apply bool_decide_eq_false in H
  | H : String.eqb _ _ = true |- _ => apply String.eqb_eq in H
  | H : String.eqb _ _ = false |- _ => apply String.eqb_neq in H
  | H : Z.eqb _ _ = true |- _ => apply Z.eqb_eq in H
  | H : Z.eqb _ _ = false |- _ => apply Z.eqb_neq in H
  | H : Z.ltb _ _ = true |- _ => apply Z.ltb_lt in H
  | H : Z.ltb _ _ = false |- _ => apply Z.ltb_ge in H
  | H : Z.leb _ _ = true |- _ => apply Z.leb_le in H
  | H : Z.leb _ _ = false |- _ => apply Z.leb_gt in H
  end.

(** ** Options as Go pointers *)

Definition is_nil {A} (p : option A) : bool := match p with None => true | Some _ => false end.

Lemma is_nil_false {A} (p : option A) : is_nil p = false ↔ ∃ a, p = Some a.
Proof. destruct p; cbn; naive_solver. Qed.
Lemma is_nil_true {A} (p : option A) : is_nil p = true ↔ p = None.
Proof. destruct p; cbn; naive_solver. Qed.

(** ** First occurrences

    The reference of the loops that skip what they have seen: the elements of
    a list, each at its first occurrence. *)
Section firsts.
Context {A : Type} `{EqDecision A}.

Fixpoint firsts (l : list A) : list A :=
  match l with
  | [] => []
  | x :: l => x :: filter (λ y, y ≠ x) (firsts l)
  end.

Lemma elem_of_firsts x l : x ∈ firsts l ↔ x ∈ l.
Proof.
  induction l as [|y l IH]; cbn; [done|]. rewrite !elem_of_cons, list_elem_of_filter, IH.
  destruct (decide (x = y)); naive_solver.
Qed.

Lemma NoDup_firsts l : NoDup (firsts l).
Proof.
  induction l as [|x l IH]; cbn; constructor; [|by apply NoDup_filter].
  rewrite list_elem_of_filter. naive_solver.
Qed.

Lemma firsts_snoc l x : firsts (l ++ [x]) = if decide (x ∈ l) then firsts l else firsts l ++ [x].
Proof.
  induction l as [|y l IH]; cbn.
  - destruct (decide (x ∈ [])) as [H|_]; [by apply elem_of_nil in H|done].
  - rewrite IH. destruct (decide (x ∈ l)) as [Hin|Hout], (decide (x ∈ y :: l)) as [Hin'|Hout'];
      rewrite ?elem_of_cons in *; try done; try naive_solver.
    + destruct Hin' as [->|?]; [|done]. f_equal. rewrite filter_app. cbn.
      rewrite decide_False by naive_solver. by rewrite app_nil_r.
    + f_equal. rewrite filter_app. cbn. by rewrite decide_True by naive_solver.
Qed.
End firsts.

(** ** Reflexive and transitive closure of a step relation *)

Section steps.
Context {St : Type} (R : St → St → Prop).

Inductive steps : St → St → Prop :=
  | steps_refl s : steps s s
  | steps_cons s1 s2 s3 : R s1 s2 → steps s2 s3 → steps s1 s3.

Lemma steps_trans s1 s2 s3 : steps s1 s2 → steps s2 s3 → steps s1 s3.
Proof. induction 1; eauto using steps. Qed.
Lemma steps_one s1 s2 : R s1 s2 → steps s1 s2.
Proof. eauto using steps. Qed.
Lemma steps_invariant (I : St → Prop) :
  (∀ s1 s2, I s1 → R s1 s2 → I s2) → ∀ s1 s2, steps s1 s2 → I s1 → I s2.
Proof. induction 2; eauto. Qed.
End steps.
