(* ===== verification/GoStd.v ===== *)
(** * GoStd: the parts of the Go language and standard library the program uses

    Go strings are byte sequences and are modelled by [string] (a list of 8-bit
    characters).  The file defines the functions of packages [strings], [path],
    [unicode/utf8], [sort], [hash/fnv] and the integer formatting of [fmt] and
    [strconv] that the source calls, and the lemmas the components share. *)

From S2P Require Import Prelude.
From stdpp Require Export pretty.

#[local] Open Scope string_scope.

#[global] Arguments String.append !_ _ / : simpl nomatch.
#[global] Arguments Ascii.eqb : simpl never.
#[global] Arguments String.eqb : simpl never.

(** ** Bytes and slices *)

Definition byte_val (a : ascii) : Z := Z.of_N (N_of_ascii a).

(** The Go string with the given bytes. *)
Definition bytes (l : list N) : string := string_of_list_ascii (ascii_of_N <$> l).

(** [len(s)] *)
Definition slen (s : string) : Z := Z.of_nat (String.length s).

(** [s[:n]] and [s[n:]] *)
Fixpoint stake (n : nat) (s : string) : string :=
  match n, s with
  | S n', String a r => String a (stake n' r)
  | _, _ => ""
  end.
Fixpoint sdrop (n : nat) (s : string) : string :=
  match n, s with
  | S n', String _ r => sdrop n' r
  | _, _ => s
  end.

(** ** Package strings *)

Fixpoint contains_char (c : ascii) (s : string) : bool :=
  match s with
  | EmptyString => false
  | String a r => Ascii.eqb a c || contains_char c r
  end.

(** [strings.Count(s, sep)] for a one-byte separator. *)
Fixpoint count_char (c : ascii) (s : string) : nat :=
  match s with
  | EmptyString => 0
  | String a r => (if Ascii.eqb a c then 1 else 0) + count_char c r
  end.

(** [strings.Split(s, sep)] for a one-byte separator. *)
Fixpoint split (c : ascii) (s : string) : list string :=
  match s with
  | EmptyString => [""]
  | String a r =>
      if Ascii.eqb a c then "" :: split c r
      else match split c r with
           | [] => [String a ""]
           | h :: t => String a h :: t
           end
  end.

(** [strings.Join(l, sep)] for a one-byte separator. *)
Fixpoint join (c : ascii) (l : list string) : string :=
  match l with
  | [] => ""
  | [x] => x
  | x :: l' => x +:+ String c (join c l')
  end.

Fixpoint has_prefix (p s : string) : bool :=
  match p, s with
  | EmptyString, _ => true
  | String a p', String b s' => Ascii.eqb a b && has_prefix p' s'
  | String _ _, EmptyString => false
  end.
Definition has_suffix (p s : string) : bool :=
  (String.length p <=? String.length s)%nat
  && String.eqb (sdrop (String.length s - String.length p) s) p.
Definition trim_prefix (p s : string) : string :=
  if has_prefix p s then sdrop (String.length p) s else s.
Definition trim_suffix (p s : string) : string :=
  if has_suffix p s then stake (String.length s - String.length p) s else s.

(** [strings.Contains(s, sub)] *)
Fixpoint contains (sub s : string) : bool :=
  has_prefix sub s
  || match s with
     | EmptyString => false
     | String _ r => contains sub r
     end.

(** [strings.Cut(s, sep)] for a one-byte separator. *)
Fixpoint cut (c : ascii) (s : string) : option (string * string) :=
  match s with
  | EmptyString => None
  | String a r =>
      if Ascii.eqb a c then Some ("", r)
      else match cut c r with
           | Some (b, t) => Some (String a b, t)
           | None => None
           end
  end.

(** The UTF-8 encodings of the code points with Unicode property White_Space. *)
Definition space_encodings : list string :=
  bytes <$> ([[9]; [10]; [11]; [12]; [13]; [32]; [0xC2; 0x85]; [0xC2; 0xA0];
              [0xE1; 0x9A; 0x80]; [0xE2; 0x80; 0xA8]; [0xE2; 0x80; 0xA9];
              [0xE2; 0x80; 0xAF]; [0xE2; 0x81; 0x9F]; [0xE3; 0x80; 0x80]]
             ++ ((λ k, [0xE2; 0x80; 0x80 + k]) <$> [0; 1; 2; 3; 4; 5; 6; 7; 8; 9; 10]))%N%list.

Definition leading_space (s : string) : option string :=
  list_find (λ w, has_prefix w s = true) space_encodings ≫= λ p, Some p.2.
Definition trailing_space (s : string) : option string :=
  list_find (λ w, has_suffix w s = true) space_encodings ≫= λ p, Some p.2.

Fixpoint trim_left_aux (fuel : nat) (s : string) : string :=
  match fuel with
  | O => s
  | S n => match leading_space s with
           | Some w => trim_left_aux n (sdrop (String.length w) s)
           | None => s
           end
  end.
Fixpoint trim_right_aux (fuel : nat) (s : string) : string :=
  match fuel with
  | O => s
  | S n => match trailing_space s with
           | Some w => trim_right_aux n (stake (String.length s - String.length w) s)
           | None => s
           end
  end.

(** [strings.TrimSpace(s)]: every step drops at least one byte, so [len(s)]
    steps are enough. *)
Definition trim_space (s : string) : string :=
  let l := trim_left_aux (String.length s) s in trim_right_aux (String.length l) l.

(** [strings.Trim(s, cutset)] for an ASCII cutset. *)
Fixpoint trim_left_set (cs : list ascii) (s : string) : string :=
  match s with
  | String a r => if existsb (Ascii.eqb a) cs then trim_left_set cs r else s
  | EmptyString => ""
  end.
Fixpoint trim_right_set (cs : list ascii) (s : string) : string :=
  match s with
  | String a r =>
      match trim_right_set cs r with
      | EmptyString => if existsb (Ascii.eqb a) cs then "" else String a ""
      | r' => String a r'
      end
  | EmptyString => ""
  end.
Definition trim_set (cs : list ascii) (s : string) : string :=
  trim_right_set cs (trim_left_set cs s).

Definition lower_byte (a : ascii) : ascii :=
  let v := N_of_ascii a in
  if ((65 <=? v) && (v <=? 90))%N then ascii_of_N (v + 32) else a.

(** [strings.ToLower(s)] as far as its ASCII characters go: the ASCII letters,
    and the two non-ASCII code points whose lower case is ASCII (U+0130 and
    U+212A).  The other non-ASCII bytes are kept: the source only searches the
    result for ASCII substrings or classifies its ASCII bytes. *)
Fixpoint to_lower (s : string) : string :=
  match s with
  | EmptyString => ""
  | String a r =>
      match r with
      | String b r2 =>
          if (N_of_ascii a =? 0xC4)%N && (N_of_ascii b =? 0xB0)%N
          then String "i" (to_lower r2)
          else match r2 with
               | String c r3 =>
                   if (N_of_ascii a =? 0xE2)%N && (N_of_ascii b =? 0x84)%N
                      && (N_of_ascii c =? 0xAA)%N
                   then String "k" (to_lower r3)
                   else String (lower_byte a) (to_lower r)
               | EmptyString => String (lower_byte a) (to_lower r)
               end
      | EmptyString => String (lower_byte a) ""
      end
  end.

(** [sort.Strings]: bytewise lexicographic order. *)
Definition sort_strings (l : list string) : list string := merge_sort String.le l.

(** ** Package unicode/utf8 *)

Definition in_range (lo hi : N) (a : ascii) : bool :=
  ((lo <=? N_of_ascii a) && (N_of_ascii a <=? hi))%N.

(** [utf8.Valid]: RFC 3629, without surrogates and overlong forms. *)
Fixpoint utf8_valid (s : string) : bool :=
  match s with
  | EmptyString => true
  | String a r =>
      if in_range 0 0x7F a then utf8_valid r
      else match r with
      | EmptyString => false
      | String b r2 =>
          if in_range 0xC2 0xDF a then in_range 0x80 0xBF b && utf8_valid r2
          else match r2 with
          | EmptyString => false
          | String c r3 =>
              if in_range 0xE0 0xEF a then
                in_range (if in_range 0xE0 0xE0 a then 0xA0 else 0x80)%N
                         (if in_range 0xED 0xED a then 0x9F else 0xBF)%N b
                && in_range 0x80 0xBF c && utf8_valid r3
              else match r3 with
              | EmptyString => false
              | String d r4 =>
                  in_range 0xF0 0xF4 a
                  && in_range (if in_range 0xF0 0xF0 a then 0x90 else 0x80)%N
                              (if in_range 0xF4 0xF4 a then 0x8F else 0xBF)%N b
                  && in_range 0x80 0xBF c && in_range 0x80 0xBF d && utf8_valid r4
              end
          end
      end
  end.

(** ** Package path *)

(** One path element processed by [path.Clean]: the elements kept so far are
    in reverse order. *)
Definition clean_step (rooted : bool) (kept : list string) (elem : string) : list string :=
  if String.eqb elem "" || String.eqb elem "." then kept
  else if String.eqb elem ".." then
    match kept with
    | [] => if rooted then [] else [".."]
    | top :: below => if String.eqb top ".." then ".." :: kept else below
    end
  else elem :: kept.

Definition clean_elems (rooted : bool) (elems : list string) : list string :=
  rev (foldl (clean_step rooted) [] elems).

(** [path.Clean(p)] *)
Definition path_clean (p : string) : string :=
  if String.eqb p "" then "."
  else
    let rooted := has_prefix "/" p in
    let out := join "/" (clean_elems rooted (split "/" p)) in
    if rooted then "/" +:+ out
    else if String.eqb out "" then "." else out.

(** ** Machine integers *)

Definition wrap64 (z : Z) : Z := (z + 2 ^ 63) mod 2 ^ 64 - 2 ^ 63.
Definition int64_min : Z := - 2 ^ 63.
Definition int64_max : Z := 2 ^ 63 - 1.

(** ** Package hash/fnv *)

Definition fnv32a_write (h : Z) (s : string) : Z :=
  foldl (λ h a, (Z.lxor h (byte_val a) * 16777619) mod 2 ^ 32)%Z h (list_ascii_of_string s).
Definition fnv32a_init : Z := 2166136261.
Definition fnv64a_write (h : Z) (s : string) : Z :=
  foldl (λ h a, (Z.lxor h (byte_val a) * 1099511628211) mod 2 ^ 64)%Z h (list_ascii_of_string s).
Definition fnv64a_init : Z := 14695981039346656037.

(** ** Integer formatting *)

Definition hex_digit (d : Z) : ascii :=
  if (d <? 10)%Z then ascii_of_N (Z.to_N (48 + d)) else ascii_of_N (Z.to_N (87 + d)).

(** The [w] low hexadecimal digits of [z] ([%0wx] of a value below [16^w]). *)
Fixpoint hex_fixed (w : nat) (z : Z) : string :=
  match w with
  | O => ""
  | S w' => hex_fixed w' (z / 16) +:+ String (hex_digit (z mod 16)) ""
  end.

(** [strconv.FormatInt(z, 10)] and [%d]. *)
Definition format_int (z : Z) : string := pretty z.
