(* ===== verification/GoStdFacts.v ===== *)
(** * GoStdFacts: lemmas about the Go standard library model

    Splitting and joining, [path.Clean], FNV and fixed-width formatting. *)

From S2P Require Import Prelude GoStd.
From Stdlib Require Import Lia.

#[local] Open Scope string_scope.

(** ** Splitting and joining *)

Lemma split_nonempty c s : split c s ≠ [].
Proof. induction s as [|a s IH]; cbn; [done|]. destruct (Ascii.eqb a c), (split c s); done. Qed.

Lemma join_cons c x l : l ≠ [] → join c (x :: l) = x +:+ String c (join c l).
Proof. by destruct l. Qed.

Lemma join_split c s : join c (split c s) = s.
Proof.
  induction s as [|a s IH]; cbn; [done|].
  destruct (Ascii.eqb_spec a c) as [->|Hac].
  - rewrite join_cons by apply split_nonempty. cbn. by rewrite IH.
  - destruct (split c s) as [|h [|h2 t]] eqn:E; cbn in *; [by subst|by subst|].
    by rewrite <-IH.
Qed.

Lemma length_split c s : length (split c s) = S (count_char c s).
Proof.
  induction s as [|a s IH]; cbn; [done|].
  destruct (Ascii.eqb a c); cbn; [by rewrite IH|].
  destruct (split c s) eqn:E; cbn in *; [by destruct (split_nonempty c s)|done].
Qed.

Lemma split_no_char c s : Forall (λ x, contains_char c x = false) (split c s).
Proof.
  induction s as [|a s IH]; cbn; [by repeat constructor|].
  destruct (Ascii.eqb a c) eqn:Hac.
  - by constructor.
  - destruct (split c s) as [|h t]; cbn.
    + repeat constructor. cbn. by rewrite Hac.
    + inversion_clear IH. constructor; [|done]. cbn. by rewrite Hac.
Qed.

Lemma count_char_0 c s : count_char c s = 0%nat ↔ contains_char c s = false.
Proof.
  induction s as [|a s IH]; cbn; [done|]. destruct (Ascii.eqb a c); cbn; [|done]. naive_solver.
Qed.

Lemma split_plain c s : contains_char c s = false → split c s = [s].
Proof.
  induction s as [|a s IH]; cbn; [done|]. intros [Ha Hs]%orb_false_iff.
  by rewrite Ha, IH.
Qed.

Lemma split_app c x s : contains_char c x = false → split c (x +:+ String c s) = x :: split c s.
Proof.
  induction x as [|a x IH]; cbn.
  - intros _. by rewrite Ascii.eqb_refl.
  - intros [Ha Hx]%orb_false_iff. by rewrite Ha, IH.
Qed.

Lemma split_join c l :
  l ≠ [] → Forall (λ x, contains_char c x = false) l → split c (join c l) = l.
Proof.
  induction l as [|x l IH]; [done|]. intros _ [Hx Hl]%Forall_cons.
  destruct l as [|y l]; [by apply split_plain|].
  rewrite join_cons by done. rewrite split_app by done. by rewrite IH.
Qed.

Lemma contains_char_app c x y : contains_char c (x +:+ y) = contains_char c x || contains_char c y.
Proof. induction x as [|a x IH]; cbn; [done|]. by rewrite IH, orb_assoc. Qed.

Lemma count_char_app c x y : count_char c (x +:+ y) = (count_char c x + count_char c y)%nat.
Proof. induction x as [|a x IH]; cbn; [done|]. rewrite IH. lia. Qed.

(** ** Lengths *)

Lemma length_append x y : String.length (x +:+ y) = (String.length x + String.length y)%nat.
Proof. induction x as [|a x IH]; cbn; [done|]. by rewrite IH. Qed.

Lemma slen_append x y : slen (x +:+ y) = (slen x + slen y)%Z.
Proof. unfold slen. rewrite length_append. lia. Qed.

Lemma slen_nonneg s : (0 ≤ slen s)%Z.
Proof. unfold slen. lia. Qed.

Lemma length_stake n s : String.length (stake n s) = Nat.min n (String.length s).
Proof. revert s. induction n as [|n IH]; intros [|a s]; cbn; auto. Qed.

Lemma stake_sdrop n s : stake n s +:+ sdrop n s = s.
Proof. revert s. induction n as [|n IH]; intros [|a s]; cbn; [done..|]. by rewrite IH. Qed.

Lemma length_sdrop n s : String.length (sdrop n s) = (String.length s - n)%nat.
Proof. revert s. induction n as [|n IH]; intros [|a s]; cbn; auto. Qed.

Lemma length_hex_fixed w z : String.length (hex_fixed w z) = w.
Proof.
  revert z. induction w as [|w IH]; intros z; cbn; [done|].
  rewrite length_append, IH. cbn. lia.
Qed.

Lemma slen_hex_fixed w z : slen (hex_fixed w z) = Z.of_nat w.
Proof. unfold slen. by rewrite length_hex_fixed. Qed.

Lemma length_zero_iff s : String.length s = 0%nat ↔ s = "".
Proof. by destruct s. Qed.

(** ** FNV-1a stays within its word *)

Lemma fnv32a_write_bounds h s : (0 ≤ h < 2 ^ 32 → 0 ≤ fnv32a_write h s < 2 ^ 32)%Z.
Proof.
  unfold fnv32a_write. generalize (list_ascii_of_string s) as l. intros l. revert h.
  induction l as [|a l IH]; intros h H; cbn; [done|]. apply IH. by apply Z.mod_pos_bound.
Qed.

(** ** path.Clean *)

(** An element that [path.Clean] keeps: it has no slash, and is neither empty
    nor a dot. *)
Definition kept_elem (e : string) : Prop :=
  e ≠ "" ∧ e ≠ "." ∧ contains_char "/" e = false.

(** A plain element: kept, and not the parent directory. *)
Definition plain_elem (e : string) : Prop := kept_elem e ∧ e ≠ "..".

Lemma clean_step_kept rooted kept e :
  contains_char "/" e = false → Forall kept_elem kept →
  Forall kept_elem (clean_step rooted kept e).
Proof.
  intros He Hk. unfold clean_step.
  destruct (String.eqb_spec e ""); cbn; [done|]. destruct (String.eqb_spec e "."); [done|].
  destruct (String.eqb_spec e "..") as [->|].
  - destruct kept as [|top below]; [destruct rooted; by repeat constructor|].
    apply Forall_cons in Hk as [Ht Hb].
    destruct (String.eqb_spec top ".."); [|done].
    constructor; [done|]. by constructor.
  - by constructor.
Qed.

Lemma clean_elems_kept rooted l :
  Forall (λ x, contains_char "/" x = false) l → Forall kept_elem (clean_elems rooted l).
Proof.
  intros Hl. unfold clean_elems. apply Forall_rev.
  enough (∀ k, Forall kept_elem k → Forall kept_elem (foldl (clean_step rooted) k l)) as H
    by (by apply H).
  induction Hl as [|e l He Hl IH]; intros k Hk; cbn; [done|].
  apply IH. by apply clean_step_kept.
Qed.

(** Plain elements are kept in order. *)
Lemma clean_elems_plain rooted l : Forall plain_elem l → clean_elems rooted l = l.
Proof.
  intros Hl. unfold clean_elems.
  enough (∀ k, foldl (clean_step rooted) k l = (rev l ++ k)%list) as H.
  { rewrite H, app_nil_r. apply rev_involutive. }
  induction Hl as [|e l [(H1 & H2 & H3) H4] Hl IH]; intros k; cbn; [done|].
  rewrite IH. unfold clean_step.
  apply String.eqb_neq in H1, H2, H4. rewrite H1, H2, H4; cbn. by rewrite <-app_assoc.
Qed.

Lemma has_prefix_slash_append e s :
  e ≠ "" → contains_char "/" e = false → has_prefix "/" (e +:+ s) = false.
Proof.
  destruct e as [|a e]; [done|]. cbn. intros _ [Ha _]%orb_false_iff.
  by rewrite Ascii.eqb_sym, Ha.
Qed.

Lemma append_empty_r x : x +:+ "" = x.
Proof. induction x as [|a x IH]; cbn; [done|]. by rewrite IH. Qed.

Lemma join_head c x l : ∃ r, join c (x :: l) = x +:+ r.
Proof.
  destruct l; [exists ""; by rewrite append_empty_r|]. eexists. reflexivity.
Qed.

Lemma join_nonempty c x l : x ≠ "" → join c (x :: l) ≠ "".
Proof. destruct (join_head c x l) as [r ->]. by destruct x. Qed.

(** A relative path made of plain elements is its own normal form. *)
Lemma path_clean_plain l :
  l ≠ [] → Forall plain_elem l → path_clean (join "/" l) = join "/" l.
Proof.
  intros Hne Hl. unfold path_clean. destruct l as [|x l]; [done|].
  pose proof Hl as [[(Hx1 & Hx2 & Hx3) Hx4] _]%Forall_cons.
  pose proof (join_nonempty "/" x l Hx1) as Hj.
  rewrite (proj2 (String.eqb_neq _ _) Hj).
  assert (has_prefix "/" (join "/" (x :: l)) = false) as ->.
  { destruct (join_head "/" x l) as [r ->]. by apply has_prefix_slash_append. }
  rewrite split_join; [|done|].
  - rewrite clean_elems_plain by done. by rewrite (proj2 (String.eqb_neq _ _) Hj).
  - eapply Forall_impl; [exact Hl|]. intros y [(_ & _ & Hy) _]. done.
Qed.

(** ** Sorting *)

Lemma sort_strings_perm l : sort_strings l ≡ₚ l.
Proof. apply merge_sort_Permutation. Qed.

Lemma sort_strings_sorted l : Sorted String.le (sort_strings l).
Proof. unfold sort_strings. apply Sorted_merge_sort, _. Qed.

#[export] Hint Resolve sort_strings_perm sort_strings_sorted slen_nonneg : go.
#[export] Hint Rewrite slen_append slen_hex_fixed length_append length_hex_fixed
  length_stake length_sdrop : go.
