(* ===== verification/StringFacts.v ===== *)
(** * StringFacts: what strings are made of

    Predicates on the bytes of a string, and what cutting, trimming with a
    cutset and [strings.TrimSpace] do to them. *)

From S2P Require Import Prelude GoStd GoStdFacts.

#[local] Open Scope string_scope.
#[local] Open Scope list_scope.

Module StringFacts.

(** ** Strings made of given bytes *)

Fixpoint all_bytes (p : ascii → bool) (s : string) : bool :=
  match s with EmptyString => true | String a s => p a && all_bytes p s end.
Definition first_is (p : ascii → bool) (s : string) : bool :=
  match s with EmptyString => false | String a _ => p a end.
Fixpoint last_is (p : ascii → bool) (s : string) : bool :=
  match s with
  | EmptyString => false
  | String a EmptyString => p a
  | String _ s => last_is p s
  end.

Lemma all_bytes_app p x y : all_bytes p (x +:+ y) = all_bytes p x && all_bytes p y.
Proof. induction x as [|a x IH]; cbn; [done|]. by rewrite IH, andb_assoc. Qed.

Lemma first_is_app p x y : x ≠ "" → first_is p (x +:+ y) = first_is p x.
Proof. by destruct x. Qed.

Lemma last_is_app p x y : y ≠ "" → last_is p (x +:+ y) = last_is p y.
Proof.
  intros Hy. induction x as [|a x IH]; [done|]. cbn [String.append last_is]. rewrite <-IH.
  by destruct x, y.
Qed.

Lemma all_bytes_stake p n s : all_bytes p s = true → all_bytes p (stake n s) = true.
Proof.
  revert n. induction s as [|a s IH]; intros [|n]; cbn; [done..|].
  intros [-> H]%andb_true_iff. cbn. by apply IH.
Qed.

Lemma first_is_stake p n s : (0 < n)%nat → first_is p (stake n s) = first_is p s.
Proof. destruct n, s; cbn; lia || done. Qed.

Lemma all_bytes_impl p q s : (∀ a, p a = true → q a = true) → all_bytes p s = true → all_bytes q s = true.
Proof.
  intros Hpq. induction s as [|a s IH]; cbn; [done|]. intros [Ha Hs]%andb_true_iff.
  by rewrite (Hpq _ Ha), IH.
Qed.

Lemma last_is_all p s : s ≠ "" → all_bytes p s = true → last_is p s = true.
Proof.
  induction s as [|a [|b s] IH]; cbn [all_bytes last_is]; [done|..].
  - by intros _ [? _]%andb_true_iff.
  - intros _ [_ H]%andb_true_iff. by apply IH.
Qed.

(** ** strings.Trim with a cutset *)

Definition outside (cs : list ascii) (a : ascii) : bool := negb (existsb (Ascii.eqb a) cs).

Lemma trim_left_set_spec cs p s :
  (all_bytes p s = true → all_bytes p (trim_left_set cs s) = true) ∧
  (trim_left_set cs s = "" ∨ first_is (outside cs) (trim_left_set cs s) = true) ∧
  (String.length (trim_left_set cs s) ≤ String.length s)%nat ∧
  (first_is (outside cs) s = true → trim_left_set cs s = s).
Proof.
  induction s as [|a s (IH1 & IH2 & IH3 & IH4)]; cbn; [by split_and!; auto|].
  destruct (existsb (Ascii.eqb a) cs) eqn:Ha; cbn.
  - split_and!; [intros [_ H]%andb_true_iff; auto|done|lia|].
    unfold outside. by rewrite Ha.
  - unfold outside. rewrite Ha. by split_and!; auto.
Qed.

Lemma trim_right_set_spec cs p s :
  (all_bytes p s = true → all_bytes p (trim_right_set cs s) = true) ∧
  (trim_right_set cs s = "" ∨ last_is (outside cs) (trim_right_set cs s) = true) ∧
  (String.length (trim_right_set cs s) ≤ String.length s)%nat ∧
  (first_is (outside cs) s = true → first_is p s = true →
     first_is (outside cs) (trim_right_set cs s) = true ∧ first_is p (trim_right_set cs s) = true).
Proof.
  induction s as [|a s (IH1 & IH2 & IH3 & _)]; cbn [all_bytes trim_right_set]; [by split_and!; auto|].
  destruct (trim_right_set cs s) as [|b r] eqn:Hr.
  - destruct (existsb (Ascii.eqb a) cs) eqn:Ha; cbn; unfold outside.
    + rewrite Ha. split_and!; [done|by left|lia|done].
    + rewrite Ha. split_and!; [by intros [-> _]%andb_true_iff|by right|lia|done].
  - split_and!.
    + intros [Ha Hs]%andb_true_iff. cbn [all_bytes]. rewrite Ha. by apply IH1.
    + right. destruct IH2 as [|H]; [done|]. exact H.
    + cbn in *. lia.
    + done.
Qed.

(** A trimmed string is empty or starts and ends outside the cutset. *)
Lemma trim_set_spec cs p s :
  all_bytes p s = true →
  all_bytes p (trim_set cs s) = true ∧ (String.length (trim_set cs s) ≤ String.length s)%nat ∧
  (trim_set cs s = "" ∨
   first_is (outside cs) (trim_set cs s) = true ∧ last_is (outside cs) (trim_set cs s) = true).
Proof.
  intros Hp. unfold trim_set.
  destruct (trim_left_set_spec cs p s) as (L1 & L2 & L3 & _).
  destruct (trim_right_set_spec cs (outside cs) (trim_left_set cs s)) as (_ & R2 & R3 & R4).
  destruct (trim_right_set_spec cs p (trim_left_set cs s)) as (R1 & _).
  split_and!; [auto|lia|]. destruct L2 as [->|L2]; [by left|]. destruct R2 as [R2|R2]; [by left|right].
  split; [|done]. by apply R4.
Qed.

(** A non-empty prefix of a string that starts outside the cutset does not
    vanish when it is trimmed. *)
Lemma trim_set_nonempty cs s :
  first_is (outside cs) s = true → trim_set cs s ≠ "".
Proof.
  intros H. unfold trim_set. destruct (trim_left_set_spec cs (outside cs) s) as (_ & _ & _ & L4).
  rewrite L4 by done. destruct (trim_right_set_spec cs (outside cs) s) as (_ & _ & _ & R4).
  destruct (R4 H H) as [R _]. by destruct (trim_right_set cs s).
Qed.

(** ** Cutting *)

Lemma slen_stake n s : slen (stake n s) = Z.min (Z.of_nat n) (slen s).
Proof. unfold slen. rewrite length_stake. lia. Qed.

Lemma slen_trim_set cs s : (slen (trim_set cs s) ≤ slen s)%Z.
Proof.
  destruct (trim_set_spec cs (λ _, true) s) as (_ & H & _); [|unfold slen; lia].
  by induction s.
Qed.

Lemma sdrop_app x y : sdrop (String.length x) (x +:+ y) = y.
Proof. by induction x. Qed.

Lemma append_inj_same_length x1 x2 y1 y2 :
  String.length y1 = String.length y2 → x1 +:+ y1 = x2 +:+ y2 → x1 = x2 ∧ y1 = y2.
Proof.
  intros Hl H. assert (String.length x1 = String.length x2) as Hx.
  { apply (f_equal String.length) in H. rewrite !length_append in H. lia. }
  revert x2 Hx H. induction x1 as [|a x1 IH]; intros [|b x2] Hx H; try done. cbn in *.
  injection H as -> H. injection Hx as Hx. destruct (IH _ Hx H) as [-> ->]. done.
Qed.

(** ** Trimming a string that needs none *)

Definition graphic (a : ascii) : bool := let v := N_of_ascii a in ((33 <=? v) && (v <=? 126))%N.

Lemma leading_space_None s : first_is graphic s = true → leading_space s = None.
Proof.
  intros Hs. unfold leading_space.
  destruct (list_find _ _) as [[i w]|] eqn:Hf; [|done]. exfalso.
  apply list_find_Some in Hf as (Hi & Hpre & _). apply list_elem_of_lookup_2 in Hi.
  assert (Forall (λ w, first_is graphic w = false ∧ w ≠ "") space_encodings) as Hall.
  { by repeat constructor. }
  rewrite Forall_forall in Hall. destruct (Hall w Hi) as [Hw Hne].
  destruct w as [|b w], s as [|a s]; try done. cbn in *.
  apply andb_true_iff in Hpre as [->%Ascii.eqb_eq _]. congruence.
Qed.

Lemma trailing_space_None s : last_is graphic s = true → trailing_space s = None.
Proof.
  intros Hs. unfold trailing_space.
  destruct (list_find _ _) as [[i w]|] eqn:Hf; [|done]. exfalso.
  apply list_find_Some in Hf as (Hi & Hsuf & _). apply list_elem_of_lookup_2 in Hi.
  assert (Forall (λ w, last_is graphic w = false ∧ w ≠ "") space_encodings) as Hall.
  { by repeat constructor. }
  rewrite Forall_forall in Hall. destruct (Hall w Hi) as [Hw Hne].
  unfold has_suffix in Hsuf. apply andb_true_iff in Hsuf as [_ Heq%String.eqb_eq].
  rewrite <-(stake_sdrop (String.length s - String.length w) s), Heq in Hs.
  rewrite last_is_app in Hs by done. congruence.
Qed.

Lemma trim_space_id s : first_is graphic s = true → last_is graphic s = true → trim_space s = s.
Proof.
  intros Hf Hl. unfold trim_space.
  assert (∀ n, trim_left_aux n s = s) as ->.
  { intros [|n]; cbn [trim_left_aux]; [done|]. by rewrite leading_space_None. }
  destruct (String.length s); cbn [trim_right_aux]; [done|]. by rewrite trailing_space_None.
Qed.

(** ** strings.TrimSpace is idempotent *)

Lemma space_encodings_nonempty : Forall (λ w, w ≠ "") space_encodings.
Proof. by repeat constructor. Qed.

Lemma leading_space_Some s w :
  leading_space s = Some w → has_prefix w s = true ∧ (0 < String.length w)%nat.
Proof.
  unfold leading_space. destruct (list_find _ _) as [[i x]|] eqn:Hf; [|done]. intros [= <-].
  apply list_find_Some in Hf as (Hi & Hpre & _). split; [done|].
  apply list_elem_of_lookup_2 in Hi. pose proof space_encodings_nonempty as Hall.
  rewrite Forall_forall in Hall. specialize (Hall x Hi). destruct x; [done|cbn; lia].
Qed.

Lemma trailing_space_Some s w :
  trailing_space s = Some w → has_suffix w s = true ∧ (0 < String.length w)%nat.
Proof.
  unfold trailing_space. destruct (list_find _ _) as [[i x]|] eqn:Hf; [|done]. intros [= <-].
  apply list_find_Some in Hf as (Hi & Hsuf & _). split; [done|].
  apply list_elem_of_lookup_2 in Hi. pose proof space_encodings_nonempty as Hall.
  rewrite Forall_forall in Hall. specialize (Hall x Hi). destruct x; [done|cbn; lia].
Qed.

Lemma has_prefix_length w s : has_prefix w s = true → (String.length w ≤ String.length s)%nat.
Proof.
  revert s. induction w as [|a w IH]; intros [|b s]; cbn; try done; [lia|].
  intros [_ H]%andb_true_iff. apply IH in H. lia.
Qed.

Lemma has_prefix_stake w k s : has_prefix w (stake k s) = true → has_prefix w s = true.
Proof.
  revert k s. induction w as [|a w IH]; intros [|k] [|b s]; cbn; try done.
  intros [-> H]%andb_true_iff. cbn. by eapply IH.
Qed.

Lemma trim_left_aux_done n s : (String.length s ≤ n)%nat → leading_space (trim_left_aux n s) = None.
Proof.
  revert s. induction n as [|n IH]; intros s Hn; cbn [trim_left_aux].
  - destruct s; [reflexivity|cbn in Hn; lia].
  - destruct (leading_space s) as [w|] eqn:Hw; [|done]. apply IH.
    apply leading_space_Some in Hw as [Hp%has_prefix_length Hw]. rewrite length_sdrop. lia.
Qed.

Lemma trim_right_aux_done n s : (String.length s ≤ n)%nat → trailing_space (trim_right_aux n s) = None.
Proof.
  revert s. induction n as [|n IH]; intros s Hn; cbn [trim_right_aux].
  - destruct s; [reflexivity|cbn in Hn; lia].
  - destruct (trailing_space s) as [w|] eqn:Hw; [|done]. apply IH.
    apply trailing_space_Some in Hw as [Hp Hw]. unfold has_suffix in Hp.
    apply andb_true_iff in Hp as [Hle%Nat.leb_le _]. rewrite length_stake. lia.
Qed.

(** A trailing trim keeps a prefix. *)
Lemma trim_right_aux_prefix n s : ∃ k, trim_right_aux n s = stake k s.
Proof.
  assert (∀ s, stake (String.length s) s = s) as Hid by (intros x; induction x; cbn; congruence).
  assert (∀ i j s, ∃ k, stake i (stake j s) = stake k s) as Hcomp.
  { induction i as [|i IHi]; intros j x; [by exists 0%nat; destruct x|].
    destruct j as [|j], x as [|a x]; try (by exists 0%nat).
    destruct (IHi j x) as [k Hk]. exists (S k). cbn. by rewrite Hk. }
  revert s. induction n as [|n IH]; intros s; cbn [trim_right_aux]; [by exists (String.length s)|].
  destruct (trailing_space s) as [w|]; [|by exists (String.length s)].
  destruct (IH (stake (String.length s - String.length w) s)) as [k ->]. apply Hcomp.
Qed.

Lemma leading_space_stake k s : leading_space s = None → leading_space (stake k s) = None.
Proof.
  intros H. destruct (leading_space (stake k s)) as [w|] eqn:Hw; [|done]. exfalso.
  revert H Hw. unfold leading_space.
  destruct (list_find (λ w, has_prefix w s = true) _) as [[i x]|] eqn:Hs; [done|]. intros _.
  destruct (list_find (λ w, has_prefix w (stake k s) = true) _) as [[i x]|] eqn:Hf; [|done]. intros _.
  apply list_find_None in Hs. apply list_find_Some in Hf as (Hi & Hpre & _).
  apply list_elem_of_lookup_2 in Hi. rewrite Forall_forall in Hs. apply (Hs x Hi).
  by eapply has_prefix_stake.
Qed.

Lemma trim_space_idem s : trim_space (trim_space s) = trim_space s.
Proof.
  assert (leading_space (trim_space s) = None ∧ trailing_space (trim_space s) = None) as [Hl Hr].
  { unfold trim_space. set (l := trim_left_aux _ s). split; [|by apply trim_right_aux_done].
    destruct (trim_right_aux_prefix (String.length l) l) as [k ->].
    by apply leading_space_stake, trim_left_aux_done. }
  unfold trim_space at 1. set (t := trim_space s) in *. clearbody t.
  assert (∀ n, trim_left_aux n t = t) as -> by (intros [|n]; cbn [trim_left_aux]; [done|by rewrite Hl]).
  destruct (String.length t); cbn [trim_right_aux]; [done|by rewrite Hr].
Qed.

(** ** Separators *)

Lemma append_inj_first c x1 x2 y1 y2 :
  contains_char c x1 = false → contains_char c x2 = false →
  x1 +:+ String c y1 = x2 +:+ String c y2 → x1 = x2 ∧ y1 = y2.
Proof.
  revert x2. induction x1 as [|a x1 IH]; intros [|b x2]; cbn.
  - by intros _ _ [= ->].
  - intros _ [Hb _]%orb_false_iff [= -> _]. by rewrite Ascii.eqb_refl in Hb.
  - intros [Ha _]%orb_false_iff _ [= -> _]. by rewrite Ascii.eqb_refl in Ha.
  - intros [_ H1]%orb_false_iff [_ H2]%orb_false_iff [= -> H]. by destruct (IH _ H1 H2 H) as [-> ->].
Qed.

(** A string splits at its last separator in one way. *)
Lemma append_inj_last c x1 x2 y1 y2 :
  contains_char c y1 = false → contains_char c y2 = false →
  x1 +:+ String c y1 = x2 +:+ String c y2 → x1 = x2 ∧ y1 = y2.
Proof.
  assert (∀ x y z, contains_char c z = false → x +:+ String c y ≠ z) as Hno.
  { intros x y z Hz <-. rewrite contains_char_app in Hz. cbn in Hz.
    by rewrite Ascii.eqb_refl, orb_true_r in Hz. }
  revert x2. induction x1 as [|a x1 IH]; intros [|b x2] H1 H2; cbn.
  - by intros [= ->].
  - intros [= _ H]. by destruct (Hno x2 y2 y1).
  - intros [= _ H]. by destruct (Hno x1 y1 y2).
  - intros [= -> H]. by destruct (IH _ H1 H2 H) as [-> ->].
Qed.

Lemma stake_app x y : stake (String.length x) (x +:+ y) = x.
Proof. induction x as [|a x IH]; cbn; [by destruct y|]. by rewrite IH. Qed.

Lemma has_suffix_app x p : has_suffix p (x +:+ p) = true.
Proof.
  unfold has_suffix. rewrite length_append.
  replace (String.length x + String.length p - String.length p)%nat with (String.length x) by lia.
  rewrite sdrop_app, String.eqb_refl, andb_true_r. apply Nat.leb_le. lia.
Qed.

Lemma trim_suffix_app x p : trim_suffix p (x +:+ p) = x.
Proof.
  unfold trim_suffix. rewrite has_suffix_app, length_append.
  replace (String.length x + String.length p - String.length p)%nat with (String.length x) by lia.
  apply stake_app.
Qed.

Lemma has_suffix_split p s : has_suffix p s = true → ∃ x, s = x +:+ p.
Proof.
  unfold has_suffix. intros [_ H%String.eqb_eq]%andb_true_iff.
  pose proof (stake_sdrop (String.length s - String.length p) s) as Hs. rewrite H in Hs. by eexists.
Qed.

(** Numbers are written without a dash unless they are negative. *)
Lemma format_int_no_dash z : (0 < z)%Z → contains_char "-" (format_int z) = false.
Proof.
  intros Hz. destruct z as [|p|p]; [lia| |lia]. change (format_int (Z.pos p)) with (pretty (N.pos p)).
  unfold pretty, pretty_N. rewrite decide_False by done.
  enough (∀ n s, contains_char "-" s = false → contains_char "-" (pretty_N_go n s) = false) as H by (by apply H).
  intros n. induction (N.lt_wf_0 n) as [n _ IH]. intros s Hs.
  destruct (decide (n = 0)%N) as [->|Hn]; [by rewrite pretty_N_go_0|].
  rewrite pretty_N_go_step by lia. apply IH; [apply N.div_lt; lia|]. cbn. rewrite Hs, orb_false_r.
  unfold pretty_N_char. by repeat case_match.
Qed.

End StringFacts.
Export StringFacts.
