(* ===== verification/Sha256.v ===== *)
(** * Sha256: crypto/sha256 and encoding/hex

    SHA-256 of a byte string as the Standard Library of Go computes it
    ([sha256.Sum256]), executable, and the lower-case hexadecimal text of a
    digest.  The round constants and the initial state are computed from the
    roots of the first primes that define them. *)

From S2P Require Import Prelude GoStd GoStdFacts.

#[local] Open Scope string_scope.
#[local] Open Scope Z_scope.

Module Sha256.

(** ** 32-bit words *)

Definition w32 (z : Z) : Z := z mod 2 ^ 32.
Definition add32 (x y : Z) : Z := w32 (x + y).
Definition rotr (x : Z) (n : Z) : Z := Z.lor (Z.shiftr x n) (w32 (Z.shiftl x (32 - n))).
Definition not32 (x : Z) : Z := Z.lxor x (2 ^ 32 - 1).
Definition xor3 (x y z : Z) : Z := Z.lxor x (Z.lxor y z).

(** ** The constants *)

(** The largest [r] below [hi] with [r ^ e ≤ n], by bisection of [lo, hi). *)
Fixpoint iroot (steps : nat) (e n lo hi : Z) : Z :=
  match steps with
  | O => lo
  | S steps =>
      let mid := (lo + hi) / 2 in
      if mid ^ e <=? n then iroot steps e n mid hi else iroot steps e n lo mid
  end.

(** The first 32 bits of the fractional part of the [e]-th root of [p]. *)
Definition root_bits (e p : Z) : Z := w32 (iroot 40 e (p * 2 ^ (32 * e)) 0 (2 ^ 40)).

Definition primes : list Z :=
  filter (λ n, forallb (λ d, negb (n mod d =? 0)) (seqZ 2 (n - 2)) = true) (seqZ 2 310).

Definition round_constants : list Z := Eval vm_compute in map (root_bits 3) primes.
Definition initial_state : list Z := Eval vm_compute in map (root_bits 2) (firstn 8 primes).

(** ** The compression function *)

(** The next word of the schedule from the sixteen before it, newest first. *)
Definition schedule_word (prev : list Z) : Z :=
  let w i := nth i prev 0 in
  let s0 := xor3 (rotr (w 14%nat) 7) (rotr (w 14%nat) 18) (Z.shiftr (w 14%nat) 3) in
  let s1 := xor3 (rotr (w 1%nat) 17) (rotr (w 1%nat) 19) (Z.shiftr (w 1%nat) 10) in
  add32 (add32 (w 15%nat) s0) (add32 (w 6%nat) s1).

(** The words of a block extended by [n] words, oldest first. *)
Definition schedule (n : nat) (block : list Z) : list Z :=
  rev (Nat.iter n (λ prev, schedule_word prev :: prev) (rev block)).

Definition round (st : list Z) (kw : Z * Z) : list Z :=
  match st with
  | [a; b; c; d; e; f; g; h] =>
      let big1 := xor3 (rotr e 6) (rotr e 11) (rotr e 25) in
      let choice := Z.lxor (Z.land e f) (Z.land (not32 e) g) in
      let t1 := add32 (add32 h big1) (add32 choice (add32 kw.1 kw.2)) in
      let big0 := xor3 (rotr a 2) (rotr a 13) (rotr a 22) in
      let majority := xor3 (Z.land a b) (Z.land a c) (Z.land b c) in
      [add32 t1 (add32 big0 majority); a; b; c; add32 d t1; e; f; g]
  | _ => st
  end.

Definition compress (st block : list Z) : list Z :=
  zip_with add32 st (foldl round st (zip round_constants (schedule 48 block))).

(** ** Padding and the digest *)

Fixpoint chunks (fuel n : nat) (l : list Z) : list (list Z) :=
  match fuel, l with
  | O, _ | _, [] => []
  | S fuel, _ => firstn n l :: chunks fuel n (skipn n l)
  end.

Definition big_endian (bytes : list Z) : Z := foldl (λ acc b, acc * 256 + b) 0 bytes.

(** The message, a one bit, zeros up to 56 modulo 64, the bit length. *)
Definition pad (message : list Z) : list Z :=
  let n := Z.of_nat (length message) in
  let zeros := (55 - n) mod 64 in
  message ++ [128] ++ replicate (Z.to_nat zeros) 0
    ++ map (λ i, Z.shiftr (n * 8) (8 * i) mod 256) [7; 6; 5; 4; 3; 2; 1; 0].

Definition Sum256 (message : string) : list Z :=
  let bytes := pad (map byte_val (list_ascii_of_string message)) in
  let words := map big_endian (chunks (length bytes) 4 bytes) in
  foldl compress initial_state (chunks (length words) 16 words).

(** [hex.EncodeToString(sum[:])]: eight digits per word. *)
Definition hex_of_words (ws : list Z) : string := foldr (λ w s, hex_fixed 8 w +:+ s) ""%string ws.

(** ** The shape of a digest *)

Lemma round_length st kw : length st = 8%nat → length (round st kw) = 8%nat.
Proof. intros H. do 9 (destruct st as [|? st]; try discriminate H). done. Qed.

Lemma compress_length st block : length st = 8%nat → length (compress st block) = 8%nat.
Proof.
  intros H. unfold compress. rewrite length_zip_with, H.
  enough (length (foldl round st (zip round_constants (schedule 48 block))) = 8%nat) as -> by done.
  revert st H. induction (zip _ _) as [|kw l IH]; intros st H; cbn; [done|]. apply IH, round_length, H.
Qed.

Lemma Sum256_length m : length (Sum256 m) = 8%nat.
Proof.
  unfold Sum256. set (blocks := chunks _ 16 _). clearbody blocks.
  assert (length initial_state = 8%nat) as H by reflexivity. revert H. generalize initial_state.
  induction blocks as [|b bs IH]; intros st H; cbn; [done|]. apply IH, compress_length, H.
Qed.

Lemma hex_of_words_length ws : String.length (hex_of_words ws) = (8 * length ws)%nat.
Proof.
  induction ws as [|w ws IH]; [done|]. cbn [hex_of_words foldr length]. fold (hex_of_words ws).
  rewrite length_append, length_hex_fixed, IH. lia.
Qed.

(** The digest of a message is always 64 hexadecimal digits. *)
Lemma hex_digest_length m : String.length (hex_of_words (Sum256 m)) = 64%nat.
Proof. by rewrite hex_of_words_length, Sum256_length. Qed.

(** Known digests. *)
Example sha256_empty : hex_of_words (Sum256 ""%string) =
  "e3b0c44298fc1c149afbf4c8996fb92427ae41e4649b934ca495991b7852b855"%string.
Proof. vm_compute. reflexivity. Qed.
Example sha256_abc : hex_of_words (Sum256 "abc"%string) =
  "ba7816bf8f01cfea414140de5dae2223b00361a396177a9cb410ff61f20015ad"%string.
Proof. vm_compute. reflexivity. Qed.
Example sha256_two_blocks :
  hex_of_words (Sum256 "abcdbcdecdefdefgefghfghighijhijkijkljklmklmnlmnomnopnopq"%string) =
  "248d6a61d20638b8e5c026930c3e6039a33ce45964ff2167f6ecedd419db06c1"%string.
Proof. vm_compute. reflexivity. Qed.

End Sha256.
