(* ===== verification/GoErrors.v ===== *)
(** * GoErrors: error values

    Go errors as data.  [fmt.Errorf] and [fmt.Sprintf] are kept symbolic: the
    format string and its operands.  No code of the program inspects a formatted
    message, only the chain of wrapped errors ([errors.As], [errors.Is]) and the
    fields of the two concrete error types [*apierrors.StatusError] (package
    k8s.io/apimachinery/pkg/api/errors) and [*codersdk.Error]. *)

From S2P Require Import Prelude GoStd.

#[local] Open Scope string_scope.

Module GoErrors.

(** [*codersdk.Error]: the HTTP status code and the response's message and detail. *)
Record sdk_error := SdkError {
  sdk_StatusCode : Z;
  sdk_Message : string;
  sdk_Detail : string
}.

Inductive goerror : Type :=
  | ErrorString (msg : string)                             (* errors.New *)
  | Errorf (format : string) (args : list fmt_arg)         (* fmt.Errorf *)
  | StatusErr (st : api_status)                            (* *apierrors.StatusError *)
  | SDKErr (e : sdk_error)                                 (* *codersdk.Error *)
  | BuildTerminalErr (versionID : Z) (status detail : string)
                                                           (* *templateVersionBuildTerminalError *)
  | BuildTimeoutErr (versionID waitTimeout : Z) (lastStatus lastError : string) (cause : goerror)
                                                           (* *templateVersionBuildWaitTimeoutError *)
  | WaitTimeoutExceeded         (* errTemplateVersionBuildWaitTimeoutExceeded *)
  | CtxDeadlineExceeded         (* context.DeadlineExceeded *)
  | CtxCanceled                 (* context.Canceled *)
  | SecretValueMissing          (* errSecretValueMissing of the controllers *)
  | SecretValueEmpty            (* errSecretValueEmpty *)
  | NoMatchErr (msg : string)   (* *meta.NoKindMatchError, *meta.NoResourceMatchError *)
with fmt_arg : Type :=
  | FStr (s : string)
  | FInt (z : Z)
  | FBool (b : bool)
  | FText (t : text)
  | FErrV (e : goerror)         (* printed with %v: not part of the chain *)
  | FErrW (e : goerror)         (* printed with %w: wrapped *)
with text : Type :=
  | Lit (s : string)
  | Sprintf (format : string) (args : list fmt_arg)
  | ErrText (e : goerror)       (* err.Error() *)
with api_status : Type :=
  | ApiStatus (code : Z) (reason : string) (group kind name : string) (retryAfter : Z)
      (causes : list text) (message : text).

Abbreviation result := (outcome goerror).

Definition status_code (st : api_status) : Z :=
  match st with ApiStatus code _ _ _ _ _ _ _ => code end.
Definition status_reason (st : api_status) : string :=
  match st with ApiStatus _ reason _ _ _ _ _ _ => reason end.
Definition status_message (st : api_status) : text :=
  match st with ApiStatus _ _ _ _ _ _ _ message => message end.

(** [errors.As] and [errors.Is] walk the chain of errors wrapped with [%w],
    outermost first. *)
Section chain.
Context {A : Type} (f : goerror → option A).

Fixpoint find_in_chain (e : goerror) : option A :=
  match f e with
  | Some a => Some a
  | None =>
      match e with
      | Errorf _ args =>
          (fix go (l : list fmt_arg) : option A :=
             match l with
             | [] => None
             | arg :: l' =>
                 match arg with
                 | FErrW e' =>
                     match find_in_chain e' with Some a => Some a | None => go l' end
                 | _ => go l'
                 end
             end) args
      | _ => None
      end
  end.
End chain.

Definition as_status (e : goerror) : option api_status :=
  find_in_chain (λ e, match e with StatusErr st => Some st | _ => None end) e.
Definition as_sdk_error (e : goerror) : option sdk_error :=
  find_in_chain (λ e, match e with SDKErr err => Some err | _ => None end) e.

(** ** Package k8s.io/apimachinery/pkg/api/errors *)

Record group_resource := GroupResource { gr_Group : string; gr_Resource : string }.

Definition gr_Empty (gr : group_resource) : bool :=
  String.eqb (gr_Group gr) "" && String.eqb (gr_Resource gr) "".
Definition gr_String (gr : group_resource) : string :=
  if String.eqb (gr_Group gr) "" then gr_Resource gr
  else gr_Resource gr +:+ "." +:+ gr_Group gr.

Definition ReasonUnknown := "".
Definition ReasonNotFound := "NotFound".
Definition ReasonAlreadyExists := "AlreadyExists".
Definition ReasonUnauthorized := "Unauthorized".
Definition ReasonForbidden := "Forbidden".
Definition ReasonConflict := "Conflict".
Definition ReasonBadRequest := "BadRequest".
Definition ReasonTooManyRequests := "TooManyRequests".
Definition ReasonServiceUnavailable := "ServiceUnavailable".
Definition ReasonInternalError := "InternalError".
Definition ReasonTimeout := "Timeout".

Definition NewNotFound (gr : group_resource) (name : string) : api_status :=
  ApiStatus 404 ReasonNotFound (gr_Group gr) (gr_Resource gr) name 0 []
    (Sprintf "%s %q not found" [FStr (gr_String gr); FStr name]).

Definition NewAlreadyExists (gr : group_resource) (name : string) : api_status :=
  ApiStatus 409 ReasonAlreadyExists (gr_Group gr) (gr_Resource gr) name 0 []
    (Sprintf "%s %q already exists" [FStr (gr_String gr); FStr name]).

(** Whether a message is the empty string: a formatted message always has the
    literal characters of its format, and [err.Error()] is only taken of errors
    whose text is not empty. *)
Definition text_empty (t : text) : bool :=
  match t with Lit s => String.eqb s "" | _ => false end.

Definition NewUnauthorized (reason : text) : api_status :=
  ApiStatus 401 ReasonUnauthorized "" "" "" 0 []
    (if text_empty reason then Lit "not authorized" else reason).

Definition NewForbidden (gr : group_resource) (name : string) (err : goerror) : api_status :=
  ApiStatus 403 ReasonForbidden (gr_Group gr) (gr_Resource gr) name 0 []
    (if gr_Empty gr then Sprintf "forbidden: %v" [FErrV err]
     else if String.eqb name "" then Sprintf "%s is forbidden: %v" [FStr (gr_String gr); FErrV err]
     else Sprintf "%s %q is forbidden: %v" [FStr (gr_String gr); FStr name; FErrV err]).

Definition NewConflict (gr : group_resource) (name : string) (err : goerror) : api_status :=
  ApiStatus 409 ReasonConflict (gr_Group gr) (gr_Resource gr) name 0 []
    (Sprintf "Operation cannot be fulfilled on %s %q: %v"
       [FStr (gr_String gr); FStr name; FErrV err]).

Definition NewBadRequest (reason : text) : api_status :=
  ApiStatus 400 ReasonBadRequest "" "" "" 0 [] reason.

Definition NewTooManyRequests (message : text) (retryAfterSeconds : Z) : api_status :=
  ApiStatus 429 ReasonTooManyRequests "" "" "" retryAfterSeconds [] message.

Definition NewServiceUnavailable (reason : text) : api_status :=
  ApiStatus 503 ReasonServiceUnavailable "" "" "" 0 [] reason.

Definition NewInternalError (err : goerror) : api_status :=
  ApiStatus 500 ReasonInternalError "" "" "" 0 [ErrText err]
    (Sprintf "Internal error occurred: %v" [FErrV err]).

Definition NewTimeoutError (message : text) (retryAfterSeconds : Z) : api_status :=
  ApiStatus 504 ReasonTimeout "" "" "" retryAfterSeconds []
    (Sprintf "Timeout: %s" [FText message]).

Definition knownReasons : list string :=
  [ReasonUnauthorized; ReasonForbidden; ReasonNotFound; ReasonAlreadyExists; ReasonConflict;
   "Gone"; "Invalid"; "ServerTimeout"; "StorageReadError"; ReasonTimeout;
   ReasonTooManyRequests; ReasonBadRequest; "MethodNotAllowed"; "NotAcceptable";
   "RequestEntityTooLarge"; "UnsupportedMediaType"; ReasonInternalError; "Expired";
   ReasonServiceUnavailable].

Definition reasonAndCodeForError (e : goerror) : string * Z :=
  match as_status e with
  | Some st => (status_reason st, status_code st)
  | None => (ReasonUnknown, 0)
  end%Z.

Definition IsNotFound (e : goerror) : bool :=
  let '(reason, code) := reasonAndCodeForError e in
  if String.eqb reason ReasonNotFound then true
  else negb (existsb (String.eqb reason) knownReasons) && Z.eqb code 404.

Definition IsConflict (e : goerror) : bool :=
  let '(reason, code) := reasonAndCodeForError e in
  if String.eqb reason ReasonConflict then true
  else negb (existsb (String.eqb reason) knownReasons) && Z.eqb code 409.

(** [errors.Is(err, errSecretValueMissing) || errors.Is(err, errSecretValueEmpty)] *)
Definition is_secret_value_error (e : goerror) : bool :=
  match find_in_chain (λ e, match e with SecretValueMissing | SecretValueEmpty => Some () | _ => None end) e with
  | Some _ => true
  | None => false
  end.

(** [meta.IsNoMatchError] *)
Definition IsNoMatchError (e : goerror) : bool :=
  match find_in_chain (λ e, match e with NoMatchErr _ => Some () | _ => None end) e with
  | Some _ => true
  | None => false
  end.

(** An error that the generic API server reports with its own status code. *)
Definition is_api_error (e : goerror) : bool :=
  match e with StatusErr _ => true | _ => false end.

Lemma IsNotFound_status st :
  IsNotFound (StatusErr st) =
  (String.eqb (status_reason st) ReasonNotFound
   || negb (existsb (String.eqb (status_reason st)) knownReasons) && Z.eqb (status_code st) 404).
Proof. cbn. destruct (String.eqb _ ReasonNotFound); reflexivity. Qed.

End GoErrors.
Export GoErrors.
