(* ===== verification/Uuid.v ===== *)
(** * Uuid: package github.com/google/uuid

    A [uuid.UUID] is the number its 16 bytes spell (most significant first);
    [uuid.Nil] is 0.  [Uuid.to_string] and [Uuid.Parse] follow the package. *)

From S2P Require Import Prelude GoStd GoStdFacts GoErrors.
From Stdlib Require Import Lia.

#[local] Open Scope string_scope.
#[local] Open Scope Z_scope.

Module Uuid.

Definition t := Z.
Definition Nil : t := 0.
Definition valid (u : t) : Prop := 0 ≤ u < 16 ^ 32.

(** [UUID.String] *)
Definition to_string (u : t) : string :=
  hex_fixed 8 (u / 16 ^ 24) +:+ "-" +:+ hex_fixed 4 (u / 16 ^ 20) +:+ "-"
  +:+ hex_fixed 4 (u / 16 ^ 16) +:+ "-" +:+ hex_fixed 4 (u / 16 ^ 12) +:+ "-"
  +:+ hex_fixed 12 u.

Definition hex_value (a : ascii) : option Z :=
  let v := byte_val a in
  if (48 <=? v) && (v <=? 57) then Some (v - 48)
  else if (97 <=? v) && (v <=? 102) then Some (v - 87)
  else if (65 <=? v) && (v <=? 70) then Some (v - 55)
  else None.

Fixpoint parse_hex (acc : Z) (s : string) : option Z :=
  match s with
  | EmptyString => Some acc
  | String a r => hex_value a ≫= λ v, parse_hex (acc * 16 + v) r
  end.

Definition invalid_format : goerror := ErrorString "invalid UUID format".

Definition parse_digits (digits : string) : result t :=
  match parse_hex 0 digits with
  | Some u => Ret u
  | None => Err invalid_format
  end.

Definition is_dash (s : string) (i : nat) : bool := String.eqb (stake 1 (sdrop i s)) "-".

(** The form xxxxxxxx-xxxx-xxxx-xxxx-xxxxxxxxxxxx in the first 36 bytes. *)
Definition parse_dashed (s : string) : result t :=
  if negb (is_dash s 8) || negb (is_dash s 13) || negb (is_dash s 18) || negb (is_dash s 23)
  then Err invalid_format
  else parse_digits
         (stake 8 s +:+ stake 4 (sdrop 9 s) +:+ stake 4 (sdrop 14 s)
          +:+ stake 4 (sdrop 19 s) +:+ stake 12 (sdrop 24 s)).

(** [uuid.Parse] *)
Definition Parse (s : string) : result t :=
  match String.length s with
  | 36%nat => parse_dashed s
  | 45%nat =>
      if String.eqb (string_of_list_ascii (lower_byte <$> list_ascii_of_string (stake 9 s)))
           "urn:uuid:"
      then parse_dashed (sdrop 9 s)
      else Err (Errorf "invalid urn prefix: %q" [FStr (stake 9 s)])
  | 38%nat => parse_dashed (sdrop 1 s)
  | 32%nat => parse_digits s
  | n => Err (Errorf "invalid UUID length: %d" [FInt (Z.of_nat n)])
  end.

(** ** Round trip *)

Lemma hex_value_digit d : 0 ≤ d < 16 → hex_value (hex_digit d) = Some d.
Proof.
  intros H.
  assert (d = 0 ∨ d = 1 ∨ d = 2 ∨ d = 3 ∨ d = 4 ∨ d = 5 ∨ d = 6 ∨ d = 7 ∨ d = 8 ∨ d = 9 ∨
          d = 10 ∨ d = 11 ∨ d = 12 ∨ d = 13 ∨ d = 14 ∨ d = 15) as Hd by lia.
  repeat (destruct Hd as [->|Hd]; [reflexivity|]). subst. reflexivity.
Qed.

Lemma parse_hex_app acc x y :
  parse_hex acc (x +:+ y) = parse_hex acc x ≫= λ v, parse_hex v y.
Proof.
  revert acc. induction x as [|a x IH]; intros acc; cbn; [done|].
  destruct (hex_value a); cbn; auto.
Qed.

Lemma parse_hex_fixed w acc z :
  parse_hex acc (hex_fixed w z) = Some (acc * 16 ^ Z.of_nat w + z mod 16 ^ Z.of_nat w).
Proof.
  revert acc z. induction w as [|w IH]; intros acc z.
  - cbn. f_equal. rewrite Z.mod_1_r. lia.
  - cbn [hex_fixed]. rewrite parse_hex_app, IH. cbn.
    rewrite hex_value_digit by (apply Z.mod_pos_bound; lia). cbn. f_equal.
    rewrite Nat2Z.inj_succ, Z.pow_succ_r by lia.
    rewrite (Z.rem_mul_r z 16) by lia. lia.
Qed.

Lemma stake_append n x y :
  String.length x = n → stake n (x +:+ y) = x ∧ sdrop n (x +:+ y) = y.
Proof.
  revert n. induction x as [|a x IH]; intros n <-; cbn; [done|].
  destruct (IH _ eq_refl) as [-> ->]. done.
Qed.

Lemma sdrop_sdrop n m s : sdrop n (sdrop m s) = sdrop (m + n) s.
Proof. revert m s. induction m as [|m IH]; intros [|a s]; cbn; auto. by destruct n. Qed.

Lemma append_assoc x y z : (x +:+ y) +:+ z = x +:+ (y +:+ z).
Proof. induction x as [|a x IH]; cbn; [done|]. by rewrite IH. Qed.

(** The pieces of a dashed string. *)
Lemma dashed_pieces a b c d e :
  String.length a = 8%nat → String.length b = 4%nat → String.length c = 4%nat →
  String.length d = 4%nat → String.length e = 12%nat →
  parse_dashed (a +:+ "-" +:+ b +:+ "-" +:+ c +:+ "-" +:+ d +:+ "-" +:+ e)
  = parse_digits (a +:+ b +:+ c +:+ d +:+ e).
Proof.
  intros Ha Hb Hc Hd He. unfold parse_dashed, is_dash.
  assert (∀ s, sdrop 13 s = sdrop 5 (sdrop 8 s)) as E13 by (intros; by rewrite sdrop_sdrop).
  assert (∀ s, sdrop 18 s = sdrop 5 (sdrop 5 (sdrop 8 s))) as E18
    by (intros; by rewrite !sdrop_sdrop).
  assert (∀ s, sdrop 23 s = sdrop 5 (sdrop 5 (sdrop 5 (sdrop 8 s)))) as E23
    by (intros; by rewrite !sdrop_sdrop).
  assert (∀ s, sdrop 9 s = sdrop 1 (sdrop 8 s)) as E9 by (intros; by rewrite sdrop_sdrop).
  assert (∀ s, sdrop 14 s = sdrop 1 (sdrop 5 (sdrop 8 s))) as E14
    by (intros; by rewrite !sdrop_sdrop).
  assert (∀ s, sdrop 19 s = sdrop 1 (sdrop 5 (sdrop 5 (sdrop 8 s)))) as E19
    by (intros; by rewrite !sdrop_sdrop).
  assert (∀ s, sdrop 24 s = sdrop 1 (sdrop 5 (sdrop 5 (sdrop 5 (sdrop 8 s))))) as E24
    by (intros; by rewrite !sdrop_sdrop).
  rewrite E9, E13, E14, E18, E19, E23, E24.
  assert (∀ x r, String.length x = 4%nat → sdrop 5 ("-" +:+ x +:+ r) = r) as S5.
  { intros x r Hx. rewrite <-append_assoc. apply (stake_append 5 ("-" +:+ x)). cbn. by rewrite Hx. }
  rewrite !(proj1 (stake_append 8 a _ Ha)), !(proj2 (stake_append 8 a _ Ha)).
  rewrite !S5 by done.
  assert (∀ r, stake 1 ("-" +:+ r) = "-" ∧ sdrop 1 ("-" +:+ r) = r) as S1
    by (intros; by apply (stake_append 1 "-")).
  rewrite !(proj1 (S1 _)), !(proj2 (S1 _)). cbn [negb orb String.eqb].
  rewrite !(proj1 (stake_append 4 _ _ Hb)), !(proj1 (stake_append 4 _ _ Hc)),
    !(proj1 (stake_append 4 _ _ Hd)).
  assert (stake 12 e = e) as ->; [|done].
  rewrite <-(append_empty_r e) at 1. by apply stake_append.
Qed.

Lemma hex_pieces u :
  valid u →
  parse_hex 0 (hex_fixed 8 (u / 16 ^ 24) +:+ hex_fixed 4 (u / 16 ^ 20)
    +:+ hex_fixed 4 (u / 16 ^ 16) +:+ hex_fixed 4 (u / 16 ^ 12) +:+ hex_fixed 12 u) = Some u.
Proof.
  intros Hu. unfold valid in Hu.
  rewrite !parse_hex_app, !parse_hex_fixed; cbn [mbind option_bind].
  rewrite !parse_hex_app, !parse_hex_fixed; cbn [mbind option_bind].
  rewrite !parse_hex_app, !parse_hex_fixed; cbn [mbind option_bind].
  rewrite !parse_hex_app, !parse_hex_fixed; cbn [mbind option_bind].
  rewrite !parse_hex_fixed. f_equal.
  change (Z.of_nat 8) with 8. change (Z.of_nat 4) with 4. change (Z.of_nat 12) with 12.
  replace (16 ^ 24) with (16 ^ 12 * 16 ^ 4 * 16 ^ 4 * 16 ^ 4) by reflexivity.
  replace (16 ^ 20) with (16 ^ 12 * 16 ^ 4 * 16 ^ 4) by reflexivity.
  replace (16 ^ 16) with (16 ^ 12 * 16 ^ 4) by reflexivity.
  rewrite <-!Z.div_div by lia.
  set (q0 := u / 16 ^ 12). set (q1 := q0 / 16 ^ 4). set (q2 := q1 / 16 ^ 4). set (q3 := q2 / 16 ^ 4).
  assert (u = 16 ^ 12 * q0 + u mod 16 ^ 12) as E0 by (apply Z.div_mod; lia).
  assert (q0 = 16 ^ 4 * q1 + q0 mod 16 ^ 4) as E1 by (apply Z.div_mod; lia).
  assert (q1 = 16 ^ 4 * q2 + q1 mod 16 ^ 4) as E2 by (apply Z.div_mod; lia).
  assert (q2 = 16 ^ 4 * q3 + q2 mod 16 ^ 4) as E3 by (apply Z.div_mod; lia).
  assert (q3 mod 16 ^ 8 = q3) as ->.
  { apply Z.mod_small. unfold q3, q2, q1, q0. rewrite !Z.div_div by lia.
    split; [apply Z.div_pos; lia|apply Z.div_lt_upper_bound; lia]. }
  lia.
Qed.

Lemma Parse_to_string u : valid u → Parse (to_string u) = Ret u.
Proof.
  intros Hu. unfold Parse.
  assert (String.length (to_string u) = 36%nat) as ->.
  { unfold to_string. rewrite !length_append, !length_hex_fixed. reflexivity. }
  unfold to_string. rewrite dashed_pieces by apply length_hex_fixed.
  unfold parse_digits. by rewrite hex_pieces.
Qed.

Lemma to_string_inj u v : valid u → valid v → to_string u = to_string v → u = v.
Proof.
  intros Hu Hv H. apply Parse_to_string in Hu, Hv. rewrite H, Hv in Hu. by injection Hu.
Qed.

Lemma to_string_nonempty u : to_string u ≠ "".
Proof.
  intros H. apply (f_equal String.length) in H. unfold to_string in H.
  rewrite !length_append, !length_hex_fixed in H. discriminate H.
Qed.

End Uuid.
