(* ===== verification/Names.v ===== *)
(** * Names: internal/aggregated/coder/names.go

    The names of the aggregated resources: [<org>.<template>] and
    [<org>.<user>.<workspace>]. *)

From S2P Require Import Prelude GoStd GoStdFacts GoErrors.
From Stdlib Require Import Lia.

#[local] Open Scope string_scope.

Module Names.

Definition nameSeparator : ascii := ".".

(** The loop over the segments; the accumulator is [segmentIndex]. *)
Definition checkSegments (name objectType : string) (segments : list string) : result Z :=
  mfold (λ segmentIndex segment,
    _ ← fail_if (String.eqb segment "")
          (Errorf "invalid %s name %q: segment %d must not be empty"
             [FStr objectType; FStr name; FInt segmentIndex]);
    mret (segmentIndex + 1)%Z) 0%Z segments.

Definition parseNameSegments (name : string) (expectedSegments : nat) (objectType : string)
    : result (list string) :=
  _ ← fail_if (String.eqb name "")
        (Errorf "invalid %s name: name must not be empty" [FStr objectType]);
  let expectedSeparatorCount := (expectedSegments - 1)%nat in
  _ ← fail_if (negb (count_char nameSeparator name =? expectedSeparatorCount)%nat)
        (Errorf "invalid %s name %q: expected %d separators (%q)"
           [FStr objectType; FStr name; FInt (Z.of_nat expectedSeparatorCount);
            FStr (String nameSeparator "")]);
  let segments := split nameSeparator name in
  _ ← fail_if (negb (length segments =? expectedSegments)%nat)
        (Errorf "assertion failed: parsed %s name %q into %d segments; expected %d"
           [FStr objectType; FStr name; FInt (Z.of_nat (length segments));
            FInt (Z.of_nat expectedSegments)]);
  _ ← checkSegments name objectType segments;
  mret segments.

Definition ParseTemplateName (name : string) : result (string * string) :=
  segments ← parseNameSegments name 2 "template";
  match segments with
  | [org; template] => mret (org, template)
  | _ => Panic (ErrorString "runtime error: index out of range")
  end.

Definition ParseWorkspaceName (name : string) : result (string * string * string) :=
  segments ← parseNameSegments name 3 "workspace";
  match segments with
  | [org; user; workspace] => mret (org, user, workspace)
  | _ => Panic (ErrorString "runtime error: index out of range")
  end.

Definition assertNameSegment (segmentType value : string) : result () :=
  _ ← panic_if (String.eqb value "")
        (Errorf "assertion failed: %s must not be empty" [FStr segmentType]);
  panic_if (contains_char nameSeparator value)
    (Errorf "assertion failed: %s must not contain %q"
       [FStr segmentType; FStr (String nameSeparator "")]).

Definition BuildTemplateName (org template : string) : result string :=
  _ ← assertNameSegment "organization" org;
  _ ← assertNameSegment "template" template;
  mret (org +:+ String nameSeparator template).

Definition BuildWorkspaceName (org user workspace : string) : result string :=
  _ ← assertNameSegment "organization" org;
  _ ← assertNameSegment "user" user;
  _ ← assertNameSegment "workspace" workspace;
  mret (org +:+ String nameSeparator (user +:+ String nameSeparator workspace)).

(** A name segment that [Build...Name] accepts. *)
Definition valid_segment (s : string) : Prop := s ≠ "" ∧ contains_char nameSeparator s = false.

#[global] Instance valid_segment_dec s : Decision (valid_segment s).
Proof. unfold valid_segment. apply _. Defined.

Lemma assertNameSegment_Ret t s u : assertNameSegment t s = Ret u ↔ valid_segment s.
Proof.
  unfold assertNameSegment, valid_segment. rewrite outcome_bind_Ret. split.
  - intros (x & H1%panic_if_Ret & H2%panic_if_Ret). by apply String.eqb_neq in H1.
  - intros [H1%String.eqb_neq H2]. exists tt.
    by rewrite H1, H2; destruct u.
Qed.

Lemma assertNameSegment_valid t s : valid_segment s → assertNameSegment t s = Ret tt.
Proof. apply assertNameSegment_Ret. Qed.

Lemma BuildWorkspaceName_valid o u w :
  valid_segment o → valid_segment u → valid_segment w →
  BuildWorkspaceName o u w = Ret (join nameSeparator [o; u; w]).
Proof.
  intros Ho Hu Hw. unfold BuildWorkspaceName.
  by rewrite !assertNameSegment_valid by done.
Qed.

Lemma BuildWorkspaceName_Ret o u w n :
  BuildWorkspaceName o u w = Ret n ↔
  valid_segment o ∧ valid_segment u ∧ valid_segment w ∧ n = join nameSeparator [o; u; w].
Proof.
  split.
  - unfold BuildWorkspaceName. intros H. inv_outcome H.
    repeat match goal with H : assertNameSegment _ _ = _ |- _ =>
      apply assertNameSegment_Ret in H end.
    split_and!; done.
  - intros (Ho & Hu & Hw & ->). by apply BuildWorkspaceName_valid.
Qed.

Lemma BuildTemplateName_valid o t :
  valid_segment o → valid_segment t →
  BuildTemplateName o t = Ret (join nameSeparator [o; t]).
Proof.
  intros Ho Ht. unfold BuildTemplateName. by rewrite !assertNameSegment_valid by done.
Qed.

Lemma BuildTemplateName_Ret o t n :
  BuildTemplateName o t = Ret n ↔
  valid_segment o ∧ valid_segment t ∧ n = join nameSeparator [o; t].
Proof.
  split.
  - unfold BuildTemplateName. intros H. inv_outcome H.
    repeat match goal with H : assertNameSegment _ _ = _ |- _ =>
      apply assertNameSegment_Ret in H end.
    split_and!; done.
  - intros (Ho & Ht & ->). by apply BuildTemplateName_valid.
Qed.

(** The loop over the segments returns no error exactly when none is empty. *)
Lemma checkSegments_nonempty n ty l r : checkSegments n ty l = Ret r → Forall (λ s, s ≠ "") l.
Proof.
  unfold checkSegments. generalize 0%Z as i. induction l as [|s l IH]; intros i H; [constructor|].
  cbn [mfold] in H. inv_outcome H. apply String.eqb_neq in Hx0. constructor; eauto.
Qed.

Lemma checkSegments_Ret n ty l : Forall (λ s, s ≠ "") l → ∃ r, checkSegments n ty l = Ret r.
Proof.
  intros Hl. unfold checkSegments. generalize 0%Z as i.
  induction Hl as [|s l Hs Hl IH]; intros i; [eauto|].
  cbn [mfold]. apply String.eqb_neq in Hs. rewrite Hs. apply IH.
Qed.

Lemma checkSegments_no_panic n ty l p : checkSegments n ty l ≠ Panic p.
Proof.
  unfold checkSegments. generalize 0%Z as i. induction l as [|s l IH]; intros i H; [discriminate H|].
  cbn [mfold] in H. apply outcome_bind_Panic in H as [H|(? & _ & H)]; [|by apply IH in H].
  apply outcome_bind_Panic in H as [H|(? & _ & H)]; [by apply fail_if_Panic in H|discriminate H].
Qed.

Lemma parseNameSegments_Ret n k ty l :
  parseNameSegments n (S k) ty = Ret l ↔
  length l = S k ∧ Forall valid_segment l ∧ n = join nameSeparator l.
Proof.
  unfold parseNameSegments. rewrite Nat.sub_succ, Nat.sub_0_r. split.
  - intros H. inv_outcome H. apply checkSegments_nonempty in Hx2.
    apply negb_false_iff, Nat.eqb_eq in Hx1. split; [done|]. rewrite join_split.
    split; [|done]. apply Forall_and. split; [done|apply split_no_char].
  - intros (Hlen & Hl & ->).
    assert (l ≠ []) as Hne by by destruct l.
    assert (Forall (λ s, s ≠ "") l) as Hl1 by (eapply Forall_impl; [exact Hl|]; by intros ? []).
    assert (split nameSeparator (join nameSeparator l) = l) as Hsplit.
    { apply split_join; [done|]. eapply Forall_impl; [exact Hl|]. by intros ? []. }
    assert (join nameSeparator l ≠ "") as Hj.
    { destruct l as [|x l]; [done|]. apply join_nonempty. by inversion Hl1. }
    apply String.eqb_neq in Hj. rewrite Hj.
    pose proof (length_split nameSeparator (join nameSeparator l)) as Hc.
    rewrite Hsplit, Hlen in Hc. injection Hc as Hc.
    rewrite <-Hc, Hsplit, Hlen, !Nat.eqb_refl.
    destruct (checkSegments_Ret (join nameSeparator l) ty l Hl1) as [r Hr].
    unfold fail_if. cbn. by rewrite Hr.
Qed.

Lemma parseNameSegments_no_panic n k ty p : parseNameSegments n k ty ≠ Panic p.
Proof.
  unfold parseNameSegments. intros H.
  repeat (apply outcome_bind_Panic in H as [H|(? & _ & H)]; [by apply fail_if_Panic in H|]).
  apply outcome_bind_Panic in H as [H|(? & _ & H)]; [|discriminate H].
  by apply checkSegments_no_panic in H.
Qed.

Lemma ParseWorkspaceName_Ret n o u w :
  ParseWorkspaceName n = Ret (o, u, w) ↔ BuildWorkspaceName o u w = Ret n.
Proof.
  unfold ParseWorkspaceName. rewrite BuildWorkspaceName_Ret, outcome_bind_Ret. split.
  - intros (l & (Hlen & Hl & ->)%parseNameSegments_Ret & H).
    destruct l as [|o' [|u' [|w' [|]]]]; try discriminate. injection H as -> -> ->.
    rewrite !Forall_cons in Hl. naive_solver.
  - intros (Ho & Hu & Hw & ->). exists [o; u; w]. split; [|done].
    apply parseNameSegments_Ret. split_and!; [done| |done]. by rewrite !Forall_cons, Forall_nil.
Qed.

Lemma ParseTemplateName_Ret n o t :
  ParseTemplateName n = Ret (o, t) ↔ BuildTemplateName o t = Ret n.
Proof.
  unfold ParseTemplateName. rewrite BuildTemplateName_Ret, outcome_bind_Ret. split.
  - intros (l & (Hlen & Hl & ->)%parseNameSegments_Ret & H).
    destruct l as [|o' [|t' [|]]]; try discriminate. injection H as -> ->.
    rewrite !Forall_cons in Hl. naive_solver.
  - intros (Ho & Ht & ->). exists [o; t]. split; [|done].
    apply parseNameSegments_Ret. split_and!; [done| |done]. by rewrite !Forall_cons, Forall_nil.
Qed.

Lemma ParseWorkspaceName_no_panic n p : ParseWorkspaceName n ≠ Panic p.
Proof.
  unfold ParseWorkspaceName.
  intros [H|(l & (Hlen & _)%parseNameSegments_Ret & H)]%outcome_bind_Panic.
  - by apply parseNameSegments_no_panic in H.
  - by destruct l as [|? [|? [|? [|]]]].
Qed.

Lemma ParseTemplateName_no_panic n p : ParseTemplateName n ≠ Panic p.
Proof.
  unfold ParseTemplateName.
  intros [H|(l & (Hlen & _)%parseNameSegments_Ret & H)]%outcome_bind_Panic.
  - by apply parseNameSegments_no_panic in H.
  - by destruct l as [|? [|? [|]]].
Qed.

(** parsing and building names are inverse to each other.
    [ParseWorkspaceName] returns [(org, user, workspace)] exactly for the name
    that [BuildWorkspaceName] builds from these three segments without
    panicking, and likewise for template names; so every built name parses back,
    every parsed name is rebuilt unchanged, and no name parses both as a
    workspace and as a template.  Parsing never panics, whatever the name. *)
Theorem names_inverse (n o u w t : string) :
  (ParseWorkspaceName n = Ret (o, u, w) ↔ BuildWorkspaceName o u w = Ret n) ∧
  (ParseTemplateName n = Ret (o, t) ↔ BuildTemplateName o t = Ret n) ∧
  ¬ (ParseWorkspaceName n = Ret (o, u, w) ∧ ParseTemplateName n = Ret (o, t)) ∧
  (∀ p, ParseWorkspaceName n ≠ Panic p ∧ ParseTemplateName n ≠ Panic p).
Proof.
  split_and!.
  - apply ParseWorkspaceName_Ret.
  - apply ParseTemplateName_Ret.
  - intros [H1 H2]. unfold ParseWorkspaceName in H1. unfold ParseTemplateName in H2.
    apply outcome_bind_Ret in H1 as (l1 & (Hl1 & Hv1 & H1)%parseNameSegments_Ret & _).
    apply outcome_bind_Ret in H2 as (l2 & (Hl2 & Hv2 & H2)%parseNameSegments_Ret & _).
    assert (∀ k l, length l = S k → Forall valid_segment l →
              split nameSeparator (join nameSeparator l) = l) as Hs.
    { intros k l Hl Hv. apply split_join; [by destruct l|].
      eapply Forall_impl; [exact Hv|]. by intros ? []. }
    rewrite H1 in H2. apply (f_equal (split nameSeparator)) in H2.
    rewrite (Hs 2%nat l1), (Hs 1%nat l2) in H2 by done. congruence.
  - intros p. split; [apply ParseWorkspaceName_no_panic|apply ParseTemplateName_no_panic].
Qed.

End Names.
