(* ===== verification/CoderErrors.v ===== *)
(** * CoderErrors: internal/aggregated/coder/errors.go and
    internal/aggregated/storage/errors.go

    The translation of backend errors into Kubernetes API errors. *)

From S2P Require Import Prelude GoStd GoErrors.
From Stdlib Require Import Lia.

#[local] Open Scope string_scope.
#[local] Open Scope Z_scope.

Module CoderErrors.

(** [coderErr.Message] trimmed, or the text of the original error. *)
Definition coderErrorMessage (coderErr : sdk_error) (fallback : goerror) : text :=
  let message := trim_space (sdk_Message coderErr) in
  if negb (String.eqb message "") then Lit message else ErrText fallback.

Definition isAlreadyExistsConflict (err : sdk_error) : bool :=
  contains "already exists" (to_lower (sdk_Message err)).

Definition MapCoderError (err : option goerror) (resource : group_resource) (name : string)
    : goerror :=
  match err with
  | None => Errorf "assertion failed: error must not be nil" []
  | Some err =>
      if gr_Empty resource then Errorf "assertion failed: resource must not be empty" []
      else if String.eqb name "" then Errorf "assertion failed: resource name must not be empty" []
      else match as_sdk_error err with
      | None => StatusErr (NewInternalError err)
      | Some coderErr =>
          let statusCode := sdk_StatusCode coderErr in
          let message := coderErrorMessage coderErr err in
          if statusCode =? 404 then StatusErr (NewNotFound resource name)
          else if statusCode =? 403 then StatusErr (NewForbidden resource name err)
          else if statusCode =? 409 then
            if isAlreadyExistsConflict coderErr then StatusErr (NewAlreadyExists resource name)
            else StatusErr (NewConflict resource name err)
          else if (statusCode =? 400) || (statusCode =? 422) then StatusErr (NewBadRequest message)
          else if statusCode =? 401 then StatusErr (NewUnauthorized message)
          else if statusCode =? 429 then StatusErr (NewTooManyRequests message 0)
          else if (400 <=? statusCode) && (statusCode <? 500) then StatusErr (NewBadRequest message)
          else StatusErr (NewInternalError err)
      end
  end.

(** storage/errors.go *)
Definition wrapClientError (err : option goerror) : option goerror :=
  match err with
  | None => None
  | Some err =>
      match as_status err with
      | Some statusErr => Some (StatusErr statusErr)
      | None => Some (StatusErr (NewInternalError err))
      end
  end.

(** The HTTP status a client of the aggregated API sees for a backend status. *)
Definition mapped_code (statusCode : Z) : Z :=
  if bool_decide (statusCode ∈ [401; 403; 404; 409; 429]) then statusCode
  else if (400 <=? statusCode) && (statusCode <? 500) then 400 else 500.

Ltac status_cases :=
  repeat match goal with
  | |- context [if ?b then _ else _] => destruct b eqn:?
  end.

(** every backend error is reported as a Kubernetes API status error, never
    as a raw SDK error: a backend 401, 403, 404, 409 or 429 keeps its code,
    every other 4xx becomes 400, everything else (5xx, transport errors) becomes
    500; and the result satisfies [IsNotFound], which is what enables
    create-on-update, exactly when the backend answered 404. *)
Theorem MapCoderError_status (err : goerror) (resource : group_resource) (name : string)
    (Hres : gr_Empty resource = false) (Hname : name ≠ "") :
  ∃ st, MapCoderError (Some err) resource name = StatusErr st ∧
    status_code st = match as_sdk_error err with
                     | Some e => mapped_code (sdk_StatusCode e)
                     | None => 500
                     end ∧
    (IsNotFound (StatusErr st) = true ↔
     ∃ e, as_sdk_error err = Some e ∧ sdk_StatusCode e = 404).
Proof.
  unfold MapCoderError. apply String.eqb_neq in Hname. rewrite Hres, Hname.
  destruct (as_sdk_error err) as [e|]; [|by eexists; split_and!; [done|done|cbn; naive_solver]].
  unfold mapped_code.
  status_cases; bool_simpl; eexists; (split; [reflexivity|]);
    rewrite ?elem_of_cons, ?elem_of_nil in *; (split; [cbn; intuition lia|]);
    rewrite IsNotFound_status; cbn;
    repeat match goal with H : _ || _ = true |- _ => apply orb_true_iff in H end;
    split; intros; destruct_and?; simplify_eq/=; naive_solver lia.
Qed.

Example MapCoderError_status_witness :
  ∃ st, MapCoderError (Some (Errorf "query: %w" [FErrW (SDKErr (SdkError 404 "gone" ""))]))
          (GroupResource "aggregation.coder.com" "coderworkspaces") "o.u.w" = StatusErr st ∧
    status_code st = 404 ∧ IsNotFound (StatusErr st) = true.
Proof.
  destruct (MapCoderError_status (Errorf "query: %w" [FErrW (SDKErr (SdkError 404 "gone" ""))])
    (GroupResource "aggregation.coder.com" "coderworkspaces") "o.u.w" eq_refl ltac:(discriminate))
    as (st & H1 & H2 & H3).
  exists st. split; [exact H1|]. split; [exact H2|]. apply H3.
  eexists. split; reflexivity.
Defined.

(** A status error found in the chain is passed through; anything else becomes
    an internal error.  Both are API errors. *)
Lemma wrapClientError_api err : ∃ st, wrapClientError (Some err) = Some (StatusErr st).
Proof. cbn. destruct (as_status err); eauto. Qed.

Lemma MapCoderError_api err resource name :
  gr_Empty resource = false → name ≠ "" →
  is_api_error (MapCoderError (Some err) resource name) = true.
Proof.
  intros Hres Hname%String.eqb_neq. unfold MapCoderError. rewrite Hres, Hname.
  destruct (as_sdk_error err); [|done]. by status_cases.
Qed.

#[export] Hint Resolve MapCoderError_api wrapClientError_api : go.

End CoderErrors.
