(* ===== verification/ApiTypes.v ===== *)
(** * ApiTypes: api/v1alpha1

    The custom resources of the operator: object metadata and the
    [CoderControlPlane], [CoderProvisioner] and [CoderWorkspaceProxy] schemas
    (codercontrolplane_types.go, coderprovisioner_types.go,
    coderworkspaceproxy_types.go, types_shared.go).
    Pod-level API values that the program only copies from the spec into a pod
    template (security contexts, affinity, tolerations, ...) are kept as
    uninterpreted JSON trees. *)

From S2P Require Import Prelude GoStd.

#[local] Open Scope string_scope.

Module ApiTypes.

(** A pass-through API value. *)
Inductive k8s_value : Type :=
  | JNull
  | JBool (b : bool)
  | JInt (z : Z)
  | JStr (s : string)
  | JList (l : list k8s_value)
  | JObj (fields : list (string * k8s_value)).

(** [time.Time]: nanoseconds since the Unix epoch; the zero value is
    January 1 of year 1. *)
Definition time := Z.
Definition time_zero : time := (-62135596800 * 10 ^ 9)%Z.
Definition time_IsZero (t : time) : bool := Z.eqb t time_zero.
(** [Time.UnixNano]: the low 64 bits. *)
Definition UnixNano (t : time) : Z := wrap64 t.

Record OwnerReference := {
  or_APIVersion : string; or_Kind : string; or_Name : string; or_UID : string;
  or_Controller : option bool; or_BlockOwnerDeletion : option bool
}.

Record ObjectMeta := {
  Name : string;
  Namespace : string;
  UID : string;
  ResourceVersion : string;
  Generation : Z;
  CreationTimestamp : time;
  DeletionTimestamp : option time;
  Labels : gmap string string;
  Annotations : gmap string string;
  OwnerReferences : list OwnerReference;
  Finalizers : list string
}.

Definition empty_meta : ObjectMeta := {|
  Name := ""; Namespace := ""; UID := ""; ResourceVersion := ""; Generation := 0;
  CreationTimestamp := time_zero; DeletionTimestamp := None; Labels := ∅; Annotations := ∅;
  OwnerReferences := []; Finalizers := [] |}.

(** ** types_shared.go *)

Definition DefaultTokenSecretKey := "token".
Definition DefaultLicenseSecretKey := "license".

Record ServiceSpec := {
  svc_Type : string; svc_Port : Z; svc_Annotations : gmap string string
}.

Record SecretKeySelector := { sks_Name : string; sks_Key : string }.

#[global] Instance SecretKeySelector_eq_dec : EqDecision SecretKeySelector.
Proof. solve_decision. Defined.

Record ServiceAccountSpec := {
  sa_DisableCreate : bool; sa_Name : string;
  sa_Annotations : gmap string string; sa_Labels : gmap string string
}.

Record PolicyRule := {
  pr_APIGroups : list string; pr_Resources : list string; pr_Verbs : list string
}.

Record RBACSpec := {
  WorkspacePerms : option bool; EnableDeployments : option bool;
  ExtraRules : list PolicyRule; WorkspaceNamespaces : list string
}.

Record TLSSpec := { tls_SecretNames : list string }.

Record ProbeSpec := {
  probe_Enabled : option bool; probe_InitialDelaySeconds : Z;
  probe_PeriodSeconds : option Z; probe_TimeoutSeconds : option Z;
  probe_SuccessThreshold : option Z; probe_FailureThreshold : option Z
}.

Record IngressTLSExposeSpec := { itls_SecretName : string; itls_WildcardSecretName : string }.
Record IngressExposeSpec := {
  ie_ClassName : option string; ie_Host : string; ie_WildcardHost : string;
  ie_Annotations : gmap string string; ie_TLS : option IngressTLSExposeSpec
}.
Record GatewayParentRef := {
  gpr_Name : string; gpr_Namespace : option string; gpr_SectionName : option string
}.
Record GatewayExposeSpec := {
  ge_Host : string; ge_WildcardHost : string; ge_ParentRefs : list GatewayParentRef
}.
Record ExposeSpec := {
  expose_Ingress : option IngressExposeSpec; expose_Gateway : option GatewayExposeSpec
}.
Record CertSecretSelector := { cert_Name : string; cert_Key : string }.

(** ** k8s.io/api/core/v1, as far as the source looks into it *)

Record EnvVarSource := {
  FieldRefPath : option string;
  SecretKeyRef : option SecretKeySelector;
  OtherSource : option k8s_value
}.
Record EnvVar := { env_Name : string; env_Value : string; env_ValueFrom : option EnvVarSource }.
Record EnvFromSource := {
  ef_Prefix : string; ef_ConfigMapRef : option string; ef_SecretRef : option string
}.
Record Secret := {
  secret_meta : ObjectMeta; secret_Type : string; secret_Data : gmap string string
}.

(** ** codercontrolplane_types.go *)

Definition CoderControlPlanePhasePending := "Pending".
Definition CoderControlPlanePhaseReady := "Ready".
Definition CoderControlPlaneConditionLicenseApplied := "LicenseApplied".
Definition CoderControlPlaneLicenseTierNone := "none".
Definition CoderControlPlaneLicenseTierTrial := "trial".
Definition CoderControlPlaneLicenseTierEnterprise := "enterprise".
Definition CoderControlPlaneLicenseTierPremium := "premium".
Definition CoderControlPlaneLicenseTierUnknown := "unknown".
Definition CoderControlPlaneEntitlementUnknown := "unknown".

Record OperatorAccessSpec := { oa_Disabled : bool; oa_GeneratedTokenSecretName : string }.

Record CoderControlPlaneSpec := {
  Image : string;
  Replicas : option Z;
  Service : ServiceSpec;
  ExtraArgs : list string;
  ExtraEnv : list EnvVar;
  ImagePullSecrets : list string;
  OperatorAccess : OperatorAccessSpec;
  LicenseSecretRef : option SecretKeySelector;
  ServiceAccount : ServiceAccountSpec;
  RBAC : RBACSpec;
  Resources : option k8s_value;
  SecurityContext : option k8s_value;
  PodSecurityContext : option k8s_value;
  TLS : TLSSpec;
  ReadinessProbe : ProbeSpec;
  LivenessProbe : ProbeSpec;
  EnvUseClusterAccessURL : option bool;
  Expose : option ExposeSpec;
  EnvFrom : list EnvFromSource;
  Volumes : list k8s_value;
  VolumeMounts : list k8s_value;
  Certs : list CertSecretSelector;
  NodeSelector : gmap string string;
  Tolerations : list k8s_value;
  Affinity : option k8s_value;
  TopologySpreadConstraints : list k8s_value
}.

(** [metav1.Condition] *)
Record Condition := {
  cond_Type : string; cond_Status : string; cond_ObservedGeneration : Z;
  cond_LastTransitionTime : time; cond_Reason : string; cond_Message : string
}.

#[global] Instance Condition_eq_dec : EqDecision Condition.
Proof. solve_decision. Defined.

Record CoderControlPlaneStatus := {
  ObservedGeneration : Z;
  ReadyReplicas : Z;
  URL : string;
  OperatorTokenSecretRef : option SecretKeySelector;
  OperatorAccessReady : bool;
  LicenseLastApplied : option time;
  LicenseLastAppliedHash : string;
  LicenseTier : string;
  EntitlementsLastChecked : option time;
  ExternalProvisionerDaemonsEntitlement : string;
  Phase : string;
  Conditions : list Condition
}.

#[global] Instance CoderControlPlaneStatus_eq_dec : EqDecision CoderControlPlaneStatus.
Proof. solve_decision. Defined.

Record CoderControlPlane := {
  cp_meta : ObjectMeta;
  cp_Spec : CoderControlPlaneSpec;
  cp_Status : CoderControlPlaneStatus
}.

(** ** coderprovisioner_types.go *)

Definition CoderProvisionerPhasePending := "Pending".
Definition CoderProvisionerPhaseReady := "Ready".
Definition CoderProvisionerConditionControlPlaneReady := "ControlPlaneReady".
Definition CoderProvisionerConditionOperatorAccessReady := "OperatorAccessReady".
Definition CoderProvisionerConditionProvisionerKeyReady := "ProvisionerKeyReady".
Definition CoderProvisionerConditionProvisionerKeySecretReady := "ProvisionerKeySecretReady".
Definition CoderProvisionerConditionExternalProvisionersEntitled := "ExternalProvisionersEntitled".
Definition CoderProvisionerConditionDeploymentReady := "DeploymentReady".
Definition DefaultProvisionerKeySecretKey := "key".
Definition ProvisionerKeyCleanupFinalizer := "coder.com/provisioner-key-cleanup".

Record CoderProvisionerKeySpec := { pk_Name : string; pk_SecretName : string; pk_SecretKey : string }.

Record CoderProvisionerSpec := {
  pvs_ControlPlaneRef : string;                  (* LocalObjectReference.Name *)
  pvs_OrganizationName : string;
  pvs_Key : CoderProvisionerKeySpec;
  pvs_Replicas : option Z;
  pvs_Tags : gmap string string;
  pvs_Image : string;
  pvs_ExtraArgs : list string;
  pvs_ExtraEnv : list EnvVar;
  pvs_Resources : option k8s_value;
  pvs_ImagePullSecrets : list string;
  pvs_TerminationGracePeriodSeconds : option Z
}.

Record CoderProvisionerStatus := {
  pst_ObservedGeneration : Z;
  pst_ReadyReplicas : Z;
  pst_Phase : string;
  pst_Conditions : list Condition;
  pst_OrganizationID : string;
  pst_OrganizationName : string;
  pst_ProvisionerKeyID : string;
  pst_ProvisionerKeyName : string;
  pst_TagsHash : string;
  pst_ControlPlaneRefName : string;
  pst_ControlPlaneURL : string;
  pst_SecretRef : option SecretKeySelector
}.

#[global] Instance CoderProvisionerStatus_eq_dec : EqDecision CoderProvisionerStatus.
Proof. solve_decision. Defined.

Record CoderProvisioner := {
  pv_meta : ObjectMeta;
  pv_Spec : CoderProvisionerSpec;
  pv_Status : CoderProvisionerStatus
}.

(** ** coderworkspaceproxy_types.go *)

Definition WorkspaceProxyPhasePending := "Pending".
Definition WorkspaceProxyPhaseReady := "Ready".

Record ProxyBootstrapSpec := {
  pb_CoderURL : string;
  pb_CredentialsSecretRef : SecretKeySelector;
  pb_ProxyName : string;
  pb_DisplayName : string;
  pb_Icon : string;
  pb_GeneratedTokenSecretName : string
}.

Record WorkspaceProxySpec := {
  wps_Image : string;
  wps_Replicas : option Z;
  wps_Service : ServiceSpec;
  wps_PrimaryAccessURL : string;
  wps_ProxySessionTokenSecretRef : option SecretKeySelector;
  wps_Bootstrap : option ProxyBootstrapSpec;
  wps_DerpOnly : bool;
  wps_ExtraArgs : list string;
  wps_ExtraEnv : list EnvVar;
  wps_ImagePullSecrets : list string
}.

Record WorkspaceProxyStatus := {
  wst_ObservedGeneration : Z;
  wst_ReadyReplicas : Z;
  wst_Registered : bool;
  wst_ProxyTokenSecretRef : option SecretKeySelector;
  wst_Phase : string;
  wst_Conditions : list Condition
}.

#[global] Instance WorkspaceProxyStatus_eq_dec : EqDecision WorkspaceProxyStatus.
Proof. solve_decision. Defined.

Record CoderWorkspaceProxy := {
  wp_meta : ObjectMeta;
  wp_Spec : WorkspaceProxySpec;
  wp_Status : WorkspaceProxyStatus
}.

End ApiTypes.
Export ApiTypes.
