(* ===== verification/Examples.v ===== *)
(** * Examples: a concrete control plane

    The smallest CoderControlPlane the witnesses of the development run on. *)

From S2P Require Import Prelude ApiTypes.

#[local] Open Scope string_scope.
#[local] Open Scope list_scope.

Module Examples.

Definition example_spec : CoderControlPlaneSpec := {|
  Image := ""; Replicas := None;
  Service := {| svc_Type := ""; svc_Port := 80; svc_Annotations := ∅ |};
  ExtraArgs := []; ExtraEnv := []; ImagePullSecrets := [];
  OperatorAccess := {| oa_Disabled := false; oa_GeneratedTokenSecretName := "" |};
  LicenseSecretRef := None;
  ServiceAccount := {| sa_DisableCreate := false; sa_Name := ""; sa_Annotations := ∅; sa_Labels := ∅ |};
  RBAC := {| WorkspacePerms := None; EnableDeployments := None; ExtraRules := [];
             WorkspaceNamespaces := [] |};
  Resources := None; SecurityContext := None; PodSecurityContext := None;
  TLS := {| tls_SecretNames := [] |};
  ReadinessProbe := {| probe_Enabled := None; probe_InitialDelaySeconds := 0;
    probe_PeriodSeconds := None; probe_TimeoutSeconds := None;
    probe_SuccessThreshold := None; probe_FailureThreshold := None |};
  LivenessProbe := {| probe_Enabled := None; probe_InitialDelaySeconds := 0;
    probe_PeriodSeconds := None; probe_TimeoutSeconds := None;
    probe_SuccessThreshold := None; probe_FailureThreshold := None |};
  EnvUseClusterAccessURL := None; Expose := None; EnvFrom := []; Volumes := [];
  VolumeMounts := []; Certs := []; NodeSelector := ∅; Tolerations := []; Affinity := None;
  TopologySpreadConstraints := []
|}.

Definition example_cp (namespace name : string) (ready : bool) : CoderControlPlane := {|
  cp_meta := {| Name := name; Namespace := namespace; UID := ""; ResourceVersion := "";
                CreationTimestamp := time_zero; Generation := 1; Labels := ∅; Annotations := ∅;
                OwnerReferences := []; Finalizers := []; DeletionTimestamp := None |};
  cp_Spec := example_spec;
  cp_Status := {|
    ObservedGeneration := 1; ReadyReplicas := 1; URL := " http://coder ";
    OperatorTokenSecretRef := Some {| sks_Name := "tok"; sks_Key := "" |};
    OperatorAccessReady := ready; LicenseLastApplied := None; LicenseLastAppliedHash := "";
    LicenseTier := ""; EntitlementsLastChecked := None;
    ExternalProvisionerDaemonsEntitlement := ""; Phase := "Ready"; Conditions := [] |}
|}.

(** A control plane of namespace [ns] with TLS, CA certificates, an ingress and
    workspaces in another namespace. *)
Definition full_spec (certs : list CertSecretSelector) : CoderControlPlaneSpec := {|
  Image := ""; Replicas := Some 2%Z;
  Service := {| svc_Type := ""; svc_Port := 443; svc_Annotations := ∅ |};
  ExtraArgs := ["--verbose"]; ExtraEnv := [{| env_Name := "LOG"; env_Value := "1"; env_ValueFrom := None |}];
  ImagePullSecrets := [];
  OperatorAccess := {| oa_Disabled := false; oa_GeneratedTokenSecretName := "" |};
  LicenseSecretRef := Some {| sks_Name := " license"; sks_Key := "" |};
  ServiceAccount := {| sa_DisableCreate := false; sa_Name := ""; sa_Annotations := ∅; sa_Labels := ∅ |};
  RBAC := {| WorkspacePerms := None; EnableDeployments := None; ExtraRules := [];
             WorkspaceNamespaces := ["work"] |};
  Resources := None; SecurityContext := None; PodSecurityContext := None;
  TLS := {| tls_SecretNames := ["web"; " web"; "mail"] |};
  ReadinessProbe := {| probe_Enabled := None; probe_InitialDelaySeconds := 0;
    probe_PeriodSeconds := None; probe_TimeoutSeconds := None;
    probe_SuccessThreshold := None; probe_FailureThreshold := None |};
  LivenessProbe := {| probe_Enabled := None; probe_InitialDelaySeconds := 0;
    probe_PeriodSeconds := None; probe_TimeoutSeconds := None;
    probe_SuccessThreshold := None; probe_FailureThreshold := None |};
  EnvUseClusterAccessURL := None;
  Expose := Some {| expose_Ingress := Some {| ie_ClassName := None; ie_Host := "coder.example";
                      ie_WildcardHost := "*.coder.example"; ie_Annotations := ∅; ie_TLS := None |};
                    expose_Gateway := None |};
  EnvFrom := []; Volumes := [];
  VolumeMounts := []; Certs := certs; NodeSelector := ∅; Tolerations := []; Affinity := None;
  TopologySpreadConstraints := []
|}.

Definition full_cp (certs : list CertSecretSelector) : CoderControlPlane := {|
  cp_meta := {| Name := "coder"; Namespace := "ns"; UID := "uid-1"; ResourceVersion := "7";
                CreationTimestamp := time_zero; Generation := 1; Labels := ∅; Annotations := ∅;
                OwnerReferences := []; Finalizers := []; DeletionTimestamp := None |};
  cp_Spec := full_spec certs;
  cp_Status := cp_Status (example_cp "ns" "coder" false) |}.

(** The value of a computation that returns one. *)
Definition ret_or {E A} (a : A) (o : outcome E A) : A := match o with Ret x => x | _ => a end.

End Examples.
Export Examples.
