(* ===== verification/Providers.v ===== *)
(** * Providers: internal/aggregated/coder/{config,provider,controlplane_provider}.go
    and the provider selection of internal/app/apiserverapp/apiserverapp.go

    How the aggregated API server finds the Coder deployment that serves a
    request namespace. *)

From S2P Require Import Prelude GoStd GoStdFacts GoErrors ApiTypes Examples.
From Stdlib Require Import Lia.

#[local] Open Scope string_scope.
#[local] Open Scope Z_scope.

Module Providers.

(** The request context: the namespace the API server attached to it
    ([genericapirequest.NamespaceValue]) and its deadline. *)
Record context := { ctx_namespace : string; ctx_deadline : option time }.

(** [net/url.URL], as far as the source reads it. *)
Record url := { url_Raw : string; url_Scheme : string; url_Host : string }.

(** ** config.go *)

Definition Second : Z := 1000000000.
Definition defaultRequestTimeout : Z := 30 * Second.

Record Config := { CoderURL : option url; SessionToken : string; RequestTimeout : Z }.

(** [*codersdk.Client]: the deployment's URL, the session token and the timeout
    of its HTTP client. *)
Record client := { client_URL : url; client_SessionToken : string; client_Timeout : Z }.

Definition NewSDKClient (cfg : Config) : result client :=
  match CoderURL cfg with
  | None => Err (Errorf "assertion failed: coder URL must not be nil" [])
  | Some coderURL =>
      _ ← fail_if (String.eqb (SessionToken cfg) "")
            (Errorf "assertion failed: session token must not be empty" []);
      let requestTimeout := RequestTimeout cfg in
      _ ← fail_if (requestTimeout <? 0)
            (Errorf "assertion failed: request timeout must not be negative" []);
      let requestTimeout := if requestTimeout =? 0 then defaultRequestTimeout else requestTimeout in
      mret {| client_URL := coderURL; client_SessionToken := SessionToken cfg;
              client_Timeout := requestTimeout |}
  end.

(** ** provider.go: the interfaces

    [NamespaceResolver] and [NamespaceLister] are optional interfaces of a
    [ClientProvider]: a type assertion finds them or not. *)

Section interfaces.
Context (W : Type).

Record ClientProvider := {
  ClientForNamespace : option context → string → M W goerror (option client);
  DefaultNamespace : option (option context → M W goerror string);
  EligibleNamespaces : option (option context → M W goerror (list string))
}.
End interfaces.

(** ** provider.go: the static provider *)

Record StaticClientProvider := { static_Client : option client; static_Namespace : string }.

Definition static_ClientForNamespace (p : option StaticClientProvider) (ctx : option context)
    (namespace : string) : result client :=
  match p with
  | None => Err (Errorf "assertion failed: static client provider must not be nil" [])
  | Some p =>
      _ ← fail_if (is_nil ctx) (Errorf "assertion failed: context must not be nil" []);
      match static_Client p with
      | None => Err (Errorf "assertion failed: static client provider client must not be nil" [])
      | Some client =>
          _ ← fail_if (String.eqb (static_Namespace p) "")
                (StatusErr (NewServiceUnavailable (Lit
                   "static coder client provider is not namespace-pinned; configure --coder-namespace")));
          let namespace := if String.eqb namespace "" then static_Namespace p else namespace in
          _ ← fail_if (negb (String.eqb namespace (static_Namespace p)))
                (StatusErr (NewBadRequest (Sprintf
                   "namespace %q is not served by this aggregated API server (configured for %q)"
                   [FStr namespace; FStr (static_Namespace p)])));
          mret client
      end
  end.

Definition static_DefaultNamespace (p : option StaticClientProvider) : result string :=
  match p with
  | None => Err (Errorf "assertion failed: static client provider must not be nil" [])
  | Some p =>
      _ ← fail_if (String.eqb (static_Namespace p) "")
            (StatusErr (NewServiceUnavailable (Lit "static provider has no default namespace")));
      mret (static_Namespace p)
  end.

Definition static_EligibleNamespaces (p : option StaticClientProvider) : result (list string) :=
  match p with
  | None => Err (Errorf "assertion failed: static client provider must not be nil" [])
  | Some p =>
      _ ← fail_if (String.eqb (static_Namespace p) "")
            (StatusErr (NewServiceUnavailable (Lit "static provider has no default namespace")));
      mret [static_Namespace p]
  end.

Definition NewStaticClientProvider (cfg : Config) (namespace : string)
    : result StaticClientProvider :=
  match NewSDKClient cfg with
  | Ret client => mret {| static_Client := Some client; static_Namespace := namespace |}
  | Err err => Err (Errorf "new SDK client: %w" [FErrW err])
  | Panic p => Panic p
  end.

(** The static provider as a [ClientProvider]. *)
Definition static_provider {W} (p : StaticClientProvider) : ClientProvider W := {|
  ClientForNamespace := λ ctx ns, lift (Some <$> static_ClientForNamespace (Some p) ctx ns);
  DefaultNamespace := Some (λ _, lift (static_DefaultNamespace (Some p)));
  EligibleNamespaces := Some (λ _, lift (static_EligibleNamespaces (Some p)))
|}.

(** ** controlplane_provider.go *)

Section control_plane_provider.
(** The state of the cluster as the two readers see it, and [url.Parse]. *)
Context {W : Type}.
Context (url_Parse : string → result url).

(** [cpReader.List(ctx, list, InNamespace(ns)?)] and [secretReader.Get]. *)
Definition cp_reader := option string → M W goerror (list CoderControlPlane).
Definition secret_reader := string → string → M W goerror Secret.

Record ControlPlaneClientProvider := {
  cpReader : option cp_reader;
  secretReader : option secret_reader;
  requestTimeout : Z
}.

Definition NewControlPlaneClientProvider (cp : option cp_reader) (sec : option secret_reader)
    (timeout : Z) : result ControlPlaneClientProvider :=
  _ ← fail_if (is_nil cp) (Errorf "assertion failed: control plane reader must not be nil" []);
  _ ← fail_if (is_nil sec) (Errorf "assertion failed: secret reader must not be nil" []);
  _ ← fail_if (timeout <? 0)
        (Errorf "assertion failed: request timeout must not be negative" []);
  mret {| cpReader := cp; secretReader := sec; requestTimeout := timeout |}.

Definition noEligibleControlPlaneMessage (namespace : string) : text :=
  if String.eqb namespace "" then
    Lit "no eligible CoderControlPlane instances found across all namespaces"
  else Sprintf "no eligible CoderControlPlane instances found in namespace %q" [FStr namespace].

Definition multipleEligibleControlPlaneMessage (namespace : string) : text :=
  if String.eqb namespace "" then
    Lit "multiple eligible CoderControlPlane instances across namespaces; multi-instance support is planned"
  else Sprintf
    "multiple eligible CoderControlPlane instances in namespace %q; multi-instance support is planned"
    [FStr namespace].

(** The conditions of the loop of [findEligibleControlPlanes], one [continue] each. *)
Definition eligible (cp : CoderControlPlane) : bool :=
  if contains_char "." (Name (cp_meta cp)) then false
  else if oa_Disabled (OperatorAccess (cp_Spec cp)) then false
  else if negb (OperatorAccessReady (cp_Status cp)) then false
  else if is_nil (OperatorTokenSecretRef (cp_Status cp)) then false
  else if String.eqb (trim_space (URL (cp_Status cp))) "" then false
  else true.

Definition findEligibleControlPlanes (p : option ControlPlaneClientProvider)
    (ctx : option context) (namespace : string) : M W goerror (list CoderControlPlane) :=
  match p with
  | None => throw (Errorf "assertion failed: control plane client provider must not be nil" [])
  | Some p =>
      _ ← guard_err (is_nil ctx) (Errorf "assertion failed: context must not be nil" []);
      match cpReader p with
      | None => throw (Errorf "assertion failed: control plane reader must not be nil" [])
      | Some list_cps =>
          items ← map_err (λ err,
              if String.eqb namespace "" then
                Errorf "list CoderControlPlane resources across all namespaces: %w" [FErrW err]
              else Errorf "list CoderControlPlane resources in namespace %q: %w"
                     [FStr namespace; FErrW err])
            (list_cps (if negb (String.eqb namespace "") then Some namespace else None));
          mret (List.filter eligible items)
      end
  end.

(** [controlPlane.Namespace/controlPlane.Name] in a message. *)
Definition cp_args (cp : CoderControlPlane) : list fmt_arg :=
  [FStr (Namespace (cp_meta cp)); FStr (Name (cp_meta cp))].

(** The part of [ClientForNamespace] after the single eligible control plane is
    chosen. *)
Definition clientForControlPlane (p : ControlPlaneClientProvider)
    (read_secret : secret_reader) (controlPlane : CoderControlPlane) : M W goerror client :=
  let ns := Namespace (cp_meta controlPlane) in
  match OperatorTokenSecretRef (cp_Status controlPlane) with
  | None => throw (Errorf
      "assertion failed: eligible CoderControlPlane is missing status.operatorTokenSecretRef" [])
  | Some ref =>
      let secretName := trim_space (sks_Name ref) in
      _ ← guard_err (String.eqb secretName "")
            (StatusErr (NewServiceUnavailable (Sprintf
               "eligible CoderControlPlane %s/%s is missing status.operatorTokenSecretRef.name"
               (cp_args controlPlane))));
      let secretKey := trim_space (sks_Key ref) in
      let secretKey := if String.eqb secretKey "" then DefaultTokenSecretKey else secretKey in
      tokenSecret ← map_err (λ err, Errorf
          "read operator token secret %s/%s for CoderControlPlane %s/%s: %w"
          ([FStr ns; FStr secretName] ++ cp_args controlPlane ++ [FErrW err])%list)
        (read_secret ns secretName);
      match secret_Data tokenSecret !! secretKey with
      | None => throw (StatusErr (NewServiceUnavailable (Sprintf
          "operator token secret %s/%s for CoderControlPlane %s/%s does not contain key %q"
          ([FStr ns; FStr secretName] ++ cp_args controlPlane ++ [FStr secretKey])%list)))
      | Some sessionToken =>
          _ ← guard_err (String.eqb sessionToken "")
                (StatusErr (NewServiceUnavailable (Sprintf
                   "operator token secret %s/%s for CoderControlPlane %s/%s contains an empty value for key %q"
                   ([FStr ns; FStr secretName] ++ cp_args controlPlane ++ [FStr secretKey])%list)));
          let coderURL := trim_space (URL (cp_Status controlPlane)) in
          parsedCoderURL ← map_err (λ err, Errorf
              "parse CoderControlPlane URL %q for %s/%s: %w"
              ([FStr coderURL] ++ cp_args controlPlane ++ [FErrW err])%list)
            (lift (url_Parse coderURL));
          map_err (λ err, Errorf
              "construct Coder SDK client for CoderControlPlane %s/%s: %w"
              (cp_args controlPlane ++ [FErrW err])%list)
            (lift (NewSDKClient {| CoderURL := Some parsedCoderURL;
                                   SessionToken := sessionToken;
                                   RequestTimeout := requestTimeout p |}))
      end
  end.

Definition cp_ClientForNamespace (p : option ControlPlaneClientProvider)
    (ctx : option context) (namespace : string) : M W goerror client :=
  match p with
  | None => throw (Errorf "assertion failed: control plane client provider must not be nil" [])
  | Some p =>
      _ ← guard_err (is_nil ctx) (Errorf "assertion failed: context must not be nil" []);
      match secretReader p with
      | None => throw (Errorf "assertion failed: secret reader must not be nil" [])
      | Some read_secret =>
          eligible ← findEligibleControlPlanes (Some p) ctx namespace;
          match eligible with
          | [] => throw (StatusErr (NewServiceUnavailable (noEligibleControlPlaneMessage namespace)))
          | [controlPlane] => clientForControlPlane p read_secret controlPlane
          | _ => throw (StatusErr (NewBadRequest (multipleEligibleControlPlaneMessage namespace)))
          end
      end
  end.

Definition cp_DefaultNamespace (p : option ControlPlaneClientProvider) (ctx : option context)
    : M W goerror string :=
  eligible ← findEligibleControlPlanes p ctx "";
  match eligible with
  | [] => throw (StatusErr (NewServiceUnavailable (noEligibleControlPlaneMessage "")))
  | [cp] =>
      let resolvedNamespace := trim_space (Namespace (cp_meta cp)) in
      _ ← guard_err (String.eqb resolvedNamespace "")
            (Errorf "assertion failed: eligible CoderControlPlane namespace must not be empty" []);
      mret resolvedNamespace
  | _ => throw (StatusErr (NewBadRequest (multipleEligibleControlPlaneMessage "")))
  end.

(** The loop that counts the eligible control planes of every namespace. *)
Definition countByNamespace (eligible : list CoderControlPlane) : result (gmap string Z) :=
  mfold (λ byNamespace cp,
    let namespace := trim_space (Namespace (cp_meta cp)) in
    _ ← fail_if (String.eqb namespace "")
          (Errorf "assertion failed: eligible CoderControlPlane namespace must not be empty" []);
    mret (<[namespace := default 0 (byNamespace !! namespace) + 1]> byNamespace)) ∅ eligible.

(** The loop over [byNamespace], in the order Go's [range] visits the map. *)
Definition collectNamespaces (entries : list (string * Z)) : result (list string) :=
  mfold (λ namespaces entry,
    _ ← fail_if (1 <? entry.2)
          (StatusErr (NewBadRequest (multipleEligibleControlPlaneMessage entry.1)));
    mret (namespaces ++ [entry.1])%list) [] entries.

(** [range_map] is the unspecified iteration order of Go maps. *)
Definition cp_EligibleNamespaces (range_map : gmap string Z → list (string * Z))
    (p : option ControlPlaneClientProvider) (ctx : option context) : M W goerror (list string) :=
  _ ← guard_err (is_nil p)
        (Errorf "assertion failed: control plane client provider must not be nil" []);
  _ ← guard_err (is_nil ctx) (Errorf "assertion failed: context must not be nil" []);
  eligible ← findEligibleControlPlanes p ctx "";
  _ ← guard_err (length eligible =? 0)%nat
        (StatusErr (NewServiceUnavailable (noEligibleControlPlaneMessage "")));
  byNamespace ← lift (countByNamespace eligible);
  namespaces ← lift (collectNamespaces (range_map byNamespace));
  mret (sort_strings namespaces).

(** The control-plane provider as a [ClientProvider]. *)
Definition cp_provider (range_map : gmap string Z → list (string * Z))
    (p : ControlPlaneClientProvider) : ClientProvider W := {|
  ClientForNamespace := λ ctx ns, Some <$> cp_ClientForNamespace (Some p) ctx ns;
  DefaultNamespace := Some (λ ctx, cp_DefaultNamespace (Some p) ctx);
  EligibleNamespaces := Some (λ ctx, cp_EligibleNamespaces range_map (Some p) ctx)
|}.
End control_plane_provider.
Arguments cp_reader : clear implicits.
Arguments secret_reader : clear implicits.
Arguments ControlPlaneClientProvider : clear implicits.

(** ** apiserverapp.go: choosing a provider *)

Record Options := {
  opt_CoderURL : string; opt_CoderSessionToken : string; opt_CoderNamespace : string;
  opt_CoderRequestTimeout : Z
}.

Inductive built_provider :=
  | BuiltErr (serviceUnavailableMessage : text)    (* *errClientProvider *)
  | BuiltStatic (p : StaticClientProvider).

Definition missing_list (missing : list string) : string :=
  match missing with
  | [a; b] => a +:+ " and " +:+ b
  | [a] => a
  | _ => ""
  end.

Definition buildClientProvider (url_Parse : string → result url) (opts : Options)
    (requestTimeout : Z) : result built_provider :=
  _ ← fail_if (requestTimeout <=? 0)
        (Errorf "assertion failed: request timeout must be positive" []);
  let coderURL := trim_space (opt_CoderURL opts) in
  let sessionToken := trim_space (opt_CoderSessionToken opts) in
  let missing := ((if String.eqb coderURL "" then ["coder URL"] else [])
                  ++ (if String.eqb sessionToken "" then ["coder session token"] else []))%list in
  let message := Sprintf
    "coder client provider is not configured: missing %s; configure --coder-url and --coder-session-token"
    [FStr (missing_list missing)] in
  if (0 <? length missing)%nat then
    if (length missing =? 2)%nat then mret (BuiltErr message)
    else Err (Errorf "coder client provider is partially configured: %s" [FText message])
  else
    let coderNamespace := trim_space (opt_CoderNamespace opts) in
    _ ← fail_if (String.eqb coderNamespace "")
          (Errorf "coder client provider namespace is not configured: configure --coder-namespace" []);
    match url_Parse coderURL with
    | Err err => Err (Errorf "parse coder URL %q: %w" [FStr coderURL; FErrW err])
    | Panic p => Panic p
    | Ret parsedCoderURL =>
        BuiltStatic <$> NewStaticClientProvider
          {| CoderURL := Some parsedCoderURL; SessionToken := sessionToken;
             RequestTimeout := requestTimeout |} coderNamespace
    end.

(** [errClientProvider.ClientForNamespace] *)
Definition err_ClientForNamespace (p : option text) (ctx : option context) : result client :=
  match p with
  | None => Err (Errorf "assertion failed: err client provider must not be nil" [])
  | Some message =>
      _ ← fail_if (is_nil ctx) (Errorf "assertion failed: context must not be nil" []);
      _ ← fail_if (text_empty message)
            (Errorf "assertion failed: service unavailable message must not be empty" []);
      Err (StatusErr (NewServiceUnavailable message))
  end.

(** ** Properties of the control-plane provider *)

Section control_plane_properties.
Context {W : Type} (url_Parse : string → result url).
Implicit Types (p : ControlPlaneClientProvider W) (w : W).

(** Which secret a control plane's operator token is read from. *)
Definition token_key (ref : SecretKeySelector) : string :=
  if String.eqb (trim_space (sks_Key ref)) "" then DefaultTokenSecretKey
  else trim_space (sks_Key ref).

Lemma findEligible_Ret p ctx ns w l w' :
  findEligibleControlPlanes (Some p) ctx ns w = (Ret l, w') →
  ∃ list_cps items, cpReader p = Some list_cps ∧
    list_cps (if String.eqb ns "" then None else Some ns) w = (Ret items, w') ∧
    l = List.filter eligible items.
Proof.
  unfold findEligibleControlPlanes. intros H. inv_run H.
  destruct (cpReader p) as [list_cps|]; [|discriminate].
  inv_run H. exists list_cps. eexists. split_and!; [done| |done].
  by destruct (String.eqb ns "").
Qed.

Lemma clientForControlPlane_Ret p rs cp w cl w' :
  clientForControlPlane url_Parse p rs cp w = (Ret cl, w') →
  ∃ ref sec, OperatorTokenSecretRef (cp_Status cp) = Some ref ∧
    trim_space (sks_Name ref) ≠ "" ∧
    rs (Namespace (cp_meta cp)) (trim_space (sks_Name ref)) w = (Ret sec, w') ∧
    secret_Data sec !! token_key ref = Some (client_SessionToken cl) ∧
    client_SessionToken cl ≠ "" ∧
    url_Parse (trim_space (URL (cp_Status cp))) = Ret (client_URL cl).
Proof.
  unfold clientForControlPlane. intros H.
  destruct (OperatorTokenSecretRef (cp_Status cp)) as [ref|]; [|discriminate].
  inv_run H. fold (token_key ref) in H.
  destruct (secret_Data _ !! token_key ref) as [tok|] eqn:Htok; [|discriminate].
  inv_run H. bool_simpl. unfold NewSDKClient in H. cbn in H. inv_outcome H. cbn.
  exists ref. eexists. by split_and!.
Qed.
End control_plane_properties.

(** the control-plane provider never guesses.  When [ClientForNamespace]
    returns a client, the listing of the requested namespace (of all namespaces
    for an empty one) contained exactly one eligible control plane, the client's
    session token is the non-empty value stored under that control plane's
    operator-token reference in a Secret of its own namespace, and the client's
    URL is the parsed status URL of that same control plane. *)
Theorem cp_ClientForNamespace_unambiguous {W} (url_Parse : string → result url)
    (p : ControlPlaneClientProvider W) (ctx : option context) (ns : string) (w w' : W)
    (cl : client)
    (Hrun : cp_ClientForNamespace url_Parse (Some p) ctx ns w = (Ret cl, w')) :
  ∃ list_cps read_secret items w1 cp ref sec,
    cpReader p = Some list_cps ∧ secretReader p = Some read_secret ∧
    list_cps (if String.eqb ns "" then None else Some ns) w = (Ret items, w1) ∧
    List.filter eligible items = [cp] ∧
    OperatorTokenSecretRef (cp_Status cp) = Some ref ∧
    read_secret (Namespace (cp_meta cp)) (trim_space (sks_Name ref)) w1 = (Ret sec, w') ∧
    secret_Data sec !! token_key ref = Some (client_SessionToken cl) ∧
    client_SessionToken cl ≠ "" ∧
    url_Parse (trim_space (URL (cp_Status cp))) = Ret (client_URL cl).
Proof.
  unfold cp_ClientForNamespace in Hrun. inv_run Hrun.
  destruct (secretReader p) as [rs|]; [|discriminate]. inv_run Hrun.
  apply findEligible_Ret in Hrun1 as (lc & items & Hlc & Hl & ->).
  destruct (List.filter eligible items) as [|cp [|]] eqn:Hf; try discriminate.
  apply clientForControlPlane_Ret in Hrun as (ref & sec & ? & ? & ? & ? & ? & ?).
  exists lc, rs, items. eexists. exists cp, ref, sec. by split_and!.
Qed.

(** *** EligibleNamespaces *)

(** The namespaces of the eligible control planes, as the loop reads them. *)
Definition eligible_namespaces (cps : list CoderControlPlane) : list string :=
  (λ cp, trim_space (Namespace (cp_meta cp))) <$> cps.

(** How many eligible control planes a namespace has. *)
Definition ns_count (l : list string) (n : string) : nat := count_occ String.string_dec l n.

Lemma ns_count_snoc l x n :
  ns_count (l ++ [x]) n = (ns_count l n + if String.string_dec x n then 1 else 0)%nat.
Proof. unfold ns_count. rewrite count_occ_app. cbn. by destruct (String.string_dec x n). Qed.

(** [m] holds the counts of the namespaces of [cps]. *)
Definition counts (cps : list CoderControlPlane) (m : gmap string Z) : Prop :=
  Forall (λ n, n ≠ "") (eligible_namespaces cps) ∧
  ∀ n, m !! n = if decide (ns_count (eligible_namespaces cps) n = 0%nat) then None
                else Some (Z.of_nat (ns_count (eligible_namespaces cps) n)).

Lemma countByNamespace_Ret cps m : countByNamespace cps = Ret m → counts cps m.
Proof.
  unfold countByNamespace. apply (mfold_invariant _ counts).
  - split; [constructor|]. intros n. cbn. apply lookup_empty.
  - intros done cp m1 m2 [Hne Hm] H _. inv_outcome H. apply String.eqb_neq in Hx.
    unfold counts, eligible_namespaces. rewrite fmap_app. fold (eligible_namespaces done). cbn [fmap list_fmap].
    split; [by apply Forall_app; split; [|constructor]|].
    intros n. rewrite ns_count_snoc.
    destruct (String.string_dec _ n) as [<-|Hn].
    + rewrite lookup_insert_eq, Hm.
      repeat case_decide; try lia; cbn; f_equal; lia.
    + rewrite lookup_insert_ne, Hm by done. by rewrite Nat.add_0_r.
Qed.

Lemma countByNamespace_total cps :
  Forall (λ n, n ≠ "") (eligible_namespaces cps) → ∃ m, countByNamespace cps = Ret m.
Proof.
  unfold countByNamespace. generalize (∅ : gmap string Z) as m.
  induction cps as [|cp cps IH]; intros m; cbn [mfold]; [eauto|].
  intros [Hn Hl]%Forall_cons. apply String.eqb_neq in Hn. rewrite Hn. by apply IH.
Qed.

Lemma collectNamespaces_Ret entries l :
  collectNamespaces entries = Ret l ↔ Forall (λ e, e.2 ≤ 1) entries ∧ l = entries.*1.
Proof.
  unfold collectNamespaces.
  enough (∀ acc, mfold (λ namespaces entry,
      _ ← fail_if (1 <? entry.2)
            (StatusErr (NewBadRequest (multipleEligibleControlPlaneMessage entry.1)));
      mret (namespaces ++ [entry.1])%list) acc entries = Ret l
    ↔ Forall (λ e, e.2 ≤ 1) entries ∧ l = (acc ++ entries.*1)%list) as H by apply H.
  induction entries as [|e entries IH]; intros acc; cbn [mfold].
  - rewrite app_nil_r. split; [by intros [= ->]|by intros [_ ->]].
  - unfold fail_if. destruct (Z.ltb_spec 1 e.2); cbn.
    + split; [discriminate|]. intros [He _]. apply Forall_cons in He as [? _]. lia.
    + rewrite IH, Forall_cons, <-app_assoc. cbn. naive_solver.
Qed.

Lemma sorted_strings_unique l1 l2 : l1 ≡ₚ l2 → sort_strings l1 = sort_strings l2.
Proof.
  intros H. apply (Sorted_unique String.le); [apply sort_strings_sorted..|].
  by rewrite !sort_strings_perm.
Qed.

Lemma count_entries cps m (entries : list (string * Z)) :
  countByNamespace cps = Ret m → entries ≡ₚ map_to_list m →
  (Forall (λ e, e.2 ≤ 1) entries ↔ NoDup (eligible_namespaces cps)) ∧
  (NoDup (eligible_namespaces cps) → entries.*1 ≡ₚ eligible_namespaces cps).
Proof.
  intros [_ Hm]%countByNamespace_Ret He.
  assert (∀ n c, (n, c) ∈ entries ↔
            c = Z.of_nat (ns_count (eligible_namespaces cps) n) ∧ (0 < c)) as Hin.
  { intros n c. rewrite He, elem_of_map_to_list, Hm. case_decide; split; naive_solver lia. }
  split.
  - rewrite Forall_forall. split.
    + intros Hle. apply NoDup_ListNoDup, (NoDup_count_occ String.string_dec). intros n.
      fold (ns_count (eligible_namespaces cps) n).
      destruct (decide (ns_count (eligible_namespaces cps) n = 0%nat)); [lia|].
      specialize (Hle (n, Z.of_nat (ns_count (eligible_namespaces cps) n))).
      cbn in Hle. apply Nat2Z.inj_le, Hle, Hin. lia.
    + intros Hnd%NoDup_ListNoDup [n c] [-> _]%Hin. cbn.
      pose proof (proj1 (NoDup_count_occ String.string_dec _) Hnd n).
      unfold ns_count. lia.
  - intros Hnd. apply NoDup_Permutation; [|done|].
    + rewrite He. apply NoDup_fst_map_to_list.
    + intros n. rewrite list_elem_of_fmap. split.
      * intros ([? c] & -> & [-> Hc]%Hin). cbn. apply list_elem_of_In, (count_occ_In String.string_dec).
        unfold ns_count in Hc. lia.
      * intros Hn%list_elem_of_In%(count_occ_In String.string_dec).
        exists (n, Z.of_nat (ns_count (eligible_namespaces cps) n)). split; [done|].
        apply Hin. unfold ns_count. lia.
Qed.

(** The namespaces an all-namespaces LIST fans out to are independent of
    Go's map iteration order.  For every order in which [range] may visit the
    map, [EligibleNamespaces] returns [l] exactly when the listing succeeded,
    found at least one eligible control plane, no namespace is blank, no
    namespace has two eligible control planes, and [l] is the sorted list of
    their namespaces. *)
Theorem cp_EligibleNamespaces_order_independent {W}
    (range_map : gmap string Z → list (string * Z))
    (Hrange : ∀ m, range_map m ≡ₚ map_to_list m)
    (p : ControlPlaneClientProvider W) (ctx : option context) (w w' : W) (l : list string) :
  cp_EligibleNamespaces range_map (Some p) ctx w = (Ret l, w') ↔
  ∃ cps, ctx ≠ None ∧ findEligibleControlPlanes (Some p) ctx "" w = (Ret cps, w') ∧ cps ≠ [] ∧
    Forall (λ n, n ≠ "") (eligible_namespaces cps) ∧
    NoDup (eligible_namespaces cps) ∧ l = sort_strings (eligible_namespaces cps).
Proof.
  split.
  - unfold cp_EligibleNamespaces. intros H. inv_run H.
    rename Hrun1 into Hf, Hrun3 into Hc, Hrun4 into Hl, a1 into cps.
    apply collectNamespaces_Ret in Hl as [Hle ->].
    destruct (count_entries _ _ _ Hc (Hrange _)) as [H1 H2].
    exists cps. split_and!; [by destruct ctx|done|by destruct cps| | |].
    + by destruct (countByNamespace_Ret _ _ Hc).
    + by apply H1.
    + apply sorted_strings_unique, H2, H1, Hle.
  - intros (cps & Hctx & Hf & Hne & Hall & Hnd & ->).
    unfold cp_EligibleNamespaces. destruct ctx as [ctx|]; [|done].
    destruct (countByNamespace_total cps Hall) as [m Hm].
    destruct (count_entries _ _ _ Hm (Hrange m)) as [H1 H2].
    assert (collectNamespaces (range_map m) = Ret (range_map m).*1) as Hcol
      by (apply collectNamespaces_Ret; split; [by apply H1|done]).
    apply M_bind_Ret. exists tt, w. split; [done|]. apply M_bind_Ret. exists tt, w. split; [done|].
    apply M_bind_Ret. exists cps, w'. split; [done|].
    destruct cps as [|cp cps]; [done|].
    unfold guard_err, lift, mbind, M_bind. cbn [length Nat.eqb fail_if].
    unfold fail_if. rewrite Hm, Hcol. unfold mret, M_ret. do 2 f_equal.
    apply sorted_strings_unique, H2, Hnd.
Qed.

(** ** A concrete cluster *)

Definition example_provider (cps : list CoderControlPlane) : ControlPlaneClientProvider () := {|
  cpReader := Some (λ _, mret cps);
  secretReader := Some (λ _ _, mret {| secret_meta := empty_meta; secret_Type := "Opaque";
                                       secret_Data := {["token" := "s3cret"]} |});
  requestTimeout := 0
|}.

Definition example_url (s : string) : url :=
  {| url_Raw := s; url_Scheme := "http"; url_Host := "coder" |}.

Definition example_ctx : option context := Some {| ctx_namespace := "ns"; ctx_deadline := None |}.

Lemma cp_ClientForNamespace_unambiguous_witness :
  ∃ list_cps read_secret items w1 cp ref sec,
    cpReader (example_provider [example_cp "ns" "a" false; example_cp "ns" "b" true])
      = Some list_cps ∧
    secretReader (example_provider [example_cp "ns" "a" false; example_cp "ns" "b" true])
      = Some read_secret ∧
    list_cps (Some "ns") tt = (Ret items, w1) ∧
    List.filter eligible items = [cp] ∧
    OperatorTokenSecretRef (cp_Status cp) = Some ref ∧
    read_secret (Namespace (cp_meta cp)) (trim_space (sks_Name ref)) w1 = (Ret sec, tt) ∧
    secret_Data sec !! token_key ref = Some "s3cret" ∧
    "s3cret" ≠ "" ∧
    Ret (example_url (trim_space (URL (cp_Status cp)))) = @Ret goerror _ (example_url "http://coder").
Proof.
  exact (cp_ClientForNamespace_unambiguous (λ s, Ret (example_url s))
    (example_provider [example_cp "ns" "a" false; example_cp "ns" "b" true])
    example_ctx "ns" tt tt
    {| client_URL := example_url "http://coder"; client_SessionToken := "s3cret";
       client_Timeout := 30 * Second |} eq_refl).
Defined.

Lemma cp_EligibleNamespaces_order_independent_witness :
  cp_EligibleNamespaces (λ m, reverse (map_to_list m))
    (Some (example_provider [example_cp "b" "x" true; example_cp "c" "x" false; example_cp "a" "y" true]))
    example_ctx tt = (Ret ["a"; "b"], tt).
Proof.
  apply (cp_EligibleNamespaces_order_independent (λ m, reverse (map_to_list m))).
  - intros m. apply reverse_Permutation.
  - exists [example_cp "b" "x" true; example_cp "a" "y" true].
    split_and!; [done|reflexivity|done| | |reflexivity].
    + repeat constructor; done.
    + cbn. apply NoDup_cons. split; [set_solver|]. apply NoDup_singleton.
Defined.

End Providers.
