(* ===== verification/AggTypes.v ===== *)
(** * AggTypes: api/aggregation/v1alpha1

    The resources the aggregated API server serves (types.go,
    groupversion_info.go), and the [runtime.Object] values its storage handlers
    are given and return. *)

From S2P Require Import Prelude GoStd GoErrors ApiTypes.

#[local] Open Scope string_scope.

Module AggTypes.

Definition GroupName := "aggregation.coder.com".
Definition SchemeGroupVersion := GroupName +:+ "/v1alpha1".

Definition Resource (resource : string) : group_resource := GroupResource GroupName resource.
Definition coderworkspaces := Resource "coderworkspaces".
Definition codertemplates := Resource "codertemplates".

Record TypeMeta := { Kind : string; APIVersion : string }.

Record CoderWorkspaceSpec := {
  wss_Organization : string;
  wss_TemplateName : string;
  wss_TemplateVersionID : string;
  wss_Running : bool;
  wss_TTLMillis : option Z;
  wss_AutostartSchedule : option string
}.

Record CoderWorkspaceStatus := {
  wst_ID : string;
  wst_OwnerName : string;
  wst_OrganizationName : string;
  wst_TemplateName : string;
  wst_LatestBuildID : string;
  wst_LatestBuildStatus : string;
  wst_AutoShutdown : option time;
  wst_LastUsedAt : option time
}.

Record CoderWorkspace := {
  ws_type : TypeMeta;
  ws_meta : ObjectMeta;
  ws_Spec : CoderWorkspaceSpec;
  ws_Status : CoderWorkspaceStatus
}.

(** [Files] is a Go map: nil or a map. *)
Record CoderTemplateSpec := {
  ts_Organization : string;
  ts_VersionID : string;
  ts_DisplayName : string;
  ts_Description : string;
  ts_Icon : string;
  ts_Files : option (gmap string string);
  ts_Running : bool
}.

Record CoderTemplateStatus := {
  tst_ID : string;
  tst_OrganizationName : string;
  tst_ActiveVersionID : string;
  tst_Deprecated : bool;
  tst_UpdatedAt : option time;
  tst_AutoShutdown : option time
}.

Record CoderTemplate := {
  tpl_type : TypeMeta;
  tpl_meta : ObjectMeta;
  tpl_Spec : CoderTemplateSpec;
  tpl_Status : CoderTemplateStatus
}.

(** A non-nil [runtime.Object]: the dynamic type and the value.  The pointer
    types of this group may hold a typed nil. *)
Inductive object :=
  | OWorkspace (p : option CoderWorkspace)
  | OTemplate (p : option CoderTemplate)
  | OWorkspaceList (type_ : TypeMeta) (items : list CoderWorkspace)
  | OTemplateList (type_ : TypeMeta) (items : list CoderTemplate)
  | OStatus (status : string)
  | OOther (type_name : string).

(** [%T] of an object *)
Definition type_name (obj : object) : string :=
  match obj with
  | OWorkspace _ => "*v1alpha1.CoderWorkspace"
  | OTemplate _ => "*v1alpha1.CoderTemplate"
  | OWorkspaceList _ _ => "*v1alpha1.CoderWorkspaceList"
  | OTemplateList _ _ => "*v1alpha1.CoderTemplateList"
  | OStatus _ => "*v1.Status"
  | OOther n => n
  end.

(** [new(CoderWorkspace)], [new(CoderTemplate)] *)
Definition empty_workspace : CoderWorkspace := {|
  ws_type := {| Kind := ""; APIVersion := "" |};
  ws_meta := empty_meta;
  ws_Spec := {| wss_Organization := ""; wss_TemplateName := ""; wss_TemplateVersionID := "";
                wss_Running := false; wss_TTLMillis := None; wss_AutostartSchedule := None |};
  ws_Status := {| wst_ID := ""; wst_OwnerName := ""; wst_OrganizationName := "";
                  wst_TemplateName := ""; wst_LatestBuildID := ""; wst_LatestBuildStatus := "";
                  wst_AutoShutdown := None; wst_LastUsedAt := None |}
|}.

Definition empty_template : CoderTemplate := {|
  tpl_type := {| Kind := ""; APIVersion := "" |};
  tpl_meta := empty_meta;
  tpl_Spec := {| ts_Organization := ""; ts_VersionID := ""; ts_DisplayName := "";
                 ts_Description := ""; ts_Icon := ""; ts_Files := None; ts_Running := false |};
  tpl_Status := {| tst_ID := ""; tst_OrganizationName := ""; tst_ActiveVersionID := "";
                   tst_Deprecated := false; tst_UpdatedAt := None; tst_AutoShutdown := None |}
|}.

(** [obj.Name = name] *)
Definition set_meta_name (name : string) (m : ObjectMeta) : ObjectMeta := {|
  Name := name; Namespace := Namespace m; UID := UID m; ResourceVersion := ResourceVersion m;
  Generation := Generation m; CreationTimestamp := CreationTimestamp m;
  DeletionTimestamp := DeletionTimestamp m; Labels := Labels m; Annotations := Annotations m;
  OwnerReferences := OwnerReferences m; Finalizers := Finalizers m |}.

Definition set_workspace_name (name : string) (w : CoderWorkspace) : CoderWorkspace := {|
  ws_type := ws_type w; ws_meta := set_meta_name name (ws_meta w);
  ws_Spec := ws_Spec w; ws_Status := ws_Status w |}.

Definition set_template_name (name : string) (t : CoderTemplate) : CoderTemplate := {|
  tpl_type := tpl_type t; tpl_meta := set_meta_name name (tpl_meta t);
  tpl_Spec := tpl_Spec t; tpl_Status := tpl_Status t |}.

(** [obj.Spec.Files = files] *)
Definition set_template_files (files : option (gmap string string)) (t : CoderTemplate)
    : CoderTemplate := {|
  tpl_type := tpl_type t; tpl_meta := tpl_meta t;
  tpl_Spec := {|
    ts_Organization := ts_Organization (tpl_Spec t); ts_VersionID := ts_VersionID (tpl_Spec t);
    ts_DisplayName := ts_DisplayName (tpl_Spec t); ts_Description := ts_Description (tpl_Spec t);
    ts_Icon := ts_Icon (tpl_Spec t); ts_Files := files; ts_Running := ts_Running (tpl_Spec t) |};
  tpl_Status := tpl_Status t |}.

End AggTypes.
Export AggTypes.
