(* ===== verification/Sdk.v ===== *)
(** * Sdk: the codersdk client as the storage handlers use it

    The vendored package codersdk is not modelled.  Its data types are kept as
    far as the source reads them; its methods are one parameter, a function from
    a client and a request to an effect on the backend.  A handler runs in a
    state that holds the backend, the list of requests issued so far (a ghost:
    it makes "what was asked of which backend, in which order" a statement about
    the final state) and the handler's watch-event queue. *)

From S2P Require Import Prelude GoStd GoErrors Uuid ApiTypes AggTypes Providers.

#[local] Open Scope string_scope.
#[local] Open Scope list_scope.

Module Sdk.
Import Uuid Providers.

(** ** codersdk data *)

Record ProvisionerJob := { job_FileID : Uuid.t; job_Status : string; job_Error : string }.
Record TemplateVersion := {
  tv_ID : Uuid.t; tv_TemplateID : option Uuid.t; tv_Job : ProvisionerJob
}.
Record Organization := { org_ID : Uuid.t; org_Name : string }.
Record UploadResponse := { upload_ID : Uuid.t }.

Record Template := {
  t_ID : Uuid.t; t_CreatedAt : time; t_UpdatedAt : time;
  t_OrganizationName : string; t_Name : string; t_DisplayName : string;
  t_Description : string; t_Icon : string; t_ActiveVersionID : Uuid.t; t_Deprecated : bool
}.

(** [WorkspaceTransition] and [WorkspaceStatus] are open string types. *)
Definition WorkspaceTransitionStart := "start".
Definition WorkspaceTransitionStop := "stop".
Definition WorkspaceTransitionDelete := "delete".
Definition WorkspaceStatusPending := "pending".
Definition WorkspaceStatusStarting := "starting".
Definition WorkspaceStatusRunning := "running".

Definition ProvisionerJobPending := "pending".
Definition ProvisionerJobRunning := "running".
Definition ProvisionerJobSucceeded := "succeeded".
Definition ProvisionerJobCanceling := "canceling".
Definition ProvisionerJobCanceled := "canceled".
Definition ProvisionerJobFailed := "failed".
Definition ProvisionerJobUnknown := "unknown".

Record WorkspaceBuild := {
  b_ID : Uuid.t; b_UpdatedAt : time; b_TemplateVersionID : Uuid.t; b_Transition : string;
  b_Status : string;
  b_DeadlineTime : time; b_DeadlineValid : bool   (* NullTime *)
}.

Record Workspace := {
  w_ID : Uuid.t; w_CreatedAt : time; w_UpdatedAt : time;
  w_OrganizationName : string; w_OwnerName : string; w_Name : string;
  w_TemplateName : string; w_LatestBuild : WorkspaceBuild;
  w_AutostartSchedule : option string; w_TTLMillis : option Z; w_LastUsedAt : time
}.

Record CreateTemplateRequest := {
  ctr_Name : string; ctr_VersionID : Uuid.t; ctr_DisplayName : string;
  ctr_Description : string; ctr_Icon : string
}.
Record CreateTemplateVersionRequest := {
  ctv_TemplateID : Uuid.t; ctv_StorageMethod : string; ctv_FileID : Uuid.t;
  ctv_Provisioner : string
}.
Record UpdateTemplateMeta := {
  utm_DisplayName : option string; utm_Description : option string; utm_Icon : option string
}.
Record CreateWorkspaceRequest := {
  cwr_Name : string; cwr_TemplateID : Uuid.t; cwr_TemplateVersionID : Uuid.t;
  cwr_TTLMillis : option Z; cwr_AutostartSchedule : option string
}.

(** [*http.Response] of a raw request: the bytes its body yields before the end
    of the stream or a read error, and the result of closing it. *)
Record http_response := {
  StatusCode : Z; Body : string; Body_readErr : option goerror; Body_closeErr : option goerror
}.

(** ** Requests *)

Inductive request :=
  | ROrganizationByName (name : string)
  | RTemplateByName (orgID : Uuid.t) (name : string)
  | RTemplates
  | RTemplate (id : Uuid.t)
  | RTemplateVersion (id : Uuid.t)
  | RWorkspaces
  | RWorkspaceByOwnerAndName (owner name : string)
  | RFileZip (fileID : Uuid.t)           (* sdk.Request(GET, /api/v2/files/<id>, format=zip) *)
  | RUpload (contents : string)
  | RCreateTemplateVersion (orgID : Uuid.t) (req : CreateTemplateVersionRequest)
  | RCreateTemplate (orgID : Uuid.t) (req : CreateTemplateRequest)
  | RCreateUserWorkspace (user : string) (req : CreateWorkspaceRequest)
  | RCreateWorkspaceBuild (workspaceID : Uuid.t) (transition : string)
  | RUpdateTemplateMeta (id : Uuid.t) (req : UpdateTemplateMeta)
  | RUpdateActiveTemplateVersion (id versionID : Uuid.t)
  | RDeleteTemplate (id : Uuid.t).

Definition response (r : request) : Type :=
  match r with
  | ROrganizationByName _ => Organization
  | RTemplateByName _ _ | RTemplate _ | RCreateTemplate _ _ | RUpdateTemplateMeta _ _ => Template
  | RTemplates => list Template
  | RTemplateVersion _ | RCreateTemplateVersion _ _ => TemplateVersion
  | RWorkspaces => list Workspace
  | RWorkspaceByOwnerAndName _ _ | RCreateUserWorkspace _ _ => Workspace
  | RFileZip _ => http_response
  | RUpload _ => UploadResponse
  | RCreateWorkspaceBuild _ _ => WorkspaceBuild
  | RUpdateActiveTemplateVersion _ _ | RDeleteTemplate _ => ()
  end.

(** The requests that change the backend. *)
Definition mutating (r : request) : bool :=
  match r with
  | RUpload _ | RCreateTemplateVersion _ _ | RCreateTemplate _ _ | RCreateUserWorkspace _ _
  | RCreateWorkspaceBuild _ _ | RUpdateTemplateMeta _ _ | RUpdateActiveTemplateVersion _ _
  | RDeleteTemplate _ => true
  | _ => false
  end.

(** ** The state of a handler *)

(** [watch.Event]; the event types the storages emit. *)
Inductive event_type := Added | Modified | Deleted.
Record event := Event { ev_Type : event_type; ev_Object : object }.

(** A buffered Go channel: its buffer, oldest element first, and whether it is
    closed. *)
Record channel := Chan { ch_buf : list event; ch_closed : bool }.

Record st (W : Type) := St {
  st_world : W;
  st_trace : list (client * request);
  st_queue : channel
}.
Arguments St {W}.
Arguments st_world {W}.
Arguments st_trace {W}.
Arguments st_queue {W}.

Section handlers.
Context {W : Type}.
Context (sdk : client → ∀ r : request, M W goerror (response r)).

Definition handler : Type → Type := M (st W) goerror.

(** Code outside the handler that acts on the environment (a client provider,
    an admission plugin). *)
Definition ext {A} (m : M W goerror A) : handler A := λ s,
  let '(o, w) := m (st_world s) in (o, St w (st_trace s) (st_queue s)).

(** A method of the SDK client. *)
Definition call (c : client) (r : request) : handler (response r) := λ s,
  let '(o, w) := sdk c r (st_world s) in
  (o, St w (st_trace s ++ [(c, r)]) (st_queue s)).

Lemma wp_ext {A} (m : M W goerror A) Q s :
  (∀ o w, m (st_world s) = (o, w) → Q o (St w (st_trace s) (st_queue s))) → wp (ext m) Q s.
Proof. unfold wp, ext. intros H. destruct (m (st_world s)) as [o w] eqn:E. by apply H. Qed.

Lemma wp_call c r Q s :
  (∀ o w, sdk c r (st_world s) = (o, w) → Q o (St w (st_trace s ++ [(c, r)]) (st_queue s))) →
  wp (call c r) Q s.
Proof.
  unfold wp, call. intros H. destruct (sdk c r (st_world s)) as [o w] eqn:E. by apply H.
Qed.

Lemma ext_Ret {A} (m : M W goerror A) s a s' :
  ext m s = (Ret a, s') ↔
  ∃ w, m (st_world s) = (Ret a, w) ∧ s' = St w (st_trace s) (st_queue s).
Proof.
  unfold ext. destruct (m (st_world s)) as [[]]; split; intros; naive_solver.
Qed.

Lemma call_Ret c r s a s' :
  call c r s = (Ret a, s') ↔
  ∃ w, sdk c r (st_world s) = (Ret a, w) ∧ s' = St w (st_trace s ++ [(c, r)]) (st_queue s).
Proof.
  unfold call. destruct (sdk c r (st_world s)) as [[]]; split; intros; naive_solver.
Qed.
End handlers.

(** Step over a request to the backend, or over code of the environment. *)
Ltac wp_request :=
  match goal with
  | |- wp (call ?sdk ?c ?r) ?Q ?s => apply (wp_call sdk c r Q s)
  | |- wp (ext ?m) ?Q ?s => apply (wp_ext m Q s)
  end; let o := fresh "o" in let w := fresh "w" in let H := fresh "Hcall" in intros o w H.

(** The state-changing requests of a trace. *)
Definition mutations (tr : list (client * request)) : list (client * request) :=
  List.filter (λ x, mutating x.2) tr.

Lemma mutations_app t1 t2 : mutations (t1 ++ t2) = mutations t1 ++ mutations t2.
Proof. apply List.filter_app. Qed.

Lemma mutations_read t c r : mutating r = false → mutations (t ++ [(c, r)]) = mutations t.
Proof. intros H. rewrite mutations_app. cbn. rewrite H. apply app_nil_r. Qed.

Lemma mutations_write t c r :
  mutating r = true → mutations (t ++ [(c, r)]) = mutations t ++ [(c, r)].
Proof. intros H. rewrite mutations_app. cbn. by rewrite H. Qed.

End Sdk.
