(* ===== verification/Convert.v ===== *)
(** * Convert: internal/aggregated/convert/{template,workspace}.go

    Backend models to Kubernetes objects, and Kubernetes objects to backend
    requests. *)

From S2P Require Import Prelude GoStd GoStdFacts GoErrors Uuid Names ApiTypes AggTypes Sdk.
From Stdlib Require Import Lia.

#[local] Open Scope string_scope.
#[local] Open Scope list_scope.

Module Convert.
Import Uuid Names Sdk.

(** ** template.go *)

Definition TemplateToK8s (namespace : string) (t : Template) : result CoderTemplate :=
  _ ← panic_if (String.eqb namespace "")
        (ErrorString "assertion failed: namespace must not be empty");
  name ← BuildTemplateName (t_OrganizationName t) (t_Name t);
  mret {|
    tpl_type := {| Kind := "CoderTemplate"; APIVersion := SchemeGroupVersion |};
    tpl_meta := {|
      Name := name; Namespace := namespace; UID := Uuid.to_string (t_ID t);
      ResourceVersion := format_int (UnixNano (t_UpdatedAt t)); Generation := 0;
      CreationTimestamp := t_CreatedAt t; DeletionTimestamp := None; Labels := ∅;
      Annotations := ∅; OwnerReferences := []; Finalizers := [] |};
    tpl_Spec := {|
      ts_Organization := t_OrganizationName t;
      ts_VersionID := Uuid.to_string (t_ActiveVersionID t);
      ts_DisplayName := t_DisplayName t; ts_Description := t_Description t; ts_Icon := t_Icon t;
      ts_Files := None; ts_Running := false |};
    tpl_Status := {|
      tst_ID := Uuid.to_string (t_ID t); tst_OrganizationName := t_OrganizationName t;
      tst_ActiveVersionID := Uuid.to_string (t_ActiveVersionID t);
      tst_Deprecated := t_Deprecated t; tst_UpdatedAt := Some (t_UpdatedAt t);
      tst_AutoShutdown := None |}
  |}.

Definition TemplateCreateRequestFromK8s (obj : option CoderTemplate) (templateName : string)
    : result CreateTemplateRequest :=
  match obj with
  | None => Err (Errorf "assertion failed: template object must not be nil" [])
  | Some obj =>
      _ ← fail_if (String.eqb templateName "")
            (Errorf "assertion failed: template name must not be empty" []);
      match Uuid.Parse (ts_VersionID (tpl_Spec obj)) with
      | Err err => Err (Errorf "parse template spec.versionID %q: %w"
                          [FStr (ts_VersionID (tpl_Spec obj)); FErrW err])
      | Panic p => Panic p
      | Ret versionID => mret {|
          ctr_Name := templateName; ctr_VersionID := versionID;
          ctr_DisplayName := ts_DisplayName (tpl_Spec obj);
          ctr_Description := ts_Description (tpl_Spec obj); ctr_Icon := ts_Icon (tpl_Spec obj) |}
      end
  end.

Definition TemplateUpdateMetaRequestFromK8s (obj : option CoderTemplate)
    : result UpdateTemplateMeta :=
  match obj with
  | None => Panic (ErrorString "assertion failed: template object must not be nil")
  | Some obj => mret {|
      utm_DisplayName := Some (ts_DisplayName (tpl_Spec obj));
      utm_Description := Some (ts_Description (tpl_Spec obj));
      utm_Icon := Some (ts_Icon (tpl_Spec obj)) |}
  end.

(** ** workspace.go *)

Definition workspaceRunning (workspace : Workspace) : bool :=
  if negb (String.eqb (b_Transition (w_LatestBuild workspace)) WorkspaceTransitionStart) then false
  else
    let status := b_Status (w_LatestBuild workspace) in
    String.eqb status WorkspaceStatusPending || String.eqb status WorkspaceStatusStarting
    || String.eqb status WorkspaceStatusRunning.

Definition WorkspaceToK8s (namespace : string) (w : Workspace) : result CoderWorkspace :=
  _ ← panic_if (String.eqb namespace "")
        (ErrorString "assertion failed: namespace must not be empty");
  let build := w_LatestBuild w in
  let autoShutdown :=
    if b_DeadlineValid build && negb (time_IsZero (b_DeadlineTime build))
    then Some (b_DeadlineTime build) else None in
  name ← BuildWorkspaceName (w_OrganizationName w) (w_OwnerName w) (w_Name w);
  mret {|
    ws_type := {| Kind := "CoderWorkspace"; APIVersion := SchemeGroupVersion |};
    ws_meta := {|
      Name := name; Namespace := namespace; UID := Uuid.to_string (w_ID w);
      ResourceVersion := format_int (UnixNano (w_UpdatedAt w)); Generation := 0;
      CreationTimestamp := w_CreatedAt w; DeletionTimestamp := None; Labels := ∅;
      Annotations := ∅; OwnerReferences := []; Finalizers := [] |};
    ws_Spec := {|
      wss_Organization := w_OrganizationName w; wss_TemplateName := w_TemplateName w;
      wss_TemplateVersionID := Uuid.to_string (b_TemplateVersionID build);
      wss_Running := workspaceRunning w; wss_TTLMillis := w_TTLMillis w;
      wss_AutostartSchedule := w_AutostartSchedule w |};
    ws_Status := {|
      wst_ID := Uuid.to_string (w_ID w); wst_OwnerName := w_OwnerName w;
      wst_OrganizationName := w_OrganizationName w; wst_TemplateName := w_TemplateName w;
      wst_LatestBuildID := Uuid.to_string (b_ID build); wst_LatestBuildStatus := b_Status build;
      wst_AutoShutdown := autoShutdown; wst_LastUsedAt := Some (w_LastUsedAt w) |}
  |}.

Definition WorkspaceCreateRequestFromK8s (obj : option CoderWorkspace) (workspaceName : string)
    (templateID : Uuid.t) : result CreateWorkspaceRequest :=
  match obj with
  | None => Panic (ErrorString "assertion failed: workspace object must not be nil")
  | Some obj =>
      _ ← panic_if (String.eqb workspaceName "")
            (ErrorString "assertion failed: workspace name must not be empty");
      _ ← panic_if (Z.eqb templateID Uuid.Nil)
            (ErrorString "assertion failed: template ID must not be nil");
      let spec := ws_Spec obj in
      let request tid vid := {|
        cwr_Name := workspaceName; cwr_TemplateID := tid; cwr_TemplateVersionID := vid;
        cwr_TTLMillis := wss_TTLMillis spec;
        cwr_AutostartSchedule := wss_AutostartSchedule spec |} in
      if String.eqb (wss_TemplateVersionID spec) "" then mret (request templateID Uuid.Nil)
      else
        match Uuid.Parse (wss_TemplateVersionID spec) with
        | Err err => Err (Errorf "invalid templateVersionID %q: %w"
                            [FStr (wss_TemplateVersionID spec); FErrW err])
        | Panic p => Panic p
        | Ret templateVersionID => mret (request Uuid.Nil templateVersionID)
        end
  end.

(** ** Properties *)

(** When the conversions return, and what the handlers read back from them. *)
Lemma WorkspaceToK8s_Ret ns w obj :
  WorkspaceToK8s ns w = Ret obj →
  ns ≠ "" ∧ Namespace (ws_meta obj) = ns ∧
  BuildWorkspaceName (w_OrganizationName w) (w_OwnerName w) (w_Name w) = Ret (Name (ws_meta obj)) ∧
  ResourceVersion (ws_meta obj) = format_int (UnixNano (w_UpdatedAt w)) ∧
  wss_Running (ws_Spec obj) = workspaceRunning w ∧
  wss_Organization (ws_Spec obj) = w_OrganizationName w.
Proof.
  unfold WorkspaceToK8s. intros H. inv_outcome H. cbn.
  match goal with H : String.eqb _ _ = false |- _ => apply String.eqb_neq in H end. done.
Qed.

Lemma TemplateToK8s_Ret ns t obj :
  TemplateToK8s ns t = Ret obj →
  ns ≠ "" ∧ Namespace (tpl_meta obj) = ns ∧
  BuildTemplateName (t_OrganizationName t) (t_Name t) = Ret (Name (tpl_meta obj)) ∧
  ResourceVersion (tpl_meta obj) = format_int (UnixNano (t_UpdatedAt t)) ∧
  ts_Organization (tpl_Spec obj) = t_OrganizationName t ∧
  tst_ID (tpl_Status obj) = Uuid.to_string (t_ID t) ∧
  tst_ActiveVersionID (tpl_Status obj) = Uuid.to_string (t_ActiveVersionID t).
Proof.
  unfold TemplateToK8s. intros H. inv_outcome H. cbn.
  match goal with H : String.eqb _ _ = false |- _ => apply String.eqb_neq in H end. done.
Qed.

(** The conversions return an error for no input: they convert or they panic. *)
Lemma WorkspaceToK8s_no_err ns w e : WorkspaceToK8s ns w ≠ Err e.
Proof.
  unfold WorkspaceToK8s, BuildWorkspaceName, assertNameSegment.
  intros H. repeat (apply outcome_bind_Err in H as [H|(? & ? & H)];
    try (by apply panic_if_Err in H); try (by discriminate H)).
Qed.

Lemma TemplateToK8s_no_err ns t e : TemplateToK8s ns t ≠ Err e.
Proof.
  unfold TemplateToK8s, BuildTemplateName, assertNameSegment.
  intros H. repeat (apply outcome_bind_Err in H as [H|(? & ? & H)];
    try (by apply panic_if_Err in H); try (by discriminate H)).
Qed.

Lemma WorkspaceToK8s_name_inj ns1 ns2 w1 w2 o1 o2 :
  WorkspaceToK8s ns1 w1 = Ret o1 → WorkspaceToK8s ns2 w2 = Ret o2 →
  Name (ws_meta o1) = Name (ws_meta o2) ↔
  (w_OrganizationName w1, w_OwnerName w1, w_Name w1) =
  (w_OrganizationName w2, w_OwnerName w2, w_Name w2).
Proof.
  intros (_ & _ & H1 & _)%WorkspaceToK8s_Ret (_ & _ & H2 & _)%WorkspaceToK8s_Ret. split.
  - intros Heq. rewrite Heq in H1. apply ParseWorkspaceName_Ret in H1, H2.
    rewrite H1 in H2. by injection H2 as -> -> ->.
  - intros [= Ho Hw Hn]. rewrite Ho, Hw, Hn, H2 in H1. by injection H1.
Qed.

Lemma format_int_inj a b : format_int a = format_int b → a = b.
Proof. apply pretty_Z_inj. Qed.

Definition int64 (z : Z) : Prop := (int64_min ≤ z ≤ int64_max)%Z.

Lemma UnixNano_int64 t : int64 t → UnixNano t = t.
Proof.
  unfold int64, UnixNano, wrap64, int64_min, int64_max. intros. rewrite Z.mod_small; lia.
Qed.

(** A workspace object identifies its backend workspace and its revision.
    Two converted workspaces carry the same name exactly when organization,
    owner and workspace name agree, the same UID exactly when the backend IDs
    agree, and the same resourceVersion (on which optimistic concurrency rests)
    exactly when their update times agree; the name parses back to the three
    backend names; and [spec.running] is true exactly for a start transition
    that is pending, starting or running. *)
Theorem WorkspaceToK8s_identity (ns1 ns2 : string) (w1 w2 : Workspace) (o1 o2 : CoderWorkspace)
    (H1 : WorkspaceToK8s ns1 w1 = Ret o1) (H2 : WorkspaceToK8s ns2 w2 = Ret o2)
    (Hid1 : Uuid.valid (w_ID w1)) (Hid2 : Uuid.valid (w_ID w2))
    (Ht1 : int64 (w_UpdatedAt w1)) (Ht2 : int64 (w_UpdatedAt w2)) :
  (Name (ws_meta o1) = Name (ws_meta o2) ↔
     (w_OrganizationName w1, w_OwnerName w1, w_Name w1) =
     (w_OrganizationName w2, w_OwnerName w2, w_Name w2)) ∧
  (UID (ws_meta o1) = UID (ws_meta o2) ↔ w_ID w1 = w_ID w2) ∧
  (ResourceVersion (ws_meta o1) = ResourceVersion (ws_meta o2) ↔ w_UpdatedAt w1 = w_UpdatedAt w2) ∧
  ParseWorkspaceName (Name (ws_meta o1)) = Ret (w_OrganizationName w1, w_OwnerName w1, w_Name w1) ∧
  (wss_Running (ws_Spec o1) = true ↔
     b_Transition (w_LatestBuild w1) = "start" ∧
     b_Status (w_LatestBuild w1) ∈ ["pending"; "starting"; "running"]).
Proof.
  split; [by eapply WorkspaceToK8s_name_inj|].
  pose proof (WorkspaceToK8s_Ret _ _ _ H1) as (_ & _ & Hn1 & Hr1 & Hrun & _).
  pose proof (WorkspaceToK8s_Ret _ _ _ H2) as (_ & _ & _ & Hr2 & _ & _).
  split_and!.
  - unfold WorkspaceToK8s in H1, H2. inv_outcome H1. inv_outcome H2. cbn. split; [|by intros ->].
    by apply Uuid.to_string_inj.
  - rewrite Hr1, Hr2, !UnixNano_int64 by done. split; [apply format_int_inj|by intros ->].
  - by apply ParseWorkspaceName_Ret.
  - rewrite Hrun. unfold workspaceRunning, WorkspaceTransitionStart.
    destruct (String.eqb_spec (b_Transition (w_LatestBuild w1)) "start") as [->|]; cbn.
    + rewrite !orb_true_iff, !String.eqb_eq, !elem_of_cons, elem_of_nil.
      unfold WorkspaceStatusPending, WorkspaceStatusStarting, WorkspaceStatusRunning. tauto.
    + split; [discriminate|by intros [? _]].
Qed.

Definition example_build (transition status : string) : WorkspaceBuild := {|
  b_ID := 11; b_UpdatedAt := 5; b_TemplateVersionID := 12; b_Transition := transition;
  b_Status := status; b_DeadlineTime := 0; b_DeadlineValid := false |}%Z.

Definition example_workspace (name : string) (updated : time) : Workspace := {|
  w_ID := 42; w_CreatedAt := 1; w_UpdatedAt := updated; w_OrganizationName := "acme";
  w_OwnerName := "ann"; w_Name := name; w_TemplateName := "go";
  w_LatestBuild := example_build "start" "running"; w_AutostartSchedule := None;
  w_TTLMillis := None; w_LastUsedAt := 7 |}%Z.

Lemma WorkspaceToK8s_identity_witness :
  ∃ o1 o2,
    WorkspaceToK8s "ns" (example_workspace "dev" 10%Z) = Ret o1 ∧
    WorkspaceToK8s "ns" (example_workspace "dev" 11%Z) = Ret o2 ∧
    ResourceVersion (ws_meta o1) ≠ ResourceVersion (ws_meta o2) ∧
    ParseWorkspaceName "acme.ann.dev" = Ret ("acme", "ann", "dev").
Proof.
  do 2 eexists. split; [reflexivity|]. split; [reflexivity|].
  edestruct (WorkspaceToK8s_identity "ns" "ns" (example_workspace "dev" 10%Z)
      (example_workspace "dev" 11%Z) _ _ eq_refl eq_refl) as (_ & _ & Hrv & Hp & _);
    [vm_compute; split; first [reflexivity|discriminate]..|].
  split; [|exact Hp]. intros H%Hrv. discriminate H.
Defined.

End Convert.
