(* ===== verification/Watch.v ===== *)
(** * Watch: internal/aggregated/storage/watch.go and the watch-event queues

    Selectors and filters of a watch, the watcher that stops exactly once, and
    the bounded queue between the mutation handlers and the dispatcher
    ([enqueueWatchEvent], [dispatchWatchEvents], [Destroy] of workspace.go and
    template.go, which are the same code).  The queue is modelled twice: as the
    handlers see it (one call of [enqueueWatchEvent]) and as a transition system
    of concurrent producers, the dispatcher goroutine and [Destroy]. *)

From S2P Require Import Prelude GoStd GoErrors ApiTypes AggTypes Sdk.
From Stdlib Require Import Lia.

#[local] Open Scope string_scope.
#[local] Open Scope list_scope.

Module Watch.
Import Sdk.

Definition watchBroadcasterQueueLen : nat := 100.

(** ** Selectors

    [fields.Selector] and [labels.Selector] are interfaces of apimachinery. *)

Record field_selector := {
  fs_Empty : bool; fs_Requirements : list string; fs_Matches : gmap string string → bool
}.
Record label_selector := { ls_Empty : bool; ls_Matches : gmap string string → bool }.

Record ListOptions := {
  LabelSelector : option label_selector;
  FieldSelector : option field_selector;
  SendInitialEvents : option bool;
  ResourceVersionMatch : string;
  TimeoutSeconds : option Z
}.

Definition supportedWatchFieldSelectors : gmap string bool :=
  {["metadata.name" := true; "metadata.namespace" := true]}.

Definition validateFieldSelector (sel : option field_selector) : result () :=
  match sel with
  | None => mret tt
  | Some sel =>
      if fs_Empty sel then mret tt
      else mfold (λ _ field,
        fail_if (negb (default false (supportedWatchFieldSelectors !! field)))
          (Errorf "field selector %q is not supported; supported fields: metadata.name, metadata.namespace"
             [FStr field])) tt (fs_Requirements sel)
  end.

Definition validateUnsupportedWatchListOptions (opts : option ListOptions) : result () :=
  match opts with
  | None => mret tt
  | Some opts =>
      _ ← fail_if (default false (SendInitialEvents opts))
            (Errorf "sendInitialEvents=true is not supported for this watch endpoint" []);
      fail_if (negb (String.eqb (ResourceVersionMatch opts) ""))
        (Errorf "resourceVersionMatch %q is not supported for this watch endpoint"
           [FStr (ResourceVersionMatch opts)])
  end.

(** The metadata of an object that implements [metav1.ObjectMetaAccessor]. *)
Definition object_meta (obj : object) : option (result ObjectMeta) :=
  let nil_deref := Panic (ErrorString "invalid memory address or nil pointer dereference") in
  match obj with
  | OWorkspace p => Some (match p with Some w => Ret (ws_meta w) | None => nil_deref end)
  | OTemplate p => Some (match p with Some t => Ret (tpl_meta t) | None => nil_deref end)
  | _ => None
  end.

(** [watch.FilterFunc] of the source returns its event unchanged: only the
    verdict is kept. *)
Definition filter_func : Type := event → result bool.

(** The closure [filterForListOptions] returns. *)
Definition eventFilter (requestNamespace : string) (labelSel : option label_selector)
    (fieldSel : option field_selector) : filter_func := λ ev,
  match object_meta (ev_Object ev) with
  | None => mret true
  | Some get_meta =>
      meta ← get_meta;
      if negb (String.eqb requestNamespace "") && negb (String.eqb (Namespace meta) requestNamespace)
      then mret false
      else if match labelSel with Some sel => negb (ls_Matches sel (Labels meta)) | None => false end
      then mret false
      else
        match fieldSel with
        | Some sel =>
            let fieldSet := {["metadata.name" := Name meta; "metadata.namespace" := Namespace meta]} in
            if negb (fs_Matches sel fieldSet) then mret false else mret true
        | None => mret true
        end
  end.

Definition filterForListOptions (requestNamespace : string) (opts : option ListOptions)
    : result (option filter_func) :=
  '(labelSel, fieldSel) ←
    match opts with
    | None => mret (None, None)
    | Some opts =>
        let labelSel :=
          match LabelSelector opts with
          | Some sel => if ls_Empty sel then None else Some sel
          | None => None
          end in
        match FieldSelector opts with
        | Some sel =>
            if fs_Empty sel then mret (labelSel, None)
            else _ ← validateFieldSelector (Some sel); mret (labelSel, Some sel)
        | None => mret (labelSel, None)
        end
    end;
  if String.eqb requestNamespace "" && is_nil labelSel && is_nil fieldSel then mret None
  else mret (Some (eventFilter requestNamespace labelSel fieldSel)).

(** The duration of the timer a watch arms for [opts.TimeoutSeconds], if any:
    an [int64] multiplication. *)
Definition watchTimeout (opts : option ListOptions) : option Z :=
  match opts with
  | Some opts =>
      match TimeoutSeconds opts with
      | Some n => if (0 <? n)%Z then Some (wrap64 (n * 1000000000)%Z) else None
      | None => None
      end
  | None => None
  end.

(** ** The event queue: channel operations *)

Definition send_on_closed : goerror := ErrorString "send on closed channel".

(** [select { case c <- e: ...; default: ... }]: whether the event was sent. *)
Definition try_send (c : channel) (e : event) : result (bool * channel) :=
  if ch_closed c then Panic send_on_closed
  else if (length (ch_buf c) <? watchBroadcasterQueueLen)%nat
  then Ret (true, Chan (ch_buf c ++ [e]) false)
  else Ret (false, c).

(** [select { case x := <-c: ...; default: ... }] *)
Definition try_recv (c : channel) : option event * channel :=
  match ch_buf c with
  | [] => (None, c)
  | x :: buf => (Some x, Chan buf (ch_closed c))
  end.

(** [enqueueWatchEvent], run without interference. *)
Definition enqueueWatchEvent (watchEvents : option channel) (action : event_type)
    (obj : option object) : result channel :=
  match watchEvents with
  | None => Panic (ErrorString "assertion failed: watch event queue must not be nil")
  | Some c =>
      match obj with
      | None => Panic (ErrorString "assertion failed: watch event object must not be nil")
      | Some obj =>
          let ev := Event action obj in
          '(sent, c) ← try_send c ev;
          if sent : bool then mret c
          else
            let '(_, c) := try_recv c in
            '(_, c) ← try_send c ev;
            mret c
      end
  end.

(** [s.enqueueWatchEvent(action, obj)] in a handler. *)
Definition enqueue {W} (action : event_type) (obj : object) : handler (W:=W) () := λ s,
  match enqueueWatchEvent (Some (st_queue s)) action (Some obj) with
  | Ret c => (Ret tt, St (st_world s) (st_trace s) c)
  | Err e => (Err e, s)
  | Panic p => (Panic p, s)
  end.

(** ** The event queue: the transition system *)

(** Where a call of [enqueueWatchEvent] is: before its first select, before the
    select that drops the oldest event, before the last select, or over. *)
Inductive prod_pc :=
  | Send1 (e : event) | DropOldest (e : event) | Send2 (e : event) | Returned | Panicked.

Inductive destroy_pc := NotDestroyed | Closed | ShutDown.

(** The state of the queue: the channel, the calls of [enqueueWatchEvent] by the
    order they were made in, the dispatcher goroutine and [Destroy]. *)
Record qsys := QSys {
  q_chan : channel;
  q_prods : gmap nat prod_pc;
  q_dispatcherDone : bool;
  q_destroy : destroy_pc
}.

Definition q_init : qsys := QSys (Chan [] false) ∅ false NotDestroyed.

Definition set_pc (i : nat) (pc : prod_pc) (s : qsys) : qsys :=
  QSys (q_chan s) (<[i := pc]> (q_prods s)) (q_dispatcherDone s) (q_destroy s).
Definition set_chan (c : channel) (s : qsys) : qsys :=
  QSys c (q_prods s) (q_dispatcherDone s) (q_destroy s).

(** One select of a producer. *)
Definition prod_step (pc : prod_pc) (s : qsys) : option (prod_pc * qsys) :=
  match pc with
  | Send1 e =>
      match try_send (q_chan s) e with
      | Ret (true, c) => Some (Returned, set_chan c s)
      | Ret (false, _) => Some (DropOldest e, s)
      | _ => Some (Panicked, s)
      end
  | DropOldest e =>
      let '(_, c) := try_recv (q_chan s) in Some (Send2 e, set_chan c s)
  | Send2 e =>
      match try_send (q_chan s) e with
      | Ret (_, c) => Some (Returned, set_chan c s)
      | _ => Some (Panicked, s)
      end
  | Returned | Panicked => None
  end.

Inductive label :=
  | LCall (i : nat) (e : event)    (* a handler calls enqueueWatchEvent *)
  | LProd (i : nat)                (* a producer's next select *)
  | LDispatch                      (* the dispatcher receives and broadcasts *)
  | LExit                          (* the range loop sees the closed, drained channel *)
  | LClose                         (* Destroy: close(watchEvents) *)
  | LShutdown.                     (* Destroy: after Wait, broadcaster.Shutdown() *)

Definition qstep (l : label) (s : qsys) : option qsys :=
  match l with
  | LCall i e =>
      match q_prods s !! i with None => Some (set_pc i (Send1 e) s) | Some _ => None end
  | LProd i =>
      pc ← q_prods s !! i;
      '(pc', s') ← prod_step pc s;
      Some (set_pc i pc' s')
  | LDispatch =>
      if q_dispatcherDone s then None
      else match try_recv (q_chan s) with
           | (Some _, c) => Some (set_chan c s)
           | (None, _) => None
           end
  | LExit =>
      if negb (q_dispatcherDone s) && ch_closed (q_chan s) && (length (ch_buf (q_chan s)) =? 0)%nat
      then Some (QSys (q_chan s) (q_prods s) true (q_destroy s))
      else None
  | LClose =>
      match q_destroy s with
      | NotDestroyed =>
          Some (QSys (Chan (ch_buf (q_chan s)) true) (q_prods s) (q_dispatcherDone s) Closed)
      | _ => None
      end
  | LShutdown =>
      match q_destroy s with
      | Closed =>
          if q_dispatcherDone s
          then Some (QSys (q_chan s) (q_prods s) true ShutDown)
          else None
      | _ => None
      end
  end.

(** A run of the system. *)
Fixpoint qrun (ls : list label) (s : qsys) : option qsys :=
  match ls with
  | [] => Some s
  | l :: ls => s' ← qstep l s; qrun ls s'
  end.

(** *** What a run shows

    Each step with the events that wait in the queue before and after it. *)
Record observation := Obs { ob_label : label; ob_before : list event; ob_after : list event }.

Fixpoint observe (ls : list label) (s : qsys) : list observation :=
  match ls with
  | [] => []
  | l :: ls =>
      match qstep l s with
      | Some s' => Obs l (ch_buf (q_chan s)) (ch_buf (q_chan s')) :: observe ls s'
      | None => []
      end
  end.

Definition is_prod (i : nat) (l : label) : bool :=
  match l with LProd j => (i =? j)%nat | _ => false end.

(** What the selects of call [i] did to the queue. *)
Definition selects (i : nat) (h : list observation) : list (list event * list event) :=
  (λ o, (ob_before o, ob_after o)) <$> List.filter (λ o, is_prod i (ob_label o)) h.

(** The events the handlers offered. *)
Definition offered (ls : list label) : list event :=
  concat ((λ l, match l with LCall _ e => [e] | _ => [] end) <$> ls).

(** The events the dispatcher took, those a producer took, and those that were
    put behind the ones already waiting. *)
Definition delivered (h : list observation) : list event :=
  concat ((λ o, match ob_label o with LDispatch => take 1 (ob_before o) | _ => [] end) <$> h).
Definition dropped (h : list observation) : list event :=
  concat ((λ o, match ob_label o with
                | LProd _ => take (length (ob_before o) - length (ob_after o)) (ob_before o)
                | _ => [] end) <$> h).
Definition accepted (h : list observation) : list event :=
  concat ((λ o, drop (length (ob_before o)) (ob_after o)) <$> h).

(** ** The stop-aware watcher *)

(** The state of one watch: whether its request context is done, its timer (none
    armed, armed, or fired), [w.stopped], how often the underlying watcher was
    stopped, and whether the goroutine of [Watch] has returned. *)
Record watcher := Watcher {
  wt_ctxDone : bool; wt_timer : option bool; wt_stopped : bool; wt_innerStops : nat;
  wt_goroutineDone : bool
}.

(** [Stop]: [once.Do] closes [stopped] and stops the underlying watcher. *)
Definition Stop (w : watcher) : watcher :=
  if wt_stopped w then w
  else Watcher (wt_ctxDone w) (wt_timer w) true (S (wt_innerStops w)) (wt_goroutineDone w).

Definition goroutine_returns (w : watcher) : watcher :=
  Watcher (wt_ctxDone w) (wt_timer w) (wt_stopped w) (wt_innerStops w) true.

Inductive wlabel := WStop | WCtxDone | WTimer | WGoroutine (pick_done : bool).

(** The goroutine's select takes any ready case; [pick_done] is its choice when
    both a cancellation and [Done()] are ready. *)
Definition wstep (l : wlabel) (w : watcher) : option watcher :=
  match l with
  | WStop => Some (Stop w)
  | WCtxDone => Some (Watcher true (wt_timer w) (wt_stopped w) (wt_innerStops w) (wt_goroutineDone w))
  | WTimer =>
      match wt_timer w with
      | Some false =>
          Some (Watcher (wt_ctxDone w) (Some true) (wt_stopped w) (wt_innerStops w) (wt_goroutineDone w))
      | _ => None
      end
  | WGoroutine pick_done =>
      if wt_goroutineDone w then None
      else
        let cancelled := wt_ctxDone w || bool_decide (wt_timer w = Some true) in
        if wt_stopped w && (pick_done || negb cancelled) then Some (goroutine_returns w)
        else if cancelled then Some (goroutine_returns (Stop w))
        else None
  end.

Fixpoint wrun (ls : list wlabel) (w : watcher) : option watcher :=
  match ls with
  | [] => Some w
  | l :: ls => w' ← wstep l w; wrun ls w'
  end.

Definition newStopAwareWatch (timer : bool) : watcher :=
  Watcher false (if timer then Some false else None) false 0 false.

(** ** Properties of the queue *)

Lemma try_send_Ret c e b c' :
  try_send c e = Ret (b, c') →
  ch_closed c = false ∧
  (b = true ∧ (length (ch_buf c) < watchBroadcasterQueueLen)%nat ∧ c' = Chan (ch_buf c ++ [e]) false ∨
   b = false ∧ (watchBroadcasterQueueLen ≤ length (ch_buf c))%nat ∧ c' = c).
Proof.
  unfold try_send. destruct (ch_closed c); [discriminate|].
  destruct (Nat.ltb_spec (length (ch_buf c)) watchBroadcasterQueueLen); intros [= <- <-]; auto.
Qed.

Lemma try_send_ok c e :
  ch_closed c = false → (length (ch_buf c) < watchBroadcasterQueueLen)%nat →
  try_send c e = Ret (true, Chan (ch_buf c ++ [e]) false).
Proof. intros Hc Hl. unfold try_send. apply Nat.ltb_lt in Hl. by rewrite Hc, Hl. Qed.

Lemma try_send_full c e :
  ch_closed c = false → (watchBroadcasterQueueLen ≤ length (ch_buf c))%nat →
  try_send c e = Ret (false, c).
Proof. intros Hc Hl. unfold try_send. apply Nat.ltb_ge in Hl. by rewrite Hc, Hl. Qed.

Lemma try_send_closed c e : ch_closed c = true → try_send c e = Panic send_on_closed.
Proof. unfold try_send. by intros ->. Qed.

Lemma try_send_no_err c e err : try_send c e ≠ Err err.
Proof. unfold try_send. by repeat case_match. Qed.

Lemma try_send_Panic c e p : try_send c e = Panic p → ch_closed c = true.
Proof. unfold try_send. by repeat case_match. Qed.

(** What one undisturbed call does to an open queue. *)
Lemma enqueue_open c a obj :
  ch_closed c = false → (length (ch_buf c) ≤ watchBroadcasterQueueLen)%nat →
  ∃ evicted buf,
    enqueueWatchEvent (Some c) a (Some obj) = Ret (Chan (buf ++ [Event a obj]) false) ∧
    ch_buf c = option_list evicted ++ buf ∧
    (length (buf ++ [Event a obj]) ≤ watchBroadcasterQueueLen)%nat ∧
    (evicted = None ↔ length (ch_buf c) < watchBroadcasterQueueLen)%nat.
Proof.
  intros Hc Hlen. unfold enqueueWatchEvent.
  destruct (Nat.lt_ge_cases (length (ch_buf c)) watchBroadcasterQueueLen) as [Hlt|Hge].
  - exists None, (ch_buf c). rewrite try_send_ok by done. rewrite length_app. cbn.
    split_and!; [done|done|lia|done].
  - rewrite try_send_full by done. cbn.
    unfold try_recv. destruct (ch_buf c) as [|x buf] eqn:Hb.
    { unfold watchBroadcasterQueueLen in Hge; cbn in Hge; lia. }
    cbn [length] in *. exists (Some x), buf. rewrite try_send_ok by (done || cbn; lia).
    rewrite length_app. cbn [length]. split_and!; [done|done|lia|split; [done|lia]].
Qed.

Lemma enqueue_closed c a obj :
  ch_closed c = true → enqueueWatchEvent (Some c) a (Some obj) = Panic send_on_closed.
Proof. intros Hc. unfold enqueueWatchEvent. by rewrite try_send_closed. Qed.

Lemma set_pc_lookup s i pc : q_prods (set_pc i pc s) !! i = Some pc.
Proof. apply lookup_insert_eq. Qed.

(** *** The invariant of the concurrent queue *)

Record queue_inv (s : qsys) : Prop := {
  qi_bound : (length (ch_buf (q_chan s)) ≤ watchBroadcasterQueueLen)%nat;
  qi_closed : ch_closed (q_chan s) = true ↔ q_destroy s ≠ NotDestroyed;
  qi_drained : q_dispatcherDone s = true → ch_closed (q_chan s) = true ∧ ch_buf (q_chan s) = [];
  qi_shutdown : q_destroy s = ShutDown → q_dispatcherDone s = true;
  qi_panic : ∀ i, q_prods s !! i = Some Panicked → ch_closed (q_chan s) = true
}.

Lemma queue_inv_init : queue_inv q_init.
Proof. constructor; cbn; try done; unfold watchBroadcasterQueueLen; lia. Qed.

Lemma queue_inv_set_pc s i pc :
  queue_inv s → (pc = Panicked → ch_closed (q_chan s) = true) → queue_inv (set_pc i pc s).
Proof.
  intros [] Hp. constructor; cbn; try done. intros j.
  destruct (decide (i = j)) as [<-|]; [rewrite lookup_insert_eq|rewrite lookup_insert_ne by done].
  - intros [= ->]. by apply Hp.
  - apply qi_panic0.
Qed.

Lemma queue_inv_send s e b c :
  queue_inv s → try_send (q_chan s) e = Ret (b, c) → queue_inv (set_chan c s).
Proof.
  intros [] (Ho & [(_ & Hlt & ->)|(_ & _ & ->)])%try_send_Ret; [|by constructor].
  constructor; cbn; try done.
  - rewrite length_app. cbn. lia.
  - by rewrite <-qi_closed0, Ho.
  - intros [? _]%qi_drained0. congruence.
  - intros i Hi%qi_panic0. congruence.
Qed.

Lemma queue_inv_recv s x c : queue_inv s → try_recv (q_chan s) = (x, c) → queue_inv (set_chan c s).
Proof.
  intros [] Hr. unfold try_recv in Hr. destruct (ch_buf (q_chan s)) as [|y buf] eqn:Hb; injection Hr as <- <-;
    [by constructor; cbn; rewrite ?Hb|].
  constructor; cbn in *; try done; try lia. by intros [_ ?]%qi_drained0.
Qed.

Lemma queue_inv_prod s pc pc' s' :
  queue_inv s → prod_step pc s = Some (pc', s') →
  queue_inv s' ∧ (pc' = Panicked → ch_closed (q_chan s') = true).
Proof.
  intros Hinv. destruct pc as [e|e|e| |]; cbn; try done.
  - destruct (try_send (q_chan s) e) as [[[] c]|err|p] eqn:Hs; intros [= <- <-]; try done.
    + split; [by eapply queue_inv_send|done].
    + by apply try_send_no_err in Hs.
    + by apply try_send_Panic in Hs.
  - destruct (try_recv (q_chan s)) as [x c] eqn:Hr. intros [= <- <-].
    split; [by eapply queue_inv_recv|done].
  - destruct (try_send (q_chan s) e) as [[b c]|err|p] eqn:Hs; intros [= <- <-].
    + split; [by eapply queue_inv_send|done].
    + by apply try_send_no_err in Hs.
    + by apply try_send_Panic in Hs.
Qed.

Lemma queue_inv_step l s s' : queue_inv s → qstep l s = Some s' → queue_inv s'.
Proof.
  intros Hinv. destruct l as [i e|i| | | |]; cbn.
  - destruct (q_prods s !! i); [done|]. intros [= <-]. by apply queue_inv_set_pc.
  - destruct (q_prods s !! i) as [pc|]; [|done]. cbn.
    destruct (prod_step pc s) as [[pc' s1]|] eqn:Hp; [|done]. cbn. intros [= <-].
    apply queue_inv_prod in Hp as [??]; [|done]. by apply queue_inv_set_pc.
  - destruct (q_dispatcherDone s) eqn:Hd; [done|].
    destruct (try_recv (q_chan s)) as [[x|] c] eqn:Hr; [|done]. intros [= <-].
    by eapply queue_inv_recv.
  - destruct (negb _ && _ && _) eqn:Hb; [|done]. intros [= <-]. bool_simpl.
    destruct Hinv. constructor; cbn; try done. intros _. split; [done|].
    apply nil_length_inv. by apply Nat.eqb_eq.
  - destruct (q_destroy s) eqn:Hd; try done. intros [= <-].
    destruct Hinv. constructor; cbn; try done.
    intros [? _]%qi_drained0. rewrite Hd in qi_closed0. naive_solver.
  - destruct (q_destroy s) eqn:Hd; try done. destruct (q_dispatcherDone s) eqn:Hdd; [|done].
    intros [= <-]. destruct Hinv. constructor; cbn; try done; rewrite Hd in qi_closed0; naive_solver.
Qed.

Lemma queue_inv_run ls s s' : queue_inv s → qrun ls s = Some s' → queue_inv s'.
Proof.
  revert s. induction ls as [|l ls IH]; intros s Hinv; cbn; [by intros [= <-]|].
  destruct (qstep l s) as [s1|] eqn:Hl; [|done]. cbn. apply IH. by eapply queue_inv_step.
Qed.

(** *** One call *)

(** One select of a call of [e], with the waiting events before and after it. *)
Inductive select_step (e : event) : prod_pc → list event → list event → prod_pc → Prop :=
  | sel_send b : (length b < 100)%nat → select_step e (Send1 e) b (b ++ [e]) Returned
  | sel_full b : length b = 100%nat → select_step e (Send1 e) b b (DropOldest e)
  | sel_drop b : select_step e (DropOldest e) b (tail b) (Send2 e)
  | sel_resend b : (length b < 100)%nat → select_step e (Send2 e) b (b ++ [e]) Returned
  | sel_give_up b : length b = 100%nat → select_step e (Send2 e) b b Returned
  | sel_panic pc b : pc = Send1 e ∨ pc = Send2 e → select_step e pc b b Panicked.

Inductive call_path (e : event) : prod_pc → list (list event * list event) → prod_pc → Prop :=
  | path_end pc : call_path e pc [] pc
  | path_step pc b b' pc1 sel pc' : select_step e pc b b' pc1 → call_path e pc1 sel pc' →
      call_path e pc ((b, b') :: sel) pc'.

Definition about (e : event) (pc : prod_pc) : Prop :=
  match pc with Send1 e' | DropOldest e' | Send2 e' => e' = e | _ => True end.

Lemma prod_select e pc s pc' s' :
  (length (ch_buf (q_chan s)) ≤ watchBroadcasterQueueLen)%nat → about e pc → prod_step pc s = Some (pc', s') →
  select_step e pc (ch_buf (q_chan s)) (ch_buf (q_chan s')) pc' ∧ about e pc'.
Proof.
  intros Hb. unfold watchBroadcasterQueueLen in Hb. destruct pc as [x|x|x| |]; cbn; intros He; try done; subst x.
  - destruct (try_send (q_chan s) e) as [[sent c]|err|p] eqn:Hs.
    + pose proof (try_send_Ret _ _ _ _ Hs) as (_ & [(-> & Hlt & ->)|(-> & Hge & ->)]); intros [= <- <-];
        unfold watchBroadcasterQueueLen in *; cbn [q_chan set_chan ch_buf]; split; try done; constructor; lia.
    + by apply try_send_no_err in Hs.
    + intros [= <- <-]. split; [constructor; by left|done].
  - unfold try_recv. destruct (ch_buf (q_chan s)) as [|y buf] eqn:Hq; intros [= <- <-]; cbn; rewrite ?Hq;
      (split; [apply sel_drop|done]).
  - destruct (try_send (q_chan s) e) as [[sent c]|err|p] eqn:Hs.
    + pose proof (try_send_Ret _ _ _ _ Hs) as (_ & [(-> & Hlt & ->)|(-> & Hge & ->)]); intros [= <- <-];
        unfold watchBroadcasterQueueLen in *; cbn [q_chan set_chan ch_buf]; split; try done; constructor; lia.
    + by apply try_send_no_err in Hs.
    + intros [= <- <-]. split; [constructor; by right|done].
Qed.

(** What a step does to the calls other than its own. *)
Lemma qstep_others l s s' i pc :
  qstep l s = Some s' → q_prods s !! i = Some pc → is_prod i l = false → q_prods s' !! i = Some pc.
Proof.
  intros Hl Hpc Hi. destruct l as [j e|j| | | |]; cbn in *; repeat case_match; simplify_eq; try done; cbn.
  - rewrite lookup_insert_ne; congruence.
  - destruct (q_prods s !! j) as [pcj|]; [|done]. cbn in Hl. destruct (prod_step pcj s) as [[pc' s1]|] eqn:Hp; [|done].
    injection Hl as <-. cbn. apply Nat.eqb_neq in Hi. rewrite lookup_insert_ne by done.
    destruct pcj; cbn in Hp; repeat case_match; by simplify_eq.
Qed.

Lemma observe_cons l ls s s1 :
  qstep l s = Some s1 →
  observe (l :: ls) s = Obs l (ch_buf (q_chan s)) (ch_buf (q_chan s1)) :: observe ls s1 ∧
  qrun (l :: ls) s = qrun ls s1.
Proof. intros Hl. cbn. by rewrite Hl. Qed.

Lemma qrun_cons l ls s s' : qrun (l :: ls) s = Some s' → ∃ s1, qstep l s = Some s1 ∧ qrun ls s1 = Some s'.
Proof. cbn. destruct (qstep l s) as [s1|]; [by exists s1|done]. Qed.

Lemma call_path_run e ls s s' i pc :
  queue_inv s → q_prods s !! i = Some pc → about e pc → qrun ls s = Some s' →
  (∃ pc', q_prods s' !! i = Some pc' ∧ call_path e pc (selects i (observe ls s)) pc') ∧ ∀ e', LCall i e' ∉ ls.
Proof.
  revert s pc. induction ls as [|l ls IH]; intros s pc Hinv Hpc He Hrun.
  { injection Hrun as <-. split; [exists pc; split; [done|constructor]|]. intros e' H. by apply elem_of_nil in H. }
  apply qrun_cons in Hrun as (s1 & Hl & Hrun). destruct (observe_cons l ls s s1 Hl) as [-> _].
  pose proof (queue_inv_step _ _ _ Hinv Hl) as Hinv1.
  destruct (is_prod i l) eqn:Hi.
  - destruct l as [j x|j| | | |]; cbn in Hi; try done. apply Nat.eqb_eq in Hi as <-.
    cbn in Hl. rewrite Hpc in Hl. cbn in Hl. destruct (prod_step pc s) as [[pc1 s0]|] eqn:Hp; [|done].
    injection Hl as <-. destruct (prod_select e pc s pc1 s0 (qi_bound _ Hinv) He Hp) as [Hsel He1].
    destruct (IH _ pc1 Hinv1 (set_pc_lookup _ _ _) He1 Hrun) as [(pc' & Hpc' & Hpath) Hno].
    split; [exists pc'; split; [done|]|intros e'; apply not_elem_of_cons; split; [done|apply Hno]].
    unfold selects. cbn. rewrite Nat.eqb_refl. cbn. by econstructor.
  - pose proof (qstep_others _ _ _ _ _ Hl Hpc Hi) as Hpc1.
    destruct (IH s1 pc Hinv1 Hpc1 He Hrun) as [(pc' & Hpc' & Hpath) Hno].
    split; [exists pc'; split; [done|]|].
    + unfold selects. cbn. by rewrite Hi.
    + intros e'. apply not_elem_of_cons. split; [|apply Hno]. intros <-. cbn in Hl. by rewrite Hpc in Hl.
Qed.

Lemma qstep_fresh l s s' i :
  qstep l s = Some s' → q_prods s !! i = None → (∀ e, l ≠ LCall i e) →
  q_prods s' !! i = None ∧ is_prod i l = false.
Proof.
  intros Hl Hpc Hne. destruct l as [j e|j| | | |]; cbn in *; repeat case_match; simplify_eq; try done; cbn.
  - split; [|done]. rewrite lookup_insert_ne; [done|]. intros ->. by apply (Hne e).
  - destruct (q_prods s !! j) as [pcj|] eqn:Hj; [|done]. cbn in Hl.
    destruct (prod_step pcj s) as [[pc' s1]|] eqn:Hp; [|done].
    injection Hl as <-. assert (i ≠ j) as Hij by congruence. cbn. split; [|by apply Nat.eqb_neq].
    rewrite lookup_insert_ne by done. destruct pcj; cbn in Hp; repeat case_match; by simplify_eq.
Qed.

Lemma call_run e ls s s' i :
  queue_inv s → q_prods s !! i = None → LCall i e ∈ ls → qrun ls s = Some s' →
  ∃ pc', q_prods s' !! i = Some pc' ∧ call_path e (Send1 e) (selects i (observe ls s)) pc'.
Proof.
  revert s. induction ls as [|l ls IH]; intros s Hinv Hpc Hin Hrun; [by apply elem_of_nil in Hin|].
  apply qrun_cons in Hrun as (s1 & Hl & Hrun). destruct (observe_cons l ls s s1 Hl) as [-> _].
  pose proof (queue_inv_step _ _ _ Hinv Hl) as Hinv1.
  assert ((∃ e', l = LCall i e') ∨ ∀ e', l ≠ LCall i e') as [[e' ->]|Hne].
  { destruct l as [j e'|j| | | |]; try (right; done). destruct (decide (j = i)) as [->|]; [left; by exists e'|right; congruence]. }
  - cbn in Hl. rewrite Hpc in Hl. injection Hl as <-.
    destruct (call_path_run e' ls _ _ i (Send1 e') Hinv1 (set_pc_lookup _ _ _) eq_refl Hrun) as [Hp Hno].
    apply elem_of_cons in Hin as [[= <-]|Hin]; [exact Hp|by apply Hno in Hin].
  - destruct (qstep_fresh _ _ _ _ Hl Hpc Hne) as [Hpc1 Hi].
    apply elem_of_cons in Hin as [<-|Hin]; [by destruct (Hne e)|].
    destruct (IH s1 Hinv1 Hpc1 Hin Hrun) as (pc' & Hpc' & Hpath). exists pc'. split; [done|].
    unfold selects. cbn. by rewrite Hi.
Qed.

(** What a call of [e] that returned did to the queue: with room, [e] was put
    behind the events waiting; on a full queue, the oldest event, if any, was
    dropped first; and [e] was given up only if the queue was full again. *)
Inductive call_outcome (e : event) : list (list event * list event) → Prop :=
  | kept b : (length b < 100)%nat → call_outcome e [(b, b ++ [e])]
  | kept_by_dropping b d b' : length b = 100%nat → (length b' < 100)%nat →
      call_outcome e [(b, b); (d, tail d); (b', b' ++ [e])]
  | given_up b d b' : length b = 100%nat → length b' = 100%nat →
      call_outcome e [(b, b); (d, tail d); (b', b')].

Lemma path_over e pc sel pc' :
  call_path e pc sel pc' → pc = Returned ∨ pc = Panicked → pc' = pc ∧ sel = [].
Proof. destruct 1 as [|pc b b' pc1 sel pc' Hs]; [done|]. inversion Hs; naive_solver. Qed.

Lemma path_returned e sel : call_path e (Send1 e) sel Returned → call_outcome e sel.
Proof.
  intros H. inversion H as [|? ? ? ? ? ? Hs1 Hp1]; subst. inversion Hs1; subst.
  - apply path_over in Hp1 as [_ ->]; [|by left]. by constructor.
  - inversion Hp1 as [|? ? ? ? ? ? Hs2 Hp2]; subst. inversion Hs2; subst; [|naive_solver].
    inversion Hp2 as [|? ? ? ? ? ? Hs3 Hp3]; subst.
    apply path_over in Hp3 as Hend; [|inversion Hs3; subst; auto]. destruct Hend as [<- ->]. inversion Hs3; subst.
    + by apply kept_by_dropping.
    + by apply given_up.
  - apply path_over in Hp1 as [? _]; [done|by right].
Qed.

(** A call that has not returned has put nothing into the queue. *)
Lemma path_not_returned e pc sel pc' :
  call_path e pc sel pc' → pc' ≠ Returned → Forall (λ p, p.2 `suffix_of` p.1) sel.
Proof.
  induction 1 as [|pc b b' pc1 sel pc' Hs Hp IH]; intros Hne; [constructor|]. constructor; [|by apply IH].
  inversion Hs; subst; cbn; try done.
  1, 3: by apply path_over in Hp as [-> _]; [|left].
  destruct b; cbn; [done|]. by apply suffix_cons_r.
Qed.

(** *** The history *)

Lemma history_cons l b b' h :
  accepted (Obs l b b' :: h) = drop (length b) b' ++ accepted h ∧
  delivered (Obs l b b' :: h) = match l with LDispatch => take 1 b | _ => [] end ++ delivered h ∧
  dropped (Obs l b b' :: h) =
    match l with LProd _ => take (length b - length b') b | _ => [] end ++ dropped h.
Proof. done. Qed.

(** One step: an event is appended, or the oldest is taken. *)
Lemma qstep_events l s s' :
  qstep l s = Some s' →
  let b := ch_buf (q_chan s) in let b' := ch_buf (q_chan s') in
  b ++ drop (length b) b' =
    match l with LDispatch => take 1 b | _ => [] end ++
    match l with LProd _ => take (length b - length b') b | _ => [] end ++ b'.
Proof.
  intros Hl. cbv zeta.
  assert (∀ b : list event, b ++ drop (length b) b = b) as Hsame by (intros b; by rewrite drop_all, app_nil_r).
  destruct l as [i e|i| | | |]; cbn in Hl.
  - destruct (q_prods s !! i); [done|]. injection Hl as <-. apply Hsame.
  - destruct (q_prods s !! i) as [pc|]; [|done]. cbn in Hl.
    destruct (prod_step pc s) as [[pc' s1]|] eqn:Hp; [|done]. injection Hl as <-. cbn.
    assert (∀ e, try_send (q_chan s) e = Ret (true, q_chan s1) ∨ q_chan s1 = q_chan s →
      ch_buf (q_chan s) ++ drop (length (ch_buf (q_chan s))) (ch_buf (q_chan s1)) =
      take (length (ch_buf (q_chan s)) - length (ch_buf (q_chan s1))) (ch_buf (q_chan s)) ++ ch_buf (q_chan s1)) as Hsend.
    { intros e [(_ & [(_ & _ & ->)|[? _]])%try_send_Ret| ->]; [|done|by rewrite Hsame, Nat.sub_diag].
      cbn. rewrite drop_app_length, length_app. cbn. by replace (_ - _)%nat with 0%nat by lia. }
    destruct pc as [e|e|e| |]; cbn in Hp; try done.
    + apply (Hsend e). destruct (try_send (q_chan s) e) as [[[] c]|?|?]; injection Hp as <- <-; auto.
    + unfold try_recv in Hp. destruct (ch_buf (q_chan s)) as [|x buf] eqn:Hb; injection Hp as <- <-; cbn.
      * by rewrite Hb.
      * rewrite drop_ge by (cbn; lia). rewrite app_nil_r. by replace (S (length buf) - length buf)%nat with 1%nat by lia.
    + apply (Hsend e). destruct (try_send (q_chan s) e) as [[[] c]|?|?] eqn:Hs; injection Hp as <- <-; auto.
      right. by apply try_send_Ret in Hs as (_ & [[? _]|(_ & _ & ->)]).
  - destruct (q_dispatcherDone s); [done|]. unfold try_recv in Hl.
    destruct (ch_buf (q_chan s)) as [|x buf] eqn:Hb; [done|]. injection Hl as <-. cbn.
    rewrite drop_ge by (cbn; lia). by rewrite app_nil_r.
  - destruct (negb _ && _ && _); [|done]. injection Hl as <-. apply Hsame.
  - destruct (q_destroy s); try done. injection Hl as <-. apply Hsame.
  - destruct (q_destroy s); try done. destruct (q_dispatcherDone s); [|done]. injection Hl as <-. apply Hsame.
Qed.

Lemma history_run ls s s' :
  qrun ls s = Some s' →
  let h := observe ls s in
  ch_buf (q_chan s) ++ accepted h ≡ₚ delivered h ++ ch_buf (q_chan s') ++ dropped h ∧
  (delivered h ++ ch_buf (q_chan s')) `sublist_of` (ch_buf (q_chan s) ++ accepted h).
Proof.
  revert s. induction ls as [|l ls IH]; intros s Hrun; cbv zeta.
  { injection Hrun as <-. cbn. by rewrite app_nil_r. }
  apply qrun_cons in Hrun as (s1 & Hl & Hrun). destruct (observe_cons l ls s s1 Hl) as [-> _].
  apply qstep_events in Hl. cbv zeta in Hl. destruct (IH s1 Hrun) as [Hperm Hsub].
  destruct (history_cons l (ch_buf (q_chan s)) (ch_buf (q_chan s1)) (observe ls s1)) as (-> & -> & ->).
  rewrite (app_assoc (ch_buf (q_chan s))), Hl. split.
  - rewrite <-!app_assoc, Hperm. solve_Permutation.
  - rewrite <-!app_assoc. apply sublist_app; [done|]. by apply sublist_inserts_l.
Qed.

(** The events of the calls that are still to put theirs. *)
Definition pc_event (pc : prod_pc) : list event :=
  match pc with Send1 e | DropOldest e | Send2 e => [e] | Returned | Panicked => [] end.
Definition pending (m : gmap nat prod_pc) : list event := concat (pc_event <$> (map_to_list m).*2).

Lemma pending_insert (m : gmap nat prod_pc) i pc :
  m !! i = None → pending (<[i := pc]> m) ≡ₚ pc_event pc ++ pending m.
Proof. intros Hm. unfold pending. by rewrite map_to_list_insert. Qed.

Lemma pending_update (m : gmap nat prod_pc) i pc pc' :
  m !! i = Some pc → pc_event pc ++ pending (<[i := pc']> m) ≡ₚ pc_event pc' ++ pending m.
Proof.
  intros Hm. rewrite <-(insert_delete_id m i pc) at 2 by done. rewrite <-insert_delete_eq.
  rewrite !pending_insert by apply lookup_delete_eq. solve_Permutation.
Qed.

Lemma prod_pending pc s pc' s' :
  prod_step pc s = Some (pc', s') →
  q_prods s' = q_prods s ∧
  drop (length (ch_buf (q_chan s))) (ch_buf (q_chan s')) ++ pc_event pc' ⊆+ pc_event pc.
Proof.
  destruct pc as [e|e|e| |]; cbn; try done.
  - destruct (try_send (q_chan s) e) as [[[] c]|?|?] eqn:Hs; intros [= <- <-]; cbn; rewrite ?drop_all; (split; [done|]); try done.
    + apply try_send_Ret in Hs as (_ & [(_ & _ & ->)|[? _]]); [|done]. cbn. by rewrite drop_app_length.
    + apply submseteq_nil_l.
    + apply submseteq_nil_l.
  - unfold try_recv. destruct (ch_buf (q_chan s)) as [|x buf] eqn:Hb; intros [= <- <-]; cbn; rewrite ?Hb; (split; [done|]).
    + done.
    + rewrite drop_ge by (cbn; lia). done.
  - destruct (try_send (q_chan s) e) as [[b c]|?|?] eqn:Hs; intros [= <- <-]; cbn; (split; [done|]).
    + apply try_send_Ret in Hs as (_ & [(_ & _ & ->)|(_ & _ & ->)]); cbn.
      * by rewrite drop_app_length.
      * rewrite drop_all. apply submseteq_nil_l.
    + rewrite drop_all. apply submseteq_nil_l.
    + rewrite drop_all. apply submseteq_nil_l.
Qed.

Lemma qstep_pending l s s' :
  qstep l s = Some s' →
  drop (length (ch_buf (q_chan s))) (ch_buf (q_chan s')) ++ pending (q_prods s') ⊆+
    pending (q_prods s) ++ offered [l].
Proof.
  intros Hl. destruct l as [i e|i| | | |]; cbn in Hl.
  - destruct (q_prods s !! i) eqn:Hi; [done|]. injection Hl as <-. cbn. rewrite drop_all. cbn.
    rewrite pending_insert by done. cbn. by rewrite Permutation_app_comm.
  - destruct (q_prods s !! i) as [pc|] eqn:Hi; [|done]. cbn in Hl.
    destruct (prod_step pc s) as [[pc' s1]|] eqn:Hp; [|done]. injection Hl as <-. cbn. rewrite app_nil_r.
    apply prod_pending in Hp as [-> Hsub]. pose proof (pending_update _ _ _ pc' Hi) as Hup.
    apply (submseteq_app_inv_l _ _ (pc_event pc)). rewrite (Permutation_app_comm (drop _ _)), app_assoc, Hup.
    rewrite <-app_assoc, (Permutation_app_comm (pending _)), app_assoc, (Permutation_app_comm (pc_event pc')).
    by apply submseteq_skips_r.
  - destruct (q_dispatcherDone s); [done|]. unfold try_recv in Hl.
    destruct (ch_buf (q_chan s)) as [|x buf] eqn:Hb; [done|]. injection Hl as <-. cbn.
    rewrite drop_ge by (cbn; lia). cbn. by rewrite app_nil_r.
  - destruct (negb _ && _ && _); [|done]. injection Hl as <-. cbn. by rewrite drop_all, app_nil_r.
  - destruct (q_destroy s); try done. injection Hl as <-. cbn. by rewrite drop_all, app_nil_r.
  - destruct (q_destroy s); try done. destruct (q_dispatcherDone s); [|done].
    injection Hl as <-. cbn. by rewrite drop_all, app_nil_r.
Qed.

(** Each offer is put into the queue at most once. *)
Lemma accepted_run ls s s' :
  qrun ls s = Some s' → accepted (observe ls s) ++ pending (q_prods s') ⊆+ pending (q_prods s) ++ offered ls.
Proof.
  revert s. induction ls as [|l ls IH]; intros s Hrun.
  { injection Hrun as <-. cbn. by rewrite app_nil_r. }
  apply qrun_cons in Hrun as (s1 & Hl & Hrun). destruct (observe_cons l ls s s1 Hl) as [-> _].
  destruct (history_cons l (ch_buf (q_chan s)) (ch_buf (q_chan s1)) (observe ls s1)) as (-> & _).
  replace (offered (l :: ls)) with (offered [l] ++ offered ls) by (unfold offered; cbn; by rewrite app_nil_r).
  rewrite app_assoc. etrans; [|apply submseteq_skips_r; by apply (qstep_pending l)].
  rewrite <-!app_assoc. apply submseteq_skips_l. by apply IH.
Qed.

(** C26: the queue of watch events under every interleaving of mutation
    handlers, the dispatcher goroutine and [Destroy].
    - It never holds more than 100 events.
    - A call that returned did one of three things ([call_outcome]): it found
      room and put its event behind the waiting ones; it found the queue full,
      dropped the oldest event if one was left, and then put its own; or after
      that drop it found the queue full again, which takes other handlers, and
      gave its own event up.  A call that has not returned has put nothing, and
      one that panicked did so after [Destroy] closed the queue.
    - Each offered event enters the queue at most once; what entered was
      delivered, is waiting, or was dropped as oldest, and delivered and waiting
      events are in the order they entered.
    - When [Destroy] shuts the broadcaster down, no event is waiting. *)
Theorem queue_safety (ls : list label) (s : qsys) (Hrun : qrun ls q_init = Some s) :
  let h := observe ls q_init in
  (length (ch_buf (q_chan s)) ≤ 100)%nat ∧
  (∀ i e, LCall i e ∈ ls →
     match q_prods s !! i with
     | Some Returned => call_outcome e (selects i h)
     | Some pc => (pc = Panicked → q_destroy s ≠ NotDestroyed) ∧ Forall (λ p, p.2 `suffix_of` p.1) (selects i h)
     | None => False
     end) ∧
  accepted h ⊆+ offered ls ∧
  accepted h ≡ₚ delivered h ++ ch_buf (q_chan s) ++ dropped h ∧
  (delivered h ++ ch_buf (q_chan s)) `sublist_of` accepted h ∧
  (q_destroy s = ShutDown → ch_buf (q_chan s) = []).
Proof.
  cbv zeta. destruct (history_run _ _ _ Hrun) as [Hperm Hsub]. pose proof (accepted_run _ _ _ Hrun) as Hacc.
  pose proof (queue_inv_run _ _ _ queue_inv_init Hrun) as Hinv. split_and!; [apply Hinv| |..].
  - intros i e Hin. destruct (call_run e ls _ _ i queue_inv_init eq_refl Hin Hrun) as (pc & Hpc & Hpath).
    rewrite Hpc. destruct pc; [| | |by apply path_returned|];
      (split; [|by eapply path_not_returned]); try done.
    intros _. by apply (qi_closed _ Hinv), (qi_panic _ Hinv i).
  - cbn in Hacc. etrans; [|exact Hacc]. apply submseteq_inserts_r. done.
  - exact Hperm.
  - exact Hsub.
  - intros Hs%(qi_shutdown _ Hinv)%(qi_drained _ Hinv). apply Hs.
Qed.

(** *** Calls that do not overlap *)

(** The newest [n] events of a list, oldest first. *)
Definition newest (n : nat) (l : list event) : list event := drop (length l - n) l.

(** Calls one after the other: a call with the selects it ran, or the
    dispatcher taking an event. *)
Inductive turn := TCall (i : nat) (e : event) (k : nat) | TTake.

Definition turn_labels (t : turn) : list label :=
  match t with TCall i e k => LCall i e :: repeat (LProd i) k | TTake => [LDispatch] end.

(** A sliding window on the events offered: the events waiting and those
    delivered after a turn. *)
Definition window (qd : list event * list event) (t : turn) : list event * list event :=
  match t with
  | TCall _ e _ => (newest 100 (qd.1 ++ [e]), qd.2)
  | TTake => (tail qd.1, qd.2 ++ take 1 qd.1)
  end.

Lemma newest_room l e : (length l < 100)%nat → newest 100 (l ++ [e]) = l ++ [e].
Proof. intros Hl. unfold newest. rewrite length_app. cbn. by replace (_ - _)%nat with 0%nat by lia. Qed.

Lemma newest_full l e : length l = 100%nat → newest 100 (l ++ [e]) = tail l ++ [e].
Proof.
  intros Hl. unfold newest. rewrite length_app, Hl. cbn. destruct l as [|x l]; [done|]. cbn. by rewrite drop_0.
Qed.

Lemma qrun_app ls1 ls2 s s' :
  qrun (ls1 ++ ls2) s = Some s' →
  ∃ s1, qrun ls1 s = Some s1 ∧ qrun ls2 s1 = Some s' ∧ observe (ls1 ++ ls2) s = observe ls1 s ++ observe ls2 s1.
Proof.
  revert s. induction ls1 as [|l ls1 IH]; intros s Hrun; [by exists s|].
  apply qrun_cons in Hrun as (s0 & Hl & Hrun). destruct (IH _ Hrun) as (s1 & H1 & H2 & Hob).
  exists s1. destruct (observe_cons l ls1 s s0 Hl) as [Ho1 Hr1].
  destruct (observe_cons l (ls1 ++ ls2) s s0 Hl) as [Ho2 _]. cbn [app].
  split; [by rewrite Hr1|]. split; [done|]. by rewrite Ho1, Ho2, Hob.
Qed.

Lemma delivered_app h1 h2 : delivered (h1 ++ h2) = delivered h1 ++ delivered h2.
Proof. unfold delivered. by rewrite fmap_app, concat_app. Qed.

Lemma delivered_call i k s : delivered (observe (repeat (LProd i) k) s) = [].
Proof.
  revert s. induction k as [|k IH]; intros s; [done|]. cbn [repeat].
  destruct (qstep (LProd i) s) as [s1|] eqn:Hl; [|cbn [observe]; by rewrite Hl].
  destruct (observe_cons _ (repeat (LProd i) k) _ _ Hl) as [-> _].
  rewrite (proj1 (proj2 (history_cons _ _ _ _))). apply IH.
Qed.

(** The select of a producer that runs on its own. *)
Lemma alone_step i pc k s s' :
  q_prods s !! i = Some pc → qrun (repeat (LProd i) k) s = Some s' → q_prods s' !! i = Some Returned →
  pc = Returned ∧ s' = s ∨
  ∃ k' pc1 s1, prod_step pc s = Some (pc1, s1) ∧ qrun (repeat (LProd i) k') (set_pc i pc1 s1) = Some s'.
Proof.
  intros Hpc Hrun Hend. destruct k as [|k]; cbn [repeat] in Hrun.
  { injection Hrun as <-. left. split; [congruence|done]. }
  apply qrun_cons in Hrun as (s1 & Hl & Hrun). right. cbn in Hl. rewrite Hpc in Hl. cbn in Hl.
  destruct (prod_step pc s) as [[pc1 s0]|] eqn:Hp; [|done]. injection Hl as <-. by exists k, pc1, s0.
Qed.

(** The state after a call that ran on its own and returned. *)
Lemma call_alone i e k s s' :
  (length (ch_buf (q_chan s)) ≤ 100)%nat → ch_closed (q_chan s) = false →
  qrun (turn_labels (TCall i e k)) s = Some s' → q_prods s' !! i = Some Returned →
  q_chan s' = Chan (newest 100 (ch_buf (q_chan s) ++ [e])) false.
Proof.
  intros Hb Ho Hrun Hend. apply qrun_cons in Hrun as (s0 & Hl & Hrun). cbn in Hl.
  destruct (q_prods s !! i); [done|]. injection Hl as <-.
  destruct (alone_step _ _ _ _ _ (set_pc_lookup _ _ _) Hrun Hend) as [[? _]|(k1 & pc1 & s1 & Hp1 & Hrun1)]; [done|].
  cbn in Hp1. destruct (decide (length (ch_buf (q_chan s)) < 100)%nat) as [Hlt|Hge].
  - rewrite (try_send_ok _ _ Ho Hlt) in Hp1. injection Hp1 as <- <-.
    destruct (alone_step _ _ _ _ _ (set_pc_lookup _ _ _) Hrun1 Hend) as [[_ ->]|(? & ? & ? & ? & _)]; [|done].
    cbn. by rewrite newest_room.
  - rewrite try_send_full in Hp1 by (done || unfold watchBroadcasterQueueLen; lia). injection Hp1 as <- <-.
    destruct (alone_step _ _ _ _ _ (set_pc_lookup _ _ _) Hrun1 Hend) as [[? _]|(k2 & pc2 & s2 & Hp2 & Hrun2)]; [done|].
    cbn in Hp2. unfold try_recv in Hp2. destruct (ch_buf (q_chan s)) as [|x buf] eqn:Hbuf; [cbn in Hge; lia|].
    injection Hp2 as <- <-. cbn in Hb, Hge.
    destruct (alone_step _ _ _ _ _ (set_pc_lookup _ _ _) Hrun2 Hend) as [[? _]|(k3 & pc3 & s3 & Hp3 & Hrun3)]; [done|].
    cbn in Hp3. rewrite try_send_ok in Hp3 by (done || cbn; unfold watchBroadcasterQueueLen; lia).
    injection Hp3 as <- <-.
    destruct (alone_step _ _ _ _ _ (set_pc_lookup _ _ _) Hrun3 Hend) as [[_ ->]|(? & ? & ? & ? & _)]; [|done].
    cbn [q_chan set_pc set_chan ch_buf]. rewrite newest_full by (cbn; lia). done.
Qed.

(** A call keeps its place while the others run. *)
Lemma turn_keeps t s s' i pc :
  qrun (turn_labels t) s = Some s' → q_prods s !! i = Some pc → q_prods s' !! i = Some pc.
Proof.
  assert (∀ ls s, Forall (λ l, is_prod i l = false) ls → qrun ls s = Some s' →
    q_prods s !! i = Some pc → q_prods s' !! i = Some pc) as Hall.
  { clear s. induction ls as [|l ls IH]; intros s Hf Hrun Hpc; [by injection Hrun as <-|].
    apply qrun_cons in Hrun as (s1 & Hl & Hrun). apply Forall_cons in Hf as [Hi Hf].
    apply (IH s1 Hf Hrun). by eapply qstep_others. }
  intros Hrun Hpc. refine (Hall _ _ _ Hrun Hpc). destruct t as [j e k|]; [|by repeat constructor].
  apply qrun_cons in Hrun as (s1 & Hl & _). cbn in Hl. constructor; [done|].
  apply List.Forall_forall. intros l Hin%List.repeat_spec. subst l. cbn. apply Nat.eqb_neq. intros ->. by rewrite Hpc in Hl.
Qed.

Lemma turns_keep ts s s' i pc :
  qrun (concat (turn_labels <$> ts)) s = Some s' → q_prods s !! i = Some pc → q_prods s' !! i = Some pc.
Proof.
  revert s. induction ts as [|t ts IH]; intros s Hrun Hpc; [by injection Hrun as <-|].
  apply qrun_app in Hrun as (s1 & H1 & H2 & _). apply (IH s1 H2). by eapply turn_keeps.
Qed.

(** One turn. *)
Lemma turn_window t s s' d :
  (length (ch_buf (q_chan s)) ≤ 100)%nat → ch_closed (q_chan s) = false → qrun (turn_labels t) s = Some s' →
  (∀ i e k, t = TCall i e k → q_prods s' !! i = Some Returned) →
  (ch_buf (q_chan s'), d ++ delivered (observe (turn_labels t) s)) = window (ch_buf (q_chan s), d) t ∧
  (length (ch_buf (q_chan s')) ≤ 100)%nat ∧ ch_closed (q_chan s') = false.
Proof.
  intros Hb Ho Hrun Hend. destruct t as [i e k|].
  - rewrite (call_alone i e k s s' Hb Ho Hrun (Hend i e k eq_refl)).
    apply qrun_cons in Hrun as (s1 & Hl & _). cbn [turn_labels] in *.
    destruct (observe_cons _ (repeat (LProd i) k) _ _ Hl) as [-> _].
    rewrite (proj1 (proj2 (history_cons _ _ _ _))), delivered_call. cbn [app window ch_buf fst snd ch_closed].
    split_and!; [by rewrite app_nil_r|unfold newest; rewrite length_drop; lia|done].
  - apply qrun_cons in Hrun as (s1 & Hl & Hrun). injection Hrun as <-.
    destruct (observe_cons _ [] _ _ Hl) as [Hob _]. cbn [turn_labels]. rewrite Hob.
    rewrite (proj1 (proj2 (history_cons _ _ _ _))). cbn [observe delivered fmap list_fmap concat window fst snd].
    rewrite app_nil_r. cbn in Hl. destruct (q_dispatcherDone s); [done|]. unfold try_recv in Hl.
    destruct (ch_buf (q_chan s)) as [|x buf]; [done|]. injection Hl as <-. cbn in *. split_and!; [done|lia|done].
Qed.

Lemma known_run ls s s' i : is_Some (q_prods s !! i) → qrun ls s = Some s' → is_Some (q_prods s' !! i).
Proof.
  revert s. induction ls as [|l ls IH]; intros s Hs Hrun; [by injection Hrun as <-|].
  apply qrun_cons in Hrun as (s0 & Hl & Hrun). apply (IH s0); [|done]. destruct Hs as [pc Hpc].
  destruct (is_prod i l) eqn:Hi; [|exists pc; by eapply qstep_others].
  destruct l as [|j| | | |]; cbn in Hi; try done. apply Nat.eqb_eq in Hi as <-. cbn in Hl. rewrite Hpc in Hl. cbn in Hl.
  destruct (prod_step pc s) as [[pc' s2]|]; [|done]. injection Hl as <-. rewrite set_pc_lookup. done.
Qed.

Lemma called_run i e k s s' : qrun (turn_labels (TCall i e k)) s = Some s' → ∃ pc, q_prods s' !! i = Some pc.
Proof.
  intros Hrun. apply qrun_cons in Hrun as (s0 & Hl & Hrun). refine (known_run _ s0 s' i _ Hrun). cbn in Hl.
  destruct (q_prods s !! i); [done|]. injection Hl as <-. by rewrite set_pc_lookup.
Qed.

Lemma turns_window ts s s' d :
  (length (ch_buf (q_chan s)) ≤ 100)%nat → ch_closed (q_chan s) = false →
  qrun (concat (turn_labels <$> ts)) s = Some s' →
  (∀ i pc, q_prods s' !! i = Some pc → pc = Returned) →
  (ch_buf (q_chan s'), d ++ delivered (observe (concat (turn_labels <$> ts)) s)) =
    foldl window (ch_buf (q_chan s), d) ts.
Proof.
  revert s d. induction ts as [|t ts IH]; intros s d Hb Ho Hrun Hend.
  { injection Hrun as <-. cbn. by rewrite app_nil_r. }
  assert (concat (turn_labels <$> t :: ts) = turn_labels t ++ concat (turn_labels <$> ts)) as Hcat by done.
  rewrite Hcat in *. apply qrun_app in Hrun as (s1 & H1 & H2 & ->). cbn [foldl].
  assert (∀ i e k, t = TCall i e k → q_prods s1 !! i = Some Returned) as Hret.
  { intros i e k ->. destruct (called_run _ _ _ _ _ H1) as [pc Hpc].
    rewrite Hpc. f_equal. eapply Hend, turns_keep; [exact H2|exact Hpc]. }
  destruct (turn_window t s s1 d Hb Ho H1 Hret) as (Hw & Hb1 & Ho1). rewrite <-Hw.
  rewrite <-(IH s1 _ Hb1 Ho1 H2 Hend). by rewrite delivered_app, app_assoc.
Qed.

Lemma newest_app n l e : (0 < n)%nat → newest n (newest n l ++ [e]) = newest n (l ++ [e]).
Proof.
  intros Hn. unfold newest. rewrite !length_app, length_drop. cbn.
  destruct (Nat.le_gt_cases (length l) n) as [Hle|Hgt].
  - replace (length l - n)%nat with 0%nat by lia. rewrite drop_0. f_equal. lia.
  - rewrite <-(drop_app_le l [e]) by lia. rewrite drop_drop. f_equal. lia.
Qed.

(** Without deliveries, the window is over everything offered. *)
Lemma window_calls ts q d :
  Forall (λ t, t ≠ TTake) ts →
  foldl window (newest 100 q, d) ts = (newest 100 (q ++ offered (concat (turn_labels <$> ts))), d).
Proof.
  revert q. induction ts as [|t ts IH]; intros q Hf; [cbn; by rewrite app_nil_r|].
  apply Forall_cons in Hf as [Ht Hf]. destruct t as [i e k|]; [|done]. cbn [foldl window fst snd].
  rewrite newest_app by lia. rewrite IH by done. do 2 f_equal. rewrite <-app_assoc. f_equal.
  unfold offered. cbn. rewrite fmap_app, concat_app.
  replace (concat ((λ l, match l with LCall _ e0 => [e0] | _ => [] end) <$> repeat (LProd i) k)) with (@nil event); [done|].
  clear. by induction k.
Qed.


(** *** Wait-freedom *)

(** How many selects a call still has to run. *)
Definition selects_left (pc : option prod_pc) : nat :=
  match pc with
  | None | Some (Send1 _) => 3
  | Some (DropOldest _) => 2
  | Some (Send2 _) => 1
  | Some Returned | Some Panicked => 0
  end.

Definition prod_steps (i : nat) (ls : list label) : nat := length (List.filter (is_prod i) ls).

Lemma prod_step_left pc s pc' s' :
  prod_step pc s = Some (pc', s') →
  (S (selects_left (Some pc')) ≤ selects_left (Some pc))%nat ∧ q_prods s' = q_prods s.
Proof.
  destruct pc; cbn; try done; repeat case_match; intros; simplify_eq; cbn; split; (lia || done).
Qed.

Lemma qstep_left l s s' i :
  qstep l s = Some s' →
  ((if is_prod i l then 1 else 0) + selects_left (q_prods s' !! i) ≤ selects_left (q_prods s !! i))%nat.
Proof.
  destruct l as [j e|j| | | |]; cbn.
  - destruct (q_prods s !! j) eqn:Hj; [done|]. intros [= <-]. cbn.
    destruct (decide (j = i)) as [<-|]; [rewrite lookup_insert_eq, Hj|rewrite lookup_insert_ne by done]; cbn; lia.
  - destruct (q_prods s !! j) as [pc|] eqn:Hj; [|done]. cbn.
    destruct (prod_step pc s) as [[pc' s1]|] eqn:Hp; [|done]. cbn. intros [= <-]. cbn.
    apply prod_step_left in Hp as [Hl Heq].
    destruct (Nat.eqb_spec i j) as [<-|Hij].
    + by rewrite lookup_insert_eq, Hj.
    + rewrite lookup_insert_ne by done. by rewrite Heq.
  - repeat case_match; intros; simplify_eq; cbn; lia.
  - repeat case_match; intros; simplify_eq; cbn; lia.
  - repeat case_match; intros; simplify_eq; cbn; lia.
  - repeat case_match; intros; simplify_eq; cbn; lia.
Qed.

Lemma qrun_left ls s s' i :
  qrun ls s = Some s' →
  (prod_steps i ls + selects_left (q_prods s' !! i) ≤ selects_left (q_prods s !! i))%nat.
Proof.
  revert s. induction ls as [|l ls IH]; intros s; cbn; [by intros [= <-]|].
  destruct (qstep l s) as [s1|] eqn:Hl; [|done]. cbn. intros H%IH.
  apply (qstep_left _ _ _ i) in Hl. unfold prod_steps in *. cbn. destruct (is_prod i l); cbn; lia.
Qed.

(** Mutation handlers never block on the watch queue.  Under every
    interleaving a call of [enqueueWatchEvent] runs at most three selects, each
    of which can run whatever the state of the queue, so a call that has run
    three has returned or panicked. *)
Theorem enqueue_wait_free (ls : list label) (s s' : qsys) (i : nat)
    (Hrun : qrun ls s = Some s') (Hfresh : q_prods s !! i = None) :
  (prod_steps i ls ≤ 3)%nat ∧
  (∀ pc, q_prods s' !! i = Some pc → pc ≠ Returned → pc ≠ Panicked →
     ∃ s'', qstep (LProd i) s' = Some s'') ∧
  (prod_steps i ls = 3%nat →
     q_prods s' !! i = Some Returned ∨ q_prods s' !! i = Some Panicked).
Proof.
  pose proof (qrun_left _ _ _ i Hrun) as Hl. rewrite Hfresh in Hl.
  cbn [selects_left] in Hl. split_and!; [lia| |].
  - intros pc Hpc Hr Hp. cbn. rewrite Hpc. cbn.
    destruct pc as [e|e|e| |]; try done; cbn; repeat case_match; cbn; eauto.
  - intros H3. assert (selects_left (q_prods s' !! i) = 0%nat) as H0 by lia.
    destruct (q_prods s' !! i) as [[]|]; cbn in H0; try lia; auto.
Qed.

(** *** What the queue does not promise *)

Definition nth_event (n : nat) : event := Event Modified (OStatus (format_int (Z.of_nat n))).

(** Handler [i] enqueues its event without interference, with [k] selects. *)
Definition undisturbed (k i : nat) : turn := TCall i (nth_event i) k.

(** With the queue full, handler 100 drops the oldest event, handler 101 takes
    the free slot, and handler 100's last select gives up its own event while 99
    older events stay queued. *)
Definition lost_update_run : list label :=
  concat (turn_labels <$> map (undisturbed 1) (seq 0 100)) ++
  [LCall 100 (nth_event 100); LProd 100; LProd 100;
   LCall 101 (nth_event 101); LProd 101; LProd 100].

Lemma newest_event_can_be_lost :
  ∃ s, qrun lost_update_run q_init = Some s ∧
    dropped (observe lost_update_run q_init) = [nth_event 0] ∧
    ch_buf (q_chan s) = (nth_event <$> seq 1 99) ++ [nth_event 101] ∧
    q_prods s !! 100%nat = Some Returned.
Proof. eexists. split; [vm_compute; reflexivity|]. split_and!; vm_compute; reflexivity. Qed.

(** *** Concrete runs *)

(** 101 calls and two deliveries: the first event is dropped. *)
Definition window_turns : list turn :=
  map (undisturbed 1) (seq 0 100) ++ [undisturbed 3 100; TTake; undisturbed 1 101; TTake].

Definition run_end (ls : list label) : qsys := default q_init (qrun ls q_init).

Definition window_run : list label := concat (turn_labels <$> window_turns).

Lemma all_returned (m : gmap nat prod_pc) i pc :
  forallb (λ p, match p.2 with Returned => true | _ => false end) (map_to_list m) = true →
  m !! i = Some pc → pc = Returned.
Proof.
  intros Hall Hpc. apply elem_of_map_to_list, list_elem_of_In in Hpc.
  apply (proj1 (forallb_forall _ _) Hall) in Hpc. by destruct pc.
Qed.


Definition short_run : list label :=
  turn_labels (undisturbed 1 0) ++ turn_labels (undisturbed 1 1) ++ [LDispatch; LClose; LDispatch; LExit; LShutdown].

Lemma queue_safety_witness :
  (∃ s, qrun short_run q_init = Some s ∧ q_destroy s = ShutDown ∧ ch_buf (q_chan s) = []) ∧
  (∃ s, qrun lost_update_run q_init = Some s ∧
     call_outcome (nth_event 100) (selects 100 (observe lost_update_run q_init))).
Proof.
  split.
  - exists (run_end short_run). split; [vm_compute; reflexivity|]. split; [vm_compute; reflexivity|].
    apply (queue_safety short_run (run_end short_run)); vm_compute; reflexivity.
  - exists (run_end lost_update_run). split; [vm_compute; reflexivity|].
    refine (proj1 (proj2 (queue_safety lost_update_run (run_end lost_update_run) _)) 100%nat (nth_event 100) _).
    + vm_compute; reflexivity.
    + unfold lost_update_run. apply elem_of_app. right. by left.
Defined.


Lemma enqueue_wait_free_witness :
  qrun lost_update_run q_init = Some (run_end lost_update_run) ∧
  (q_prods (run_end lost_update_run) !! 100%nat = Some Returned ∨
   q_prods (run_end lost_update_run) !! 100%nat = Some Panicked).
Proof.
  split; [vm_compute; reflexivity|].
  apply (enqueue_wait_free lost_update_run q_init (run_end lost_update_run) 100);
    vm_compute; reflexivity.
Defined.

(** ** Properties of the watcher and the filter *)

Definition watcher_inv (w : watcher) : Prop :=
  wt_innerStops w = (if wt_stopped w then 1 else 0)%nat ∧
  (wt_goroutineDone w = true → wt_stopped w = true).

Lemma Stop_inv w : watcher_inv w → watcher_inv (Stop w) ∧ wt_stopped (Stop w) = true.
Proof.
  unfold watcher_inv, Stop. intros [Hs Hg]. destruct (wt_stopped w) eqn:E; cbn; [by rewrite E|].
  rewrite Hs. auto.
Qed.

Lemma wstep_inv l w w' : watcher_inv w → wstep l w = Some w' → watcher_inv w'.
Proof.
  intros Hinv. destruct l as [| | |b]; cbn.
  - intros [= <-]. by apply Stop_inv.
  - by intros [= <-].
  - repeat case_match; intros; simplify_eq; done.
  - destruct (wt_goroutineDone w); [done|].
    destruct (wt_stopped w && _) eqn:Hs; [|case_match; [|done]]; intros [= <-].
    + apply andb_true_iff in Hs as [Hs _]. destruct Hinv. by split.
    + apply Stop_inv in Hinv as [[? ?] ?]. by split.
Qed.

Lemma wrun_inv ls w w' : watcher_inv w → wrun ls w = Some w' → watcher_inv w'.
Proof.
  revert w. induction ls as [|l ls IH]; intros w Hinv; cbn; [by intros [= <-]|].
  destruct (wstep l w) as [w1|] eqn:Hl; [|done]. cbn. apply IH. by eapply wstep_inv.
Qed.

(** a watch stops its broadcaster watcher exactly once, whoever stops it.
    In every interleaving of calls to [Stop], the end of the request context,
    the timeout and the goroutine of [Watch], the underlying [Stop] has run once
    if the watch is stopped and not at all otherwise; the goroutine does not
    return before the watch is stopped; and as soon as the context is done, the
    timer has fired or the watch is stopped, the goroutine can return, leaving
    the watch stopped. *)
Theorem watch_stops_once (timer : bool) (ls : list wlabel) (w : watcher)
    (Hrun : wrun ls (newStopAwareWatch timer) = Some w) :
  wt_innerStops w = (if wt_stopped w then 1 else 0)%nat ∧
  (wt_goroutineDone w = true → wt_stopped w = true) ∧
  (wt_goroutineDone w = false →
   wt_ctxDone w = true ∨ wt_timer w = Some true ∨ wt_stopped w = true →
   ∀ pick_done, ∃ w', wstep (WGoroutine pick_done) w = Some w' ∧
     wt_goroutineDone w' = true ∧ wt_stopped w' = true).
Proof.
  apply wrun_inv in Hrun as Hinv; [|done]. destruct Hinv as [Hs Hg]. split_and!; [done..|].
  intros Hd Hready b. cbn. rewrite Hd.
  destruct (wt_stopped w) eqn:Hst; cbn.
  - destruct (b || negb _) eqn:Hb; [eexists; split; [done|]; by cbn|].
    apply orb_false_iff in Hb as [_ ->%negb_false_iff]. eexists. split; [done|].
    unfold Stop. by rewrite Hst.
  - replace (wt_ctxDone w || bool_decide (wt_timer w = Some true)) with true.
    + eexists. split; [done|]. unfold Stop. by rewrite Hst.
    + symmetry. apply orb_true_iff. rewrite bool_decide_eq_true. naive_solver.
Qed.

Lemma watch_stops_once_witness :
  wt_innerStops (default (newStopAwareWatch true)
    (wrun [WTimer; WStop; WCtxDone; WGoroutine false; WStop] (newStopAwareWatch true))) = 1%nat.
Proof.
  apply (watch_stops_once true [WTimer; WStop; WCtxDone; WGoroutine false; WStop] _ eq_refl).
Defined.

(** The loop of [validateFieldSelector] accepts exactly the supported fields. *)
Lemma validateFieldSelector_Ret sel u :
  validateFieldSelector (Some sel) = Ret u →
  fs_Empty sel = true ∨ Forall (λ f, f = "metadata.name" ∨ f = "metadata.namespace") (fs_Requirements sel).
Proof.
  cbn. destruct (fs_Empty sel); [by left|]. intros H. right. revert H.
  generalize tt as b. induction (fs_Requirements sel) as [|f l IH]; intros b H; [constructor|].
  cbn [mfold] in H. inv_outcome H. constructor; [|by eapply IH].
  apply negb_false_iff in Hx. unfold supportedWatchFieldSelectors in Hx.
  destruct (decide (f = "metadata.name")) as [|Hn]; [by left|].
  destruct (decide (f = "metadata.namespace")) as [|Hs]; [by right|].
  rewrite lookup_insert_ne, lookup_singleton_ne in Hx by done. discriminate Hx.
Qed.

(** What an event must satisfy to pass the filter of a watch. *)
Lemma eventFilter_true ns lsel fsel ev :
  eventFilter ns lsel fsel ev = Ret true →
  object_meta (ev_Object ev) = None ∨
  ∃ meta, object_meta (ev_Object ev) = Some (Ret meta) ∧
    (ns ≠ "" → Namespace meta = ns) ∧
    (∀ sel, lsel = Some sel → ls_Matches sel (Labels meta) = true) ∧
    (∀ sel, fsel = Some sel → fs_Matches sel
       {["metadata.name" := Name meta; "metadata.namespace" := Namespace meta]} = true).
Proof.
  unfold eventFilter. destruct (object_meta (ev_Object ev)) as [[meta|e|e]|]; cbn; [|done|done|by left].
  intros H. right. exists meta. split; [done|].
  destruct (negb (String.eqb ns "") && _) eqn:Hns; [done|].
  destruct (match lsel with Some _ => _ | None => _ end) eqn:Hl; [done|].
  split_and!.
  - intros Hne%String.eqb_neq. rewrite Hne in Hns. cbn in Hns.
    by apply negb_false_iff, String.eqb_eq in Hns.
  - intros sel ->. by apply negb_false_iff in Hl.
  - intros sel ->. destruct (fs_Matches sel _) eqn:Hf; cbn in H; [done|discriminate H].
Qed.
End Watch.
