(* ===== verification/TemplateFiles.v ===== *)
(** * TemplateFiles: internal/aggregated/storage/template_files.go

    Template source trees: path validation, the zip archives built from a file
    map, and the file maps read from an archive.  The zip container format of
    package archive/zip is behind the interface [ZipArchive]; [ZipLaws] states
    that reading an archive yields the entries written to it. *)

From S2P Require Import Prelude GoStd GoStdFacts GoErrors Uuid ApiTypes Providers AggTypes Sdk.
From Stdlib Require Import Lia.

#[local] Open Scope string_scope.
#[local] Open Scope list_scope.

Module TemplateFiles.
Import Uuid Providers Sdk.

Definition maxTemplateSourceZipBytes : Z := Z.shiftl 20 20.
Definition maxTemplateSourceTotalUncompressedBytes : Z := Z.shiftl 40 20.
Definition maxTemplateSourceFiles : Z := 2000.
Definition maxTemplateSourceFileBytes : Z := Z.shiftl 2 20.

(** [len] of a slice or map, as an [int]. *)
Definition zlen {A} (l : list A) : Z := Z.of_nat (length l).
Definition msize {V} (m : gmap string V) : Z := Z.of_nat (size m).

(** ** Paths *)

Definition validateTemplateSourcePath (templatePath : string) : result string :=
  _ ← fail_if (String.eqb templatePath "") (Errorf "path must not be empty" []);
  _ ← fail_if (contains_char "\" templatePath) (Errorf "path must not contain backslashes" []);
  let cleanedPath := path_clean templatePath in
  _ ← fail_if (String.eqb cleanedPath "." || String.eqb cleanedPath "/")
        (Errorf "path must not resolve to root" []);
  _ ← fail_if (has_prefix "/" cleanedPath) (Errorf "path must be relative" []);
  _ ← fail_if (String.eqb cleanedPath ".." || has_prefix "../" cleanedPath)
        (Errorf "path must not escape root" []);
  _ ← fail_if (existsb (String.eqb "..") (split "/" cleanedPath))
        (Errorf "path must not contain parent directory components" []);
  mret cleanedPath.

(** ** The interface of archive/zip *)

(** [zip.FileHeader]: the name, the two pairs of size fields, whether the
    external attributes say "directory", and everything else. *)
Record FileHeader := {
  fh_Name : string;
  fh_CompressedSize : Z; fh_UncompressedSize : Z;
  fh_CompressedSize64 : Z; fh_UncompressedSize64 : Z;
  fh_attrDir : bool;
  fh_rest : Z
}.

(** [FileInfo().IsDir()] *)
Definition IsDir (h : FileHeader) : bool := fh_attrDir h || has_suffix "/" (fh_Name h).

Definition set_header_name (name : string) (h : FileHeader) : FileHeader := {|
  fh_Name := name; fh_CompressedSize := fh_CompressedSize h;
  fh_UncompressedSize := fh_UncompressedSize h; fh_CompressedSize64 := fh_CompressedSize64 h;
  fh_UncompressedSize64 := fh_UncompressedSize64 h; fh_attrDir := fh_attrDir h;
  fh_rest := fh_rest h |}.

Definition reset_header_sizes (h : FileHeader) : FileHeader := {|
  fh_Name := fh_Name h; fh_CompressedSize := 0; fh_UncompressedSize := 0;
  fh_CompressedSize64 := 0; fh_UncompressedSize64 := 0; fh_attrDir := fh_attrDir h;
  fh_rest := fh_rest h |}.

(** [zip.Writer.Create(name)] is [CreateHeader(&FileHeader{Name: name, Method: Deflate})]. *)
Definition Deflate : Z := 8.
Definition plain_header (name : string) : FileHeader := {|
  fh_Name := name; fh_CompressedSize := 0; fh_UncompressedSize := 0; fh_CompressedSize64 := 0;
  fh_UncompressedSize64 := 0; fh_attrDir := false; fh_rest := Deflate |}.

(** What reading an opened stream yields: its bytes, the error that ends it
    (none at a regular end), and the result of closing it. *)
Record stream := {
  stream_data : string; stream_readErr : option goerror; stream_closeErr : option goerror
}.

(** [*zip.File] *)
Record zip_file := { zf_header : FileHeader; zf_Open : result stream }.

Class ZipArchive := {
  zwriter : Type;
  zw_new : zwriter;                                          (* zip.NewWriter(&buffer) *)
  zw_CreateHeader : zwriter → FileHeader → result zwriter;   (* the new entry takes the writes *)
  zw_Write : zwriter → string → result zwriter;
  zw_Close : zwriter → result string;                        (* buffer.Bytes() after Close *)
  zr_File : string → result (list (option zip_file))         (* zip.NewReader(..).File *)
}.

(** A file read back from an archive. *)
Definition reads_as (f : option zip_file) (entry : FileHeader * string) : Prop :=
  ∃ zf, f = Some zf ∧
    fh_Name (zf_header zf) = fh_Name entry.1 ∧
    fh_attrDir (zf_header zf) = fh_attrDir entry.1 ∧
    fh_UncompressedSize64 (zf_header zf) = slen entry.2 ∧
    zf_Open zf = Ret {| stream_data := entry.2; stream_readErr := None; stream_closeErr := None |}.

(** The documented behaviour of the package: a writer accumulates entries, and
    the reader of a finished archive lists them, in order. *)
Class ZipLaws (Z : ZipArchive) := {
  zw_entries : zwriter → list (FileHeader * string);
  zw_entries_new : zw_entries zw_new = [];
  zw_entries_CreateHeader w h w' :
    zw_CreateHeader w h = Ret w' → zw_entries w' = zw_entries w ++ [(h, "")];
  zw_entries_Write w s w' l h d :
    zw_Write w s = Ret w' → zw_entries w = l ++ [(h, d)] → zw_entries w' = l ++ [(h, d +:+ s)];
  zr_File_Close w z :
    zw_Close w = Ret z → ∃ fs, zr_File z = Ret fs ∧ Forall2 reads_as fs (zw_entries w)
}.

(** [io.ReadAll(io.LimitReader(r, limit))] *)
Definition read_limited (limit : Z) (data : string) (readErr : option goerror) : result string :=
  if (limit <=? slen data)%Z then Ret (stake (Z.to_nat limit) data)
  else match readErr with Some err => Err err | None => Ret data end.

Section archives.
Context {ZA : ZipArchive}.
(** The unspecified iteration order of Go maps. *)
Context (range : ∀ V : Type, gmap string V → list (string * V)).

(** ** normalizeFileKeys *)

(** The body of the loop. *)
Definition normalizeFileKey (normalizedFiles : gmap string string) (entry : string * string)
  : result (gmap string string) :=
let '(requestedPath, content) := entry in
match validateTemplateSourcePath requestedPath with
| Err err => Err (Errorf "validate template source path %q: %w" [FStr requestedPath; FErrW err])
| Panic p => Panic p
| Ret normalizedPath =>
    _ ← fail_if (negb (is_nil (normalizedFiles !! normalizedPath)))
          (Errorf "duplicate normalized template source path %q" [FStr normalizedPath]);
    mret (<[normalizedPath := content]> normalizedFiles)
end.

Definition normalizeFileKeys (files : option (gmap string string)) : result (gmap string string) :=
match files with
| None => Err (Errorf "assertion failed: files map must not be nil" [])
| Some files => mfold normalizeFileKey ∅ (range _ files)
end.

(** ** buildSourceZip *)

(** The checks of one source file's contents, shared by the two builders. *)
Definition checkSourceFile (sourcePath content : string) (totalUncompressedBytes : Z) : result Z :=
_ ← fail_if (negb (utf8_valid content))
      (Errorf "template source file %q contains invalid UTF-8" [FStr sourcePath]);
_ ← fail_if (maxTemplateSourceFileBytes <? slen content)%Z
      (Errorf "template source file %q exceeds max file size: %d > %d"
         [FStr sourcePath; FInt (slen content); FInt maxTemplateSourceFileBytes]);
let totalUncompressedBytes := (totalUncompressedBytes + slen content)%Z in
_ ← fail_if (maxTemplateSourceTotalUncompressedBytes <? totalUncompressedBytes)%Z
      (Errorf "template source files exceed max total size: %d > %d"
         [FInt totalUncompressedBytes; FInt maxTemplateSourceTotalUncompressedBytes]);
mret totalUncompressedBytes.

(** The body of the loop over the requested files: the normalized files, their
  paths, and the running total. *)
Definition collectSourceFile (acc : gmap string string * list string * Z)
  (entry : string * string) : result (gmap string string * list string * Z) :=
let '(normalizedFiles, paths, totalUncompressedBytes) := acc in
let '(requestedPath, content) := entry in
match validateTemplateSourcePath requestedPath with
| Err err => Err (Errorf "validate template source path %q: %w" [FStr requestedPath; FErrW err])
| Panic p => Panic p
| Ret normalizedPath =>
    _ ← fail_if (negb (is_nil (normalizedFiles !! normalizedPath)))
          (Errorf "duplicate normalized template source path %q" [FStr normalizedPath]);
    totalUncompressedBytes ← checkSourceFile normalizedPath content totalUncompressedBytes;
    mret (<[normalizedPath := content]> normalizedFiles, paths ++ [normalizedPath],
          totalUncompressedBytes)
end.

(** [if _, err := f; err != nil { return fmt.Errorf(format, path, err) }] *)
Definition wrap_path {A} (format path : string) (r : result A) : result A :=
match r with
| Err err => Err (Errorf format [FStr path; FErrW err])
| r => r
end.

(** One entry created with the given header and filled with the contents. *)
Definition writeEntry (createFormat : string) (w : zwriter) (sourcePath : string)
  (header : FileHeader) (contents : string) : result zwriter :=
w ← wrap_path createFormat sourcePath (zw_CreateHeader w header);
wrap_path "write zip entry %q: %w" sourcePath (zw_Write w contents).

(** Closing the writer and the size check on the finished archive. *)
Definition finishZip (w : zwriter) : result string :=
result ← match zw_Close w with
         | Err err => Err (Errorf "close source zip writer: %w" [FErrW err])
         | r => r
         end;
_ ← fail_if (maxTemplateSourceZipBytes <? slen result)%Z
      (Errorf "template source zip exceeds max size: %d > %d"
         [FInt (slen result); FInt maxTemplateSourceZipBytes]);
mret result.

Definition buildSourceZip (files : option (gmap string string)) : result string :=
match files with
| None => Err (Errorf "assertion failed: files map must not be nil" [])
| Some files =>
    _ ← fail_if (maxTemplateSourceFiles <? msize files)%Z
          (Errorf "template source file count exceeds limit: %d > %d"
             [FInt (msize files); FInt maxTemplateSourceFiles]);
    '(normalizedFiles, paths, _) ← mfold collectSourceFile (∅, [], 0%Z) (range _ files);
    w ← mfold (λ w sourcePath,
          writeEntry "create zip entry %q: %w" w sourcePath (plain_header sourcePath)
            (default "" (normalizedFiles !! sourcePath))) zw_new (sort_strings paths);
    finishZip w
end.

(** ** buildMergedSourceZip *)

(** The state of the scan over the original archive's files: the preserved
  binary entries, the original headers, and the running total. *)
Record scan := Scan {
preservedBinaryFiles : gmap string (string * FileHeader);
originalHeaders : gmap string FileHeader;
scan_total : Z
}.

(** Reading one archive entry, with its limits ([Open] ... size check). *)
Definition readSourceEntry (relativePath : string) (archiveFile : zip_file) : result string :=
_ ← fail_if (maxTemplateSourceFileBytes <? fh_UncompressedSize64 (zf_header archiveFile))%Z
      (Errorf "template source file %q exceeds max file size: %d > %d"
         [FStr relativePath; FInt (fh_UncompressedSize64 (zf_header archiveFile));
          FInt maxTemplateSourceFileBytes]);
entryReader ← wrap_path "open template source file %q: %w" relativePath (zf_Open archiveFile);
contents ← wrap_path "read template source file %q: %w" relativePath
  (read_limited (maxTemplateSourceFileBytes + 1) (stream_data entryReader)
     (stream_readErr entryReader));
_ ← match stream_closeErr entryReader with
    | Some closeErr => Err (Errorf "close template source file %q: %w"
                              [FStr relativePath; FErrW closeErr])
    | None => mret tt
    end;
_ ← fail_if (maxTemplateSourceFileBytes <? slen contents)%Z
      (Errorf "template source file %q exceeds max file size: %d > %d"
         [FStr relativePath; FInt (slen contents); FInt maxTemplateSourceFileBytes]);
mret contents.

(** The running total after reading an entry. *)
Definition addTotal (totalUncompressedBytes : Z) (contents : string) : result Z :=
let total := (totalUncompressedBytes + slen contents)%Z in
_ ← fail_if (maxTemplateSourceTotalUncompressedBytes <? total)%Z
      (Errorf "template source files exceed max total size: %d > %d"
         [FInt total; FInt maxTemplateSourceTotalUncompressedBytes]);
mret total.

(** The body of the loop over the original archive. *)
Definition scanOriginal (desired : gmap string string) (s : scan)
  (archiveFile : option zip_file) : result scan :=
match archiveFile with
| None => Err (Errorf "assertion failed: template source zip entry must not be nil" [])
| Some f =>
    let name := fh_Name (zf_header f) in
    if IsDir (zf_header f) then mret s
    else
      relativePath ← wrap_path "validate template source path %q: %w" name
                       (validateTemplateSourcePath name);
      _ ← fail_if (negb (is_nil (originalHeaders s !! relativePath)))
            (Errorf "duplicate normalized template source path %q" [FStr relativePath]);
      let header := set_header_name relativePath (zf_header f) in
      let headers := <[relativePath := header]> (originalHeaders s) in
      if negb (is_nil (desired !! relativePath)) then
        mret (Scan (preservedBinaryFiles s) headers (scan_total s))
      else
        contents ← readSourceEntry relativePath f;
        total ← addTotal (scan_total s) contents;
        if utf8_valid contents then mret (Scan (preservedBinaryFiles s) headers total)
        else
          _ ← fail_if (negb (is_nil (preservedBinaryFiles s !! relativePath)))
                (Errorf "duplicate normalized template source path %q" [FStr relativePath]);
          mret (Scan (<[relativePath := (contents, header)]> (preservedBinaryFiles s)) headers total)
end.

(** The entry the last loop writes for one path. *)
Definition writeMergedEntry (desired : gmap string string) (s : scan) (w : zwriter)
  (sourcePath : string) : result zwriter :=
let fromHeader := "create zip entry %q from original header: %w" in
match desired !! sourcePath, preservedBinaryFiles s !! sourcePath with
| Some desiredContent, None =>
    match originalHeaders s !! sourcePath with
    | Some originalHeader =>
        writeEntry fromHeader w sourcePath
          (reset_header_sizes (set_header_name sourcePath originalHeader)) desiredContent
    | None =>
        writeEntry "create zip entry %q: %w" w sourcePath (plain_header sourcePath) desiredContent
    end
| None, Some (contents, header) =>
    writeEntry fromHeader w sourcePath (set_header_name sourcePath header) contents
| hasDesired, hasPreservedBinary =>
    Err (Errorf
      "assertion failed: expected exactly one source entry for %q (desired=%t preservedBinary=%t)"
      [FStr sourcePath; FBool (negb (is_nil hasDesired)); FBool (negb (is_nil hasPreservedBinary))])
end.

(** Opening an archive with the limit on its entries. *)
Definition openSourceZip (zipBytes : string) : result (list (option zip_file)) :=
files ← match zr_File zipBytes with
        | Err err => Err (Errorf "open template source zip: %w" [FErrW err])
        | r => r
        end;
_ ← fail_if (maxTemplateSourceFiles <? zlen files)%Z
      (Errorf "template source zip contains too many entries: %d > %d"
         [FInt (zlen files); FInt maxTemplateSourceFiles]);
mret files.

(** The paths of the preserved entries, none of which is a desired path. *)
Definition preservedPaths (desired : gmap string string)
  (preserved : gmap string (string * FileHeader)) : result (list string) :=
mfold (λ paths '(sourcePath, _),
  _ ← fail_if (negb (is_nil (desired !! sourcePath)))
        (Errorf "assertion failed: source path %q exists in both desired and preserved maps"
           [FStr sourcePath]);
  mret (paths ++ [sourcePath])) [] (range _ preserved).

Definition buildMergedSourceZip (originalZipBytes : option string)
  (desiredFiles : option (gmap string string)) : result string :=
match originalZipBytes with
| None => Err (Errorf "assertion failed: original source zip bytes must not be nil" [])
| Some originalZipBytes =>
    _ ← fail_if (is_nil desiredFiles)
          (Errorf "assertion failed: desired files map must not be nil" []);
    desired ← normalizeFileKeys desiredFiles;
    _ ← fail_if (maxTemplateSourceFiles <? msize desired)%Z
          (Errorf "template source file count exceeds limit: %d > %d"
             [FInt (msize desired); FInt maxTemplateSourceFiles]);
    archiveFiles ← openSourceZip originalZipBytes;
    s ← mfold (scanOriginal desired) (Scan ∅ ∅ 0) archiveFiles;
    _ ← mfold (λ total '(sourcePath, content), checkSourceFile sourcePath content total)
          (scan_total s) (range _ desired);
    let count := (msize desired + msize (preservedBinaryFiles s))%Z in
    _ ← fail_if (maxTemplateSourceFiles <? count)%Z
          (Errorf "template source file count exceeds limit: %d > %d"
             [FInt count; FInt maxTemplateSourceFiles]);
    morePaths ← preservedPaths desired (preservedBinaryFiles s);
    let paths := (range _ desired).*1 ++ morePaths in
    w ← mfold (writeMergedEntry desired s) zw_new (sort_strings paths);
    finishZip w
end.

(** ** Reading an archive: the loop of fetchTemplateSourceFiles *)

Record extraction := Extraction {
ex_files : gmap string string; seenPaths : gset string; ex_total : Z
}.

Definition extractFile (ex : extraction) (archiveFile : option zip_file) : result extraction :=
match archiveFile with
| None => Err (Errorf "assertion failed: template source zip entry must not be nil" [])
| Some f =>
    let name := fh_Name (zf_header f) in
    if IsDir (zf_header f) then mret ex
    else
      relativePath ← wrap_path "validate template source path %q: %w" name
                       (validateTemplateSourcePath name);
      _ ← fail_if (bool_decide (relativePath ∈ seenPaths ex))
            (Errorf "duplicate normalized path %q in template source zip" [FStr relativePath]);
      let seen := {[relativePath]} ∪ seenPaths ex in
      contents ← readSourceEntry relativePath f;
      total ← addTotal (ex_total ex) contents;
      if negb (utf8_valid contents) then mret (Extraction (ex_files ex) seen total)
      else mret (Extraction (<[relativePath := contents]> (ex_files ex)) seen total)
end.

Definition extractFiles (sourceZip : string) : result (gmap string string) :=
archiveFiles ← openSourceZip sourceZip;
ex ← mfold extractFile (Extraction ∅ ∅ 0) archiveFiles;
mret (ex_files ex).

(** ** Downloading *)

Section download.
Context {W : Type} (sdk : client → ∀ r : request, M W goerror (response r)).
(** [codersdk.ReadBodyAsError] *)
Context (ReadBodyAsError : http_response → goerror).

Definition fetchRawTemplateSourceZip (ctx : option context) (sdkClient : option client)
  (versionID : Uuid.t) : handler (W:=W) string :=
_ ← guard_err (is_nil ctx) (Errorf "assertion failed: context must not be nil" []);
match sdkClient with
| None => throw (Errorf "assertion failed: codersdk client must not be nil" [])
| Some c =>
    _ ← guard_err (Z.eqb versionID Uuid.Nil)
          (Errorf "assertion failed: template version ID must not be nil" []);
    version ← map_err (λ err, Errorf "fetch template version %q: %w"
                         [FStr (Uuid.to_string versionID); FErrW err])
                (call sdk c (RTemplateVersion versionID));
    let fileID := job_FileID (tv_Job version) in
    let id := FStr (Uuid.to_string fileID) in
    _ ← guard_err (Z.eqb fileID Uuid.Nil)
          (Errorf "assertion failed: template version %q job.fileID must not be nil"
             [FStr (Uuid.to_string versionID)]);
    resp ← map_err (λ err, Errorf "download template source zip for file %q: %w" [id; FErrW err])
             (call sdk c (RFileZip fileID));
    if negb (Z.eqb (StatusCode resp) 200) then
      match Body_closeErr resp with
      | Some closeErr => throw (Errorf
          "close template source zip response body for file %q: %w" [id; FErrW closeErr])
      | None => throw (Errorf "download template source zip for file %q: %w"
                         [id; FErrW (ReadBodyAsError resp)])
      end
    else
      sourceZip ← lift
        match read_limited (maxTemplateSourceZipBytes + 1) (Body resp) (Body_readErr resp) with
        | Err readErr => Err (Errorf "read template source zip for file %q: %w" [id; FErrW readErr])
        | r => r
        end;
      _ ← match Body_closeErr resp with
          | Some closeErr => throw (Errorf
              "close template source zip response body for file %q: %w" [id; FErrW closeErr])
          | None => mret tt
          end;
      _ ← guard_err (maxTemplateSourceZipBytes <? slen sourceZip)%Z
            (Errorf "template source zip exceeds max size: %d > %d"
               [FInt (slen sourceZip); FInt maxTemplateSourceZipBytes]);
      mret sourceZip
end.

Definition fetchTemplateSourceFiles (ctx : option context) (sdkClient : option client)
  (versionID : Uuid.t) : handler (W:=W) (gmap string string) :=
_ ← guard_err (is_nil ctx) (Errorf "assertion failed: context must not be nil" []);
_ ← guard_err (is_nil sdkClient) (Errorf "assertion failed: codersdk client must not be nil" []);
_ ← guard_err (Z.eqb versionID Uuid.Nil)
      (Errorf "assertion failed: template version ID must not be nil" []);
sourceZip ← fetchRawTemplateSourceZip ctx sdkClient versionID;
lift (extractFiles sourceZip).
End download.
End archives.

(** ** Properties of path validation *)

(** The meaning of a relative path: walk its elements from the root of the
    source tree, never above it. *)
Fixpoint resolve (below_root : list string) (elems : list string) : option (list string) :=
  match elems with
  | [] => Some (rev below_root)
  | e :: elems =>
      if String.eqb e "" || String.eqb e "." then resolve below_root elems
      else if String.eqb e ".." then
        match below_root with
        | [] => None
        | _ :: parent => resolve parent elems
        end
      else resolve (e :: below_root) elems
  end.

Lemma clean_step_escaped k e :
  last k = Some ".." → last (clean_step false k e) = Some "..".
Proof.
  intros Hk. unfold clean_step. destruct (_ || _); [done|].
  destruct (String.eqb_spec e "..") as [->|].
  - destruct k as [|top below]; [done|]. destruct (String.eqb_spec top ".."); [done|].
    destruct below; cbn in *; [congruence|done].
  - destruct k; [done|]. done.
Qed.

Lemma clean_escaped l k :
  last k = Some ".." → last (foldl (clean_step false) k l) = Some "..".
Proof.
  revert k. induction l as [|e l IH]; intros k Hk; cbn; [done|]. by apply IH, clean_step_escaped.
Qed.

(** [path.Clean] computes [resolve], or leaves a leading parent element. *)
Lemma clean_resolve l k :
  Forall (λ e, e ≠ "..") k →
  match resolve k l with
  | Some r => foldl (clean_step false) k l = rev r
  | None => last (foldl (clean_step false) k l) = Some ".."
  end.
Proof.
  revert k. induction l as [|e l IH]; intros k Hk; cbn; [by rewrite rev_involutive|].
  unfold clean_step at 2 4. destruct (_ || _) eqn:He; [by apply IH|].
  destruct (String.eqb_spec e "..") as [->|Hne].
  - destruct k as [|top below].
    + by apply clean_escaped.
    + apply Forall_cons in Hk as [Ht Hb]. apply String.eqb_neq in Ht. rewrite Ht. by apply IH.
  - apply IH. by constructor.
Qed.

Lemma resolve_elems (P : string → Prop) l k r :
  Forall P k → Forall P l → resolve k l = Some r → Forall P r.
Proof.
  revert k. induction l as [|e l IH]; intros k Hk Hl; cbn.
  - intros [= <-]. by apply Forall_rev.
  - apply Forall_cons in Hl as [He Hl]. destruct (_ || _); [by apply IH|].
    destruct (String.eqb e ".."); [destruct k as [|t k]; [done|]|].
    + apply Forall_cons in Hk as [_ Hk]. by apply IH.
    + apply IH; [|done]. by constructor.
Qed.

Lemma resolve_plain l k r :
  Forall plain_elem k → Forall (λ e, contains_char "/" e = false) l →
  resolve k l = Some r → Forall plain_elem r.
Proof.
  revert k. induction l as [|e l IH]; intros k Hk Hl; cbn.
  - intros [= <-]. by apply Forall_rev.
  - apply Forall_cons in Hl as [He Hl]. destruct (_ || _) eqn:Hd; [by apply IH|].
    bool_simpl. destruct (String.eqb_spec e "..") as [->|Hne].
    + destruct k as [|t k]; [done|]. apply Forall_cons in Hk as [_ Hk]. by apply IH.
    + apply IH; [|done]. constructor; [|done]. by repeat split.
Qed.

Lemma contains_char_join c d l :
  c ≠ d → Forall (λ e, contains_char c e = false) l → contains_char c (join d l) = false.
Proof.
  intros Hcd. induction 1 as [|e l He Hl IH]; [done|]. destruct l as [|e' l]; [done|].
  change (join d (e :: e' :: l)) with (e +:+ String d (join d (e' :: l))).
  rewrite contains_char_app, He. cbn.
  destruct (Ascii.eqb_spec d c) as [->|]; [congruence|done].
Qed.

Lemma contains_char_split c d s :
  contains_char c s = false → Forall (λ e, contains_char c e = false) (split d s).
Proof.
  intros Hs. rewrite <-(join_split d s) in Hs. revert Hs.
  generalize (split d s) as l. induction l as [|e l IH]; [constructor|].
  destruct l as [|e' l]; [intros; by constructor|].
  change (join d (e :: e' :: l)) with (e +:+ String d (join d (e' :: l))).
  rewrite contains_char_app. intros [He Hl]%orb_false_iff. cbn in Hl.
  apply orb_false_iff in Hl as [_ Hl]. constructor; auto.
Qed.

(** Slash-joined plain elements: what the last checks of the validation see. *)
Lemma join_plain x l :
  Forall plain_elem (x :: l) →
  let p := join "/" (x :: l) in
  split "/" p = x :: l ∧ p ≠ "" ∧ p ≠ "." ∧ has_prefix "/" p = false ∧
  existsb (String.eqb "..") (x :: l) = false ∧ p ≠ ".." ∧ has_prefix "../" p = false.
Proof.
  intros Hl p. pose proof Hl as [[(Hx1 & Hx2 & Hx3) Hx4] Hl']%Forall_cons.
  assert (split "/" p = x :: l) as Hs.
  { apply split_join; [done|]. eapply Forall_impl; [exact Hl|]. by intros ? [(? & ? & ?) ?]. }
  assert (p ≠ "") as Hne by by apply join_nonempty.
  assert (existsb (String.eqb "..") (x :: l) = false) as Hex.
  { apply not_true_iff_false. intros (y & Hy & <-%String.eqb_eq)%existsb_exists.
    rewrite Forall_forall in Hl. apply list_elem_of_In, Hl in Hy as [_ ?]. done. }
  split_and!; try done.
  - intros Hp. rewrite Hp in Hs. injection Hs as <- <-. done.
  - unfold p. destruct (join_head "/" x l) as [r ->]. by apply has_prefix_slash_append.
  - intros Hp. rewrite Hp in Hs. injection Hs as <- <-. done.
  - destruct (has_prefix "../" p) eqn:Hpre; [|done]. exfalso.
    destruct p as [|a [|b [|c p']]]; try (by cbn in Hpre; rewrite ?andb_false_r in Hpre).
    cbn in Hpre. bool_simpl.
    repeat match goal with H : Ascii.eqb _ _ = true |- _ => apply Ascii.eqb_eq in H; subst end.
    cbn in Hs. destruct (split "/" p'); injection Hs as <- <-; done.
Qed.

Lemma path_clean_relative s :
  has_prefix "/" s = false → s ≠ "" →
  match resolve [] (split "/" s) with
  | Some [] => path_clean s = "."
  | Some r => path_clean s = join "/" r
  | None => existsb (String.eqb "..") (split "/" (path_clean s)) = true
  end.
Proof.
  intros Hp Hs%String.eqb_neq. unfold path_clean. rewrite Hs, Hp.
  pose proof (clean_resolve (split "/" s) [] (Forall_nil_2 _)) as Hc.
  pose proof (clean_elems_kept false (split "/" s) (split_no_char _ _)) as Hk.
  pose proof (resolve_plain (split "/" s) []) as Hpl.
  unfold clean_elems in *. destruct (resolve [] (split "/" s)) as [[|x r]|].
  - rewrite Hc. done.
  - specialize (Hpl (x :: r) (Forall_nil_2 _) (split_no_char _ _) eq_refl).
    rewrite Hc, rev_involutive. apply join_plain in Hpl as (_ & Hne & _).
    apply String.eqb_neq in Hne. by rewrite Hne.
  - set (k := foldl (clean_step false) [] (split "/" s)) in *.
    assert (∃ r, rev k = ".." :: r) as [r Hr].
    { apply last_Some in Hc as [k' ->]. rewrite rev_app_distr. by eexists. }
    rewrite Hr in Hk |- *. pose proof (join_nonempty "/" ".." r) as Hne.
    specialize (Hne ltac:(done)). apply String.eqb_neq in Hne. rewrite Hne.
    rewrite split_join; [done|done|]. eapply Forall_impl; [exact Hk|]. by intros ? (? & ? & ?).
Qed.

(** The validation computes the meaning of the path. *)
Lemma validate_Ret s p :
  validateTemplateSourcePath s = Ret p ↔
  contains_char "\" s = false ∧ has_prefix "/" s = false ∧
  ∃ l, resolve [] (split "/" s) = Some l ∧ l ≠ [] ∧ p = join "/" l.
Proof.
  unfold validateTemplateSourcePath. split.
  - intros H. inv_outcome H. bool_simpl. split; [done|].
    destruct (has_prefix "/" s) eqn:Hroot.
    { exfalso. unfold path_clean in *. rewrite Hroot in *.
      destruct (String.eqb s ""); [done|]. destruct s; done. }
    split; [done|]. pose proof (path_clean_relative s Hroot) as Hc.
    specialize (Hc ltac:(done)).
    destruct (resolve [] (split "/" s)) as [[|y r]|]; [congruence| |congruence].
    exists (y :: r). done.
  - intros (Hb & Hroot & l & Hl & Hne & ->).
    assert (s ≠ "") as Hs. { intros ->. cbn in Hl. by injection Hl as <-. }
    pose proof (path_clean_relative s Hroot Hs) as Hc. rewrite Hl in Hc.
    destruct l as [|x l]; [done|].
    pose proof (resolve_plain _ [] _ (Forall_nil_2 _) (split_no_char "/" s) Hl) as Hpl.
    apply join_plain in Hpl as (Hsp & He1 & He2 & He3 & He4 & He5 & He6).
    assert (join "/" (x :: l) ≠ "/") as He7. { intros E. rewrite E in He3. done. }
    apply String.eqb_neq in Hs, He2, He5, He7.
    rewrite Hs, Hb, Hc, Hsp, He2, He3, He4, He5, He6, He7. reflexivity.
Qed.

Lemma validate_safe s p :
  validateTemplateSourcePath s = Ret p →
  Forall plain_elem (split "/" p) ∧ contains_char "\" p = false ∧
  validateTemplateSourcePath p = Ret p.
Proof.
  intros (Hb & Hroot & l & Hl & Hne & ->)%validate_Ret.
  pose proof (resolve_plain _ [] _ (Forall_nil_2 _) (split_no_char "/" s) Hl) as Hpl.
  destruct l as [|x l]; [done|]. pose proof (join_plain x l Hpl) as (Hsp & _ & _ & He3 & _).
  assert (contains_char "\" (join "/" (x :: l)) = false) as Hbs.
  { apply contains_char_join; [done|].
    eapply (resolve_elems (λ e, contains_char "\" e = false)); [constructor| |exact Hl].
    by apply contains_char_split. }
  split_and!; [by rewrite Hsp|done|]. apply validate_Ret. split_and!; [done..|].
  exists (x :: l). split_and!; [|done..]. rewrite Hsp. clear -Hpl.
  enough (∀ k, resolve k (x :: l) = Some (rev k ++ x :: l)) as H by apply (H []).
  induction Hpl as [|y m [(H1 & H2 & _) H3] Hm IH]; intros k; cbn; [by rewrite app_nil_r|].
  apply String.eqb_neq in H1, H2, H3. rewrite H1, H2, H3. cbn. rewrite IH. cbn.
  by rewrite <-app_assoc.
Qed.

Lemma validate_no_panic s e : validateTemplateSourcePath s ≠ Panic e.
Proof.
  unfold validateTemplateSourcePath. intros H.
  repeat (apply outcome_bind_Panic in H as [H|(? & _ & H)];
    [by apply fail_if_Panic in H|try (by discriminate H)]).
Qed.

(** C28: no path traversal.  [validateTemplateSourcePath] accepts a path exactly
    when it has no backslash, is not absolute, and walking its elements from
    the root never leaves the root and ends below it; it returns the path of the
    place the walk ends at.  A returned path has only plain elements (none is
    empty, a dot or a parent), no backslash, and validates to itself, so
    normalizing twice changes nothing. *)
Theorem validateTemplateSourcePath_safe (s p : string) :
  (validateTemplateSourcePath s = Ret p ↔
     contains_char "\" s = false ∧ has_prefix "/" s = false ∧
     ∃ l, resolve [] (split "/" s) = Some l ∧ l ≠ [] ∧ p = join "/" l) ∧
  (validateTemplateSourcePath s = Ret p →
     Forall plain_elem (split "/" p) ∧ contains_char "\" p = false ∧
     validateTemplateSourcePath p = Ret p) ∧
  (∀ e, validateTemplateSourcePath s ≠ Panic e).
Proof.
  split; [apply validate_Ret|]. split; [apply validate_safe|apply validate_no_panic].
Qed.

Lemma validateTemplateSourcePath_safe_witness :
  validateTemplateSourcePath "modules/./x/..//main.tf" = Ret "modules/main.tf" ∧
  validateTemplateSourcePath "modules/main.tf" = Ret "modules/main.tf".
Proof.
  split; [vm_compute; reflexivity|].
  apply (validateTemplateSourcePath_safe "modules/./x/..//main.tf" "modules/main.tf").
  vm_compute; reflexivity.
Defined.

(** ** Properties of the archives *)

(** The total size of a list of files. *)
Fixpoint total_len (l : list (string * string)) : Z :=
  match l with
  | [] => 0
  | e :: l => slen e.2 + total_len l
  end.

Lemma total_len_app l1 l2 : total_len (l1 ++ l2) = (total_len l1 + total_len l2)%Z.
Proof. induction l1 as [|e l1 IH]; cbn; [done|]. rewrite IH. lia. Qed.

Lemma total_len_nonneg l : (0 ≤ total_len l)%Z.
Proof. induction l as [|e l IH]; cbn; [lia|]. pose proof (slen_nonneg e.2). lia. Qed.

#[global] Instance total_len_proper : Proper ((≡ₚ) ==> (=)) total_len.
Proof. induction 1; cbn; lia. Qed.

Lemma is_nil_None_true {A} (o : option A) : negb (is_nil o) = false ↔ o = None.
Proof. by destruct o. Qed.

Lemma wrap_path_Ret {A} f p (r : result A) a : wrap_path f p r = Ret a ↔ r = Ret a.
Proof. destruct r; cbn; naive_solver. Qed.

Lemma validate_key k p :
  validateTemplateSourcePath k = Ret p → validateTemplateSourcePath p = Ret p.
Proof. intros H. by apply (validate_safe k). Qed.

Lemma checkSourceFile_Ret p c t t' :
  checkSourceFile p c t = Ret t' ↔
  utf8_valid c = true ∧ (slen c ≤ maxTemplateSourceFileBytes)%Z ∧ t' = (t + slen c)%Z ∧
  (t' ≤ maxTemplateSourceTotalUncompressedBytes)%Z.
Proof.
  unfold checkSourceFile. split.
  - intros H. inv_outcome H. bool_simpl. done.
  - intros (Hu & Hs & -> & Ht). unfold fail_if. rewrite Hu. cbn -[maxTemplateSourceFileBytes].
    apply Z.ltb_ge in Hs, Ht. by rewrite Hs, Ht.
Qed.

(** An entry that the readers accept under its own name. *)
Definition good_entry (e : FileHeader * string) : Prop :=
  validateTemplateSourcePath (fh_Name e.1) = Ret (fh_Name e.1) ∧
  fh_attrDir e.1 = false ∧ (slen e.2 ≤ maxTemplateSourceFileBytes)%Z.

Lemma join_snoc_empty d l : l ≠ [] → join d (l ++ [""]) = join d l +:+ String d "".
Proof.
  induction l as [|x l IH]; [done|]. intros _. destruct l as [|y l].
  - done.
  - change ((x :: y :: l) ++ [""]) with (x :: ((y :: l) ++ [""])).
    rewrite !join_cons by done. rewrite IH by done.
    by rewrite Uuid.append_assoc.
Qed.

(** A normalized path does not look like a directory. *)
Lemma validate_not_dir k p : validateTemplateSourcePath k = Ret p → has_suffix "/" p = false.
Proof.
  intros (Hpl & _ & _)%validate_safe. destruct (has_suffix "/" p) eqn:Hs; [|done]. exfalso.
  unfold has_suffix in Hs. bool_simpl. cbn [String.length] in *.
  set (q := stake (String.length p - 1) p).
  assert (p = q +:+ "/") as Hp.
  { rewrite <-(stake_sdrop (String.length p - 1) p) at 1. unfold q. f_equal. done. }
  assert (split "/" p = split "/" q ++ [""]) as Hsp.
  { rewrite Hp, <-(join_split "/" q) at 1. rewrite <-join_snoc_empty by apply split_nonempty.
    apply split_join; [by destruct (split "/" q)|].
    apply Forall_app. split; [apply split_no_char|by repeat constructor]. }
  rewrite Hsp in Hpl. apply Forall_app in Hpl as [_ [[[? _] _] _]%Forall_cons]. done.
Qed.

Lemma good_entry_not_dir e : good_entry e → IsDir e.1 = false.
Proof.
  intros (Hv & Ha & _). unfold IsDir. rewrite Ha. by apply validate_not_dir in Hv.
Qed.

(** Reading back an entry of admissible size. *)
Lemma readSourceEntry_reads p zf e :
  reads_as (Some zf) e → (slen e.2 ≤ maxTemplateSourceFileBytes)%Z →
  readSourceEntry p zf = Ret e.2.
Proof.
  intros (? & [= <-] & _ & _ & Hsz & Ho) Hle. unfold readSourceEntry.
  rewrite Hsz, Ho. apply Z.ltb_ge in Hle as Hltb. unfold fail_if. rewrite Hltb.
  cbn -[maxTemplateSourceFileBytes]. unfold read_limited.
  destruct (Z.leb_spec (maxTemplateSourceFileBytes + 1) (slen e.2)); [lia|].
  cbn -[maxTemplateSourceFileBytes]. by rewrite Hltb.
Qed.

Lemma addTotal_Ret t c t' :
  addTotal t c = Ret t' ↔
  t' = (t + slen c)%Z ∧ (t' ≤ maxTemplateSourceTotalUncompressedBytes)%Z.
Proof.
  unfold addTotal. split.
  - intros H. inv_outcome H. bool_simpl. done.
  - intros [-> Hle%Z.ltb_ge]. unfold fail_if. by rewrite Hle.
Qed.

(** The name and contents of an entry. *)
Definition pair_of (e : FileHeader * string) : string * string := (fh_Name e.1, e.2).

(** One archive file that holds a good entry with a new name. *)
Lemma extractFile_good ex f e :
  reads_as f e → good_entry e → fh_Name e.1 ∉ seenPaths ex →
  (ex_total ex + slen e.2 ≤ maxTemplateSourceTotalUncompressedBytes)%Z →
  extractFile ex f = Ret (Extraction
    (if utf8_valid e.2 then <[fh_Name e.1 := e.2]> (ex_files ex) else ex_files ex)
    ({[fh_Name e.1]} ∪ seenPaths ex) (ex_total ex + slen e.2)).
Proof.
  intros Hr Hg Hnew Hle. pose proof Hr as (zf & -> & Hn & Ha & _).
  pose proof Hg as (Hv & Hd & Hsz). pose proof (good_entry_not_dir e Hg) as Hdir.
  assert (IsDir (zf_header zf) = false) as Hdir'.
  { unfold IsDir in *. by rewrite Ha, Hn. }
  unfold extractFile. rewrite Hdir', Hn, Hv. cbn [wrap_path].
  cbn -[readSourceEntry addTotal utf8_valid]. rewrite bool_decide_false by done.
  unfold fail_if. cbn -[readSourceEntry addTotal utf8_valid].
  rewrite (readSourceEntry_reads _ _ e Hr Hsz). cbn -[addTotal utf8_valid].
  rewrite (proj2 (addTotal_Ret _ _ _) (conj eq_refl Hle)). cbn -[utf8_valid].
  by destruct (utf8_valid e.2).
Qed.

Lemma extract_entries es : ∀ fs ex,
  Forall2 reads_as fs es → Forall good_entry es → NoDup (map pair_of es).*1 →
  (∀ p, p ∈ (map pair_of es).*1 → p ∉ seenPaths ex) →
  (∀ p c, ex_files ex !! p = Some c → p ∈ seenPaths ex) →
  (ex_total ex + total_len (map pair_of es) ≤ maxTemplateSourceTotalUncompressedBytes)%Z →
  ∃ ex', mfold extractFile ex fs = Ret ex' ∧
    ∀ p c, ex_files ex' !! p = Some c ↔
      ex_files ex !! p = Some c ∨ ((p, c) ∈ map pair_of es ∧ utf8_valid c = true).
Proof.
  induction es as [|e es IH]; intros fs ex Hfs Hg Hnd Hnew Hseen Hle.
  { inversion Hfs; subst. exists ex. split; [done|]. intros. cbn. rewrite elem_of_nil. tauto. }
  inversion Hfs as [|f ? fs' ? Hf Hfs']; subst. apply Forall_cons in Hg as [He Hg].
  cbn [map fmap list_fmap] in *. apply NoDup_cons in Hnd as [Hni Hnd]. cbn [total_len] in Hle.
  pose proof (total_len_nonneg (map pair_of es)). cbn [pair_of snd fst] in *.
  cbn [mfold]. rewrite (extractFile_good ex f e); [|done..|apply Hnew; by left|lia]. cbn [mbind outcome_mbind outcome_bind].
  edestruct (IH fs') as (ex' & -> & Hex'); [done..| | | |].
  4: { exists ex'. split; [done|]. intros p c. rewrite Hex'. clear -Hseen Hnew. cbn.
       specialize (Hnew (fh_Name e.1) ltac:(by left)).
       rewrite elem_of_cons. unfold pair_of at 2. destruct (utf8_valid e.2) eqn:Hu.
       - destruct (decide (fh_Name e.1 = p)) as [<-|Hne].
         + rewrite lookup_insert_eq. split; [naive_solver|].
           intros [Hc%Hseen|[[[= ->]|] ?]]; [done|by left|by right].
         + rewrite lookup_insert_ne by done. naive_solver.
       - split; [naive_solver|]. intros [|[[[= -> ->]|] ?]]; [by left|congruence|by right]. }
  - intros p Hp. cbn. apply not_elem_of_union. split; [|apply Hnew; by right].
    rewrite elem_of_singleton. by intros ->.
  - intros p c. cbn. rewrite elem_of_union, elem_of_singleton.
    destruct (utf8_valid e.2); [|intros ?%Hseen; by right].
    destruct (decide (fh_Name e.1 = p)) as [<-|Hne]; [by left|].
    rewrite lookup_insert_ne by done. intros ?%Hseen; by right.
  - cbn. lia.
Qed.

Section archive_properties.
Context {ZA : ZipArchive} {ZL : ZipLaws ZA}.
Context (range : ∀ V : Type, gmap string V → list (string * V)).
Context (Hrange : ∀ V (m : gmap string V), range V m ≡ₚ map_to_list m).

(** What reading a list of archive files yields: non-UTF-8 contents under a
    normalized path. *)
Definition holds (fs : list (option zip_file)) (p c : string) : Prop :=
  ∃ zf, Some zf ∈ fs ∧ IsDir (zf_header zf) = false ∧
    validateTemplateSourcePath (fh_Name (zf_header zf)) = Ret p ∧ readSourceEntry p zf = Ret c.

Lemma writeEntry_entries fmt w p h c w' :
  writeEntry fmt w p h c = Ret w' → zw_entries w' = zw_entries w ++ [(h, c)].
Proof.
  unfold writeEntry. rewrite outcome_bind_Ret. intros (w1 & H1 & H2).
  apply wrap_path_Ret in H1, H2. apply zw_entries_CreateHeader in H1.
  by rewrite (zw_entries_Write _ _ _ _ _ _ H2 H1).
Qed.

(** A loop that writes one entry per path. *)
Lemma write_loop (P : string → FileHeader * string → Prop) (step : zwriter → string → result zwriter)
    paths w w' :
  (∀ w p w', p ∈ paths → step w p = Ret w' →
     ∃ e, zw_entries w' = zw_entries w ++ [e] ∧ P p e) →
  mfold step w paths = Ret w' →
  ∃ es, zw_entries w' = zw_entries w ++ es ∧ Forall2 P paths es.
Proof.
  revert w. induction paths as [|p paths IH]; intros w Hstep; cbn [mfold].
  - intros [= <-]. exists []. by rewrite app_nil_r.
  - intros (w1 & (e & He & HP)%Hstep & H)%outcome_bind_Ret; [|by left].
    apply IH in H as (es & Hes & HPs); [|intros; apply Hstep; [by right|done]].
    exists (e :: es). split; [|by constructor]. by rewrite Hes, He, <-app_assoc.
Qed.

Lemma finishZip_Ret w z :
  finishZip w = Ret z →
  (slen z ≤ maxTemplateSourceZipBytes)%Z ∧
  ∃ fs, zr_File z = Ret fs ∧ Forall2 reads_as fs (zw_entries w).
Proof.
  unfold finishZip. intros (z' & Hz & H)%outcome_bind_Ret. inv_outcome H. bool_simpl.
  split; [done|]. destruct (zw_Close w) eqn:Hc; try discriminate Hz. injection Hz as ->.
  by apply zr_File_Close.
Qed.

Lemma openSourceZip_Ret z fs :
  zr_File z = Ret fs → (zlen fs ≤ maxTemplateSourceFiles)%Z → openSourceZip z = Ret fs.
Proof.
  unfold openSourceZip. intros -> H%Z.ltb_ge. cbn -[maxTemplateSourceFiles]. by rewrite H.
Qed.

(** A finished archive whose entries are good and fit the limits reads back. *)
Lemma archive_reads_back w z es :
  finishZip w = Ret z → zw_entries w = es → Forall good_entry es →
  NoDup (map pair_of es).*1 →
  (total_len (map pair_of es) ≤ maxTemplateSourceTotalUncompressedBytes)%Z →
  (zlen es ≤ maxTemplateSourceFiles)%Z →
  ∃ fs m, openSourceZip z = Ret fs ∧ extractFiles z = Ret m ∧
    (∀ p c, m !! p = Some c ↔ (p, c) ∈ map pair_of es ∧ utf8_valid c = true) ∧
    (∀ p c, holds fs p c ↔ (p, c) ∈ map pair_of es).
Proof.
  intros Hfin Hes Hgood Hnd Htot Hlen. apply finishZip_Ret in Hfin as (_ & fs & Hfs & Hr).
  rewrite Hes in Hr. assert (openSourceZip z = Ret fs) as Hopen.
  { apply openSourceZip_Ret; [done|]. unfold zlen in *. by rewrite (Forall2_length _ _ _ Hr). }
  destruct (extract_entries es fs (Extraction ∅ ∅ 0)) as (ex & Hex & Hl);
    [done..|set_solver|set_solver|done|].
  exists fs, (ex_files ex). split_and!; [done| | |].
  - unfold extractFiles. rewrite Hopen. cbn. by rewrite Hex.
  - intros p c. rewrite Hl. cbn. rewrite lookup_empty. naive_solver.
  - clear -Hr Hgood. intros p c. split.
    + intros (zf & Hin & Hd & Hv & Hrd).
      apply list_elem_of_lookup_1 in Hin as [i Hi].
      destruct (Forall2_lookup_l _ _ _ _ _ Hr Hi) as (e & He & Hre).
      pose proof (Forall_lookup_1 _ _ _ _ Hgood He) as (Hve & _ & Hsz).
      pose proof Hre as (? & [= <-] & Hn & _).
      rewrite (readSourceEntry_reads p zf e Hre Hsz) in Hrd. injection Hrd as <-.
      rewrite Hn, Hve in Hv. injection Hv as <-.
      apply list_elem_of_fmap. exists e. split; [done|]. by eapply list_elem_of_lookup_2.
    + intros (e & [= -> ->] & He)%list_elem_of_fmap.
      apply list_elem_of_lookup_1 in He as [i Hi].
      destruct (Forall2_lookup_r _ _ _ _ _ Hr Hi) as (f & Hf & Hre).
      pose proof (Forall_lookup_1 _ _ _ _ Hgood Hi) as Hg.
      pose proof Hre as (zf & -> & Hn & Ha & _). exists zf.
      split; [by eapply list_elem_of_lookup_2|]. split.
      * pose proof (good_entry_not_dir _ Hg) as Hd. unfold IsDir in *. by rewrite Hn, Ha.
      * rewrite Hn. destruct Hg as (Hv & _ & Hsz). split; [done|].
        by apply readSourceEntry_reads.
Qed.

(** *** Normalizing the keys *)

Lemma normalize_loop l m0 m :
  mfold normalizeFileKey m0 l = Ret m →
  ∀ p c, m !! p = Some c ↔
    m0 !! p = Some c ∨ ∃ k, (k, c) ∈ l ∧ validateTemplateSourcePath k = Ret p.
Proof.
  revert m0. induction l as [|[k v] l IH]; intros m0; cbn [mfold].
  - intros [= <-] p c. setoid_rewrite elem_of_nil. naive_solver.
  - cbn [normalizeFileKey]. destruct (validateTemplateSourcePath k) as [q|e|e] eqn:Hv; [|discriminate..].
    intros H. inv_outcome H. apply is_nil_None_true in Hx0.
    intros p c. rewrite (IH _ H p c). setoid_rewrite elem_of_cons.
    destruct (decide (q = p)) as [<-|Hne].
    + rewrite lookup_insert_eq. split; [naive_solver|].
      intros [|(k' & [[= -> ->]|] & ?)]; [congruence|by left|eauto].
    + rewrite lookup_insert_ne by done. split; [naive_solver|].
      intros [|(k' & [[= -> ->]|] & Hk)]; [by left|congruence|eauto].
Qed.

Lemma normalizeFileKeys_Ret files m :
  normalizeFileKeys range (Some files) = Ret m →
  (∀ p c, m !! p = Some c ↔ ∃ k, files !! k = Some c ∧ validateTemplateSourcePath k = Ret p) ∧
  (∀ p c, m !! p = Some c → validateTemplateSourcePath p = Ret p).
Proof.
  intros H. assert (∀ p c, m !! p = Some c ↔
    ∃ k, files !! k = Some c ∧ validateTemplateSourcePath k = Ret p) as Hm.
  { intros p c. rewrite (normalize_loop _ _ _ H p c), lookup_empty.
    setoid_rewrite Hrange. setoid_rewrite elem_of_map_to_list. naive_solver. }
  split; [done|]. intros p c (k & _ & Hk)%Hm. by eapply validate_key.
Qed.

(** Normal keys normalize to themselves. *)
Lemma normalize_normal files m :
  normalizeFileKeys range (Some files) = Ret m →
  (∀ p c, files !! p = Some c → validateTemplateSourcePath p = Ret p) → m = files.
Proof.
  intros [Hm _]%normalizeFileKeys_Ret Hn. apply map_eq. intros p.
  apply option_eq. intros c. rewrite Hm. split.
  - intros (k & Hk & Hv). rewrite (Hn _ _ Hk) in Hv. by injection Hv as ->.
  - intros Hp. exists p. eauto.
Qed.

(** What is read of an archive has normal keys. *)
Lemma extract_normal z files :
  extractFiles z = Ret files → ∀ p c, files !! p = Some c → validateTemplateSourcePath p = Ret p.
Proof.
  intros (fs & _ & (ex & Hex & [= <-])%outcome_bind_Ret)%outcome_bind_Ret.
  assert (∀ p c, ex_files (Extraction ∅ ∅ 0) !! p = Some c → validateTemplateSourcePath p = Ret p) as H0
    by (intros p c H; cbn in H; by rewrite lookup_empty in H).
  revert Hex H0. generalize (Extraction ∅ ∅ 0). induction fs as [|f fs IH]; intros ex0; cbn [mfold].
  { by intros [= ->]. }
  intros (ex1 & Hstep & Hex)%outcome_bind_Ret H0. apply (IH _ Hex). clear IH Hex.
  destruct f as [f|]; [|discriminate]. cbn [extractFile] in Hstep.
  destruct (IsDir (zf_header f)); [by injection Hstep as <-|]. inv_outcome Hstep.
  apply wrap_path_Ret, validate_key in Hx. destruct (negb _); injection Hstep as <-; [done|]. cbn.
  intros p c [[<- _]|[_ H]]%lookup_insert_Some; [done|by eapply H0].
Qed.
Lemma fetch_normal {W} (sdk : client → ∀ r : request, M W goerror (response r)) ReadBodyAsError ctx c v st files st' :
  fetchTemplateSourceFiles sdk ReadBodyAsError ctx c v st = (Ret files, st') →
  ∀ p c, files !! p = Some c → validateTemplateSourcePath p = Ret p.
Proof.
  unfold fetchTemplateSourceFiles. intros H. do 3 (apply M_bind_Ret in H as (? & ? & _ & H)).
  apply M_bind_Ret in H as (z & ? & _ & [H _]%lift_Ret). by eapply extract_normal.
Qed.

(** *** buildSourceZip *)

(** The loop over the requested files normalizes and checks them. *)
Lemma collect_loop l m0 ps0 t0 m ps t :
  mfold collectSourceFile (m0, ps0, t0) l = Ret (m, ps, t) →
  mfold normalizeFileKey m0 l = Ret m ∧
  (∃ new, m = list_to_map new ∪ m0 ∧ list_to_map new ##ₘ m0 ∧ NoDup new.*1 ∧
    ps = ps0 ++ new.*1 ∧ length new = length l ∧ t = (t0 + total_len new)%Z ∧
    Forall (λ e, validateTemplateSourcePath e.1 = Ret e.1 ∧ utf8_valid e.2 = true ∧
                 (slen e.2 ≤ maxTemplateSourceFileBytes)%Z) new) ∧
  (l = [] ∨ t ≤ maxTemplateSourceTotalUncompressedBytes)%Z.
Proof.
  revert m0 ps0 t0. induction l as [|[k v] l IH]; intros m0 ps0 t0; cbn [mfold].
  { intros [= <- <- <-]. split; [done|]. split; [|by left]. exists []. cbn.
    rewrite app_nil_r. split_and!; try done.
    - by rewrite map_empty_union.
    - apply map_disjoint_empty_l.
    - constructor.
    - lia. }
  cbn [collectSourceFile normalizeFileKey].
  destruct (validateTemplateSourcePath k) as [q|e|e] eqn:Hv; [|discriminate..].
  intros H. inv_outcome H. apply is_nil_None_true in Hx0 as Hq.
  match goal with H : checkSourceFile _ _ _ = _ |- _ =>
    apply checkSourceFile_Ret in H as (Hu & Hsz & -> & Hle) end.
  apply IH in H as (Hnorm & (new & -> & Hdisj & Hnd & -> & Hlen & -> & Hall) & Hb).
  rewrite Hx0. split; [exact Hnorm|].
  apply map_disjoint_insert_r in Hdisj as [Hqn Hdisj].
  assert (q ∉ new.*1) as Hqn' by by apply not_elem_of_list_to_map_2.
  split.
  - exists ((q, v) :: new). cbn. rewrite Hlen. split_and!; try done.
    + by rewrite <-insert_union_r, insert_union_l.
    + by apply map_disjoint_insert_l.
    + by apply NoDup_cons.
    + by rewrite <-app_assoc.
    + lia.
    + constructor; [|done]. split_and!; [by eapply validate_key|done..].
  - right. destruct Hb as [->|]; [|done]. destruct new; [|done]. cbn. lia.
Qed.

(** The entry written for a path of the tree [M]. *)
Definition entry_of (M : gmap string string) (p : string) (e : FileHeader * string) : Prop :=
  fh_Name e.1 = p ∧ fh_attrDir e.1 = false ∧ M !! p = Some e.2.

Lemma pairs_of_paths M paths es :
  paths ≡ₚ (map_to_list M).*1 → Forall2 (entry_of M) paths es →
  map pair_of es ≡ₚ map_to_list M ∧ NoDup (map pair_of es).*1.
Proof.
  intros Hp Hes.
  assert ((map pair_of es).*1 = paths) as Hfst.
  { clear Hp. induction Hes as [|p e ps es [Hn _] _ IH]; cbn; [done|]. by rewrite Hn, <-IH. }
  assert (NoDup (map pair_of es).*1) as Hnd.
  { rewrite Hfst, Hp. apply NoDup_fst_map_to_list. }
  split; [|done]. apply NoDup_Permutation; [by eapply NoDup_fmap_1|apply NoDup_map_to_list|].
  intros [p c]. rewrite elem_of_map_to_list. split.
  - intros (e & [= -> ->] & He)%list_elem_of_fmap.
    apply list_elem_of_lookup_1 in He as [i Hi].
    destruct (Forall2_lookup_r _ _ _ _ _ Hes Hi) as (? & _ & <- & _ & ?). done.
  - intros Hc. assert (p ∈ paths) as Hpin.
    { rewrite Hp. apply list_elem_of_fmap. exists (p, c). split; [done|].
      by apply elem_of_map_to_list. }
    apply list_elem_of_lookup_1 in Hpin as [i Hi].
    destruct (Forall2_lookup_l _ _ _ _ _ Hes Hi) as (e & He & Hn & _ & Hc').
    apply list_elem_of_fmap. exists e. split; [|by eapply list_elem_of_lookup_2].
    unfold pair_of. rewrite Hn. congruence.
Qed.

(** A tree within the limits, written under its own paths, reads back. *)
Lemma tree_reads_back M paths w z :
  finishZip w = Ret z → paths ≡ₚ (map_to_list M).*1 → Forall2 (entry_of M) paths (zw_entries w) →
  (∀ p c, M !! p = Some c →
     validateTemplateSourcePath p = Ret p ∧ (slen c ≤ maxTemplateSourceFileBytes)%Z) →
  (total_len (map_to_list M) ≤ maxTemplateSourceTotalUncompressedBytes)%Z →
  (msize M ≤ maxTemplateSourceFiles)%Z →
  ∃ fs m, openSourceZip z = Ret fs ∧ extractFiles z = Ret m ∧
    (∀ p c, m !! p = Some c ↔ M !! p = Some c ∧ utf8_valid c = true) ∧
    (∀ p c, holds fs p c ↔ M !! p = Some c).
Proof.
  intros Hfin Hp Hes Hgood Htot Hsize.
  destruct (pairs_of_paths M paths (zw_entries w) Hp Hes) as [Hperm Hnd].
  destruct (archive_reads_back w z (zw_entries w)) as (fs & m & Hopen & Hex & Hm & Hh); try done.
  - apply Forall_lookup_2. intros i e Hi.
    destruct (Forall2_lookup_r _ _ _ _ _ Hes Hi) as (p & _ & Hn & Ha & Hc).
    destruct (Hgood _ _ Hc). unfold good_entry. by rewrite Hn.
  - by rewrite Hperm.
  - unfold zlen, msize in *. rewrite <-(Forall2_length _ _ _ Hes), Hp, length_fmap.
    by rewrite length_map_to_list.
  - exists fs, m. split_and!; [done..| |].
    + intros p c. by rewrite Hm, Hperm, elem_of_map_to_list.
    + intros p c. by rewrite Hh, Hperm, elem_of_map_to_list.
Qed.

(** What the two loops of [buildSourceZip] establish before the writer is
    closed. *)
Lemma buildSourceZip_Ret files z :
  buildSourceZip range (Some files) = Ret z →
  ∃ m w paths, normalizeFileKeys range (Some files) = Ret m ∧ finishZip w = Ret z ∧
    paths ≡ₚ (map_to_list m).*1 ∧ Forall2 (entry_of m) paths (zw_entries w) ∧
    (∀ p c, m !! p = Some c → utf8_valid c = true ∧
       validateTemplateSourcePath p = Ret p ∧ (slen c ≤ maxTemplateSourceFileBytes)%Z) ∧
    (total_len (map_to_list m) ≤ maxTemplateSourceTotalUncompressedBytes)%Z ∧
    (msize m ≤ maxTemplateSourceFiles)%Z.
Proof.
  unfold buildSourceZip. intros H. inv_outcome H. rename Hx0 into Hcol, x0 into r.
  apply Z.ltb_ge in Hx. destruct r as [[m ps] t].
  apply collect_loop in Hcol as (Hnorm & (new & Hm & _ & Hnd & -> & Hlen & -> & Hall) & Hb).
  rewrite map_union_empty in Hm. inv_outcome H. rename Hx0 into Hw, x0 into w.
  pose proof (map_to_list_to_map (M := gmap string) new Hnd) as Hperm. rewrite <-Hm in Hperm.
  exists m, w, (sort_strings new.*1). split; [done|]. split; [done|].
  split; [by rewrite sort_strings_perm, Hperm|]. split_and!.
  - apply (write_loop (entry_of m)) in Hw as (es & -> & Hes); [by rewrite zw_entries_new|].
    intros w1 p w2 Hp Hwr%writeEntry_entries. eexists. split; [exact Hwr|].
    split; [done|]. split; [done|]. cbn.
    rewrite (elem_of_Permutation_proper _ _ _ (sort_strings_perm _)) in Hp.
    apply list_elem_of_fmap in Hp as ([q c] & -> & Hin). cbn.
    rewrite Hm. by rewrite (elem_of_list_to_map_1 _ q c Hnd Hin).
  - intros p c Hc. rewrite Forall_forall in Hall. apply elem_of_map_to_list in Hc.
    rewrite Hperm in Hc. destruct (Hall _ Hc) as (? & ? & ?). done.
  - rewrite Hperm. destruct Hb as [Hnil|]; [|lia]. rewrite Hnil in Hlen.
    destruct new; [vm_compute; discriminate|done].
  - unfold msize in *. rewrite <-length_map_to_list, Hperm, Hlen, Hrange.
    by rewrite length_map_to_list.
Qed.

(** C25: a source archive round-trips.  When [buildSourceZip] accepts a file
    map, the archive is within the download limit and extracting it, with all
    the limits and checks of [fetchTemplateSourceFiles], succeeds and returns
    exactly the map with normalized keys: the map itself when its keys are
    already normal.  This holds for every iteration order of Go maps. *)
Theorem buildSourceZip_roundtrip (files : gmap string string) (z : string)
    (Hbuild : buildSourceZip range (Some files) = Ret z) :
  ∃ m, normalizeFileKeys range (Some files) = Ret m ∧ extractFiles z = Ret m ∧
    (slen z ≤ maxTemplateSourceZipBytes)%Z ∧
    ((∀ p c, files !! p = Some c → validateTemplateSourcePath p = Ret p) → m = files).
Proof.
  apply buildSourceZip_Ret in Hbuild as (m & w & paths & Hn & Hfin & Hp & Hes & Hgood & Ht & Hs).
  destruct (tree_reads_back m paths w z) as (fs & m' & _ & Hex & Hm' & _); try done.
  { intros p c Hc. by apply Hgood. }
  exists m. split; [done|]. split_and!.
  - rewrite Hex. f_equal. apply map_eq. intros p. apply option_eq. intros c.
    rewrite Hm'. split; [by intros [? _]|]. intros Hc. split; [done|]. by eapply Hgood.
  - by apply finishZip_Ret in Hfin as [? _].
  - by apply normalize_normal.
Qed.

(** *** buildMergedSourceZip *)

Lemma readSourceEntry_Ret p f c :
  readSourceEntry p f = Ret c → (slen c ≤ maxTemplateSourceFileBytes)%Z.
Proof.
  unfold readSourceEntry. intros H. inv_outcome H.
  repeat match goal with H : (_ <? _)%Z = false |- _ => apply Z.ltb_ge in H end. done.
Qed.

Lemma holds_snoc fs zf p c :
  holds (fs ++ [Some zf]) p c ↔
  holds fs p c ∨ (IsDir (zf_header zf) = false ∧
    validateTemplateSourcePath (fh_Name (zf_header zf)) = Ret p ∧ readSourceEntry p zf = Ret c).
Proof.
  unfold holds. split.
  - intros (g & [Hg|Hg%list_elem_of_singleton]%elem_of_app & H); [left; by exists g|right].
    by injection Hg as ->.
  - intros [(g & Hg & H)|H]; [exists g|exists zf]; (split; [apply elem_of_app|done]);
      [by left|right; by apply list_elem_of_singleton].
Qed.

(** The contents of the preserved entries. *)
Definition preserved_tree (s : scan) : gmap string string := fst <$> preservedBinaryFiles s.

Record scan_inv (desired : gmap string string) (done : list (option zip_file)) (s : scan) : Prop := {
  si_sound p c h : preservedBinaryFiles s !! p = Some (c, h) →
    holds done p c ∧ desired !! p = None ∧ utf8_valid c = false ∧ fh_attrDir h = false;
  si_complete p c : holds done p c → desired !! p = None → utf8_valid c = false →
    ∃ h, preservedBinaryFiles s !! p = Some (c, h);
  si_headers p h : originalHeaders s !! p = Some h → fh_attrDir h = false;
  si_seen p c : holds done p c → ∃ h, originalHeaders s !! p = Some h;
  si_total : (total_len (map_to_list (preserved_tree s)) ≤ scan_total s ≤
              maxTemplateSourceTotalUncompressedBytes)%Z
}.

Lemma scan_inv_init desired : scan_inv desired [] (Scan ∅ ∅ 0).
Proof.
  assert (∀ p c, ¬ holds [] p c) as Hno by by intros p c (zf & Hin%elem_of_nil & _).
  constructor; cbn; try (intros; by rewrite ?lookup_empty in *); try (by intros p c ?%Hno).
Qed.

Lemma scan_inv_step desired fs f s s' :
  scan_inv desired fs s → scanOriginal desired s f = Ret s' → scan_inv desired (fs ++ [f]) s'.
Proof.
  intros [Hso Hco Hh Hse Ht]. destruct f as [zf|]; [|discriminate]. cbn [scanOriginal].
  destruct (IsDir (zf_header zf)) eqn:Hdir.
  { intros [= <-]. constructor; try done; intros p c; setoid_rewrite holds_snoc; rewrite Hdir.
    - intros h Hp%Hso. naive_solver.
    - intros [|[? _]]; [by eauto|done].
    - intros [|[? _]]; [by eauto|done]. }
  assert (fh_attrDir (zf_header zf) = false) as Hattr by (unfold IsDir in Hdir; by apply orb_false_iff in Hdir as [? _]).
  intros H. apply outcome_bind_Ret in H as (q & Hq%wrap_path_Ret & H).
  apply outcome_bind_Ret in H as ([] & Hfresh%fail_if_Ret%is_nil_None_true & H).
  assert (∀ c, ¬ holds fs q c) as Hno.
  { intros c [h Hc]%Hse. congruence. }
  assert (∀ p c, holds (fs ++ [Some zf]) p c ↔
            holds fs p c ∨ (p = q ∧ readSourceEntry q zf = Ret c)) as Hsnoc.
  { intros p c. rewrite holds_snoc, Hq. naive_solver. }
  assert (∀ p h, <[q:=set_header_name q (zf_header zf)]> (originalHeaders s) !! p = Some h →
            fh_attrDir h = false) as Hh'.
  { intros p h. destruct (decide (q = p)) as [<-|]; [rewrite lookup_insert_eq|rewrite lookup_insert_ne by done; eauto].
    by intros [= <-]. }
  assert (∀ p c, holds (fs ++ [Some zf]) p c →
     ∃ h, <[q:=set_header_name q (zf_header zf)]> (originalHeaders s) !! p = Some h) as Hse'.
  { intros p c. rewrite Hsnoc. destruct (decide (q = p)) as [<-|].
    - rewrite lookup_insert_eq. eauto.
    - rewrite lookup_insert_ne by done. intros [|[? _]]; [eauto|congruence]. }
  destruct (negb (is_nil (desired !! q))) eqn:Hd.
  { injection H as <-. constructor; cbn; try done.
    - intros p c h Hp%Hso. rewrite Hsnoc. naive_solver.
    - intros p c. rewrite Hsnoc. intros [|[-> _]]; [by eauto|]. intros Hn. by rewrite Hn in Hd. }
  apply outcome_bind_Ret in H as (c0 & Hc0 & H).
  apply outcome_bind_Ret in H as (t & [-> Htot]%addTotal_Ret & H).
  pose proof (slen_nonneg c0).
  destruct (utf8_valid c0) eqn:Hu.
  { injection H as <-. constructor; cbn; try done.
    - intros p c h Hp%Hso. rewrite Hsnoc. naive_solver.
    - intros p c. rewrite Hsnoc. intros [|[-> Hc]]; [by eauto|]. congruence.
    - unfold preserved_tree in *. cbn. lia. }
  apply outcome_bind_Ret in H as ([] & Hpf%fail_if_Ret%is_nil_None_true & H). injection H as <-.
  apply negb_false_iff, is_nil_true in Hd.
  constructor; cbn; try done.
  - intros p c h. rewrite Hsnoc. destruct (decide (q = p)) as [<-|].
    + rewrite lookup_insert_eq. intros [= <- <-]. split_and!; [by right|done..].
    + rewrite lookup_insert_ne by done. intros Hp%Hso. naive_solver.
  - intros p c. rewrite Hsnoc. destruct (decide (q = p)) as [<-|].
    + rewrite lookup_insert_eq. intros [?%Hno|[_ Hc]]; [done|]. rewrite Hc0 in Hc.
      injection Hc as <-. eauto.
    + rewrite lookup_insert_ne by done. intros [|[? _]]; [by eauto|congruence].
  - unfold preserved_tree in *. cbn. rewrite fmap_insert, map_to_list_insert.
    + cbn. lia.
    + by rewrite lookup_fmap, Hpf.
Qed.

Lemma check_loop l t t' :
  mfold (λ total '(sourcePath, content), checkSourceFile sourcePath content total) t l = Ret t' →
  t' = (t + total_len l)%Z ∧
  Forall (λ e, utf8_valid e.2 = true ∧ (slen e.2 ≤ maxTemplateSourceFileBytes)%Z) l ∧
  (l = [] ∨ t' ≤ maxTemplateSourceTotalUncompressedBytes)%Z.
Proof.
  revert t. induction l as [|[p c] l IH]; intros t; cbn [mfold].
  - intros [= <-]. cbn. split_and!; [lia|constructor|by left].
  - intros (t1 & (Hu & Hs & -> & Hle)%checkSourceFile_Ret & H)%outcome_bind_Ret.
    apply IH in H as (-> & Hall & Hb). cbn. split_and!; [lia|by constructor|].
    right. destruct Hb as [->|]; cbn in *; lia.
Qed.

Lemma preservedPaths_Ret desired (preserved : gmap string (string * FileHeader)) ps :
  preservedPaths range desired preserved = Ret ps → ps = (range _ preserved).*1.
Proof.
  unfold preservedPaths. enough (∀ l acc, mfold (λ paths '(sourcePath, _),
    _ ← fail_if (negb (is_nil (desired !! sourcePath)))
          (Errorf "assertion failed: source path %q exists in both desired and preserved maps"
             [FStr sourcePath]);
    mret (paths ++ [sourcePath])) acc l = Ret ps → ps = acc ++ l.*1) as H by apply (H _ []).
  induction l as [|[p x] l IH]; intros acc; cbn [mfold].
  - intros [= ->]. by rewrite app_nil_r.
  - intros H. inv_outcome H. apply IH in H as ->. by rewrite <-app_assoc.
Qed.

(** The tree of the merged archive. *)
Definition merged_tree (desired : gmap string string) (s : scan) : gmap string string :=
  desired ∪ preserved_tree s.

Lemma scan_disjoint desired fs s : scan_inv desired fs s → desired ##ₘ preserved_tree s.
Proof.
  intros [Hso _ _ _ _]. apply map_disjoint_spec. intros p c1 c2 Hd Hp.
  unfold preserved_tree in Hp. rewrite lookup_fmap in Hp.
  apply fmap_Some in Hp as ([c h] & Hp & ->). apply Hso in Hp as (_ & Hn & _). congruence.
Qed.

(** A tree and a disjoint one: the files of the union. *)
Lemma map_to_list_disj_union (m1 m2 : gmap string string) :
  m1 ##ₘ m2 → map_to_list (m1 ∪ m2) ≡ₚ map_to_list m1 ++ map_to_list m2.
Proof.
  induction m1 as [|p c m Hp IH] using map_ind; intros Hd.
  - by rewrite map_empty_union, map_to_list_empty.
  - apply map_disjoint_insert_l in Hd as [Hp2 Hd].
    rewrite <-insert_union_l, !map_to_list_insert, IH by (try done; by apply lookup_union_None).
    done.
Qed.

(** The last loop writes the entry of the merged tree for every path. *)
Lemma writeMergedEntry_entry desired fs s w p w' :
  scan_inv desired fs s → writeMergedEntry desired s w p = Ret w' →
  ∃ e, zw_entries w' = zw_entries w ++ [e] ∧ entry_of (merged_tree desired s) p e.
Proof.
  intros Hinv H. unfold writeMergedEntry in H. unfold entry_of, merged_tree.
  setoid_rewrite lookup_union_Some; [|by eapply scan_disjoint]. unfold preserved_tree.
  setoid_rewrite lookup_fmap. destruct Hinv as [Hso _ Hh _ _].
  destruct (desired !! p) as [d|] eqn:Hd, (preservedBinaryFiles s !! p) as [[c h]|] eqn:Hp;
    try discriminate H.
  - destruct (originalHeaders s !! p) as [h|] eqn:Hho; apply writeEntry_entries in H;
      eexists; (split; [exact H|]); cbn; eauto.
  - apply Hso in Hp as (_ & _ & _ & Ha). apply writeEntry_entries in H.
    eexists. split; [exact H|]. cbn. eauto.
Qed.

(** What the checks and loops of [buildMergedSourceZip] establish. *)
Lemma buildMergedSourceZip_Ret orig desired z :
  buildMergedSourceZip range (Some orig) (Some desired) = Ret z →
  ∃ m fs s w paths, normalizeFileKeys range (Some desired) = Ret m ∧
    openSourceZip orig = Ret fs ∧ scan_inv m fs s ∧ finishZip w = Ret z ∧
    paths ≡ₚ (map_to_list (merged_tree m s)).*1 ∧
    Forall2 (entry_of (merged_tree m s)) paths (zw_entries w) ∧
    (∀ p c, m !! p = Some c → utf8_valid c = true ∧ (slen c ≤ maxTemplateSourceFileBytes)%Z) ∧
    (total_len (map_to_list (merged_tree m s)) ≤ maxTemplateSourceTotalUncompressedBytes)%Z ∧
    (msize (merged_tree m s) ≤ maxTemplateSourceFiles)%Z.
Proof.
  unfold buildMergedSourceZip. intros H.
  apply outcome_bind_Ret in H as ([] & _ & H).
  apply outcome_bind_Ret in H as (m & Hnorm & H).
  apply outcome_bind_Ret in H as ([] & _ & H).
  apply outcome_bind_Ret in H as (fs & Hopen & H).
  apply outcome_bind_Ret in H as (s & Hscan & H).
  apply outcome_bind_Ret in H as (t & Hcheck & H).
  apply outcome_bind_Ret in H as ([] & Hcount%fail_if_Ret%Z.ltb_ge & H).
  apply outcome_bind_Ret in H as (more & ->%preservedPaths_Ret & H).
  apply outcome_bind_Ret in H as (w & Hw & Hfin).
  assert (scan_inv m fs s) as Hinv.
  { revert Hscan. apply (mfold_invariant _ (scan_inv m)); [apply scan_inv_init|].
    intros done f s1 s2 H1 H2 _. by eapply scan_inv_step. }
  pose proof (map_to_list_disj_union _ _ (scan_disjoint _ _ _ Hinv)) as Hunion.
  apply check_loop in Hcheck as (-> & Hall & Hb). rewrite Hrange in Hall.
  assert (total_len (range _ m) = total_len (map_to_list m)) as Hlen by by rewrite Hrange.
  rewrite Hlen in Hb.
  exists m, fs, s, w. eexists. do 4 (split; [eassumption|]).
  split; [|split; [|split; [|split]]].
  2: { apply (write_loop (entry_of (merged_tree m s))) in Hw as (es & -> & Hes);
         [by rewrite zw_entries_new|].
       intros w1 p w2 _. by eapply writeMergedEntry_entry. }
  - rewrite sort_strings_perm. unfold merged_tree. rewrite Hunion, fmap_app, !Hrange.
    unfold preserved_tree. by rewrite map_to_list_fmap, <-list_fmap_compose.
  - intros p c Hc. rewrite Forall_forall in Hall. by apply (Hall (p, c)), elem_of_map_to_list.
  - unfold merged_tree. rewrite Hunion, total_len_app. destruct Hinv as [_ _ _ _ Ht].
    destruct Hb as [Hnil|]; [|lia].
    apply (f_equal total_len) in Hnil. rewrite Hlen in Hnil. cbn in Hnil. lia.
  - unfold msize, merged_tree, preserved_tree in *.
    rewrite map_size_disj_union by (eapply scan_disjoint; done). rewrite map_size_fmap. lia.
Qed.

(** C10: updating a template's files keeps everything but the text files, and
    the text files become exactly the requested ones.  When
    [buildMergedSourceZip] accepts, extracting the new archive returns the
    requested map with normalized keys, so a second update with the same files
    finds nothing to change; and the archive holds a non-UTF-8 file if and
    only if the original archive held it at a path that is not requested. *)
Theorem buildMergedSourceZip_merges (orig z : string) (desired : gmap string string)
    (Hbuild : buildMergedSourceZip range (Some orig) (Some desired) = Ret z) :
  ∃ m fs fs', normalizeFileKeys range (Some desired) = Ret m ∧
    openSourceZip orig = Ret fs ∧ openSourceZip z = Ret fs' ∧ extractFiles z = Ret m ∧
    (∀ p c, utf8_valid c = false → holds fs' p c ↔ holds fs p c ∧ m !! p = None) ∧
    (slen z ≤ maxTemplateSourceZipBytes)%Z.
Proof.
  apply buildMergedSourceZip_Ret in Hbuild
    as (m & fs & s & w & paths & Hn & Hopen & Hinv & Hfin & Hp & Hes & Hm & Ht & Hs).
  pose proof (scan_disjoint _ _ _ Hinv) as Hdisj.
  assert (∀ p c, merged_tree m s !! p = Some c ↔
            m !! p = Some c ∨ ∃ h, preservedBinaryFiles s !! p = Some (c, h)) as Htree.
  { intros p c. unfold merged_tree, preserved_tree in *.
    rewrite lookup_union_Some, lookup_fmap, fmap_Some by done.
    split; [intros [|([c' h] & ? & ->)]|intros [|[h ?]]]; eauto. }
  destruct Hinv as [Hso Hco _ _ _].
  destruct (tree_reads_back _ paths w z Hfin Hp Hes) as (fs' & m' & Hopen' & Hex & Hm' & Hh); try done.
  { intros p c [Hc|[h (Hc & _)%Hso]]%Htree.
    - split; [by eapply normalizeFileKeys_Ret|by eapply Hm].
    - destruct Hc as (zf & _ & _ & Hv & Hr). split; [by eapply validate_key|by eapply readSourceEntry_Ret]. }
  exists m, fs, fs'. do 3 (split; [done|]). split_and!.
  - rewrite Hex. f_equal. apply map_eq. intros p. apply option_eq. intros c. rewrite Hm', Htree.
    split; [intros [[|[h (_ & _ & ? & _)%Hso]] ?]; [done|congruence]|].
    intros Hc. split; [by left|]. by eapply Hm.
  - intros p c Hu. rewrite Hh, Htree. split.
    + intros [Hc%Hm|[h (? & ? & _)%Hso]]; [destruct Hc; congruence|done].
    + intros [Hc Hnone]. right. by apply Hco.
  - by apply finishZip_Ret in Hfin as [? _].
Qed.
End archive_properties.

(** ** A concrete container format

    A small archive format that satisfies the interface's laws. *)

Module ToyZip.

Fixpoint put_str (s : string) : string :=
  match s with
  | EmptyString => "."
  | String a r => String "c" (String a (put_str r))
  end.

Fixpoint get_str (s : string) : option (string * string) :=
  match s with
  | String "." r => Some (EmptyString, r)
  | String "c" (String a r) =>
      match get_str r with Some (x, r') => Some (String a x, r') | None => None end
  | _ => None
  end.

Lemma get_put_str s r : get_str (put_str s +:+ r) = Some (s, r).
Proof. induction s as [|a s IH]; cbn; [done|]. by rewrite IH. Qed.

Fixpoint put_entries (es : list (FileHeader * string)) : string :=
  match es with
  | [] => "z"
  | (h, d) :: es =>
      String (if fh_attrDir h then "d" else "f")%char
        (put_str (fh_Name h) +:+ (put_str d +:+ put_entries es))
  end.

Definition toy_file (attrDir : bool) (name data : string) : zip_file := {|
  zf_header := {| fh_Name := name; fh_CompressedSize := slen data;
    fh_UncompressedSize := slen data; fh_CompressedSize64 := slen data;
    fh_UncompressedSize64 := slen data; fh_attrDir := attrDir; fh_rest := Deflate |};
  zf_Open := Ret {| stream_data := data; stream_readErr := None; stream_closeErr := None |}
|}.

Definition bad_zip : goerror := ErrorString "zip: not a valid zip file".

Fixpoint get_entries (fuel : nat) (s : string) : result (list (option zip_file)) :=
  match fuel, s with
  | S fuel, String k r =>
      if Ascii.eqb k "z" then mret []
      else
        match get_str r with
        | Some (name, r1) =>
            match get_str r1 with
            | Some (data, r2) =>
                fs ← get_entries fuel r2;
                mret (Some (toy_file (Ascii.eqb k "d") name data) :: fs)
            | None => Err bad_zip
            end
        | None => Err bad_zip
        end
  | _, _ => Err bad_zip
  end.

Lemma get_put_entries es fuel :
  (length es < fuel)%nat →
  get_entries fuel (put_entries es) =
  Ret (map (λ e, Some (toy_file (fh_attrDir e.1) (fh_Name e.1) e.2)) es).
Proof.
  revert fuel. induction es as [|[h d] es IH]; intros [|fuel] Hf; cbn in Hf; try lia; [done|].
  cbn -[get_str]. rewrite !get_put_str, IH by lia. by destruct (fh_attrDir h).
Qed.

(** More than enough fuel: every entry takes at least one character. *)
Lemma length_put_entries es : (length es < String.length (put_entries es))%nat.
Proof.
  induction es as [|[h d] es IH]; cbn; [lia|]. rewrite !length_append. lia.
Qed.

Fixpoint append_last (l : list (FileHeader * string)) (s : string)
    : result (list (FileHeader * string)) :=
  match l with
  | [] => Err (ErrorString "zip: no entry")
  | [(h, d)] => mret [(h, d +:+ s)]
  | e :: l => l' ← append_last l s; mret (e :: l')
  end.

Lemma append_last_snoc l h d s : append_last (l ++ [(h, d)]) s = Ret (l ++ [(h, d +:+ s)]).
Proof.
  induction l as [|e l IH]; [done|]. cbn [app append_last]. destruct e as [h' d'].
  destruct (l ++ [(h, d)]) as [|e' l'] eqn:Hl; [by destruct l|]. rewrite IH. done.
Qed.

#[export] Instance toy_zip : ZipArchive := {
  zwriter := list (FileHeader * string);
  zw_new := [];
  zw_CreateHeader := λ w h, Ret (w ++ [(h, EmptyString)]);
  zw_Write := append_last;
  zw_Close := λ w, Ret (put_entries w);
  zr_File := λ s, get_entries (String.length s) s
}.

#[export] Instance toy_laws : ZipLaws toy_zip.
Proof.
  refine {| zw_entries := λ w : @zwriter toy_zip, (w : list (FileHeader * string)) |}.
  - done.
  - intros w h w' [= <-]. done.
  - intros w s w' l h d Hw ->. cbn in Hw. rewrite append_last_snoc in Hw. by injection Hw as <-.
  - intros w z [= <-]. eexists. split; [apply get_put_entries, length_put_entries|].
    induction w as [|e w IH]; cbn; constructor; [|done]. eexists. split; [done|]. done.
Defined.

End ToyZip.

Definition toy_range (V : Type) (m : gmap string V) : list (string * V) := reverse (map_to_list m).

Lemma toy_range_perm V (m : gmap string V) : toy_range V m ≡ₚ map_to_list m.
Proof. apply reverse_Permutation. Qed.

(** The archive of two text files and an icon that is not valid UTF-8. *)
Definition original_zip : string := ToyZip.put_entries
  [(plain_header "main.tf", "a"); (plain_header "docs/", EmptyString);
   (plain_header "./old.tf", "b"); (plain_header "icon.png", bytes [255; 0]%N)].

Definition desired_files : gmap string string := {["main.tf" := "new"; "docs//x.md" := "doc"]}.

Definition value_of {A} (d : A) (r : result A) : A := match r with Ret a => a | _ => d end.

Definition built_zip : string :=
  value_of "z" (buildSourceZip (ZA:=ToyZip.toy_zip) toy_range (Some desired_files)).
Definition merged_zip : string :=
  value_of "z" (buildMergedSourceZip (ZA:=ToyZip.toy_zip) toy_range (Some original_zip)
                  (Some desired_files)).

Lemma buildSourceZip_roundtrip_witness :
  ∃ m, normalizeFileKeys toy_range (Some desired_files) = Ret m ∧
    extractFiles (ZA:=ToyZip.toy_zip) built_zip = Ret m ∧ m !! "docs/x.md" = Some "doc".
Proof.
  destruct (buildSourceZip_roundtrip (ZL:=ToyZip.toy_laws) toy_range toy_range_perm desired_files
    built_zip ltac:(vm_compute; reflexivity)) as (m & Hn & Hex & _).
  exists m. split; [exact Hn|]. split; [exact Hex|].
  vm_compute in Hn. injection Hn as <-. vm_compute. reflexivity.
Defined.

Lemma buildMergedSourceZip_merges_witness :
  ∃ m fs fs', normalizeFileKeys toy_range (Some desired_files) = Ret m ∧
    openSourceZip (ZA:=ToyZip.toy_zip) original_zip = Ret fs ∧
    openSourceZip (ZA:=ToyZip.toy_zip) merged_zip = Ret fs' ∧
    extractFiles (ZA:=ToyZip.toy_zip) merged_zip = Ret m ∧
    (∀ p c, utf8_valid c = false → holds fs' p c ↔ holds fs p c ∧ m !! p = None) ∧
    (slen merged_zip ≤ maxTemplateSourceZipBytes)%Z.
Proof.
  exact (buildMergedSourceZip_merges (ZL:=ToyZip.toy_laws) toy_range toy_range_perm original_zip
    merged_zip desired_files ltac:(vm_compute; reflexivity)).
Defined.

(** The icon survives the merge, the old text file does not. *)
Example merged_contents :
  value_of [] (openSourceZip (ZA:=ToyZip.toy_zip) merged_zip) =
  [Some (ToyZip.toy_file false "docs/x.md" "doc"); Some (ToyZip.toy_file false "icon.png" (bytes [255; 0]%N));
   Some (ToyZip.toy_file false "main.tf" "new")].
Proof. vm_compute. reflexivity. Qed.
End TemplateFiles.
