(* ===== verification/Storage.v ===== *)
(** * Storage: what workspace.go and template.go of internal/aggregated/storage share

    The storage objects, the namespace of a request, the choice of the backend
    client, and the watch endpoint. *)

From S2P Require Import Prelude GoStd GoErrors CoderErrors ApiTypes Providers AggTypes Sdk Watch.
From Stdlib Require Import Lia.

#[local] Open Scope string_scope.
#[local] Open Scope list_scope.

Module Storage.
Import CoderErrors Providers Sdk Watch.

(** [WorkspaceStorage] and [TemplateStorage]: the provider interface (nil or
    not) and whether the broadcaster pointer is set.  The watch-event queue is
    part of the handler state; [New...Storage] always creates it. *)
Record storage (W : Type) := MkStorage {
  provider : option (ClientProvider W);
  has_broadcaster : bool
}.
Arguments MkStorage {W}.
Arguments provider {W}.
Arguments has_broadcaster {W}.

(** [rest.ValidateObjectFunc], [rest.ValidateObjectUpdateFunc] and
    [rest.UpdatedObjectInfo]: admission and patch code of the API server. *)
Definition ValidateObjectFunc (W : Type) : Type := object → M W goerror ().
Definition ValidateObjectUpdateFunc (W : Type) : Type := object → object → M W goerror ().
Definition UpdatedObjectInfo (W : Type) : Type := object → M W goerror (option object).

Definition bad_request (message : text) : goerror := StatusErr (NewBadRequest message).
Definition assertion (message : string) : goerror := Errorf message [].

(** [return nil, wrapClientError(err)] *)
Definition wrap_client_err (err : goerror) : goerror := default err (wrapClientError (Some err)).
(** [return nil, coder.MapCoderError(err, resource, name)] *)
Definition map_coder_err (resource : group_resource) (name : string) (err : goerror) : goerror :=
  MapCoderError (Some err) resource name.

(** [New...Storage] *)
Definition NewStorage {W} (kind : string) (provider : option (ClientProvider W))
    : result (storage W) :=
  match provider with
  | None => Panic (ErrorString ("assertion failed: " +:+ kind +:+ " client provider must not be nil"))
  | Some p => mret (MkStorage (Some p) true)
  end.

Definition namespaceFromRequestContext (ctx : option context) : result string :=
  match ctx with
  | None => Err (assertion "assertion failed: context must not be nil")
  | Some ctx => mret (ctx_namespace ctx)
  end.

Definition requiredNamespaceFromRequestContext (ctx : option context) : result string :=
  namespace ← namespaceFromRequestContext ctx;
  _ ← fail_if (String.eqb namespace "") (bad_request (Lit "namespace is required"));
  mret namespace.

Definition equalInt64Ptr (a b : option Z) : bool :=
  match a, b with
  | None, None => true
  | Some a, Some b => Z.eqb a b
  | _, _ => false
  end.

Definition equalStringPtr (a b : option string) : bool :=
  match a, b with
  | None, None => true
  | Some a, Some b => String.eqb a b
  | _, _ => false
  end.

Section storage_helpers.
Context {W : Type}.

Definition namespaceForListConversion (ctx : option context) (requestNamespace : string)
    (provider : option (ClientProvider W)) : handler (W:=W) string :=
  _ ← guard_err (is_nil ctx) (assertion "assertion failed: context must not be nil");
  if negb (String.eqb requestNamespace "") then mret requestNamespace
  else
    match provider with
    | None => throw (assertion "assertion failed: client provider must not be nil")
    | Some p =>
        match DefaultNamespace _ p with
        | None => throw (StatusErr (NewServiceUnavailable (Lit
            "all-namespaces list requires a provider that implements namespace resolution")))
        | Some resolve =>
            resolvedNamespace ← ext (resolve ctx);
            _ ← guard_err (String.eqb resolvedNamespace "")
                  (assertion "assertion failed: namespace resolver returned an empty namespace");
            mret resolvedNamespace
        end
    end.

(** [s.clientForNamespace]; [kind] is "workspace" or "template" in its
    messages. *)
Definition clientForNamespace (kind : string) (s : storage W) (ctx : option context)
    (namespace : string) : handler (W:=W) client :=
  match provider s with
  | None => throw (assertion ("assertion failed: " +:+ kind +:+ " client provider must not be nil"))
  | Some p =>
      sdk ← map_err (λ err, Errorf "resolve codersdk client for namespace %q: %w"
                        [FStr namespace; FErrW err])
              (ext (ClientForNamespace _ p ctx namespace));
      match sdk with
      | None => throw (assertion ("assertion failed: " +:+ kind
                                  +:+ " client provider returned nil codersdk client"))
      | Some c => mret c
      end
  end.

(** Reading a field of a nil [*CoderWorkspace]. *)
Definition deref {A} (p : option A) : result A :=
  match p with
  | Some a => Ret a
  | None => Panic (ErrorString "invalid memory address or nil pointer dereference")
  end.

(** An admission hook, if there is one. *)
Definition admit_object (validate : option (ValidateObjectFunc W)) (obj : object)
    : handler (W:=W) () :=
  match validate with Some validate => ext (validate obj) | None => mret tt end.

(** What [Watch] hands back: the filter around the stop-aware watcher, if any,
    and the armed timer. *)
Record watch_handle := { wh_filter : option filter_func; wh_timer : option Z }.

Definition storageWatch (kind : string) (broadcaster_Watch : M W goerror ())
    (s : option (storage W)) (ctx : option context) (opts : option ListOptions)
    : handler (W:=W) watch_handle :=
  match s with
  | None => throw (assertion ("assertion failed: " +:+ kind +:+ " storage must not be nil"))
  | Some s =>
      _ ← guard_err (is_nil ctx) (assertion "assertion failed: context must not be nil");
      _ ← guard_err (negb (has_broadcaster s))
            (assertion ("assertion failed: " +:+ kind +:+ " broadcaster must not be nil"));
      requestNamespace ← lift (namespaceFromRequestContext ctx);
      let invalid err := bad_request (Sprintf "invalid watch options: %v" [FErrV err]) in
      _ ← map_err invalid (lift (validateUnsupportedWatchListOptions opts));
      filter ← map_err invalid (lift (filterForListOptions requestNamespace opts));
      _ ← map_err (λ err, Errorf ("failed to create " +:+ kind +:+ " watcher: %w") [FErrW err])
            (ext broadcaster_Watch);
      mret {| wh_filter := filter; wh_timer := watchTimeout opts |}
  end.
End storage_helpers.

Arguments watch_handle : clear implicits.

(** ** Lemmas *)

Lemma namespaceFromRequestContext_Ret ctx ns :
  namespaceFromRequestContext ctx = Ret ns ↔ ∃ c, ctx = Some c ∧ ctx_namespace c = ns.
Proof.
  destruct ctx as [c|]; cbn; [|split; [discriminate|by intros (? & ? & ?)]].
  split; [intros [= <-]; eauto|by intros (? & [= <-] & <-)].
Qed.

Lemma requiredNamespace_Ret ctx ns :
  requiredNamespaceFromRequestContext ctx = Ret ns ↔
  ns ≠ "" ∧ ∃ c, ctx = Some c ∧ ctx_namespace c = ns.
Proof.
  unfold requiredNamespaceFromRequestContext. split.
  - intros H. inv_outcome H. apply String.eqb_neq in Hx0.
    by apply namespaceFromRequestContext_Ret in Hx.
  - intros [Hne%String.eqb_neq (c & -> & <-)]. cbn. by rewrite Hne.
Qed.

(** A resolved client came from the provider, for this namespace. *)
Lemma clientForNamespace_Ret {W} kind (s : storage W) ctx ns st c st' :
  clientForNamespace kind s ctx ns st = (Ret c, st') →
  ∃ p w, provider s = Some p ∧
    ClientForNamespace _ p ctx ns (st_world st) = (Ret (Some c), w) ∧
    st' = St w (st_trace st) (st_queue st).
Proof.
  unfold clientForNamespace. destruct (provider s) as [p|]; [|discriminate]. intros H.
  inv_run H. apply ext_Ret in Hrun as (w & Hw & ->).
  destruct a as [c'|]; [|discriminate]. inv_run H. eauto.
Qed.

Lemma wp_clientForNamespace {W} kind (s : storage W) ctx ns Q st :
  (∀ o w, (∀ c, o = Ret c → ∃ p, provider s = Some p ∧
              ClientForNamespace _ p ctx ns (st_world st) = (Ret (Some c), w)) →
     Q o (St w (st_trace st) (st_queue st))) →
  wp (clientForNamespace kind s ctx ns) Q st.
Proof.
  intros HQ. unfold clientForNamespace. destruct (provider s) as [p|].
  - repeat wp_step. apply wp_ext. intros o w Hw.
    destruct o as [[c|]|e|e]; cbn; repeat wp_step; apply HQ; intros; naive_solver.
  - wp_step. destruct st as [w t q]. apply HQ. naive_solver.
Qed.

Lemma watch_setup {W} kind bw (s : storage W) c opts st h st' :
  storageWatch kind bw (Some s) (Some c) opts st = (Ret h, st') →
  validateUnsupportedWatchListOptions opts = Ret tt ∧
  filterForListOptions (ctx_namespace c) opts = Ret (wh_filter h) ∧
  wh_timer h = watchTimeout opts.
Proof.
  unfold storageWatch. intros H. inv_run H. cbn in *. simplify_eq.
  apply Ret_inj in Hrun1 as <-. by destruct a2.
Qed.

(** a namespaced watch is confined to its namespace.  Whenever the watch
    endpoint accepts a request for namespace [ns], the options it cannot honour
    are absent (no initial events, no resourceVersionMatch, only name and
    namespace field selectors), and it installs a filter that passes no event
    about an object of another namespace, nor one that fails the label or field
    selector; the timer it arms lasts exactly [timeoutSeconds] as long as that
    fits a duration. *)
Theorem watch_confined {W} (kind : string) (bw : M W goerror ()) (s : storage W) (ctx : context)
    (opts : option ListOptions) (st st' : Sdk.st W) (h : watch_handle)
    (Hns : ctx_namespace ctx ≠ "")
    (Hrun : storageWatch kind bw (Some s) (Some ctx) opts st = (Ret h, st')) :
  (∃ f, wh_filter h = Some f ∧
     ∀ ev meta, f ev = Ret true → object_meta (ev_Object ev) = Some (Ret meta) →
       Namespace meta = ctx_namespace ctx ∧
       (∀ o sel, opts = Some o → LabelSelector o = Some sel → ls_Empty sel = false →
          ls_Matches sel (Labels meta) = true) ∧
       (∀ o sel, opts = Some o → FieldSelector o = Some sel → fs_Empty sel = false →
          Forall (λ f, f = "metadata.name" ∨ f = "metadata.namespace") (fs_Requirements sel) ∧
          fs_Matches sel
            {["metadata.name" := Name meta; "metadata.namespace" := Namespace meta]} = true)) ∧
  (∀ o, opts = Some o → SendInitialEvents o ≠ Some true ∧ ResourceVersionMatch o = "" ∧
     ∀ n, TimeoutSeconds o = Some n → (0 < n ≤ 9223372036)%Z →
       wh_timer h = Some (n * 1000000000)%Z).
Proof.
  apply watch_setup in Hrun as (Hopts & Hf & Ht). split.
  - unfold filterForListOptions in Hf. apply outcome_bind_Ret in Hf as ([lsel fsel] & Hsel & Hf).
    apply String.eqb_neq in Hns as Hnsb. rewrite Hnsb in Hf. cbn in Hf. injection Hf as Hf.
    exists (eventFilter (ctx_namespace ctx) lsel fsel). split; [done|].
    intros ev meta [Hno|(meta' & Hm & H1 & H2 & H3)]%eventFilter_true Hmeta; [congruence|].
    rewrite Hmeta in Hm. injection Hm as <-. split; [by apply H1|].
    split; intros o sel -> Ho Hne; rewrite Ho, Hne in Hsel.
    + assert (lsel = Some sel) as ->; [|by apply H2].
      destruct (FieldSelector o) as [fs|]; [destruct (fs_Empty fs)|]; inv_outcome Hsel; done.
    + inv_outcome Hsel. split; [|by apply H3].
      apply validateFieldSelector_Ret in Hx as [|]; [congruence|done].
  - intros o ->. cbn in Hopts. inv_outcome Hopts. apply negb_false_iff, String.eqb_eq in Hopts.
    split; [intros Hs; by rewrite Hs in Hx|]. split; [done|].
    intros n Hn Hrange. rewrite Ht. cbn. rewrite Hn.
    replace (0 <? n)%Z with true by (symmetry; apply Z.ltb_lt; lia).
    unfold wrap64. rewrite Z.mod_small by lia. f_equal. lia.
Qed.

Definition example_opts : ListOptions := {|
  LabelSelector := Some {| ls_Empty := false; ls_Matches := λ m, bool_decide (m !! "a" = Some "b") |};
  FieldSelector := None; SendInitialEvents := None; ResourceVersionMatch := EmptyString;
  TimeoutSeconds := Some 30%Z |}.

Definition example_state : st () := St tt [] (Chan [] false).

Lemma watch_confined_witness :
  ∃ f, filterForListOptions "ns" (Some example_opts) = Ret (Some f) ∧
    (∀ ev meta, f ev = Ret true → object_meta (ev_Object ev) = Some (Ret meta) →
       Namespace meta = "ns") ∧
    watchTimeout (Some example_opts) = Some 30000000000%Z.
Proof.
  destruct (watch_confined "workspace" (mret tt) (MkStorage None true)
    {| ctx_namespace := "ns"; ctx_deadline := None |} (Some example_opts) example_state
    example_state _ ltac:(discriminate) eq_refl) as ((f & Hf & H) & H2).
  exists f. split; [injection Hf as <-; reflexivity|]. split; [intros; by eapply H|].
  destruct (H2 _ eq_refl) as (_ & _ & Ht). apply (Ht 30%Z); [reflexivity|].
  split; [reflexivity|discriminate].
Defined.

End Storage.
