(* ===== verification/HandlerLogic.v ===== *)
(** * HandlerLogic: reasoning about REST handlers

    What the proofs about both storages share: the requests a handler made
    ([did], [unchanged]), handlers that only read ([read_only], with the hint
    database of that name and the tactic [solve_read_only]), and the
    weakest-precondition rules of the steps every handler is made of. *)

From S2P Require Import Prelude GoStd GoErrors CoderErrors ApiTypes Providers AggTypes Sdk Watch Storage.

#[local] Open Scope string_scope.
#[local] Open Scope list_scope.

Module HandlerLogic.
Import CoderErrors Providers Sdk Watch Storage.

(** A handler that did not return a value. *)
Definition failed {A} (o : result A) : Prop := ∀ a, o ≠ Ret a.

(** Continue past a computation that failed. *)
Ltac wp_failed Ho :=
  unfold failed in Ho;
  lazymatch type of Ho with
  | context [?o ≠ Ret _] => let a := fresh in destruct o as [a|?|?]; [by destruct (Ho a)|..]; unfold wp_cont
  end.

(** ** The object an update is about *)

(** The metadata [m] of an update under [name] in namespace [ns] addresses the
    current object: what it states of name and namespace is the request's, and
    its resourceVersion is the current one. *)
Record targets (name ns : string) (current m : ObjectMeta) : Prop := {
  tgt_name : Name m = "" ∨ Name m = name;
  tgt_namespace : Namespace m = "" ∨ Namespace m = ns;
  tgt_version : ResourceVersion m ≠ "";
  tgt_current : ResourceVersion m = ResourceVersion current
}.

Lemma optional_eqb (x y : string) :
  negb (String.eqb x "") && negb (String.eqb x y) = false ↔ x = "" ∨ x = y.
Proof. by rewrite andb_false_iff, !negb_false_iff, !String.eqb_eq. Qed.

(** Reads the passed checks on strings as (in)equations. *)
Ltac inv_checks :=
  repeat match goal with
  | H : negb (String.eqb _ "") && negb _ = false |- _ => apply optional_eqb in H
  | H : negb (String.eqb _ _) = false |- _ => apply negb_false_iff, String.eqb_eq in H
  | H : String.eqb _ _ = false |- _ => apply String.eqb_neq in H
  end.

Section handler_lemmas.
Context {W : Type}.
Implicit Types (st : Sdk.st W) (s : storage W).

(** The handler returned [obj] and put exactly one event about it into the
    queue, as one undisturbed [enqueueWatchEvent] does. *)
Definition announced (a : event_type) (obj : object) st st' : Prop :=
  enqueueWatchEvent (Some (st_queue st)) a (Some obj) = Ret (st_queue st').

(** The client a handler uses: the provider's client for the request's
    namespace, asked in the world [w], which becomes [w']. *)
Definition client_for s (ctx : option context) (ns : string) (w : W) (c : client) (w' : W) : Prop :=
  ∃ p, provider s = Some p ∧ ClientForNamespace _ p ctx ns w = (Ret (Some c), w').

Lemma wp_client kind s ctx ns Q st :
  (∀ c w, client_for s ctx ns (st_world st) c w → Q (Ret c) (St w (st_trace st) (st_queue st))) →
  (∀ o w, (∀ c, o ≠ Ret c) → Q o (St w (st_trace st) (st_queue st))) →
  wp (map_err wrap_client_err (clientForNamespace kind s ctx ns)) Q st.
Proof.
  intros HQ HQ'. wp_step. apply wp_clientForNamespace.
  intros o w Hc. destruct o as [c|e|e].
  - apply HQ. destruct (Hc c eq_refl) as (p & Hp & Hcl). by exists p.
  - apply HQ'. done.
  - apply HQ'. done.
Qed.

(** The reads of the handlers: parsing and namespace leave the state alone. *)
Lemma wp_pure {A} (o : result A) (f : goerror → goerror) Q st :
  (∀ a, o = Ret a → Q (Ret a) st) → (∀ o', (∀ a, o' ≠ Ret a) → Q o' st) →
  wp (map_err f (lift o)) Q st.
Proof. intros H1 H2. repeat wp_step. destruct o; auto; by apply H2. Qed.

Lemma wp_pure_lift {A} (o : result A) Q st :
  (∀ a, o = Ret a → Q (Ret a) st) → (∀ o', (∀ a, o' ≠ Ret a) → Q o' st) →
  wp (lift o) Q st.
Proof. intros H1 H2. wp_step. destruct o; auto; by apply H2. Qed.

Lemma enqueue_no_err q a obj e : enqueueWatchEvent q a obj ≠ Err e.
Proof.
  unfold enqueueWatchEvent. destruct q as [q|]; [|done]. destruct obj as [obj|]; [|done].
  intros H. apply outcome_bind_Err in H as [H|([sent c] & _ & H)]; [by apply try_send_no_err in H|].
  destruct sent; [done|]. destruct (try_recv c) as [x c'].
  apply outcome_bind_Err in H as [H|([sent c''] & _ & H)]; [by apply try_send_no_err in H|done].
Qed.

Lemma wp_enqueue a obj Q st :
  (∀ q, enqueueWatchEvent (Some (st_queue st)) a (Some obj) = Ret q →
     Q (Ret tt) (St (st_world st) (st_trace st) q)) →
  (∀ p, Q (Panic p) st) →
  wp (enqueue a obj) Q st.
Proof.
  unfold wp, enqueue. intros H1 H2.
  destruct (enqueueWatchEvent _ _ _) eqn:E; cbn; [by apply H1|by apply enqueue_no_err in E|by apply H2].
Qed.
(** An admission hook accepted the object, taking the world from [w] to [w']. *)
Definition admitted (validate : option (ValidateObjectFunc W)) (obj : object) (w w' : W) : Prop :=
  match validate with Some v => v obj w = (Ret tt, w') | None => w' = w end.

Lemma wp_admit validate obj Q st :
  (∀ o w, failed o → Q o (St w (st_trace st) (st_queue st))) →
  (∀ w, admitted validate obj (st_world st) w → Q (Ret tt) (St w (st_trace st) (st_queue st))) →
  wp (admit_object validate obj) Q st.
Proof.
  intros Hno Hyes. destruct st as [w0 tr q]. unfold admit_object, admitted in *.
  destruct validate as [v|]; [|wp_step; by apply Hyes].
  wp_request. destruct o as [[]|e|e]; [by apply Hyes|by apply Hno..].
Qed.
End handler_lemmas.

(** ** Handlers that only read *)

Section read_only.
Context {W : Type} (sdk : client → ∀ r : request, M W goerror (response r)).
Implicit Types (st : Sdk.st W).

(** From [st] to [st'] the requests [ms], and no others, changed a backend,
    all through [c], and no event was queued. *)
Definition did (c : client) (ms : list request) st st' : Prop :=
  st_queue st' = st_queue st ∧
  mutations (st_trace st') = mutations (st_trace st) ++ map (pair c) ms.

Definition unchanged st st' : Prop :=
  st_queue st' = st_queue st ∧ mutations (st_trace st') = mutations (st_trace st).

Lemma unchanged_did c st st' : unchanged st st' ↔ did c [] st st'.
Proof. unfold unchanged, did. cbn. by rewrite app_nil_r. Qed.

Lemma did_trans c ms1 ms2 st1 st2 st3 :
  did c ms1 st1 st2 → did c ms2 st2 st3 → did c (ms1 ++ ms2) st1 st3.
Proof.
  intros [Hq1 Hm1] [Hq2 Hm2]. split; [congruence|]. by rewrite Hm2, Hm1, map_app, app_assoc.
Qed.

Lemma did_unchanged c ms st1 st2 st3 : did c ms st1 st2 → unchanged st2 st3 → did c ms st1 st3.
Proof.
  intros H1 H2%(unchanged_did c). rewrite <-(app_nil_r ms). by eapply did_trans.
Qed.

Lemma unchanged_trans st1 st2 st3 : unchanged st1 st2 → unchanged st2 st3 → unchanged st1 st3.
Proof. intros [??] [??]. split; congruence. Qed.

Lemma did_call c r st o st' :
  mutating r = true → call sdk c r st = (o, st') → did c [r] st st'.
Proof.
  unfold call. intros Hr. destruct (sdk c r (st_world st)) as [o1 w]. intros [= <- <-].
  split; [done|]. cbn. by rewrite mutations_write.
Qed.

Lemma unchanged_call c r st o st' :
  mutating r = false → call sdk c r st = (o, st') → unchanged st st'.
Proof.
  unfold call. intros Hr. destruct (sdk c r (st_world st)) as [o1 w]. intros [= <- <-].
  split; [done|]. cbn. by rewrite mutations_read.
Qed.

(** A handler that changes no backend and queues nothing. *)
Definition read_only {A} (m : handler (W:=W) A) : Prop :=
  ∀ st, unchanged st (m st).2.

Lemma read_only_wp {A} (m : handler (W:=W) A) Q st :
  read_only m → (∀ o st', m st = (o, st') → unchanged st st' → Q o st') → wp m Q st.
Proof.
  intros Hm HQ. unfold wp. apply HQ; [by destruct (m st)|apply Hm].
Qed.

Lemma ro_ret {A} (a : A) : read_only (mret a).
Proof. done. Qed.
Lemma ro_throw {A} e : read_only (throw (A:=A) e).
Proof. done. Qed.
Lemma ro_lift {A} (o : result A) : read_only (lift o).
Proof. done. Qed.
Lemma ro_guard b e : read_only (guard_err b e).
Proof. done. Qed.
Lemma ro_get : read_only get.
Proof. done. Qed.
Lemma ro_ext {A} (m : M W goerror A) : read_only (ext m).
Proof. intros st. unfold ext. by destruct (m (st_world st)). Qed.
Lemma ro_call c r : mutating r = false → read_only (call sdk c r).
Proof.
  intros Hr st. eapply unchanged_call; [exact Hr|apply surjective_pairing].
Qed.
Lemma ro_bind {A B} (m : handler (W:=W) A) (f : A → handler (W:=W) B) :
  read_only m → (∀ a, read_only (f a)) → read_only (m ≫= f).
Proof.
  intros Hm Hf st. unfold mbind, M_bind. specialize (Hm st).
  destruct (m st) as [[a|e|e] st1]; [|done..]. eapply unchanged_trans; [exact Hm|apply Hf].
Qed.
Lemma ro_map_err {A} f (m : handler (W:=W) A) : read_only m → read_only (map_err f m).
Proof. intros Hm st. unfold map_err. specialize (Hm st). by destruct (m st) as [[a|e|e] st1]. Qed.
Lemma ro_attempt {A} (m : handler (W:=W) A) : read_only m → read_only (attempt m).
Proof. intros Hm st. unfold attempt. specialize (Hm st). by destruct (m st) as [[a|e|e] st1]. Qed.
Lemma ro_step {A B} (m : handler (W:=W) A) (f : A → handler (W:=W) B) Q st :
  read_only m →
  (∀ a st', m st = (Ret a, st') → unchanged st st' → wp (f a) Q st') →
  (∀ o st', (∀ b, o ≠ Ret b) → unchanged st st' → Q o st') →
  wp (m ≫= f) Q st.
Proof.
  intros Hm Hyes Hno. apply wp_bind, read_only_wp; [done|]. intros [a|e|e] st' Hrun Hu; unfold wp_cont.
  - by eapply Hyes.
  - by apply Hno.
  - by apply Hno.
Qed.

End read_only.

Create HintDb read_only.
#[export] Hint Resolve ro_ret ro_throw ro_lift ro_guard ro_get ro_ext : read_only.

(** Show that a handler made of reads is read-only. *)
Ltac solve_read_only :=
  repeat match goal with
  | |- ∀ _, _ => intros ?
  | |- read_only (λ _, _) => fail 1
  | |- read_only (mbind _ _) => apply ro_bind
  | |- read_only (call ?sdk ?c ?r) => exact (ro_call sdk c r eq_refl)
  | |- read_only (map_err _ _) => apply ro_map_err
  | |- read_only (attempt _) => apply ro_attempt
  | |- read_only (lift _) => apply ro_lift
  | |- read_only (let '(_, _) := ?x in _) => destruct x
  | |- read_only (match ?x with _ => _ end) => destruct x
  | |- read_only _ => solve [auto with read_only]
  end.

Lemma ro_admit {W} v obj : read_only (W:=W) (admit_object v obj).
Proof. unfold admit_object. solve_read_only. Qed.
#[export] Hint Resolve ro_admit : read_only.

(** Step over a request whose error is mapped; failures come first. *)
Ltac call_step :=
  apply wp_bind, wp_map_err, wp_of_run;
  let o := fresh "o" in let s := fresh "s" in let H := fresh "Hcall" in
  intros o s H; destruct o as [?|?|?]; unfold wp_cont.

End HandlerLogic.
