(* ===== verification/WorkspaceStorage.v ===== *)
(** * WorkspaceStorage: internal/aggregated/storage/workspace.go

    The REST handlers of the CoderWorkspace resource.  Update and Delete never
    edit a workspace record of the backend: they ask for a build transition. *)

From S2P Require Import Prelude GoStd GoErrors Uuid Names CoderErrors ApiTypes Providers AggTypes Sdk Convert Watch Storage HandlerLogic.
From Stdlib Require Import Lia.

#[local] Open Scope string_scope.
#[local] Open Scope list_scope.

Module WorkspaceStorage.
Import Uuid Names CoderErrors Providers Sdk Convert Watch Storage HandlerLogic.

Definition workspaceListType : TypeMeta :=
  {| Kind := "CoderWorkspaceList"; APIVersion := SchemeGroupVersion |}.

(** The order [sort.Slice] puts list items in: namespace, then name. *)
Definition item_le (m1 m2 : ObjectMeta) : Prop :=
  if decide (Namespace m1 = Namespace m2) then String.le (Name m1) (Name m2)
  else String.le (Namespace m1) (Namespace m2).

#[global] Instance item_le_dec m1 m2 : Decision (item_le m1 m2).
Proof. unfold item_le. destruct (decide _); apply _. Defined.

Definition workspace_le (w1 w2 : CoderWorkspace) : Prop := item_le (ws_meta w1) (ws_meta w2).
#[global] Instance workspace_le_dec w1 w2 : Decision (workspace_le w1 w2).
Proof. unfold workspace_le. apply _. Defined.

(** [createdWorkspace.LatestBuild = build], and [UpdatedAt] when the build has one. *)
Definition with_build (w : Workspace) (build : WorkspaceBuild) : Workspace := {|
  w_ID := w_ID w; w_CreatedAt := w_CreatedAt w;
  w_UpdatedAt := if negb (time_IsZero (b_UpdatedAt build)) then b_UpdatedAt build else w_UpdatedAt w;
  w_OrganizationName := w_OrganizationName w; w_OwnerName := w_OwnerName w; w_Name := w_Name w;
  w_TemplateName := w_TemplateName w; w_LatestBuild := build;
  w_AutostartSchedule := w_AutostartSchedule w; w_TTLMillis := w_TTLMillis w;
  w_LastUsedAt := w_LastUsedAt w |}.

Section workspace_storage.
Context {W : Type} (sdk : client → ∀ r : request, M W goerror (response r)).

Definition New : object := OWorkspace (Some empty_workspace).
Definition NamespaceScoped : bool := true.
Definition GetSingularName : string := "coderworkspace".
Definition NewList : object := OWorkspaceList {| Kind := ""; APIVersion := "" |} [].

Definition nil_storage : goerror := assertion "assertion failed: workspace storage must not be nil".
Definition nil_context : goerror := assertion "assertion failed: context must not be nil".
Definition nil_broadcaster : goerror :=
  assertion "assertion failed: workspace broadcaster must not be nil".

(** [coder.ParseWorkspaceName] with its error as a bad request. *)
Definition parseName (name : string) : handler (W:=W) (string * string * string) :=
  map_err (λ err, bad_request (Sprintf "invalid workspace name %q: %v" [FStr name; FErrV err]))
    (lift (ParseWorkspaceName name)).

Definition workspace_client (s : storage W) (ctx : option context) (namespace : string)
    : handler (W:=W) client :=
  map_err wrap_client_err (clientForNamespace "workspace" s ctx namespace).

Definition Get (s : option (storage W)) (ctx : option context) (name : string)
    : handler (W:=W) object :=
  match s with
  | None => throw nil_storage
  | Some s =>
      _ ← guard_err (is_nil ctx) nil_context;
      _ ← guard_err (String.eqb name "")
            (assertion "assertion failed: workspace name must not be empty");
      namespace ← lift (requiredNamespaceFromRequestContext ctx);
      '(orgName, userName, workspaceName) ← parseName name;
      c ← workspace_client s ctx namespace;
      workspace ← map_err (map_coder_err coderworkspaces name)
                    (call sdk c (RWorkspaceByOwnerAndName userName workspaceName));
      _ ← guard_err (negb (String.eqb (w_OrganizationName workspace) orgName))
            (StatusErr (NewNotFound coderworkspaces name));
      obj ← lift (WorkspaceToK8s namespace workspace);
      mret (OWorkspace (Some obj))
  end.

(** The conversion loop over one backend response. *)
Definition convertAll (namespace : string) (items : list CoderWorkspace)
    (workspaces : list Workspace) : result (list CoderWorkspace) :=
  mfold (λ items workspace,
    obj ← WorkspaceToK8s namespace workspace; mret (items ++ [obj])) items workspaces.

(** The body of the loop over the eligible namespaces. *)
Definition listNamespace (s : storage W) (ctx : option context) (items : list CoderWorkspace)
    (eligibleNamespace : string) : handler (W:=W) (list CoderWorkspace) :=
  c ← workspace_client s ctx eligibleNamespace;
  workspaces ← map_err (map_coder_err coderworkspaces "<list>") (call sdk c RWorkspaces);
  lift (convertAll eligibleNamespace items workspaces).

Definition ListAll (s : storage W) (ctx : option context)
    (eligible : option context → M W goerror (list string)) : handler (W:=W) object :=
  namespaces ← ext (eligible ctx);
  items ← mfor (listNamespace s ctx) [] namespaces;
  mret (OWorkspaceList workspaceListType (merge_sort workspace_le items)).

Definition ListOne (s : storage W) (ctx : option context) (namespace : string)
    : handler (W:=W) object :=
  responseNamespace ← namespaceForListConversion ctx namespace (provider s);
  c ← workspace_client s ctx namespace;
  workspaces ← map_err (map_coder_err coderworkspaces "<list>") (call sdk c RWorkspaces);
  items ← lift (convertAll responseNamespace [] workspaces);
  mret (OWorkspaceList workspaceListType items).

(** [s.provider.(coder.NamespaceLister)] *)
Definition namespaceLister (s : storage W) : option (option context → M W goerror (list string)) :=
  match provider s with Some p => EligibleNamespaces _ p | None => None end.

Definition List (s : option (storage W)) (ctx : option context) : handler (W:=W) object :=
  match s with
  | None => throw nil_storage
  | Some s =>
      _ ← guard_err (is_nil ctx) nil_context;
      namespace ← lift (namespaceFromRequestContext ctx);
      match namespaceLister s with
      | Some eligible =>
          if String.eqb namespace "" then ListAll s ctx eligible else ListOne s ctx namespace
      | None => ListOne s ctx namespace
      end
  end.

Definition Watch := storageWatch (W:=W) "workspace".

(** *** Create *)

(** The checks on the object, up to the choice of the backend. *)
Definition checkObject (ctx : option context) (workspaceObj : CoderWorkspace)
    : handler (W:=W) (string * (string * string * string)) :=
  let meta := ws_meta workspaceObj in
  let spec := ws_Spec workspaceObj in
  _ ← guard_err (String.eqb (Name meta) "") (bad_request (Lit "metadata.name must not be empty"));
  namespace ← lift (requiredNamespaceFromRequestContext ctx);
  _ ← guard_err (negb (String.eqb (Namespace meta) "") && negb (String.eqb (Namespace meta) namespace))
        (bad_request (Sprintf "metadata.namespace %q must match request namespace %q"
           [FStr (Namespace meta); FStr namespace]));
  '(orgName, userName, workspaceName) ← parseName (Name meta);
  _ ← guard_err (negb (String.eqb (wss_Organization spec) orgName))
        (bad_request (Sprintf "spec.organization %q must match organization %q parsed from metadata.name"
           [FStr (wss_Organization spec); FStr orgName]));
  _ ← guard_err (String.eqb (wss_TemplateName spec) "")
        (bad_request (Lit "spec.templateName must not be empty"));
  mret (namespace, (orgName, userName, workspaceName)).

(** The template of the organization.  On failure the resource name of the
    error is built, which may panic. *)
Definition lookupTemplate (c : client) (orgName : string) (orgID : Uuid.t) (templateName : string)
    : handler (W:=W) Template := λ st,
  match call sdk c (RTemplateByName orgID templateName) st with
  | (Err err, st') =>
      match BuildTemplateName orgName templateName with
      | Ret name => (Err (map_coder_err codertemplates name err), st')
      | Err e => (Err e, st')
      | Panic p => (Panic p, st')
      end
  | r => r
  end.

(** The check of a pinned template version. *)
Definition checkTemplateVersion (c : client) (workspaceObj : CoderWorkspace) (template : Template)
    : handler (W:=W) () :=
  let spec := ws_Spec workspaceObj in
  if String.eqb (wss_TemplateVersionID spec) "" then mret tt
  else
    parsedTemplateVersionID ← map_err (λ parseErr, bad_request (Sprintf
        "invalid workspace spec: invalid templateVersionID %q: %v"
        [FStr (wss_TemplateVersionID spec); FErrV parseErr]))
      (lift (Uuid.Parse (wss_TemplateVersionID spec)));
    templateVersion ← map_err (map_coder_err coderworkspaces (Name (ws_meta workspaceObj)))
                        (call sdk c (RTemplateVersion parsedTemplateVersionID));
    guard_err (negb (bool_decide (tv_TemplateID templateVersion = Some (t_ID template))))
      (bad_request (Sprintf "spec.templateVersionID %q does not belong to template %q"
         [FStr (wss_TemplateVersionID spec); FStr (wss_TemplateName spec)])).

(** The stop transition of a workspace created with [spec.running = false];
    its failure is ignored. *)
Definition stopCreated (c : client) (workspaceObj : CoderWorkspace) (created : Workspace)
    : handler (W:=W) Workspace :=
  if wss_Running (ws_Spec workspaceObj) then mret created
  else
    r ← attempt (call sdk c (RCreateWorkspaceBuild (w_ID created) WorkspaceTransitionStop));
    match r with
    | inl stopBuild => mret (with_build created stopBuild)
    | inr _ => mret created
    end.

Definition Create (s : option (storage W)) (ctx : option context) (obj : option object)
    (createValidation : option (ValidateObjectFunc W)) : handler (W:=W) object :=
  match s with
  | None => throw nil_storage
  | Some s =>
      _ ← guard_err (is_nil ctx) nil_context;
      match obj with
      | None => throw (assertion "assertion failed: object must not be nil")
      | Some obj =>
          _ ← guard_err (negb (has_broadcaster s)) nil_broadcaster;
          p ← match obj with
              | OWorkspace p => mret p
              | _ => throw (bad_request (Sprintf "expected *CoderWorkspace, got %T"
                              [FStr (type_name obj)]))
              end;
          _ ← admit_object createValidation obj;
          workspaceObj ← lift (deref p);
          '(namespace, (orgName, userName, workspaceName)) ← checkObject ctx workspaceObj;
          let name := Name (ws_meta workspaceObj) in
          c ← workspace_client s ctx namespace;
          org ← map_err (map_coder_err coderworkspaces name) (call sdk c (ROrganizationByName orgName));
          template ← lookupTemplate c orgName (org_ID org) (wss_TemplateName (ws_Spec workspaceObj));
          _ ← checkTemplateVersion c workspaceObj template;
          request ← map_err (λ err, bad_request (Sprintf "invalid workspace spec: %v" [FErrV err]))
            (lift (WorkspaceCreateRequestFromK8s (Some workspaceObj) workspaceName (t_ID template)));
          created ← map_err (map_coder_err coderworkspaces name)
                      (call sdk c (RCreateUserWorkspace userName request));
          created ← stopCreated c workspaceObj created;
          result ← lift (WorkspaceToK8s namespace created);
          _ ← enqueue Added (OWorkspace (Some result));
          mret (OWorkspace (Some result))
      end
  end.

(** *** Update *)

(** The create-on-update branch. *)
Definition createOnUpdate (s : storage W) (ctx : option context) (name : string)
    (objInfo : UpdatedObjectInfo W) (createValidation : option (ValidateObjectFunc W))
    : handler (W:=W) (object * bool) :=
  createObj ← ext (objInfo New);
  match createObj with
  | None => throw (assertion "assertion failed: create-on-update workspace object must not be nil")
  | Some (OWorkspace None) =>
      throw (assertion "assertion failed: create-on-update workspace deep copy must not be nil")
  | Some (OWorkspace (Some createWorkspace)) =>
      let createWorkspace :=
        if String.eqb (Name (ws_meta createWorkspace)) ""
        then set_workspace_name name createWorkspace else createWorkspace in
      _ ← guard_err (negb (String.eqb (Name (ws_meta createWorkspace)) name))
            (bad_request (Sprintf "updated object metadata.name %q must match request name %q"
               [FStr (Name (ws_meta createWorkspace)); FStr name]));
      createdObj ← Create (Some s) ctx (Some (OWorkspace (Some createWorkspace))) createValidation;
      mret (createdObj, true)
  | Some createObj =>
      throw (Errorf "assertion failed: expected *CoderWorkspace, got %T" [FStr (type_name createObj)])
  end.

(** The identity and resourceVersion checks on the desired object. *)
Definition updateChecks (name namespace orgName : string) (current desired : CoderWorkspace)
    : result () :=
  let m := ws_meta desired in
  let org := wss_Organization (ws_Spec desired) in
  _ ← fail_if (negb (String.eqb (Name m) "") && negb (String.eqb (Name m) name))
        (bad_request (Sprintf "updated object metadata.name %q must match request name %q"
           [FStr (Name m); FStr name]));
  _ ← fail_if (negb (String.eqb org "") && negb (String.eqb org orgName))
        (bad_request (Sprintf
           "updated object spec.organization %q must match organization %q parsed from metadata.name"
           [FStr org; FStr orgName]));
  _ ← fail_if (negb (String.eqb (Namespace m) "") && negb (String.eqb (Namespace m) namespace))
        (bad_request (Sprintf "metadata.namespace %q does not match request namespace %q"
           [FStr (Namespace m); FStr namespace]));
  _ ← fail_if (String.eqb (ResourceVersion m) "")
        (bad_request (Lit "metadata.resourceVersion is required for update"));
  fail_if (negb (String.eqb (ResourceVersion m) (ResourceVersion (ws_meta current))))
    (StatusErr (NewConflict coderworkspaces name
       (Errorf "resource version mismatch: got %q, current is %q"
          [FStr (ResourceVersion m); FStr (ResourceVersion (ws_meta current))]))).

(** Whether the desired spec changes anything but [running]. *)
Definition immutableChanged (desired current : CoderWorkspaceSpec) : bool :=
  negb (String.eqb (wss_Organization desired) (wss_Organization current))
  || negb (String.eqb (wss_TemplateName desired) (wss_TemplateName current))
  || (negb (String.eqb (wss_TemplateVersionID desired) "")
      && negb (String.eqb (wss_TemplateVersionID desired) (wss_TemplateVersionID current)))
  || (negb (is_nil (wss_TTLMillis desired))
      && negb (equalInt64Ptr (wss_TTLMillis desired) (wss_TTLMillis current)))
  || (negb (is_nil (wss_AutostartSchedule desired))
      && negb (equalStringPtr (wss_AutostartSchedule desired) (wss_AutostartSchedule current))).

(** The transition of an accepted update, and its event. *)
Definition applyTransition (c : client) (name namespace : string) (current : Workspace)
    (running : bool) : handler (W:=W) (object * bool) :=
  let transition := if running then WorkspaceTransitionStart else WorkspaceTransitionStop in
  build ← map_err (map_coder_err coderworkspaces name)
            (call sdk c (RCreateWorkspaceBuild (w_ID current) transition));
  result ← lift (WorkspaceToK8s namespace (with_build current build));
  _ ← enqueue Modified (OWorkspace (Some result));
  mret (OWorkspace (Some result), false).

(** The update of an existing workspace. *)
Definition updateExisting (c : client) (name namespace orgName : string) (workspace : Workspace)
    (objInfo : UpdatedObjectInfo W) (updateValidation : option (ValidateObjectUpdateFunc W))
    : handler (W:=W) (object * bool) :=
  _ ← guard_err (negb (String.eqb (w_OrganizationName workspace) orgName))
        (StatusErr (NewNotFound coderworkspaces name));
  current ← lift (WorkspaceToK8s namespace workspace);
  desiredObj ← ext (objInfo (OWorkspace (Some current)));
  p ← match desiredObj with
      | Some (OWorkspace p) => mret p
      | obj => throw (bad_request (Sprintf "updated object must be *CoderWorkspace, got %T"
                        [FStr (match obj with Some o => type_name o | None => "<nil>" end)]))
      end;
  desired ← lift (deref p);
  _ ← lift (updateChecks name namespace orgName current desired);
  _ ← match updateValidation with
      | Some validate => ext (validate (OWorkspace (Some desired)) (OWorkspace (Some current)))
      | None => mret tt
      end;
  _ ← guard_err (immutableChanged (ws_Spec desired) (ws_Spec current))
        (bad_request (Lit
           "workspace update only supports changing spec.running; other spec fields are immutable"));
  if Bool.eqb (wss_Running (ws_Spec desired)) (wss_Running (ws_Spec current))
  then mret (OWorkspace (Some current), false)
  else applyTransition c name namespace workspace (wss_Running (ws_Spec desired)).

Definition Update (s : option (storage W)) (ctx : option context) (name : string)
    (objInfo : option (UpdatedObjectInfo W)) (createValidation : option (ValidateObjectFunc W))
    (updateValidation : option (ValidateObjectUpdateFunc W)) (forceAllowCreate : bool)
    : handler (W:=W) (object * bool) :=
  match s with
  | None => throw nil_storage
  | Some s =>
      _ ← guard_err (is_nil ctx) nil_context;
      _ ← guard_err (String.eqb name "")
            (assertion "assertion failed: workspace name must not be empty");
      match objInfo with
      | None => throw (assertion "assertion failed: updated object info must not be nil")
      | Some objInfo =>
          _ ← guard_err (negb (has_broadcaster s)) nil_broadcaster;
          namespace ← lift (requiredNamespaceFromRequestContext ctx);
          '(orgName, userName, workspaceName) ← parseName name;
          c ← workspace_client s ctx namespace;
          r ← attempt (call sdk c (RWorkspaceByOwnerAndName userName workspaceName));
          match r with
          | inr err =>
              let mappedErr := map_coder_err coderworkspaces name err in
              if negb forceAllowCreate || negb (IsNotFound mappedErr) then throw mappedErr
              else createOnUpdate s ctx name objInfo createValidation
          | inl workspace =>
              updateExisting c name namespace orgName workspace objInfo updateValidation
          end
      end
  end.

(** *** Delete *)

Definition Delete (s : option (storage W)) (ctx : option context) (name : string)
    (deleteValidation : option (ValidateObjectFunc W)) : handler (W:=W) (object * bool) :=
  match s with
  | None => throw nil_storage
  | Some s =>
      _ ← guard_err (is_nil ctx) nil_context;
      _ ← guard_err (String.eqb name "")
            (assertion "assertion failed: workspace name must not be empty");
      _ ← guard_err (negb (has_broadcaster s)) nil_broadcaster;
      namespace ← lift (requiredNamespaceFromRequestContext ctx);
      '(orgName, userName, workspaceName) ← parseName name;
      c ← workspace_client s ctx namespace;
      workspace ← map_err (map_coder_err coderworkspaces name)
                    (call sdk c (RWorkspaceByOwnerAndName userName workspaceName));
      _ ← guard_err (negb (String.eqb (w_OrganizationName workspace) orgName))
            (StatusErr (NewNotFound coderworkspaces name));
      _ ← match deleteValidation with
          | Some _ =>
              obj ← lift (WorkspaceToK8s namespace workspace);
              admit_object deleteValidation (OWorkspace (Some obj))
          | None => mret tt
          end;
      deleteBuild ← map_err (map_coder_err coderworkspaces name)
        (call sdk c (RCreateWorkspaceBuild (w_ID workspace) WorkspaceTransitionDelete));
      workspaceObj ← lift (WorkspaceToK8s namespace (with_build workspace deleteBuild));
      _ ← enqueue Modified (OWorkspace (Some workspaceObj));
      mret (OStatus "Success", false)
  end.
End workspace_storage.


(** ** Properties *)

Section workspace_properties.
Context {W : Type} (sdk : client → ∀ r : request, M W goerror (response r)).
Implicit Types (st : Sdk.st W) (s : storage W).

(** No request and no event. *)
Definition untouched st st' : Prop :=
  st_trace st' = st_trace st ∧ st_queue st' = st_queue st.

Lemma wp_workspace_client s ctx ns Q st :
  (∀ c w, client_for s ctx ns (st_world st) c w → Q (Ret c) (St w (st_trace st) (st_queue st))) →
  (∀ o w, (∀ c, o ≠ Ret c) → Q o (St w (st_trace st) (st_queue st))) →
  wp (workspace_client s ctx ns) Q st.
Proof. apply wp_client. Qed.
End workspace_properties.

(** *** Update *)

Section workspace_update.
Context {W : Type} (sdk : client → ∀ r : request, M W goerror (response r)).
Implicit Types (st : Sdk.st W) (s : storage W).

(** The desired spec names the same workspace: the organization and the
    template of the current one, and its version, TTL and schedule wherever it
    has one. *)
Record kept (desired current : CoderWorkspaceSpec) : Prop := {
  kept_organization : wss_Organization desired = wss_Organization current;
  kept_template : wss_TemplateName desired = wss_TemplateName current;
  kept_version : wss_TemplateVersionID desired = "" ∨
    wss_TemplateVersionID desired = wss_TemplateVersionID current;
  kept_ttl : wss_TTLMillis desired = None ∨ wss_TTLMillis desired = wss_TTLMillis current;
  kept_schedule : wss_AutostartSchedule desired = None ∨
    wss_AutostartSchedule desired = wss_AutostartSchedule current
}.

Lemma equalInt64Ptr_spec a b : equalInt64Ptr a b = true ↔ a = b.
Proof. destruct a, b; cbn; rewrite ?Z.eqb_eq; split; congruence. Qed.

Lemma equalStringPtr_spec a b : equalStringPtr a b = true ↔ a = b.
Proof. destruct a, b; cbn; rewrite ?String.eqb_eq; split; congruence. Qed.

Lemma immutableChanged_kept desired current :
  immutableChanged desired current = false → kept desired current.
Proof.
  unfold immutableChanged. rewrite !orb_false_iff, !andb_false_iff, !negb_false_iff.
  rewrite !String.eqb_eq, equalInt64Ptr_spec, equalStringPtr_spec, !is_nil_true.
  intros [[[[]]]]. by constructor.
Qed.

(** The requested state of an accepted update that changes the backend. *)
Record accepted (name namespace orgName : string) (w : Workspace)
    (current desired : CoderWorkspace) : Prop := {
  acc_org : w_OrganizationName w = orgName;
  acc_current : WorkspaceToK8s namespace w = Ret current;
  acc_target : targets name namespace (ws_meta current) (ws_meta desired);
  acc_immutable : kept (ws_Spec desired) (ws_Spec current);
  acc_toggle : wss_Running (ws_Spec desired) ≠ wss_Running (ws_Spec current)
}.

Lemma updateChecks_Ret name ns org current desired u :
  updateChecks name ns org current desired = Ret u →
  targets name ns (ws_meta current) (ws_meta desired).
Proof.
  unfold updateChecks. intros H. inv_outcome H. inv_checks. by constructor.
Qed.

(** The transition request of an update, and what follows it. *)
Definition transition_outcome (c : client) (name ns : string) (w : Workspace) (running : bool)
    st (o : result (object * bool)) st' : Prop :=
  let r := RCreateWorkspaceBuild (w_ID w)
             (if running then WorkspaceTransitionStart else WorkspaceTransitionStop) in
  st_trace st' = st_trace st ++ [(c, r)] ∧
  (failed o ∧ st_queue st' = st_queue st ∨
   ∃ (build : WorkspaceBuild) w1 result,
     sdk c r (st_world st) = (Ret build, w1) ∧
     WorkspaceToK8s ns (with_build w build) = Ret result ∧
     o = Ret (OWorkspace (Some result), false) ∧
     announced Modified (OWorkspace (Some result)) st st').

Lemma applyTransition_spec c name ns w running st :
  wp (applyTransition sdk c name ns w running) (transition_outcome c name ns w running st) st.
Proof.
  unfold applyTransition, transition_outcome. repeat wp_step. wp_request. rename w0 into w1.
  destruct o as [build|e|e]; unfold wp_cont; [|split; [done|by left]..].
  repeat wp_step. unfold wp_cont. destruct (WorkspaceToK8s ns (with_build w build)) as [res|e|e] eqn:Hk;
    [|split; [done|by left]..].
  repeat wp_step. apply wp_enqueue.
  - intros q Hq. unfold wp_cont. repeat wp_step. cbn. split; [done|]. right. by exists build, w1, res.
  - intros p. unfold wp_cont. split; [done|by left].
Qed.

(** What [updateExisting] does, after the workspace was read. *)
Definition existing_outcome (c : client) (name ns org : string) (w : Workspace)
    (objInfo : UpdatedObjectInfo W) (uv : option (ValidateObjectUpdateFunc W))
    st (o : result (object * bool)) st' : Prop :=
  (st_trace st' = st_trace st ∧ st_queue st' = st_queue st ∧
   ∀ r, o = Ret r → ∃ current desired w1, WorkspaceToK8s ns w = Ret current ∧
     objInfo (OWorkspace (Some current)) (st_world st) = (Ret (Some (OWorkspace (Some desired))), w1) ∧
     targets name ns (ws_meta current) (ws_meta desired) ∧
     wss_Running (ws_Spec desired) = wss_Running (ws_Spec current) ∧
     r = (OWorkspace (Some current), false)) ∨
  ∃ current desired w1 st1,
    accepted name ns org w current desired ∧
    objInfo (OWorkspace (Some current)) (st_world st) = (Ret (Some (OWorkspace (Some desired))), w1) ∧
    match uv with
    | Some validate => validate (OWorkspace (Some desired)) (OWorkspace (Some current)) w1
                       = (Ret tt, st_world st1)
    | None => st_world st1 = w1
    end ∧
    st_trace st1 = st_trace st ∧ st_queue st1 = st_queue st ∧
    transition_outcome c name ns w (wss_Running (ws_Spec desired)) st1 o st'.

Lemma updateExisting_spec c name ns org w objInfo uv st :
  wp (updateExisting sdk c name ns org w objInfo uv)
     (existing_outcome c name ns org w objInfo uv st) st.
Proof.
  unfold updateExisting. apply wp_bind, wp_guard; intros Horg; [by left|]. unfold wp_cont.
  apply wp_bind, wp_pure_lift; [intros current Hcur|intros o Ho; wp_failed Ho; by left].
  unfold wp_cont. apply wp_bind, wp_ext. intros o w1 Hobj.
  destruct o as [[[[desired|]| | | | |]|]|e|e]; unfold wp_cont;
    repeat wp_step; unfold wp_cont; repeat wp_step; try by left.
  unfold wp_cont, deref. apply wp_bind, wp_pure_lift;
    [intros [] Htarget%updateChecks_Ret|intros o Ho; wp_failed Ho; by left].
  unfold wp_cont. apply wp_bind.
  set (st1 (w2 : W) := St w2 (st_trace st) (st_queue st)).
  enough (∀ w2, match uv with
                | Some validate => validate (OWorkspace (Some desired)) (OWorkspace (Some current)) w1
                                   = (Ret tt, w2)
                | None => w2 = w1
                end →
    wp (_ ← guard_err (immutableChanged (ws_Spec desired) (ws_Spec current))
          (bad_request (Lit
            "workspace update only supports changing spec.running; other spec fields are immutable"));
        if Bool.eqb (wss_Running (ws_Spec desired)) (wss_Running (ws_Spec current))
        then mret (OWorkspace (Some current), false)
        else applyTransition sdk c name ns w (wss_Running (ws_Spec desired)))
      (existing_outcome c name ns org w objInfo uv st) (st1 w2)) as Hrest.
  { destruct uv as [validate|].
    - apply wp_ext. intros o w2 Hv. destruct o as [[]|e|e]; unfold wp_cont; [|by left..].
      by apply Hrest.
    - wp_step. unfold wp_cont. by apply (Hrest w1). }
  intros w2 Huv. apply wp_bind, wp_guard; intros Himm; [by left|]. unfold wp_cont.
  destruct (Bool.eqb _ _) eqn:Hrun.
  - wp_step. left. cbn. split_and!; [done..|]. intros r [= <-]. exists current, desired, w1.
    by apply eqb_prop in Hrun.
  - eapply wp_mono; [|apply applyTransition_spec]. intros o st' Ho. right.
    exists current, desired, w1, (st1 w2). split_and!; try done.
    + constructor; try done.
      * by apply negb_false_iff, String.eqb_eq in Horg.
      * by apply immutableChanged_kept.
      * by apply eqb_false_iff.
Qed.
End workspace_update.

Section workspace_contracts.
Context {W : Type} (sdk : client → ∀ r : request, M W goerror (response r)).
Implicit Types (st : Sdk.st W).

(** A request for namespace [ns] under a name that parses, with the client the
    provider gives for it; [st1] is [st] once the provider was asked. *)
Definition addressed (s : storage W) (ctx : option context) (name ns org user wsname : string) st (c : client) st1
    : Prop :=
  ns ≠ "" ∧ (∃ cx, ctx = Some cx ∧ ctx_namespace cx = ns) ∧
  ParseWorkspaceName name = Ret (org, user, wsname) ∧
  client_for s ctx ns (st_world st) c (st_world st1) ∧ untouched st st1.

(** The contract of an update.  Either nothing was asked of any backend, no
    event was queued, and the call failed; or the addressed client was asked
    for the workspace, and then: (1) the read failed, and the call is the
    create-on-update branch, entered only with [forceAllowCreate] and a
    backend 404, or it fails without another request; or (2) the read returned
    [w], and [existing_outcome] says what happened; or the call panicked in
    the SDK. *)
Definition update_contract (s : storage W) ctx name (objInfo : UpdatedObjectInfo W)
    (cv : option (ValidateObjectFunc W)) (uv : option (ValidateObjectUpdateFunc W))
    (force : bool) st (o : result (object * bool)) st' : Prop :=
  untouched st st' ∧ failed o ∨
  ∃ ns org user wsname c s0 r s1,
    addressed s ctx name ns org user wsname st c s0 ∧
    call sdk c (RWorkspaceByOwnerAndName user wsname) s0 = (r, s1) ∧
    match r with
    | Ret w => existing_outcome sdk c name ns org w objInfo uv s1 o st'
    | Err err =>
        force = true ∧ IsNotFound (map_coder_err coderworkspaces name err) = true ∧
        createOnUpdate sdk s ctx name objInfo cv s1 = (o, st') ∨ failed o ∧ st' = s1
    | Panic _ => failed o ∧ st' = s1
    end.

(** The steps the mutation handlers share, up to the first request. *)
Lemma wp_addressed {A} (s : storage W) ctx name (k : string → string → string → string → client → handler A)
    (Q : result A → Sdk.st W → Prop) st :
  (∀ o st', untouched st st' ∧ failed o → Q o st') →
  (∀ ns org user wsname c st1, addressed s ctx name ns org user wsname st c st1 →
     wp (k ns org user wsname c) Q st1) →
  wp (namespace ← lift (requiredNamespaceFromRequestContext ctx);
      '(orgName, userName, workspaceName) ← parseName name;
      c ← workspace_client s ctx namespace;
      k namespace orgName userName workspaceName c) Q st.
Proof.
  intros Hno Hk.
  apply wp_bind, wp_pure_lift; [|intros o1 Ho; wp_failed Ho; by apply Hno].
  intros ns (Hns & cx & -> & <-)%requiredNamespace_Ret. unfold wp_cont.
  apply wp_bind, wp_pure; [|intros o1 Ho; wp_failed Ho; by apply Hno].
  intros [[org user] wsname] Hparse. unfold wp_cont.
  apply wp_bind, wp_workspace_client; [|intros o1 w Ho; wp_failed Ho; by apply Hno].
  intros c w0 Hc. unfold wp_cont. apply Hk. unfold addressed, untouched. cbn. eauto 8.
Qed.

Lemma workspace_Update_wp s ctx name objInfo cv uv force st :
  wp (Update sdk (Some s) ctx name (Some objInfo) cv uv force)
     (update_contract s ctx name objInfo cv uv force st) st.
Proof.
  unfold Update. do 3 (apply wp_bind, wp_guard; intros ?; [by left|]; unfold wp_cont).
  apply wp_addressed; [by left|]. intros ns org user wsname c s0 Haddr.
  apply wp_bind, wp_attempt, wp_of_run. intros r s1 Hcall.
  assert (∀ o st', match r with
    | Ret w => existing_outcome sdk c name ns org w objInfo uv s1 o st'
    | Err err =>
        force = true ∧ IsNotFound (map_coder_err coderworkspaces name err) = true ∧
        createOnUpdate sdk s ctx name objInfo cv s1 = (o, st') ∨ failed o ∧ st' = s1
    | Panic _ => failed o ∧ st' = s1
    end → update_contract s ctx name objInfo cv uv force st o st') as Hyes.
  { intros o' st2 Ho'. right. by exists ns, org, user, wsname, c, s0, r, s1. }
  destruct r as [ws|err|e]; unfold wp_cont.
  - eapply wp_mono; [|apply updateExisting_spec]. intros o1 st1 Ho1. by apply Hyes.
  - destruct (negb force || _) eqn:Hf; [wp_step; apply Hyes; by right|].
    apply orb_false_iff in Hf as [Hf1%negb_false_iff Hf2%negb_false_iff].
    apply wp_of_run. intros o1 st1 Ho1. apply Hyes. by left.
  - by apply Hyes.
Qed.
End workspace_contracts.

(** *** Create *)

Section workspace_create.
Context {W : Type} (sdk : client → ∀ r : request, M W goerror (response r)).
Implicit Types (st : Sdk.st W).

(** An object that passed the checks of [Create]. *)
Record creatable (ctx : option context) (workspaceObj : CoderWorkspace)
    (ns org user wsname : string) : Prop := {
  cre_ns : ns ≠ "" ∧ ∃ cx, ctx = Some cx ∧ ctx_namespace cx = ns;
  cre_meta_ns : Namespace (ws_meta workspaceObj) = "" ∨ Namespace (ws_meta workspaceObj) = ns;
  cre_name : ParseWorkspaceName (Name (ws_meta workspaceObj)) = Ret (org, user, wsname);
  cre_org : wss_Organization (ws_Spec workspaceObj) = org;
  cre_template : wss_TemplateName (ws_Spec workspaceObj) ≠ ""
}.

Lemma checkObject_wp ctx wo Q st :
  (∀ o, failed o → Q o st) →
  (∀ ns org user wsname, creatable ctx wo ns org user wsname → Q (Ret (ns, (org, user, wsname))) st) →
  wp (checkObject ctx wo) Q st.
Proof.
  intros Hno Hyes. unfold checkObject.
  apply wp_bind, wp_guard; intros Hname; [by apply Hno|]. unfold wp_cont.
  apply wp_bind, wp_pure_lift; [|intros o1 Ho; wp_failed Ho; by apply Hno].
  intros ns Hns%requiredNamespace_Ret. unfold wp_cont.
  apply wp_bind, wp_guard; intros Hmns; [by apply Hno|]. unfold wp_cont.
  apply wp_bind, wp_pure; [|intros o1 Ho; wp_failed Ho; by apply Hno].
  intros [[org user] wsname] Hparse. unfold wp_cont.
  apply wp_bind, wp_guard; intros Horg; [by apply Hno|]. unfold wp_cont.
  apply wp_bind, wp_guard; intros Htpl; [by apply Hno|]. unfold wp_cont.
  wp_step. apply Hyes. apply negb_false_iff, String.eqb_eq in Horg.
  apply String.eqb_neq in Htpl. apply andb_false_iff in Hmns.
  rewrite !negb_false_iff, !String.eqb_eq in Hmns. by constructor.
Qed.

Lemma lookupTemplate_call c org orgID tname st t st' :
  lookupTemplate sdk c org orgID tname st = (Ret t, st') ↔
  call sdk c (RTemplateByName orgID tname) st = (Ret t, st').
Proof.
  unfold lookupTemplate. destruct (call _ _ _ _) as [[a|err|e] s1]; [done| |done].
  destruct (BuildTemplateName org tname); split; discriminate.
Qed.

Lemma ro_lookupTemplate c org orgID tname : read_only (lookupTemplate sdk c org orgID tname).
Proof.
  intros st. pose proof (ro_call sdk c (RTemplateByName orgID tname) eq_refl st) as H.
  unfold lookupTemplate. destruct (call _ _ _ _) as [[a|err|e] s1]; [done| |done].
  by destruct (BuildTemplateName org tname).
Qed.

(** The check of a pinned template version against the template. *)
Definition version_checked (c : client) (vid : string) (t : Template) st st' : Prop :=
  if String.eqb vid "" then st' = st
  else ∃ v (tv : TemplateVersion), Uuid.Parse vid = Ret v ∧
    call sdk c (RTemplateVersion v) st = (Ret tv, st') ∧ tv_TemplateID tv = Some (t_ID t).

Lemma checkTemplateVersion_Ret c wo t st u st' :
  checkTemplateVersion sdk c wo t st = (Ret u, st') →
  version_checked c (wss_TemplateVersionID (ws_Spec wo)) t st st'.
Proof.
  unfold checkTemplateVersion, version_checked. destruct (String.eqb _ _); intros H.
  { by inv_run H. }
  apply M_bind_Ret in H as (v & s1 & Hv & H). inv_run Hv.
  apply M_bind_Ret in H as (tv & s2 & Htv%map_err_Ret & H). inv_run H.
  exists v, tv. split; [done|]. split; [done|]. by apply negb_false_iff, bool_decide_eq_true in H.
Qed.

Lemma ro_checkTemplateVersion c wo t : read_only (checkTemplateVersion sdk c wo t).
Proof. unfold checkTemplateVersion. solve_read_only. Qed.

(** The stop transition after a creation: asked for exactly when
    [spec.running] is false; its build replaces the created one's, and its
    failure changes nothing. *)
Definition stopped (c : client) (running : bool) (created : Workspace) st
    (final : result Workspace) st' : Prop :=
  if running then final = Ret created ∧ st' = st
  else ∃ r, call sdk c (RCreateWorkspaceBuild (w_ID created) WorkspaceTransitionStop) st = (r, st') ∧
    final = match r with
            | Ret build => Ret (with_build created build)
            | Err _ => Ret created
            | Panic e => Panic e
            end.

Lemma stopCreated_stopped c wo created st o st' :
  stopCreated sdk c wo created st = (o, st') →
  stopped c (wss_Running (ws_Spec wo)) created st o st'.
Proof.
  unfold stopCreated, stopped. destruct (wss_Running (ws_Spec wo)); [by intros [= <- <-]|].
  unfold mbind, M_bind, attempt.
  destruct (call _ _ _ _) as [[b|e|e] s1]; intros [= <- <-]; eexists; by split.
Qed.
End workspace_create.

Section workspace_create_contract.
Context {W : Type} (sdk : client → ∀ r : request, M W goerror (response r)).
Implicit Types (st : Sdk.st W).

(** The creation request and what follows it.  If the backend did not create
    the workspace, the call fails there.  Otherwise the workspace is stopped
    if need be, and the call returns its final form, announced by one Added
    event: it never returns an error. *)
Definition creation_outcome (c : client) (user : string) (req : CreateWorkspaceRequest)
    (ns : string) (running : bool) st (o : result object) st' : Prop :=
  ∃ r s1, call sdk c (RCreateUserWorkspace user req) st = (r, s1) ∧
    match r with
    | Ret created =>
        ∃ oF s2, stopped sdk c running created s1 oF s2 ∧ st_trace st' = st_trace s2 ∧
          (st_queue st' = st_queue s2 ∧ (∃ p, o = Panic p) ∨
           ∃ final result, oF = Ret final ∧ WorkspaceToK8s ns final = Ret result ∧
             o = Ret (OWorkspace (Some result)) ∧ announced Added (OWorkspace (Some result)) s2 st')
    | _ => failed o ∧ st' = s1
    end.

Lemma workspace_creation_wp c name user req ns wo st :
  wp (created ← map_err (map_coder_err coderworkspaces name)
                  (call sdk c (RCreateUserWorkspace user req));
      created ← stopCreated sdk c wo created;
      result ← lift (WorkspaceToK8s ns created);
      _ ← enqueue Added (OWorkspace (Some result));
      mret (OWorkspace (Some result)))
    (creation_outcome c user req ns (wss_Running (ws_Spec wo)) st) st.
Proof.
  apply wp_bind, wp_map_err, wp_of_run. intros r s1 Hcall.
  destruct r as [created|e|e]; unfold wp_cont; [|by eexists _, s1; split; [exact Hcall|]..].
  apply wp_bind, wp_of_run. intros oF s2 Hstop%stopCreated_stopped.
  assert (∀ (o : result object) st', st_trace st' = st_trace s2 →
    (st_queue st' = st_queue s2 ∧ (∃ p, o = Panic p) ∨
     ∃ final result, oF = Ret final ∧ WorkspaceToK8s ns final = Ret result ∧
       o = Ret (OWorkspace (Some result)) ∧ announced Added (OWorkspace (Some result)) s2 st') →
    creation_outcome c user req ns (wss_Running (ws_Spec wo)) st o st') as Hend.
  { intros o st' Ht Ho. eexists _, s1. split; [exact Hcall|]. by exists oF, s2. }
  destruct oF as [final|e|e]; unfold wp_cont.
  2: { exfalso. unfold stopped in Hstop. destruct (wss_Running _);
         [by destruct Hstop|]. by destruct Hstop as ([|?|] & _ & Hf). }
  2: { apply Hend; [done|left]. split; [done|by eexists]. }
  apply wp_bind, wp_lift. unfold wp_cont.
  destruct (WorkspaceToK8s ns final) as [res|e|e] eqn:Hk; [|by apply WorkspaceToK8s_no_err in Hk|].
  - apply wp_bind, wp_enqueue.
    + intros q Hq. unfold wp_cont. wp_step. apply Hend; [done|]. right. by exists final, res.
    + intros p. unfold wp_cont. apply Hend; [done|left]. split; [done|by eexists].
  - apply Hend; [done|left]. split; [done|by eexists].
Qed.

(** The contract of a creation.  Either it failed before any request that
    changes the backend and queued nothing; or the object passed admission and
    the checks, the client for its namespace was asked, one after the other,
    for the organization, the template and (if pinned) the template version,
    and then for the creation. *)
Definition create_contract (s : storage W) ctx (obj : object) (cv : option (ValidateObjectFunc W)) st
    (o : result object) st' : Prop :=
  failed o ∧ unchanged st st' ∨
  ∃ wo ns org user wsname c w1 w2 (orgRec : Organization) (t : Template) req s3 s4 s5,
    let spec := ws_Spec wo in
    obj = OWorkspace (Some wo) ∧ admitted cv obj (st_world st) w1 ∧
    creatable ctx wo ns org user wsname ∧ client_for s ctx ns w1 c w2 ∧
    call sdk c (ROrganizationByName org) (St w2 (st_trace st) (st_queue st)) = (Ret orgRec, s3) ∧
    call sdk c (RTemplateByName (org_ID orgRec) (wss_TemplateName spec)) s3 = (Ret t, s4) ∧
    version_checked sdk c (wss_TemplateVersionID spec) t s4 s5 ∧
    WorkspaceCreateRequestFromK8s (Some wo) wsname (t_ID t) = Ret req ∧
    unchanged st s5 ∧ creation_outcome c user req ns (wss_Running spec) s5 o st'.

Lemma workspace_Create_wp s ctx obj cv st :
  wp (Create sdk (Some s) ctx (Some obj) cv) (create_contract s ctx obj cv st) st.
Proof.
  assert (∀ (o : result object) st', failed o → unchanged st st' →
    create_contract s ctx obj cv st o st') as Hno by (by left).
  unfold Create. do 2 (apply ro_step; [solve_read_only|intros ? ? Hg _; inv_run Hg; clear Hg|done]).
  apply ro_step; [solve_read_only|intros p ? Hp _|done].
  destruct obj as [[wo|]| | | | |]; try discriminate Hp; injection Hp as <- <-.
  2: { apply ro_step; [apply ro_admit|intros ? ? _ ?|done]. by left. }
  apply wp_bind, wp_admit; [intros o w Ho; wp_failed Ho; by apply Hno|].
  intros w1 Hadm. unfold wp_cont.
  apply ro_step; [solve_read_only|intros ? ? Ht _; inv_run Ht; injection Ht as <-|done].
  apply wp_bind, checkObject_wp; [intros o Ho; wp_failed Ho; by apply Hno|].
  intros ns org user wsname Hcre. unfold wp_cont.
  apply wp_bind, wp_workspace_client; [|intros o w Ho; wp_failed Ho; by apply Hno].
  intros c w2 Hc. unfold wp_cont. cbn [st_world st_trace st_queue] in *.
  apply ro_step; [solve_read_only| |done]. intros orgRec s3 Horg%map_err_Ret H3.
  apply ro_step; [apply ro_lookupTemplate| |intros; apply Hno; [done|by eapply unchanged_trans]].
  intros t s4 Ht%lookupTemplate_call H4. pose proof (unchanged_trans _ _ _ H3 H4) as H34.
  apply ro_step; [apply ro_checkTemplateVersion| |intros; apply Hno; [done|by eapply unchanged_trans]].
  intros [] s5 Hv%checkTemplateVersion_Ret H5. pose proof (unchanged_trans _ _ _ H34 H5) as H35.
  apply ro_step; [solve_read_only| |intros; apply Hno; [done|by eapply unchanged_trans]].
  intros req ? Hreq _. inv_run Hreq. eapply wp_mono; [|apply workspace_creation_wp].
  intros o st' Ho. right. exists wo, ns, org, user, wsname, c, w1, w2, orgRec, t, req, s3, s4, s5.
  by split_and!.
Qed.
End workspace_create_contract.

(** *** Delete *)

Section workspace_delete.
Context {W : Type} (sdk : client → ∀ r : request, M W goerror (response r)).
Implicit Types (st : Sdk.st W).

(** The transition request of a deletion of [w], and what follows it. *)
Definition deletion_outcome (c : client) (ns : string) (w : Workspace) st
    (o : result (object * bool)) st' : Prop :=
  ∃ r s1, call sdk c (RCreateWorkspaceBuild (w_ID w) WorkspaceTransitionDelete) st = (r, s1) ∧
    st_trace st' = st_trace s1 ∧
    (failed o ∧ st_queue st' = st_queue st ∨
     ∃ (build : WorkspaceBuild) obj, r = Ret build ∧ WorkspaceToK8s ns (with_build w build) = Ret obj ∧
       o = Ret (OStatus "Success", false) ∧ announced Modified (OWorkspace (Some obj)) st st').

Lemma workspace_deletion_wp c name ns w st :
  wp (deleteBuild ← map_err (map_coder_err coderworkspaces name)
          (call sdk c (RCreateWorkspaceBuild (w_ID w) WorkspaceTransitionDelete));
      workspaceObj ← lift (WorkspaceToK8s ns (with_build w deleteBuild));
      _ ← enqueue Modified (OWorkspace (Some workspaceObj));
      mret (OStatus "Success", false))
    (deletion_outcome c ns w st) st.
Proof.
  apply wp_bind, wp_map_err, wp_of_run. intros r s1 Hcall.
  pose proof (did_call sdk c (RCreateWorkspaceBuild (w_ID w) WorkspaceTransitionDelete) _ _ _ eq_refl Hcall)
    as [Hq _].
  assert (∀ o : result (object * bool), failed o → deletion_outcome c ns w st o s1) as Hno.
  { intros o Ho. exists r, s1. split_and!; [done..|by left]. }
  destruct r as [build|e|e]; unfold wp_cont; [|by apply Hno..].
  apply wp_bind, wp_lift. unfold wp_cont.
  destruct (WorkspaceToK8s ns (with_build w build)) as [obj|e|e] eqn:Hk; [|by apply Hno..].
  apply wp_bind, wp_enqueue; [|intros p; by apply Hno].
  intros q Henq. unfold wp_cont. wp_step. eexists _, s1. split; [exact Hcall|]. split; [done|]. right.
  exists build, obj. unfold announced. by rewrite <-Hq.
Qed.

(** The contract of a deletion.  Either it failed before any request that
    changes the backend and queued nothing; or the workspace that the name
    denotes was read, its converted form was admitted, and exactly one delete
    transition was requested for it.  A successful call never claims that the
    workspace is gone, and announces the new build as a modification. *)
Definition delete_contract (s : storage W) ctx name (dv : option (ValidateObjectFunc W)) st
    (o : result (object * bool)) st' : Prop :=
  failed o ∧ unchanged st st' ∨
  ∃ ns org user wsname c (w : Workspace) s0 s1 w2,
    addressed s ctx name ns org user wsname st c s0 ∧
    call sdk c (RWorkspaceByOwnerAndName user wsname) s0 = (Ret w, s1) ∧ w_OrganizationName w = org ∧
    (dv = None ∧ w2 = st_world s1 ∨
     ∃ obj, WorkspaceToK8s ns w = Ret obj ∧ admitted dv (OWorkspace (Some obj)) (st_world s1) w2) ∧
    deletion_outcome c ns w (St w2 (st_trace s1) (st_queue s1)) o st'.

Lemma workspace_Delete_wp s ctx name dv st :
  wp (Delete sdk (Some s) ctx name dv) (delete_contract s ctx name dv st) st.
Proof.
  unfold Delete. do 3 (apply wp_bind, wp_guard; intros ?; [by left|]; unfold wp_cont).
  apply wp_addressed; [intros o st' [[Ht Hq] Ho]; left; by split; [|split; [|rewrite Ht]]|].
  intros ns org user wsname c s0 Haddr. pose proof Haddr as (_ & _ & _ & _ & Ht & Hq).
  assert (unchanged st s0) as Hu0 by (split; [done|by rewrite Ht]).
  apply ro_step; [solve_read_only| |intros; left; split; [done|by eapply unchanged_trans]].
  intros w s1 Hw%map_err_Ret Hu1. pose proof (unchanged_trans _ _ _ Hu0 Hu1) as H01.
  apply wp_bind, wp_guard; intros Horg; [by left|]. unfold wp_cont.
  apply negb_false_iff, String.eqb_eq in Horg.
  apply ro_step; [destruct dv; [apply ro_bind; [apply ro_lift|intros; apply ro_admit]|apply ro_ret]| |].
  2: { intros; left; split; [done|by eapply unchanged_trans]. }
  intros [] s2 Hadm _.
  assert (∃ w2, s2 = St w2 (st_trace s1) (st_queue s1) ∧ (dv = None ∧ w2 = st_world s1 ∨
     ∃ obj, WorkspaceToK8s ns w = Ret obj ∧ admitted dv (OWorkspace (Some obj)) (st_world s1) w2))
    as (w2 & -> & Hdv).
  { destruct dv as [v|]; [|injection Hadm as <-; exists (st_world s1); destruct s1; eauto].
    inv_run Hadm. apply ext_Ret in Hadm as (w2 & Hv & ->). exists w2. split; [done|]. right. by exists a. }
  eapply wp_mono; [|apply workspace_deletion_wp]. intros o st' Ho. right.
  by exists ns, org, user, wsname, c, w, s0, s1, w2.
Qed.
End workspace_delete.

(** ** The contracts as properties *)

(** C9: a workspace update asks the backend for at most one build transition,
    and only for an admitted toggle of [spec.running] at the current
    resourceVersion ([update_contract]): every run of [Update] satisfies the
    contract, whatever the backend, the client provider, the admission hooks
    and the patch do. *)
Theorem workspace_Update_contract {W} (sdk : client → ∀ r : request, M W goerror (response r))
    (s : storage W) (ctx : option context) (name : string) (objInfo : UpdatedObjectInfo W)
    (cv : option (ValidateObjectFunc W)) (uv : option (ValidateObjectUpdateFunc W)) (force : bool)
    (st st' : Sdk.st W) (o : result (object * bool))
    (Hrun : Update sdk (Some s) ctx name (Some objInfo) cv uv force st = (o, st')) :
  update_contract sdk s ctx name objInfo cv uv force st o st'.
Proof. exact (wp_run _ _ _ _ _ (workspace_Update_wp sdk s ctx name objInfo cv uv force st) Hrun). Qed.

(** C29: a workspace creation changes nothing before the object is admitted and
    its organization, template and template version are confirmed by the backend
    of its namespace; then it issues one creation, followed by one stop
    transition exactly when [spec.running] is false; and once the backend has
    created the workspace the call does not return an error, even if the stop
    failed ([create_contract]). *)
Theorem workspace_Create_contract {W} (sdk : client → ∀ r : request, M W goerror (response r))
    (s : storage W) (ctx : option context) (obj : object) (cv : option (ValidateObjectFunc W))
    (st st' : Sdk.st W) (o : result object)
    (Hrun : Create sdk (Some s) ctx (Some obj) cv st = (o, st')) :
  create_contract sdk s ctx obj cv st o st'.
Proof. exact (wp_run _ _ _ _ _ (workspace_Create_wp sdk s ctx obj cv st) Hrun). Qed.

(** a workspace deletion asks for at most one delete transition, of exactly
    the workspace its name denotes and only after the admission hook accepted
    it; it reports success with [deleted = false] and announces the deletion as
    one modification ([delete_contract]). *)
Theorem workspace_Delete_contract {W} (sdk : client → ∀ r : request, M W goerror (response r))
    (s : storage W) (ctx : option context) (name : string) (dv : option (ValidateObjectFunc W))
    (st st' : Sdk.st W) (o : result (object * bool))
    (Hrun : Delete sdk (Some s) ctx name dv st = (o, st')) :
  delete_contract sdk s ctx name dv st o st'.
Proof. exact (wp_run _ _ _ _ _ (workspace_Delete_wp sdk s ctx name dv st) Hrun). Qed.

(** *** A defect *)

(** [Create] builds the resource name of a template lookup error with
    [BuildTemplateName], which panics on a dot: a template name with a dot that
    the backend does not know crashes the handler instead of reporting 404. *)
Lemma lookupTemplate_dotted_panics {W} (sdk : client → ∀ r : request, M W goerror (response r))
    c org orgID tname st err w :
  sdk c (RTemplateByName orgID tname) (st_world st) = (Err err, w) →
  valid_segment org → tname ≠ "" → contains_char "." tname = true →
  ∃ p, (lookupTemplate sdk c org orgID tname st).1 = Panic p.
Proof.
  intros Hcall Horg Hne%String.eqb_neq Hdot. unfold lookupTemplate, call. rewrite Hcall.
  unfold BuildTemplateName. rewrite (assertNameSegment_valid _ _ Horg). cbn.
  unfold assertNameSegment, nameSeparator. rewrite Hne, Hdot. cbn. eauto.
Qed.

(** ** A concrete backend *)

Definition toy_client : client := {|
  client_URL := example_url "http://coder"; client_SessionToken := "tok";
  client_Timeout := 30 * Second |}.

Definition toy_template : Template := {|
  t_ID := 5; t_CreatedAt := 1; t_UpdatedAt := 2; t_OrganizationName := "acme"; t_Name := "go";
  t_DisplayName := ""; t_Description := ""; t_Icon := ""; t_ActiveVersionID := 12;
  t_Deprecated := false |}%Z.

Definition toy_sdk (c : client) (r : request) : M () goerror (response r) :=
  match r as r return M () goerror (response r) with
  | ROrganizationByName name => mret {| org_ID := 3%Z; org_Name := name |}
  | RTemplateByName _ _ => mret toy_template
  | RWorkspaceByOwnerAndName _ name => mret (example_workspace name 10%Z)
  | RCreateUserWorkspace _ req => mret (example_workspace (cwr_Name req) 20%Z)
  | RCreateWorkspaceBuild _ transition => mret (example_build transition "pending")
  | _ => throw (ErrorString "not in this backend")
  end.

Definition toy_storage : storage () :=
  MkStorage (Some (static_provider {| static_Client := Some toy_client; static_Namespace := "ns" |})) true.

Definition toy_ctx : option context := Some {| ctx_namespace := "ns"; ctx_deadline := None |}.
Definition toy_state : Sdk.st () := St tt [] (Chan [] false).

(** The patch that sets [spec.running]. *)
Definition set_running (running : bool) : UpdatedObjectInfo () := λ obj,
  match obj with
  | OWorkspace (Some w) => mret (Some (OWorkspace (Some {|
      ws_type := ws_type w; ws_meta := ws_meta w;
      ws_Spec := {|
        wss_Organization := wss_Organization (ws_Spec w);
        wss_TemplateName := wss_TemplateName (ws_Spec w);
        wss_TemplateVersionID := wss_TemplateVersionID (ws_Spec w); wss_Running := running;
        wss_TTLMillis := wss_TTLMillis (ws_Spec w);
        wss_AutostartSchedule := wss_AutostartSchedule (ws_Spec w) |};
      ws_Status := ws_Status w |})))
  | obj => mret (Some obj)
  end.

Definition toy_update := Update toy_sdk (Some toy_storage) toy_ctx "acme.ann.dev"
  (Some (set_running false)) None None false toy_state.

Lemma workspace_Update_contract_witness :
  mutations (st_trace toy_update.2) = [(toy_client, RCreateWorkspaceBuild 42%Z "stop")] ∧
  update_contract toy_sdk toy_storage toy_ctx "acme.ann.dev" (set_running false) None None false
    toy_state toy_update.1 toy_update.2.
Proof.
  split; [vm_compute; reflexivity|].
  apply (workspace_Update_contract toy_sdk toy_storage toy_ctx "acme.ann.dev" (set_running false)
    None None false toy_state toy_update.2 toy_update.1). apply surjective_pairing.
Defined.

Definition toy_object : object := OWorkspace (Some {|
  ws_type := {| Kind := "CoderWorkspace"; APIVersion := SchemeGroupVersion |};
  ws_meta := set_meta_name "acme.ann.dev" empty_meta;
  ws_Spec := {| wss_Organization := "acme"; wss_TemplateName := "go"; wss_TemplateVersionID := "";
                wss_Running := false; wss_TTLMillis := None; wss_AutostartSchedule := None |};
  ws_Status := ws_Status empty_workspace |}).

Definition toy_create := Create toy_sdk (Some toy_storage) toy_ctx (Some toy_object) None toy_state.

Lemma workspace_Create_contract_witness :
  length (mutations (st_trace toy_create.2)) = 2%nat ∧ length (ch_buf (st_queue toy_create.2)) = 1%nat ∧
  create_contract toy_sdk toy_storage toy_ctx toy_object None toy_state toy_create.1 toy_create.2.
Proof.
  split; [vm_compute; reflexivity|]. split; [vm_compute; reflexivity|].
  apply (workspace_Create_contract toy_sdk toy_storage toy_ctx toy_object None toy_state
    toy_create.2 toy_create.1). apply surjective_pairing.
Defined.

Definition toy_delete := Delete toy_sdk (Some toy_storage) toy_ctx "acme.ann.dev" None toy_state.

Lemma workspace_Delete_contract_witness :
  toy_delete.1 = Ret (OStatus "Success", false) ∧
  mutations (st_trace toy_delete.2) = [(toy_client, RCreateWorkspaceBuild 42%Z "delete")] ∧
  delete_contract toy_sdk toy_storage toy_ctx "acme.ann.dev" None toy_state toy_delete.1 toy_delete.2.
Proof.
  split; [vm_compute; reflexivity|]. split; [vm_compute; reflexivity|].
  apply (workspace_Delete_contract toy_sdk toy_storage toy_ctx "acme.ann.dev" None toy_state
    toy_delete.2 toy_delete.1). apply surjective_pairing.
Defined.
End WorkspaceStorage.
