(* ===== verification/BuildWait.v ===== *)
(** * BuildWait: waiting for a template version build (internal/aggregated/storage/template.go)

    The configuration read from the environment, the polling loop of
    [waitForTemplateVersionBuild] and the mapping of its errors.  The clock and
    the contexts are an interface: [Clock] holds what the loop asks of them,
    [ClockLaws] what the Go runtime guarantees. *)

From S2P Require Import Prelude GoStd GoErrors Uuid CoderErrors ApiTypes Providers AggTypes Sdk Storage.
From Stdlib Require Import Lia.

#[local] Open Scope string_scope.
#[local] Open Scope list_scope.
#[local] Open Scope Z_scope.

Module BuildWait.
Import Uuid CoderErrors Providers Sdk Storage.

(** ** Constants and configuration *)

Definition Minute : Z := 60 * Second.
Definition templateVersionBuildWaitTimeoutEnv := "CODER_K8S_TEMPLATE_BUILD_WAIT_TIMEOUT".
Definition templateVersionBuildBackoffAfterEnv := "CODER_K8S_TEMPLATE_BUILD_BACKOFF_AFTER".
Definition templateVersionBuildInitialPollIntervalEnv := "CODER_K8S_TEMPLATE_BUILD_INITIAL_POLL_INTERVAL".
Definition templateVersionBuildMaxPollIntervalEnv := "CODER_K8S_TEMPLATE_BUILD_MAX_POLL_INTERVAL".
Definition defaultTemplateVersionBuildWaitTimeout : Z := 25 * Minute.
Definition defaultTemplateVersionBuildBackoffAfter : Z := 2 * Minute.
Definition defaultTemplateVersionBuildInitialPoll : Z := 2 * Second.
Definition defaultTemplateVersionBuildMaxPollInterval : Z := 10 * Second.
Definition MaxTemplateVersionBuildWaitTimeout : Z := 30 * Minute.

Record templateVersionBuildWaitConfig := {
  waitTimeout : Z; backoffAfter : Z; initialPoll : Z; maxPollInterval : Z
}.

Section config.
(** [os.Getenv] and [time.ParseDuration]. *)
Context (getenv : string → string) (ParseDuration : string → result Z).

Definition parseDurationEnvOrDefault (envName : string) (defaultValue : Z) : result Z :=
  _ ← fail_if (String.eqb envName "")
        (assertion "assertion failed: environment variable name must not be empty");
  let rawValue := trim_space (getenv envName) in
  if String.eqb rawValue "" then mret defaultValue
  else
    match ParseDuration rawValue with
    | Err parseErr => Err (Errorf "parse %s=%q: %w" [FStr envName; FStr rawValue; FErrW parseErr])
    | r => r
    end.

Definition loadTemplateVersionBuildWaitConfigFromEnv : result templateVersionBuildWaitConfig :=
  wait ← parseDurationEnvOrDefault templateVersionBuildWaitTimeoutEnv
           defaultTemplateVersionBuildWaitTimeout;
  _ ← fail_if (wait <=? 0) (Errorf "assertion failed: %s must be > 0, got %s"
        [FStr templateVersionBuildWaitTimeoutEnv; FInt wait]);
  _ ← fail_if (MaxTemplateVersionBuildWaitTimeout <? wait)
        (Errorf "assertion failed: %s (%s) must be <= %s (%s)"
           [FStr templateVersionBuildWaitTimeoutEnv; FInt wait;
            FStr "aggregated API request timeout"; FInt MaxTemplateVersionBuildWaitTimeout]);
  backoff ← parseDurationEnvOrDefault templateVersionBuildBackoffAfterEnv
              defaultTemplateVersionBuildBackoffAfter;
  _ ← fail_if (backoff <? 0) (Errorf "assertion failed: %s must be >= 0, got %s"
        [FStr templateVersionBuildBackoffAfterEnv; FInt backoff]);
  _ ← fail_if (wait <? backoff) (Errorf "assertion failed: %s (%s) must be <= %s (%s)"
        [FStr templateVersionBuildBackoffAfterEnv; FInt backoff;
         FStr templateVersionBuildWaitTimeoutEnv; FInt wait]);
  initial ← parseDurationEnvOrDefault templateVersionBuildInitialPollIntervalEnv
              defaultTemplateVersionBuildInitialPoll;
  _ ← fail_if (initial <=? 0) (Errorf "assertion failed: %s must be > 0, got %s"
        [FStr templateVersionBuildInitialPollIntervalEnv; FInt initial]);
  maxPoll ← parseDurationEnvOrDefault templateVersionBuildMaxPollIntervalEnv
              defaultTemplateVersionBuildMaxPollInterval;
  _ ← fail_if (maxPoll <=? 0) (Errorf "assertion failed: %s must be > 0, got %s"
        [FStr templateVersionBuildMaxPollIntervalEnv; FInt maxPoll]);
  _ ← fail_if (maxPoll <? initial) (Errorf "assertion failed: %s (%s) must be >= %s (%s)"
        [FStr templateVersionBuildMaxPollIntervalEnv; FInt maxPoll;
         FStr templateVersionBuildInitialPollIntervalEnv; FInt initial]);
  mret {| waitTimeout := wait; backoffAfter := backoff; initialPoll := initial;
          maxPollInterval := maxPoll |}.
End config.

(** What a loaded configuration guarantees. *)
Definition config_ok (cfg : templateVersionBuildWaitConfig) : Prop :=
  0 < waitTimeout cfg ≤ MaxTemplateVersionBuildWaitTimeout ∧
  0 ≤ backoffAfter cfg ≤ waitTimeout cfg ∧
  0 < initialPoll cfg ≤ maxPollInterval cfg ∧ maxPollInterval cfg ≤ int64_max.

(** ** The clock *)

Class Clock (W : Type) := {
  Now : W → Z;                                  (* time.Now() *)
  request_Err : context → W → option goerror;   (* ctx.Err() of the request context *)
  (** [select { case <-waitCtx.Done(): true; case <-time.After(d): false }] for
      the wait context of a request with the given deadline. *)
  select_after : context → Z → Z → W → bool * W
}.

(** [waitCtx.Err()]: the wait context ends with its request or at its deadline. *)
Definition wait_Err {W} `{!Clock W} (ctx : context) (deadline : Z) (w : W) : option goerror :=
  match request_Err ctx w with
  | Some err => Some err
  | None => if deadline <=? Now w then Some CtxDeadlineExceeded else None
  end.

(** What the runtime guarantees: time does not run backwards, a timer does not
    fire early, and a context that is done is noticed before a fresh timer. *)
Class ClockLaws {W} (C : Clock W) (sdk : client → ∀ r : request, M W goerror (response r)) := {
  sdk_monotone c r w : Now w ≤ Now (sdk c r w).2;
  select_monotone ctx dl d w : Now w ≤ Now (select_after ctx dl d w).2;
  select_timer ctx dl d w :
    (select_after ctx dl d w).1 = false → Now w + d ≤ Now (select_after ctx dl d w).2;
  select_done ctx dl d w : wait_Err ctx dl w ≠ None → (select_after ctx dl d w).1 = true;
  select_done_Err ctx dl d w :
    (select_after ctx dl d w).1 = true → wait_Err ctx dl (select_after ctx dl d w).2 ≠ None
}.

(** ** The polling loop *)

(** The poll interval of the next round: doubled, within [int64], once the
    backoff time has passed, and never above the maximum. *)
Definition next_poll (cfg : templateVersionBuildWaitConfig) (elapsed pollInterval : Z) : Z :=
  if (0 <? backoffAfter cfg) && (backoffAfter cfg <=? elapsed)
     && (pollInterval <? maxPollInterval cfg) then
    let nextPollInterval := wrap64 (pollInterval * 2) in
    if (nextPollInterval <=? 0) || (maxPollInterval cfg <? nextPollInterval)
    then maxPollInterval cfg else nextPollInterval
  else pollInterval.

Definition templateVersionBuildWaitTimeoutCause (requestErr waitErr : option goerror)
    : result goerror :=
  match waitErr with
  | None => Err (assertion "assertion failed: wait context finished without an error")
  | Some waitErr =>
      match requestErr with
      | Some requestErr => mret requestErr
      | None =>
          (* errors.Is(waitErr, context.DeadlineExceeded) *)
          match find_in_chain (λ e, match e with CtxDeadlineExceeded => Some tt | _ => None end) waitErr with
          | Some _ => mret WaitTimeoutExceeded
          | None => mret waitErr
          end
      end
  end.

Definition out_of_fuel : goerror := ErrorString "unreachable: out of fuel".

Section wait.
Context {W : Type} `{!Clock W} (sdk : client → ∀ r : request, M W goerror (response r)).

(** The error of a wait that ran out of time. *)
Definition timed_out (ctx : context) (deadline effective versionID : Z)
    (lastStatus lastError : string) : handler (W:=W) () :=
  s ← get;
  cause ← lift (templateVersionBuildWaitTimeoutCause (request_Err ctx (st_world s))
                  (wait_Err ctx deadline (st_world s)));
  throw (BuildTimeoutErr versionID effective lastStatus lastError cause).

Definition pending_status (status : string) : bool :=
  String.eqb status ProvisionerJobPending || String.eqb status ProvisionerJobRunning
  || String.eqb status ProvisionerJobCanceling || String.eqb status ProvisionerJobUnknown.

(** The [for] loop.  [start] is [pollStartTime]. *)
Fixpoint wait_loop (fuel : nat) (cfg : templateVersionBuildWaitConfig) (c : client) (ctx : context)
    (deadline effective start versionID pollInterval : Z) (lastStatus lastError : string)
    : handler (W:=W) () :=
  match fuel with
  | O => throw out_of_fuel
  | S fuel =>
      r ← attempt (call sdk c (RTemplateVersion versionID));
      match r with
      | inr err =>
          s ← get;
          if negb (is_nil (wait_Err ctx deadline (st_world s)))
          then timed_out ctx deadline effective versionID lastStatus lastError
          else throw (Errorf "fetch template version %q: %w"
                        [FStr (Uuid.to_string versionID); FErrW err])
      | inl version =>
          let job := tv_Job version in
          let status := if String.eqb (job_Status job) "" then ProvisionerJobUnknown else job_Status job in
          let lastError := job_Error job in
          if String.eqb status ProvisionerJobSucceeded then mret tt
          else if String.eqb status ProvisionerJobFailed || String.eqb status ProvisionerJobCanceled then
            throw (BuildTerminalErr versionID status
              (if String.eqb lastError "" then "template version build did not succeed" else lastError))
          else if negb (pending_status status) then
            throw (Errorf "assertion failed: unexpected template version build status %q for version %q"
                     [FStr status; FStr (Uuid.to_string versionID)])
          else
            s ← get;
            let pollInterval := next_poll cfg (Now (st_world s) - start) pollInterval in
            done ← ext (λ w, let '(done, w') := select_after ctx deadline pollInterval w in (Ret done, w'));
            if done : bool then timed_out ctx deadline effective versionID status lastError
            else wait_loop fuel cfg c ctx deadline effective start versionID pollInterval status lastError
      end
  end.

(** Enough rounds: each round but the last waits at least [initialPoll]. *)
Definition wait_fuel (cfg : templateVersionBuildWaitConfig) (effective : Z) : nat :=
  S (S (Z.to_nat (effective / initialPoll cfg))).

(** The wait bounded by the request's own deadline. *)
Definition effectiveWaitTimeout (cfg : templateVersionBuildWaitConfig) (ctx : context) (now : Z) : Z :=
  match ctx_deadline ctx with
  | Some requestDeadline =>
      let remaining := requestDeadline - now in
      if (0 <? remaining) && (remaining <? waitTimeout cfg) then remaining else waitTimeout cfg
  | None => waitTimeout cfg
  end.

Definition waitForTemplateVersionBuild (getenv : string → string) (ParseDuration : string → result Z)
    (ctx : option context) (sdkClient : option client) (versionID : Uuid.t) : handler (W:=W) () :=
  match ctx with
  | None => throw (assertion "assertion failed: context must not be nil")
  | Some ctx =>
      match sdkClient with
      | None => throw (assertion "assertion failed: codersdk client must not be nil")
      | Some c =>
          _ ← guard_err (Z.eqb versionID Uuid.Nil)
                (assertion "assertion failed: template version ID must not be nil");
          cfg ← lift (loadTemplateVersionBuildWaitConfigFromEnv getenv ParseDuration);
          s ← get;
          let now := Now (st_world s) in
          let effective := effectiveWaitTimeout cfg ctx now in
          wait_loop (wait_fuel cfg effective) cfg c ctx (now + effective) effective now versionID
            (initialPoll cfg) ProvisionerJobUnknown ""
      end
  end.
End wait.

(** ** The errors of a wait *)

(** [templateVersionBuildTerminalError.Error] *)
Definition terminal_Error (versionID : Z) (status detail : string) : result text :=
  _ ← panic_if (Z.eqb versionID Uuid.Nil)
        (ErrorString "assertion failed: template version build terminal error must include version ID");
  _ ← panic_if (String.eqb status "")
        (ErrorString "assertion failed: template version build terminal error must include status");
  mret (Sprintf "template version %q build ended with status %q: %s"
    [FStr (Uuid.to_string versionID); FStr status;
     FStr (if String.eqb detail "" then "template version build did not succeed" else detail)]).

(** [templateVersionBuildWaitTimeoutError.Error] *)
Definition timeout_Error (versionID waitTimeout : Z) (lastStatus lastError : string)
    (cause : goerror) : result text :=
  _ ← panic_if (Z.eqb versionID Uuid.Nil)
        (ErrorString "assertion failed: template version build timeout error must include version ID");
  _ ← panic_if (waitTimeout <=? 0)
        (ErrorString "assertion failed: template version build timeout error must include positive timeout");
  _ ← panic_if (String.eqb lastStatus "")
        (ErrorString "assertion failed: template version build timeout error must include last status");
  let args := [FStr (Uuid.to_string versionID); FInt waitTimeout; FStr lastStatus] in
  if String.eqb lastError "" then
    mret (Sprintf "template version %q did not succeed within %s (last status: %q): %v"
            (args ++ [FErrV cause]))
  else
    mret (Sprintf "template version %q did not succeed within %s (last status: %q, last error: %s): %v"
            (args ++ [FStr lastError; FErrV cause])).

(** [errors.Is(err, target)] for the sentinel errors. *)
Definition is_sentinel (target err : goerror) : bool :=
  match find_in_chain (λ e,
    match target, e with
    | WaitTimeoutExceeded, WaitTimeoutExceeded | CtxDeadlineExceeded, CtxDeadlineExceeded
    | CtxCanceled, CtxCanceled => Some tt
    | _, _ => None
    end) err with Some _ => true | None => false end.

Definition as_terminal (err : goerror) : option (Z * string * string) :=
  find_in_chain (λ e, match e with BuildTerminalErr v s d => Some (v, s, d) | _ => None end) err.
Definition as_timeout (err : goerror) : option (Z * Z * string * string * goerror) :=
  find_in_chain (λ e, match e with BuildTimeoutErr v t s l c => Some (v, t, s, l, c) | _ => None end) err.

(** [mapTemplateVersionBuildWaitError]: the mapped error, or a panic of [Error]. *)
Definition mapTemplateVersionBuildWaitError (waitErr : option goerror) (templateName : string)
    : result goerror :=
  match waitErr with
  | None => mret (assertion "assertion failed: wait error must not be nil")
  | Some waitErr =>
      if String.eqb templateName "" then
        mret (assertion "assertion failed: template name must not be empty")
      else
        match as_terminal waitErr with
        | Some (v, status, detail) =>
            message ← terminal_Error v status detail;
            mret (bad_request message)
        | None =>
            match as_timeout waitErr with
            | Some (v, t, status, lastError, cause) =>
                message ← timeout_Error v t status lastError cause;
                if is_sentinel WaitTimeoutExceeded cause then mret (bad_request message)
                else if is_sentinel CtxDeadlineExceeded cause || is_sentinel CtxCanceled cause
                then mret (StatusErr (NewTimeoutError message 0))
                else mret (StatusErr (NewInternalError (BuildTimeoutErr v t status lastError cause)))
            | None => mret (map_coder_err codertemplates templateName waitErr)
            end
        end
  end.


(** ** Properties of the configuration *)

(** [time.ParseDuration] returns a [time.Duration], a 64-bit integer. *)
Definition returns_durations (PD : string → result Z) : Prop := ∀ s d, PD s = Ret d → d ≤ int64_max.

Lemma parseDuration_int64 getenv PD env def d :
  returns_durations PD → def ≤ int64_max →
  parseDurationEnvOrDefault getenv PD env def = Ret d → d ≤ int64_max.
Proof.
  intros HPD Hdef. unfold parseDurationEnvOrDefault. intros H. inv_outcome H.
  destruct (String.eqb (trim_space (getenv env)) ""); [by injection H as <-|].
  destruct (PD _) as [d'|e|e] eqn:Hd; [|done..]. injection H as ->. by eapply HPD.
Qed.

Lemma load_config_ok getenv PD cfg :
  returns_durations PD → loadTemplateVersionBuildWaitConfigFromEnv getenv PD = Ret cfg → config_ok cfg.
Proof.
  unfold loadTemplateVersionBuildWaitConfigFromEnv, config_ok. intros HPD H. inv_outcome H.
  match goal with H : parseDurationEnvOrDefault _ _ templateVersionBuildMaxPollIntervalEnv _ = _ |- _ =>
    apply parseDuration_int64 in H; [|done|vm_compute; discriminate] end.
  bool_simpl. cbn in *. lia.
Qed.

(** Doubling a non-negative duration in 64 bits either is exact or turns
    negative. *)
Lemma wrap64_double p :
  0 ≤ p ≤ int64_max → wrap64 (p * 2) = p * 2 ∧ p * 2 ≤ int64_max ∨ wrap64 (p * 2) < 0 ∧ int64_max < p * 2.
Proof.
  unfold wrap64, int64_max. intros Hp.
  pose proof (Z.div_mod (p * 2 + 2 ^ 63) (2 ^ 64) ltac:(lia)).
  pose proof (Z.mod_pos_bound (p * 2 + 2 ^ 63) (2 ^ 64) ltac:(lia)). lia.
Qed.

Lemma next_poll_eq cfg elapsed p :
  0 < p ≤ maxPollInterval cfg → maxPollInterval cfg ≤ int64_max →
  next_poll cfg elapsed p =
  if (0 <? backoffAfter cfg) && (backoffAfter cfg <=? elapsed) then Z.min (2 * p) (maxPollInterval cfg)
  else p.
Proof.
  intros Hp Hmax. unfold next_poll. destruct (_ && (_ <=? _)) eqn:Hc; [|done]. cbn.
  destruct (Z.ltb_spec p (maxPollInterval cfg)); [|lia].
  destruct (wrap64_double p) as [[-> ?]|[? ?]]; [lia| |];
    destruct (_ || _) eqn:Ho; bool_simpl; try lia; apply orb_true_iff in Ho as [Ho|Ho]; lia.
Qed.

Lemma next_poll_bounds cfg elapsed p :
  config_ok cfg → initialPoll cfg ≤ p ≤ maxPollInterval cfg →
  p ≤ next_poll cfg elapsed p ≤ maxPollInterval cfg.
Proof.
  intros (_ & _ & Hp & Hmax) Hb. rewrite next_poll_eq by lia. destruct (_ && _); lia.
Qed.

(** ** Properties of the wait *)

Section wait_properties.
Context {W : Type} {C : Clock W} (sdk : client → ∀ r : request, M W goerror (response r)).
Context {CL : ClockLaws C sdk}.
Implicit Types (st : Sdk.st W).

(** The errors a wait can end with. *)
Inductive wait_error (ctx : context) (versionID effective : Z) : goerror → Prop :=
  | WETerminal status detail :
      status = ProvisionerJobFailed ∨ status = ProvisionerJobCanceled →
      wait_error ctx versionID effective (BuildTerminalErr versionID status detail)
  | WETimeout lastStatus lastError cause :
      lastStatus ≠ "" →
      cause = WaitTimeoutExceeded ∨ (∃ w, request_Err ctx w = Some cause) →
      wait_error ctx versionID effective
        (BuildTimeoutErr versionID effective lastStatus lastError cause)
  | WEFetch c w err w' :
      sdk c (RTemplateVersion versionID) w = (Err err, w') →
      wait_error ctx versionID effective (Errorf "fetch template version %q: %w"
        [FStr (Uuid.to_string versionID); FErrW err])
  | WEUnexpected status :
      wait_error ctx versionID effective (Errorf
        "assertion failed: unexpected template version build status %q for version %q"
        [FStr status; FStr (Uuid.to_string versionID)]).

(** The outcome of a wait that issued [n] polls: a success is the answer to
    the last poll. *)
Definition wait_outcome (c : client) (ctx : context) (versionID effective : Z) (n : nat) st
    (o : result ()) st' : Prop :=
  st_trace st' = st_trace st ++ replicate n (c, RTemplateVersion versionID) ∧
  st_queue st' = st_queue st ∧
  match o with
  | Ret _ => ∃ w (tv : TemplateVersion), sdk c (RTemplateVersion versionID) w = (Ret tv, st_world st') ∧
               job_Status (tv_Job tv) = ProvisionerJobSucceeded
  | Err e => wait_error ctx versionID effective e
  | Panic e => ∃ w w', sdk c (RTemplateVersion versionID) w = (Panic e, w')
  end.

Lemma timed_out_wp ctx dl effective vid ls le st :
  wait_Err ctx dl (st_world st) ≠ None → ls ≠ "" →
  wp (timed_out ctx dl effective vid ls le)
    (λ o st', st' = st ∧ ∃ e, o = Err e ∧ wait_error ctx vid effective e) st.
Proof.
  intros Hw Hls. unfold timed_out. do 2 wp_step. unfold wp_cont.
  unfold wait_Err in *. destruct (request_Err ctx (st_world st)) as [cause|] eqn:Hr.
  - apply wp_bind, wp_lift. cbn. unfold wp_cont. wp_step. split; [done|]. eexists. split; [done|].
    apply WETimeout; [done|]. right. eauto.
  - destruct (dl <=? Now (st_world st)) eqn:Hd; [|done].
    apply wp_bind, wp_lift. cbn. unfold wp_cont. wp_step. split; [done|]. eexists. split; [done|].
    apply WETimeout; [done|]. by left.
Qed.

(** One more poll in front of the polls of the following rounds. *)
Lemma replicate_poll {A} (x : A) n l : (l ++ [x]) ++ replicate n x = l ++ replicate (S n) x.
Proof. by rewrite <-app_assoc. Qed.

Lemma timed_out_outcome c ctx vid effective st dl ls le w :
  wait_Err ctx dl w ≠ None → ls ≠ "" →
  wp (timed_out ctx dl effective vid ls le) (wait_outcome c ctx vid effective 1 st)
    (St w (st_trace st ++ [(c, RTemplateVersion vid)]) (st_queue st)).
Proof.
  intros Hw Hls. eapply wp_mono; [|by apply timed_out_wp].
  intros o st' (-> & e & -> & He). by split_and!.
Qed.

Lemma wait_loop_wp fuel cfg c ctx dl effective start vid p ls le st :
  config_ok cfg → initialPoll cfg ≤ p ≤ maxPollInterval cfg → ls ≠ "" → (1 ≤ fuel)%nat →
  dl - Now (st_world st) ≤ initialPoll cfg * (Z.of_nat fuel - 1) →
  wp (wait_loop sdk fuel cfg c ctx dl effective start vid p ls le)
    (λ o st', ∃ n, (1 ≤ n ≤ fuel)%nat ∧ wait_outcome c ctx vid effective n st o st') st.
Proof.
  intros Hcfg. revert p ls le st. induction fuel as [|fuel IH]; intros p ls le st Hp Hls Hf Hdl; [lia|].
  cbn [wait_loop]. apply wp_bind, wp_attempt. wp_request.
  pose proof (sdk_monotone c (RTemplateVersion vid) (st_world st)) as Hmono. rewrite Hcall in Hmono. cbn in Hmono.
  assert (∀ (o : result ()) st', wait_outcome c ctx vid effective 1 st o st' →
    ∃ n, (1 ≤ n ≤ S fuel)%nat ∧ wait_outcome c ctx vid effective n st o st') as Hone.
  { intros o' st' Ho. exists 1%nat. split; [lia|done]. }
  destruct o as [tv|err|e]; unfold wp_cont.
  2: { do 2 wp_step. unfold wp_cont. cbn [st_world]. destruct (wait_Err ctx dl w) eqn:Hw; cbn [is_nil negb].
       - eapply wp_mono; [exact Hone|]. apply timed_out_outcome; [by rewrite Hw|done].
       - wp_step. apply Hone. split_and!; [done..|]. by eapply WEFetch. }
  2: { apply Hone. split_and!; [done..|]. eauto. }
  set (status := if String.eqb (job_Status (tv_Job tv)) "" then _ else _).
  assert (status ≠ "") as Hst.
  { unfold status. by destruct (String.eqb_spec (job_Status (tv_Job tv)) ""). }
  destruct (String.eqb_spec status ProvisionerJobSucceeded) as [Hs|_].
  { wp_step. apply Hone. split_and!; [done..|]. exists (st_world st), tv. split; [done|].
    unfold status in Hs. by destruct (String.eqb_spec (job_Status (tv_Job tv)) ""). }
  destruct (String.eqb status ProvisionerJobFailed || _) eqn:Hterm.
  { wp_step. apply Hone. split_and!; [done..|]. apply WETerminal.
    apply orb_true_iff in Hterm. by rewrite !String.eqb_eq in Hterm. }
  destruct (negb (pending_status status)).
  { wp_step. apply Hone. split_and!; [done..|]. apply WEUnexpected. }
  do 2 wp_step. unfold wp_cont. cbn [st_world]. set (np := next_poll cfg (Now w - start) p).
  pose proof (next_poll_bounds cfg (Now w - start) p Hcfg Hp) as Hnp. fold np in Hnp.
  wp_step. wp_request. cbn [st_world st_trace st_queue] in *.
  pose proof (select_monotone ctx dl np w) as Hm2. pose proof (select_timer ctx dl np w) as Htm.
  pose proof (select_done ctx dl np w) as Hdone. pose proof (select_done_Err ctx dl np w) as HdE.
  destruct (select_after ctx dl np w) as [done w1]. injection Hcall0 as <- <-. cbn in *.
  unfold wp_cont. destruct done.
  { eapply wp_mono; [exact Hone|]. apply timed_out_outcome; [by apply HdE|done]. }
  assert (Now w < dl) as Hlt.
  { destruct (Z.lt_ge_cases (Now w) dl) as [|Hge]; [done|]. exfalso. discriminate Hdone.
    unfold wait_Err. destruct (request_Err ctx w); [done|]. apply Z.leb_le in Hge. by rewrite Hge. }
  specialize (Htm eq_refl). destruct Hcfg as (_ & _ & [Hi _] & _).
  eapply wp_mono; [|apply IH; [lia|done|nia|cbn; nia]].
  intros o st' (n & Hn & Ht & Hq & Ho). exists (S n). split; [lia|].
  split; [by rewrite Ht; apply replicate_poll|]. by split.
Qed.
End wait_properties.

(** The poll interval never leaves the configured range.  A configuration
    that loads has a wait timeout of at most thirty minutes, a backoff time
    within it and a positive initial poll interval below the maximum; from an
    interval in range the next one is unchanged before the backoff time, and
    exactly [min (2 * p) max] after it, even when the doubling overflows 64
    bits. *)
Theorem poll_interval_bounds (getenv : string → string) (PD : string → result Z)
    (HPD : returns_durations PD) (cfg : templateVersionBuildWaitConfig)
    (Hload : loadTemplateVersionBuildWaitConfigFromEnv getenv PD = Ret cfg) (elapsed p : Z)
    (Hp : initialPoll cfg ≤ p ≤ maxPollInterval cfg) :
  0 < waitTimeout cfg ≤ 30 * 60 * Second ∧ 0 ≤ backoffAfter cfg ≤ waitTimeout cfg ∧
  0 < initialPoll cfg ≤ maxPollInterval cfg ∧
  initialPoll cfg ≤ next_poll cfg elapsed p ≤ maxPollInterval cfg ∧
  next_poll cfg elapsed p =
    if (0 <? backoffAfter cfg) && (backoffAfter cfg <=? elapsed) then Z.min (2 * p) (maxPollInterval cfg)
    else p.
Proof.
  pose proof (load_config_ok _ _ _ HPD Hload) as Hcfg.
  pose proof (next_poll_bounds cfg elapsed p Hcfg Hp) as Hn.
  destruct Hcfg as (Hw & Hb & Hi & Hm). unfold MaxTemplateVersionBuildWaitTimeout, Minute in Hw.
  split_and!; try lia. apply next_poll_eq; lia.
Qed.

Lemma effective_bounds cfg ctx now :
  0 < waitTimeout cfg → 0 < effectiveWaitTimeout cfg ctx now ≤ waitTimeout cfg.
Proof.
  intros Hw. unfold effectiveWaitTimeout. destruct (ctx_deadline ctx) as [d|]; [|lia].
  cbn zeta. destruct (_ && _) eqn:Hc; [|lia]. bool_simpl. lia.
Qed.

(** C27: waiting for a build ends and never lies.  With a clock that does not
    run backwards, timers that do not fire early and contexts that are noticed
    when done, every wait with a loadable configuration ends within
    [waitTimeout / initialPoll + 2] polls (the loop never runs out of the fuel
    the model gives it), asks for nothing but the awaited version, queues
    nothing, and returns success only if the backend's answer to its last poll
    had status "succeeded". *)
Theorem wait_terminates {W} {C : Clock W} (sdk : client → ∀ r : request, M W goerror (response r))
    {CL : ClockLaws C sdk} (getenv : string → string) (PD : string → result Z)
    (HPD : returns_durations PD) (cfg : templateVersionBuildWaitConfig)
    (Hload : loadTemplateVersionBuildWaitConfigFromEnv getenv PD = Ret cfg)
    (ctx : context) (c : client) (versionID : Uuid.t) (Hid : versionID ≠ Uuid.Nil)
    (st st' : Sdk.st W) (o : result ())
    (Hrun : waitForTemplateVersionBuild sdk getenv PD (Some ctx) (Some c) versionID st = (o, st')) :
  ∃ n effective, 0 < effective ≤ waitTimeout cfg ∧ (1 ≤ n)%nat ∧
    Z.of_nat n ≤ waitTimeout cfg / initialPoll cfg + 2 ∧
    wait_outcome sdk c ctx versionID effective n st o st'.
Proof.
  pose proof (load_config_ok _ _ _ HPD Hload) as Hcfg. pose proof Hcfg as ((Hw & _) & _ & Hi & _).
  pose proof (effective_bounds cfg ctx (Now (st_world st)) Hw) as He.
  set (effective := effectiveWaitTimeout cfg ctx (Now (st_world st))) in *.
  assert (0 ≤ effective / initialPoll cfg ≤ waitTimeout cfg / initialPoll cfg) as Hq.
  { split; [apply Z.div_pos; lia|apply Z.div_le_mono; lia]. }
  assert (wp (waitForTemplateVersionBuild sdk getenv PD (Some ctx) (Some c) versionID)
    (λ o st', ∃ n, (1 ≤ n ≤ wait_fuel cfg effective)%nat ∧
                   wait_outcome sdk c ctx versionID effective n st o st') st) as Hwp.
  { unfold waitForTemplateVersionBuild. apply Z.eqb_neq in Hid. rewrite Hid, Hload.
    do 2 wp_step; intros; [done|]. unfold wp_cont. do 2 wp_step. unfold wp_cont. do 2 wp_step.
    unfold wp_cont. fold effective.
    apply wait_loop_wp; [done..|lia|done|unfold wait_fuel; lia|].
    unfold wait_fuel. pose proof (Z.div_mod effective (initialPoll cfg) ltac:(lia)).
    pose proof (Z.mod_pos_bound effective (initialPoll cfg) ltac:(lia)). nia. }
  apply (wp_run _ _ _ _ _ Hwp) in Hrun as (n & Hn & Ho).
  exists n, effective. unfold wait_fuel in Hn. split_and!; try lia. exact Ho.
Qed.

(** The errors of a wait reach the client as API errors that say whose
    limit was hit, and formatting them never panics.  A failed or canceled build
    and an exhausted wait limit of the server are 400; the end of the request's
    own deadline, or its cancellation, is 504; an error of the backend is mapped
    like every backend error. *)
Theorem wait_error_mapping {W} {C : Clock W} (sdk : client → ∀ r : request, M W goerror (response r))
    (Hsdk : ∀ c r w err w', sdk c r w = (Err err, w') → as_terminal err = None ∧ as_timeout err = None)
    (ctx : context) (versionID effective : Z) (name : string) (e : goerror)
    (Hid : versionID ≠ Uuid.Nil) (Heff : 0 < effective) (Hname : name ≠ "")
    (He : wait_error sdk ctx versionID effective e) :
  ∃ e', mapTemplateVersionBuildWaitError (Some e) name = Ret e' ∧ is_api_error e' = true ∧
    match e with
    | BuildTerminalErr _ _ _ => ∃ s, e' = StatusErr s ∧ status_code s = 400
    | BuildTimeoutErr _ _ _ _ cause =>
        ∃ s, e' = StatusErr s ∧
          (cause = WaitTimeoutExceeded → status_code s = 400) ∧
          (cause = CtxDeadlineExceeded ∨ cause = CtxCanceled → status_code s = 504)
    | _ => e' = map_coder_err codertemplates name e
    end.
Proof.
  unfold mapTemplateVersionBuildWaitError. apply String.eqb_neq in Hname as Hn. rewrite Hn.
  apply Z.eqb_neq in Hid.
  assert (∀ err, is_api_error (map_coder_err codertemplates name err) = true) as Hmap.
  { intros err. by apply MapCoderError_api. }
  destruct He as [status detail Hs|ls le cause Hls _|c w err w' Hcall|status].
  - cbn. unfold terminal_Error. rewrite Hid. destruct Hs as [->| ->]; cbn; eexists; split_and!; eauto.
  - cbn. unfold timeout_Error. apply String.eqb_neq in Hls. rewrite Hid, Hls.
    destruct (Z.leb_spec effective 0) as [|_]; [lia|]. cbn.
    destruct (String.eqb le ""); cbn; unfold is_sentinel;
      repeat case_match; eexists; (split; [done|]); (split; [done|]); eexists; (split; [done|]);
      (split; [intros ->|intros [-> | ->]]); cbn in *; done.
  - destruct (Hsdk _ _ _ _ _ Hcall) as [H1 H2].
    replace (as_terminal _) with (@None (Z * string * string)) by (unfold as_terminal in *; cbn; by rewrite H1).
    replace (as_timeout _) with (@None (Z * Z * string * string * goerror)) by (unfold as_timeout in *; cbn; by rewrite H2).
    eauto.
  - eexists. split; [reflexivity|]. split; [apply Hmap|done].
Qed.

(** ** A concrete wait

    The world counts seconds and polls; a build that succeeds at the third poll,
    a clock that never notices a context before its timer. *)

Definition toy_clock : Clock (Z * Z) := {|
  Now := λ w, w.1;
  request_Err := λ _ _, None;
  select_after := λ _ dl d w, if (dl <=? w.1) then (true, w) else (false, (w.1 + Z.max 0 d, w.2))
|}.

Definition toy_build (c : client) (r : request) : M (Z * Z) goerror (response r) :=
  match r as r return M (Z * Z) goerror (response r) with
  | RTemplateVersion v => λ w,
      (Ret {| tv_ID := v; tv_TemplateID := None;
              tv_Job := {| job_FileID := 9; job_Error := "";
                           job_Status := if w.2 <? 2 then "running" else "succeeded" |} |},
       (w.1, w.2 + 1))
  | _ => throw (ErrorString "not in this backend")
  end.

#[export] Instance toy_clock_laws : ClockLaws toy_clock toy_build.
Proof.
  constructor.
  - intros c r w. destruct r; cbn; lia.
  - intros ctx dl d w. cbn. destruct (dl <=? w.1); cbn; lia.
  - intros ctx dl d w. cbn. destruct (dl <=? w.1); cbn; [done|lia].
  - intros ctx dl d w. unfold wait_Err. cbn. by destruct (dl <=? w.1).
  - intros ctx dl d w. unfold wait_Err. cbn. destruct (dl <=? w.1) eqn:E; cbn; by rewrite ?E.
Defined.

Definition no_env : string → string := λ _, EmptyString.
Definition no_durations : string → result Z := λ _, Err (ErrorString "time: invalid duration").

Lemma no_durations_ok : returns_durations no_durations.
Proof. intros s d H. discriminate H. Defined.

Definition default_config : templateVersionBuildWaitConfig := {|
  waitTimeout := defaultTemplateVersionBuildWaitTimeout;
  backoffAfter := defaultTemplateVersionBuildBackoffAfter;
  initialPoll := defaultTemplateVersionBuildInitialPoll;
  maxPollInterval := defaultTemplateVersionBuildMaxPollInterval |}.

Lemma poll_interval_bounds_witness :
  2 * Second ≤ next_poll default_config (3 * Minute) (8 * Second) ≤ 10 * Second ∧
  next_poll default_config (3 * Minute) (8 * Second) = 10 * Second.
Proof.
  destruct (poll_interval_bounds no_env no_durations no_durations_ok default_config eq_refl
    (3 * Minute) (8 * Second)) as (_ & _ & _ & H1 & H2); [split; vm_compute; discriminate|].
  split; [exact H1|exact H2].
Defined.

Definition toy_wait_state : Sdk.st (Z * Z) := St (0, 0) [] (Chan [] false).
Definition toy_wait_ctx : context := {| ctx_namespace := "ns"; ctx_deadline := None |}.
Definition toy_wait_client : client := {|
  client_URL := example_url "http://coder"; client_SessionToken := "tok";
  client_Timeout := 30 * Second |}.
Definition toy_wait :=
  @waitForTemplateVersionBuild _ toy_clock toy_build no_env no_durations (Some toy_wait_ctx)
    (Some toy_wait_client) 77 toy_wait_state.

Lemma wait_terminates_witness :
  toy_wait.1 = Ret tt ∧ length (st_trace toy_wait.2) = 3%nat ∧
  ∃ n effective, 0 < effective ≤ 25 * Minute ∧ (1 ≤ n)%nat ∧ Z.of_nat n ≤ 752 ∧
    wait_outcome toy_build toy_wait_client toy_wait_ctx 77 effective n toy_wait_state
      toy_wait.1 toy_wait.2 (C:=toy_clock).
Proof.
  split; [vm_compute; reflexivity|]. split; [vm_compute; reflexivity|].
  apply (wait_terminates (C:=toy_clock) toy_build no_env no_durations no_durations_ok default_config eq_refl
    toy_wait_ctx toy_wait_client 77 ltac:(discriminate) toy_wait_state toy_wait.2 toy_wait.1).
  apply surjective_pairing.
Defined.

Lemma wait_error_mapping_witness :
  ∃ e', mapTemplateVersionBuildWaitError (Some (BuildTimeoutErr 77 Minute "running" "" WaitTimeoutExceeded))
          "acme.go" = Ret e' ∧ is_api_error e' = true ∧
    ∃ s, e' = StatusErr s ∧ status_code s = 400.
Proof.
  destruct (wait_error_mapping (C:=toy_clock) toy_build) with (ctx := toy_wait_ctx) (versionID := 77)
    (effective := Minute) (name := "acme.go")
    (e := BuildTimeoutErr 77 Minute "running" EmptyString WaitTimeoutExceeded) as (e' & H1 & H2 & s & H3 & H4 & _).
  - intros c r w err w' H. destruct r; try discriminate H; injection H as <- <-; split; reflexivity.
  - discriminate.
  - reflexivity.
  - discriminate.
  - apply WETimeout; [discriminate|by left].
  - exists e'. split; [exact H1|]. split; [exact H2|]. exists s. split; [exact H3|by apply H4].
Defined.
End BuildWait.
