(* ===== verification/TemplateStorage.v ===== *)
(** * TemplateStorage: internal/aggregated/storage/template.go

    The REST handlers of the CoderTemplate resource.  An update of a template's
    files uploads a merged source archive, creates a version, waits for its
    build and promotes it. *)

From S2P Require Import Prelude GoStd GoErrors Uuid Names CoderErrors ApiTypes Providers AggTypes Sdk Convert Watch TemplateFiles Storage HandlerLogic BuildWait.
From Stdlib Require Import Lia.

#[local] Open Scope string_scope.
#[local] Open Scope list_scope.

Module TemplateStorage.
Import Uuid Names CoderErrors Providers Sdk Convert Watch TemplateFiles Storage HandlerLogic BuildWait.

Definition templateListType : TypeMeta :=
  {| Kind := "CoderTemplateList"; APIVersion := SchemeGroupVersion |}.

(** The order [sort.Slice] puts list items in: namespace, then name. *)
Definition template_le (t1 t2 : CoderTemplate) : Prop :=
  let m1 := tpl_meta t1 in let m2 := tpl_meta t2 in
  if decide (Namespace m1 = Namespace m2) then String.le (Name m1) (Name m2)
  else String.le (Namespace m1) (Namespace m2).
#[global] Instance template_le_dec t1 t2 : Decision (template_le t1 t2).
Proof. unfold template_le. cbn zeta. destruct (decide _); apply _. Defined.

Definition ProvisionerStorageMethodFile := "file".
Definition ProvisionerTypeTerraform := "terraform".

Section template_storage.
Context {W : Type} `{!Clock W} {ZA : ZipArchive}.
Context (sdk : client → ∀ r : request, M W goerror (response r)).
Context (range : ∀ V : Type, gmap string V → list (string * V)).
Context (ReadBodyAsError : http_response → goerror).
Context (getenv : string → string) (ParseDuration : string → result Z).

Definition New : object := OTemplate (Some empty_template).
Definition NamespaceScoped : bool := true.
Definition GetSingularName : string := "codertemplate".
Definition NewList : object := OTemplateList {| Kind := ""; APIVersion := "" |} [].

Definition nil_storage : goerror := assertion "assertion failed: template storage must not be nil".
Definition nil_context : goerror := assertion "assertion failed: context must not be nil".
Definition nil_broadcaster : goerror :=
  assertion "assertion failed: template broadcaster must not be nil".
Definition empty_name : goerror := assertion "assertion failed: template name must not be empty".

Definition parseName (name : string) : handler (W:=W) (string * string) :=
  map_err (λ err, bad_request (Sprintf "invalid template name %q: %v" [FStr name; FErrV err]))
    (lift (ParseTemplateName name)).

Definition template_client (s : storage W) (ctx : option context) (namespace : string)
    : handler (W:=W) client :=
  map_err wrap_client_err (clientForNamespace "template" s ctx namespace).

(** [Get], as the [*CoderTemplate] it returns. *)
Definition getTemplate (s : option (storage W)) (ctx : option context) (name : string)
    : handler (W:=W) CoderTemplate :=
  match s with
  | None => throw nil_storage
  | Some s =>
      _ ← guard_err (is_nil ctx) nil_context;
      _ ← guard_err (String.eqb name "") empty_name;
      namespace ← lift (requiredNamespaceFromRequestContext ctx);
      '(orgName, templateName) ← parseName name;
      c ← template_client s ctx namespace;
      org ← map_err (map_coder_err codertemplates name) (call sdk c (ROrganizationByName orgName));
      template ← map_err (map_coder_err codertemplates name)
                   (call sdk c (RTemplateByName (org_ID org) templateName));
      obj ← lift (TemplateToK8s namespace template);
      files ← map_err (λ err, Errorf "fetch template source files: %w" [FErrW err])
        (fetchTemplateSourceFiles sdk ReadBodyAsError ctx (Some c) (t_ActiveVersionID template));
      mret (set_template_files (Some files) obj)
  end.

Definition Get (s : option (storage W)) (ctx : option context) (name : string)
    : handler (W:=W) object :=
  t ← getTemplate s ctx name; mret (OTemplate (Some t)).

(** *** List *)

Definition convertAll (namespace : string) (items : list CoderTemplate) (templates : list Template)
    : result (list CoderTemplate) :=
  mfold (λ items template,
    obj ← TemplateToK8s namespace template; mret (items ++ [obj])) items templates.

Definition listNamespace (s : storage W) (ctx : option context) (items : list CoderTemplate)
    (eligibleNamespace : string) : handler (W:=W) (list CoderTemplate) :=
  c ← template_client s ctx eligibleNamespace;
  templates ← map_err (map_coder_err codertemplates "<list>") (call sdk c RTemplates);
  lift (convertAll eligibleNamespace items templates).

Definition ListAll (s : storage W) (ctx : option context)
    (eligible : option context → M W goerror (list string)) : handler (W:=W) object :=
  namespaces ← ext (eligible ctx);
  items ← mfor (listNamespace s ctx) [] namespaces;
  mret (OTemplateList templateListType (merge_sort template_le items)).

Definition ListOne (s : storage W) (ctx : option context) (namespace : string)
    : handler (W:=W) object :=
  responseNamespace ← namespaceForListConversion ctx namespace (provider s);
  c ← template_client s ctx namespace;
  templates ← map_err (map_coder_err codertemplates "<list>") (call sdk c RTemplates);
  items ← lift (convertAll responseNamespace [] templates);
  mret (OTemplateList templateListType items).

(** [s.provider.(coder.NamespaceLister)] *)
Definition namespaceLister (s : storage W) : option (option context → M W goerror (list string)) :=
  match provider s with Some p => EligibleNamespaces _ p | None => None end.

Definition List (s : option (storage W)) (ctx : option context) : handler (W:=W) object :=
  match s with
  | None => throw nil_storage
  | Some s =>
      _ ← guard_err (is_nil ctx) nil_context;
      namespace ← lift (namespaceFromRequestContext ctx);
      match namespaceLister s with
      | Some eligible =>
          if String.eqb namespace "" then ListAll s ctx eligible else ListOne s ctx namespace
      | None => ListOne s ctx namespace
      end
  end.

Definition Watch := storageWatch (W:=W) "template".

(** *** Create *)

(** The checks on the object, up to the choice of the backend. *)
Definition checkObject (ctx : option context) (templateObj : CoderTemplate)
    : handler (W:=W) (string * (string * string)) :=
  let meta := tpl_meta templateObj in
  let org := ts_Organization (tpl_Spec templateObj) in
  _ ← guard_err (String.eqb (Name meta) "") (bad_request (Lit "metadata.name must not be empty"));
  namespace ← lift (requiredNamespaceFromRequestContext ctx);
  _ ← guard_err (negb (String.eqb (Namespace meta) "") && negb (String.eqb (Namespace meta) namespace))
        (bad_request (Sprintf "metadata.namespace %q must match request namespace %q"
           [FStr (Namespace meta); FStr namespace]));
  '(orgName, templateName) ← parseName (Name meta);
  _ ← guard_err (negb (String.eqb org orgName))
        (bad_request (Sprintf "spec.organization %q must match organization %q parsed from metadata.name"
           [FStr org; FStr orgName]));
  mret (namespace, (orgName, templateName)).

(** Uploading an archive and creating a version from it. *)
Definition createVersion (c : client) (name : string) (orgID templateID fileID : Uuid.t)
    : handler (W:=W) TemplateVersion :=
  map_err (map_coder_err codertemplates name)
    (call sdk c (RCreateTemplateVersion orgID {|
       ctv_TemplateID := templateID; ctv_StorageMethod := ProvisionerStorageMethodFile;
       ctv_FileID := fileID; ctv_Provisioner := ProvisionerTypeTerraform |})).

(** The request of the create call: from a new version of [spec.files], or
    from [spec.versionID]. *)
Definition createRequest (c : client) (org : Organization) (templateObj : CoderTemplate)
    (templateName : string) : handler (W:=W) CreateTemplateRequest :=
  let name := Name (tpl_meta templateObj) in
  let spec := tpl_Spec templateObj in
  match ts_Files spec with
  | Some files =>
      zipBytes ← map_err (λ err, bad_request (Sprintf "invalid template spec.files: %v" [FErrV err]))
                   (lift (buildSourceZip range (Some files)));
      upload ← map_err (map_coder_err codertemplates name) (call sdk c (RUpload zipBytes));
      version ← createVersion c name (org_ID org) Uuid.Nil (upload_ID upload);
      mret {| ctr_Name := templateName; ctr_VersionID := tv_ID version;
              ctr_DisplayName := ts_DisplayName spec; ctr_Description := ts_Description spec;
              ctr_Icon := ts_Icon spec |}
  | None =>
      map_err (λ err, bad_request (ErrText err))
        (lift (TemplateCreateRequestFromK8s (Some templateObj) templateName))
  end.

Definition Create (s : option (storage W)) (ctx : option context) (obj : option object)
    (createValidation : option (ValidateObjectFunc W)) : handler (W:=W) object :=
  match s with
  | None => throw nil_storage
  | Some s =>
      _ ← guard_err (is_nil ctx) nil_context;
      match obj with
      | None => throw (assertion "assertion failed: object must not be nil")
      | Some obj =>
          _ ← guard_err (negb (has_broadcaster s)) nil_broadcaster;
          p ← match obj with
              | OTemplate p => mret p
              | _ => throw (bad_request (Sprintf "expected *CoderTemplate, got %T"
                              [FStr (type_name obj)]))
              end;
          _ ← admit_object createValidation obj;
          templateObj ← lift (deref p);
          '(namespace, (orgName, templateName)) ← checkObject ctx templateObj;
          let name := Name (tpl_meta templateObj) in
          c ← template_client s ctx namespace;
          org ← map_err (map_coder_err codertemplates name) (call sdk c (ROrganizationByName orgName));
          request ← createRequest c org templateObj templateName;
          created ← map_err (map_coder_err codertemplates name)
                      (call sdk c (RCreateTemplate (org_ID org) request));
          result ← lift (TemplateToK8s namespace created);
          _ ← enqueue Added (OTemplate (Some result));
          mret (OTemplate (Some result))
      end
  end.

(** *** Update *)

Definition createOnUpdate (s : storage W) (ctx : option context) (name : string)
    (objInfo : UpdatedObjectInfo W) (createValidation : option (ValidateObjectFunc W))
    : handler (W:=W) (object * bool) :=
  createObj ← ext (objInfo New);
  match createObj with
  | None => throw (assertion "assertion failed: create-on-update template object must not be nil")
  | Some (OTemplate None) =>
      throw (assertion "assertion failed: create-on-update template deep copy must not be nil")
  | Some (OTemplate (Some createTemplate)) =>
      let createTemplate :=
        if String.eqb (Name (tpl_meta createTemplate)) ""
        then set_template_name name createTemplate else createTemplate in
      _ ← guard_err (negb (String.eqb (Name (tpl_meta createTemplate)) name))
            (bad_request (Sprintf "updated object metadata.name %q must match request name %q"
               [FStr (Name (tpl_meta createTemplate)); FStr name]));
      createdObj ← Create (Some s) ctx (Some (OTemplate (Some createTemplate))) createValidation;
      mret (createdObj, true)
  | Some createObj =>
      throw (Errorf "assertion failed: expected *CoderTemplate, got %T" [FStr (type_name createObj)])
  end.

(** The object the patch produces. *)
Definition updatedTemplate (objInfo : UpdatedObjectInfo W) (current : CoderTemplate)
    : handler (W:=W) CoderTemplate :=
  updatedObj ← ext (objInfo (OTemplate (Some current)));
  match updatedObj with
  | None => throw (assertion "assertion failed: updated template object must not be nil")
  | Some (OTemplate p) => lift (deref p)
  | Some obj => throw (Errorf "assertion failed: expected *CoderTemplate, got %T" [FStr (type_name obj)])
  end.

(** The identity and resourceVersion checks. *)
Definition identityChecks (name namespace : string) (current updated : CoderTemplate) : result () :=
  let m := tpl_meta updated in
  _ ← fail_if (negb (String.eqb (Name m) "") && negb (String.eqb (Name m) name))
        (bad_request (Sprintf "updated object metadata.name %q must match request name %q"
           [FStr (Name m); FStr name]));
  _ ← fail_if (negb (String.eqb (Namespace m) "") && negb (String.eqb (Namespace m) namespace))
        (bad_request (Sprintf "metadata.namespace %q does not match request namespace %q"
           [FStr (Namespace m); FStr namespace]));
  _ ← fail_if (String.eqb (ResourceVersion m) "")
        (bad_request (Lit "metadata.resourceVersion is required for update"));
  fail_if (negb (String.eqb (ResourceVersion m) (ResourceVersion (tpl_meta current))))
    (StatusErr (NewConflict codertemplates name
       (Errorf "resource version mismatch: got %q, current is %q"
          [FStr (ResourceVersion m); FStr (ResourceVersion (tpl_meta current))]))).

(** The immutable fields. *)
Definition specChecks (current updated : CoderTemplateSpec) : result () :=
  _ ← fail_if (negb (String.eqb (ts_Organization updated) (ts_Organization current)))
        (bad_request (Sprintf "spec.organization %q must match existing organization %q"
           [FStr (ts_Organization updated); FStr (ts_Organization current)]));
  fail_if (negb (String.eqb (ts_VersionID updated) "")
           && negb (String.eqb (ts_VersionID updated) (ts_VersionID current)))
    (bad_request (Sprintf
       "spec.versionID is read-only; to change the active version, update spec.files instead (current: %q, requested: %q)"
       [FStr (ts_VersionID current); FStr (ts_VersionID updated)])).

(** Validation of [spec.files] before any mutation. *)
Definition prevalidateFiles (files : option (gmap string string))
    : result (option (gmap string string)) :=
  match files with
  | None => mret None
  | Some files =>
      let invalid {A} (r : result A) : result A :=
        match r with
        | Err err => Err (bad_request (Sprintf "invalid template spec.files: %v" [FErrV err]))
        | r => r
        end in
      normalized ← invalid (normalizeFileKeys range (Some files));
      _ ← invalid (buildSourceZip range (Some normalized));
      mret (Some normalized)
  end.

Definition metadataChanged (current updated : CoderTemplateSpec) : bool :=
  negb (String.eqb (ts_DisplayName updated) (ts_DisplayName current))
  || negb (String.eqb (ts_Description updated) (ts_Description current))
  || negb (String.eqb (ts_Icon updated) (ts_Icon current)).

Definition changeMetadata (c : client) (name : string) (templateID : Uuid.t)
    (current updated : CoderTemplate) : handler (W:=W) () :=
  if metadataChanged (tpl_Spec current) (tpl_Spec updated) then
    req ← lift (TemplateUpdateMetaRequestFromK8s (Some updated));
    _ ← map_err (map_coder_err codertemplates name) (call sdk c (RUpdateTemplateMeta templateID req));
    mret tt
  else mret tt.

(** Promotion of a built version, verified. *)
Definition promoteVersion (c : client) (name : string) (templateID versionID : Uuid.t)
    : handler (W:=W) () :=
  _ ← map_err (map_coder_err codertemplates name)
        (call sdk c (RUpdateActiveTemplateVersion templateID versionID));
  verify ← map_err (map_coder_err codertemplates name) (call sdk c (RTemplate templateID));
  guard_err (negb (Z.eqb (t_ActiveVersionID verify) versionID))
    (Errorf "assertion failed: active version promotion did not take effect: expected %q, got %q"
       [FStr (Uuid.to_string versionID); FStr (Uuid.to_string (t_ActiveVersionID verify))]).

(** [if waitErr := wait...; waitErr != nil { return mapTemplateVersionBuildWaitError(waitErr, name) }] *)
Definition waitForBuild (ctx : option context) (c : client) (name : string) (versionID : Uuid.t)
    : handler (W:=W) () := λ st,
  match waitForTemplateVersionBuild sdk getenv ParseDuration ctx (Some c) versionID st with
  | (Err waitErr, st') =>
      match mapTemplateVersionBuildWaitError (Some waitErr) name with
      | Ret err => (Err err, st')
      | Err err => (Err err, st')
      | Panic p => (Panic p, st')
      end
  | r => r
  end.

(** A new version from the merged archive, built and promoted. *)
Definition publishSource (ctx : option context) (c : client) (name : string) (templateID : Uuid.t)
    (organization zipBytes : string) : handler (W:=W) () :=
  upload ← map_err (map_coder_err codertemplates name) (call sdk c (RUpload zipBytes));
  _ ← guard_err (Z.eqb (upload_ID upload) Uuid.Nil)
        (assertion "assertion failed: uploaded file ID must not be nil");
  org ← map_err (map_coder_err codertemplates name) (call sdk c (ROrganizationByName organization));
  version ← createVersion c name (org_ID org) templateID (upload_ID upload);
  _ ← guard_err (Z.eqb (tv_ID version) Uuid.Nil)
        (assertion "assertion failed: new template version ID must not be nil");
  _ ← waitForBuild ctx c name (tv_ID version);
  promoteVersion c name templateID (tv_ID version).

Definition changeFiles (ctx : option context) (c : client) (name : string) (templateID : Uuid.t)
    (current : CoderTemplate) (desired : option (gmap string string)) : handler (W:=W) () :=
  match desired with
  | None => mret tt
  | Some normalizedDesiredFiles =>
      let active := tst_ActiveVersionID (tpl_Status current) in
      activeID ← map_err (λ err, Errorf "parse current template status.activeVersionID %q: %w"
                             [FStr active; FErrW err]) (lift (Uuid.Parse active));
      currentFiles ← map_err (λ err, Errorf "fetch current template source files: %w" [FErrW err])
        (fetchTemplateSourceFiles sdk ReadBodyAsError ctx (Some c) activeID);
      if bool_decide (normalizedDesiredFiles = currentFiles) then mret tt
      else
        rawZip ← map_err (λ err, Errorf "fetch current template source zip: %w" [FErrW err])
          (fetchRawTemplateSourceZip sdk ReadBodyAsError ctx (Some c) activeID);
        zipBytes ← map_err (λ err, bad_request (Sprintf "invalid template spec.files: %v" [FErrV err]))
          (lift (buildMergedSourceZip range (Some rawZip) (Some normalizedDesiredFiles)));
        publishSource ctx c name templateID (ts_Organization (tpl_Spec current)) zipBytes
  end.

(** The update of a template that exists. *)
Definition updateExisting (s : storage W) (ctx : option context) (name : string)
    (current : CoderTemplate) (objInfo : UpdatedObjectInfo W)
    (updateValidation : option (ValidateObjectUpdateFunc W)) : handler (W:=W) (object * bool) :=
  updated ← updatedTemplate objInfo current;
  namespace ← lift (requiredNamespaceFromRequestContext ctx);
  _ ← lift (identityChecks name namespace current updated);
  _ ← match updateValidation with
      | Some validate => ext (validate (OTemplate (Some updated)) (OTemplate (Some current)))
      | None => mret tt
      end;
  _ ← lift (specChecks (tpl_Spec current) (tpl_Spec updated));
  let id := tst_ID (tpl_Status current) in
  templateID ← map_err (λ err, Errorf "parse current template status.id %q: %w" [FStr id; FErrW err])
                 (lift (Uuid.Parse id));
  c ← template_client s ctx namespace;
  desired ← lift (prevalidateFiles (ts_Files (tpl_Spec updated)));
  _ ← changeMetadata c name templateID current updated;
  _ ← changeFiles ctx c name templateID current desired;
  result ← getTemplate (Some s) ctx name;
  _ ← enqueue Modified (OTemplate (Some result));
  mret (OTemplate (Some result), false).

Definition Update (s : option (storage W)) (ctx : option context) (name : string)
    (objInfo : option (UpdatedObjectInfo W)) (createValidation : option (ValidateObjectFunc W))
    (updateValidation : option (ValidateObjectUpdateFunc W)) (forceAllowCreate : bool)
    : handler (W:=W) (object * bool) :=
  match s with
  | None => throw nil_storage
  | Some s =>
      _ ← guard_err (is_nil ctx) nil_context;
      _ ← guard_err (String.eqb name "") empty_name;
      match objInfo with
      | None => throw (assertion "assertion failed: updated object info must not be nil")
      | Some objInfo =>
          _ ← guard_err (negb (has_broadcaster s)) nil_broadcaster;
          r ← attempt (getTemplate (Some s) ctx name);
          match r with
          | inr err =>
              if negb forceAllowCreate || negb (IsNotFound err) then throw err
              else createOnUpdate s ctx name objInfo createValidation
          | inl current => updateExisting s ctx name current objInfo updateValidation
          end
      end
  end.

(** *** Delete *)

Definition Delete (s : option (storage W)) (ctx : option context) (name : string)
    (deleteValidation : option (ValidateObjectFunc W)) : handler (W:=W) (object * bool) :=
  match s with
  | None => throw nil_storage
  | Some s =>
      _ ← guard_err (is_nil ctx) nil_context;
      _ ← guard_err (String.eqb name "") empty_name;
      _ ← guard_err (negb (has_broadcaster s)) nil_broadcaster;
      namespace ← lift (requiredNamespaceFromRequestContext ctx);
      '(orgName, templateName) ← parseName name;
      c ← template_client s ctx namespace;
      org ← map_err (map_coder_err codertemplates name) (call sdk c (ROrganizationByName orgName));
      template ← map_err (map_coder_err codertemplates name)
                   (call sdk c (RTemplateByName (org_ID org) templateName));
      _ ← match deleteValidation with
          | Some _ =>
              obj ← lift (TemplateToK8s namespace template);
              admit_object deleteValidation (OTemplate (Some obj))
          | None => mret tt
          end;
      _ ← map_err (map_coder_err codertemplates name) (call sdk c (RDeleteTemplate (t_ID template)));
      templateObj ← lift (TemplateToK8s namespace template);
      _ ← enqueue Deleted (OTemplate (Some templateObj));
      mret (OStatus "Success", true)
  end.
End template_storage.


(** ** Read-only handlers *)

Section read_only_handlers.
Context {W : Type} {C : Clock W} {ZA : ZipArchive}.
Context (sdk : client → ∀ r : request, M W goerror (response r)).
Context (ReadBodyAsError : http_response → goerror).
Implicit Types (st : Sdk.st W).

Lemma ro_client s ctx ns : read_only (W:=W) (template_client s ctx ns).
Proof. unfold template_client, clientForNamespace. solve_read_only. Qed.

Lemma ro_fetchRaw ctx c v : read_only (fetchRawTemplateSourceZip sdk ReadBodyAsError ctx c v).
Proof. unfold fetchRawTemplateSourceZip. solve_read_only. Qed.
#[local] Hint Resolve ro_client ro_fetchRaw : read_only.

Lemma ro_fetch ctx c v : read_only (fetchTemplateSourceFiles sdk ReadBodyAsError ctx c v).
Proof. unfold fetchTemplateSourceFiles. solve_read_only. Qed.
#[local] Hint Resolve ro_fetch : read_only.

Lemma ro_getTemplate s ctx name : read_only (getTemplate sdk ReadBodyAsError s ctx name).
Proof. unfold getTemplate, parseName. solve_read_only. Qed.

Lemma ro_timed_out ctx dl eff vid ls le : read_only (W:=W) (timed_out ctx dl eff vid ls le).
Proof. unfold timed_out. solve_read_only. Qed.
#[local] Hint Resolve ro_timed_out : read_only.

Lemma ro_wait_loop fuel cfg c ctx dl eff start vid p ls le :
  read_only (wait_loop sdk fuel cfg c ctx dl eff start vid p ls le).
Proof. revert p ls le. induction fuel as [|fuel IH]; intros p ls le; cbn [wait_loop]; solve_read_only. Qed.
#[local] Hint Resolve ro_wait_loop : read_only.

Lemma ro_wait getenv PD ctx c vid : read_only (waitForTemplateVersionBuild sdk getenv PD ctx c vid).
Proof. unfold waitForTemplateVersionBuild. solve_read_only. Qed.
#[local] Hint Resolve ro_wait : read_only.

Lemma ro_waitForBuild getenv PD ctx c name vid :
  read_only (waitForBuild sdk getenv PD ctx c name vid).
Proof.
  intros st. unfold waitForBuild. pose proof (ro_wait getenv PD ctx (Some c) vid st) as H.
  destruct (waitForTemplateVersionBuild _ _ _ _ _ _ _) as [[[]|e|e] st']; [done| |done].
  by destruct (mapTemplateVersionBuildWaitError _ _).
Qed.

(** A wait that succeeded: only polls, the last of which the backend answered
    with status "succeeded". *)
Definition built (c : client) (vid : Uuid.t) st st' : Prop :=
  ∃ (tv : TemplateVersion) s1, unchanged st s1 ∧
    call sdk c (RTemplateVersion vid) s1 = (Ret tv, st') ∧
    job_Status (tv_Job tv) = ProvisionerJobSucceeded.

Lemma built_later c vid st s1 st' : unchanged st s1 → built c vid s1 st' → built c vid st st'.
Proof.
  intros H (tv & s2 & H2 & Ht). exists tv, s2. split; [by eapply unchanged_trans|done].
Qed.

Lemma timed_out_fails ctx dl eff vid ls le Q st :
  (∀ o st', o ≠ Ret tt → Q o st') → wp (timed_out (W:=W) ctx dl eff vid ls le) Q st.
Proof.
  intros HQ. unfold timed_out. repeat (wp_step; try progress unfold wp_cont).
  destruct (templateVersionBuildWaitTimeoutCause _ _); unfold wp_cont; [wp_step|..]; by apply HQ.
Qed.

Lemma wait_loop_built fuel cfg c ctx dl eff start vid p ls le st :
  wp (wait_loop sdk fuel cfg c ctx dl eff start vid p ls le)
    (λ o st', o = Ret tt → built c vid st st') st.
Proof.
  revert p ls le st. induction fuel as [|fuel IH]; intros p ls le st; [done|].
  cbn [wait_loop]. apply wp_bind, wp_attempt, wp_of_run. intros o s1 Hcall.
  pose proof (unchanged_call sdk c (RTemplateVersion vid) _ _ _ eq_refl Hcall) as H1.
  destruct o as [tv|err|e]; unfold wp_cont; [| |done].
  - cbn zeta. set (status := if String.eqb _ "" then _ else _).
    destruct (String.eqb_spec status ProvisionerJobSucceeded) as [Hs|_].
    { wp_step. intros _. exists tv, st. split; [done|]. split; [done|]. unfold status in Hs.
      by destruct (String.eqb_spec (job_Status (tv_Job tv)) ""). }
    destruct (_ || _); [by wp_step|]. destruct (negb _); [by wp_step|].
    repeat wp_step. unfold wp_cont. repeat wp_step. wp_request.
    destruct o as [[]|e|e]; unfold wp_cont; [by apply timed_out_fails| |done..].
    eapply wp_mono; [|apply IH]. intros o st' Hb ->. eapply built_later; [|by apply Hb]. exact H1.
  - repeat wp_step. unfold wp_cont. destruct (negb _); [by apply timed_out_fails|by wp_step].
Qed.

Lemma waitForBuild_built getenv PD ctx c name vid st :
  wp (waitForBuild sdk getenv PD ctx c name vid) (λ o st', o = Ret tt → built c vid st st') st.
Proof.
  apply wp_of_run. unfold waitForBuild. intros o st' H ->.
  destruct (waitForTemplateVersionBuild _ _ _ _ _ _ _) as [[[]|e|e] st1] eqn:E;
    [|by destruct (mapTemplateVersionBuildWaitError _ _)|done]. injection H as <-.
  enough (wp (waitForTemplateVersionBuild sdk getenv PD ctx (Some c) vid)
            (λ o st', o = Ret tt → built c vid st st') st) as Hwp by (by apply (wp_run _ _ _ _ _ Hwp E)).
  clear E. unfold waitForTemplateVersionBuild. destruct ctx as [ctx|]; [|by wp_step].
  repeat wp_step; try done. destruct (loadTemplateVersionBuildWaitConfigFromEnv _ _); [|done..].
  repeat wp_step. apply wait_loop_built.
Qed.
End read_only_handlers.
#[export] Hint Resolve ro_client ro_fetchRaw ro_fetch ro_getTemplate ro_waitForBuild : read_only.

(** ** Publishing a new version *)

Definition versionRequest (templateID fileID : Uuid.t) : CreateTemplateVersionRequest := {|
  ctv_TemplateID := templateID; ctv_StorageMethod := ProvisionerStorageMethodFile;
  ctv_FileID := fileID; ctv_Provisioner := ProvisionerTypeTerraform |}.

Section template_update.
Context {W : Type} {C : Clock W} {ZA : ZipArchive}.
Context (sdk : client → ∀ r : request, M W goerror (response r)).
Context (getenv : string → string) (ParseDuration : string → result Z).
Implicit Types (st : Sdk.st W).

(** A publication of the archive [zip] as a version of the template [tid]: how
    far it came, from state to state, with the requests that changed the
    backend.  Each step uses the answer of the one before: the version is made
    from the uploaded file; what is promoted is that version, after the
    backend reported it built; and success means that a later read of the
    template shows it active. *)
Inductive publication (c : client) (tid : Uuid.t) (zip : string) st
    : list request → result () → Sdk.st W → Prop :=
  | PublishUpload r s1 o st' :
      call sdk c (RUpload zip) st = (r, s1) → unchanged s1 st' → o ≠ Ret tt →
      publication c tid zip st [RUpload zip] o st'
  | PublishVersion (upload : UploadResponse) oid r s1 s2 s3 o st' :
      call sdk c (RUpload zip) st = (Ret upload, s1) → upload_ID upload ≠ Uuid.Nil →
      unchanged s1 s2 →
      call sdk c (RCreateTemplateVersion oid (versionRequest tid (upload_ID upload))) s2 = (r, s3) →
      unchanged s3 st' → o ≠ Ret tt →
      publication c tid zip st
        [RUpload zip; RCreateTemplateVersion oid (versionRequest tid (upload_ID upload))] o st'
  | PublishPromote (upload : UploadResponse) oid (tv : TemplateVersion) r s1 s2 s3 s4 s5 o st' :
      call sdk c (RUpload zip) st = (Ret upload, s1) → upload_ID upload ≠ Uuid.Nil →
      unchanged s1 s2 →
      call sdk c (RCreateTemplateVersion oid (versionRequest tid (upload_ID upload))) s2 = (Ret tv, s3) →
      tv_ID tv ≠ Uuid.Nil → built sdk c (tv_ID tv) s3 s4 →
      call sdk c (RUpdateActiveTemplateVersion tid (tv_ID tv)) s4 = (r, s5) → unchanged s5 st' →
      (o = Ret tt → r = Ret tt ∧ ∃ t : Template,
         call sdk c (RTemplate tid) s5 = (Ret t, st') ∧ t_ActiveVersionID t = tv_ID tv) →
      publication c tid zip st
        [RUpload zip; RCreateTemplateVersion oid (versionRequest tid (upload_ID upload));
         RUpdateActiveTemplateVersion tid (tv_ID tv)] o st'.

(** The requests of a publication are the ones it lists. *)
Lemma publication_did c tid zip st ms o st' : publication c tid zip st ms o st' → did c ms st st'.
Proof.
  intros [r s1 o' s' H1 Hu _|up oid r s1 s2 s3 o' s' H1 _ H2 H3 Hu _|up oid tv r s1 s2 s3 s4 s5 o' s' H1 _ H2 H3 _ Hb H5 Hu _].
  all: apply did_call in H1; [|done].
  - by eapply did_unchanged.
  - apply did_call in H3; [|done]. apply (did_unchanged _ _ _ _ _ H1) in H2.
    apply (did_trans _ _ _ _ _ _ H2) in H3. by eapply did_unchanged.
  - apply did_call in H3; [|done]. apply did_call in H5; [|done].
    destruct Hb as (tv' & sb & Hb1 & Hb2 & _).
    apply (unchanged_call sdk c (RTemplateVersion _)) in Hb2; [|done].
    pose proof (unchanged_trans _ _ _ Hb1 Hb2) as Hb. apply (did_unchanged _ _ _ _ _ H1) in H2.
    apply (did_trans _ _ _ _ _ _ H2) in H3. apply (did_unchanged _ _ _ _ _ H3) in Hb.
    apply (did_trans _ _ _ _ _ _ Hb) in H5. by eapply did_unchanged.
Qed.

Lemma promoteVersion_wp c name tid vid st :
  wp (promoteVersion sdk c name tid vid)
    (λ o st', ∃ r s5, call sdk c (RUpdateActiveTemplateVersion tid vid) st = (r, s5) ∧ unchanged s5 st' ∧
       (o = Ret tt → r = Ret tt ∧ ∃ t : Template,
          call sdk c (RTemplate tid) s5 = (Ret t, st') ∧ t_ActiveVersionID t = vid)) st.
Proof.
  unfold promoteVersion. call_step; [|by eexists _, _..].
  destruct a. rename s into s5. call_step.
  2-3: eexists _, _; split; [done|]; split; [by eapply (unchanged_call sdk c (RTemplate tid))|done].
  pose proof (unchanged_call sdk c (RTemplate tid) _ _ _ eq_refl Hcall0) as Hu.
  apply wp_guard; intros Hg; (eexists _, _; split; [done|]; split; [done|]); [done|].
  intros _. split; [done|]. exists a. split; [done|]. apply negb_false_iff in Hg. by apply Z.eqb_eq.
Qed.

Lemma publishSource_wp ctx c name tid org zip st :
  wp (publishSource sdk getenv ParseDuration ctx c name tid org zip)
    (λ o st', ∃ ms, publication c tid zip st ms o st') st.
Proof.
  unfold publishSource. call_step; [|by eexists; econstructor..].
  rename a into upload, s into s1, Hcall into H1.
  assert (∀ (o : result ()) st', (∀ b, o ≠ Ret b) → unchanged s1 st' →
    ∃ ms, publication c tid zip st ms o st') as Hno
    by (intros o st' Ho Hu; eexists; by eapply PublishUpload; [..|apply Ho]).
  apply wp_bind, wp_guard; intros Hnil; [by apply Hno|]. unfold wp_cont. apply Z.eqb_neq in Hnil.
  apply ro_step; [solve_read_only| |done]. intros orgRec s2 _ H2. clear Hno.
  unfold createVersion. fold (versionRequest tid (upload_ID upload)). 
  call_step; [|by eexists; eapply PublishVersion..].
  rename a into tv, s into s3, Hcall into H3.
  assert (∀ (o : result ()) st', (∀ b, o ≠ Ret b) → unchanged s3 st' →
    ∃ ms, publication c tid zip st ms o st') as Hno
    by (intros o st' Ho Hu; eexists; by eapply PublishVersion; [..|apply Ho]).
  apply wp_bind, wp_guard; intros Hvnil; [by apply Hno|]. unfold wp_cont. apply Z.eqb_neq in Hvnil.
  apply wp_bind, wp_of_run. intros o s4 Hrun.
  pose proof (ro_waitForBuild sdk getenv ParseDuration ctx c name (tv_ID tv) s3) as Hro.
  pose proof (wp_run _ _ _ _ _ (waitForBuild_built sdk getenv ParseDuration ctx c name (tv_ID tv) s3) Hrun) as Hb.
  rewrite Hrun in Hro. cbn in Hro.
  destruct o as [[]|e|e]; unfold wp_cont; [|by apply Hno..].
  eapply wp_mono; [|apply promoteVersion_wp]. cbn.
  intros o st' (r & s5 & H5 & Hu & Ho). eexists. eapply PublishPromote; eauto.
Qed.
End template_update.

(** ** The update of a template *)

Section template_update_contract.
Context {W : Type} {C : Clock W} {ZA : ZipArchive}.
Context (sdk : client → ∀ r : request, M W goerror (response r)).
Context (range : ∀ V : Type, gmap string V → list (string * V)).
Context (ReadBodyAsError : http_response → goerror).
Context (getenv : string → string) (ParseDuration : string → result Z).
Implicit Types (st : Sdk.st W).

#[local] Abbreviation fetchRaw := (fetchRawTemplateSourceZip sdk ReadBodyAsError).
#[local] Abbreviation fetchFiles := (fetchTemplateSourceFiles sdk ReadBodyAsError).
#[local] Abbreviation getT := (getTemplate sdk ReadBodyAsError).

(** What a change of the files does, [desired] being the validated
    [spec.files]: nothing but reads when there are none, or they are the
    files of the active version; otherwise a publication of the archive
    merged from the active version's archive and the desired files. *)
Definition files_outcome (ctx : option context) (c : client) (tid : Uuid.t)
    (current : CoderTemplate) (desired : option (gmap string string))
    st (ms : list request) (o : result ()) st' : Prop :=
  ms = [] ∧ unchanged st st' ∧ (o = Ret tt → desired = None ∨
    ∃ files vid, desired = Some files ∧
      Uuid.Parse (tst_ActiveVersionID (tpl_Status current)) = Ret vid ∧
      fetchFiles ctx (Some c) vid st = (Ret files, st')) ∨
  ∃ files vid old raw zip s1 s2,
    desired = Some files ∧ Uuid.Parse (tst_ActiveVersionID (tpl_Status current)) = Ret vid ∧
    fetchFiles ctx (Some c) vid st = (Ret old, s1) ∧ files ≠ old ∧
    fetchRaw ctx (Some c) vid s1 = (Ret raw, s2) ∧
    buildMergedSourceZip range (Some raw) (Some files) = Ret zip ∧
    unchanged st s2 ∧ publication sdk c tid zip s2 ms o st'.

Lemma changeFiles_wp ctx c name tid current desired st :
  wp (changeFiles sdk range ReadBodyAsError getenv ParseDuration ctx c name tid current desired)
    (λ o st', ∃ ms, files_outcome ctx c tid current desired st ms o st') st.
Proof.
  assert (∀ (o : result ()) st', (∀ b, o ≠ Ret b) → unchanged st st' →
    ∃ ms, files_outcome ctx c tid current desired st ms o st') as Hno.
  { intros o st' Ho Hu. exists []. left. split_and!; [done..|]. intros ->; by destruct (Ho tt). }
  unfold changeFiles. destruct desired as [files|].
  2: { wp_step. exists []. left. by split_and!; [..|left]. }
  apply ro_step; [solve_read_only| |done]. intros vid ? Hvid _. inv_run Hvid.
  apply ro_step; [solve_read_only| |done]. intros old s1 Hold%map_err_Ret H1.
  destruct (bool_decide (files = old)) eqn:Heq; bool_simpl.
  { subst old. wp_step. exists []. left. split_and!; [done..|]. intros _. right. by exists files, vid. }
  apply ro_step; [solve_read_only| |intros; apply Hno; [done|by eapply unchanged_trans]].
  intros raw s2 Hraw%map_err_Ret H2. pose proof (unchanged_trans _ _ _ H1 H2) as H12.
  apply ro_step; [solve_read_only| |intros; apply Hno; [done|by eapply unchanged_trans]].
  intros zip ? Hzip _. inv_run Hzip.
  eapply wp_mono; [|apply publishSource_wp]. intros o st' (ms & Hp). exists ms. right.
  by exists files, vid, old, raw, zip, s1, s2.
Qed.

Lemma files_outcome_did ctx c tid current desired st ms o st' :
  files_outcome ctx c tid current desired st ms o st' → did c ms st st'.
Proof.
  intros [(-> & Hu & _)|(files & vid & old & raw & zip & s1 & s2 & _ & _ & _ & _ & _ & _ & Hu & Hp)].
  - by apply unchanged_did.
  - apply publication_did in Hp. apply (did_trans c [] ms _ s2); [by apply unchanged_did|done].
Qed.

(** The metadata the backend keeps of a template. *)
Definition metadata (spec : CoderTemplateSpec) : string * string * string :=
  (ts_DisplayName spec, ts_Description spec, ts_Icon spec).

Lemma metadataChanged_spec current updated :
  metadataChanged current updated = negb (bool_decide (metadata updated = metadata current)).
Proof.
  unfold metadataChanged, metadata.
  destruct (String.eqb_spec (ts_DisplayName updated) (ts_DisplayName current)),
    (String.eqb_spec (ts_Description updated) (ts_Description current)),
    (String.eqb_spec (ts_Icon updated) (ts_Icon current)); cbn; symmetry;
    rewrite ?negb_true_iff, ?negb_false_iff, ?bool_decide_eq_false, ?bool_decide_eq_true; congruence.
Qed.

(** What a change of the metadata does: one request exactly when they differ,
    whose success it reports. *)
Definition metadata_outcome (c : client) (tid : Uuid.t) (current updated : CoderTemplate)
    st (ms : list request) (o : result ()) st' : Prop :=
  if decide (metadata (tpl_Spec updated) ≠ metadata (tpl_Spec current)) then
    ∃ req r, TemplateUpdateMetaRequestFromK8s (Some updated) = Ret req ∧
      ms = [RUpdateTemplateMeta tid req] ∧
      call sdk c (RUpdateTemplateMeta tid req) st = (r, st') ∧
      (o = Ret tt ↔ ∃ a, r = Ret a)
  else ms = [] ∧ o = Ret tt ∧ st' = st.

Lemma changeMetadata_wp c name tid current updated st :
  wp (changeMetadata sdk c name tid current updated)
    (λ o st', ∃ ms, metadata_outcome c tid current updated st ms o st') st.
Proof.
  unfold changeMetadata, metadata_outcome. rewrite metadataChanged_spec.
  case_bool_decide; cbn [negb]; destruct (decide _) as [Hne|Hne]; try done.
  { wp_step. by exists []. }
  apply wp_bind, wp_lift. cbn. unfold wp_cont. call_step; [wp_step|..];
    (eexists; eexists _, _; split_and!; [done..|]); naive_solver.
Qed.

Lemma metadata_outcome_did c tid current updated st ms o st' :
  metadata_outcome c tid current updated st ms o st' → did c ms st st'.
Proof.
  unfold metadata_outcome. destruct (decide _).
  - intros (req & r & _ & -> & Hc & _). by eapply did_call; [|exact Hc].
  - intros (-> & _ & ->). by apply unchanged_did.
Qed.

Lemma identityChecks_Ret name ns current updated u :
  identityChecks name ns current updated = Ret u →
  targets name ns (tpl_meta current) (tpl_meta updated).
Proof.
  unfold identityChecks. intros H. inv_outcome H. inv_checks. by constructor.
Qed.

Lemma specChecks_Ret current updated u :
  specChecks current updated = Ret u →
  ts_Organization updated = ts_Organization current ∧
  (ts_VersionID updated = "" ∨ ts_VersionID updated = ts_VersionID current).
Proof. unfold specChecks. intros H. inv_outcome H. by inv_checks. Qed.

(** The checks of an update, in the order of the code, from the state [st] in
    which the current template was read to the state [st'] in which the
    backend's client is known. *)
Record update_accepted (s : storage W) ctx (name : string) (objInfo : UpdatedObjectInfo W)
    (uv : option (ValidateObjectUpdateFunc W)) (current updated : CoderTemplate)
    (ns : string) (c : client) (tid : Uuid.t) (desired : option (gmap string string)) st st' : Prop := {
  ua_namespace : requiredNamespaceFromRequestContext ctx = Ret ns;
  ua_object : ∃ w, objInfo (OTemplate (Some current)) (st_world st)
                   = (Ret (Some (OTemplate (Some updated))), w) ∧
    ∃ w', (match uv with
           | Some validate =>
               validate (OTemplate (Some updated)) (OTemplate (Some current)) w = (Ret tt, w')
           | None => w' = w
           end) ∧
    client_for s ctx ns w' c (st_world st');
  ua_target : targets name ns (tpl_meta current) (tpl_meta updated);
  ua_organization : ts_Organization (tpl_Spec updated) = ts_Organization (tpl_Spec current);
  ua_version : ts_VersionID (tpl_Spec updated) = "" ∨
    ts_VersionID (tpl_Spec updated) = ts_VersionID (tpl_Spec current);
  ua_id : Uuid.Parse (tst_ID (tpl_Status current)) = Ret tid;
  ua_files : prevalidateFiles range (ts_Files (tpl_Spec updated)) = Ret desired;
  ua_unchanged : unchanged st st'
}.

Lemma updatedTemplate_ro objInfo current : read_only (W:=W) (updatedTemplate objInfo current).
Proof. unfold updatedTemplate. solve_read_only. Qed.

Lemma updatedTemplate_Ret objInfo current st updated st' :
  updatedTemplate objInfo current st = (Ret updated, st') →
  ∃ w, objInfo (OTemplate (Some current)) (st_world st) = (Ret (Some (OTemplate (Some updated))), w) ∧
    st' = St w (st_trace st) (st_queue st).
Proof.
  unfold updatedTemplate. intros H. apply M_bind_Ret in H as (obj & st1 & H1 & H2).
  apply ext_Ret in H1 as (w & H1 & ->).
  destruct obj as [[|[t|]| | | |]|]; try discriminate H2. injection H2 as -> <-. eauto.
Qed.

(** The end of an accepted update, from the state [st] after its checks: the
    change of the metadata, then, if it succeeded, that of the files, then a
    read of the template; what is read is returned and announced by one
    Modified event.  A failure at any point ends the sequence and announces
    nothing. *)
Definition accepted_outcome (s : storage W) ctx (name : string) (current updated : CoderTemplate)
    (c : client) (tid : Uuid.t) (desired : option (gmap string string))
    st (o : result (object * bool)) st' : Prop :=
  ∃ metas oM s1, metadata_outcome c tid current updated st metas oM s1 ∧
    (oM ≠ Ret tt ∧ (∀ r, o ≠ Ret r) ∧ st' = s1 ∨
     oM = Ret tt ∧ ∃ files oF s2, files_outcome ctx c tid current desired s1 files oF s2 ∧
       mutations (st_trace st') = mutations (st_trace st) ++ map (pair c) (metas ++ files) ∧
       ((∀ r, o ≠ Ret r) ∧ st_queue st' = st_queue st ∨
        oF = Ret tt ∧ ∃ result s3, getT (Some s) ctx name s2 = (Ret result, s3) ∧
          o = Ret (OTemplate (Some result), false) ∧
          announced Modified (OTemplate (Some result)) st st')).

Lemma update_accepted_wp s ctx name current updated c tid desired st :
  wp (_ ← changeMetadata sdk c name tid current updated;
      _ ← changeFiles sdk range ReadBodyAsError getenv ParseDuration ctx c name tid current desired;
      result ← getT (Some s) ctx name;
      _ ← enqueue Modified (OTemplate (Some result));
      mret (OTemplate (Some result), false))
    (accepted_outcome s ctx name current updated c tid desired st) st.
Proof.
  apply wp_bind. eapply wp_mono; [|apply changeMetadata_wp].
  intros oM s1 (metas & HM). destruct oM as [[]|e|e]; unfold wp_cont;
    [|by exists metas; eexists _, s1; split; [exact HM|left]..].
  apply wp_bind. eapply wp_mono; [|apply changeFiles_wp]. intros oF s2 (files & HF).
  pose proof (did_trans _ _ _ _ _ _ (metadata_outcome_did _ _ _ _ _ _ _ _ HM)
                (files_outcome_did _ _ _ _ _ _ _ _ _ HF)) as H12.
  assert (∀ (o : result (object * bool)) st', unchanged s2 st' → (∀ r, o ≠ Ret r) →
    accepted_outcome s ctx name current updated c tid desired st o st') as Hno.
  { intros o st' Hu Ho. exists metas, (Ret tt), s1. split; [done|]. right. split; [done|].
    exists files, oF, s2. split; [done|]. destruct (did_unchanged _ _ _ _ _ H12 Hu). split; [done|]. by left. }
  destruct oF as [[]|e|e]; unfold wp_cont; [|by apply Hno..].
  apply ro_step; [auto with read_only| |by intros; apply Hno].
  intros result s3 Hres H3. destruct (did_unchanged _ _ _ _ _ H12 H3) as [Hq Hm].
  apply wp_bind, wp_enqueue; [|by intros p; apply Hno].
  intros q Henq. unfold wp_cont. wp_step. exists metas, (Ret tt), s1. split; [done|]. right. split; [done|].
  exists files, (Ret tt), s2. split; [done|]. split; [done|]. right. split; [done|].
  unfold announced. rewrite Hq in Henq. by exists result, s3.
Qed.

(** The contract of an update of a template that was read as [current]. *)
Definition existing_outcome (s : storage W) ctx (name : string) (objInfo : UpdatedObjectInfo W)
    (uv : option (ValidateObjectUpdateFunc W)) (current : CoderTemplate)
    st (o : result (object * bool)) st' : Prop :=
  (∀ r, o ≠ Ret r) ∧ unchanged st st' ∨
  ∃ updated ns c tid desired s1,
    update_accepted s ctx name objInfo uv current updated ns c tid desired st s1 ∧
    accepted_outcome s ctx name current updated c tid desired s1 o st'.

Lemma updateExisting_wp s ctx name current objInfo uv st :
  wp (updateExisting sdk range ReadBodyAsError getenv ParseDuration s ctx name current objInfo uv)
    (existing_outcome s ctx name objInfo uv current st) st.
Proof.
  assert (∀ (o : result (object * bool)) st', (∀ r, o ≠ Ret r) → unchanged st st' →
    existing_outcome s ctx name objInfo uv current st o st') as Hno by (by left).
  unfold updateExisting.
  apply ro_step; [apply updatedTemplate_ro| |done]. intros updated s1 Hobj H1.
  apply updatedTemplate_Ret in Hobj as (w & Hobj & ->).
  apply ro_step; [auto with read_only| |done]. intros ns ? Hns _. inv_run Hns.
  apply ro_step; [auto with read_only| |done]. intros [] ? Hid _. inv_run Hid.
  apply identityChecks_Ret in Hid.
  apply ro_step; [solve_read_only| |done]. intros [] s2 Hadm H2.
  assert (∃ w', s2 = St w' (st_trace st) (st_queue st) ∧ match uv with
           | Some validate =>
               validate (OTemplate (Some updated)) (OTemplate (Some current)) w = (Ret tt, w')
           | None => w' = w
           end) as (w' & -> & Huv).
  { destruct uv; [by apply ext_Ret in Hadm as (w' & Hw & ->); exists w'|].
    inv_run Hadm. by exists w. }
  apply ro_step; [auto with read_only| |done]. intros [] ? Hspec _. inv_run Hspec.
  apply specChecks_Ret in Hspec as [Horg Hver].
  apply ro_step; [solve_read_only| |done]. intros tid ? Htid _. inv_run Htid.
  apply wp_bind, wp_client; [|by intros [] ? Ho; unfold wp_cont; [destruct (Ho _ eq_refl)|apply Hno..]].
  intros c w3 Hc. unfold wp_cont. cbn [st_trace st_queue].
  apply ro_step; [auto with read_only| |done].
  intros desired ? Hd _. inv_run Hd.
  eapply wp_mono; [|apply update_accepted_wp]. intros o st' Ho. right.
  exists updated, ns, c, tid, desired. eexists. split; [|exact Ho]. constructor; eauto 8.
Qed.

(** The contract of an update: a failure that changed nothing; or the update
    of the template read first; or, if the caller allows it and there is no
    such template, a creation. *)
Definition update_contract (s : storage W) ctx (name : string) (objInfo : UpdatedObjectInfo W)
    (cv : option (ValidateObjectFunc W)) (uv : option (ValidateObjectUpdateFunc W)) (force : bool)
    st (o : result (object * bool)) st' : Prop :=
  (∀ r, o ≠ Ret r) ∧ unchanged st st' ∨
  (∃ current s1, getT (Some s) ctx name st = (Ret current, s1) ∧ unchanged st s1 ∧
     existing_outcome s ctx name objInfo uv current s1 o st') ∨
  (∃ err s1, getT (Some s) ctx name st = (Err err, s1) ∧ unchanged st s1 ∧
     force = true ∧ IsNotFound err = true ∧
     createOnUpdate sdk range s ctx name objInfo cv s1 = (o, st')).

Lemma template_Update_wp s ctx name objInfo cv uv force st :
  wp (Update sdk range ReadBodyAsError getenv ParseDuration (Some s) ctx name (Some objInfo) cv uv force)
    (update_contract s ctx name objInfo cv uv force st) st.
Proof.
  unfold Update. do 3 (apply wp_bind, wp_guard; intros ?; [by left|]; unfold wp_cont).
  apply wp_bind, wp_attempt, read_only_wp; [auto with read_only|].
  intros [current|err|e] s1 Hrun Hu; unfold wp_cont; [..|by left].
  - eapply wp_mono; [|apply updateExisting_wp]. intros o st' Ho. right; left. by exists current, s1.
  - destruct (negb force || _) eqn:Hf; [wp_step; by left|].
    apply orb_false_iff in Hf as [Hf1%negb_false_iff Hf2%negb_false_iff].
    apply wp_of_run. intros o st' Ho. right; right. by exists err, s1.
Qed.
End template_update_contract.

(** C8: an update of a template changes no backend state before every check has
    passed, and leaves it as asked.  Either it fails with no request that
    changes the backend and no event; or the desired object has the current
    resourceVersion, passed admission, keeps the immutable fields and its files
    build an archive, and then the requests that change the backend, all to the
    client of the namespace, are: the metadata update exactly when the metadata
    differ, then, exactly when the files differ from those of the active
    version, the upload of the archive merged from the active version's, the
    version made from it, and its promotion once the backend reported it built.
    Success announces one Modified event with the object read back, and means
    the promotion was confirmed; a failure in between stops the sequence and
    announces nothing.  The only other case is the creation of a template that
    does not exist, if the caller allows it. *)
Theorem template_Update_contract {W} {C : Clock W} {ZA : ZipArchive}
    (sdk : client → ∀ r : request, M W goerror (response r))
    (range : ∀ V : Type, gmap string V → list (string * V)) (ReadBodyAsError : http_response → goerror)
    (getenv : string → string) (ParseDuration : string → result Z)
    (s : storage W) (ctx : option context) (name : string) (objInfo : UpdatedObjectInfo W)
    (cv : option (ValidateObjectFunc W)) (uv : option (ValidateObjectUpdateFunc W)) (force : bool)
    (st st' : Sdk.st W) (o : result (object * bool))
    (Hrun : Update sdk range ReadBodyAsError getenv ParseDuration (Some s) ctx name (Some objInfo)
              cv uv force st = (o, st')) :
  update_contract sdk range ReadBodyAsError s ctx name objInfo cv uv force st o st'.
Proof. exact (wp_run _ _ _ _ _ (template_Update_wp _ _ _ _ _ _ _ _ _ _ _ _ _) Hrun). Qed.

(** ** Creation and deletion *)

Section template_create_contract.
Context {W : Type} {C : Clock W} {ZA : ZipArchive}.
Context (sdk : client → ∀ r : request, M W goerror (response r)).
Context (range : ∀ V : Type, gmap string V → list (string * V)).
Implicit Types (st : Sdk.st W).

Lemma ro_checkObject ctx t : read_only (W:=W) (checkObject ctx t).
Proof. unfold checkObject, parseName. solve_read_only. Qed.

(** An object that passed the checks of [Create]. *)
Record creatable (ctx : option context) (t : CoderTemplate) (ns org tname : string) : Prop := {
  cre_ns : requiredNamespaceFromRequestContext ctx = Ret ns;
  cre_meta_ns : Namespace (tpl_meta t) = "" ∨ Namespace (tpl_meta t) = ns;
  cre_name : ParseTemplateName (Name (tpl_meta t)) = Ret (org, tname);
  cre_org : ts_Organization (tpl_Spec t) = org
}.

Lemma checkObject_Ret ctx t ns org tname st st' :
  checkObject ctx t st = (Ret (ns, (org, tname)), st') → creatable ctx t ns org tname ∧ st' = st.
Proof.
  unfold checkObject, parseName. intros H. inv_run H. destruct a2 as [o n].
  inv_run H. simplify_eq. apply negb_false_iff, String.eqb_eq in Hrun3. split; [|done].
  constructor; [done| |done..]. apply andb_false_iff in Hrun1.
  by rewrite !negb_false_iff, !String.eqb_eq in Hrun1.
Qed.

(** The preparation of a creation from state to state: the creation request is
    built from [spec.versionID]; or, from [spec.files], out of a version of no
    template made from the archive of exactly these files. *)
Inductive preparation (c : client) (t : CoderTemplate) (tname : string) (oid : Uuid.t) st
    : list request → result CreateTemplateRequest → Sdk.st W → Prop :=
  | PrepareVersionID req :
      ts_Files (tpl_Spec t) = None → TemplateCreateRequestFromK8s (Some t) tname = Ret req →
      preparation c t tname oid st [] (Ret req) st
  | PrepareUpload files zip r s1 o :
      ts_Files (tpl_Spec t) = Some files → buildSourceZip range (Some files) = Ret zip →
      call sdk c (RUpload zip) st = (r, s1) → (∀ req, o ≠ Ret req) →
      preparation c t tname oid st [RUpload zip] o s1
  | PrepareVersion files zip (upload : UploadResponse) s1 r s2 o :
      ts_Files (tpl_Spec t) = Some files → buildSourceZip range (Some files) = Ret zip →
      call sdk c (RUpload zip) st = (Ret upload, s1) →
      call sdk c (RCreateTemplateVersion oid (versionRequest Uuid.Nil (upload_ID upload))) s1 = (r, s2) →
      (∀ req, o = Ret req → ∃ tv : TemplateVersion, r = Ret tv ∧
         req = {| ctr_Name := tname; ctr_VersionID := tv_ID tv;
                  ctr_DisplayName := ts_DisplayName (tpl_Spec t);
                  ctr_Description := ts_Description (tpl_Spec t);
                  ctr_Icon := ts_Icon (tpl_Spec t) |}) →
      preparation c t tname oid st
        [RUpload zip; RCreateTemplateVersion oid (versionRequest Uuid.Nil (upload_ID upload))] o s2.

Lemma preparation_did c t tname oid st ms o st' :
  preparation c t tname oid st ms o st' → did c ms st st'.
Proof.
  intros [req _ _|files zip r s1 o' _ _ H1 _|files zip up s1 r s2 o' _ _ H1 H2 _].
  - by apply unchanged_did.
  - by apply did_call in H1.
  - apply did_call in H1; [|done]. apply did_call in H2; [|done]. exact (did_trans _ _ _ _ _ _ H1 H2).
Qed.

Lemma createRequest_wp c org t tname st :
  wp (createRequest sdk range c org t tname)
    (λ o st', (∀ r, o ≠ Ret r) ∧ unchanged st st' ∨
       ∃ ms, preparation c t tname (org_ID org) st ms o st') st.
Proof.
  unfold createRequest. destruct (ts_Files (tpl_Spec t)) as [files|] eqn:Hf.
  2: { apply wp_map_err, wp_lift. destruct (TemplateCreateRequestFromK8s _ _) as [req|e|e] eqn:Hr; [|by left..].
       right. exists []. by constructor. }
  apply wp_bind, wp_map_err, wp_lift.
  destruct (buildSourceZip _ _) as [zip|e|e] eqn:Hz; unfold wp_cont; [|by left..].
  call_step; [|by right; eexists; eapply PrepareUpload..].
  unfold createVersion. fold (versionRequest Uuid.Nil (upload_ID a)).
  call_step; [wp_step|..]; right; eexists; eapply PrepareVersion; eauto; [|done..].
  intros req [= <-]. eauto.
Qed.

(** The end of a creation of [t]: the preparation, and once it succeeded, the
    creation itself.  A returned object is what the backend answered, and is
    announced by one Added event. *)
Definition creation_outcome (c : client) (t : CoderTemplate) (ns tname : string) (oid : Uuid.t)
    st (o : result object) st' : Prop :=
  ∃ prep oP s1, preparation c t tname oid st prep oP s1 ∧
    ((∀ r, oP ≠ Ret r) ∧ (∀ r, o ≠ Ret r) ∧ st' = s1 ∨
     ∃ req r s2, oP = Ret req ∧ call sdk c (RCreateTemplate oid req) s1 = (r, s2) ∧
       mutations (st_trace st') = mutations (st_trace st) ++ map (pair c) (prep ++ [RCreateTemplate oid req]) ∧
       ((∀ r, o ≠ Ret r) ∧ st_queue st' = st_queue st ∨
        ∃ (created : Template) result, r = Ret created ∧ TemplateToK8s ns created = Ret result ∧
          o = Ret (OTemplate (Some result)) ∧ announced Added (OTemplate (Some result)) st st')).

Lemma template_creation_wp c name t ns tname org st :
  wp (request ← createRequest sdk range c org t tname;
      created ← map_err (map_coder_err codertemplates name) (call sdk c (RCreateTemplate (org_ID org) request));
      result ← lift (TemplateToK8s ns created);
      _ ← enqueue Added (OTemplate (Some result));
      mret (OTemplate (Some result)))
    (λ o st', (∀ r, o ≠ Ret r) ∧ unchanged st st' ∨ creation_outcome c t ns tname (org_ID org) st o st') st.
Proof.
  apply wp_bind. eapply wp_mono; [|apply createRequest_wp].
  intros oP s1 [[Ho Hu]|(prep & Hp)]; [destruct oP; unfold wp_cont; [by destruct (Ho a)|by left..]|].
  destruct oP as [req|e|e]; unfold wp_cont; [|by right; exists prep; eexists _, s1; split; [exact Hp|left]..].
  apply wp_bind, wp_map_err, wp_of_run. intros r s2 Hcall.
  pose proof (did_trans _ _ _ _ _ _ (preparation_did _ _ _ _ _ _ _ _ Hp)
    (did_call sdk c (RCreateTemplate (org_ID org) req) _ _ _ eq_refl Hcall)) as [Hq Hm].
  assert (∀ (o : result object), (∀ r, o ≠ Ret r) → creation_outcome c t ns tname (org_ID org) st o s2) as Hno.
  { intros o Ho. exists prep, (Ret req), s1. split; [done|]. right. exists req, r, s2.
    split_and!; [done..|]. by left. }
  destruct r as [created|e|e]; unfold wp_cont; [|right; by apply Hno..].
  apply wp_bind, wp_lift.
  destruct (TemplateToK8s ns created) as [result|e|e] eqn:Hk; unfold wp_cont; [|right; by apply Hno..].
  apply wp_bind, wp_enqueue; [|intros p; right; by apply Hno].
  intros q Henq. unfold wp_cont. wp_step. right. exists prep, (Ret req), s1. split; [done|]. right.
  exists req, (Ret created), s2. split_and!; [done..|]. right. exists created, result.
  unfold announced. rewrite <-Hq. by split_and!.
Qed.

(** The contract of a creation: a failure that changed nothing, or an object
    that passed admission (in the world [w1]) and the checks, for whose
    namespace the provider has a client, and whose organization the backend
    knows; then the creation. *)
Definition create_contract (s : storage W) ctx (obj : object) (cv : option (ValidateObjectFunc W)) st
    (o : result object) st' : Prop :=
  (∀ r, o ≠ Ret r) ∧ unchanged st st' ∨
  ∃ t ns org tname c w1 w2 (orgRec : Organization) s3,
    obj = OTemplate (Some t) ∧ admitted cv obj (st_world st) w1 ∧ creatable ctx t ns org tname ∧
    client_for s ctx ns w1 c w2 ∧
    call sdk c (ROrganizationByName org) (St w2 (st_trace st) (st_queue st)) = (Ret orgRec, s3) ∧
    creation_outcome c t ns tname (org_ID orgRec) s3 o st'.

Lemma creation_later s ctx obj cv st s3 c t ns tname oid (o : result object) st' :
  unchanged st s3 →
  (∀ r, o ≠ Ret r) ∧ unchanged s3 st' ∨ creation_outcome c t ns tname oid s3 o st' →
  (creation_outcome c t ns tname oid s3 o st' → create_contract s ctx obj cv st o st') →
  create_contract s ctx obj cv st o st'.
Proof. intros Hu [[Ho Hu']|Ho] Hk; [|by apply Hk]. left. split; [done|by eapply unchanged_trans]. Qed.

Lemma template_Create_wp s ctx obj cv st :
  wp (Create sdk range (Some s) ctx (Some obj) cv) (create_contract s ctx obj cv st) st.
Proof.
  assert (∀ (o : result object) st', (∀ r, o ≠ Ret r) → unchanged st st' →
    create_contract s ctx obj cv st o st') as Hno by (by left).
  unfold Create. do 2 (apply ro_step; [solve_read_only|intros ? ? Hg _; inv_run Hg; clear Hg|done]).
  apply ro_step; [solve_read_only|intros p ? Hp _|done].
  destruct obj as [|[t|]| | | |]; try discriminate Hp; injection Hp as <- <-.
  2: { apply ro_step; [apply ro_admit|intros ? ? _ ?|done]. by left. }
  apply wp_bind, wp_admit; [intros o w Ho; wp_failed Ho; by apply Hno|].
  intros w1 Hadm. unfold wp_cont.
  apply ro_step; [solve_read_only|intros ? ? Ht _; inv_run Ht; injection Ht as <-|done].
  apply ro_step; [apply ro_checkObject| |done].
  intros [ns [org tname]] ? [Hck ->]%checkObject_Ret _.
  apply wp_bind, wp_client; [|intros o w Ho; wp_failed Ho; by apply Hno].
  intros c w2 Hc. unfold wp_cont. cbn [st_world st_trace st_queue] in *.
  apply ro_step; [solve_read_only| |done].
  intros orgRec s3 Horg%map_err_Ret H3.
  eapply wp_mono; [|apply template_creation_wp]. intros o st' Ho.
  eapply (creation_later _ _ _ _ _ s3); [exact H3|exact Ho|].
  intros Ho'. right. exists t, ns, org, tname, c, w1, w2, orgRec, s3. by split_and!.
Qed.
End template_create_contract.

Section template_delete_contract.
Context {W : Type} (sdk : client → ∀ r : request, M W goerror (response r)).
Implicit Types (st : Sdk.st W).

(** The contract of a deletion: a failure that changed nothing; or the
    template the name denotes was read from the backend of the namespace, its
    converted form was admitted, and its deletion was requested; success is
    announced by one Deleted event with that form. *)
Definition delete_contract (s : storage W) ctx (name : string) (dv : option (ValidateObjectFunc W))
    st (o : result (object * bool)) st' : Prop :=
  (∀ r, o ≠ Ret r) ∧ unchanged st st' ∨
  ∃ ns org tname c w1 (orgRec : Organization) s2 (template : Template) s3 w4 r s5,
    requiredNamespaceFromRequestContext ctx = Ret ns ∧
    ParseTemplateName name = Ret (org, tname) ∧
    client_for s ctx ns (st_world st) c w1 ∧
    call sdk c (ROrganizationByName org) (St w1 (st_trace st) (st_queue st)) = (Ret orgRec, s2) ∧
    call sdk c (RTemplateByName (org_ID orgRec) tname) s2 = (Ret template, s3) ∧
    (dv = None ∧ w4 = st_world s3 ∨
     ∃ obj, TemplateToK8s ns template = Ret obj ∧
       admitted dv (OTemplate (Some obj)) (st_world s3) w4) ∧
    call sdk c (RDeleteTemplate (t_ID template)) (St w4 (st_trace s3) (st_queue s3)) = (r, s5) ∧
    mutations (st_trace st') = mutations (st_trace st) ++ [(c, RDeleteTemplate (t_ID template))] ∧
    ((∀ r, o ≠ Ret r) ∧ st_queue st' = st_queue st ∨
     ∃ obj, r = Ret tt ∧ TemplateToK8s ns template = Ret obj ∧ o = Ret (OStatus "Success", true) ∧
       announced Deleted (OTemplate (Some obj)) st st').

Lemma template_deletion_wp c name ns template st :
  wp (_ ← map_err (map_coder_err codertemplates name) (call sdk c (RDeleteTemplate (t_ID template)));
      templateObj ← lift (TemplateToK8s ns template);
      _ ← enqueue Deleted (OTemplate (Some templateObj));
      mret (OStatus "Success", true))
    (λ o st', ∃ r s5, call sdk c (RDeleteTemplate (t_ID template)) st = (r, s5) ∧
       mutations (st_trace st') = mutations (st_trace st) ++ [(c, RDeleteTemplate (t_ID template))] ∧
       ((∀ r, o ≠ Ret r) ∧ st_queue st' = st_queue st ∨
        ∃ obj, r = Ret tt ∧ TemplateToK8s ns template = Ret obj ∧ o = Ret (OStatus "Success", true) ∧
          announced Deleted (OTemplate (Some obj)) st st')) st.
Proof.
  apply wp_bind, wp_map_err, wp_of_run. intros r s5 Hcall.
  pose proof (did_call sdk c (RDeleteTemplate (t_ID template)) _ _ _ eq_refl Hcall) as [Hq Hm].
  destruct r as [[]|e|e]; unfold wp_cont; [|by eexists _, s5; split_and!; [exact Hcall| |left]..].
  apply wp_bind, wp_lift.
  destruct (TemplateToK8s ns template) as [obj|e|e] eqn:Hk; unfold wp_cont;
    [|by eexists _, s5; split_and!; [exact Hcall| |left]..].
  apply wp_bind, wp_enqueue; [|by intros p; eexists _, s5; split_and!; [exact Hcall| |left]].
  intros q Henq. unfold wp_cont. wp_step. eexists _, s5. split_and!; [exact Hcall|done|]. right.
  exists obj. unfold announced. by rewrite <-Hq.
Qed.

Lemma template_Delete_wp s ctx name dv st :
  wp (Delete sdk (Some s) ctx name dv) (delete_contract s ctx name dv st) st.
Proof.
  assert (∀ (o : result (object * bool)) st', (∀ r, o ≠ Ret r) → unchanged st st' →
    delete_contract s ctx name dv st o st') as Hno by (by left).
  unfold Delete, parseName.
  do 3 (apply ro_step; [solve_read_only|intros ? ? Hg _; inv_run Hg; clear Hg|done]).
  apply ro_step; [solve_read_only|intros ns ? Hns _; inv_run Hns|done].
  apply ro_step; [solve_read_only|intros [org tname] ? Hp _; inv_run Hp|done].
  apply wp_bind, wp_client; [|intros o w Ho; wp_failed Ho; by apply Hno].
  intros c w1 Hc. unfold wp_cont.
  apply ro_step; [solve_read_only| |done]. intros orgRec s2 Horg%map_err_Ret H2.
  apply ro_step; [solve_read_only| |intros; apply Hno; [done|by eapply unchanged_trans]].
  intros template s3 Ht%map_err_Ret H3. pose proof (unchanged_trans _ _ _ H2 H3) as H23.
  apply ro_step; [destruct dv; [apply ro_bind; [apply ro_lift|intros; apply ro_admit]|apply ro_ret]| |].
  2: { intros; apply Hno; [done|by eapply unchanged_trans]. }
  intros [] s4 Hadm _.
  assert (∃ w4, s4 = St w4 (st_trace s3) (st_queue s3) ∧ (dv = None ∧ w4 = st_world s3 ∨
     ∃ obj, TemplateToK8s ns template = Ret obj ∧
       admitted dv (OTemplate (Some obj)) (st_world s3) w4)) as (w4 & -> & Hdv).
  { destruct dv as [v|]; [|injection Hadm as <-; exists (st_world s3); destruct s3; eauto].
    inv_run Hadm. apply ext_Ret in Hadm as (w4 & Hv & ->). exists w4. split; [done|]. right. eauto. }
  eapply wp_mono; [|apply template_deletion_wp]. intros o st' (r & s5 & Hcall & Hm & Ho). right.
  destruct H23 as [Hq3 Hm3]. cbn [st_trace st_queue] in *. unfold announced in *. cbn in Ho.
  exists ns, org, tname, c, w1, orgRec, s2, template, s3, w4, r, s5.
  rewrite <-Hm3. split_and!; try done. unfold announced. rewrite <-Hq3. exact Ho.
Qed.
End template_delete_contract.

(** ** Listing every namespace *)

#[export] Instance template_le_total : Total template_le.
Proof.
  intros t1 t2. unfold template_le. cbn zeta.
  destruct (decide (Namespace (tpl_meta t1) = Namespace (tpl_meta t2))) as [E|E];
    destruct (decide (Namespace (tpl_meta t2) = Namespace (tpl_meta t1))); try congruence; apply (total String.le).
Qed.

#[export] Instance template_le_trans : Transitive template_le.
Proof.
  intros t1 t2 t3. unfold template_le. cbn zeta. set (n1 := Namespace _). set (n2 := Namespace (tpl_meta t2)).
  set (n3 := Namespace (tpl_meta t3)).
  destruct (decide (n1 = n2)), (decide (n2 = n3)), (decide (n1 = n3)); try congruence; intros H1 H2.
  - by etrans.
  - exfalso. assert (n1 = n2) by (apply (anti_symm String.le); congruence). done.
  - by etrans.
Qed.

Section template_list.
Context {W : Type} (sdk : client → ∀ r : request, M W goerror (response r)).
Implicit Types (st : Sdk.st W).

(** A pass over namespaces, from state to state: the items of each are the
    conversions of the templates that the backend of its client answered. *)
Inductive listed (s : storage W) ctx : Sdk.st W → list string → list (list CoderTemplate) → Sdk.st W → Prop :=
  | ListedNil st : listed s ctx st [] [] st
  | ListedCons st ns nss c w1 (ts : list Template) s2 items groups st' :
      client_for s ctx ns (st_world st) c w1 →
      call sdk c RTemplates (St w1 (st_trace st) (st_queue st)) = (Ret ts, s2) →
      Forall2 (λ t i, TemplateToK8s ns t = Ret i) ts items →
      listed s ctx s2 nss groups st' →
      listed s ctx st (ns :: nss) (items :: groups) st'.

Lemma convertAll_Ret ns items ts items' :
  convertAll ns items ts = Ret items' →
  ∃ new, items' = items ++ new ∧ Forall2 (λ t i, TemplateToK8s ns t = Ret i) ts new.
Proof.
  unfold convertAll. revert items. induction ts as [|t ts IH]; intros items H; cbn in H.
  - injection H as <-. exists []. by rewrite app_nil_r.
  - apply outcome_bind_Ret in H as (x & Hx & H). inv_outcome Hx.
    apply IH in H as (new & -> & Hn). eexists. rewrite <-app_assoc. split; [done|]. by constructor.
Qed.

Lemma ro_listNamespace s ctx items ns : read_only (listNamespace sdk s ctx items ns).
Proof. unfold listNamespace. apply ro_bind; [apply ro_client|intros ?]. solve_read_only. Qed.

Lemma listNamespace_Ret s ctx items ns st items' st' :
  listNamespace sdk s ctx items ns st = (Ret items', st') →
  ∃ c w1 (ts : list Template) new, client_for s ctx ns (st_world st) c w1 ∧
    call sdk c RTemplates (St w1 (st_trace st) (st_queue st)) = (Ret ts, st') ∧
    items' = items ++ new ∧ Forall2 (λ t i, TemplateToK8s ns t = Ret i) ts new.
Proof.
  unfold listNamespace. intros H.
  apply M_bind_Ret in H as (c & st1 & Hc%map_err_Ret & H).
  apply clientForNamespace_Ret in Hc as (p & w1 & Hp & Hc & ->).
  apply M_bind_Ret in H as (ts & st2 & Hts%map_err_Ret & H). apply lift_Ret in H as [H ->].
  apply convertAll_Ret in H as (new & -> & Hn). exists c, w1, ts, new. split_and!; [by exists p|done..].
Qed.

Lemma mfor_listNamespace s ctx nss items st :
  wp (mfor (listNamespace sdk s ctx) items nss)
    (λ o st', unchanged st st' ∧ ∀ items', o = Ret items' →
       ∃ groups, items' = items ++ concat groups ∧ listed s ctx st nss groups st') st.
Proof.
  revert items st. induction nss as [|ns nss IH]; intros items st; cbn [mfor].
  - wp_step. split; [done|]. intros ? [= <-]. exists []. split; [by rewrite app_nil_r|constructor].
  - apply ro_step; [apply ro_listNamespace| |
      intros o st' Ho Hu; split; [done|]; intros ? ->; by destruct (Ho items')].
    intros items1 st1 (c & w1 & ts & new & Hc & Hts & -> & Hn)%listNamespace_Ret H1.
    eapply wp_mono; [|apply IH]. intros o st' [H2 Ho]. split; [by eapply unchanged_trans|].
    intros items' (groups & -> & Hg)%Ho. exists (new :: groups). cbn. rewrite app_assoc.
    split; [done|]. by econstructor.
Qed.
End template_list.

(** C30: a template creation changes nothing before the object is admitted and
    its organization is confirmed; it then creates the template once, either
    from the given version or from a version made of an archive of exactly
    [spec.files], and returns what the backend made, announced by one Added
    event ([create_contract]). *)
Theorem template_Create_contract {W} {ZA : ZipArchive}
    (sdk : client → ∀ r : request, M W goerror (response r))
    (range : ∀ V : Type, gmap string V → list (string * V))
    (s : storage W) (ctx : option context) (obj : object) (cv : option (ValidateObjectFunc W))
    (st st' : Sdk.st W) (o : result object)
    (Hrun : Create sdk range (Some s) ctx (Some obj) cv st = (o, st')) :
  create_contract sdk range s ctx obj cv st o st'.
Proof. exact (wp_run _ _ _ _ _ (template_Create_wp sdk range s ctx obj cv st) Hrun). Qed.

(** A template deletion deletes at most the one template its name denotes
    in the organization, once the admission hook accepted that template; success
    is reported with [deleted = true] and announced by one Deleted event
    ([delete_contract]). *)
Theorem template_Delete_contract {W} (sdk : client → ∀ r : request, M W goerror (response r))
    (s : storage W) (ctx : option context) (name : string) (dv : option (ValidateObjectFunc W))
    (st st' : Sdk.st W) (o : result (object * bool))
    (Hrun : Delete sdk (Some s) ctx name dv st = (o, st')) :
  delete_contract sdk s ctx name dv st o st'.
Proof. exact (wp_run _ _ _ _ _ (template_Delete_wp sdk s ctx name dv st) Hrun). Qed.

(** listing the templates of all namespaces asks the backend of every
    eligible namespace, changes nothing, and returns each template of each
    backend exactly once, under the namespace of the backend it came from,
    ordered by namespace and name; if one backend fails, so does the list. *)
Theorem template_List_all {W} (sdk : client → ∀ r : request, M W goerror (response r))
    (s : storage W) (ctx : context) (eligible : option context → M W goerror (list string))
    (Hall : ctx_namespace ctx = "") (Hel : namespaceLister s = Some eligible)
    (st st' : Sdk.st W) (o : result object)
    (Hrun : List sdk (Some s) (Some ctx) st = (o, st')) :
  unchanged st st' ∧
  ∀ obj, o = Ret obj → ∃ nss groups items,
    (∃ w, eligible (Some ctx) (st_world st) = (Ret nss, w) ∧
       listed sdk s (Some ctx) (St w (st_trace st) (st_queue st)) nss groups st') ∧
    obj = OTemplateList templateListType items ∧
    items ≡ₚ concat groups ∧ StronglySorted template_le items.
Proof.
  unfold List in Hrun. cbn -[mfor listNamespace ListAll] in Hrun. rewrite Hel, Hall in Hrun. cbn -[ListAll] in Hrun.
  change (ListAll sdk s (Some ctx) eligible st = (o, st')) in Hrun.
  pattern o, st'. refine (wp_run _ _ _ _ _ _ Hrun). unfold ListAll. apply ro_step; [apply ro_ext| |].
  2: { intros o' st1 Ho Hu. split; [done|]. intros obj ->. by destruct (Ho obj). }
  intros nss st1 (w & Hw & ->)%ext_Ret H1.
  apply wp_bind. eapply wp_mono; [|apply mfor_listNamespace].
  intros [items|e|e] st2 [H2 Hitems]; unfold wp_cont;
    [|split; [by eapply unchanged_trans|done]..].
  wp_step. split; [by eapply unchanged_trans|]. intros obj [= <-].
  destruct (Hitems _ eq_refl) as (groups & -> & Hg). cbn [app].
  exists nss, groups, (merge_sort template_le (concat groups)). split_and!; [by exists w|done| |].
  - apply merge_sort_Permutation.
  - apply (StronglySorted_merge_sort template_le).
Qed.

(** ** A concrete backend

    A template whose active version is 12 until version 99 is promoted; version
    12 has the archive [original_zip], version 99 the archive uploaded for it. *)

Definition ts_client : client := {|
  client_URL := example_url "http://coder"; client_SessionToken := "tok";
  client_Timeout := 30 * Second |}.

Definition ts_template (w : Z * Z) : Template := {|
  t_ID := 5; t_CreatedAt := 1; t_UpdatedAt := 2; t_OrganizationName := "acme"; t_Name := "go";
  t_DisplayName := "Go"; t_Description := EmptyString; t_Icon := EmptyString;
  t_ActiveVersionID := if Z.eqb w.2 0 then 12 else 99; t_Deprecated := false |}%Z.

Definition ts_version (v : Uuid.t) : TemplateVersion := {|
  tv_ID := v; tv_TemplateID := Some 5%Z;
  tv_Job := {| job_FileID := v; job_Status := "succeeded"; job_Error := EmptyString |} |}.

Definition ts_sdk (c : client) (r : request) : M (Z * Z) goerror (response r) :=
  match r as r return M (Z * Z) goerror (response r) with
  | ROrganizationByName name => mret {| org_ID := 3%Z; org_Name := name |}
  | RTemplateByName _ _ => λ w, (Ret (ts_template w), w)
  | RTemplate _ => λ w, (Ret (ts_template w), w)
  | RTemplates => λ w, (Ret [ts_template w], w)
  | RTemplateVersion v => mret (ts_version v)
  | RFileZip f => mret {| StatusCode := 200;
                          Body := if Z.eqb f 12 then original_zip else merged_zip;
                          Body_readErr := None; Body_closeErr := None |}
  | RUpload _ => mret {| upload_ID := 70%Z |}
  | RCreateTemplateVersion _ _ => mret (ts_version 99%Z)
  | RCreateTemplate _ _ => λ w, (Ret (ts_template w), w)
  | RUpdateTemplateMeta _ _ => λ w, (Ret (ts_template w), w)
  | RUpdateActiveTemplateVersion _ _ => λ w, (Ret tt, (w.1, 1%Z))
  | RDeleteTemplate _ => mret tt
  | _ => throw (ErrorString "not in this backend")
  end.

Definition ts_storage : storage (Z * Z) :=
  MkStorage (Some (static_provider {| static_Client := Some ts_client; static_Namespace := "ns" |})) true.
Definition ts_ctx : option context := Some {| ctx_namespace := "ns"; ctx_deadline := None |}.
Definition ts_state : Sdk.st (Z * Z) := St (0, 0)%Z [] (Chan [] false).

(** The patch that sets the display name and the files. *)
Definition set_source : UpdatedObjectInfo (Z * Z) := λ obj,
  match obj with
  | OTemplate (Some t) => mret (Some (OTemplate (Some {|
      tpl_type := tpl_type t; tpl_meta := tpl_meta t; tpl_Status := tpl_Status t;
      tpl_Spec := {|
        ts_Organization := ts_Organization (tpl_Spec t); ts_VersionID := EmptyString;
        ts_DisplayName := "Go 2"; ts_Description := ts_Description (tpl_Spec t);
        ts_Icon := ts_Icon (tpl_Spec t); ts_Files := Some desired_files;
        ts_Running := ts_Running (tpl_Spec t) |} |})))
  | obj => mret (Some obj)
  end.

Definition ts_body (r : http_response) : goerror := ErrorString "unexpected status".

Definition ts_update := Update (Clock0 := toy_clock) (ZA := ToyZip.toy_zip) ts_sdk toy_range ts_body no_env
  no_durations (Some ts_storage) ts_ctx "acme.go" (Some set_source) None None false ts_state.

Lemma template_Update_contract_witness :
  map snd (mutations (st_trace ts_update.2)) =
    [RUpdateTemplateMeta 5%Z {| utm_DisplayName := Some "Go 2"; utm_Description := Some EmptyString;
                                utm_Icon := Some EmptyString |};
     RUpload merged_zip; RCreateTemplateVersion 3%Z (versionRequest 5%Z 70%Z);
     RUpdateActiveTemplateVersion 5%Z 99%Z] ∧
  update_contract (ZA := ToyZip.toy_zip) ts_sdk toy_range ts_body ts_storage ts_ctx "acme.go" set_source
    None None false ts_state ts_update.1 ts_update.2.
Proof.
  split; [vm_compute; reflexivity|].
  apply (template_Update_contract (C := toy_clock) (ZA := ToyZip.toy_zip) ts_sdk toy_range ts_body no_env
    no_durations ts_storage ts_ctx "acme.go" set_source None None false ts_state ts_update.2 ts_update.1).
  apply surjective_pairing.
Defined.

Definition ts_object : object := OTemplate (Some {|
  tpl_type := {| Kind := "CoderTemplate"; APIVersion := SchemeGroupVersion |};
  tpl_meta := set_meta_name "acme.go" empty_meta;
  tpl_Spec := {| ts_Organization := "acme"; ts_VersionID := EmptyString; ts_DisplayName := "Go";
                 ts_Description := EmptyString; ts_Icon := EmptyString;
                 ts_Files := Some desired_files; ts_Running := false |};
  tpl_Status := tpl_Status empty_template |}).

Definition ts_create :=
  Create (ZA := ToyZip.toy_zip) ts_sdk toy_range (Some ts_storage) ts_ctx (Some ts_object) None ts_state.

Lemma template_Create_contract_witness :
  length (mutations (st_trace ts_create.2)) = 3%nat ∧
  length (ch_buf (st_queue ts_create.2)) = 1%nat ∧
  create_contract (ZA := ToyZip.toy_zip) ts_sdk toy_range ts_storage ts_ctx ts_object None ts_state
    ts_create.1 ts_create.2.
Proof.
  split; [vm_compute; reflexivity|]. split; [vm_compute; reflexivity|].
  apply (template_Create_contract (ZA := ToyZip.toy_zip) ts_sdk toy_range ts_storage ts_ctx ts_object None
    ts_state ts_create.2 ts_create.1). apply surjective_pairing.
Defined.

Definition ts_delete := Delete ts_sdk (Some ts_storage) ts_ctx "acme.go" None ts_state.

Lemma template_Delete_contract_witness :
  ts_delete.1 = Ret (OStatus "Success", true) ∧
  mutations (st_trace ts_delete.2) = [(ts_client, RDeleteTemplate 5%Z)] ∧
  delete_contract ts_sdk ts_storage ts_ctx "acme.go" None ts_state ts_delete.1 ts_delete.2.
Proof.
  split; [vm_compute; reflexivity|]. split; [vm_compute; reflexivity|].
  apply (template_Delete_contract ts_sdk ts_storage ts_ctx "acme.go" None ts_state ts_delete.2 ts_delete.1).
  apply surjective_pairing.
Defined.

(** A provider of two namespaces. *)
Definition two_namespaces : storage (Z * Z) := MkStorage (Some {|
  ClientForNamespace := λ _ _, mret (Some ts_client);
  DefaultNamespace := None;
  EligibleNamespaces := Some (λ _, mret ["b"; "a"]) |}) true.

Definition all_namespaces : context := {| ctx_namespace := EmptyString; ctx_deadline := None |}.
Definition ts_list := List ts_sdk (Some two_namespaces) (Some all_namespaces) ts_state.
Definition listed_names (o : result object) : list (string * string) :=
  match o with
  | Ret (OTemplateList _ items) => map (λ t, (Namespace (tpl_meta t), Name (tpl_meta t))) items
  | _ => []
  end.

Lemma template_List_all_witness :
  listed_names ts_list.1 = [("a", "acme.go"); ("b", "acme.go")] ∧
  mutations (st_trace ts_list.2) = [] ∧
  ∀ obj, ts_list.1 = Ret obj → ∃ items, obj = OTemplateList templateListType items ∧
    StronglySorted template_le items.
Proof.
  split; [vm_compute; reflexivity|].
  destruct (template_List_all ts_sdk two_namespaces all_namespaces (λ _, mret ["b"; "a"]) eq_refl eq_refl
    ts_state ts_list.2 ts_list.1 (surjective_pairing _)) as [[_ Hm] Ho].
  split; [exact Hm|]. intros obj Hobj. destruct (Ho obj Hobj) as (_ & _ & items & _ & H & _ & Hs). eauto.
Defined.
End TemplateStorage.
