(* ===== verification/KubeObjects.v ===== *)
(** * KubeObjects: the Kubernetes objects of the controllers

    The objects the controllers read and write, with decidable equality, their
    kinds and metadata, and the helpers of the vendored Kubernetes packages
    that work on metadata: owner references and finalizers (controllerutil,
    metav1) and [meta.SetStatusCondition]. *)

From S2P Require Import Prelude GoStd GoErrors ApiTypes.

#[local] Open Scope string_scope.
#[local] Open Scope list_scope.

Module KubeObjects.

(** ** Objects *)

Record ConfigMap := { cm_meta : ObjectMeta; cm_Data : gmap string string }.
Record ServiceAccountObject := { sao_meta : ObjectMeta }.
Record Role := { role_meta : ObjectMeta; role_Rules : list PolicyRule }.
Record RoleRef := { rr_APIGroup : string; rr_Kind : string; rr_Name : string }.
Record Subject := { sub_Kind : string; sub_Name : string; sub_Namespace : string }.
Record RoleBinding := { rb_meta : ObjectMeta; rb_RoleRef : RoleRef; rb_Subjects : list Subject }.

(** [apps/v1.Deployment]: the fields the program sets; what it leaves as it
    is, or what is only there once the API server has filled it in, is kept as
    an uninterpreted value. *)
Record Probe := {
  hp_Path : string; hp_Port : string; hp_Scheme : string;
  hp_InitialDelaySeconds : Z; hp_PeriodSeconds : Z; hp_TimeoutSeconds : Z;
  hp_SuccessThreshold : Z; hp_FailureThreshold : Z
}.
Record ContainerPort := { cport_Name : string; cport_ContainerPort : Z; cport_Protocol : string }.
Inductive Volume :=
  | SecretVolume (name secretName : string)
  | OtherVolume (v : k8s_value).
Inductive VolumeMount :=
  | Mount (name mountPath subPath : string) (readOnly : bool)
  | OtherMount (v : k8s_value).
Record Container := {
  con_Name : string; con_Image : string; con_Command : list string; con_Args : list string; con_Env : list EnvVar;
  con_EnvFrom : list EnvFromSource; con_Ports : list ContainerPort;
  con_VolumeMounts : list VolumeMount; con_SecurityContext : option k8s_value;
  con_Resources : option k8s_value; con_ReadinessProbe : option Probe;
  con_LivenessProbe : option Probe; con_Other : option k8s_value
}.
Record PodSpec := {
  pod_ServiceAccountName : string; pod_ImagePullSecrets : list string;
  pod_Containers : list Container; pod_Volumes : list Volume;
  pod_NodeSelector : gmap string string; pod_Tolerations : list k8s_value;
  pod_TopologySpreadConstraints : list k8s_value; pod_SecurityContext : option k8s_value;
  pod_Affinity : option k8s_value; pod_TerminationGracePeriodSeconds : option Z;
  pod_Other : option k8s_value
}.
Record PodTemplateSpec := {
  tpl_Labels : gmap string string; tpl_Annotations : gmap string string; tpl_Other : option k8s_value;
  tpl_Spec : PodSpec
}.
Record LabelSelector := { ls_MatchLabels : gmap string string; ls_MatchExpressions : list k8s_value }.
Record Deployment := {
  dep_meta : ObjectMeta; dep_Replicas : option Z; dep_Selector : option LabelSelector;
  dep_Template : PodTemplateSpec; dep_OtherSpec : option k8s_value; dep_ReadyReplicas : Z
}.

(** [core/v1.Service] *)
Record ServicePort := { sp_Name : string; sp_Port : Z; sp_Protocol : string; sp_TargetPort : Z; sp_NodePort : Z }.
Record ServiceObject := {
  svo_meta : ObjectMeta; svo_Type : string; svo_Selector : gmap string string;
  svo_Ports : list ServicePort; svo_OtherSpec : option k8s_value
}.

(** [networking/v1.Ingress]: rules with one path each. *)
Record IngressBackend := { ib_ServiceName : string; ib_PortNumber : Z }.
Record IngressPath := { ip_Path : string; ip_PathType : string; ip_Backend : IngressBackend }.
Record IngressRule := { ir_Host : string; ir_Paths : list IngressPath }.
Record IngressTLS := { it_SecretName : string; it_Hosts : list string }.
Record Ingress := {
  ing_meta : ObjectMeta; ing_ClassName : option string; ing_Rules : list IngressRule;
  ing_TLS : list IngressTLS; ing_OtherSpec : option k8s_value
}.

(** [gateway/v1.HTTPRoute] *)
Record ParentReference := {
  pref_Name : string; pref_Namespace : option string; pref_SectionName : option string;
  pref_Other : option k8s_value
}.
Record HTTPBackendRef := { hb_Group : string; hb_Kind : string; hb_Name : string; hb_Port : Z }.
Record HTTPRouteRule := { hr_PathType : string; hr_PathValue : string; hr_BackendRefs : list HTTPBackendRef }.
Record HTTPRoute := {
  route_meta : ObjectMeta; route_ParentRefs : list ParentReference; route_Hostnames : list string;
  route_Rules : list HTTPRouteRule; route_OtherSpec : option k8s_value
}.

Definition k8s_value_eq_dec : EqDecision k8s_value.
Proof.
  refine (fix go v1 v2 {struct v1} : Decision (v1 = v2) :=
    match v1, v2 with
    | JNull, JNull => left eq_refl
    | JBool b1, JBool b2 => cast_if (decide (b1 = b2))
    | JInt z1, JInt z2 => cast_if (decide (z1 = z2))
    | JStr s1, JStr s2 => cast_if (decide (s1 = s2))
    | JList l1, JList l2 => cast_if (@list_eq_dec k8s_value go l1 l2)
    | JObj f1, JObj f2 =>
        cast_if (@list_eq_dec (string * k8s_value)
                   (λ x y, @prod_eq_dec string _ k8s_value go x y) f1 f2)
    | _, _ => right _
    end); congruence.
Defined.
#[global] Existing Instance k8s_value_eq_dec.

#[global] Instance OwnerReference_eq_dec : EqDecision OwnerReference.
Proof. solve_decision. Defined.
#[global] Instance ObjectMeta_eq_dec : EqDecision ObjectMeta.
Proof. solve_decision. Defined.
#[global] Instance PolicyRule_eq_dec : EqDecision PolicyRule.
Proof. solve_decision. Defined.
#[global] Instance Role_eq_dec : EqDecision Role.
Proof. solve_decision. Defined.
#[global] Instance RoleRef_eq_dec : EqDecision RoleRef.
Proof. solve_decision. Defined.
#[global] Instance Subject_eq_dec : EqDecision Subject.
Proof. solve_decision. Defined.
#[global] Instance RoleBinding_eq_dec : EqDecision RoleBinding.
Proof. solve_decision. Defined.
#[global] Instance ConfigMap_eq_dec : EqDecision ConfigMap.
Proof. solve_decision. Defined.
#[global] Instance ServiceAccountObject_eq_dec : EqDecision ServiceAccountObject.
Proof. solve_decision. Defined.
#[global] Instance Secret_eq_dec : EqDecision Secret.
Proof. solve_decision. Defined.

#[global] Instance ServiceSpec_eq_dec : EqDecision ServiceSpec.
Proof. solve_decision. Defined.
#[global] Instance ServiceAccountSpec_eq_dec : EqDecision ServiceAccountSpec.
Proof. solve_decision. Defined.
#[global] Instance RBACSpec_eq_dec : EqDecision RBACSpec.
Proof. solve_decision. Defined.
#[global] Instance TLSSpec_eq_dec : EqDecision TLSSpec.
Proof. solve_decision. Defined.
#[global] Instance ProbeSpec_eq_dec : EqDecision ProbeSpec.
Proof. solve_decision. Defined.
#[global] Instance IngressTLSExposeSpec_eq_dec : EqDecision IngressTLSExposeSpec.
Proof. solve_decision. Defined.
#[global] Instance IngressExposeSpec_eq_dec : EqDecision IngressExposeSpec.
Proof. solve_decision. Defined.
#[global] Instance GatewayParentRef_eq_dec : EqDecision GatewayParentRef.
Proof. solve_decision. Defined.
#[global] Instance GatewayExposeSpec_eq_dec : EqDecision GatewayExposeSpec.
Proof. solve_decision. Defined.
#[global] Instance ExposeSpec_eq_dec : EqDecision ExposeSpec.
Proof. solve_decision. Defined.
#[global] Instance CertSecretSelector_eq_dec : EqDecision CertSecretSelector.
Proof. solve_decision. Defined.
#[global] Instance EnvVarSource_eq_dec : EqDecision EnvVarSource.
Proof. solve_decision. Defined.
#[global] Instance EnvVar_eq_dec : EqDecision EnvVar.
Proof. solve_decision. Defined.
#[global] Instance EnvFromSource_eq_dec : EqDecision EnvFromSource.
Proof. solve_decision. Defined.
#[global] Instance OperatorAccessSpec_eq_dec : EqDecision OperatorAccessSpec.
Proof. solve_decision. Defined.
#[global] Instance CoderControlPlaneSpec_eq_dec : EqDecision CoderControlPlaneSpec.
Proof. solve_decision. Defined.
#[global] Instance CoderControlPlane_eq_dec : EqDecision CoderControlPlane.
Proof. solve_decision. Defined.

#[global] Instance CoderProvisionerKeySpec_eq_dec : EqDecision CoderProvisionerKeySpec.
Proof. solve_decision. Defined.
#[global] Instance CoderProvisionerSpec_eq_dec : EqDecision CoderProvisionerSpec.
Proof. solve_decision. Defined.
#[global] Instance CoderProvisioner_eq_dec : EqDecision CoderProvisioner.
Proof. solve_decision. Defined.
#[global] Instance ProxyBootstrapSpec_eq_dec : EqDecision ProxyBootstrapSpec.
Proof. solve_decision. Defined.
#[global] Instance WorkspaceProxySpec_eq_dec : EqDecision WorkspaceProxySpec.
Proof. solve_decision. Defined.
#[global] Instance CoderWorkspaceProxy_eq_dec : EqDecision CoderWorkspaceProxy.
Proof. solve_decision. Defined.

#[global] Instance Probe_eq_dec : EqDecision Probe.
Proof. solve_decision. Defined.
#[global] Instance ContainerPort_eq_dec : EqDecision ContainerPort.
Proof. solve_decision. Defined.
#[global] Instance Volume_eq_dec : EqDecision Volume.
Proof. solve_decision. Defined.
#[global] Instance VolumeMount_eq_dec : EqDecision VolumeMount.
Proof. solve_decision. Defined.
#[global] Instance Container_eq_dec : EqDecision Container.
Proof. solve_decision. Defined.
#[global] Instance PodSpec_eq_dec : EqDecision PodSpec.
Proof. solve_decision. Defined.
#[global] Instance PodTemplateSpec_eq_dec : EqDecision PodTemplateSpec.
Proof. solve_decision. Defined.
#[global] Instance LabelSelector_eq_dec : EqDecision LabelSelector.
Proof. solve_decision. Defined.
#[global] Instance Deployment_eq_dec : EqDecision Deployment.
Proof. solve_decision. Defined.
#[global] Instance ServicePort_eq_dec : EqDecision ServicePort.
Proof. solve_decision. Defined.
#[global] Instance ServiceObject_eq_dec : EqDecision ServiceObject.
Proof. solve_decision. Defined.
#[global] Instance IngressBackend_eq_dec : EqDecision IngressBackend.
Proof. solve_decision. Defined.
#[global] Instance IngressPath_eq_dec : EqDecision IngressPath.
Proof. solve_decision. Defined.
#[global] Instance IngressRule_eq_dec : EqDecision IngressRule.
Proof. solve_decision. Defined.
#[global] Instance IngressTLS_eq_dec : EqDecision IngressTLS.
Proof. solve_decision. Defined.
#[global] Instance Ingress_eq_dec : EqDecision Ingress.
Proof. solve_decision. Defined.
#[global] Instance ParentReference_eq_dec : EqDecision ParentReference.
Proof. solve_decision. Defined.
#[global] Instance HTTPBackendRef_eq_dec : EqDecision HTTPBackendRef.
Proof. solve_decision. Defined.
#[global] Instance HTTPRouteRule_eq_dec : EqDecision HTTPRouteRule.
Proof. solve_decision. Defined.
#[global] Instance HTTPRoute_eq_dec : EqDecision HTTPRoute.
Proof. solve_decision. Defined.

(** The kinds of objects, their types and their metadata. *)
Inductive kind :=
  | KControlPlane | KSecret | KConfigMap | KServiceAccount | KRole | KRoleBinding
  | KDeployment | KService | KIngress | KHTTPRoute | KProvisioner | KWorkspaceProxy.

Definition obj (k : kind) : Type :=
  match k with
  | KControlPlane => CoderControlPlane
  | KSecret => Secret
  | KConfigMap => ConfigMap
  | KServiceAccount => ServiceAccountObject
  | KRole => Role
  | KRoleBinding => RoleBinding
  | KDeployment => Deployment
  | KService => ServiceObject
  | KIngress => Ingress
  | KHTTPRoute => HTTPRoute
  | KProvisioner => CoderProvisioner
  | KWorkspaceProxy => CoderWorkspaceProxy
  end.

#[global] Instance obj_eq_dec k : EqDecision (obj k).
Proof. destruct k; cbn; apply _. Defined.

Definition meta (k : kind) : obj k → ObjectMeta :=
  match k with
  | KControlPlane => cp_meta
  | KSecret => secret_meta
  | KConfigMap => cm_meta
  | KServiceAccount => sao_meta
  | KRole => role_meta
  | KRoleBinding => rb_meta
  | KDeployment => dep_meta
  | KService => svo_meta
  | KIngress => ing_meta
  | KHTTPRoute => route_meta
  | KProvisioner => pv_meta
  | KWorkspaceProxy => wp_meta
  end.

(** [types.NamespacedName] and [client.ObjectKeyFromObject]. *)
Definition object_key : Type := string * string.
Definition key_of (m : ObjectMeta) : object_key := (Namespace m, Name m).

(** An object literal that sets only the namespace and the name. *)
Definition meta_of_key (key : object_key) : ObjectMeta := {|
  Name := key.2; Namespace := key.1; UID := ""; ResourceVersion := ""; Generation := 0;
  CreationTimestamp := time_zero; DeletionTimestamp := None; Labels := ∅; Annotations := ∅;
  OwnerReferences := []; Finalizers := [] |}.

(** ** Metadata updates *)

Definition set_labels (l : gmap string string) (m : ObjectMeta) : ObjectMeta := {|
  Name := Name m; Namespace := Namespace m; UID := UID m; ResourceVersion := ResourceVersion m;
  Generation := Generation m; CreationTimestamp := CreationTimestamp m;
  DeletionTimestamp := DeletionTimestamp m; Labels := l; Annotations := Annotations m;
  OwnerReferences := OwnerReferences m; Finalizers := Finalizers m |}.
Definition set_annotations (a : gmap string string) (m : ObjectMeta) : ObjectMeta := {|
  Name := Name m; Namespace := Namespace m; UID := UID m; ResourceVersion := ResourceVersion m;
  Generation := Generation m; CreationTimestamp := CreationTimestamp m;
  DeletionTimestamp := DeletionTimestamp m; Labels := Labels m; Annotations := a;
  OwnerReferences := OwnerReferences m; Finalizers := Finalizers m |}.
Definition set_owners (l : list OwnerReference) (m : ObjectMeta) : ObjectMeta := {|
  Name := Name m; Namespace := Namespace m; UID := UID m; ResourceVersion := ResourceVersion m;
  Generation := Generation m; CreationTimestamp := CreationTimestamp m;
  DeletionTimestamp := DeletionTimestamp m; Labels := Labels m; Annotations := Annotations m;
  OwnerReferences := l; Finalizers := Finalizers m |}.
Definition set_finalizers (l : list string) (m : ObjectMeta) : ObjectMeta := {|
  Name := Name m; Namespace := Namespace m; UID := UID m; ResourceVersion := ResourceVersion m;
  Generation := Generation m; CreationTimestamp := CreationTimestamp m;
  DeletionTimestamp := DeletionTimestamp m; Labels := Labels m; Annotations := Annotations m;
  OwnerReferences := OwnerReferences m; Finalizers := l |}.

(** ** Finalizers (controllerutil) *)

Definition ContainsFinalizer (m : ObjectMeta) (finalizer : string) : bool :=
  existsb (String.eqb finalizer) (Finalizers m).
Definition AddFinalizer (m : ObjectMeta) (finalizer : string) : ObjectMeta :=
  if ContainsFinalizer m finalizer then m else set_finalizers (Finalizers m ++ [finalizer]) m.
Definition RemoveFinalizer (m : ObjectMeta) (finalizer : string) : ObjectMeta :=
  set_finalizers (List.filter (λ f, negb (String.eqb f finalizer)) (Finalizers m)) m.

(** ** Owner references (metav1, controllerutil) *)

Definition is_controller (r : OwnerReference) : bool :=
  match or_Controller r with Some b => b | None => false end.
Definition GetControllerOf (m : ObjectMeta) : option OwnerReference :=
  List.find is_controller (OwnerReferences m).

(** [schema.ParseGroupVersion]: the group, or an error. *)
Definition group_of (gv : string) : result string :=
  if String.eqb gv "" || String.eqb gv "/" then Ret ""
  else match count_char "/" gv with
  | 0 => Ret ""
  | 1 => Ret match cut "/" gv with Some (g, _) => g | None => "" end
  | _ => Err (Errorf "unexpected GroupVersion string: %v" [FStr gv])
  end%nat.

Definition referSameObject (a b : OwnerReference) : bool :=
  match group_of (or_APIVersion a), group_of (or_APIVersion b) with
  | Ret ga, Ret gb =>
      String.eqb ga gb && String.eqb (or_Kind a) (or_Kind b) && String.eqb (or_Name a) (or_Name b)
  | _, _ => false
  end.

Definition validateOwner (owner object : ObjectMeta) : result () :=
  if String.eqb (Namespace owner) "" then mret tt
  else
    _ ← fail_if (String.eqb (Namespace object) "")
          (Errorf "cluster-scoped resource must not have a namespace-scoped owner, owner's namespace %s"
             [FStr (Namespace owner)]);
    fail_if (negb (String.eqb (Namespace owner) (Namespace object)))
      (Errorf "cross-namespace owner references are disallowed, owner's namespace %s, obj's namespace %s"
         [FStr (Namespace owner); FStr (Namespace object)]).

(** The first reference to the same object is replaced, else one is added. *)
Fixpoint upsertOwnerRef (ref : OwnerReference) (owners : list OwnerReference) : list OwnerReference :=
  match owners with
  | [] => [ref]
  | r :: owners => if referSameObject r ref then ref :: owners else r :: upsertOwnerRef ref owners
  end.

(** The reference [SetControllerReference] makes for an owner of the given
    group version and kind, as the scheme has them. *)
Definition controller_ref (apiVersion kind : string) (owner : ObjectMeta) : OwnerReference := {|
  or_APIVersion := apiVersion; or_Kind := kind; or_Name := Name owner; or_UID := UID owner;
  or_Controller := Some true; or_BlockOwnerDeletion := Some true |}.

Definition SetControllerReference (apiVersion kind : string) (owner controlled : ObjectMeta)
    : result ObjectMeta :=
  _ ← validateOwner owner controlled;
  let ref := controller_ref apiVersion kind owner in
  _ ← match GetControllerOf controlled with
      | Some existing =>
          fail_if (negb (referSameObject existing ref))
            (Errorf "Object %s/%s is already owned by another %s controller %s"
               [FStr (Namespace controlled); FStr (Name controlled); FStr (or_Kind existing);
                FStr (or_Name existing)])
      | None => mret tt
      end;
  mret (set_owners (upsertOwnerRef ref (OwnerReferences controlled)) controlled).

(** Removal of the first reference to the same object. *)
Fixpoint remove_ref (ref : OwnerReference) (owners : list OwnerReference)
    : option (OwnerReference * list OwnerReference) :=
  match owners with
  | [] => None
  | r :: owners =>
      if referSameObject r ref then Some (r, owners)
      else '(found, rest) ← remove_ref ref owners; Some (found, r :: rest)
  end.

Definition RemoveControllerReference (apiVersion kind : string) (owner object : ObjectMeta)
    : result ObjectMeta :=
  _ ← fail_if (negb (existsb is_controller (OwnerReferences object)))
        (Errorf "%T does not have a owner reference with controller equals true" []);
  match remove_ref (controller_ref apiVersion kind owner) (OwnerReferences object) with
  | None => Err (Errorf "%T does not have an controller reference for %T" [])
  | Some (found, rest) =>
      _ ← fail_if (negb (is_controller found))
            (Errorf "%T owner is not the controller reference for %T" []);
      mret (set_owners rest object)
  end.

(** ** Conditions (meta.SetStatusCondition) *)

Definition ConditionTrue := "True".
Definition ConditionFalse := "False".
Definition ConditionUnknown := "Unknown".

Definition FindStatusCondition (conditions : list Condition) (conditionType : string)
    : option Condition :=
  List.find (λ c, String.eqb (cond_Type c) conditionType) conditions.

(** The existing condition of the type, brought to the new one. *)
Definition merge_condition (now : time) (old new : Condition) : Condition := {|
  cond_Type := cond_Type old;
  cond_Status := cond_Status new;
  cond_ObservedGeneration := cond_ObservedGeneration new;
  cond_LastTransitionTime :=
    if String.eqb (cond_Status old) (cond_Status new) then cond_LastTransitionTime old
    else if time_IsZero (cond_LastTransitionTime new) then now else cond_LastTransitionTime new;
  cond_Reason := cond_Reason new;
  cond_Message := cond_Message new |}.

Definition stamp_condition (now : time) (c : Condition) : Condition := {|
  cond_Type := cond_Type c; cond_Status := cond_Status c;
  cond_ObservedGeneration := cond_ObservedGeneration c;
  cond_LastTransitionTime := if time_IsZero (cond_LastTransitionTime c) then now
                             else cond_LastTransitionTime c;
  cond_Reason := cond_Reason c; cond_Message := cond_Message c |}.

Fixpoint SetStatusCondition (now : time) (conditions : list Condition) (new : Condition)
    : list Condition :=
  match conditions with
  | [] => [stamp_condition now new]
  | c :: rest =>
      if String.eqb (cond_Type c) (cond_Type new) then merge_condition now c new :: rest
      else c :: SetStatusCondition now rest new
  end.

(** * Lemmas *)

(** ** Owner references *)

Lemma upsert_controller ref owners :
  is_controller ref = true →
  (∀ r, List.find is_controller owners = Some r → referSameObject r ref = true) →
  List.find is_controller (upsertOwnerRef ref owners) = Some ref.
Proof.
  intros Href. induction owners as [|r owners IH]; cbn; intros Hex; [by rewrite Href|].
  destruct (referSameObject r ref) eqn:Hsame; cbn; [by rewrite Href|].
  destruct (is_controller r); [|by apply IH]. by rewrite (Hex r) in Hsame.
Qed.

(** Once set, the controller of the object is the owner, and nothing else of
    the object's metadata has changed. *)
Lemma SetControllerReference_owner v k owner m m' :
  SetControllerReference v k owner m = Ret m' →
  GetControllerOf m' = Some (controller_ref v k owner) ∧ key_of m' = key_of m ∧
  Labels m' = Labels m ∧ Annotations m' = Annotations m ∧ Finalizers m' = Finalizers m ∧
  (Namespace owner = "" ∨ Namespace owner = Namespace m).
Proof.
  unfold SetControllerReference. intros H. inv_outcome H. split_and!; [|done..|].
  - apply upsert_controller; [done|]. intros r Hr. unfold GetControllerOf in *. rewrite Hr in *.
    inv_outcome Hx0. by apply negb_false_iff in Hx0.
  - unfold validateOwner in Hx. destruct (String.eqb_spec (Namespace owner) ""); [by left|right].
    inv_outcome Hx. by apply negb_false_iff, String.eqb_eq in Hx.
Qed.

Lemma upsert_idem ref owners :
  referSameObject ref ref = true →
  upsertOwnerRef ref (upsertOwnerRef ref owners) = upsertOwnerRef ref owners.
Proof.
  intros Href. induction owners as [|r owners IH]; cbn; [by rewrite Href|].
  destruct (referSameObject r ref) eqn:Hsame; cbn; [by rewrite Href|]. by rewrite Hsame, IH.
Qed.

(** Setting it again changes nothing. *)
Lemma SetControllerReference_idem v k owner m m' g :
  group_of v = Ret g → SetControllerReference v k owner m = Ret m' →
  SetControllerReference v k owner m' = Ret m'.
Proof.
  intros Hg H. pose proof (SetControllerReference_owner _ _ _ _ _ H) as (Hc & Hkey & _).
  assert (referSameObject (controller_ref v k owner) (controller_ref v k owner) = true) as Href.
  { unfold referSameObject. cbn. by rewrite Hg, !String.eqb_refl. }
  revert H. unfold SetControllerReference. intros H. inv_outcome H.
  unfold validateOwner in *. cbn [Namespace set_owners]. rewrite Hx. cbn.
  cbn in Hc. rewrite Hc, Href. unfold fail_if. cbn. unfold set_owners. cbn.
  by rewrite upsert_idem.
Qed.

(** ** Finalizers *)

Lemma ContainsFinalizer_elem m f : ContainsFinalizer m f = true ↔ f ∈ Finalizers m.
Proof.
  unfold ContainsFinalizer. rewrite existsb_exists, list_elem_of_In. split.
  - intros (x & Hx & ->%String.eqb_eq). done.
  - intros H. exists f. by rewrite String.eqb_refl.
Qed.

Lemma AddFinalizer_contains m f : ContainsFinalizer (AddFinalizer m f) f = true.
Proof.
  unfold AddFinalizer. destruct (ContainsFinalizer m f) eqn:H; [done|].
  apply ContainsFinalizer_elem. cbn. set_solver.
Qed.

Lemma RemoveFinalizer_contains m f g :
  g ∈ Finalizers (RemoveFinalizer m f) ↔ g ∈ Finalizers m ∧ g ≠ f.
Proof.
  cbn. rewrite !list_elem_of_In, filter_In, negb_true_iff, String.eqb_neq. done.
Qed.

(** ** Conditions *)

Definition condition_as (new c : Condition) : Prop :=
  cond_Type c = cond_Type new ∧ cond_Status c = cond_Status new ∧
  cond_Reason c = cond_Reason new ∧ cond_Message c = cond_Message new ∧
  cond_ObservedGeneration c = cond_ObservedGeneration new.

Lemma SetStatusCondition_find now l new :
  ∃ c, FindStatusCondition (SetStatusCondition now l new) (cond_Type new) = Some c ∧ condition_as new c.
Proof.
  unfold FindStatusCondition. induction l as [|c l IH]; cbn.
  - rewrite String.eqb_refl. by eexists.
  - destruct (String.eqb (cond_Type c) (cond_Type new)) eqn:Heq; cbn; rewrite Heq; [|done].
    eexists. split; [done|]. by apply String.eqb_eq in Heq.
Qed.

Lemma SetStatusCondition_other now l new ty :
  ty ≠ cond_Type new →
  FindStatusCondition (SetStatusCondition now l new) ty = FindStatusCondition l ty.
Proof.
  intros Hne. unfold FindStatusCondition. induction l as [|c l IH]; cbn.
  - destruct (String.eqb_spec (cond_Type new) ty); [congruence|done].
  - destruct (String.eqb_spec (cond_Type c) (cond_Type new)) as [Heq|Hn]; cbn.
    + destruct (String.eqb_spec (cond_Type c) ty); [congruence|done].
    + destruct (String.eqb _ ty); [done|apply IH].
Qed.

Lemma SetStatusCondition_types now l new :
  map cond_Type (SetStatusCondition now l new) =
  if existsb (λ c, String.eqb (cond_Type c) (cond_Type new)) l then map cond_Type l
  else map cond_Type l ++ [cond_Type new].
Proof.
  induction l as [|c l IH]; cbn; [done|].
  destruct (String.eqb (cond_Type c) (cond_Type new)); cbn; [done|].
  rewrite IH. by destruct (existsb _ l).
Qed.

(** There is never more than one condition of a type. *)
Lemma SetStatusCondition_NoDup now l new :
  NoDup (map cond_Type l) → NoDup (map cond_Type (SetStatusCondition now l new)).
Proof.
  intros H. rewrite SetStatusCondition_types. destruct (existsb _ l) eqn:Hex; [done|].
  apply NoDup_app. split_and!; [done| |apply NoDup_singleton].
  intros x (c & -> & Hc)%list_elem_of_fmap Hx%list_elem_of_singleton.
  apply not_true_iff_false in Hex. apply Hex, existsb_exists. exists c.
  by rewrite <-list_elem_of_In, String.eqb_eq.
Qed.

(** Setting the same condition again changes nothing, whenever it is done. *)
Lemma SetStatusCondition_idem now now' l new :
  SetStatusCondition now' (SetStatusCondition now l new) new = SetStatusCondition now l new.
Proof.
  induction l as [|c l IH]; cbn.
  - rewrite String.eqb_refl. unfold merge_condition, stamp_condition. cbn.
    by rewrite String.eqb_refl.
  - destruct (String.eqb (cond_Type c) (cond_Type new)) eqn:Heq; cbn; rewrite Heq; [|by rewrite IH].
    unfold merge_condition. cbn. by rewrite String.eqb_refl.
Qed.

End KubeObjects.
Export KubeObjects.
