(* ===== verification/Kube.v ===== *)
(** * Kube: the calls of the controllers

    The calls the controllers make (one parameter [env], a function from an
    action to an effect on the world), the state of a reconciliation, and the
    helpers of the vendored packages that make calls: [CreateOrUpdate]
    (controllerutil) and [retry.RetryOnConflict]; with the lemmas and tactics
    that bound the calls of a run and invert it. *)

From S2P Require Import Prelude GoStd GoErrors Uuid ApiTypes KubeObjects.

#[local] Open Scope string_scope.
#[local] Open Scope list_scope.

Module Kube.

(** ** Calls *)

(** [r.Client] reads from a cache, [r.APIReader] from the API server. *)
Inductive reader := CachedReader | APIServerReader.

Record EnsureOperatorTokenRequest := {
  eot_PostgresURL : string; eot_OperatorUsername : string; eot_OperatorEmail : string;
  eot_TokenName : string; eot_TokenLifetime : Z; eot_ExistingToken : string
}.
Record RevokeOperatorTokenRequest := {
  rot_PostgresURL : string; rot_OperatorUsername : string; rot_TokenName : string
}.

(** [coderbootstrap.EnsureProvisionerKeyRequest] and its response; a [Key] that
    is not empty is the plaintext of a key just created. *)
Record EnsureProvisionerKeyRequest := {
  epk_CoderURL : string; epk_SessionToken : string; epk_OrganizationName : string;
  epk_KeyName : string; epk_Tags : gmap string string
}.
Record EnsureProvisionerKeyResponse := {
  epr_OrganizationID : Uuid.t; epr_KeyID : Uuid.t; epr_KeyName : string; epr_Key : string
}.

(** [coderbootstrap.RegisterWorkspaceProxyRequest] and its response. *)
Record RegisterWorkspaceProxyRequest := {
  rwp_CoderURL : string; rwp_SessionToken : string; rwp_ProxyName : string;
  rwp_DisplayName : string; rwp_Icon : string
}.
Record RegisterWorkspaceProxyResponse := { rwr_ProxyName : string; rwr_ProxyToken : string }.

(** [codersdk.Entitlements]: what the controllers read of it. *)
Record Entitlements := {
  ent_Features : option (gmap string string);    (* Feature.Entitlement by name *)
  ent_HasLicense : bool;
  ent_Trial : bool
}.

Inductive action :=
  | AGet (r : reader) (k : kind) (key : object_key)
  | AList (k : kind) (namespace : string) (labels : gmap string string)
  | AListIndexed (namespace indexField indexValue : string)   (* control planes *)
  | ACreate (k : kind) (o : obj k)
  | AUpdate (k : kind) (o : obj k)
  | APatch (k : kind) (original modified : obj k)
  | ADelete (k : kind) (o : obj k)
  | AUpdateStatus (cp : CoderControlPlane)
  | AListProvisioners (namespace indexField indexValue : string)
  | AUpdateProvisionerStatus (p : CoderProvisioner)
  | AEnsureProvisionerKey (req : EnsureProvisionerKeyRequest)
  | ADeleteProvisionerKey (coderURL sessionToken orgName keyName : string)
  | AUpdateProxyStatus (p : CoderWorkspaceProxy)
  | AEnsureWorkspaceProxy (req : RegisterWorkspaceProxyRequest)
  | AEnsureOperatorToken (req : EnsureOperatorTokenRequest)
  | ARevokeOperatorToken (req : RevokeOperatorTokenRequest)
  | AAddLicense (coderURL sessionToken licenseJWT : string)
  | AHasAnyLicense (coderURL sessionToken : string)
  | AEntitlements (coderURL sessionToken : string)
  | ASleep.                                      (* the pause of a retry *)

Definition reply (a : action) : Type :=
  match a with
  | AGet _ k _ | ACreate k _ | AUpdate k _ | APatch k _ _ => obj k
  | AList k _ _ => list (obj k)
  | AListIndexed _ _ _ => list CoderControlPlane
  | AUpdateStatus _ => CoderControlPlane
  | AListProvisioners _ _ _ => list CoderProvisioner
  | AUpdateProvisionerStatus _ => CoderProvisioner
  | AEnsureProvisionerKey _ => EnsureProvisionerKeyResponse
  | AUpdateProxyStatus _ => CoderWorkspaceProxy
  | AEnsureWorkspaceProxy _ => RegisterWorkspaceProxyResponse
  | AEnsureOperatorToken _ => string
  | AHasAnyLicense _ _ => bool
  | AEntitlements _ _ => Entitlements
  | ADelete _ _ | ARevokeOperatorToken _ | ADeleteProvisionerKey _ _ _ _ | AAddLicense _ _ _ | ASleep => ()
  end.

(** The actions that change a Kubernetes object. *)
Definition writes (a : action) : bool :=
  match a with
  | ACreate _ _ | AUpdate _ _ | APatch _ _ _ | ADelete _ _ | AUpdateStatus _
  | AUpdateProvisionerStatus _ | AUpdateProxyStatus _ => true
  | _ => false
  end.

(** The state of a reconciliation: the world and the calls made so far. *)
Record kst (W : Type) := KSt { k_world : W; k_trace : list action }.
#[global] Arguments KSt {W}.
#[global] Arguments k_world {W}.
#[global] Arguments k_trace {W}.

(** The clock: every [time.Now()] may find a later time. *)
Class HasClock (W : Type) := tick : W → time * W.

(** [ctrl.Result]: [RequeueAfter] in nanoseconds. *)
Record Result := { RequeueAfter : Z }.
Definition no_requeue : Result := {| RequeueAfter := 0 |}.

#[global] Instance Result_eq_dec : EqDecision Result.
Proof. solve_decision. Defined.

Section calls.
Context {W : Type} (env : ∀ a : action, M W goerror (reply a)).

Definition reconciliation : Type → Type := M (kst W) goerror.

(** [time.Now()] and [metav1.Now()] *)
Definition Now `{!HasClock W} : reconciliation time := λ s,
  let '(t, w) := tick (k_world s) in (Ret t, KSt w (k_trace s)).

(** [time.Since(t)]: the difference as a duration, saturated as
    [Time.Sub] does. *)
Definition Since `{!HasClock W} (t : time) : reconciliation Z :=
  now ← Now; mret (Z.max int64_min (Z.min int64_max (now - t))).

Definition act (a : action) : reconciliation (reply a) := λ s,
  let '(o, w) := env a (k_world s) in (o, KSt w (k_trace s ++ [a])).

(** [if err := f(); err != nil && !ignored(err) { return wrapped }] *)
Definition ignoring (ignored : goerror → bool) (m : reconciliation ()) : reconciliation () := λ s,
  match m s with
  | (Err e, s') => if ignored e then (Ret tt, s') else (Err e, s')
  | r => r
  end.

(** [controllerutil.CreateOrUpdate] with the object literal [init], which sets
    nothing but the key.  The result is the object as the API server has it. *)
Definition CreateOrUpdate (k : kind) (init : obj k) (f : obj k → result (obj k))
    : reconciliation (obj k) :=
  let key := key_of (meta k init) in
  let mutated (o : obj k) : reconciliation (obj k) :=
    o' ← lift (f o);
    _ ← guard_err (negb (bool_decide (key_of (meta k o') = key)))
          (Errorf "MutateFn cannot mutate object name and/or object namespace" []);
    mret o' in
  found ← attempt (act (AGet CachedReader k key));
  match found with
  | inr err =>
      if IsNotFound err then o ← mutated init; act (ACreate k o) else throw err
  | inl existing =>
      o ← mutated existing;
      if bool_decide (existing = o) then mret o else act (AUpdate k o)
  end.

(** [wait.Interrupted] of the error of the retried function. *)
Definition Interrupted (e : goerror) : bool :=
  match find_in_chain (λ e, match e with CtxCanceled | CtxDeadlineExceeded => Some () | _ => None end) e with
  | Some _ => true
  | None => false
  end.

(** [retry.OnError] when [steps + 1] attempts are left, none but conflicts
    being retried.  An error of the retried function that [wait.Interrupted]
    recognises is replaced by the error of the last conflict, if any: without
    a conflict before it, it is dropped, and the variables the function would
    have assigned keep their values ([kept]). *)
Fixpoint retry_loop {A} (kept : A) (steps : nat) (fn : reconciliation A) (lastErr : option goerror)
    : reconciliation A := λ s,
  match fn s with
  | (Err err, s') =>
      if IsConflict err then
        match steps with
        | O => (Err err, s')
        | S steps => (_ ← attempt (act ASleep); retry_loop kept steps fn (Some err)) s'
        end
      else if Interrupted err then
        match lastErr with Some e => (Err e, s') | None => (Ret kept, s') end
      else (Err err, s')
  | r => r
  end.

(** [retry.RetryOnConflict(retry.DefaultRetry, fn)]: five attempts. *)
Definition RetryOnConflict {A} (kept : A) (fn : reconciliation A) : reconciliation A :=
  retry_loop kept 4 fn None.
End calls.

(** * Lemmas *)

(** ** Runs *)

Section run_lemmas.
Context {W : Type} (env : ∀ a : action, M W goerror (reply a)).
Implicit Types (st : kst W).

Lemma wp_act a Q st :
  (∀ o w, env a (k_world st) = (o, w) → Q o (KSt w (k_trace st ++ [a]))) → wp (act env a) Q st.
Proof. unfold wp, act. intros H. destruct (env a (k_world st)) as [o w] eqn:E. by apply H. Qed.

Lemma wp_Now `{!HasClock W} Q st :
  (∀ t w, Q (Ret t) (KSt w (k_trace st))) → wp Now Q st.
Proof. unfold wp, Now. intros H. destruct (tick (k_world st)). apply H. Qed.

(** [st'] continues [st] by the calls [acts]. *)
Definition made (acts : list action) st st' : Prop := k_trace st' = k_trace st ++ acts.

Lemma made_nil st : made [] st st.
Proof. unfold made. by rewrite app_nil_r. Qed.
Lemma made_trans l1 l2 st1 st2 st3 : made l1 st1 st2 → made l2 st2 st3 → made (l1 ++ l2) st1 st3.
Proof. unfold made. intros H1 ->. by rewrite H1, app_assoc. Qed.

(** A run all of whose calls satisfy [P], whatever its outcome. *)
Definition only {A} (P : action → Prop) (m : reconciliation (W:=W) A) : Prop :=
  ∀ st, ∃ acts, made acts st (m st).2 ∧ Forall P acts.

Lemma only_mono {A} (P P' : action → Prop) (m : reconciliation (W:=W) A) :
  (∀ a, P a → P' a) → only P m → only P' m.
Proof. intros HP H st. destruct (H st) as (l & Hm & Hl). exists l. split; [done|]. by eapply Forall_impl. Qed.

Lemma only_ret {A} P (a : A) : only P (mret a : reconciliation (W:=W) A).
Proof. intros st. exists []. split; [apply made_nil|by constructor]. Qed.
Lemma only_throw {A} P e : only P (throw e : reconciliation (W:=W) A).
Proof. intros st. exists []. split; [apply made_nil|by constructor]. Qed.
Lemma only_lift {A} P (o : result A) : only P (lift o : reconciliation (W:=W) A).
Proof. intros st. exists []. split; [apply made_nil|by constructor]. Qed.
Lemma only_get P : only P (get : reconciliation (W:=W) _).
Proof. intros st. exists []. split; [apply made_nil|by constructor]. Qed.
Lemma only_Now `{!HasClock W} P : only P Now.
Proof.
  intros st. exists []. split; [|by constructor]. unfold made, Now.
  destruct (tick _). by rewrite app_nil_r.
Qed.
Lemma only_guard P b e : only P (guard_err b e : reconciliation (W:=W) ()).
Proof. apply only_lift. Qed.
Lemma only_act (P : action → Prop) a : P a → only P (act env a).
Proof.
  intros HP st. unfold act. destruct (env a (k_world st)) as [o w]. exists [a].
  split; [done|by repeat constructor].
Qed.
Ltac only_call :=
  lazymatch goal with |- only ?P (act _ ?a) => refine (only_act P a _) end.
Lemma only_bind {A B} P (m : reconciliation (W:=W) A) (f : A → reconciliation (W:=W) B) :
  only P m → (∀ a, only P (f a)) → only P (m ≫= f).
Proof.
  intros Hm Hf st. destruct (Hm st) as (l & Hl & HP). unfold mbind, M_bind.
  destruct (m st) as [[a|e|e] s1]; [|by exists l..].
  destruct (Hf a s1) as (l' & Hl' & HP'). exists (l ++ l'). split; [by eapply made_trans|].
  by apply Forall_app.
Qed.
(** The continuation may use that its argument is a result of [m]. *)
Lemma only_bind_run {A B} P (m : reconciliation (W:=W) A) (f : A → reconciliation (W:=W) B) :
  only P m → (∀ a s s', m s = (Ret a, s') → only P (f a)) → only P (m ≫= f).
Proof.
  intros Hm Hf st. destruct (Hm st) as (l & Hl & HP). unfold mbind, M_bind.
  destruct (m st) as [[a|e|e] s1] eqn:Hrun; [|by exists l..].
  destruct (Hf a st s1 Hrun s1) as (l' & Hl' & HP'). exists (l ++ l'). split; [by eapply made_trans|].
  by apply Forall_app.
Qed.
Lemma only_lift_bind {A B} P (o : result A) (f : A → reconciliation (W:=W) B) :
  (∀ a, o = Ret a → only P (f a)) → only P (lift o ≫= f).
Proof. intros H. apply only_bind_run; [apply only_lift|]. intros a s s' [Ho _]%lift_Ret. by apply H. Qed.
Lemma only_attempt {A} P (m : reconciliation (W:=W) A) : only P m → only P (attempt m).
Proof. intros H st. destruct (H st) as (l & Hl). exists l. unfold attempt. by destruct (m st) as [[]]. Qed.
Lemma only_map_err {A} P f (m : reconciliation (W:=W) A) : only P m → only P (map_err f m).
Proof. intros H st. destruct (H st) as (l & Hl). exists l. unfold map_err. by destruct (m st) as [[]]. Qed.
Lemma only_ignoring P i (m : reconciliation (W:=W) ()) : only P m → only P (ignoring i m).
Proof.
  intros H st. destruct (H st) as (l & Hl). exists l. unfold ignoring.
  destruct (m st) as [[]]; [done| |done]. by destruct (i _).
Qed.
Lemma only_mfor {A B} P (f : B → A → reconciliation (W:=W) B) b l :
  (∀ b a, a ∈ l → only P (f b a)) → only P (mfor f b l).
Proof.
  revert b. induction l as [|a l IH]; intros b H; cbn; [apply only_ret|].
  apply only_bind; [apply H; by left|]. intros b'. apply IH. intros b'' a' ?. apply H. by right.
Qed.

Lemma only_wp {A} P (m : reconciliation (W:=W) A) st :
  only P m → wp m (λ _ st', ∃ acts, made acts st st' ∧ Forall P acts) st.
Proof. intros H. apply H. Qed.

(** A run with at most [n] calls that satisfy [p]. *)
Definition at_most {A} (p : action → bool) (n : nat) (m : reconciliation (W:=W) A) : Prop :=
  ∀ st, ∃ acts, made acts st (m st).2 ∧ (length (List.filter p acts) ≤ n)%nat.

Lemma at_most_only {A} p (m : reconciliation (W:=W) A) : only (λ a, p a = false) m → at_most p 0 m.
Proof.
  intros H st. destruct (H st) as (l & Hm & Hl). exists l. split; [done|].
  clear Hm. induction Hl as [|a l Ha _ IH]; cbn; [done|]. by rewrite Ha.
Qed.
Lemma at_most_mono {A} p n n' (m : reconciliation (W:=W) A) : (n ≤ n')%nat → at_most p n m → at_most p n' m.
Proof. intros Hn H st. destruct (H st) as (l & Hm & Hl). exists l. split; [done|lia]. Qed.
Lemma at_most_act p a : at_most p 1 (act env a).
Proof.
  intros st. unfold act. destruct (env a (k_world st)). exists [a]. split; [done|]. cbn.
  by destruct (p a); cbn; lia.
Qed.
Lemma at_most_attempt {A} p n (m : reconciliation (W:=W) A) : at_most p n m → at_most p n (attempt m).
Proof. intros H st. destruct (H st) as (l & Hl). exists l. unfold attempt. by destruct (m st) as [[]]. Qed.
Lemma at_most_map_err {A} p f n (m : reconciliation (W:=W) A) : at_most p n m → at_most p n (map_err f m).
Proof. intros H st. destruct (H st) as (l & Hl). exists l. unfold map_err. by destruct (m st) as [[]]. Qed.
Lemma at_most_bind {A B} p n1 n2 (m : reconciliation (W:=W) A) (f : A → reconciliation (W:=W) B) :
  at_most p n1 m → (∀ a, at_most p n2 (f a)) → at_most p (n1 + n2) (m ≫= f).
Proof.
  intros Hm Hf st. destruct (Hm st) as (l & Hl & Hc). unfold mbind, M_bind.
  destruct (m st) as [[a|e|e] s1]; [|exists l; split; [done|lia]..].
  destruct (Hf a s1) as (l' & Hl' & Hc'). exists (l ++ l'). split; [by eapply made_trans|].
  rewrite List.filter_app, length_app. lia.
Qed.

(** What [CreateOrUpdate] writes is a mutation of the initial object, created,
    or of the one that was read, updated, under the same key. *)
Inductive written (k : kind) (init : obj k) (f : obj k → result (obj k)) : action → Prop :=
  | written_read : written k init f (AGet CachedReader k (key_of (meta k init)))
  | written_created o : f init = Ret o → key_of (meta k o) = key_of (meta k init) →
      written k init f (ACreate k o)
  | written_updated base o : f base = Ret o → key_of (meta k o) = key_of (meta k init) →
      written k init f (AUpdate k o).

Lemma CreateOrUpdate_only k init f : only (written k init f) (CreateOrUpdate env k init f).
Proof.
  unfold CreateOrUpdate. apply only_bind; [apply only_attempt; only_call; constructor|].
  assert (∀ base rest, (∀ o, f base = Ret o → key_of (meta k o) = key_of (meta k init) →
     only (written k init f) (rest o : reconciliation (W:=W) (obj k))) →
     only (written k init f)
       ((o' ← lift (f base);
         _ ← guard_err (negb (bool_decide (key_of (meta k o') = key_of (meta k init))))
               (Errorf "MutateFn cannot mutate object name and/or object namespace" []);
         mret o') ≫= rest)) as Hmut.
  { intros base rest Hrest st. unfold mbind, M_bind, lift, guard_err, fail_if.
    destruct (f base) as [o|e|e] eqn:Hf; [|by exists []; split; [apply made_nil|constructor]..].
    case_bool_decide as Hk; cbn; [|by exists []; split; [apply made_nil|constructor]].
    exact (Hrest o eq_refl Hk st). }
  intros [existing|err].
  - apply Hmut. intros o Hf Hk. case_bool_decide; [apply only_ret|]. only_call. by econstructor.
  - destruct (IsNotFound err); [|apply only_throw]. apply Hmut. intros o Hf Hk. only_call. by constructor.
Qed.

(** Inversion of steps that returned a value. *)
Lemma act_Ret a st r st' :
  act env a st = (Ret r, st') ↔
  ∃ w, env a (k_world st) = (Ret r, w) ∧ st' = KSt w (k_trace st ++ [a]).
Proof. unfold act. destruct (env a (k_world st)) as [[]]; naive_solver. Qed.
Ltac inv_act H :=
  lazymatch type of H with
  | act _ ?a ?st = (Ret ?r, ?st') =>
      let H' := fresh in pose proof (proj1 (act_Ret a st r st') H) as H'; clear H;
      let w := fresh "w" in destruct H' as (w & H & ->)
  end.
Lemma attempt_inl {A} (m : reconciliation (W:=W) A) st a st' :
  attempt m st = (Ret (inl a), st') → m st = (Ret a, st').
Proof. unfold attempt. destruct (m st) as [[]]; naive_solver. Qed.
Lemma attempt_inr {A} (m : reconciliation (W:=W) A) st e st' :
  attempt m st = (Ret (inr e), st') → m st = (Err e, st').
Proof. unfold attempt. destruct (m st) as [[]]; naive_solver. Qed.

(** The object [CreateOrUpdate] returns: the mutation of an object, which the
    API server has accepted, or which it already had. *)
Definition stored (k : kind) (init : obj k) (f : obj k → result (obj k)) (final : obj k) : Prop :=
  ∃ base o, f base = Ret o ∧ key_of (meta k o) = key_of (meta k init) ∧
    ((∃ w w', env (AGet CachedReader k (key_of (meta k init))) w = (Ret base, w')) ∧
       (base = o ∧ final = o ∨ ∃ w w', env (AUpdate k o) w = (Ret final, w')) ∨
     base = init ∧ ∃ w w', env (ACreate k o) w = (Ret final, w')).

Lemma CreateOrUpdate_Ret k init f st final st' :
  CreateOrUpdate env k init f st = (Ret final, st') → stored k init f final.
Proof.
  unfold CreateOrUpdate. intros ([existing|err] & s1 & Hget & H)%M_bind_Ret.
  - apply attempt_inl in Hget. inv_act Hget.
    inv_run H. bool_simpl. eexists existing, _. split_and!; [done|done|left]. split; [by eexists _, _|].
    case_bool_decide; [inv_run H; by left|].
    inv_act H. right. by eexists _, _.
  - destruct (IsNotFound err); [|discriminate H]. inv_run H.
    bool_simpl. inv_act H. eexists init, _. split_and!; [done|done|right]. split; [done|]. by eexists _, _.
Qed.

(** The API server has the object as asked: it answered with it, or accepted it
    in a create or an update call. *)
Definition held (k : kind) (o : obj k) : Prop :=
  (∃ w w', env (AGet CachedReader k (key_of (meta k o))) w = (Ret o, w')) ∨
  ∃ final w w', env (AUpdate k o) w = (Ret final, w') ∨ env (ACreate k o) w = (Ret final, w').

Lemma stored_held k init f final :
  stored k init f final → ∃ base o, f base = Ret o ∧ key_of (meta k o) = key_of (meta k init) ∧ held k o.
Proof.
  intros (base & o & Hf & Hk & [[Hget [[-> ->]|(w & w' & Hup)]]|(-> & w & w' & Hc)]);
    eexists _, _; (split_and!; [eassumption|eassumption|]).
  - left. by rewrite Hk.
  - right. eexists _, _, _. by left.
  - right. eexists _, _, _. by right.
Qed.

(** Where the API server already has a fixed point of the mutation, nothing is
    written. *)
Lemma CreateOrUpdate_steady k init f st w existing :
  env (AGet CachedReader k (key_of (meta k init))) (k_world st) = (Ret existing, w) →
  f existing = Ret existing → key_of (meta k existing) = key_of (meta k init) →
  CreateOrUpdate env k init f st
    = (Ret existing, KSt w (k_trace st ++ [AGet CachedReader k (key_of (meta k init))])).
Proof.
  intros Hget Hf Hk. unfold CreateOrUpdate, attempt, mbind, M_bind, act, lift, guard_err, fail_if.
  cbn [k_world]. rewrite Hget, Hf. rewrite (bool_decide_true _ Hk). cbn.
  by rewrite bool_decide_true.
Qed.

(** A retried function, by an invariant that may depend on the number of
    attempts left.  The loop ends with the outcome of the last attempt, except
    that an interruption without an earlier conflict counts as success. *)
Lemma wp_retry {A} (kept : A) steps fn last (I : nat → kst W → Prop) Q st :
  I steps st →
  (∀ n s, I n s → n ≤ steps → wp fn (λ o s', match o with
     | Err e =>
         if IsConflict e then
           Q (Err e) s' ∧
           ∀ n' o w, n = S n' → env ASleep (k_world s') = (o, w) →
             let s'' := KSt w (k_trace s' ++ [ASleep]) in
             match o with Panic p => Q (Panic p) s'' | _ => I n' s'' end
         else Q (Err e) s' ∧ (Interrupted e = true → Q (Ret kept) s' ∧ ∀ e', IsConflict e' = true → Q (Err e') s')
     | o => Q o s'
     end) s)%nat →
  (∀ e, last = Some e → IsConflict e = true) →
  wp (retry_loop env kept steps fn last) Q st.
Proof.
  intros HI Hfn. revert last st HI. induction steps as [|steps IH]; intros last st HI Hlast.
  - specialize (Hfn _ st HI (Nat.le_refl _)). unfold wp in *. cbn.
    destruct (fn st) as [[u|e|p] s']; cbn in *; [done| |done].
    revert Hfn. destruct (IsConflict e) eqn:Hc; cbn; [by intros []|].
    intros [He Hi]. destruct (Interrupted e); cbn; [|done]. destruct Hi as [HR HE]; [done|]. destruct last; cbn; [by apply HE, Hlast|done].
  - pose proof (Hfn _ st HI (Nat.le_refl _)) as Hone. unfold wp in Hone |- *. cbn [retry_loop].
    destruct (fn st) as [[u|e|p] s']; cbn in Hone |- *; [done| |done].
    revert Hone. destruct (IsConflict e) eqn:Hc; intros Hone.
    + change (wp (attempt (act env ASleep) ≫= λ _, retry_loop env kept steps fn (Some e)) Q s').
      apply wp_bind, wp_attempt. refine (wp_act ASleep _ _ _). intros o w Hw.
      pose proof (proj2 Hone _ _ _ eq_refl Hw) as Hs. cbn in Hs.
      destruct o as [a|e'|p]; unfold wp_cont; [| |exact Hs];
        (apply IH; [intros n s HIn Hn; apply Hfn; [done|lia]|exact Hs|by intros ? [= <-]]).
    + destruct Hone as [He Hi]. destruct (Interrupted e); cbn; [|done].
      destruct Hi as [HR HE]; [done|]. destruct last; cbn; [by apply HE, Hlast|done].
Qed.
(** The delete call of an object that was made and has taken effect: the API
    server has deleted the object, or had no such object. *)
Definition removed (k : kind) (o : obj k) (acts : list action) : Prop :=
  ADelete k o ∈ acts ∧ ∃ w w', env (ADelete k o) w = (Ret tt, w') ∨
    ∃ e, env (ADelete k o) w = (Err e, w') ∧ IsNotFound e = true.

Lemma removed_app k o l l' : removed k o l ∨ removed k o l' → removed k o (l ++ l').
Proof. intros [[H ?]|[H ?]]; (split; [set_solver|done]). Qed.

Lemma delete_Ret k o st u st' :
  ignoring IsNotFound (act env (ADelete k o)) st = (Ret u, st') →
  made [ADelete k o] st st' ∧ removed k o [ADelete k o].
Proof.
  unfold ignoring, act. destruct (env (ADelete k o) (k_world st)) as [[v|e|e] w] eqn:E; cbn.
  - intros [= _ <-]. split; [done|]. split; [by left|]. destruct v. eexists _, _. by left.
  - destruct (IsNotFound e) eqn:He; [|discriminate]. intros [= _ <-]. split; [done|].
    split; [by left|]. eexists _, _. right. by exists e.
  - discriminate.
Qed.

(** What every round of a loop has brought about by its calls. *)
Lemma mfor_each {A} (f : () → A → reconciliation (W:=W) ()) (R : A → list action → Prop) l st u st' :
  (∀ a acts acts', R a acts ∨ R a acts' → R a (acts ++ acts')) →
  (∀ a s1 v s2, a ∈ l → f tt a s1 = (Ret v, s2) → ∃ acts, made acts s1 s2 ∧ R a acts) →
  mfor f tt l st = (Ret u, st') → ∃ acts, made acts st st' ∧ ∀ a, a ∈ l → R a acts.
Proof.
  intros Hmono. revert st. induction l as [|a l IH]; intros st Hone; cbn.
  - intros [_ <-]%mret_Ret. exists []. split; [apply made_nil|]. by intros ? ?%elem_of_nil.
  - intros ([] & s1 & Ha & Hrest)%M_bind_Ret.
    destruct (Hone a st tt s1) as (l1 & Hm1 & HR); [by left|done|].
    destruct (IH s1) as (l2 & Hm2 & Hall); [|done|].
    { intros a' t1 v t2 Hin. apply Hone. by right. }
    exists (l1 ++ l2). split; [by eapply made_trans|].
    intros a' [->|Hin]%elem_of_cons; apply Hmono; [by left|right; by apply Hall].
Qed.
End run_lemmas.

Ltac only_call :=
  lazymatch goal with |- only ?P (act ?env ?a) => refine (only_act env P a _) end.

Create HintDb calls.
#[export] Hint Resolve only_ret only_throw only_lift only_get only_guard only_Now : calls.

(** Inverts a run of one call that returned a value. *)
Ltac inv_act H :=
  lazymatch type of H with
  | act ?env ?a ?st = (Ret ?r, ?st') =>
      let H' := fresh in pose proof (proj1 (act_Ret env a st r st') H) as H'; clear H;
      let w := fresh "w" in destruct H' as (w & H & ->)
  end.

(** Splits a run on the result of an [attempt] it inspects next. *)
Ltac case_attempt H v e :=
  lazymatch type of H with
  | match ?x with inl _ => _ | inr _ => _ end _ = _ => destruct x as [v|e]
  end.

(** Bounds the calls of a reconciliation step by step; what is not built from
    the steps below is left to the hint database. *)
Ltac only_step :=
  cbv beta zeta;
  lazymatch goal with
  | |- only _ (mret _) => apply only_ret
  | |- only _ (throw _) => apply only_throw
  | |- only _ (lift _) => apply only_lift
  | |- only _ (guard_err _ _) => apply only_guard
  | |- only _ Now => apply only_Now
  | |- only _ (mbind _ _) => apply only_bind; [|intros ?]
  | |- only _ (attempt _) => apply only_attempt
  | |- only _ (map_err _ _) => apply only_map_err
  | |- only _ (ignoring _ _) => apply only_ignoring
  | |- only _ (act _ _) => only_call
  | |- only _ (match ?x with _ => _ end) => destruct x eqn:?
  end.
Ltac solve_only := repeat only_step; eauto with calls.

End Kube.
Export Kube.
