(* ===== verification/ControlPlaneNames.v ===== *)
(** * ControlPlaneNames: names, labels and addresses derived from a control plane

    The pure helpers of internal/controller/codercontrolplane_controller.go
    that name the objects of a CoderControlPlane (service account, workspace
    roles, operator token, secret volumes) and compute its service address. *)

From S2P Require Import Prelude GoStd GoStdFacts StringFacts GoErrors ApiTypes Examples.

#[local] Open Scope string_scope.
#[local] Open Scope list_scope.

Module ControlPlaneNames.

(** ** Constants *)

Definition defaultControlPlanePort : Z := 80.
Definition controlPlaneTargetPort : Z := 8080.
Definition controlPlaneTLSTargetPort : Z := 8443.

Definition defaultOperatorAccessUsername := "coder-k8s-operator".
Definition defaultOperatorAccessEmail := "coder-k8s-operator@coder-k8s.invalid".
Definition defaultOperatorAccessTokenName := "coder-k8s-operator".
Definition second : Z := 1000000000.
Definition defaultOperatorAccessTokenLifetime : Z := 365 * 24 * 3600 * second.
Definition operatorAccessRetryInterval : Z := 30 * second.
Definition operatorTokenSecretSuffix := "-operator-token".
Definition workspaceRBACFinalizer := "coder.com/workspace-rbac-cleanup".
Definition workspaceRBACOwnerUIDAnnotation := "coder.com/workspace-rbac-owner-uid".
Definition workspaceRoleNameSuffix := "-workspace-perms".
Definition kubernetesObjectNameMaxLength : Z := 253.
Definition workspaceRBACDriftRequeueInterval : Z := 120 * second.
Definition gatewayExposureRequeueInterval : Z := 120 * second.
Definition entitlementsStatusRefreshInterval : Z := 120 * second.
Definition postgresConnectionURLEnvVar := "CODER_PG_CONNECTION_URL".

(** [GroupVersion.String()] and the kind of the owner of every object. *)
Definition controlPlaneAPIVersion := "coder.com/v1alpha1".
Definition controlPlaneKind := "CoderControlPlane".

(** ** Names *)

(** [strings.TrimSpace(s) == ""] *)
Definition blank (s : string) : bool := String.eqb (trim_space s) "".

Definition resolveServiceAccountName (cp : CoderControlPlane) : string :=
  let name := sa_Name (ServiceAccount (cp_Spec cp)) in
  if negb (String.eqb name "") then name else Name (cp_meta cp).

Definition nul : string := bytes [0%N].
Definition hash32 (s : string) : string := hex_fixed 8 (fnv32a_write fnv32a_init s).
Definition hash64 (s : string) : string := hex_fixed 16 (fnv64a_write fnv64a_init s).

Definition workspaceRBACScopeHash (cp : option CoderControlPlane) : result string :=
  match cp with
  | None => Err (Errorf "assertion failed: coder control plane must not be nil" [])
  | Some cp =>
      let m := cp_meta cp in
      _ ← fail_if (blank (Namespace m))
            (Errorf "assertion failed: coder control plane namespace must not be empty" []);
      _ ← fail_if (blank (Name m))
            (Errorf "assertion failed: coder control plane name must not be empty" []);
      mret (hash32 (Namespace m +:+ nul +:+ Name m))
  end.

Definition scopedWorkspaceRBACName (baseName scopeHash suffix : string) : result string :=
  let normalizedBaseName := trim_space baseName in
  _ ← fail_if (String.eqb normalizedBaseName "")
        (Errorf "assertion failed: workspace RBAC base name must not be empty" []);
  _ ← fail_if (blank scopeHash)
        (Errorf "assertion failed: workspace RBAC scope hash must not be empty" []);
  let candidate := normalizedBaseName +:+ "-" +:+ scopeHash +:+ suffix in
  if (slen candidate <=? kubernetesObjectNameMaxLength)%Z then mret candidate
  else
    let available := (kubernetesObjectNameMaxLength - slen scopeHash - slen suffix - 1)%Z in
    _ ← fail_if (available <? 1)%Z
          (Errorf "assertion failed: workspace RBAC name prefix capacity must be positive" []);
    let truncatedPrefix :=
      if (available <? slen normalizedBaseName)%Z
      then stake (Z.to_nat available) normalizedBaseName else normalizedBaseName in
    let truncatedPrefix := trim_set ["-"; "."]%char truncatedPrefix in
    let truncatedPrefix := if String.eqb truncatedPrefix "" then "workspace" else truncatedPrefix in
    let result := truncatedPrefix +:+ "-" +:+ scopeHash +:+ suffix in
    _ ← fail_if (kubernetesObjectNameMaxLength <? slen result)%Z
          (Errorf "assertion failed: workspace RBAC name %q exceeds %d characters"
             [FStr result; FInt kubernetesObjectNameMaxLength]);
    mret result.

Definition workspaceRoleName (cp : option CoderControlPlane) (serviceAccountName : string)
    : result string :=
  scopeHash ← workspaceRBACScopeHash cp;
  scopedWorkspaceRBACName serviceAccountName scopeHash workspaceRoleNameSuffix.

Definition workspaceRoleBindingName (cp : option CoderControlPlane) (serviceAccountName : string)
    : result string :=
  scopeHash ← workspaceRBACScopeHash cp;
  scopedWorkspaceRBACName serviceAccountName scopeHash "".

Definition operatorAccessDatabaseTokenName (cp : option CoderControlPlane) : string :=
  match cp with
  | None => ""
  | Some cp =>
      let m := cp_meta cp in
      defaultOperatorAccessTokenName +:+ "-" +:+ hash64 (Namespace m +:+ nul +:+ Name m)
  end.

Definition operatorAccessTokenSecretName (cp : option CoderControlPlane) : string :=
  match cp with
  | None => ""
  | Some cp =>
      let configuredSecretName := trim_space (oa_GeneratedTokenSecretName (OperatorAccess (cp_Spec cp))) in
      if negb (String.eqb configuredSecretName "") then configuredSecretName
      else
        let name := Name (cp_meta cp) in
        let candidate := name +:+ operatorTokenSecretSuffix in
        if (slen candidate <=? 63)%Z then candidate
        else
          let hashSuffix := hash32 name in
          let available := (63 - slen operatorTokenSecretSuffix - slen hashSuffix - 1)%Z in
          let available := if (available <? 1)%Z then 1%Z else available in
          stake (Z.to_nat available) name +:+ "-" +:+ hashSuffix +:+ operatorTokenSecretSuffix
  end.

(** ** Volume names *)

Definition lower_alnum (a : ascii) : bool :=
  let v := N_of_ascii a in
  ((97 <=? v) && (v <=? 122) || (48 <=? v) && (v <=? 57))%N.

(** The loop of [sanitizeDNSLabel]: every run of other bytes becomes one dash. *)
Fixpoint sanitize_bytes (lastWasDash : bool) (value : string) : string :=
  match value with
  | EmptyString => ""
  | String char value =>
      if lower_alnum char then String char (sanitize_bytes false value)
      else if lastWasDash then sanitize_bytes true value
      else String "-" (sanitize_bytes true value)
  end.

Definition sanitizeDNSLabel (value : string) : string :=
  let value := trim_space (to_lower value) in
  if String.eqb value "" then "x"
  else
    let sanitized := trim_set ["-"%char] (sanitize_bytes false value) in
    if String.eqb sanitized "" then "x" else sanitized.

Definition volumeNameForSecret (prefix secretName : string) : string :=
  let normalizedSecretName := trim_space (to_lower secretName) in
  let sanitizedSecretName := sanitizeDNSLabel normalizedSecretName in
  let candidate := prefix +:+ "-" +:+ sanitizedSecretName in
  if (slen candidate <=? 63)%Z && String.eqb sanitizedSecretName normalizedSecretName then candidate
  else
    let hashSuffix := hash32 (prefix +:+ nul +:+ secretName) in
    let available := (63 - slen prefix - slen hashSuffix - 2)%Z in
    let available := if (available <? 1)%Z then 1%Z else available in
    let sanitizedSecretName :=
      if (available <? slen sanitizedSecretName)%Z then
        let cut := trim_set ["-"%char] (stake (Z.to_nat available) sanitizedSecretName) in
        if String.eqb cut "" then "x" else cut
      else sanitizedSecretName in
    prefix +:+ "-" +:+ sanitizedSecretName +:+ "-" +:+ hashSuffix.

(** ** Switches *)

Definition boolOrDefault (explicit : option bool) (defaultValue : bool) : bool :=
  match explicit with None => defaultValue | Some b => b end.
Definition workspacePermsEnabled (explicit : option bool) : bool := boolOrDefault explicit true.
Definition workspaceDeploymentsEnabled (explicit : option bool) : bool := boolOrDefault explicit true.

Definition controlPlaneTLSEnabled (cp : option CoderControlPlane) : bool :=
  match cp with
  | None => false
  | Some cp => (0 <? length (tls_SecretNames (TLS (cp_Spec cp))))%nat
  end.

(** ** Addresses *)

(** [Spec.Service.Port], by default [defaultControlPlanePort]. *)
Definition servicePort (cp : CoderControlPlane) : Z :=
  let port := svc_Port (Service (cp_Spec cp)) in
  if Z.eqb port 0 then defaultControlPlanePort else port.

Definition httpRouteBackendServicePort (cp : option CoderControlPlane) : result Z :=
  match cp with
  | None => Err (Errorf "assertion failed: coder control plane must not be nil" [])
  | Some cp' =>
      if controlPlaneTLSEnabled cp && Z.eqb (servicePort cp') 443 then mret defaultControlPlanePort
      else mret (servicePort cp')
  end.

Definition controlPlaneSDKURL (cp : option CoderControlPlane) : string :=
  match cp with
  | None => ""
  | Some cp' =>
      match httpRouteBackendServicePort cp with
      | Ret port =>
          "http://" +:+ Name (cp_meta cp') +:+ "." +:+ Namespace (cp_meta cp')
            +:+ ".svc.cluster.local:" +:+ format_int port
      | _ => ""
      end
  end.

Definition requiresWorkspaceRBACDriftRequeue (cp : option CoderControlPlane) : bool :=
  match cp with
  | None => false
  | Some cp =>
      let rbac := RBAC (cp_Spec cp) in
      if negb (workspacePermsEnabled (WorkspacePerms rbac)) then false
      else existsb (λ namespace,
             let namespace := trim_space namespace in
             negb (String.eqb namespace "" || String.eqb namespace (Namespace (cp_meta cp))))
             (WorkspaceNamespaces rbac)
  end.

Definition controlPlaneLabels (name : string) : gmap string string :=
  {["app.kubernetes.io/name" := "coder-control-plane";
    "app.kubernetes.io/instance" := name;
    "app.kubernetes.io/managed-by" := "coder-k8s"]}.

Definition namespacedResourceKey (namespace name : string) : string := namespace +:+ "/" +:+ name.

(** * Properties *)

(** ** DNS labels *)

Definition label_byte (a : ascii) : bool := lower_alnum a || Ascii.eqb a "-".

(** Lower-case alphanumerics and dashes, an alphanumeric at both ends. *)
Definition label_text (s : string) : bool :=
  all_bytes label_byte s && first_is lower_alnum s && last_is lower_alnum s.

(** RFC 1123 labels: at most 63 of them. *)
Definition dns_label (s : string) : bool := label_text s && (slen s <=? 63)%Z.

Lemma hex_digit_alnum d : (0 ≤ d < 16)%Z → lower_alnum (hex_digit d) = true.
Proof.
  intros H. assert (Forall (λ d, lower_alnum (hex_digit d) = true) (seqZ 0 16)) as Hall.
  { by repeat (constructor; [reflexivity|]). }
  rewrite Forall_forall in Hall. apply Hall, elem_of_seqZ. lia.
Qed.

Lemma hex_fixed_alnum w z : all_bytes lower_alnum (hex_fixed w z) = true.
Proof.
  revert z. induction w as [|w IH]; intros z; cbn [hex_fixed]; [done|].
  rewrite all_bytes_app, IH. cbn. rewrite hex_digit_alnum; [done|]. apply Z.mod_pos_bound. lia.
Qed.

Lemma label_text_app_dash x y :
  label_text x = true → label_text y = true → label_text (x +:+ "-" +:+ y) = true.
Proof.
  unfold label_text. rewrite !andb_true_iff. intros [[Hx Fx] Lx] [[Hy Fy] Ly].
  assert (x ≠ "") by (by intros ->). assert (y ≠ "") by (by intros ->).
  rewrite all_bytes_app, first_is_app, !last_is_app, Hx by (done || by destruct y).
  cbn. by rewrite Hy.
Qed.

Lemma hash_label s : label_text (hash32 s) = true.
Proof.
  unfold label_text, hash32. set (z := fnv32a_write _ _). pose proof (hex_fixed_alnum 8 z) as H.
  assert (hex_fixed 8 z ≠ "") as Hne.
  { intros Heq. pose proof (length_hex_fixed 8 z) as Hl. by rewrite Heq in Hl. }
  rewrite (last_is_all _ _ Hne H), (all_bytes_impl lower_alnum) by (done || by unfold label_byte; intros ? ->).
  destruct (hex_fixed 8 z); [done|]. cbn in *. by destruct (lower_alnum a).
Qed.

(** A trimmed non-empty string of label bytes is a label text. *)
Lemma outside_dash s :
  all_bytes label_byte s = true → first_is (outside ["-"%char]) s = true →
  last_is (outside ["-"%char]) s = true → label_text s = true.
Proof.
  assert (∀ a, label_byte a = true → outside ["-"%char] a = true → lower_alnum a = true) as Hin.
  { intros a. unfold label_byte, outside. cbn. rewrite orb_false_r, negb_true_iff.
    intros [?|H]%orb_true_iff; [done|]. by rewrite H. }
  intros Ha Hf Hl. unfold label_text. rewrite !andb_true_iff. split_and!; [done|..].
  - destruct s as [|a s]; [done|]. cbn in *. apply andb_true_iff in Ha as []. by apply Hin.
  - clear Hf. induction s as [|a [|b s] IH]; [done|..].
    + cbn in *. apply andb_true_iff in Ha as []. by apply Hin.
    + cbn [all_bytes last_is] in *. apply andb_true_iff in Ha as [_ Ha]. by apply IH.
Qed.

Lemma trim_dash_label s :
  all_bytes label_byte s = true →
  trim_set ["-"%char] s = "" ∨ label_text (trim_set ["-"%char] s) = true.
Proof.
  intros H. destruct (trim_set_spec ["-"%char] _ _ H) as (Ha & _ & [?|[Hf Hl]]); [by left|right].
  by apply outside_dash.
Qed.

Lemma sanitize_bytes_label b s : all_bytes label_byte (sanitize_bytes b s) = true.
Proof.
  revert b. induction s as [|a s IH]; intros b; cbn; [done|].
  destruct (lower_alnum a) eqn:Ha; cbn.
  - unfold label_byte. by rewrite Ha, IH.
  - destruct b; cbn; [apply IH|]. by rewrite IH.
Qed.

Lemma sanitizeDNSLabel_label s : label_text (sanitizeDNSLabel s) = true.
Proof.
  unfold sanitizeDNSLabel. destruct (String.eqb _ ""); [done|].
  destruct (trim_dash_label (sanitize_bytes false (trim_space (to_lower s)))) as [->|H];
    [apply sanitize_bytes_label|done|].
  destruct (String.eqb _ ""); [done|exact H].
Qed.

Lemma slen_hash32 s : slen (hash32 s) = 8%Z.
Proof. apply slen_hex_fixed. Qed.

#[local] Opaque hash32.

(** The name of a secret's volume is a valid volume name (a DNS label), for
    every secret name and every prefix that leaves room for the hash. *)
Lemma volumeNameForSecret_label prefix secretName :
  label_text prefix = true → (slen prefix ≤ 52)%Z →
  dns_label (volumeNameForSecret prefix secretName) = true.
Proof.
  intros Hp Hlen. unfold volumeNameForSecret. cbv zeta.
  set (n := trim_space (to_lower secretName)). pose proof (sanitizeDNSLabel_label n) as Hs.
  set (san := sanitizeDNSLabel n) in *. clearbody san n.
  destruct ((_ <=? 63)%Z && _) eqn:Hc.
  - apply andb_true_iff in Hc as [Hc _]. unfold dns_label. by rewrite label_text_app_dash, Hc.
  - rewrite slen_hash32.
    destruct (_ <? 1)%Z eqn:Hav; [lia|]. clear Hav Hc. set (av := (63 - slen prefix - 8 - 2)%Z).
    assert (∀ m, label_text m = true → (slen m ≤ av)%Z →
      dns_label (prefix +:+ "-" +:+ m +:+ "-" +:+ hash32 (prefix +:+ nul +:+ secretName)) = true) as Hend.
    { intros m Hm Hml. unfold dns_label.
      rewrite !label_text_app_dash by (done || apply hash_label || by apply label_text_app_dash, hash_label).
      rewrite andb_true_l, !slen_append, slen_hash32. change (slen "-") with 1%Z. lia. }
    destruct (Z.ltb_spec av (slen san)) as [Hlt|Hge]; [|by apply Hend].
    pose proof Hs as [[Hab _]%andb_true_iff _]%andb_true_iff.
    destruct (trim_dash_label (stake (Z.to_nat av) san)) as [->|H]; [by apply all_bytes_stake|..].
    + apply Hend; [done|]. change (1 ≤ av)%Z. unfold av. lia.
    + destruct (String.eqb_spec (trim_set ["-"%char] (stake (Z.to_nat av) san)) "") as [He|Hne];
        [apply Hend; [done|change (1 ≤ av)%Z; unfold av; lia]|]. apply Hend; [done|].
      pose proof (slen_trim_set ["-"%char] (stake (Z.to_nat av) san)) as Ht.
      rewrite slen_stake in Ht. unfold av in *. lia.
Qed.

Lemma label_blank s : label_text s = true → blank s = false.
Proof.
  assert (∀ a, lower_alnum a = true → graphic a = true) as Hin.
  { intros a. unfold lower_alnum, graphic. rewrite orb_true_iff, !andb_true_iff, !N.leb_le. lia. }
  intros [[_ Hf]%andb_true_iff Hl]%andb_true_iff. unfold blank. rewrite trim_space_id.
  - by destruct s.
  - destruct s; [done|]. by apply Hin.
  - clear Hf. induction s as [|a [|b s] IH]; [done|by apply Hin|]. by apply IH.
Qed.

(** ** Names of workspace roles *)

(** A scoped name always exists for a base name that is not blank: it has at
    most 253 bytes and ends in the hash of its scope and the suffix. *)
Lemma scopedWorkspaceRBACName_total base scope suffix :
  blank base = false → (slen suffix ≤ 16)%Z →
  ∃ prefix, scopedWorkspaceRBACName base (hash32 scope) suffix
              = Ret (prefix +:+ "-" +:+ hash32 scope +:+ suffix) ∧ prefix ≠ "" ∧
    (slen (prefix +:+ "-" +:+ hash32 scope +:+ suffix) ≤ kubernetesObjectNameMaxLength)%Z.
Proof.
  intros Hb Hs. unfold scopedWorkspaceRBACName. unfold blank in Hb. rewrite Hb.
  rewrite (label_blank _ (hash_label scope)). unfold fail_if at 1 2. cbn [mbind outcome_mbind outcome_bind].
  apply String.eqb_neq in Hb. set (n := trim_space base) in *. clearbody n.
  destruct (Z.leb_spec (slen (n +:+ "-" +:+ hash32 scope +:+ suffix)) kubernetesObjectNameMaxLength).
  { by exists n. }
  rewrite slen_hash32. change kubernetesObjectNameMaxLength with 253%Z in *.
  destruct (Z.ltb_spec (253 - 8 - slen suffix - 1) 1) as [|_]; [lia|]. cbn [fail_if].
  unfold fail_if at 1. cbn [mbind outcome_mbind outcome_bind].
  set (cutp := if (_ <? _)%Z then _ else _). set (t := trim_set _ cutp).
  set (p := if String.eqb t "" then "workspace" else t).
  assert (p ≠ "" ∧ (slen p ≤ 253 - 8 - slen suffix - 1)%Z) as [Hne Hp].
  { subst p. destruct (String.eqb_spec t "") as [|Ht]; [split; [done|change (slen "workspace") with 9%Z; lia]|].
    split; [done|]. pose proof (slen_trim_set ["-"; "."]%char cutp) as Hle. fold t in Hle.
    assert (slen cutp ≤ 253 - 8 - slen suffix - 1)%Z; [|lia].
    subst cutp. destruct (Z.ltb_spec (253 - 8 - slen suffix - 1) (slen n)); [rewrite slen_stake|]; lia. }
  clearbody p. assert (slen (p +:+ "-" +:+ hash32 scope +:+ suffix) ≤ 253)%Z as Hlen.
  { rewrite !slen_append, slen_hash32. change (slen "-") with 1%Z. lia. }
  exists p. split_and!; [|done|done]. unfold fail_if.
  destruct (Z.ltb_spec 253 (slen (p +:+ "-" +:+ hash32 scope +:+ suffix))); [lia|done].
Qed.

Lemma scoped_name_scope base base' scope scope' suffix r :
  scopedWorkspaceRBACName base (hash32 scope) suffix = Ret r →
  scopedWorkspaceRBACName base' (hash32 scope') suffix = Ret r →
  blank base = false → blank base' = false → (slen suffix ≤ 16)%Z → hash32 scope = hash32 scope'.
Proof.
  intros H H' Hb Hb' Hs.
  destruct (scopedWorkspaceRBACName_total base scope suffix Hb Hs) as (p & Hp & _ & _).
  destruct (scopedWorkspaceRBACName_total base' scope' suffix Hb' Hs) as (p' & Hp' & _ & _).
  rewrite H in Hp. rewrite H' in Hp'. apply Ret_inj in Hp, Hp'. rewrite Hp in Hp'.
  assert (∀ q x, q +:+ "-" +:+ hash32 x +:+ suffix = (q +:+ "-") +:+ hash32 x +:+ suffix) as Ha.
  { intros q x. induction q as [|a q IH]; [done|]. cbn. by rewrite <-IH. }
  rewrite !Ha in Hp'. apply append_inj_same_length in Hp' as [_ Hp'].
  2: { rewrite !length_append. pose proof (slen_hash32 scope) as H1.
       pose proof (slen_hash32 scope') as H2. unfold slen in H1, H2. lia. }
  apply append_inj_same_length in Hp' as [? _]; [done|done].
Qed.

Lemma scopedWorkspaceRBACName_blank base scope suffix r :
  scopedWorkspaceRBACName base scope suffix = Ret r → blank base = false.
Proof. unfold scopedWorkspaceRBACName. intros H. by inv_outcome H. Qed.

Lemma scope_hash_Ret cp h :
  workspaceRBACScopeHash (Some cp) = Ret h → ∃ scope, h = hash32 scope.
Proof. unfold workspaceRBACScopeHash. intros H. inv_outcome H. by eexists. Qed.

(** the workspace role and role binding of a control plane always get a
    name that Kubernetes accepts in length (at most 253 bytes), whatever the
    length of the service account's name, and the name identifies the scope:
    two control planes use the same role name, or the same role binding name,
    only if the hashes of their namespace and name agree. *)
Theorem workspace_rbac_names (cp : CoderControlPlane) (serviceAccountName : string)
    (Hns : blank (Namespace (cp_meta cp)) = false) (Hname : blank (Name (cp_meta cp)) = false)
    (Hsa : blank serviceAccountName = false) :
  ∃ role binding,
    workspaceRoleName (Some cp) serviceAccountName = Ret role ∧
    workspaceRoleBindingName (Some cp) serviceAccountName = Ret binding ∧
    (0 < slen role ≤ 253)%Z ∧ (0 < slen binding ≤ 253)%Z ∧
    ∀ cp' sa',
      workspaceRoleName (Some cp') sa' = Ret role ∨ workspaceRoleBindingName (Some cp') sa' = Ret binding →
      workspaceRBACScopeHash (Some cp') = workspaceRBACScopeHash (Some cp).
Proof.
  set (h := Namespace (cp_meta cp) +:+ nul +:+ Name (cp_meta cp)).
  assert (workspaceRBACScopeHash (Some cp) = Ret (hash32 h)) as Hh.
  { unfold workspaceRBACScopeHash. by rewrite Hns, Hname. }
  unfold workspaceRoleName, workspaceRoleBindingName. rewrite Hh. cbn [mbind outcome_mbind outcome_bind].
  destruct (scopedWorkspaceRBACName_total serviceAccountName h workspaceRoleNameSuffix Hsa)
    as (p & Hp & _ & Hl); [done|].
  destruct (scopedWorkspaceRBACName_total serviceAccountName h "" Hsa) as (q & Hq & _ & Hlq); [done|].
  eexists _, _. split_and!; [exact Hp|exact Hq|..].
  1,3: rewrite !slen_append, slen_hash32; change (slen "-") with 1%Z;
    pose proof (slen_nonneg p); pose proof (slen_nonneg q);
    pose proof (slen_nonneg workspaceRoleNameSuffix); pose proof (slen_nonneg ""); lia.
  1,2: done.
  intros cp' sa' [H|H]; apply outcome_bind_Ret in H as (x & Hx & H); rewrite Hx;
    apply scope_hash_Ret in Hx as (scope' & ->); f_equal;
    (eapply scoped_name_scope; [exact H|eassumption|by eapply scopedWorkspaceRBACName_blank|done|done]).
Qed.

(** the names the operator derives for a control plane's volumes and for
    its token secret are valid DNS labels in length, and those of the volumes
    also in form: every TLS or CA certificate secret, whatever its name, gets a
    volume name of lower-case alphanumerics and dashes of at most 63 bytes, a
    TLS volume never has the name of a CA certificate volume, and a generated
    token secret name has at most 63 bytes. *)
Theorem derived_names_valid (secretName certName : string) (cp : CoderControlPlane) :
  dns_label (volumeNameForSecret "tls" secretName) = true ∧
  dns_label (volumeNameForSecret "ca-cert" certName) = true ∧
  volumeNameForSecret "tls" secretName ≠ volumeNameForSecret "ca-cert" certName ∧
  (blank (oa_GeneratedTokenSecretName (OperatorAccess (cp_Spec cp))) = true →
   (0 < slen (operatorAccessTokenSecretName (Some cp)) ≤ 63)%Z).
Proof.
  split_and!; [by apply volumeNameForSecret_label..| |].
  - unfold volumeNameForSecret. cbv zeta. repeat case_match; discriminate.
  - unfold blank, operatorAccessTokenSecretName. intros ->. cbn [negb].
    pose proof (slen_nonneg (Name (cp_meta cp))) as Hn.
    change (slen operatorTokenSecretSuffix) with 15%Z.
    destruct (Z.leb_spec (slen (Name (cp_meta cp) +:+ operatorTokenSecretSuffix)) 63) as [Hle|Hgt];
      rewrite slen_append in *; change (slen operatorTokenSecretSuffix) with 15%Z in *; [lia|].
    rewrite slen_hash32, !slen_append, slen_hash32, slen_stake.
    change (slen operatorTokenSecretSuffix) with 15%Z. change (slen "-") with 1%Z.
    change (Z.of_nat (Z.to_nat (if (63 - 15 - 8 - 1 <? 1)%Z then 1 else 63 - 15 - 8 - 1))) with 39%Z. lia.
Qed.

Lemma workspace_rbac_names_witness :
  ∃ role binding,
    workspaceRoleName (Some (example_cp "coder" "main" true)) "runner" = Ret role ∧
    workspaceRoleBindingName (Some (example_cp "coder" "main" true)) "runner" = Ret binding ∧
    (0 < slen role ≤ 253)%Z ∧ (0 < slen binding ≤ 253)%Z ∧
    ∀ cp' sa',
      workspaceRoleName (Some cp') sa' = Ret role ∨ workspaceRoleBindingName (Some cp') sa' = Ret binding →
      workspaceRBACScopeHash (Some cp') = workspaceRBACScopeHash (Some (example_cp "coder" "main" true)).
Proof. apply (workspace_rbac_names (example_cp "coder" "main" true) "runner"); reflexivity. Defined.

End ControlPlaneNames.
