(* ===== verification/ControlPlaneStatus.v ===== *)
(** * ControlPlaneStatus: the status of a control plane and how it is written

    [desiredStatus], the merge of status changes, [reconcileStatus] with its
    retries, the conditions and the merge of reconcile results, of
    internal/controller/codercontrolplane_controller.go. *)

From S2P Require Import Prelude GoStd GoStdFacts GoErrors ApiTypes Examples KubeObjects Kube ControlPlaneNames.

#[local] Open Scope string_scope.
#[local] Open Scope list_scope.

Module ControlPlaneStatus.
Import ControlPlaneNames.

#[local] Abbreviation status := CoderControlPlaneStatus.

Definition assertion (msg : string) : goerror := Errorf msg [].

(** ** Building the next status *)

Definition set_service_state (generation readyReplicas : Z) (url phase : string) (s : status) : status := {|
  ObservedGeneration := generation; ReadyReplicas := readyReplicas; URL := url;
  OperatorTokenSecretRef := OperatorTokenSecretRef s; OperatorAccessReady := OperatorAccessReady s;
  LicenseLastApplied := LicenseLastApplied s; LicenseLastAppliedHash := LicenseLastAppliedHash s;
  LicenseTier := LicenseTier s; EntitlementsLastChecked := EntitlementsLastChecked s;
  ExternalProvisionerDaemonsEntitlement := ExternalProvisionerDaemonsEntitlement s;
  Phase := phase; Conditions := Conditions s |}.
Definition set_operator_access (ref : option SecretKeySelector) (ready : bool) (s : status) : status := {|
  ObservedGeneration := ObservedGeneration s; ReadyReplicas := ReadyReplicas s; URL := URL s;
  OperatorTokenSecretRef := ref; OperatorAccessReady := ready;
  LicenseLastApplied := LicenseLastApplied s; LicenseLastAppliedHash := LicenseLastAppliedHash s;
  LicenseTier := LicenseTier s; EntitlementsLastChecked := EntitlementsLastChecked s;
  ExternalProvisionerDaemonsEntitlement := ExternalProvisionerDaemonsEntitlement s;
  Phase := Phase s; Conditions := Conditions s |}.
Definition set_license (applied : option time) (hash : string) (s : status) : status := {|
  ObservedGeneration := ObservedGeneration s; ReadyReplicas := ReadyReplicas s; URL := URL s;
  OperatorTokenSecretRef := OperatorTokenSecretRef s; OperatorAccessReady := OperatorAccessReady s;
  LicenseLastApplied := applied; LicenseLastAppliedHash := hash;
  LicenseTier := LicenseTier s; EntitlementsLastChecked := EntitlementsLastChecked s;
  ExternalProvisionerDaemonsEntitlement := ExternalProvisionerDaemonsEntitlement s;
  Phase := Phase s; Conditions := Conditions s |}.
Definition set_entitlements (tier : string) (checked : option time) (external : string) (s : status)
    : status := {|
  ObservedGeneration := ObservedGeneration s; ReadyReplicas := ReadyReplicas s; URL := URL s;
  OperatorTokenSecretRef := OperatorTokenSecretRef s; OperatorAccessReady := OperatorAccessReady s;
  LicenseLastApplied := LicenseLastApplied s; LicenseLastAppliedHash := LicenseLastAppliedHash s;
  LicenseTier := tier; EntitlementsLastChecked := checked;
  ExternalProvisionerDaemonsEntitlement := external;
  Phase := Phase s; Conditions := Conditions s |}.
Definition set_conditions (l : list Condition) (s : status) : status := {|
  ObservedGeneration := ObservedGeneration s; ReadyReplicas := ReadyReplicas s; URL := URL s;
  OperatorTokenSecretRef := OperatorTokenSecretRef s; OperatorAccessReady := OperatorAccessReady s;
  LicenseLastApplied := LicenseLastApplied s; LicenseLastAppliedHash := LicenseLastAppliedHash s;
  LicenseTier := LicenseTier s; EntitlementsLastChecked := EntitlementsLastChecked s;
  ExternalProvisionerDaemonsEntitlement := ExternalProvisionerDaemonsEntitlement s;
  Phase := Phase s; Conditions := l |}.

(** [readyReplicas] is the deployment's; [serviceKey] the service's namespace
    and name. *)
Definition desiredStatus (cp : CoderControlPlane) (readyReplicas : Z) (serviceKey : object_key) : status :=
  let phase := if (0 <? readyReplicas)%Z then CoderControlPlanePhaseReady
               else CoderControlPlanePhasePending in
  let tls := controlPlaneTLSEnabled (Some cp) in
  let scheme := if tls then "https" else "http" in
  let statusPort := if tls then 443%Z else servicePort cp in
  set_service_state (Generation (cp_meta cp)) readyReplicas
    (scheme +:+ "://" +:+ serviceKey.2 +:+ "." +:+ serviceKey.1 +:+ ".svc.cluster.local:"
       +:+ format_int statusPort) phase (cp_Status cp).

Section conditions.
Context {W : Type} `{!HasClock W}.

(** The condition [setControlPlaneCondition] sets; its transition time is
    stamped by [meta.SetStatusCondition]. *)
Definition new_condition (generation : Z) (conditionType st reason message : string) : Condition := {|
  cond_Type := conditionType; cond_Status := st; cond_ObservedGeneration := generation;
  cond_LastTransitionTime := time_zero; cond_Reason := reason; cond_Message := message |}.

Definition setControlPlaneCondition (nextStatus : option status) (generation : Z)
    (conditionType st reason message : string) : reconciliation (W:=W) status :=
  match nextStatus with
  | None => throw (assertion "assertion failed: next status must not be nil")
  | Some next =>
      _ ← guard_err (blank conditionType) (assertion "assertion failed: condition type must not be empty");
      _ ← guard_err (blank reason) (assertion "assertion failed: condition reason must not be empty");
      now ← Now;
      mret (set_conditions (SetStatusCondition now (Conditions next)
              (new_condition generation conditionType st reason message)) next)
  end.
End conditions.

(** ** Results *)

Definition mergeResults (results : list Result) : Result :=
  foldl (λ merged result,
    if (0 <? RequeueAfter result)%Z
       && (Z.eqb (RequeueAfter merged) 0 || (RequeueAfter result <? RequeueAfter merged)%Z)
    then {| RequeueAfter := RequeueAfter result |} else merged) no_requeue results.

(** ** The merge of status changes *)

(** One field: the new value if the reconciliation changed it, else the latest. *)
Definition delta {A} `{EqDecision A} (base next latest : A) : A :=
  if bool_decide (base = next) then latest else next.

Definition mergeControlPlaneStatusDelta (baseStatus nextStatus latestStatus : status) : status := {|
  ObservedGeneration := delta (ObservedGeneration baseStatus) (ObservedGeneration nextStatus)
                          (ObservedGeneration latestStatus);
  ReadyReplicas := delta (ReadyReplicas baseStatus) (ReadyReplicas nextStatus) (ReadyReplicas latestStatus);
  URL := delta (URL baseStatus) (URL nextStatus) (URL latestStatus);
  OperatorTokenSecretRef := delta (OperatorTokenSecretRef baseStatus) (OperatorTokenSecretRef nextStatus)
                              (OperatorTokenSecretRef latestStatus);
  OperatorAccessReady := delta (OperatorAccessReady baseStatus) (OperatorAccessReady nextStatus)
                           (OperatorAccessReady latestStatus);
  LicenseLastApplied := delta (LicenseLastApplied baseStatus) (LicenseLastApplied nextStatus)
                          (LicenseLastApplied latestStatus);
  LicenseLastAppliedHash := delta (LicenseLastAppliedHash baseStatus) (LicenseLastAppliedHash nextStatus)
                              (LicenseLastAppliedHash latestStatus);
  LicenseTier := delta (LicenseTier baseStatus) (LicenseTier nextStatus) (LicenseTier latestStatus);
  EntitlementsLastChecked := delta (EntitlementsLastChecked baseStatus) (EntitlementsLastChecked nextStatus)
                               (EntitlementsLastChecked latestStatus);
  ExternalProvisionerDaemonsEntitlement :=
    delta (ExternalProvisionerDaemonsEntitlement baseStatus)
      (ExternalProvisionerDaemonsEntitlement nextStatus) (ExternalProvisionerDaemonsEntitlement latestStatus);
  Phase := delta (Phase baseStatus) (Phase nextStatus) (Phase latestStatus);
  Conditions := delta (Conditions baseStatus) (Conditions nextStatus) (Conditions latestStatus)
|}.

Definition set_status (s : status) (cp : CoderControlPlane) : CoderControlPlane := {|
  cp_meta := cp_meta cp; cp_Spec := cp_Spec cp; cp_Status := s |}.

(** The reconciler's optional collaborators that are set. *)
Record reconciler := {
  hasClient : bool;
  hasScheme : bool;
  hasAPIReader : bool;
  hasOperatorAccessProvisioner : bool;
  hasLicenseUploader : bool;
  hasEntitlementsInspector : bool
}.

Section reconcile_status.
Context {W : Type} (env : ∀ a : action, M W goerror (reply a)).

(** One attempt; the result is the status the in-memory object is left with. *)
Definition writeStatus (r : reconciler) (key : object_key) (baseStatus nextStatus : status)
    : reconciliation (W:=W) status :=
  latest ← act env (AGet (if hasAPIReader r then APIServerReader else CachedReader) KControlPlane key);
  let latest : CoderControlPlane := latest in
  let m := cp_meta latest in
  _ ← guard_err (negb (String.eqb (Name m) key.2) || negb (String.eqb (Namespace m) key.1))
        (Errorf "assertion failed: fetched object %s/%s does not match expected %s/%s"
           [FStr (Namespace m); FStr (Name m); FStr key.1; FStr key.2]);
  if (0 <? ObservedGeneration nextStatus)%Z && negb (Z.eqb (Generation m) (ObservedGeneration nextStatus))
  then mret (cp_Status latest)
  else
    let mergedStatus := mergeControlPlaneStatusDelta baseStatus nextStatus (cp_Status latest) in
    if bool_decide (cp_Status latest = mergedStatus) then mret (cp_Status latest)
    else _ ← act env (AUpdateStatus (set_status mergedStatus latest)); mret mergedStatus.

Definition reconcileStatus (r : reconciler) (cp : option CoderControlPlane)
    (baseStatus nextStatus : status) : reconciliation (W:=W) status :=
  match cp with
  | None => throw (assertion "assertion failed: coder control plane must not be nil")
  | Some cp =>
      if bool_decide (baseStatus = nextStatus) then mret (cp_Status cp)
      else
        let key := key_of (cp_meta cp) in
        _ ← guard_err (blank key.2 || blank key.1)
              (assertion "assertion failed: coder control plane namespaced name must not be empty");
        _ ← guard_err (negb (hasAPIReader r) && negb (hasClient r))
              (assertion "assertion failed: status reader must not be nil");
        map_err (λ err, Errorf "update control plane status: %w" [FErrW err])
          (RetryOnConflict env (cp_Status cp) (writeStatus r key baseStatus nextStatus))
  end.
End reconcile_status.

(** * Properties *)

(** ** The merge *)

Section delta_laws.
Context {A : Type} `{EqDecision A}.
Implicit Types b n l : A.

Lemma delta_next b n : delta b n b = n.
Proof. unfold delta. by case_bool_decide. Qed.
Lemma delta_unchanged b l : delta b b l = l.
Proof. unfold delta. by rewrite bool_decide_true. Qed.
Lemma delta_idem b n l : delta b n (delta b n l) = delta b n l.
Proof. unfold delta. by case_bool_decide. Qed.
Lemma delta_comm b1 n1 b2 n2 l :
  b1 = n1 ∨ b2 = n2 → delta b1 n1 (delta b2 n2 l) = delta b2 n2 (delta b1 n1 l).
Proof. unfold delta. intros [->| ->]; repeat case_bool_decide; congruence. Qed.
End delta_laws.

(** Two reconciliations that changed different fields. *)
Definition independent (b1 n1 b2 n2 : status) : Prop :=
  (ObservedGeneration b1 = ObservedGeneration n1 ∨ ObservedGeneration b2 = ObservedGeneration n2) ∧
  (ReadyReplicas b1 = ReadyReplicas n1 ∨ ReadyReplicas b2 = ReadyReplicas n2) ∧
  (URL b1 = URL n1 ∨ URL b2 = URL n2) ∧
  (OperatorTokenSecretRef b1 = OperatorTokenSecretRef n1 ∨ OperatorTokenSecretRef b2 = OperatorTokenSecretRef n2) ∧
  (OperatorAccessReady b1 = OperatorAccessReady n1 ∨ OperatorAccessReady b2 = OperatorAccessReady n2) ∧
  (LicenseLastApplied b1 = LicenseLastApplied n1 ∨ LicenseLastApplied b2 = LicenseLastApplied n2) ∧
  (LicenseLastAppliedHash b1 = LicenseLastAppliedHash n1 ∨ LicenseLastAppliedHash b2 = LicenseLastAppliedHash n2) ∧
  (LicenseTier b1 = LicenseTier n1 ∨ LicenseTier b2 = LicenseTier n2) ∧
  (EntitlementsLastChecked b1 = EntitlementsLastChecked n1 ∨ EntitlementsLastChecked b2 = EntitlementsLastChecked n2) ∧
  (ExternalProvisionerDaemonsEntitlement b1 = ExternalProvisionerDaemonsEntitlement n1 ∨ ExternalProvisionerDaemonsEntitlement b2 = ExternalProvisionerDaemonsEntitlement n2) ∧
  (Phase b1 = Phase n1 ∨ Phase b2 = Phase n2) ∧
  (Conditions b1 = Conditions n1 ∨ Conditions b2 = Conditions n2).

Lemma independent_deltas b1 n1 b2 n2 l :
  independent b1 n1 b2 n2 →
  mergeControlPlaneStatusDelta b1 n1 (mergeControlPlaneStatusDelta b2 n2 l) =
  mergeControlPlaneStatusDelta b2 n2 (mergeControlPlaneStatusDelta b1 n1 l).
Proof.
  intros (H1 & H2 & H3 & H4 & H5 & H6 & H7 & H8 & H9 & H10 & H11 & H12).
  unfold mergeControlPlaneStatusDelta. cbn. f_equal; by apply delta_comm.
Qed.

(** the merge of status changes loses no update: without a concurrent
    writer the new status is written as it is; fields the reconciliation did
    not change keep the latest value; applying the same change twice is
    applying it once (so a retry after a lost response is harmless); and two
    reconciliations that changed different fields can be written in either
    order, with both changes in the result. *)
Theorem status_merge_laws (base next latest : status) :
  mergeControlPlaneStatusDelta base next base = next ∧
  mergeControlPlaneStatusDelta base base latest = latest ∧
  mergeControlPlaneStatusDelta base next (mergeControlPlaneStatusDelta base next latest)
    = mergeControlPlaneStatusDelta base next latest ∧
  ∀ base' next', independent base next base' next' →
    mergeControlPlaneStatusDelta base next (mergeControlPlaneStatusDelta base' next' latest)
      = mergeControlPlaneStatusDelta base' next' (mergeControlPlaneStatusDelta base next latest).
Proof.
  split_and!; [..|intros; by apply independent_deltas];
    unfold mergeControlPlaneStatusDelta; cbn;
    rewrite ?delta_next, ?delta_unchanged, ?delta_idem; by destruct base, next, latest.
Qed.

(** ** Writing the status *)

Section reconcile_status_properties.
Context {W : Type} (env : ∀ a : action, M W goerror (reply a)).
Implicit Types (st : kst W).

(** The status write of an attempt: the merge of the change into an object
    that was read, that has the generation the change was computed for, and
    that the merge changes. *)
Definition fresh_write (rd : reader) (key : object_key) (base next : status) (o : CoderControlPlane)
    : Prop :=
  ∃ (latest : CoderControlPlane) w w',
    env (AGet rd KControlPlane key) w = (Ret latest, w') ∧ key_of (cp_meta latest) = key ∧
    ((0 < ObservedGeneration next)%Z → Generation (cp_meta latest) = ObservedGeneration next) ∧
    o = set_status (mergeControlPlaneStatusDelta base next (cp_Status latest)) latest ∧
    cp_Status o ≠ cp_Status latest.

Inductive status_call (rd : reader) (key : object_key) (base next : status) : action → Prop :=
  | call_read : status_call rd key base next (AGet rd KControlPlane key)
  | call_write o : fresh_write rd key base next o → status_call rd key base next (AUpdateStatus o)
  | call_sleep : status_call rd key base next ASleep.

Definition is_status_update (a : action) : bool := match a with AUpdateStatus _ => true | _ => false end.
Definition status_updates (acts : list action) : nat := length (List.filter is_status_update acts).

(** How a call that reports success ended: the object that was read last is of
    another generation; or it has the merged status; or the merged status was
    written to it; or a call was interrupted. *)
Definition settled (rd : reader) (key : object_key) (base next : status) (final : status) (w : W) : Prop :=
  (∃ (latest : CoderControlPlane) w0 w1, env (AGet rd KControlPlane key) w0 = (Ret latest, w1) ∧
     key_of (cp_meta latest) = key ∧
     ((0 < ObservedGeneration next)%Z ∧ Generation (cp_meta latest) ≠ ObservedGeneration next ∧
        final = cp_Status latest ∧ w = w1 ∨
      final = mergeControlPlaneStatusDelta base next (cp_Status latest) ∧
        (final = cp_Status latest ∧ w = w1 ∨
         ∃ o', env (AUpdateStatus (set_status final latest)) w1 = (Ret o', w)))).

(** A call of the attempt failed because its context ended. *)
Definition interrupted (rd : reader) (key : object_key) (base next : status) (e : goerror) : Prop :=
  Interrupted e = true ∧ ∃ a w w', status_call rd key base next a ∧ env a w = (Err e, w').

(** What an attempt did, and what its outcome means. *)
Definition attempted (rd : reader) (key : object_key) (base next : status) st (o : result status) st'
    : Prop :=
  (∃ acts, made acts st st' ∧ Forall (status_call rd key base next) acts ∧
     (status_updates acts ≤ 1)%nat) ∧
  match o with
  | Ret final => settled rd key base next final (k_world st')
  | Err e => Interrupted e = true → interrupted rd key base next e
  | Panic _ => True
  end.

Lemma writeStatus_wp r key base next st :
  let rd := if hasAPIReader r then APIServerReader else CachedReader in
  wp (writeStatus env r key base next) (attempted rd key base next st) st.
Proof.
  intros rd. unfold writeStatus. apply wp_bind.
  refine (wp_act env (AGet rd KControlPlane key) _ _ _). intros o w1 Hget.
  set (s1 := KSt w1 _).
  assert (∀ o : result status, match o with
      | Ret final => settled rd key base next final w1
      | Err e => Interrupted e = true → interrupted rd key base next e
      | Panic _ => True
      end → attempted rd key base next st o s1) as Hread.
  { intros o' Ho. split; [|done]. exists [AGet rd KControlPlane key].
    split_and!; [done|repeat constructor|cbn; lia]. }
  destruct o as [latest|e|e]; unfold wp_cont; [|apply Hread|by apply Hread].
  2: { intros Hi. split; [done|]. exists (AGet rd KControlPlane key), (k_world st), w1.
       split; [constructor|done]. }
  apply wp_bind, wp_guard; intros Hkey; [by apply Hread|]. unfold wp_cont.
  apply orb_false_iff in Hkey as [Hn%negb_false_iff%String.eqb_eq Hns%negb_false_iff%String.eqb_eq].
  assert (key_of (cp_meta latest) = key) as Hk by (unfold key_of; rewrite Hn, Hns; by destruct key).
  destruct (_ && _) eqn:Hgen.
  { apply wp_ret, Hread. exists latest, (k_world st), w1. split_and!; [exact Hget|done|left].
    apply andb_true_iff in Hgen as [Hpos%Z.ltb_lt Hne%negb_true_iff%Z.eqb_neq]. done. }
  set (merged := mergeControlPlaneStatusDelta base next (cp_Status latest)).
  case_bool_decide as Heq.
  { apply wp_ret, Hread. exists latest, (k_world st), w1.
    split_and!; [exact Hget|done|right]. split; [exact Heq|by left]. }
  apply wp_bind. refine (wp_act env (AUpdateStatus (set_status merged latest)) _ _ _). intros o w2 Hup.
  assert (status_call rd key base next (AUpdateStatus (set_status merged latest))) as Hcall.
  { constructor. exists latest, (k_world st), w1. split_and!; [done|done| |done|cbn; congruence].
    intros Hpos. apply andb_false_iff in Hgen as [?%Z.ltb_ge|H%negb_false_iff%Z.eqb_eq]; [lia|done]. }
  assert (∃ acts, made acts st (KSt w2 (k_trace s1 ++ [AUpdateStatus (set_status merged latest)])) ∧
      Forall (status_call rd key base next) acts ∧ (status_updates acts ≤ 1)%nat) as Hacts.
  { exists [AGet rd KControlPlane key; AUpdateStatus (set_status merged latest)].
    split_and!; [unfold made; cbn; by rewrite <-app_assoc| |cbn; lia].
    constructor; [constructor|]. by constructor. }
  destruct o as [o'|e|e]; unfold wp_cont; [apply wp_ret|..]; (split; [exact Hacts|]); [..|done].
  - exists latest, (k_world st), w1. split_and!; [exact Hget|done|right]. split; [done|right]. by exists o'.
  - intros Hi. split; [done|]. by exists (AUpdateStatus (set_status merged latest)), w1, w2.
Qed.

(** The contract of [reconcileStatus]: nothing is done when nothing changed;
    otherwise every call reads the object or writes a fresh merge, at most
    five times; and success means that the status is settled, or that a call
    was interrupted. *)
Definition status_contract (r : reconciler) (cp : CoderControlPlane) (base next : status) st
    (o : result status) st' : Prop :=
  let rd := if hasAPIReader r then APIServerReader else CachedReader in
  let key := key_of (cp_meta cp) in
  (∃ acts, made acts st st' ∧ Forall (status_call rd key base next) acts ∧
     (status_updates acts ≤ 5)%nat ∧ (base = next → acts = [])) ∧
  ∀ final, o = Ret final →
    base = next ∧ final = cp_Status cp ∨
    settled rd key base next final (k_world st') ∨
    final = cp_Status cp ∧ ∃ e, interrupted rd key base next e.

Lemma status_updates_app l1 l2 :
  status_updates (l1 ++ l2) = (status_updates l1 + status_updates l2)%nat.
Proof. unfold status_updates. by rewrite List.filter_app, length_app. Qed.

Lemma reconcileStatus_wp r cp base next st :
  wp (reconcileStatus env r (Some cp) base next) (status_contract r cp base next st) st.
Proof.
  unfold reconcileStatus. set (key := key_of (cp_meta cp)).
  assert (∀ o : result status, (∀ final, o = Ret final → base = next ∧ final = cp_Status cp) →
    status_contract r cp base next st o st) as Hno.
  { intros o Ho. split; [exists []; split_and!; [apply made_nil|constructor|cbn; lia|done]|].
    intros final Hf. left. by apply Ho. }
  case_bool_decide as Heq; [apply wp_ret, Hno; by intros final [= <-]|].
  apply wp_bind, wp_guard; intros _; [by apply Hno|]. unfold wp_cont.
  apply wp_bind, wp_guard; intros _; [by apply Hno|]. unfold wp_cont.
  set (rd := if hasAPIReader r then APIServerReader else CachedReader).
  apply wp_map_err, (wp_retry env _ _ _ _ (λ n s, ∃ acts, made acts st s ∧
    Forall (status_call rd key base next) acts ∧ (status_updates acts + n ≤ 4)%nat)).
  - exists []. split_and!; [apply made_nil|constructor|cbn; lia].
  - intros n s (acts & Hm & Hall & Hn) Hle. eapply wp_mono; [|apply writeStatus_wp].
    intros o s' [(acts' & Hm' & Hall' & Hn') Ho].
    assert (∃ l, made l st s' ∧ Forall (status_call rd key base next) l ∧
      (status_updates l + n ≤ 5)%nat ∧ (base = next → l = [])) as (l & Hl1 & Hl2 & Hl3 & Hl4).
    { exists (acts ++ acts'). split_and!; [by eapply made_trans|by apply Forall_app| |done].
      rewrite status_updates_app. lia. }
    assert (∀ o : result status, (∀ final, o = Ret final →
        settled rd key base next final (k_world s') ∨
        final = cp_Status cp ∧ ∃ e, interrupted rd key base next e) →
      status_contract r cp base next st o s') as Hend.
    { intros o' Ho'. split; [exists l; split_and!; [done|done|lia|done]|]. intros final Hf. right. by apply Ho'. }
    destruct o as [final|e|e]; [apply Hend; intros ? [= <-]; by left| |by apply Hend].
    destruct (IsConflict e).
    + split; [by apply Hend|]. intros n' o w -> _.
      assert (made (l ++ [ASleep]) st (KSt w (k_trace s' ++ [ASleep])) ∧
        Forall (status_call rd key base next) (l ++ [ASleep]) ∧
        (status_updates (l ++ [ASleep]) + n' ≤ 4)%nat) as HI.
      { split_and!; [by eapply made_trans|apply Forall_app; split; [done|repeat constructor]|].
        rewrite status_updates_app. cbn. lia. }
      destruct o as [u|e'|p]; [by eexists..|]. split; [|done].
      destruct HI as (HI1 & HI2 & HI3). exists (l ++ [ASleep]).
      split_and!; [exact HI1|exact HI2|lia|done].
    + split; [by apply Hend|]. intros Hi. split; [|intros; by apply Hend].
      apply Hend. intros ? [= <-]. right. split; [done|]. exists e. by apply Ho.
  - done.
Qed.
End reconcile_status_properties.

(** [reconcileStatus] writes only fresh merges: whatever the API server
    and concurrent writers do, it makes at most five status writes, each of
    them the merge of the reconciliation's change into an object it has just
    read, of the generation the change was computed for, and only when the
    merge changes the object; it does nothing when nothing changed; and when it
    reports success, the status is settled (written, or already there, or the
    object has a newer generation) or a call was interrupted by the end of its
    context ([status_contract]). *)
Theorem reconcileStatus_contract {W} (env : ∀ a : action, M W goerror (reply a)) (r : reconciler)
    (cp : CoderControlPlane) (base next : CoderControlPlaneStatus) (st : kst W) :
  let '(o, st') := reconcileStatus env r (Some cp) base next st in
  status_contract env r cp base next st o st'.
Proof.
  pose proof (reconcileStatus_wp env r cp base next st) as H. unfold wp in H.
  by destruct (reconcileStatus env r (Some cp) base next st).
Qed.

(** ** Results *)

Lemma mergeResults_fold (l : list Result) (m : Result) :
  (0 ≤ RequeueAfter m)%Z →
  let merged := foldl (λ merged result,
    if (0 <? RequeueAfter result)%Z
       && (Z.eqb (RequeueAfter merged) 0 || (RequeueAfter result <? RequeueAfter merged)%Z)
    then {| RequeueAfter := RequeueAfter result |} else merged) m l in
  (0 ≤ RequeueAfter merged)%Z ∧ (merged = m ∨ merged ∈ l) ∧
  (∀ r : Result, r = m ∨ r ∈ l → (0 < RequeueAfter r)%Z → (0 < RequeueAfter merged ≤ RequeueAfter r)%Z).
Proof.
  revert m. induction l as [|x l IH]; intros m Hm; cbn.
  - split_and!; [done|by left|]. intros r [->|?%elem_of_nil]; [lia|done].
  - match goal with |- context [foldl _ ?acc l] => set (m' := acc) end.
    assert ((0 ≤ RequeueAfter m')%Z ∧ (m' = m ∨ m' = x) ∧
      ∀ r : Result, r = m ∨ r = x → (0 < RequeueAfter r)%Z → (0 < RequeueAfter m' ≤ RequeueAfter r)%Z)
      as (Hm' & Hin & Hle).
    { subst m'. destruct (Z.ltb_spec 0 (RequeueAfter x)), (Z.eqb_spec (RequeueAfter m) 0),
        (Z.ltb_spec (RequeueAfter x) (RequeueAfter m)); cbn;
        split_and!; try lia; try (by left); try (by right; destruct x);
        intros r [-> | ->]; lia. }
    clearbody m'. destruct (IH m' Hm') as (H0 & H1 & H2). split_and!; [done| |].
    + destruct H1 as [->|H1]; [|right; by right]. destruct Hin as [->| ->]; [by left|right; by left].
    + intros r Hr Hpos. assert (r = m ∨ r = x ∨ r ∈ l) as [Hr'|[Hr'|Hr']].
      { destruct Hr as [|Hr]; [by left|right]. by apply elem_of_cons in Hr. }
      3: { apply H2; [by right|done]. }
      1,2: destruct (Hle r) as [Hp Hl]; [by (left + right)|done|];
        destruct (H2 m') as [Hp' Hl']; [by left|done|]; lia.
Qed.

(** The merged result asks for the earliest requested requeue, and for none if
    none was requested. *)
Lemma mergeResults_earliest (l : list Result) :
  (mergeResults l = no_requeue ∨ mergeResults l ∈ l) ∧
  ∀ r : Result, r ∈ l → (0 < RequeueAfter r)%Z → (0 < RequeueAfter (mergeResults l) ≤ RequeueAfter r)%Z.
Proof.
  destruct (mergeResults_fold l no_requeue) as (_ & H1 & H2); [done|]. split; [exact H1|].
  intros r Hr. apply H2. by right.
Qed.

(** ** An interrupted write

    A status write that fails because its context ended is reported as a
    success: [wait.Interrupted] recognises the error and [retry.OnError]
    replaces it by the (absent) error of the last conflict. *)
Definition interrupted_env (a : action) : M CoderControlPlane goerror (reply a) := λ stored,
  match a with
  | AGet _ KControlPlane _ => (Ret stored, stored)
  | _ => (Err (Errorf "Put status: %w" [FErrW CtxDeadlineExceeded]), stored)
  end.

Example interrupted_write_reports_success :
  let cp := example_cp "ns" "main" true in
  let next := set_service_state 1 0 "http://main" "Pending" (cp_Status cp) in
  let '(o, st) := reconcileStatus interrupted_env
    {| hasClient := true; hasScheme := true; hasAPIReader := true; hasOperatorAccessProvisioner := false;
       hasLicenseUploader := false; hasEntitlementsInspector := false |}
    (Some cp) (cp_Status cp) next (KSt cp []) in
  o = Ret (cp_Status cp) ∧ k_world st = cp ∧ cp_Status (k_world st) ≠ next.
Proof. vm_compute. split_and!; [done|done|discriminate]. Qed.

End ControlPlaneStatus.
