(* ===== verification/OperatorAccess.v ===== *)
(** * OperatorAccess: the operator's own credentials in a control plane

    Reading secrets, resolving the database URL, the secret with the operator's
    token, and [reconcileOperatorAccess] with the clean-up of disabled access,
    of internal/controller/codercontrolplane_controller.go. *)

From S2P Require Import Prelude GoStd GoStdFacts StringFacts GoErrors ApiTypes Examples KubeObjects Kube ControlPlaneNames ControlPlaneStatus.

#[local] Open Scope string_scope.
#[local] Open Scope list_scope.

Module OperatorAccess.
Import ControlPlaneNames ControlPlaneStatus.

#[local] Abbreviation status := CoderControlPlaneStatus.

(** ** Ownership *)

Definition isOwnedByCoderControlPlane (object : ObjectMeta) (cp : CoderControlPlane) : bool :=
  match GetControllerOf object with
  | None => false
  | Some ownerReference =>
      String.eqb (or_APIVersion ownerReference) controlPlaneAPIVersion
      && String.eqb (or_Kind ownerReference) controlPlaneKind
      && String.eqb (or_Name ownerReference) (Name (cp_meta cp))
      && String.eqb (or_UID ownerReference) (UID (cp_meta cp))
  end.

(** [controllerutil.SetControllerReference(coderControlPlane, object, r.Scheme)],
    with the caller's wrapping of its error. *)
Definition ownedBy (cp : CoderControlPlane) (m : ObjectMeta) : result ObjectMeta :=
  match SetControllerReference controlPlaneAPIVersion controlPlaneKind (cp_meta cp) m with
  | Err err => Err (Errorf "set controller reference: %w" [FErrW err])
  | r => r
  end.

(** ** The environment of the control plane *)

Fixpoint find_env (found : option EnvVar) (envVars : list EnvVar) (name : string)
    : result (option EnvVar) :=
  match envVars with
  | [] => Ret found
  | v :: envVars =>
      if negb (String.eqb (env_Name v) name) then find_env found envVars name
      else if negb (is_nil found) then Err (Errorf "%s is configured more than once" [FStr name])
      else find_env (Some v) envVars name
  end.

Definition findEnvVar (envVars : list EnvVar) (name : string) : result (option EnvVar) :=
  _ ← fail_if (blank name) (assertion "assertion failed: environment variable name must not be empty");
  find_env None envVars name.

Definition envFromLookupKeyForEnvVar (prefix envVarName : string) : string * bool :=
  let prefix := trim_space prefix in
  if String.eqb prefix "" then (envVarName, true)
  else if negb (has_prefix prefix envVarName) then ("", false)
  else
    let lookupKey := trim_prefix prefix envVarName in
    if blank lookupKey then ("", false) else (lookupKey, true).

(** The mutation of the operator token secret. *)
Definition token_secret (cp : CoderControlPlane) (key token : string) (secret : Secret) : result Secret :=
  m ← ownedBy cp (set_labels (controlPlaneLabels (Name (cp_meta cp))) (secret_meta secret));
  mret {| secret_meta := m; secret_Type := "Opaque"; secret_Data := <[key := token]> (secret_Data secret) |}.

Section operator_access.
Context {W : Type} (env : ∀ a : action, M W goerror (reply a)).

Definition readSecretValue (namespace name key : string) : reconciliation (W:=W) string :=
  _ ← guard_err (blank namespace) (assertion "assertion failed: secret namespace must not be empty");
  _ ← guard_err (blank name) (assertion "assertion failed: secret name must not be empty");
  _ ← guard_err (blank key) (assertion "assertion failed: secret key must not be empty");
  secret ← act env (AGet CachedReader KSecret (namespace, name));
  let secret : Secret := secret in
  match secret_Data secret !! key with
  | None => throw (Errorf "%w: secret %q does not contain key %q"
                     [FErrW SecretValueMissing; FStr name; FStr key])
  | Some value =>
      if String.eqb value ""
      then throw (Errorf "%w: secret %q key %q is empty" [FErrW SecretValueEmpty; FStr name; FStr key])
      else mret value
  end.

(** [case apierrors.IsNotFound(err), errors.Is(err, errSecretValueMissing),
    errors.Is(err, errSecretValueEmpty)] *)
Definition secret_missing (err : goerror) : bool := IsNotFound err || is_secret_value_error err.

Definition pg_error (format : string) : goerror := Errorf format [FStr postgresConnectionURLEnvVar].

Definition resolvePostgresURLFromExtraEnv (cp : option CoderControlPlane)
    : reconciliation (W:=W) string :=
  match cp with
  | None => throw (assertion "assertion failed: coder control plane must not be nil")
  | Some cp =>
      pgEnvVar ← lift (findEnvVar (ExtraEnv (cp_Spec cp)) postgresConnectionURLEnvVar);
      match pgEnvVar with
      | None => throw (pg_error "%s is not configured")
      | Some v =>
          if negb (blank (env_Value v)) then mret (trim_space (env_Value v))
          else match env_ValueFrom v with
          | None => throw (pg_error "%s must define either value or valueFrom.secretKeyRef")
          | Some source =>
              match SecretKeyRef source with
              | None => throw (pg_error "%s valueFrom must be a secretKeyRef")
              | Some ref =>
                  _ ← guard_err (blank (sks_Name ref)) (pg_error "%s secretKeyRef name must not be empty");
                  _ ← guard_err (blank (sks_Key ref)) (pg_error "%s secretKeyRef key must not be empty");
                  readSecretValue (Namespace (cp_meta cp)) (sks_Name ref) (sks_Key ref)
              end
          end
      end
  end.

Definition ensureOperatorTokenSecret (cp : option CoderControlPlane) (name key token : string)
    : reconciliation (W:=W) () :=
  match cp with
  | None => throw (assertion "assertion failed: coder control plane must not be nil")
  | Some cp =>
      _ ← guard_err (blank name) (assertion "assertion failed: secret name must not be empty");
      _ ← guard_err (blank key) (assertion "assertion failed: secret key must not be empty");
      _ ← guard_err (String.eqb token "") (assertion "assertion failed: secret token must not be empty");
      _ ← map_err (λ err, Errorf "reconcile operator token secret %q: %w" [FStr name; FErrW err])
            (CreateOrUpdate env KSecret
               {| secret_meta := meta_of_key (Namespace (cp_meta cp), name);
                  secret_Type := ""; secret_Data := ∅ |}
               (token_secret cp key token));
      mret tt
  end.

(** [r.OperatorAccessProvisioner] is [hasOperatorAccessProvisioner]. *)
Definition cleanupDisabledOperatorAccess (r : reconciler) (cp : option CoderControlPlane)
    : reconciliation (W:=W) () :=
  match cp with
  | None => throw (assertion "assertion failed: coder control plane must not be nil")
  | Some cp' =>
      let secretName := operatorAccessTokenSecretName cp in
      _ ← guard_err (blank secretName)
            (assertion "assertion failed: operator token secret name must not be empty");
      let tokenName := operatorAccessDatabaseTokenName cp in
      _ ← guard_err (blank tokenName) (assertion "assertion failed: operator token name must not be empty");
      found ← attempt (act env (AGet CachedReader KSecret (Namespace (cp_meta cp'), secretName)));
      secret ← match found with
               | inl secret => mret (Some (secret : Secret))
               | inr err =>
                   if IsNotFound err then mret None
                   else throw (Errorf "get operator token secret %q while disabling operator access: %w"
                                 [FStr secretName; FErrW err])
               end;
      let managed := match secret with
                     | Some s => isOwnedByCoderControlPlane (secret_meta s) cp'
                     | None => false
                     end in
      let cleanupRequired := managed || negb (is_nil (OperatorTokenSecretRef (cp_Status cp'))) in
      _ ← match secret with
          | Some s =>
              if managed then
                map_err (λ err, Errorf "delete operator token secret %q while disabling operator access: %w"
                                  [FStr secretName; FErrW err])
                  (ignoring IsNotFound (act env (ADelete KSecret s)))
              else mret tt
          | None => mret tt
          end;
      resolved ← attempt (resolvePostgresURLFromExtraEnv cp);
      match resolved with
      | inr err =>
          if cleanupRequired
          then throw (Errorf "resolve postgres URL while disabling operator access: %w" [FErrW err])
          else mret tt
      | inl postgresURL =>
          _ ← guard_err (negb (hasOperatorAccessProvisioner r))
                (assertion "assertion failed: operator access provisioner must not be nil while disabling managed credentials");
          map_err (λ err, Errorf "revoke operator token while disabling operator access: %w" [FErrW err])
            (act env (ARevokeOperatorToken {| rot_PostgresURL := postgresURL;
               rot_OperatorUsername := defaultOperatorAccessUsername; rot_TokenName := tokenName |}))
      end
  end.

Definition requeue_after (d : Z) : Result := {| RequeueAfter := d |}.

(** The enabled access: the token is read, validated or renewed by the
    provisioner, and stored. *)
Definition ensureOperatorAccess (cp : option CoderControlPlane) (cp' : CoderControlPlane)
    (nextStatus : status) : reconciliation (W:=W) (Result * status) :=
  let secretName := operatorAccessTokenSecretName cp in
  _ ← guard_err (blank secretName)
        (assertion "assertion failed: operator token secret name must not be empty");
  let tokenName := operatorAccessDatabaseTokenName cp in
  _ ← guard_err (blank tokenName) (assertion "assertion failed: operator token name must not be empty");
  existing ← attempt (readSecretValue (Namespace (cp_meta cp')) secretName DefaultTokenSecretKey);
  existingToken ← match existing with
                  | inl token => mret token
                  | inr err => if secret_missing err then mret ""
                               else throw (Errorf "read operator token secret %q: %w"
                                             [FStr secretName; FErrW err])
                  end;
  let unavailable := (requeue_after operatorAccessRetryInterval, set_operator_access None false nextStatus) in
  resolved ← attempt (resolvePostgresURLFromExtraEnv cp);
  match resolved with
  | inr _ => mret unavailable
  | inl postgresURL =>
      provisioned ← attempt (act env (AEnsureOperatorToken {|
        eot_PostgresURL := postgresURL; eot_OperatorUsername := defaultOperatorAccessUsername;
        eot_OperatorEmail := defaultOperatorAccessEmail; eot_TokenName := tokenName;
        eot_TokenLifetime := defaultOperatorAccessTokenLifetime; eot_ExistingToken := existingToken |}));
      match provisioned with
      | inr _ => mret unavailable
      | inl token =>
          _ ← guard_err (String.eqb token "")
                (assertion "assertion failed: operator access provisioner returned empty token");
          _ ← ensureOperatorTokenSecret cp secretName DefaultTokenSecretKey token;
          mret (no_requeue, set_operator_access
                  (Some {| sks_Name := secretName; sks_Key := DefaultTokenSecretKey |}) true nextStatus)
      end
  end.

Definition reconcileOperatorAccess (r : reconciler) (cp : option CoderControlPlane)
    (nextStatus : option status) : reconciliation (W:=W) (Result * status) :=
  match cp, nextStatus with
  | None, _ => throw (assertion "assertion failed: coder control plane must not be nil")
  | _, None => throw (assertion "assertion failed: next status must not be nil")
  | Some cp', Some next =>
      if oa_Disabled (OperatorAccess (cp_Spec cp')) then
        cleaned ← attempt (cleanupDisabledOperatorAccess r cp);
        match cleaned with
        | inr _ =>
            let pending := operatorAccessTokenSecretName cp in
            _ ← guard_err (blank pending)
                  (assertion "assertion failed: operator token secret name must not be empty");
            mret (requeue_after operatorAccessRetryInterval,
                  set_operator_access (Some {| sks_Name := pending; sks_Key := DefaultTokenSecretKey |})
                    false next)
        | inl _ => mret (no_requeue, set_operator_access None false next)
        end
      else if negb (hasOperatorAccessProvisioner r)
      then mret (no_requeue, set_operator_access None false next)
      else ensureOperatorAccess cp cp' next
  end.
End operator_access.

(** * Properties *)

Lemma owned_by_spec cp m m' :
  ownedBy cp m = Ret m' →
  isOwnedByCoderControlPlane m' cp = true ∧ key_of m' = key_of m ∧ Labels m' = Labels m ∧
  Annotations m' = Annotations m.
Proof.
  unfold ownedBy. destruct (SetControllerReference _ _ _ _) as [m1|e|e] eqn:H; intros [= <-].
  apply SetControllerReference_owner in H as (Hc & Hk & Hl & Ha & _).
  split_and!; [|done..]. unfold isOwnedByCoderControlPlane. rewrite Hc. cbn. by rewrite !String.eqb_refl.
Qed.

Lemma ownedBy_idem cp m m' : ownedBy cp m = Ret m' → ownedBy cp m' = Ret m'.
Proof.
  unfold ownedBy. destruct (SetControllerReference _ _ _ m) as [m1|e|e] eqn:H; intros [= <-].
  by rewrite (SetControllerReference_idem controlPlaneAPIVersion _ _ _ _ "coder.com" eq_refl H).
Qed.

(** The stored secret has the token, belongs to the control plane and is
    otherwise the one that was there. *)
Lemma token_secret_spec cp key token base secret :
  token_secret cp key token base = Ret secret →
  secret_Data secret = <[key := token]> (secret_Data base) ∧
  isOwnedByCoderControlPlane (secret_meta secret) cp = true ∧
  key_of (secret_meta secret) = key_of (secret_meta base).
Proof.
  unfold token_secret. intros H. inv_outcome H. by apply owned_by_spec in Hx as (? & ? & _).
Qed.

Section operator_access_properties.
Context {W : Type} (env : ∀ a : action, M W goerror (reply a)).
Implicit Types (st : kst W) (cp : CoderControlPlane).

#[local] Abbreviation secretName cp := (operatorAccessTokenSecretName (Some cp)).

(** The value of a secret of the control plane's namespace, as it was read. *)
Definition secret_value cp (name key value : string) : Prop :=
  value ≠ "" ∧ ∃ (secret : Secret) w w',
    env (AGet CachedReader KSecret (Namespace (cp_meta cp), name)) w = (Ret secret, w') ∧
    secret_Data secret !! key = Some value.

(** The database of the control plane: what its pods get as the connection URL,
    from the environment variable's value or the secret it refers to. *)
Definition postgres_url cp (url : string) : Prop := ∃ v,
  findEnvVar (ExtraEnv (cp_Spec cp)) postgresConnectionURLEnvVar = Ret (Some v) ∧
  (blank (env_Value v) = false ∧ url = trim_space (env_Value v) ∨
   blank (env_Value v) = true ∧ ∃ source ref, env_ValueFrom v = Some source ∧ SecretKeyRef source = Some ref ∧
     secret_value cp (sks_Name ref) (sks_Key ref) url).

Definition token_request cp (url existing : string) : EnsureOperatorTokenRequest := {|
  eot_PostgresURL := url; eot_OperatorUsername := defaultOperatorAccessUsername;
  eot_OperatorEmail := defaultOperatorAccessEmail; eot_TokenName := operatorAccessDatabaseTokenName (Some cp);
  eot_TokenLifetime := defaultOperatorAccessTokenLifetime; eot_ExistingToken := existing |}.
Definition revocation_request cp (url : string) : RevokeOperatorTokenRequest := {|
  rot_PostgresURL := url; rot_OperatorUsername := defaultOperatorAccessUsername;
  rot_TokenName := operatorAccessDatabaseTokenName (Some cp) |}.

(** The token the database's answer holds, asked about the one in the secret. *)
Definition token_known cp (existing : string) : Prop :=
  existing = "" ∨ secret_value cp (secretName cp) DefaultTokenSecretKey existing.
Definition token_given cp (token : string) : Prop := ∃ url existing w w',
  postgres_url cp url ∧ token_known cp existing ∧ token ≠ "" ∧
  env (AEnsureOperatorToken (token_request cp url existing)) w = (Ret token, w').

(** The calls operator access may make: secrets of the control plane's
    namespace are read; the only secret written is the token secret, with a
    token that was given for this control plane, owned by it; a secret is
    deleted only if it is the control plane's own and access is disabled; only
    the control plane's own database is asked, about the operator's user and the
    token of this control plane. *)
Inductive access_call cp : action → Prop :=
  | access_read name : access_call cp (AGet CachedReader KSecret (Namespace (cp_meta cp), name))
  | access_write token a : token_given cp token → oa_Disabled (OperatorAccess (cp_Spec cp)) = false →
      written KSecret {| secret_meta := meta_of_key (Namespace (cp_meta cp), secretName cp);
                         secret_Type := ""; secret_Data := ∅ |}
        (token_secret cp DefaultTokenSecretKey token) a → access_call cp a
  | access_delete secret : isOwnedByCoderControlPlane (secret_meta secret) cp = true →
      oa_Disabled (OperatorAccess (cp_Spec cp)) = true → access_call cp (ADelete KSecret secret)
  | access_ensure url existing : postgres_url cp url → token_known cp existing →
      oa_Disabled (OperatorAccess (cp_Spec cp)) = false →
      access_call cp (AEnsureOperatorToken (token_request cp url existing))
  | access_revoke url : postgres_url cp url → oa_Disabled (OperatorAccess (cp_Spec cp)) = true →
      access_call cp (ARevokeOperatorToken (revocation_request cp url)).

(** Reading a secret of the control plane's namespace is always allowed. *)
Lemma only_readSecretValue (P : action → Prop) ns name key :
  (∀ n, P (AGet CachedReader KSecret (ns, n))) → only P (readSecretValue env ns name key).
Proof. intros HP. unfold readSecretValue. solve_only. Qed.

Lemma readSecretValue_Ret ns name key st v st' :
  readSecretValue env ns name key st = (Ret v, st') →
  v ≠ "" ∧ ∃ (secret : Secret) w w',
    env (AGet CachedReader KSecret (ns, name)) w = (Ret secret, w') ∧ secret_Data secret !! key = Some v.
Proof.
  unfold readSecretValue. intros H. inv_run H.
  match goal with H : act _ _ _ = _ |- _ => inv_act H end.
  cbv zeta in H. destruct (secret_Data _ !! key) as [value|] eqn:Hv; [|discriminate H].
  destruct (String.eqb_spec value ""); [discriminate H|]. inv_run H. simplify_eq.
  split; [done|]. by eexists _, _, _.
Qed.

Lemma resolvePostgresURL_Ret cp st url st' :
  resolvePostgresURLFromExtraEnv env (Some cp) st = (Ret url, st') → postgres_url cp url.
Proof.
  unfold resolvePostgresURLFromExtraEnv. intros (v & s1 & [Hv _]%lift_Ret & H)%M_bind_Ret.
  destruct v as [v|]; [|discriminate H]. exists v. split; [done|].
  destruct (blank (env_Value v)); cbn [negb] in H; [|left; by apply mret_Ret in H as [-> _]].
  right. split; [done|]. destruct (env_ValueFrom v) as [source|]; [|discriminate H].
  destruct (SecretKeyRef source) as [ref|] eqn:Hr; [|discriminate H]. exists source, ref. do 2 (split; [done|]).
  apply M_bind_Ret in H as (u1 & s2 & _ & H). apply M_bind_Ret in H as (u2 & s3 & _ & H).
  by apply readSecretValue_Ret in H.
Qed.

(** The token that is in the secret, or none. *)
Lemma existing_token_Ret cp s1 s2 s3 s4 existing token :
  attempt (readSecretValue env (Namespace (cp_meta cp)) (secretName cp) DefaultTokenSecretKey) s1 = (Ret existing, s2) →
  (match existing with
   | inl token => mret token
   | inr err => if secret_missing err then mret ""
                else throw (Errorf "read operator token secret %q: %w" [FStr (secretName cp); FErrW err])
   end : reconciliation (W:=W) string) s3 = (Ret token, s4) → token_known cp token.
Proof.
  destruct existing as [t|err]; intros Hread H.
  - apply mret_Ret in H as [-> _]. right. by apply attempt_inl, readSecretValue_Ret in Hread.
  - destruct (secret_missing err); [|discriminate H]. apply mret_Ret in H as [-> _]. by left.
Qed.

Lemma only_resolvePostgresURL (P : action → Prop) cp :
  (∀ n, P (AGet CachedReader KSecret (Namespace (cp_meta cp), n))) →
  only P (resolvePostgresURLFromExtraEnv env (Some cp)).
Proof. intros HP. unfold resolvePostgresURLFromExtraEnv. solve_only; by apply only_readSecretValue. Qed.

Lemma only_cleanup r cp :
  oa_Disabled (OperatorAccess (cp_Spec cp)) = true →
  only (access_call cp) (cleanupDisabledOperatorAccess env r (Some cp)).
Proof.
  intros Hd. unfold cleanupDisabledOperatorAccess. cbv zeta.
  do 2 (apply only_bind; [apply only_guard|intros _]).
  apply only_bind; [solve_only; by constructor|intros found]. apply only_bind; [solve_only|intros secret].
  apply only_bind; [solve_only; by constructor|intros _].
  apply only_bind_run; [apply only_attempt, only_resolvePostgresURL; by constructor|].
  intros [url|err] s s' Hurl; [|solve_only]. apply attempt_inl, resolvePostgresURL_Ret in Hurl.
  apply only_bind; [apply only_guard|intros _]. apply only_map_err. only_call. by apply access_revoke.
Qed.

Lemma only_ensureOperatorAccess cp next :
  oa_Disabled (OperatorAccess (cp_Spec cp)) = false →
  only (access_call cp) (ensureOperatorAccess env (Some cp) cp next).
Proof.
  intros Hd. unfold ensureOperatorAccess. cbv zeta.
  apply only_bind; [apply only_guard|intros _]. apply only_bind; [apply only_guard|intros _].
  apply only_bind_run; [apply only_attempt, only_readSecretValue; constructor|intros existing s1 s2 Hread].
  apply only_bind_run; [solve_only|intros existingToken s3 s4 Hex].
  apply (existing_token_Ret _ _ _ _ _ _ _ Hread) in Hex.
  apply only_bind_run; [apply only_attempt, only_resolvePostgresURL; constructor|].
  intros [url|?] s5 s6 Hurl; [|apply only_ret]. apply attempt_inl, resolvePostgresURL_Ret in Hurl.
  apply only_bind_run; [apply only_attempt; only_call; by constructor|].
  intros [token|?] s7 s8 Hgiven; [|apply only_ret]. apply attempt_inl in Hgiven. inv_act Hgiven.
  apply only_bind_run; [apply only_guard|]. intros _ s9 s10 [Hne%String.eqb_neq _]%guard_err_Ret.
  apply only_bind; [|intros; apply only_ret]. unfold ensureOperatorTokenSecret.
  do 3 (apply only_bind; [apply only_guard|intros _]). apply only_bind; [apply only_map_err|intros; apply only_ret].
  eapply only_mono; [|apply CreateOrUpdate_only]. intros a Ha. eapply access_write; [|done|exact Ha].
  exists url, existingToken. by eexists _, _.
Qed.

(** What a call that returned means for the status: only the operator access
    fields change; access is ready exactly if the provisioner returned a token
    which is now stored in the control plane's own secret; and whenever access
    is wanted but not ready, or its removal is incomplete, it is tried again
    after the retry interval. *)
Definition access_outcome r cp (next : status) (res : Result) (next' : status) : Prop :=
  next' = set_operator_access (OperatorTokenSecretRef next') (OperatorAccessReady next') next ∧
  let ref := Some {| sks_Name := secretName cp; sks_Key := DefaultTokenSecretKey |} in
  let retry := requeue_after operatorAccessRetryInterval in
  if oa_Disabled (OperatorAccess (cp_Spec cp)) then
    OperatorAccessReady next' = false ∧
    (res = no_requeue ∧ OperatorTokenSecretRef next' = None ∨
     res = retry ∧ OperatorTokenSecretRef next' = ref)
  else if hasOperatorAccessProvisioner r then
    OperatorAccessReady next' = false ∧ OperatorTokenSecretRef next' = None ∧ res = retry ∨
    OperatorAccessReady next' = true ∧ OperatorTokenSecretRef next' = ref ∧ res = no_requeue ∧
    ∃ token final, token_given cp token ∧
      stored env KSecret {| secret_meta := meta_of_key (Namespace (cp_meta cp), secretName cp);
                            secret_Type := ""; secret_Data := ∅ |}
        (token_secret cp DefaultTokenSecretKey token) final
  else OperatorAccessReady next' = false ∧ OperatorTokenSecretRef next' = None ∧ res = no_requeue.

Lemma ensureOperatorAccess_Ret r cp next st res next' st' :
  oa_Disabled (OperatorAccess (cp_Spec cp)) = false → hasOperatorAccessProvisioner r = true →
  ensureOperatorAccess env (Some cp) cp next st = (Ret (res, next'), st') →
  access_outcome r cp next res next'.
Proof.
  intros Hd Hp. unfold ensureOperatorAccess, access_outcome. rewrite Hd, Hp.
  intros (u1 & s1 & _ & (u2 & s2 & _ & (existing & s3 & Hread & (old & s4 & Hold & H)%M_bind_Ret)%M_bind_Ret)%M_bind_Ret)%M_bind_Ret.
  apply (existing_token_Ret _ _ _ _ _ _ _ Hread) in Hold. apply M_bind_Ret in H as (resolved & s5 & Hurl & H).
  destruct resolved as [url|e]; [|inv_run H; simplify_eq; split; [done|by left]].
  apply attempt_inl, resolvePostgresURL_Ret in Hurl. apply M_bind_Ret in H as (provisioned & s6 & Hgiven & H).
  destruct provisioned as [token|e]; [|inv_run H; simplify_eq; split; [done|by left]].
  apply attempt_inl in Hgiven. inv_act Hgiven.
  apply M_bind_Ret in H as (u3 & s7 & [Hne%String.eqb_neq _]%guard_err_Ret & H).
  apply M_bind_Ret in H as (u4 & s8 & Hstored & H). inv_run H. simplify_eq. split; [done|right]. split_and!; [done..|].
  unfold ensureOperatorTokenSecret in Hstored. inv_run Hstored. exists token. eexists. split; [|by eapply CreateOrUpdate_Ret].
  exists url, old. by eexists _, _.
Qed.

Lemma only_reconcileOperatorAccess r cp next :
  only (access_call cp) (reconcileOperatorAccess env r (Some cp) (Some next)).
Proof.
  unfold reconcileOperatorAccess. destruct (oa_Disabled _) eqn:Hd.
  - apply only_bind; [by apply only_attempt, only_cleanup|intros [?|?]; solve_only].
  - destruct (hasOperatorAccessProvisioner r); cbn [negb]; [by apply only_ensureOperatorAccess|apply only_ret].
Qed.

Lemma reconcileOperatorAccess_Ret r cp next st res next' st' :
  reconcileOperatorAccess env r (Some cp) (Some next) st = (Ret (res, next'), st') →
  access_outcome r cp next res next'.
Proof.
  unfold reconcileOperatorAccess. destruct (oa_Disabled _) eqn:Hd.
  - intros H. unfold access_outcome. rewrite Hd. inv_run H. case_attempt H u e;
      inv_run H; simplify_eq; (split; [done|split; [done|]]); [by left|by right].
  - destruct (hasOperatorAccessProvisioner r) eqn:Hp; cbn [negb]; [by apply ensureOperatorAccess_Ret|].
    intros H. inv_run H. simplify_eq. unfold access_outcome. by rewrite Hd, Hp.
Qed.
End operator_access_properties.

(** the operator's access to a control plane is granted and withdrawn as
    the spec says, with nothing else touched: every call is one of
    [access_call] (a secret is only written under the token's name, owned by
    the control plane and with a token its database gave, and only deleted if it
    is the control plane's own and access is disabled; only the database the
    control plane itself uses is asked, and only about this control plane's
    token), and a call that returns leaves a status as in [access_outcome]:
    access is ready exactly if a token was provisioned and stored, and
    otherwise, where it is wanted, it is retried. *)
Theorem operator_access_contract {W} (env : ∀ a : action, M W goerror (reply a)) (r : reconciler)
    (cp : CoderControlPlane) (next : CoderControlPlaneStatus) (st : kst W) :
  let '(o, st') := reconcileOperatorAccess env r (Some cp) (Some next) st in
  (∃ acts, made acts st st' ∧ Forall (access_call env cp) acts) ∧
  ∀ res next', o = Ret (res, next') → access_outcome env r cp next res next'.
Proof.
  pose proof (only_reconcileOperatorAccess env r cp next st) as Hcalls.
  pose proof (reconcileOperatorAccess_Ret env r cp next st) as Hret.
  destruct (reconcileOperatorAccess _ _ _ _ _) as [o st']. split; [exact Hcalls|].
  intros res next' ->. by eapply Hret.
Qed.

End OperatorAccess.
