(* ===== verification/License.v ===== *)
(** * License: licenses and entitlements of a control plane

    [reconcileLicense] with the outcome of every answer of coderd, and
    [reconcileEntitlements] with the license tier, of
    internal/controller/codercontrolplane_controller.go. *)

From S2P Require Import Prelude GoStd GoStdFacts StringFacts Sha256 GoErrors ApiTypes Examples KubeObjects Kube ControlPlaneNames ControlPlaneStatus OperatorAccess.

#[local] Open Scope string_scope.
#[local] Open Scope list_scope.

Module License.
Import Sha256 ControlPlaneNames ControlPlaneStatus OperatorAccess.

#[local] Abbreviation status := CoderControlPlaneStatus.

Definition licenseConditionReasonApplied := "Applied".
Definition licenseConditionReasonPending := "Pending".
Definition licenseConditionReasonSecretMissing := "SecretMissing".
Definition licenseConditionReasonForbidden := "Forbidden".
Definition licenseConditionReasonNotSupported := "NotSupported".
Definition licenseConditionReasonError := "Error".

(** ** codersdk entitlements *)

Definition FeatureExternalProvisionerDaemons := "external_provisioner_daemons".
Definition FeatureCustomRoles := "custom_roles".
Definition FeatureMultipleOrganizations := "multiple_organizations".
Definition EntitlementEntitled := "entitled".
Definition EntitlementGracePeriod := "grace_period".
Definition EntitlementNotEntitled := "not_entitled".

Definition Entitled (e : string) : bool :=
  String.eqb e EntitlementEntitled || String.eqb e EntitlementGracePeriod.

(** Lookup in a map that may be nil. *)
Definition feature (e : Entitlements) (name : string) : option string :=
  features ← ent_Features e; features !! name.

Definition normalizedEntitlementValue (e : string) : string :=
  if existsb (String.eqb e) [EntitlementEntitled; EntitlementGracePeriod; EntitlementNotEntitled]
  then e else CoderControlPlaneEntitlementUnknown.

Definition externalProvisionerDaemonsEntitlement (e : Entitlements) : string :=
  match feature e FeatureExternalProvisionerDaemons with
  | None => CoderControlPlaneEntitlementUnknown
  | Some entitlement => normalizedEntitlementValue entitlement
  end.

Definition licenseTierFromEntitlements (e : Entitlements) : string :=
  if negb (ent_HasLicense e) then CoderControlPlaneLicenseTierNone
  else if ent_Trial e then CoderControlPlaneLicenseTierTrial
  else if existsb (λ name, match feature e name with Some f => Entitled f | None => false end)
            [FeatureCustomRoles; FeatureMultipleOrganizations]
  then CoderControlPlaneLicenseTierPremium
  else CoderControlPlaneLicenseTierEnterprise.

(** ** License uploads *)

Definition hashLicenseJWT (licenseJWT : string) : result string :=
  _ ← fail_if (String.eqb licenseJWT "") (assertion "assertion failed: license JWT must not be empty");
  mret (hex_of_words (Sum256 licenseJWT)).

Definition isDuplicateLicenseUploadError (err : goerror) : bool :=
  match as_sdk_error err with
  | None => false
  | Some sdkErr =>
      let message := to_lower (trim_space (sdk_Message sdkErr +:+ " " +:+ sdk_Detail sdkErr)) in
      if String.eqb message "" then false
      else contains "licenses_jwt_key" message || contains "duplicate key" message
           || contains "already exists" message
  end.

(** A token secret reference: its name and key, trimmed, the key by default
    [DefaultTokenSecretKey]. *)
Definition key_or_default (key default : string) : string :=
  let key := trim_space key in if String.eqb key "" then default else key.

Section license.
Context {W : Type} (env : ∀ a : action, M W goerror (reply a)) `{!HasClock W}.

#[local] Abbreviation step := (reconciliation (W:=W) (Result * status)).

(** [setControlPlaneCondition] for the LicenseApplied condition, then the
    return of [requeue]. *)
Definition conclude (cp : CoderControlPlane) (next : status) (st reason message : string) (requeue : Z)
    : step :=
  next ← setControlPlaneCondition (Some next) (Generation (cp_meta cp))
           CoderControlPlaneConditionLicenseApplied st reason message;
  mret (requeue_after requeue, next).

(** The branch taken on an error of coderd. *)
Definition rejected (cp : CoderControlPlane) (next : status) (err : goerror) (forbidden failed : string)
    : step :=
  let code := match as_sdk_error err with Some e => sdk_StatusCode e | None => 0%Z end in
  if Z.eqb code 404 then
    conclude cp next ConditionFalse licenseConditionReasonNotSupported
      "Control plane does not expose the Enterprise licenses API." 0
  else if Z.eqb code 401 || Z.eqb code 403 then
    conclude cp next ConditionFalse licenseConditionReasonForbidden forbidden operatorAccessRetryInterval
  else conclude cp next ConditionFalse licenseConditionReasonError failed operatorAccessRetryInterval.

(** The upload of the license, recorded in the status when coderd has it. *)
Definition uploadLicense (cp : CoderControlPlane) (next : status) (url token jwt hash : string) : step :=
  uploaded ← attempt (act env (AAddLicense url token jwt));
  let record message :=
    now ← Now;
    conclude cp (set_license (Some now) hash next) ConditionTrue licenseConditionReasonApplied message 0 in
  match uploaded with
  | inl _ => record "Configured license uploaded successfully."
  | inr err =>
      if isDuplicateLicenseUploadError err then record "Configured license already exists in coderd."
      else rejected cp next err "Operator token is not authorized to upload the configured license."
             "Failed to upload configured license; retrying."
  end.

(** The upload unless this very license was applied before and coderd still
    has a license. *)
Definition applyLicense (cp : CoderControlPlane) (next : status) (url token jwt : string) : step :=
  hash ← lift (hashLicenseJWT jwt);
  if negb (is_nil (LicenseLastApplied next)) && String.eqb (LicenseLastAppliedHash next) hash then
    asked ← attempt (act env (AHasAnyLicense url token));
    match asked with
    | inr err =>
        rejected cp next err "Operator token is not authorized to query configured licenses."
          "Failed to query existing licenses; retrying."
    | inl true =>
        conclude cp next ConditionTrue licenseConditionReasonApplied
          "Configured license is already applied." 0
    | inl false => uploadLicense cp next url token jwt hash
    end
  else uploadLicense cp next url token jwt hash.

(** Reading a secret, or the condition that it cannot be read. *)
Definition with_secret (cp : CoderControlPlane) (next : status) (name key missing failed : string)
    (f : string → step) : step :=
  read ← attempt (readSecretValue env (Namespace (cp_meta cp)) name key);
  match read with
  | inl value => f value
  | inr err =>
      if secret_missing err
      then conclude cp next ConditionFalse licenseConditionReasonSecretMissing missing
             operatorAccessRetryInterval
      else conclude cp next ConditionFalse licenseConditionReasonError failed operatorAccessRetryInterval
  end.

(** The license of a control plane that is ready and accessible. *)
Definition configuredLicense (cp : CoderControlPlane) (next : status)
    (licenseRef tokenRef : SecretKeySelector) : step :=
  let url := controlPlaneSDKURL (Some cp) in
  _ ← guard_err (blank url)
        (assertion "assertion failed: control plane SDK URL must not be empty when licenseSecretRef is configured");
  let tokenSecret := trim_space (sks_Name tokenRef) in
  _ ← guard_err (String.eqb tokenSecret "")
        (assertion "assertion failed: operator token secret name must not be empty when operator access is ready");
  with_secret cp next tokenSecret (key_or_default (sks_Key tokenRef) DefaultTokenSecretKey)
    "Operator token Secret is missing or incomplete; retrying license upload."
    "Failed to read operator token Secret; retrying license upload." (λ token,
    let licenseSecret := trim_space (sks_Name licenseRef) in
    _ ← guard_err (String.eqb licenseSecret "")
          (assertion "assertion failed: license secret name must not be empty when licenseSecretRef is configured");
    with_secret cp next licenseSecret (key_or_default (sks_Key licenseRef) DefaultLicenseSecretKey)
      "License Secret is missing or incomplete; retrying upload."
      "Failed to read license Secret; retrying upload." (λ value,
      let jwt := trim_space value in
      if String.eqb jwt "" then
        conclude cp next ConditionFalse licenseConditionReasonSecretMissing
          "License Secret value is empty after trimming whitespace." operatorAccessRetryInterval
      else applyLicense cp next url token jwt)).

Definition reconcileLicense (r : reconciler) (cp : option CoderControlPlane) (nextStatus : option status)
    : step :=
  match cp, nextStatus with
  | None, _ => throw (assertion "assertion failed: coder control plane must not be nil")
  | _, None => throw (assertion "assertion failed: next status must not be nil")
  | Some cp, Some next =>
      match LicenseSecretRef (cp_Spec cp) with
      | None =>
          conclude cp next ConditionUnknown licenseConditionReasonPending
            "License Secret reference is not configured." 0
      | Some licenseRef =>
          _ ← guard_err (negb (hasLicenseUploader r))
                (assertion "assertion failed: license uploader must not be nil when licenseSecretRef is configured");
          if negb (String.eqb (Phase next) CoderControlPlanePhaseReady) then
            conclude cp next ConditionFalse licenseConditionReasonPending
              "Waiting for control plane readiness before applying license." 0
          else match OperatorAccessReady next, OperatorTokenSecretRef next with
          | true, Some tokenRef => configuredLicense cp next licenseRef tokenRef
          | _, _ =>
              conclude cp next ConditionFalse licenseConditionReasonPending
                "Waiting for operator access credentials before applying license." 0
          end
      end
  end.

(** ** Entitlements *)

(** The refresh of the status from coderd's answer. *)
Definition refreshEntitlements (next : status) (e : Entitlements) : step :=
  let tier := licenseTierFromEntitlements e in
  let external := externalProvisionerDaemonsEntitlement e in
  stale ← match EntitlementsLastChecked next with
          | None => mret true
          | Some checked =>
              elapsed ← Since checked;
              mret ((elapsed <? 0) || (entitlementsStatusRefreshInterval <=? elapsed))%Z
          end;
  let refresh := stale || negb (String.eqb (LicenseTier next) tier)
                 || negb (String.eqb (ExternalProvisionerDaemonsEntitlement next) external) in
  checked ← (if refresh then now ← Now; mret (Some now) else mret (EntitlementsLastChecked next));
  requeueAfter ← match checked with
                 | None => mret entitlementsStatusRefreshInterval
                 | Some t =>
                     elapsed ← Since t;
                     mret (if (0 <=? elapsed) && (elapsed <? entitlementsStatusRefreshInterval)
                           then entitlementsStatusRefreshInterval - elapsed
                           else entitlementsStatusRefreshInterval)%Z
                 end;
  mret (requeue_after requeueAfter, set_entitlements tier checked external next).

Definition reconcileEntitlements (r : reconciler) (cp : option CoderControlPlane)
    (nextStatus : option status) : step :=
  match cp, nextStatus with
  | None, _ => throw (assertion "assertion failed: coder control plane must not be nil")
  | _, None => throw (assertion "assertion failed: next status must not be nil")
  | Some cp', Some next =>
      let tier := if blank (LicenseTier next) then CoderControlPlaneLicenseTierUnknown
                  else LicenseTier next in
      let external := if blank (ExternalProvisionerDaemonsEntitlement next)
                      then CoderControlPlaneEntitlementUnknown
                      else ExternalProvisionerDaemonsEntitlement next in
      let next := set_entitlements tier (EntitlementsLastChecked next) external next in
      match String.eqb (Phase next) CoderControlPlanePhaseReady && OperatorAccessReady next,
            OperatorTokenSecretRef next with
      | true, Some tokenRef =>
          let url := controlPlaneSDKURL cp in
          _ ← guard_err (blank url)
                (assertion "assertion failed: control plane SDK URL must not be empty when querying entitlements");
          if negb (hasEntitlementsInspector r) then mret (no_requeue, next)
          else
            let tokenSecret := trim_space (sks_Name tokenRef) in
            _ ← guard_err (String.eqb tokenSecret "")
                  (assertion "assertion failed: operator token secret name must not be empty when querying entitlements");
            read ← attempt (readSecretValue env (Namespace (cp_meta cp')) tokenSecret
                              (key_or_default (sks_Key tokenRef) DefaultTokenSecretKey));
            match read with
            | inr _ => mret (requeue_after operatorAccessRetryInterval, next)
            | inl token =>
                asked ← attempt (act env (AEntitlements url token));
                match asked with
                | inr _ => mret (requeue_after operatorAccessRetryInterval, next)
                | inl e =>
                    _ ← guard_err (is_nil (ent_Features e))
                          (assertion "assertion failed: entitlements features must not be nil");
                    refreshEntitlements next e
                end
            end
      | _, _ => mret (no_requeue, next)
      end
  end.
End license.

(** * Properties *)

Definition digest (jwt : string) : string := hex_of_words (Sum256 jwt).

Section license_properties.
Context {W : Type} (env : ∀ a : action, M W goerror (reply a)) `{!HasClock W}.
Implicit Types (st : kst W) (cp : CoderControlPlane) (next : status).

(** The configured license: the trimmed value of the secret the spec names. *)
Definition license_value cp (jwt : string) : Prop :=
  ∃ ref (secret : Secret) value w w', LicenseSecretRef (cp_Spec cp) = Some ref ∧
    env (AGet CachedReader KSecret (Namespace (cp_meta cp), trim_space (sks_Name ref))) w
      = (Ret secret, w') ∧
    secret_Data secret !! key_or_default (sks_Key ref) DefaultLicenseSecretKey = Some value ∧
    jwt = trim_space value ∧ jwt ≠ "".

(** The control plane can be asked: it is ready and the operator has access. *)
Definition reachable_plane next : Prop :=
  Phase next = CoderControlPlanePhaseReady ∧ OperatorAccessReady next = true.

(** The license was applied before, as far as the status knows. *)
Definition applied_before next (jwt : string) : Prop :=
  LicenseLastApplied next ≠ None ∧ LicenseLastAppliedHash next = digest jwt.

(** The token the status names, as it was read. *)
Definition operator_token cp next (token : string) : Prop := ∃ ref,
  OperatorTokenSecretRef next = Some ref ∧
  secret_value env cp (trim_space (sks_Name ref)) (key_or_default (sks_Key ref) DefaultTokenSecretKey) token.

(** The calls of [reconcileLicense]: secrets are read; coderd is asked only
    when it can be, with the operator's token, and about a license that was
    applied before; and a license is uploaded only if it is the configured one,
    and it was not applied before or coderd has lost it. *)
Inductive license_call cp next : action → Prop :=
  | license_read name : license_call cp next (AGet CachedReader KSecret (Namespace (cp_meta cp), name))
  | license_ask token jwt : reachable_plane next → operator_token cp next token → license_value cp jwt →
      applied_before next jwt → license_call cp next (AHasAnyLicense (controlPlaneSDKURL (Some cp)) token)
  | license_upload token jwt : reachable_plane next → operator_token cp next token → license_value cp jwt →
      (¬ applied_before next jwt ∨
       ∃ w w', env (AHasAnyLicense (controlPlaneSDKURL (Some cp)) token) w = (Ret false, w')) →
      license_call cp next (AAddLicense (controlPlaneSDKURL (Some cp)) token jwt).

Lemma only_setControlPlaneCondition P (o : option status) g ty s reason msg :
  only P (setControlPlaneCondition (W:=W) o g ty s reason msg).
Proof. unfold setControlPlaneCondition. solve_only. Qed.

Lemma only_conclude P cp next s reason msg d : only P (conclude (W:=W) cp next s reason msg d).
Proof. unfold conclude. apply only_bind; [apply only_setControlPlaneCondition|intros; apply only_ret]. Qed.
Hint Resolve only_conclude : calls.

Lemma only_rejected P cp next err f1 f2 : only P (rejected (W:=W) cp next err f1 f2).
Proof. unfold rejected. solve_only. Qed.
Hint Resolve only_rejected : calls.

Lemma only_uploadLicense (P : action → Prop) cp next url token jwt hash :
  P (AAddLicense url token jwt) → only P (uploadLicense env cp next url token jwt hash).
Proof. intros HP. unfold uploadLicense. solve_only. Qed.

Lemma hashLicenseJWT_Ret jwt h : hashLicenseJWT jwt = Ret h → h = digest jwt.
Proof. unfold hashLicenseJWT. intros H. by inv_outcome H. Qed.

Lemma only_applyLicense cp next token jwt :
  reachable_plane next → operator_token cp next token → license_value cp jwt →
  only (license_call cp next) (applyLicense env cp next (controlPlaneSDKURL (Some cp)) token jwt).
Proof.
  intros Hr Ht Hv. unfold applyLicense. apply only_bind_run; [apply only_lift|].
  intros hash s s' [Hh _]%lift_Ret. apply hashLicenseJWT_Ret in Hh as ->.
  destruct (negb _ && _) eqn:Happ.
  - assert (applied_before next jwt) as Hb.
    { apply andb_true_iff in Happ as [Hn%negb_true_iff%is_nil_false Hh%String.eqb_eq].
      split; [destruct Hn as [? ->]; done|done]. }
    apply only_bind_run; [apply only_attempt; only_call; by econstructor|].
    intros [[]|err] s1 s2 Hask; [auto with calls| |auto with calls].
    apply only_uploadLicense, license_upload; [done..|right].
    apply attempt_inl in Hask. inv_act Hask. by eexists _, _.
  - apply only_uploadLicense, license_upload; [done..|left]. intros [Hn Hh].
    apply andb_false_iff in Happ as [Happ|Happ%String.eqb_neq]; [|done].
    by destruct (LicenseLastApplied next).
Qed.

Lemma only_with_secret (P : action → Prop) cp next name key m1 m2 f :
  (∀ n, P (AGet CachedReader KSecret (Namespace (cp_meta cp), n))) →
  (∀ v, secret_value env cp name key v → only P (f v)) →
  only P (with_secret env cp next name key m1 m2 f).
Proof.
  intros HP Hf. unfold with_secret.
  apply only_bind_run; [by apply only_attempt, only_readSecretValue|].
  intros [v|err] s s' H; [|solve_only].
  by apply attempt_inl, readSecretValue_Ret in H; apply Hf.
Qed.

Lemma only_reconcileLicense r cp next :
  only (license_call cp next) (reconcileLicense env r (Some cp) (Some next)).
Proof.
  unfold reconcileLicense. destruct (LicenseSecretRef (cp_Spec cp)) as [ref|] eqn:Href; [|auto with calls].
  apply only_bind; [apply only_guard|intros _].
  destruct (String.eqb_spec (Phase next) CoderControlPlanePhaseReady) as [Hphase|]; cbn [negb]; [|auto with calls].
  destruct (OperatorAccessReady next) eqn:Hready; [|auto with calls].
  destruct (OperatorTokenSecretRef next) as [tokenRef|] eqn:Htoken; [|auto with calls].
  unfold configuredLicense. cbv zeta. do 2 (apply only_bind; [apply only_guard|intros _]).
  apply only_with_secret; [constructor|intros token Ht].
  apply only_bind; [apply only_guard|intros _].
  apply only_with_secret; [constructor|intros value (_ & secret & w & w' & Hget & Hval)].
  destruct (String.eqb_spec (trim_space value) ""); [auto with calls|].
  apply only_applyLicense; [done|by exists tokenRef|]. by exists ref, secret, value, w, w'.
Qed.

(** A return with the LicenseApplied condition set on [base]. *)
Definition concluded cp (base : status) (s reason : string) (requeue : Z) (res : Result) (next' : status)
    : Prop :=
  res = requeue_after requeue ∧ ∃ t msg, next' = set_conditions (SetStatusCondition t (Conditions base)
    (new_condition (Generation (cp_meta cp)) CoderControlPlaneConditionLicenseApplied s reason msg)) base.

(** coderd confirmed that it has the license. *)
Definition confirmed cp (jwt : string) : Prop :=
  ∃ token w w', env (AAddLicense (controlPlaneSDKURL (Some cp)) token jwt) w = (Ret tt, w') ∨
    ∃ e, env (AAddLicense (controlPlaneSDKURL (Some cp)) token jwt) w = (Err e, w') ∧
      isDuplicateLicenseUploadError e = true.

(** What a return of [reconcileLicense] means: there is nothing to apply or it
    cannot be applied yet; something failed and is retried; coderd has no
    license API; coderd still has a license and the configured one was applied
    before; or coderd has just confirmed the configured license, which is
    recorded with its digest. *)
Inductive license_outcome cp next : Result → status → Prop :=
  | outcome_unconfigured res next' : LicenseSecretRef (cp_Spec cp) = None →
      concluded cp next ConditionUnknown licenseConditionReasonPending 0 res next' →
      license_outcome cp next res next'
  | outcome_waiting res next' : ¬ (reachable_plane next ∧ OperatorTokenSecretRef next ≠ None) →
      concluded cp next ConditionFalse licenseConditionReasonPending 0 res next' →
      license_outcome cp next res next'
  | outcome_retry reason res next' :
      reason ∈ [licenseConditionReasonSecretMissing; licenseConditionReasonForbidden;
                licenseConditionReasonError] →
      concluded cp next ConditionFalse reason operatorAccessRetryInterval res next' →
      license_outcome cp next res next'
  | outcome_unsupported res next' :
      concluded cp next ConditionFalse licenseConditionReasonNotSupported 0 res next' →
      license_outcome cp next res next'
  | outcome_kept jwt token w w' res next' : license_value cp jwt → applied_before next jwt →
      env (AHasAnyLicense (controlPlaneSDKURL (Some cp)) token) w = (Ret true, w') →
      concluded cp next ConditionTrue licenseConditionReasonApplied 0 res next' →
      license_outcome cp next res next'
  | outcome_applied jwt t res next' : license_value cp jwt → confirmed cp jwt →
      concluded cp (set_license (Some t) (digest jwt) next) ConditionTrue licenseConditionReasonApplied 0
        res next' →
      license_outcome cp next res next'.

Lemma conclude_Ret cp base s reason msg d st res next' st' :
  conclude (W:=W) cp base s reason msg d st = (Ret (res, next'), st') →
  concluded cp base s reason d res next'.
Proof.
  unfold conclude, setControlPlaneCondition, concluded. intros H. inv_run H. simplify_eq.
  split; [done|]. by eexists _, _.
Qed.

Lemma rejected_Ret cp next err f1 f2 st res next' st' :
  rejected (W:=W) cp next err f1 f2 st = (Ret (res, next'), st') → license_outcome cp next res next'.
Proof.
  unfold rejected. cbv zeta. intros H.
  destruct (Z.eqb _ 404); [apply conclude_Ret in H; by eapply outcome_unsupported|].
  destruct (_ || _); apply conclude_Ret in H; (eapply outcome_retry; [|exact H]); set_solver.
Qed.

Lemma uploadLicense_Ret cp next token jwt st res next' st' :
  license_value cp jwt →
  uploadLicense env cp next (controlPlaneSDKURL (Some cp)) token jwt (digest jwt) st = (Ret (res, next'), st') →
  license_outcome cp next res next'.
Proof.
  intros Hv. unfold uploadLicense. intros H. inv_run H.
  destruct a as [[]|err].
  - apply attempt_inl in Hrun. inv_act Hrun. inv_run H. apply conclude_Ret in H.
    eapply outcome_applied; [exact Hv| |exact H]. eexists token, _, _. by left.
  - apply attempt_inr in Hrun. destruct (isDuplicateLicenseUploadError err) eqn:Hdup.
    + inv_run H. apply conclude_Ret in H. eapply outcome_applied; [exact Hv| |exact H].
      unfold act in Hrun. destruct (env _ (k_world st)) as [o w] eqn:Henv. simplify_eq.
      eexists token, _, _. right. by exists err.
    + by apply rejected_Ret in H.
Qed.

Lemma applyLicense_Ret cp next token jwt st res next' st' :
  license_value cp jwt →
  applyLicense env cp next (controlPlaneSDKURL (Some cp)) token jwt st = (Ret (res, next'), st') →
  license_outcome cp next res next'.
Proof.
  intros Hv. unfold applyLicense. intros (hash & s & Hh & H)%M_bind_Ret.
  apply lift_Ret in Hh as [Hh ->]. apply hashLicenseJWT_Ret in Hh as ->.
  destruct (negb _ && _) eqn:Happ; [|by eapply uploadLicense_Ret].
  apply andb_true_iff in Happ as [Hn%negb_true_iff%is_nil_false Hh%String.eqb_eq].
  inv_run H. destruct a as [[]|err]; [..|by apply rejected_Ret in H].
  - apply attempt_inl in Hrun. inv_act Hrun. apply conclude_Ret in H.
    eapply outcome_kept; [exact Hv| |exact Hrun|exact H]. split; [destruct Hn as [? ->]; done|done].
  - by eapply uploadLicense_Ret.
Qed.

Lemma with_secret_Ret cp next name key m1 m2 f st res next' st' :
  with_secret env cp next name key m1 m2 f st = (Ret (res, next'), st') →
  (∃ v (secret : Secret) w w' s, env (AGet CachedReader KSecret (Namespace (cp_meta cp), name)) w
     = (Ret secret, w') ∧ secret_Data secret !! key = Some v ∧ f v s = (Ret (res, next'), st')) ∨
  license_outcome cp next res next'.
Proof.
  unfold with_secret. intros H. inv_run H. case_attempt H v e.
  - left. apply attempt_inl, readSecretValue_Ret in Hrun as (_ & secret & w & w' & Hg & Hv).
    by exists v, secret, w, w', s.
  - right. destruct (secret_missing e); apply conclude_Ret in H; (eapply outcome_retry; [|exact H]); set_solver.
Qed.

Lemma reconcileLicense_Ret r cp next st res next' st' :
  reconcileLicense env r (Some cp) (Some next) st = (Ret (res, next'), st') → license_outcome cp next res next'.
Proof.
  unfold reconcileLicense. destruct (LicenseSecretRef (cp_Spec cp)) as [ref|] eqn:Href;
    [|intros H%conclude_Ret; by eapply outcome_unconfigured].
  intros (u & s & _ & H)%M_bind_Ret. clear u.
  assert (∀ s reason msg st0 st1, conclude (W:=W) cp next s reason msg 0 st0 = (Ret (res, next'), st1) →
    s = ConditionFalse → reason = licenseConditionReasonPending →
    ¬ (reachable_plane next ∧ OperatorTokenSecretRef next ≠ None) → license_outcome cp next res next') as Hwait.
  { intros ? ? msg st0 st1 Hc%conclude_Ret -> -> Hn. by eapply outcome_waiting. }
  destruct (String.eqb_spec (Phase next) CoderControlPlanePhaseReady) as [Hphase|Hphase]; cbn [negb] in H.
  2: { eapply Hwait; [exact H|done|done|]. by intros [[? _] _]. }
  destruct (OperatorAccessReady next) eqn:Hready.
  2: { eapply Hwait; [exact H|done|done|]. intros [[_ ?] _]. congruence. }
  destruct (OperatorTokenSecretRef next) as [tokenRef|] eqn:Hsome.
  2: { eapply Hwait; [exact H|done|done|]. intros [_ ?]. congruence. }
  unfold configuredLicense in H. cbv zeta in H.
  apply M_bind_Ret in H as (u1 & s1 & _ & H). apply M_bind_Ret in H as (u2 & s2 & _ & H).
  apply with_secret_Ret in H as [(token & _ & _ & _ & s3 & _ & _ & H)|H]; [|exact H].
  apply M_bind_Ret in H as (u3 & s4 & _ & H).
  apply with_secret_Ret in H as [(value & secret & w & w' & s5 & Hget & Hval & H)|H]; [|exact H].
  destruct (String.eqb_spec (trim_space value) "").
  { apply conclude_Ret in H. eapply outcome_retry; [|exact H]. set_solver. }
  eapply applyLicense_Ret; [|exact H]. by exists ref, secret, value, w, w'.
Qed.

(** *** At most one upload *)

Definition is_upload (a : action) : bool := match a with AAddLicense _ _ _ => true | _ => false end.

#[local] Abbreviation one_upload m := (at_most (W:=W) is_upload 1 m).

Lemma one_upload_none {A} (m : reconciliation (W:=W) A) : only (λ a, is_upload a = false) m → one_upload m.
Proof. intros H. apply (at_most_mono _ 0); [lia|by apply at_most_only]. Qed.

Lemma one_upload_bind {A B} (m : reconciliation (W:=W) A) (f : A → reconciliation (W:=W) B) :
  only (λ a, is_upload a = false) m → (∀ a, one_upload (f a)) → one_upload (m ≫= f).
Proof. intros Hm Hf. apply (at_most_bind _ 0 1); [by apply at_most_only|done]. Qed.

Lemma one_upload_uploadLicense cp next url token jwt hash :
  one_upload (uploadLicense env cp next url token jwt hash).
Proof.
  apply (at_most_bind _ 1 0); [apply at_most_attempt; refine (at_most_act env _ _)|].
  intros [[]|err]; apply at_most_only; solve_only.
Qed.

Lemma one_upload_applyLicense cp next url token jwt : one_upload (applyLicense env cp next url token jwt).
Proof.
  apply one_upload_bind; [apply only_lift|intros hash]. destruct (_ && _); [|apply one_upload_uploadLicense].
  apply one_upload_bind; [by apply only_attempt; only_call|intros [[]|err]];
    [apply one_upload_none; solve_only|apply one_upload_uploadLicense|apply one_upload_none; solve_only].
Qed.

Lemma one_upload_with_secret cp next name key m1 m2 f :
  (∀ v, one_upload (f v)) → one_upload (with_secret env cp next name key m1 m2 f).
Proof.
  intros Hf. apply one_upload_bind; [by apply only_attempt, only_readSecretValue|intros [v|err]]; [apply Hf|].
  apply one_upload_none. solve_only.
Qed.

Lemma one_upload_reconcileLicense r cp next : one_upload (reconcileLicense env r (Some cp) (Some next)).
Proof.
  unfold reconcileLicense. destruct (LicenseSecretRef (cp_Spec cp)) as [ref|];
    [|apply one_upload_none; solve_only].
  apply one_upload_bind; [apply only_guard|intros _].
  destruct (negb _); [apply one_upload_none; solve_only|].
  destruct (OperatorAccessReady next); [|apply one_upload_none; solve_only].
  destruct (OperatorTokenSecretRef next) as [tokenRef|]; [|apply one_upload_none; solve_only].
  unfold configuredLicense. cbv zeta. do 2 (apply one_upload_bind; [apply only_guard|intros _]).
  apply one_upload_with_secret. intros token. apply one_upload_bind; [apply only_guard|intros _].
  apply one_upload_with_secret. intros value.
  destruct (String.eqb _ ""); [apply one_upload_none; solve_only|apply one_upload_applyLicense].
Qed.

(** *** Entitlements *)

(** What [reconcileEntitlements] keeps of the status where coderd gives no
    answer: unknown values are named so. *)
Definition or_unknown (s : string) : string := if blank s then "unknown" else s.

(** The last check is older than the refresh interval, or in the future. *)
Definition stale_check (t : time) : Prop :=
  ∃ w : W, let elapsed := Z.max int64_min (Z.min int64_max ((tick w).1 - t)) in
    (elapsed < 0 ∨ entitlementsStatusRefreshInterval ≤ elapsed)%Z.

(** The time of the check that is recorded: the last one while it is fresh and
    the answer is the one known, else the current one. *)
Definition check_time next (tier external : string) (checked : option time) : Prop :=
  let same := LicenseTier next = tier ∧ ExternalProvisionerDaemonsEntitlement next = external in
  checked = EntitlementsLastChecked next ∧ checked ≠ None ∧ same ∨
  (∃ w : W, checked = Some (tick w).1) ∧
    (EntitlementsLastChecked next = None ∨ ¬ same ∨
     ∃ t, EntitlementsLastChecked next = Some t ∧ stale_check t).

(** What a return of [reconcileEntitlements] means.  The status changes in the
    entitlement fields only; they hold coderd's answer, with the time of the
    check moved on only when the answer changed or the last check is stale; and
    the next check is at most two minutes away. *)
Definition entitlements_outcome next (res : Result) (next' : status) : Prop :=
  next' = set_entitlements (or_unknown (LicenseTier next)) (EntitlementsLastChecked next)
            (or_unknown (ExternalProvisionerDaemonsEntitlement next)) next ∧
    RequeueAfter res ∈ [0%Z; operatorAccessRetryInterval] ∨
  ∃ e url token w w' checked,
    env (AEntitlements url token) w = (Ret e, w') ∧ reachable_plane next ∧ ent_Features e ≠ None ∧
    next' = set_entitlements (licenseTierFromEntitlements e) checked
              (externalProvisionerDaemonsEntitlement e) next ∧
    check_time (set_entitlements (or_unknown (LicenseTier next)) (EntitlementsLastChecked next)
                  (or_unknown (ExternalProvisionerDaemonsEntitlement next)) next)
      (licenseTierFromEntitlements e) (externalProvisionerDaemonsEntitlement e) checked ∧
    (0 < RequeueAfter res ≤ entitlementsStatusRefreshInterval)%Z.

(** Coderd is only asked when it can be, with the operator's token. *)
Inductive entitlements_call cp next : action → Prop :=
  | entitlements_read name : entitlements_call cp next (AGet CachedReader KSecret (Namespace (cp_meta cp), name))
  | entitlements_ask token : reachable_plane next → operator_token cp next token →
      entitlements_call cp next (AEntitlements (controlPlaneSDKURL (Some cp)) token).

Lemma only_refreshEntitlements P next e : only P (refreshEntitlements (W:=W) next e).
Proof. unfold refreshEntitlements, Since. solve_only. Qed.

Lemma only_reconcileEntitlements r cp next :
  only (entitlements_call cp next) (reconcileEntitlements env r (Some cp) (Some next)).
Proof.
  unfold reconcileEntitlements. cbv zeta. cbn [Phase OperatorAccessReady OperatorTokenSecretRef set_entitlements].
  destruct (String.eqb (Phase next) _ && _) eqn:Hready; [|apply only_ret].
  assert (reachable_plane next) as Hr by (by apply andb_true_iff in Hready as [?%String.eqb_eq ?]).
  destruct (OperatorTokenSecretRef next) as [ref|] eqn:Href; [|apply only_ret].
  apply only_bind; [apply only_guard|intros _]. destruct (negb _); [apply only_ret|].
  apply only_bind; [apply only_guard|intros _].
  apply only_bind_run; [apply only_attempt, only_readSecretValue; constructor|intros [token|?] s s' Ht]; [|apply only_ret].
  apply attempt_inl, readSecretValue_Ret in Ht.
  apply only_bind; [apply only_attempt; only_call; constructor; [done|by exists ref]|intros [e|?]]; [|apply only_ret].
  apply only_bind; [apply only_guard|intros _]. apply only_refreshEntitlements.
Qed.

Lemma Now_Ret st t st' :
  Now (W:=W) st = (Ret t, st') → t = (tick (k_world st)).1.
Proof. unfold Now. destruct (tick (k_world st)). by intros [= ->]. Qed.

Lemma refreshEntitlements_Ret next e st res next' st' :
  refreshEntitlements (W:=W) next e st = (Ret (res, next'), st') →
  ∃ checked, next' = set_entitlements (licenseTierFromEntitlements e) checked
              (externalProvisionerDaemonsEntitlement e) next ∧
    check_time next (licenseTierFromEntitlements e) (externalProvisionerDaemonsEntitlement e) checked ∧
    (0 < RequeueAfter res ≤ entitlementsStatusRefreshInterval)%Z.
Proof.
  unfold refreshEntitlements. cbv zeta.
  intros (stale & s1 & Hstale & (checked & s2 & Hchecked & (d & s3 & Hd & H)%M_bind_Ret)%M_bind_Ret)%M_bind_Ret.
  inv_run H. simplify_eq. exists checked. split; [done|]. split.
  - clear Hd. unfold check_time. cbv zeta. destruct (_ || _ || _) eqn:Href in Hchecked; inv_run Hchecked.
    + right. apply Now_Ret in Hrun as ->. split; [by eexists|].
      apply orb_true_iff in Href as [[Hs|Ht]%orb_true_iff|Ht].
      * destruct (EntitlementsLastChecked next) as [t|]; [right; right|by left].
        exists t. split; [done|]. inv_run Hstale. unfold Since in Hrun. inv_run Hrun.
        apply Now_Ret in Hrun0 as ->. exists (k_world st). cbv zeta.
        apply orb_true_iff in Hs as [?%Z.ltb_lt|?%Z.leb_le]; [by left|by right].
      * right; left. intros [Heq _]. by rewrite Heq, String.eqb_refl in Ht.
      * right; left. intros [_ Heq]. by rewrite Heq, String.eqb_refl in Ht.
    + left. apply orb_false_iff in Href as [[Hs Ht%negb_false_iff%String.eqb_eq]%orb_false_iff
        He%negb_false_iff%String.eqb_eq].
      split_and!; [done| |done|done]. destruct (EntitlementsLastChecked next); [done|].
      inv_run Hstale. by simplify_eq.
  - unfold entitlementsStatusRefreshInterval, second in *. cbn [RequeueAfter requeue_after].
    destruct checked as [t|]; inv_run Hd; [|lia].
    destruct (_ && _) eqn:Hc; [|lia]. bool_simpl. lia.
Qed.

Lemma reconcileEntitlements_Ret r cp next st res next' st' :
  reconcileEntitlements env r (Some cp) (Some next) st = (Ret (res, next'), st') →
  entitlements_outcome next res next'.
Proof.
  unfold reconcileEntitlements, entitlements_outcome. cbv zeta.
  change (if blank (LicenseTier next) then _ else _) with (or_unknown (LicenseTier next)).
  change (if blank (ExternalProvisionerDaemonsEntitlement next) then _ else _)
    with (or_unknown (ExternalProvisionerDaemonsEntitlement next)).
  set (next1 := set_entitlements _ _ _ next).
  change (Phase next1) with (Phase next). change (OperatorAccessReady next1) with (OperatorAccessReady next).
  change (OperatorTokenSecretRef next1) with (OperatorTokenSecretRef next).
  assert (∀ d s, d ∈ [0%Z; operatorAccessRetryInterval] →
    (mret (requeue_after d, next1) : reconciliation (W:=W) _) s = (Ret (res, next'), st') →
    next' = next1 ∧ RequeueAfter res ∈ [0%Z; operatorAccessRetryInterval]) as Hkeep.
  { intros d s Hd H. inv_run H. by simplify_eq. }
  destruct (String.eqb (Phase next) CoderControlPlanePhaseReady && OperatorAccessReady next) eqn:Hready.
  2: { intros H. left. apply (Hkeep 0%Z st); [set_solver|exact H]. }
  destruct (OperatorTokenSecretRef next) as [tokenRef|].
  2: { intros H. left. apply (Hkeep 0%Z st); [set_solver|exact H]. }
  intros (u & s & _ & H)%M_bind_Ret. destruct (negb (hasEntitlementsInspector r)).
  { left. apply (Hkeep 0%Z s); [set_solver|exact H]. }
  apply M_bind_Ret in H as (u1 & s1 & _ & H). apply M_bind_Ret in H as (rd & s2 & _ & H).
  case_attempt H token err; [|left; eapply Hkeep; [|exact H]; set_solver].
  apply M_bind_Ret in H as (asked & s3 & Hask & H).
  case_attempt H e err; [|left; eapply Hkeep; [|exact H]; set_solver].
  apply attempt_inl in Hask. inv_act Hask.
  apply M_bind_Ret in H as (u2 & s4 & [Hf%is_nil_false _]%guard_err_Ret & H).
  apply refreshEntitlements_Ret in H as (checked & -> & Hck & Hd). right.
  exists e. eexists _, token, _, _, checked. split_and!; [exact Hask|..|done|exact Hck|lia|lia].
  - by apply andb_true_iff in Hready as [?%String.eqb_eq ?].
  - by destruct Hf as [? ->].
Qed.
End license_properties.

(** a license is uploaded exactly when it has to be, and the status tells
    the truth about it.  Every call of [reconcileLicense] is one of
    [license_call] (in particular: only the trimmed value of the configured
    secret is ever uploaded, only to a control plane that is ready and
    accessible, with the operator's token, and only if that very license was not applied before or coderd
    has lost it), at most one license is uploaded, and what is returned is a
    [license_outcome]: the condition says Applied only if coderd confirmed the
    configured license or has kept it, the digest recorded is that of a
    confirmed license, and every failure that can pass is retried. *)
Theorem license_contract {W} (env : ∀ a : action, M W goerror (reply a)) `{!HasClock W} (r : reconciler)
    (cp : CoderControlPlane) (next : CoderControlPlaneStatus) (st : kst W) :
  let '(o, st') := reconcileLicense env r (Some cp) (Some next) st in
  (∃ acts, made acts st st' ∧ Forall (license_call env cp next) acts ∧
     (length (List.filter is_upload acts) ≤ 1)%nat) ∧
  ∀ res next', o = Ret (res, next') → license_outcome env cp next res next'.
Proof.
  pose proof (only_reconcileLicense env r cp next st) as (acts & Hm & Hall).
  pose proof (one_upload_reconcileLicense env r cp next st) as (acts' & Hm' & Hcount).
  pose proof (reconcileLicense_Ret env r cp next st) as Hret.
  destruct (reconcileLicense _ _ _ _ _) as [o st']. split.
  - exists acts. assert (acts' = acts) as ->; [|done]. unfold made in *. rewrite Hm in Hm'.
    by apply app_inv_head in Hm'.
  - intros res next' ->. by eapply Hret.
Qed.

(** the entitlement fields of the status are coderd's answer, and are
    refreshed in time: coderd is asked only when it is ready and accessible, and
    every return of [reconcileEntitlements] is an [entitlements_outcome]. *)
Theorem entitlements_contract {W} (env : ∀ a : action, M W goerror (reply a)) `{!HasClock W}
    (r : reconciler) (cp : CoderControlPlane) (next : CoderControlPlaneStatus) (st : kst W) :
  let '(o, st') := reconcileEntitlements env r (Some cp) (Some next) st in
  (∃ acts, made acts st st' ∧ Forall (entitlements_call env cp next) acts) ∧
  ∀ res next', o = Ret (res, next') → entitlements_outcome env next res next'.
Proof.
  pose proof (only_reconcileEntitlements env r cp next st) as Hcalls.
  pose proof (reconcileEntitlements_Ret env r cp next st) as Hret.
  destruct (reconcileEntitlements _ _ _ _ _) as [o st']. split; [exact Hcalls|].
  intros res next' ->. by eapply Hret.
Qed.

End License.
