(* ===== verification/ServiceAccounts.v ===== *)
(** * ServiceAccounts: the service account of a control plane

    [reconcileServiceAccount] and [detachManagedServiceAccounts] of
    internal/controller/codercontrolplane_controller.go. *)

From S2P Require Import Prelude GoStd GoStdFacts StringFacts GoErrors ApiTypes Examples KubeObjects Kube ControlPlaneNames ControlPlaneStatus OperatorAccess.

#[local] Open Scope string_scope.
#[local] Open Scope list_scope.

Module ServiceAccounts.
Import ControlPlaneNames ControlPlaneStatus OperatorAccess.

(** The mutation of the service account. *)
Definition service_account (cp : CoderControlPlane) (o : ServiceAccountObject)
    : result ServiceAccountObject :=
  let spec := ServiceAccount (cp_Spec cp) in
  m ← ownedBy cp (set_annotations (sa_Annotations spec)
        (set_labels (sa_Labels spec ∪ controlPlaneLabels (Name (cp_meta cp))) (sao_meta o)));
  mret {| sao_meta := m |}.

Definition nil_cp {A W} : reconciliation (W:=W) A :=
  throw (assertion "assertion failed: coder control plane must not be nil").

(** [fmt.Errorf(format, namespace, name, err)] *)
Definition wrap_key (format namespace name : string) (err : goerror) : goerror :=
  Errorf format [FStr namespace; FStr name; FErrW err].

Section service_accounts.
Context {W : Type} (env : ∀ a : action, M W goerror (reply a)).

(** The body of the loop over the service accounts. *)
Definition detachServiceAccount (cp : CoderControlPlane) (_ : ()) (o : ServiceAccountObject)
    : reconciliation (W:=W) () :=
  let m := sao_meta o in
  if negb (isOwnedByCoderControlPlane m cp) then mret tt
  else
    m' ← map_err (wrap_key "remove controller reference from service account %s/%s: %w"
                    (Namespace m) (Name m))
           (lift (RemoveControllerReference controlPlaneAPIVersion controlPlaneKind (cp_meta cp) m));
    if bool_decide (OwnerReferences m = OwnerReferences m') then mret tt
    else
      _ ← map_err (wrap_key "patch detached service account %s/%s: %w" (Namespace m) (Name m))
            (act env (APatch KServiceAccount o {| sao_meta := m' |}));
      mret tt.

Definition detachManagedServiceAccounts (cp : option CoderControlPlane) : reconciliation (W:=W) () :=
  match cp with
  | None => nil_cp
  | Some cp =>
      accounts ← map_err (λ err, Errorf "list service accounts for detachment: %w" [FErrW err])
                   (act env (AList KServiceAccount (Namespace (cp_meta cp)) ∅));
      mfor (detachServiceAccount cp) tt (accounts : list ServiceAccountObject)
  end.

Definition reconcileServiceAccount (cp : option CoderControlPlane) : reconciliation (W:=W) () :=
  match cp with
  | None => nil_cp
  | Some cp' =>
      if sa_DisableCreate (ServiceAccount (cp_Spec cp')) then detachManagedServiceAccounts cp
      else
        let name := resolveServiceAccountName cp' in
        _ ← guard_err (blank name) (assertion "assertion failed: service account name must not be empty");
        _ ← map_err (λ err, Errorf "reconcile control plane serviceaccount: %w" [FErrW err])
              (CreateOrUpdate env KServiceAccount
                 {| sao_meta := meta_of_key (Namespace (cp_meta cp'), name) |} (service_account cp'));
        mret tt
  end.
End service_accounts.

(** * Properties *)

Section service_account_properties.
Context {W : Type} (env : ∀ a : action, M W goerror (reply a)).
Implicit Types (st : kst W) (cp : CoderControlPlane).

Definition new_service_account cp : ServiceAccountObject :=
  {| sao_meta := meta_of_key (Namespace (cp_meta cp), resolveServiceAccountName cp) |}.

(** The account is written where the operator is to make one; otherwise those
    the control plane owns are found and let go, and nothing else is changed
    about them. *)
Inductive account_call cp : action → Prop :=
  | account_write a : sa_DisableCreate (ServiceAccount (cp_Spec cp)) = false →
      written KServiceAccount (new_service_account cp) (service_account cp) a → account_call cp a
  | account_list : account_call cp (AList KServiceAccount (Namespace (cp_meta cp)) ∅)
  | account_detach (o : ServiceAccountObject) owners : sa_DisableCreate (ServiceAccount (cp_Spec cp)) = true →
      isOwnedByCoderControlPlane (sao_meta o) cp = true → owners ≠ OwnerReferences (sao_meta o) →
      account_call cp (APatch KServiceAccount o {| sao_meta := set_owners owners (sao_meta o) |}).

Lemma only_reconcileServiceAccount cp :
  only (account_call cp) (reconcileServiceAccount env (Some cp)).
Proof.
  unfold reconcileServiceAccount. cbv zeta. destruct (sa_DisableCreate _) eqn:Hd.
  - unfold detachManagedServiceAccounts. apply only_bind; [apply only_map_err; only_call; apply account_list|].
    intros accounts. apply only_mfor. intros [] o _. unfold detachServiceAccount. cbv zeta.
    destruct (isOwnedByCoderControlPlane _ _) eqn:Ho; cbn [negb]; [|apply only_ret].
    apply only_bind_run; [apply only_map_err, only_lift|]. intros m' s s' [Hm _]%map_err_Ret%lift_Ret.
    case_bool_decide as Heq; [apply only_ret|]. apply only_bind; [|intros; apply only_ret].
    apply only_map_err. only_call. unfold RemoveControllerReference in Hm.
    apply outcome_bind_Ret in Hm as (_ & _ & Hm). destruct (remove_ref _ _) as [[found rest]|]; [|discriminate Hm].
    inv_outcome Hm. apply account_detach; [done|done|]. intros Heq'. by apply Heq.
  - apply only_bind; [apply only_guard|intros _]. apply only_bind; [|intros; apply only_ret].
    apply only_map_err. refine (only_mono _ _ _ _ (CreateOrUpdate_only env KServiceAccount (new_service_account cp) (service_account cp))).
    intros a. by apply account_write.
Qed.

(** The service account the pod runs under is there, with the labels and
    annotations of the spec, and owned by the control plane. *)
Definition account_held cp : Prop :=
  ∃ o : ServiceAccountObject, held env KServiceAccount o ∧
    key_of (sao_meta o) = (Namespace (cp_meta cp), resolveServiceAccountName cp) ∧
    isOwnedByCoderControlPlane (sao_meta o) cp = true ∧
    Labels (sao_meta o) = sa_Labels (ServiceAccount (cp_Spec cp)) ∪ controlPlaneLabels (Name (cp_meta cp)) ∧
    Annotations (sao_meta o) = sa_Annotations (ServiceAccount (cp_Spec cp)).

(** The account was let go. *)
Definition detached cp (o : ServiceAccountObject) : Prop :=
  ∃ m' w o' w', RemoveControllerReference controlPlaneAPIVersion controlPlaneKind (cp_meta cp) (sao_meta o) = Ret m' ∧
    env (APatch KServiceAccount o {| sao_meta := m' |}) w = (Ret o', w').

(** Every account the control plane owned was let go. *)
Definition accounts_detached cp : Prop :=
  ∃ (accounts : list ServiceAccountObject) w w',
    env (AList KServiceAccount (Namespace (cp_meta cp)) ∅) w = (Ret accounts, w') ∧
    ∀ o, o ∈ accounts → isOwnedByCoderControlPlane (sao_meta o) cp = true → detached cp o.

Definition account_outcome cp : Prop :=
  if sa_DisableCreate (ServiceAccount (cp_Spec cp)) then accounts_detached cp else account_held cp.

Lemma remove_ref_shorter ref owners found rest : remove_ref ref owners = Some (found, rest) → owners ≠ rest.
Proof.
  intros H Heq. assert (length owners = S (length rest)) as Hlen; [|by rewrite Heq in Hlen; lia].
  clear Heq. revert rest H. induction owners as [|r l IH]; intros rest; cbn; [done|].
  destruct (referSameObject r ref); [by intros [= _ <-]|].
  destruct (remove_ref ref l) as [[f rs]|]; cbn; [|done]. intros [= -> <-]. cbn. by rewrite (IH rs).
Qed.

Lemma detachServiceAccount_Ret cp o st u st' :
  detachServiceAccount env cp tt o st = (Ret u, st') → isOwnedByCoderControlPlane (sao_meta o) cp = true →
  detached cp o.
Proof.
  unfold detachServiceAccount. cbv zeta. intros H Ho. rewrite Ho in H. cbn [negb] in H.
  apply M_bind_Ret in H as (m' & s & [Hm _]%map_err_Ret%lift_Ret & H).
  case_bool_decide as Heq.
  - exfalso. unfold RemoveControllerReference in Hm. apply outcome_bind_Ret in Hm as (_ & _ & Hm).
    destruct (remove_ref _ _) as [[found rest]|] eqn:Hr; [|discriminate Hm]. inv_outcome Hm.
    by apply remove_ref_shorter in Hr.
  - apply M_bind_Ret in H as (o' & s1 & H%map_err_Ret & _). inv_act H. by eexists _, _, _, _.
Qed.

Lemma reconcileServiceAccount_Ret cp st u st' :
  reconcileServiceAccount env (Some cp) st = (Ret u, st') → account_outcome cp.
Proof.
  unfold reconcileServiceAccount, account_outcome. cbv zeta. destruct (sa_DisableCreate _) eqn:Hd.
  - unfold detachManagedServiceAccounts. intros (accounts & s & Hl%map_err_Ret & H)%M_bind_Ret. inv_act Hl.
    exists accounts. eexists _, _. split; [exact Hl|]. revert H.
    apply (mfor_Ret _ (λ done _, ∀ o, o ∈ done → isOwnedByCoderControlPlane (sao_meta o) cp = true → detached cp o)).
    + by intros o Ho%elem_of_nil.
    + intros done o [] [] s1 s2 _ Hdone Hrun o' [Hin|Hin%list_elem_of_singleton]%elem_of_app Ho; [by apply Hdone|].
      subst o'. by eapply detachServiceAccount_Ret.
  - intros (u1 & s1 & _ & (final & s2 & H%map_err_Ret & _)%M_bind_Ret)%M_bind_Ret.
    apply (CreateOrUpdate_Ret env KServiceAccount), stored_held in H as (base & o & Hf & Hk & Hheld).
    exists o. split; [exact Hheld|]. unfold service_account in Hf. cbv zeta in Hf.
    apply outcome_bind_Ret in Hf as (m & (Ho & Hkey & Hl & Ha)%owned_by_spec & [= <-]). by split_and!.
Qed.
End service_account_properties.

End ServiceAccounts.
