(* ===== verification/WorkspaceRBAC.v ===== *)
(** * WorkspaceRBAC: the roles and role bindings of workspaces

    [reconcileWorkspaceRBAC] and its clean-up, and the finalizer that guards the clean-up, of
    internal/controller/codercontrolplane_controller.go. *)

From S2P Require Import Prelude GoStd GoStdFacts StringFacts GoErrors ApiTypes Examples KubeObjects Kube ControlPlaneNames ControlPlaneStatus OperatorAccess ServiceAccounts.

#[local] Open Scope string_scope.
#[local] Open Scope list_scope.

Module WorkspaceRBAC.
Import ControlPlaneNames ControlPlaneStatus OperatorAccess ServiceAccounts.

(** ** Roles *)

Definition workspaceRBACLabels (cp : CoderControlPlane) : gmap string string :=
  <["coder.com/control-plane-namespace" := Namespace (cp_meta cp)]>
    (<["coder.com/control-plane" := Name (cp_meta cp)]> (controlPlaneLabels (Name (cp_meta cp)))).

Definition workspaceRBACAnnotations (ownerUID : string) : gmap string string :=
  {[workspaceRBACOwnerUIDAnnotation := ownerUID]}.

(** A label or annotation that is read with the zero value for a missing key. *)
Definition label (m : gmap string string) (key : string) : string := default "" (m !! key).

Definition hasWorkspaceRBACIdentityLabels (object : ObjectMeta) (cp : CoderControlPlane) : bool :=
  String.eqb (label (Labels object) "coder.com/control-plane") (Name (cp_meta cp))
  && String.eqb (label (Labels object) "coder.com/control-plane-namespace") (Namespace (cp_meta cp)).

Definition hasWorkspaceRBACOwnerUID (object : ObjectMeta) (cp : CoderControlPlane) : bool :=
  let ownerUID := trim_space (UID (cp_meta cp)) in
  if String.eqb ownerUID "" then false
  else String.eqb (trim_space (label (Annotations object) workspaceRBACOwnerUIDAnnotation)) ownerUID.

Definition isManagedWorkspaceRole (role : Role) (cp : CoderControlPlane) (expectedRoleName : string) : bool :=
  let m := role_meta role in
  if isOwnedByCoderControlPlane m cp then true
  else if negb (hasWorkspaceRBACIdentityLabels m cp) then false
  else if hasWorkspaceRBACOwnerUID m cp then true
  else negb (String.eqb (Namespace m) (Namespace (cp_meta cp))) && String.eqb (Name m) expectedRoleName.

Definition rbacGroupName := "rbac.authorization.k8s.io".
Definition ServiceAccountKind := "ServiceAccount".

Definition isManagedWorkspaceRoleBinding (rb : RoleBinding) (cp : CoderControlPlane)
    (expectedRoleName expectedRoleBindingName expectedServiceAccountName : string) : bool :=
  let m := rb_meta rb in
  if isOwnedByCoderControlPlane m cp then true
  else if negb (hasWorkspaceRBACIdentityLabels m cp) then false
  else if hasWorkspaceRBACOwnerUID m cp then true
  else if String.eqb (Namespace m) (Namespace (cp_meta cp)) then false
  else if negb (String.eqb (Name m) expectedRoleBindingName) then false
  else if negb (String.eqb (rr_APIGroup (rb_RoleRef rb)) rbacGroupName)
          || negb (String.eqb (rr_Kind (rb_RoleRef rb)) "Role")
          || negb (String.eqb (rr_Name (rb_RoleRef rb)) expectedRoleName) then false
  else match rb_Subjects rb with
  | [subject] =>
      String.eqb (sub_Kind subject) ServiceAccountKind
      && String.eqb (sub_Name subject) expectedServiceAccountName
      && String.eqb (sub_Namespace subject) (Namespace (cp_meta cp))
  | _ => false
  end.

Definition allVerbs : list string :=
  ["get"; "list"; "watch"; "create"; "update"; "patch"; "delete"; "deletecollection"].

Definition workspaceRules (cp : CoderControlPlane) : list PolicyRule :=
  let rule group resource :=
    {| pr_APIGroups := [group]; pr_Resources := [resource]; pr_Verbs := allVerbs |} in
  let rbac := RBAC (cp_Spec cp) in
  [rule "" "pods"; rule "" "persistentvolumeclaims"]
    ++ (if workspaceDeploymentsEnabled (EnableDeployments rbac) then [rule "apps" "deployments"] else [])
    ++ ExtraRules rbac.

(** Only an object in the control plane's own namespace is owned by it. *)
Definition workspace_owner (cp : CoderControlPlane) (namespace : string) (m : ObjectMeta)
    : result ObjectMeta :=
  if String.eqb namespace (Namespace (cp_meta cp)) then ownedBy cp m else mret (set_owners [] m).

(** The metadata both mutations set. *)
Definition workspace_meta (cp : CoderControlPlane) (ownerUID : string) (m : ObjectMeta) : ObjectMeta :=
  set_annotations (workspaceRBACAnnotations ownerUID) (set_labels (workspaceRBACLabels cp) m).

Definition workspace_role (cp : CoderControlPlane) (ownerUID namespace : string) (role : Role)
    : result Role :=
  m ← workspace_owner cp namespace (workspace_meta cp ownerUID (role_meta role));
  mret {| role_meta := m; role_Rules := workspaceRules cp |}.

Definition workspace_role_binding (cp : CoderControlPlane) (ownerUID namespace roleName sa : string)
    (rb : RoleBinding) : result RoleBinding :=
  m ← workspace_owner cp namespace (workspace_meta cp ownerUID (rb_meta rb));
  mret {| rb_meta := m;
          rb_RoleRef := {| rr_APIGroup := rbacGroupName; rr_Kind := "Role"; rr_Name := roleName |};
          rb_Subjects := [{| sub_Kind := ServiceAccountKind; sub_Name := sa;
                             sub_Namespace := Namespace (cp_meta cp) |}] |}.

Definition new_role (key : object_key) : Role := {| role_meta := meta_of_key key; role_Rules := [] |}.
Definition new_role_binding (key : object_key) : RoleBinding := {|
  rb_meta := meta_of_key key;
  rb_RoleRef := {| rr_APIGroup := ""; rr_Kind := ""; rr_Name := "" |};
  rb_Subjects := [] |}.

Section rbac.
Context {W : Type} (env : ∀ a : action, M W goerror (reply a)).

(** *** Clean-up *)

Definition deleteRole (cp : CoderControlPlane) (keep : gset string) (expected : string) (_ : ()) (role : Role)
    : reconciliation (W:=W) () :=
  let m := role_meta role in
  if bool_decide (namespacedResourceKey (Namespace m) (Name m) ∈ keep) then mret tt
  else if negb (isManagedWorkspaceRole role cp expected) then mret tt
  else map_err (wrap_key "delete managed workspace role %s/%s: %w" (Namespace m) (Name m))
         (ignoring IsNotFound (act env (ADelete KRole role))).

Definition deleteRoleBinding (cp : CoderControlPlane) (keep : gset string) (expectedRole expected sa : string)
    (_ : ()) (rb : RoleBinding) : reconciliation (W:=W) () :=
  let m := rb_meta rb in
  if bool_decide (namespacedResourceKey (Namespace m) (Name m) ∈ keep) then mret tt
  else if negb (isManagedWorkspaceRoleBinding rb cp expectedRole expected sa) then mret tt
  else map_err (wrap_key "delete managed workspace role binding %s/%s: %w" (Namespace m) (Name m))
         (ignoring IsNotFound (act env (ADelete KRoleBinding rb))).

(** The service account whose roles the clean-up looks for. *)
Definition cleanup_service_account (cp : CoderControlPlane) : string :=
  let serviceAccountName := trim_space (resolveServiceAccountName cp) in
  if String.eqb serviceAccountName "" then Name (cp_meta cp) else serviceAccountName.

(** The maps of kept keys; a nil map keeps nothing. *)
Definition cleanupManagedWorkspaceRBAC (cp : option CoderControlPlane)
    (keepRoles keepRoleBindings : gset string) : reconciliation (W:=W) () :=
  match cp with
  | None => nil_cp
  | Some cp' =>
      let sa := cleanup_service_account cp' in
      expectedRole ← lift (workspaceRoleName cp sa);
      expectedRoleBinding ← lift (workspaceRoleBindingName cp sa);
      let labels := workspaceRBACLabels cp' in
      roles ← map_err (λ err, Errorf "list managed workspace roles: %w" [FErrW err])
                (act env (AList KRole "" labels));
      _ ← mfor (deleteRole cp' keepRoles expectedRole) tt (roles : list Role);
      roleBindings ← map_err (λ err, Errorf "list managed workspace role bindings: %w" [FErrW err])
                       (act env (AList KRoleBinding "" labels));
      mfor (deleteRoleBinding cp' keepRoleBindings expectedRole expectedRoleBinding sa) tt
        (roleBindings : list RoleBinding)
  end.

(** *** Roles and role bindings of the target namespaces *)

(** The namespaces seen, and the keys to keep. *)
Record rbac_progress := { seen : gset string; keepRoles : gset string; keepRoleBindings : gset string }.

(** The body of the loop over the target namespaces. *)
Definition ensureWorkspaceRBAC (cp : CoderControlPlane) (sa ownerUID roleName roleBindingName : string)
    (p : rbac_progress) (namespace : string) : reconciliation (W:=W) rbac_progress :=
  let namespace := trim_space namespace in
  _ ← guard_err (String.eqb namespace "") (assertion "assertion failed: workspace namespace must not be empty");
  if bool_decide (namespace ∈ seen p) then mret p
  else
    _ ← map_err (wrap_key "reconcile workspace role %s/%s: %w" namespace roleName)
          (CreateOrUpdate env KRole (new_role (namespace, roleName)) (workspace_role cp ownerUID namespace));
    _ ← map_err (wrap_key "reconcile workspace role binding %s/%s: %w" namespace roleBindingName)
          (CreateOrUpdate env KRoleBinding (new_role_binding (namespace, roleBindingName))
             (workspace_role_binding cp ownerUID namespace roleName sa));
    mret {| seen := {[namespace]} ∪ seen p;
            keepRoles := {[namespacedResourceKey namespace roleName]} ∪ keepRoles p;
            keepRoleBindings := {[namespacedResourceKey namespace roleBindingName]} ∪ keepRoleBindings p |}.

Definition targetNamespaces (cp : CoderControlPlane) : list string :=
  Namespace (cp_meta cp) :: WorkspaceNamespaces (RBAC (cp_Spec cp)).

Definition reconcileWorkspaceRBAC (cp : option CoderControlPlane) : reconciliation (W:=W) () :=
  match cp with
  | None => nil_cp
  | Some cp' =>
      let sa := resolveServiceAccountName cp' in
      _ ← guard_err (blank sa) (assertion "assertion failed: service account name must not be empty");
      let ownerUID := trim_space (UID (cp_meta cp')) in
      _ ← guard_err (String.eqb ownerUID "")
            (assertion "assertion failed: coder control plane UID must not be empty");
      roleName ← lift (workspaceRoleName cp sa);
      roleBindingName ← lift (workspaceRoleBindingName cp sa);
      if negb (workspacePermsEnabled (WorkspacePerms (RBAC (cp_Spec cp'))))
      then cleanupManagedWorkspaceRBAC cp ∅ ∅
      else
        p ← mfor (ensureWorkspaceRBAC cp' sa ownerUID roleName roleBindingName)
              {| seen := ∅; keepRoles := ∅; keepRoleBindings := ∅ |} (targetNamespaces cp');
        cleanupManagedWorkspaceRBAC cp (keepRoles p) (keepRoleBindings p)
  end.

(** *** The finalizer *)

Definition set_cp_meta (m : ObjectMeta) (cp : CoderControlPlane) : CoderControlPlane := {|
  cp_meta := m; cp_Spec := cp_Spec cp; cp_Status := cp_Status cp |}.

(** The object after the call: reloaded if the finalizer had to be added. *)
Definition ensureWorkspaceRBACFinalizer (key : object_key) (cp : option CoderControlPlane)
    : reconciliation (W:=W) CoderControlPlane :=
  match cp with
  | None => nil_cp
  | Some cp =>
      let m := cp_meta cp in
      _ ← guard_err (negb (String.eqb (Name m) key.2) || negb (String.eqb (Namespace m) key.1))
            (Errorf "assertion failed: finalizer target %s/%s does not match request %s"
               [FStr (Namespace m); FStr (Name m); FStr (key.1 +:+ "/" +:+ key.2)]);
      if ContainsFinalizer m workspaceRBACFinalizer then mret cp
      else
        _ ← map_err (λ err, Errorf "add workspace RBAC finalizer: %w" [FErrW err])
              (act env (APatch KControlPlane cp (set_cp_meta (AddFinalizer m workspaceRBACFinalizer) cp)));
        map_err (λ err, Errorf "reload codercontrolplane %s after finalizer update: %w"
                          [FStr (key.1 +:+ "/" +:+ key.2); FErrW err])
          (act env (AGet CachedReader KControlPlane key))
  end.

Definition finalizeWorkspaceRBAC (cp : option CoderControlPlane) : reconciliation (W:=W) Result :=
  match cp with
  | None => nil_cp
  | Some cp' =>
      let m := cp_meta cp' in
      if negb (ContainsFinalizer m workspaceRBACFinalizer) then mret no_requeue
      else
        _ ← cleanupManagedWorkspaceRBAC cp ∅ ∅;
        _ ← map_err (λ err, Errorf "remove workspace RBAC finalizer: %w" [FErrW err])
              (act env (APatch KControlPlane cp' (set_cp_meta (RemoveFinalizer m workspaceRBACFinalizer) cp')));
        mret no_requeue
  end.
End rbac.

(** * Properties *)

(** ** What the mutations make *)

Lemma workspace_owner_key cp ns m m' : workspace_owner cp ns m = Ret m' →
  key_of m' = key_of m ∧ Labels m' = Labels m ∧ Annotations m' = Annotations m.
Proof.
  unfold workspace_owner. destruct (String.eqb _ _); [by intros (_ & ? & ? & ?)%owned_by_spec|].
  by intros [= <-].
Qed.

(** The metadata of a role or role binding of namespace [ns]: labelled and
    annotated with the identity of the control plane, and owned by it in its
    own namespace only (owner references across namespaces are illegal). *)
Record workspace_object cp (ns : string) (m : ObjectMeta) : Prop := {
  wo_labels : hasWorkspaceRBACIdentityLabels m cp = true;
  wo_uid : hasWorkspaceRBACOwnerUID m cp = true;
  wo_owned : ns = Namespace (cp_meta cp) → isOwnedByCoderControlPlane m cp = true;
  wo_foreign : ns ≠ Namespace (cp_meta cp) → OwnerReferences m = []
}.

Lemma workspace_owner_spec cp ns m m' :
  blank (UID (cp_meta cp)) = false →
  workspace_owner cp ns (workspace_meta cp (trim_space (UID (cp_meta cp))) m) = Ret m' →
  workspace_object cp ns m'.
Proof.
  intros Hne H. pose proof (workspace_owner_key _ _ _ _ H) as (_ & Hl & Ha). split.
  - unfold hasWorkspaceRBACIdentityLabels, label. rewrite Hl. cbn [Labels workspace_meta set_annotations set_labels].
    unfold workspaceRBACLabels. rewrite lookup_insert_ne by done. rewrite !lookup_insert_eq. cbn.
    by rewrite !String.eqb_refl.
  - unfold hasWorkspaceRBACOwnerUID. unfold blank in Hne. rewrite Hne, Ha.
    cbn [Annotations workspace_meta set_annotations]. unfold workspaceRBACAnnotations, label.
    rewrite lookup_singleton_eq. cbn [from_option]. unfold id. rewrite trim_space_idem. apply String.eqb_refl.
  - intros ->. unfold workspace_owner in H. rewrite String.eqb_refl in H. by apply owned_by_spec in H as [? _].
  - intros Hns. unfold workspace_owner in H. rewrite (proj2 (String.eqb_neq _ _) Hns) in H. by injection H as <-.
Qed.

Lemma workspace_role_spec cp ns base role :
  blank (UID (cp_meta cp)) = false →
  workspace_role cp (trim_space (UID (cp_meta cp))) ns base = Ret role →
  workspace_object cp ns (role_meta role) ∧ role_Rules role = workspaceRules cp.
Proof.
  unfold workspace_role. intros Hne H. inv_outcome H. split; [|done]. by eapply workspace_owner_spec.
Qed.

Lemma workspace_role_binding_spec cp ns roleName sa base rb :
  blank (UID (cp_meta cp)) = false →
  workspace_role_binding cp (trim_space (UID (cp_meta cp))) ns roleName sa base = Ret rb →
  workspace_object cp ns (rb_meta rb) ∧
  rb_RoleRef rb = {| rr_APIGroup := rbacGroupName; rr_Kind := "Role"; rr_Name := roleName |} ∧
  rb_Subjects rb = [{| sub_Kind := ServiceAccountKind; sub_Name := sa;
                       sub_Namespace := Namespace (cp_meta cp) |}].
Proof.
  unfold workspace_role_binding. intros Hne H. inv_outcome H. split; [|done]. by eapply workspace_owner_spec.
Qed.

(** What is made for a control plane is recognised as its own by the clean-up,
    in every namespace: no role or role binding leaks. *)
Lemma workspace_object_managed cp ns role rb expectedRole expected sa :
  (workspace_object cp ns (role_meta role) → isManagedWorkspaceRole role cp expectedRole = true) ∧
  (workspace_object cp ns (rb_meta rb) → isManagedWorkspaceRoleBinding rb cp expectedRole expected sa = true).
Proof.
  split; intros [Hl Hu _ _];
    [unfold isManagedWorkspaceRole|unfold isManagedWorkspaceRoleBinding]; rewrite Hl, Hu;
    by destruct (isOwnedByCoderControlPlane _ _).
Qed.

(** ** Calls *)

Section rbac_properties.
Context {W : Type} (env : ∀ a : action, M W goerror (reply a)).
Implicit Types (st : kst W) (cp : CoderControlPlane).

(** The keys a reconciliation keeps: those of the target namespaces. *)
Definition kept_key cp (name key : string) : Prop :=
  workspacePermsEnabled (WorkspacePerms (RBAC (cp_Spec cp))) = true ∧
  ∃ ns, ns ∈ targetNamespaces cp ∧ key = namespacedResourceKey (trim_space ns) name.

(** Permissions are asked for, and the namespace has a name. *)
Definition permitted cp (ns : string) : Prop :=
  workspacePermsEnabled (WorkspacePerms (RBAC (cp_Spec cp))) = true ∧ trim_space ns ≠ "".

(** The calls about roles: those of the control plane are listed by its labels;
    only objects the control plane manages are deleted, and never one that is
    kept; and objects are written in the target namespaces only. *)
Inductive cleanup_call cp (kept keptB : string → Prop) : action → Prop :=
  | cleanup_list k : k = KRole ∨ k = KRoleBinding →
      cleanup_call cp kept keptB (AList k "" (workspaceRBACLabels cp))
  | cleanup_role role expected : isManagedWorkspaceRole role cp expected = true →
      ¬ kept (namespacedResourceKey (Namespace (role_meta role)) (Name (role_meta role))) →
      cleanup_call cp kept keptB (ADelete KRole role)
  | cleanup_binding rb expectedRole expected sa :
      isManagedWorkspaceRoleBinding rb cp expectedRole expected sa = true →
      ¬ keptB (namespacedResourceKey (Namespace (rb_meta rb)) (Name (rb_meta rb))) →
      cleanup_call cp kept keptB (ADelete KRoleBinding rb).
Inductive rbac_call cp (kept keptB : string → Prop) : action → Prop :=
  | rbac_cleanup a : cleanup_call cp kept keptB a → rbac_call cp kept keptB a
  | rbac_role ns name a : ns ∈ targetNamespaces cp → permitted cp ns →
      written KRole (new_role (trim_space ns, name))
        (workspace_role cp (trim_space (UID (cp_meta cp))) (trim_space ns)) a →
      rbac_call cp kept keptB a
  | rbac_binding ns name roleName sa a : ns ∈ targetNamespaces cp → permitted cp ns →
      written KRoleBinding (new_role_binding (trim_space ns, name))
        (workspace_role_binding cp (trim_space (UID (cp_meta cp))) (trim_space ns) roleName sa) a →
      rbac_call cp kept keptB a.

Lemma only_cleanup_rbac cp keep keepB :
  only (cleanup_call cp (.∈ keep) (.∈ keepB)) (cleanupManagedWorkspaceRBAC env (Some cp) keep keepB).
Proof.
  unfold cleanupManagedWorkspaceRBAC. cbv zeta.
  do 2 (apply only_bind; [apply only_lift|intros ?]).
  apply only_bind; [apply only_map_err; only_call; constructor; by left|intros roles].
  apply only_bind.
  { apply only_mfor. intros ? role ?. unfold deleteRole. cbv zeta. case_bool_decide; [apply only_ret|].
    destruct (isManagedWorkspaceRole _ _ _) eqn:Hm; cbn [negb]; [|apply only_ret].
    apply only_map_err, only_ignoring. only_call. by econstructor. }
  intros ?. apply only_bind; [apply only_map_err; only_call; constructor; by right|intros rbs].
  apply only_mfor. intros ? rb ?. unfold deleteRoleBinding. cbv zeta. case_bool_decide; [apply only_ret|].
  destruct (isManagedWorkspaceRoleBinding _ _ _ _ _) eqn:Hm; cbn [negb]; [|apply only_ret].
  apply only_map_err, only_ignoring. only_call. by econstructor.
Qed.

(** The progress of the loop over the namespaces done so far. *)
Definition rbac_done cp (sa roleName bindingName : string) (done : list string) (p : rbac_progress) : Prop :=
  (∀ ns, ns ∈ done → trim_space ns ∈ seen p) ∧
  (∀ key, key ∈ keepRoles p → ∃ ns, ns ∈ done ∧ key = namespacedResourceKey (trim_space ns) roleName) ∧
  (∀ key, key ∈ keepRoleBindings p → ∃ ns, ns ∈ done ∧ key = namespacedResourceKey (trim_space ns) bindingName) ∧
  ∀ n, n ∈ seen p → namespacedResourceKey n roleName ∈ keepRoles p ∧
    namespacedResourceKey n bindingName ∈ keepRoleBindings p ∧
    (∃ final, stored env KRole (new_role (n, roleName))
       (workspace_role cp (trim_space (UID (cp_meta cp))) n) final) ∧
    (∃ final, stored env KRoleBinding (new_role_binding (n, bindingName))
       (workspace_role_binding cp (trim_space (UID (cp_meta cp))) n roleName sa) final).

Lemma ensureWorkspaceRBAC_done cp sa roleName bindingName done p ns p' st st' :
  rbac_done cp sa roleName bindingName done p →
  ensureWorkspaceRBAC env cp sa (trim_space (UID (cp_meta cp))) roleName bindingName p ns st = (Ret p', st') →
  rbac_done cp sa roleName bindingName (done ++ [ns]) p'.
Proof.
  intros (Hin & Hk & HkB & Hseen). unfold ensureWorkspaceRBAC. cbv zeta.
  intros (u & s & _ & H)%M_bind_Ret. case_bool_decide as Hs; inv_run H; (split_and!;
    cbn [seen keepRoles keepRoleBindings]; [|intros key|intros key|]).
  - intros n [Hn|Hn%list_elem_of_singleton]%elem_of_app; [by apply Hin|by subst].
  - intros (n & ? & ->)%Hk. exists n. set_solver.
  - intros (n & ? & ->)%HkB. exists n. set_solver.
  - done.
  - intros n [Hn%Hin|Hn%list_elem_of_singleton]%elem_of_app; [set_solver|subst; set_solver].
  - intros [->%elem_of_singleton|(n & ? & ->)%Hk]%elem_of_union; [exists ns|exists n]; set_solver.
  - intros [->%elem_of_singleton|(n & ? & ->)%HkB]%elem_of_union; [exists ns|exists n]; set_solver.
  - intros n [Hn%elem_of_singleton|(Hn1 & Hn2 & Hn3 & Hn4)%Hseen]%elem_of_union.
    + subst n. split_and!; [set_solver|set_solver|eexists; by eapply CreateOrUpdate_Ret..].
    + split_and!; [set_solver|set_solver|done|done].
Qed.

Lemma rbac_loop_done cp sa roleName bindingName p st st' :
  mfor (ensureWorkspaceRBAC env cp sa (trim_space (UID (cp_meta cp))) roleName bindingName)
    {| seen := ∅; keepRoles := ∅; keepRoleBindings := ∅ |} (targetNamespaces cp) st = (Ret p, st') →
  rbac_done cp sa roleName bindingName (targetNamespaces cp) p.
Proof.
  apply mfor_Ret; [split_and!; [by intros ns H%elem_of_nil|set_solver..]|].
  intros done a x y s1 s2 _ Hd. by apply ensureWorkspaceRBAC_done.
Qed.

Lemma only_ensureWorkspaceRBAC cp kept keptB sa roleName bindingName p ns :
  ns ∈ targetNamespaces cp → workspacePermsEnabled (WorkspacePerms (RBAC (cp_Spec cp))) = true →
  only (rbac_call cp kept keptB)
    (ensureWorkspaceRBAC env cp sa (trim_space (UID (cp_meta cp))) roleName bindingName p ns).
Proof.
  intros Hns Hp. unfold ensureWorkspaceRBAC. cbv zeta.
  destruct (String.eqb_spec (trim_space ns) "") as [_|Hb]; [intros st; exists []; split; [apply made_nil|constructor]|].
  apply only_bind; [apply only_guard|intros _]. case_bool_decide; [apply only_ret|].
  apply only_bind; [apply only_map_err; eapply only_mono; [|apply CreateOrUpdate_only];
                    intros; by eapply rbac_role|intros _].
  apply only_bind; [apply only_map_err; eapply only_mono; [|apply CreateOrUpdate_only];
                    intros; by eapply rbac_binding|intros _]. apply only_ret.
Qed.

Lemma cleanup_call_weaken cp (kept keptB kept' keptB' : string → Prop) a :
  (∀ x, kept' x → kept x) → (∀ x, keptB' x → keptB x) →
  cleanup_call cp kept keptB a → cleanup_call cp kept' keptB' a.
Proof. intros Hk HkB [ ]; [by constructor|eapply cleanup_role|eapply cleanup_binding]; naive_solver. Qed.

(** The keys a reconciliation keeps, if the names can be computed at all. *)
Definition kept_role cp (key : string) : Prop :=
  ∃ name, workspaceRoleName (Some cp) (resolveServiceAccountName cp) = Ret name ∧ kept_key cp name key.
Definition kept_binding cp (key : string) : Prop :=
  ∃ name, workspaceRoleBindingName (Some cp) (resolveServiceAccountName cp) = Ret name ∧ kept_key cp name key.

Lemma only_reconcileWorkspaceRBAC cp :
  only (rbac_call cp (kept_role cp) (kept_binding cp)) (reconcileWorkspaceRBAC env (Some cp)).
Proof.
  unfold reconcileWorkspaceRBAC. cbv zeta. do 2 (apply only_bind; [apply only_guard|intros _]).
  apply only_lift_bind. intros r Hr. apply only_lift_bind. intros b Hb.
  destruct (workspacePermsEnabled _) eqn:Hp; cbn [negb].
  2: { eapply only_mono; [|apply only_cleanup_rbac]. intros a Ha. apply rbac_cleanup. revert Ha. apply cleanup_call_weaken; intros x (n & _ & Hc & _); congruence. }
  apply only_bind_run; [apply only_mfor; intros; by apply only_ensureWorkspaceRBAC|].
  intros p t t' (Hin & _ & _ & Hseen)%rbac_loop_done. eapply only_mono; [|apply only_cleanup_rbac]. intros a Ha. apply rbac_cleanup. revert Ha. apply cleanup_call_weaken; intros x (n & Hn & _ & ns & Hns%Hin%Hseen & ->);
    (assert (n = r) as -> by congruence) || (assert (n = b) as -> by congruence); apply Hns.
Qed.

(** What the clean-up has done when it returns: every listed object that the
    control plane manages and that is not kept was deleted. *)
Definition cleaned cp (keep keepB : gset string) (acts : list action) : Prop :=
  let sa := cleanup_service_account cp in
  ∃ (roles : list Role) (rbs : list RoleBinding) expectedRole expected,
    workspaceRoleName (Some cp) sa = Ret expectedRole ∧
    workspaceRoleBindingName (Some cp) sa = Ret expected ∧
    (∃ w w', env (AList KRole "" (workspaceRBACLabels cp)) w = (Ret roles, w')) ∧
    (∃ w w', env (AList KRoleBinding "" (workspaceRBACLabels cp)) w = (Ret rbs, w')) ∧
    (∀ role, role ∈ roles → isManagedWorkspaceRole role cp expectedRole = true →
       namespacedResourceKey (Namespace (role_meta role)) (Name (role_meta role)) ∉ keep →
       removed env KRole role acts) ∧
    (∀ rb, rb ∈ rbs → isManagedWorkspaceRoleBinding rb cp expectedRole expected sa = true →
       namespacedResourceKey (Namespace (rb_meta rb)) (Name (rb_meta rb)) ∉ keepB →
       removed env KRoleBinding rb acts).

Lemma deleteRole_Ret cp keep expected role st u st' :
  deleteRole env cp keep expected tt role st = (Ret u, st') →
  ∃ acts, made acts st st' ∧ (isManagedWorkspaceRole role cp expected = true →
    namespacedResourceKey (Namespace (role_meta role)) (Name (role_meta role)) ∉ keep →
    removed env KRole role acts).
Proof.
  unfold deleteRole. cbv zeta. case_bool_decide as Hk.
  { intros [_ <-]%mret_Ret. exists []. split; [apply made_nil|done]. }
  destruct (isManagedWorkspaceRole _ _ _); cbn [negb].
  - intros [? ?]%map_err_Ret%delete_Ret. by eexists.
  - intros [_ <-]%mret_Ret. exists []. split; [apply made_nil|done].
Qed.

Lemma deleteRoleBinding_Ret cp keep expectedRole expected sa rb st u st' :
  deleteRoleBinding env cp keep expectedRole expected sa tt rb st = (Ret u, st') →
  ∃ acts, made acts st st' ∧ (isManagedWorkspaceRoleBinding rb cp expectedRole expected sa = true →
    namespacedResourceKey (Namespace (rb_meta rb)) (Name (rb_meta rb)) ∉ keep →
    removed env KRoleBinding rb acts).
Proof.
  unfold deleteRoleBinding. cbv zeta. case_bool_decide as Hk.
  { intros [_ <-]%mret_Ret. exists []. split; [apply made_nil|done]. }
  destruct (isManagedWorkspaceRoleBinding _ _ _ _ _); cbn [negb].
  - intros [? ?]%map_err_Ret%delete_Ret. by eexists.
  - intros [_ <-]%mret_Ret. exists []. split; [apply made_nil|done].
Qed.

Lemma cleanup_Ret cp keep keepB st u st' :
  cleanupManagedWorkspaceRBAC env (Some cp) keep keepB st = (Ret u, st') →
  ∃ acts, made acts st st' ∧ cleaned cp keep keepB acts.
Proof.
  unfold cleanupManagedWorkspaceRBAC. cbv zeta. set (sa := cleanup_service_account cp).
  intros (er & s1 & [Her ->]%lift_Ret & (eb & s2 & [Heb ->]%lift_Ret & (roles & s3 & Hl1%map_err_Ret &
    (u1 & s4 & Hd1 & (rbs & s5 & Hl2%map_err_Ret & Hd2)%M_bind_Ret)%M_bind_Ret)%M_bind_Ret)%M_bind_Ret)%M_bind_Ret.
  inv_act Hl1. inv_act Hl2.
  apply (mfor_each _ (λ role acts, isManagedWorkspaceRole role cp er = true →
    namespacedResourceKey (Namespace (role_meta role)) (Name (role_meta role)) ∉ keep →
    removed env KRole role acts)) in Hd1 as (acts1 & Hm1 & Hr1);
    [|intros ??? [HR|HR] ??; apply removed_app; auto|intros ? ? ? ? _; apply deleteRole_Ret].
  apply (mfor_each _ (λ rb acts, isManagedWorkspaceRoleBinding rb cp er eb sa = true →
    namespacedResourceKey (Namespace (rb_meta rb)) (Name (rb_meta rb)) ∉ keepB →
    removed env KRoleBinding rb acts)) in Hd2 as (acts2 & Hm2 & Hr2);
    [|intros ??? [HR|HR] ??; apply removed_app; auto|intros ? ? ? ? _; apply deleteRoleBinding_Ret].
  unfold made in *. cbn in *.
  eexists ([_] ++ acts1 ++ [_] ++ acts2). split; [rewrite Hm2, Hm1; by rewrite <-!app_assoc|].
  exists roles, rbs, er, eb. split_and!; [done|done|by eexists _, _|by eexists _, _|..].
  - intros role Hin Hm Hk. apply removed_app. right. apply removed_app. left. by apply Hr1.
  - intros rb Hin Hm Hk. do 3 (apply removed_app; right). by apply Hr2.
Qed.

(** The grant of a namespace: the role grants the workspace rules, its binding
    binds it to the service account of the control plane, and both are objects
    of the control plane, recognised as such by every later clean-up, whatever
    names that expects. *)
Definition grants cp (ns : string) (role : Role) (rb : RoleBinding) : Prop :=
  Namespace (role_meta role) = ns ∧ Namespace (rb_meta rb) = ns ∧
  workspace_object cp ns (role_meta role) ∧ workspace_object cp ns (rb_meta rb) ∧
  role_Rules role = workspaceRules cp ∧
  rb_RoleRef rb = {| rr_APIGroup := rbacGroupName; rr_Kind := "Role"; rr_Name := Name (role_meta role) |} ∧
  rb_Subjects rb = [{| sub_Kind := ServiceAccountKind; sub_Name := resolveServiceAccountName cp;
                       sub_Namespace := Namespace (cp_meta cp) |}] ∧
  ∀ expectedRole expected sa,
    isManagedWorkspaceRole role cp expectedRole = true ∧
    isManagedWorkspaceRoleBinding rb cp expectedRole expected sa = true.

Lemma stored_grants cp ns roleName bindingName final finalB :
  blank (UID (cp_meta cp)) = false →
  stored env KRole (new_role (ns, roleName)) (workspace_role cp (trim_space (UID (cp_meta cp))) ns) final →
  stored env KRoleBinding (new_role_binding (ns, bindingName))
    (workspace_role_binding cp (trim_space (UID (cp_meta cp))) ns roleName (resolveServiceAccountName cp)) finalB →
  ∃ role rb, grants cp ns role rb ∧ held env KRole role ∧ held env KRoleBinding rb.
Proof.
  intros Hu (base & role & Hf & Hk & Hheld)%stored_held (baseB & rb & HfB & HkB & HheldB)%stored_held.
  exists role, rb. split; [|done]. cbn in Hk, HkB. injection Hk as Hk1 Hk2. injection HkB as HkB1 _.
  apply workspace_role_spec in Hf as [Ho Hrules]; [|done].
  apply workspace_role_binding_spec in HfB as (HoB & Href & Hsub); [|done].
  unfold grants. rewrite Hk2. do 7 (split; [done|]). intros er e sa.
  by split; eapply workspace_object_managed.
Qed.

Lemma reconcileWorkspaceRBAC_Ret cp st u st' :
  reconcileWorkspaceRBAC env (Some cp) st = (Ret u, st') →
  (workspacePermsEnabled (WorkspacePerms (RBAC (cp_Spec cp))) = true →
   ∀ ns, ns ∈ targetNamespaces cp → ∃ role rb,
     grants cp (trim_space ns) role rb ∧ held env KRole role ∧ held env KRoleBinding rb) ∧
  ∃ keep keepB before acts, made (before ++ acts) st st' ∧ cleaned cp keep keepB acts ∧
    (∀ key, key ∈ keep → kept_role cp key) ∧ (∀ key, key ∈ keepB → kept_binding cp key).
Proof.
  unfold reconcileWorkspaceRBAC. cbv zeta.
  intros (u1 & s1 & [_ ->]%guard_err_Ret & (u2 & s2 & [Huid ->]%guard_err_Ret & (r & s3 & [Hr ->]%lift_Ret &
    (b & s4 & [Hb ->]%lift_Ret & H)%M_bind_Ret)%M_bind_Ret)%M_bind_Ret)%M_bind_Ret.
  destruct (workspacePermsEnabled _) eqn:Hp; cbn [negb] in H.
  2: { split; [done|]. apply cleanup_Ret in H as (acts & Hm & Hc). exists ∅, ∅, [], acts.
       split_and!; [done|done|set_solver..]. }
  apply M_bind_Ret in H as (p & s5 & Hloop & Hclean).
  assert (∃ before, made before st s5) as [before Hbefore].
  { destruct (only_mfor (λ _, True) (ensureWorkspaceRBAC env cp (resolveServiceAccountName cp)
      (trim_space (UID (cp_meta cp))) r b) {| seen := ∅; keepRoles := ∅; keepRoleBindings := ∅ |}
      (targetNamespaces cp)) with (st := st) as (l & Hl & _); [|rewrite Hloop in Hl; by exists l].
    intros ? ns Hns. eapply only_mono; [|by apply only_ensureWorkspaceRBAC with (kept := λ _, True) (keptB := λ _, True)].
    done. }
  apply rbac_loop_done in Hloop as (Hin & Hk & HkB & Hseen). split.
  - intros _ ns (_ & _ & [role Hrole] & [rb Hrb])%Hin%Hseen. by eapply stored_grants.
  - apply cleanup_Ret in Hclean as (acts & Hm & Hc). exists (keepRoles p), (keepRoleBindings p), before, acts.
    split_and!; [by eapply made_trans|done| |].
    + intros key (ns & ? & ->)%Hk. exists r. split; [done|]. split; [done|]. by exists ns.
    + intros key (ns & ? & ->)%HkB. exists b. split; [done|]. split; [done|]. by exists ns.
Qed.

(** The patch that lets the deletion of the control plane proceed. *)
Definition finalizer_patch cp : action :=
  APatch KControlPlane cp (set_cp_meta (RemoveFinalizer (cp_meta cp) workspaceRBACFinalizer) cp).

(** The patch comes last, after a clean-up that kept nothing. *)
Definition finalization cp (cleaning rest : list action) : Prop :=
  Forall (cleanup_call cp (.∈ (∅ : gset string)) (.∈ (∅ : gset string))) cleaning ∧
  (rest = [] ∨ rest = [finalizer_patch cp] ∧ cleaned cp ∅ ∅ cleaning).

(** What a finalization that reports success has done: nothing if there is no
    finalizer, and otherwise everything, the patch being accepted. *)
Definition finalized_outcome cp (cleaning rest : list action) (res : Result) : Prop :=
  res = no_requeue ∧
  if ContainsFinalizer (cp_meta cp) workspaceRBACFinalizer
  then cleaned cp ∅ ∅ cleaning ∧ rest = [finalizer_patch cp] ∧
       ∃ w answer w', env (finalizer_patch cp) w = (Ret answer, w')
  else cleaning = [] ∧ rest = [].

Lemma finalize_run cp st o st' :
  finalizeWorkspaceRBAC env (Some cp) st = (o, st') →
  ∃ cleaning rest, made (cleaning ++ rest) st st' ∧ finalization cp cleaning rest ∧
    ∀ res, o = Ret res → finalized_outcome cp cleaning rest res.
Proof.
  unfold finalizeWorkspaceRBAC, finalized_outcome. destruct (ContainsFinalizer _ _) eqn:Hf; cbn [negb].
  2: { intros [= <- <-]. exists [], []. split; [apply made_nil|]. split; [|by intros res [= <-]].
       split; [constructor|by left]. }
  destruct (only_cleanup_rbac cp ∅ ∅ st) as (l & Hl & Honly). unfold mbind, M_bind at 1.
  destruct (cleanupManagedWorkspaceRBAC env (Some cp) ∅ ∅ st) as [[u|e|e] s1] eqn:Hc.
  2, 3: intros [= <- <-]; exists l, []; rewrite app_nil_r; split; [done|]; split; [split; [done|by left]|done].
  apply cleanup_Ret in Hc as (l' & Hl' & Hclean).
  assert (l' = l) as -> by (unfold made in *; cbn in Hl; rewrite Hl' in Hl; by apply app_inv_head in Hl).
  cbn in Hl. unfold M_bind, map_err, act. fold (finalizer_patch cp).
  destruct (env (finalizer_patch cp) (k_world s1)) as [o' w] eqn:E.
  intros H. exists l, [finalizer_patch cp].
  assert (st' = KSt w (k_trace s1 ++ [finalizer_patch cp])) as -> by (destruct o'; by inversion H).
  split; [by eapply made_trans|]. split; [split; [done|by right]|].
  intros res ->. destruct o' as [answer|e|e]; try by inversion H. split; [by inversion H|].
  split; [done|]. split; [done|]. by eexists _, answer, _.
Qed.
End rbac_properties.

(** C11: workspace permissions are what the spec says.  Whatever the API server
    answers, every call of [reconcileWorkspaceRBAC] is one of [rbac_call]:
    objects are written in the target namespaces only, and only objects that
    the control plane manages and does not keep are deleted.  When it returns
    with permissions enabled, the role and the binding of every target
    namespace were accepted with the contents of [grants]; and every listed
    object the control plane manages but does not keep is gone. *)
Theorem workspace_rbac_contract {W} (env : ∀ a : action, M W goerror (reply a)) (cp : CoderControlPlane)
    (st : kst W) :
  let '(o, st') := reconcileWorkspaceRBAC env (Some cp) st in
  (∃ acts, made acts st st' ∧ Forall (rbac_call cp (kept_role cp) (kept_binding cp)) acts) ∧
  ∀ u, o = Ret u →
    (workspacePermsEnabled (WorkspacePerms (RBAC (cp_Spec cp))) = true →
     ∀ ns, ns ∈ targetNamespaces cp → ∃ role rb,
       grants cp (trim_space ns) role rb ∧
       held env KRole role ∧ held env KRoleBinding rb) ∧
    ∃ keep keepB before acts, made (before ++ acts) st st' ∧ cleaned env cp keep keepB acts ∧
      (∀ key, key ∈ keep → kept_role cp key) ∧ (∀ key, key ∈ keepB → kept_binding cp key).
Proof.
  pose proof (only_reconcileWorkspaceRBAC env cp st) as Hcalls.
  pose proof (reconcileWorkspaceRBAC_Ret env cp st) as Hret.
  destruct (reconcileWorkspaceRBAC env (Some cp) st) as [o st']. split; [exact Hcalls|].
  intros u ->. by eapply Hret.
Qed.

(** the control plane is not let go before its workspace permissions are
    gone.  The calls of [finalizeWorkspaceRBAC] are those of a clean-up that
    keeps nothing, and the patch that removes the finalizer is sent only as the
    last call, after every listed role and binding the control plane manages
    was deleted; a control plane with the finalizer is never reported done
    without that patch. *)
Theorem finalizer_contract {W} (env : ∀ a : action, M W goerror (reply a)) (cp : CoderControlPlane)
    (st : kst W) :
  let '(o, st') := finalizeWorkspaceRBAC env (Some cp) st in
  ∃ cleaning rest, made (cleaning ++ rest) st st' ∧ finalization env cp cleaning rest ∧
    ∀ res, o = Ret res → finalized_outcome env cp cleaning rest res.
Proof.
  pose proof (finalize_run env cp st) as H. destruct (finalizeWorkspaceRBAC env (Some cp) st) as [o st'].
  by apply H.
Qed.

End WorkspaceRBAC.
