(* ===== verification/Workload.v ===== *)
(** * Workload: the deployment and the service of a control plane

    [reconcileDeployment] with the lookup of [CODER_ACCESS_URL] in the
    environment sources, the probes, the TLS and CA certificate mounts, and
    [reconcileService], of internal/controller/codercontrolplane_controller.go. *)

From S2P Require Import Prelude GoStd GoStdFacts StringFacts GoErrors ApiTypes Examples KubeObjects Kube ControlPlaneNames ControlPlaneStatus OperatorAccess.

#[local] Open Scope string_scope.
#[local] Open Scope list_scope.

Module Workload.
Import ControlPlaneNames ControlPlaneStatus OperatorAccess.

Definition accessURLEnvVar := "CODER_ACCESS_URL".
Definition defaultCoderImage := "ghcr.io/coder/coder:latest".
Definition ProtocolTCP := "TCP".

(** ** Probes *)

Definition probeEnabled (explicit : option bool) (defaultEnabled : bool) : bool :=
  boolOrDefault explicit defaultEnabled.

Definition buildProbe (spec : ProbeSpec) (path portName : string) : Probe := {|
  hp_Path := path; hp_Port := portName; hp_Scheme := "HTTP";
  hp_InitialDelaySeconds := probe_InitialDelaySeconds spec;
  hp_PeriodSeconds := default 10%Z (probe_PeriodSeconds spec);
  hp_TimeoutSeconds := default 1%Z (probe_TimeoutSeconds spec);
  hp_SuccessThreshold := default 1%Z (probe_SuccessThreshold spec);
  hp_FailureThreshold := default 3%Z (probe_FailureThreshold spec)
|}.

(** ** The access URL *)

(** [Spec.EnvUseClusterAccessURL], by default set. *)
Definition injectClusterAccessURL (cp : CoderControlPlane) : bool :=
  boolOrDefault (EnvUseClusterAccessURL (cp_Spec cp)) true.

Definition accessURL (cp : CoderControlPlane) : string :=
  let tlsEnabled := controlPlaneTLSEnabled (Some cp) in
  let scheme := if tlsEnabled then "https" else "http" in
  let accessURLPort := if tlsEnabled then 443%Z else servicePort cp in
  let url := scheme +:+ "://" +:+ Name (cp_meta cp) +:+ "." +:+ Namespace (cp_meta cp)
               +:+ ".svc.cluster.local" in
  if String.eqb scheme "http" && negb (Z.eqb accessURLPort 80)
     || String.eqb scheme "https" && negb (Z.eqb accessURLPort 443)
  then url +:+ ":" +:+ format_int accessURLPort else url.

(** What is injected, unless the spec sets the variable itself. *)
Definition accessURLEnv (cp : CoderControlPlane) (configuredViaEnvFrom : bool) : result (list EnvVar) :=
  if negb (injectClusterAccessURL cp) then mret []
  else
    configuredAccessURL ← findEnvVar (ExtraEnv (cp_Spec cp)) accessURLEnvVar;
    if is_nil configuredAccessURL && negb configuredViaEnvFrom
    then mret [{| env_Name := accessURLEnvVar; env_Value := accessURL cp; env_ValueFrom := None |}]
    else mret [].

(** ** TLS secrets *)

Record tls_state := {
  tlsSecretSeen : gset string; tls_volumes : list Volume; tls_mounts : list VolumeMount;
  tlsCertFiles : list string; tlsKeyFiles : list string
}.

Definition tls_mount_path (secretName : string) : string := "/etc/ssl/certs/coder/" +:+ secretName.

(** The body of the loop over [Spec.TLS.SecretNames]. *)
Definition addTLSSecret (s : tls_state) (secretName : string) : result tls_state :=
  let secretName := trim_space secretName in
  _ ← fail_if (String.eqb secretName "") (assertion "assertion failed: tls secret name must not be empty");
  if bool_decide (secretName ∈ tlsSecretSeen s) then mret s
  else
    let volumeName := volumeNameForSecret "tls" secretName in
    let mountPath := tls_mount_path secretName in
    mret {| tlsSecretSeen := {[secretName]} ∪ tlsSecretSeen s;
            tls_volumes := tls_volumes s ++ [SecretVolume volumeName secretName];
            tls_mounts := tls_mounts s ++ [Mount volumeName mountPath "" true];
            tlsCertFiles := tlsCertFiles s ++ [mountPath +:+ "/tls.crt"];
            tlsKeyFiles := tlsKeyFiles s ++ [mountPath +:+ "/tls.key"] |}.

Definition no_tls : tls_state := {|
  tlsSecretSeen := ∅; tls_volumes := []; tls_mounts := []; tlsCertFiles := []; tlsKeyFiles := [] |}.

Definition tlsSecrets (cp : CoderControlPlane) : result tls_state :=
  mfold addTLSSecret no_tls (tls_SecretNames (TLS (cp_Spec cp))).

Definition env_value (name value : string) : EnvVar :=
  {| env_Name := name; env_Value := value; env_ValueFrom := None |}.

Definition tlsEnv (s : tls_state) : list EnvVar :=
  [env_value "CODER_TLS_ENABLE" "true"; env_value "CODER_TLS_ADDRESS" "0.0.0.0:8443";
   env_value "CODER_TLS_CERT_FILE" (join "," (tlsCertFiles s));
   env_value "CODER_TLS_KEY_FILE" (join "," (tlsKeyFiles s))].

(** ** CA certificates *)

(** How often each secret is named, blanks aside. *)
Definition certSecretNameCounts (secrets : list CertSecretSelector) : gmap string nat :=
  foldl (λ counts secret,
    let secretName := trim_space (cert_Name secret) in
    if String.eqb secretName "" then counts
    else <[secretName := S (default O (counts !! secretName))]> counts) ∅ secrets.

Record cert_state := {
  certVolumeNameBySecret : gmap string string; certMountFileCount : gmap string nat;
  certSelectorSeen : gset string; cert_volumes : list Volume; cert_mounts : list VolumeMount
}.

Definition ensure_suffix (suffix s : string) : string := if has_suffix suffix s then s else s +:+ suffix.

(** The file name of a certificate, and with [count] earlier files of it. *)
Definition mountFileBase (counts : gmap string nat) (name key : string) : string :=
  ensure_suffix ".crt" (if (1 <? default O (counts !! name))%nat then name +:+ "-" +:+ key else name).
Definition numberedFile (file : string) (count : nat) : string :=
  if (0 <? count)%nat
  then trim_suffix ".crt" file +:+ "-" +:+ format_int (Z.of_nat count + 1) +:+ ".crt" else file.

(** The body of the loop over [Spec.Certs.Secrets]. *)
Definition addCertSecret (counts : gmap string nat) (s : cert_state) (secret : CertSecretSelector)
    : result cert_state :=
  let name := trim_space (cert_Name secret) in
  let key := trim_space (cert_Key secret) in
  _ ← fail_if (String.eqb name "") (assertion "assertion failed: cert secret name must not be empty");
  _ ← fail_if (String.eqb key "") (assertion "assertion failed: cert secret key must not be empty");
  let selectorKey := name +:+ nul +:+ key in
  if bool_decide (selectorKey ∈ certSelectorSeen s) then mret s
  else
    let '(volumeName, byName, volumes) :=
      match certVolumeNameBySecret s !! name with
      | Some volumeName => (volumeName, certVolumeNameBySecret s, cert_volumes s)
      | None =>
          let volumeName := volumeNameForSecret "ca-cert" name in
          (volumeName, <[name := volumeName]> (certVolumeNameBySecret s),
           cert_volumes s ++ [SecretVolume volumeName name])
      end in
    let file := mountFileBase counts name key in
    let count := default O (certMountFileCount s !! file) in
    mret {| certVolumeNameBySecret := byName;
            certMountFileCount := <[file := S count]> (certMountFileCount s);
            certSelectorSeen := {[selectorKey]} ∪ certSelectorSeen s;
            cert_volumes := volumes;
            cert_mounts := cert_mounts s
              ++ [Mount volumeName ("/etc/ssl/certs/" +:+ numberedFile file count) key true] |}.

Definition no_certs : cert_state := {|
  certVolumeNameBySecret := ∅; certMountFileCount := ∅; certSelectorSeen := ∅;
  cert_volumes := []; cert_mounts := [] |}.

Definition certSecrets (cp : CoderControlPlane) : result cert_state :=
  let secrets := Certs (cp_Spec cp) in
  mfold (addCertSecret (certSecretNameCounts secrets)) no_certs secrets.

(** ** The deployment *)

Definition podIPEnv : list EnvVar :=
  [{| env_Name := "KUBE_POD_IP"; env_Value := "";
      env_ValueFrom := Some {| FieldRefPath := Some "status.podIP"; SecretKeyRef := None; OtherSource := None |} |};
   env_value "CODER_DERP_SERVER_RELAY_URL" "http://$(KUBE_POD_IP):8080"].

Definition container_port (name : string) (port : Z) : ContainerPort :=
  {| cport_Name := name; cport_ContainerPort := port; cport_Protocol := ProtocolTCP |}.

(** The container of the control plane, from the computed parts. *)
Definition coder_container (cp : CoderControlPlane) (access : list EnvVar) (tls : tls_state)
    (certs : cert_state) : Container :=
  let spec := cp_Spec cp in
  let tlsEnabled := controlPlaneTLSEnabled (Some cp) in
  {| con_Name := "coder";
     con_Image := if String.eqb (Image spec) "" then defaultCoderImage else Image spec;
     con_Command := [];
     con_Args := "--http-address=0.0.0.0:8080" :: ExtraArgs spec;
     con_Env := podIPEnv ++ access ++ (if tlsEnabled then tlsEnv tls else []) ++ ExtraEnv spec;
     con_EnvFrom := EnvFrom spec;
     con_Ports := container_port "http" controlPlaneTargetPort
       :: (if tlsEnabled then [container_port "https" controlPlaneTLSTargetPort] else []);
     con_VolumeMounts := tls_mounts tls ++ cert_mounts certs ++ (OtherMount <$> VolumeMounts spec);
     con_SecurityContext := SecurityContext spec;
     con_Resources := Resources spec;
     con_ReadinessProbe :=
       if probeEnabled (probe_Enabled (ReadinessProbe spec)) true
       then Some (buildProbe (ReadinessProbe spec) "/healthz" "http") else None;
     con_LivenessProbe :=
       if probeEnabled (probe_Enabled (LivenessProbe spec)) false
       then Some (buildProbe (LivenessProbe spec) "/healthz" "http") else None;
     con_Other := None |}.

Definition coder_pod (cp : CoderControlPlane) (serviceAccountName : string) (container : Container)
    (volumes : list Volume) : PodSpec :=
  let spec := cp_Spec cp in
  {| pod_ServiceAccountName := serviceAccountName;
     pod_ImagePullSecrets := ImagePullSecrets spec;
     pod_Containers := [container];
     pod_Volumes := volumes;
     pod_NodeSelector := NodeSelector spec;
     pod_Tolerations := Tolerations spec;
     pod_TopologySpreadConstraints := TopologySpreadConstraints spec;
     pod_SecurityContext := PodSecurityContext spec;
     pod_Affinity := Affinity spec;
     pod_TerminationGracePeriodSeconds := None;
     pod_Other := None |}.

(** The mutation of the deployment. *)
Definition desired_deployment (cp : CoderControlPlane) (configuredViaEnvFrom : bool) (d : Deployment)
    : result Deployment :=
  let labels := controlPlaneLabels (Name (cp_meta cp)) in
  m ← ownedBy cp (set_labels labels (dep_meta d));
  let serviceAccountName := resolveServiceAccountName cp in
  _ ← fail_if (blank serviceAccountName) (assertion "assertion failed: service account name must not be empty");
  access ← accessURLEnv cp configuredViaEnvFrom;
  tls ← (if controlPlaneTLSEnabled (Some cp) then tlsSecrets cp else mret no_tls);
  certs ← certSecrets cp;
  mret {|
    dep_meta := m;
    dep_Replicas := Some (default 1%Z (Replicas (cp_Spec cp)));
    dep_Selector := Some {| ls_MatchLabels := labels; ls_MatchExpressions := [] |};
    dep_Template := {|
      tpl_Labels := labels; tpl_Annotations := ∅; tpl_Other := None;
      tpl_Spec := coder_pod cp serviceAccountName (coder_container cp access tls certs)
        (tls_volumes tls ++ cert_volumes certs ++ (OtherVolume <$> Volumes (cp_Spec cp))) |};
    dep_OtherSpec := dep_OtherSpec d;
    dep_ReadyReplicas := dep_ReadyReplicas d |}.

Definition empty_pod : PodSpec := {|
  pod_ServiceAccountName := ""; pod_ImagePullSecrets := []; pod_Containers := []; pod_Volumes := [];
  pod_NodeSelector := ∅; pod_Tolerations := []; pod_TopologySpreadConstraints := [];
  pod_SecurityContext := None; pod_Affinity := None;
  pod_TerminationGracePeriodSeconds := None; pod_Other := None |}.
Definition new_deployment (key : object_key) : Deployment := {|
  dep_meta := meta_of_key key; dep_Replicas := None; dep_Selector := None;
  dep_Template := {| tpl_Labels := ∅; tpl_Annotations := ∅; tpl_Other := None; tpl_Spec := empty_pod |};
  dep_OtherSpec := None; dep_ReadyReplicas := 0 |}.

(** ** The service *)

Definition service_port (name : string) (port target : Z) : ServicePort :=
  {| sp_Name := name; sp_Port := port; sp_Protocol := ProtocolTCP; sp_TargetPort := target; sp_NodePort := 0 |}.

Definition servicePorts (cp : CoderControlPlane) : list ServicePort :=
  let tlsEnabled := controlPlaneTLSEnabled (Some cp) in
  let port := servicePort cp in
  (if tlsEnabled && Z.eqb port 443
   then service_port "https" port controlPlaneTLSTargetPort
   else service_port "http" port controlPlaneTargetPort)
    :: (if tlsEnabled && Z.eqb port 443
        then [service_port "http" defaultControlPlanePort controlPlaneTargetPort] else [])
    ++ (if tlsEnabled && negb (Z.eqb port 443)
        then [service_port "https" 443 controlPlaneTLSTargetPort] else []).

(** The mutation of the service. *)
Definition desired_service (cp : CoderControlPlane) (s : ServiceObject) : result ServiceObject :=
  let labels := controlPlaneLabels (Name (cp_meta cp)) in
  let spec := Service (cp_Spec cp) in
  m ← ownedBy cp (set_annotations (svc_Annotations spec) (set_labels labels (svo_meta s)));
  mret {|
    svo_meta := m;
    svo_Type := if String.eqb (svc_Type spec) "" then "ClusterIP" else svc_Type spec;
    svo_Selector := labels;
    svo_Ports := servicePorts cp;
    svo_OtherSpec := svo_OtherSpec s |}.

Definition new_service (key : object_key) : ServiceObject := {|
  svo_meta := meta_of_key key; svo_Type := ""; svo_Selector := ∅; svo_Ports := []; svo_OtherSpec := None |}.

(** ** Calls *)

Section workload.
Context {W : Type} (env : ∀ a : action, M W goerror (reply a)).

(** What an environment source says about a key: an object that does not exist
    defines nothing. *)
Definition source_defines (rd : reader) (k : kind) (data : obj k → gmap string string)
    (key : object_key) (lookupKey : string) (wrap : goerror → goerror) : reconciliation (W:=W) bool :=
  found ← attempt (act env (AGet rd k key));
  match found with
  | inl o => mret (bool_decide (is_Some (data o !! lookupKey)))
  | inr err => if IsNotFound err then mret false else throw (wrap err)
  end.

(** The loop of [envFromDefinesEnvVar] from index [i]. *)
Fixpoint sources_define (rd : reader) (namespace envVarName : string) (i : Z)
    (envFromSources : list EnvFromSource) : reconciliation (W:=W) bool :=
  match envFromSources with
  | [] => mret false
  | source :: rest =>
      let '(lookupKey, includeSource) := envFromLookupKeyForEnvVar (ef_Prefix source) envVarName in
      if negb includeSource then sources_define rd namespace envVarName (i + 1) rest
      else
        inConfigMap ← match ef_ConfigMapRef source with
          | None => mret false
          | Some ref =>
              let name := trim_space ref in
              _ ← guard_err (String.eqb name "")
                    (Errorf "assertion failed: envFrom[%d].configMapRef.name must not be empty" [FInt i]);
              source_defines rd KConfigMap cm_Data (namespace, name) lookupKey
                (λ err, Errorf "get envFrom[%d] configmap %s/%s: %w" [FInt i; FStr namespace; FStr name; FErrW err])
          end;
        if inConfigMap : bool then mret true
        else
          inSecret ← match ef_SecretRef source with
            | None => mret false
            | Some ref =>
                let name := trim_space ref in
                _ ← guard_err (String.eqb name "")
                      (Errorf "assertion failed: envFrom[%d].secretRef.name must not be empty" [FInt i]);
                source_defines rd KSecret secret_Data (namespace, name) lookupKey
                  (λ err, Errorf "get envFrom[%d] secret %s/%s: %w" [FInt i; FStr namespace; FStr name; FErrW err])
            end;
          if inSecret : bool then mret true
          else sources_define rd namespace envVarName (i + 1) rest
  end.

(** The reader is never nil in a reconciliation, which has a client. *)
Definition envFromDefinesEnvVar (r : reconciler) (namespace : string) (envFromSources : list EnvFromSource)
    (envVarName : string) : reconciliation (W:=W) bool :=
  _ ← guard_err (blank namespace) (assertion "assertion failed: namespace must not be empty");
  _ ← guard_err (blank envVarName) (assertion "assertion failed: environment variable name must not be empty");
  _ ← guard_err (negb (hasAPIReader r || hasClient r)) (assertion "assertion failed: reader must not be nil");
  sources_define (if hasAPIReader r then APIServerReader else CachedReader) namespace envVarName 0 envFromSources.

Definition reconcileDeployment (r : reconciler) (cp : option CoderControlPlane)
    : reconciliation (W:=W) Deployment :=
  match cp with
  | None => throw (assertion "assertion failed: coder control plane must not be nil")
  | Some cp =>
      let m := cp_meta cp in
      viaEnvFrom ← (if injectClusterAccessURL cp
                    then envFromDefinesEnvVar r (Namespace m) (EnvFrom (cp_Spec cp)) accessURLEnvVar
                    else mret false);
      map_err (λ err, Errorf "reconcile control plane deployment: %w" [FErrW err])
        (CreateOrUpdate env KDeployment (new_deployment (Namespace m, Name m))
           (desired_deployment cp viaEnvFrom))
  end.

Definition reconcileService (cp : CoderControlPlane) : reconciliation (W:=W) ServiceObject :=
  let m := cp_meta cp in
  map_err (λ err, Errorf "reconcile control plane service: %w" [FErrW err])
    (CreateOrUpdate env KService (new_service (Namespace m, Name m)) (desired_service cp)).
End workload.

(** * Properties *)

(** ** The service and what it reaches *)

(** The ports are pairwise distinct, by number and by name. *)
Lemma servicePorts_NoDup cp :
  NoDup (sp_Port <$> servicePorts cp) ∧ NoDup (sp_Name <$> servicePorts cp).
Proof.
  unfold servicePorts. cbv zeta. destruct (controlPlaneTLSEnabled _), (Z.eqb_spec (servicePort cp) 443);
    cbn; rewrite ?NoDup_cons, ?elem_of_cons, ?elem_of_nil;
    pose proof (@NoDup_nil_2 Z); pose proof (@NoDup_nil_2 string); unfold defaultControlPlanePort; intuition congruence.
Qed.

(** ** TLS secrets *)

(** The reference of the loop: the trimmed names at their first occurrences. *)
Definition tls_of (names : list string) : tls_state :=
  let order := firsts names in {|
  tlsSecretSeen := list_to_set order;
  tls_volumes := (λ n, SecretVolume (volumeNameForSecret "tls" n) n) <$> order;
  tls_mounts := (λ n, Mount (volumeNameForSecret "tls" n) (tls_mount_path n) "" true) <$> order;
  tlsCertFiles := (λ n, tls_mount_path n +:+ "/tls.crt") <$> order;
  tlsKeyFiles := (λ n, tls_mount_path n +:+ "/tls.key") <$> order |}.

Lemma addTLSSecret_step names s name :
  s = tls_of names → trim_space name ≠ "" →
  addTLSSecret s name = Ret (tls_of (names ++ [trim_space name])).
Proof.
  intros -> Hne. unfold addTLSSecret. cbv zeta. rewrite (proj2 (String.eqb_neq _ _) Hne).
  cbn [tlsSecretSeen tls_volumes tls_mounts tlsCertFiles tlsKeyFiles tls_of]. unfold fail_if. cbn.
  case_bool_decide as Hin; rewrite elem_of_list_to_set, elem_of_firsts in Hin;
    unfold tls_of; rewrite firsts_snoc.
  - by rewrite decide_True by done.
  - rewrite decide_False by done. unfold mret, outcome_mret. do 2 f_equal; [set_solver|by rewrite fmap_app..].
Qed.


Lemma tlsSecrets_Ret cp s : tlsSecrets cp = Ret s →
  let names := trim_space <$> tls_SecretNames (TLS (cp_Spec cp)) in
  s = tls_of names ∧ "" ∉ names.
Proof.
  unfold tlsSecrets. apply (mfold_invariant addTLSSecret
    (λ done s, s = tls_of (trim_space <$> done) ∧ "" ∉ trim_space <$> done)); [split; [done|set_solver]|].
  intros done name x y [Hx Hb] Hstep _.
  assert (trim_space name ≠ "") as Hne.
  { unfold addTLSSecret in Hstep. inv_outcome Hstep. by apply String.eqb_neq. }
  rewrite (addTLSSecret_step _ _ _ Hx Hne) in Hstep. injection Hstep as <-.
  rewrite fmap_app. split; [done|]. set_solver.
Qed.

(** The loop succeeds exactly if no name is blank. *)
Lemma tlsSecrets_total cp :
  "" ∉ trim_space <$> tls_SecretNames (TLS (cp_Spec cp)) →
  tlsSecrets cp = Ret (tls_of (trim_space <$> tls_SecretNames (TLS (cp_Spec cp)))).
Proof.
  unfold tlsSecrets. change no_tls with (tls_of (trim_space <$> [])).
  change (trim_space <$> tls_SecretNames (TLS (cp_Spec cp)))
    with (trim_space <$> ([] ++ tls_SecretNames (TLS (cp_Spec cp)))) at 2.
  generalize (@nil string) as done. induction (tls_SecretNames _) as [|n l IH]; intros done Hb; cbn.
  - by rewrite app_nil_r.
  - rewrite (addTLSSecret_step _ _ _ eq_refl) by set_solver. cbn.
    change [trim_space n] with (trim_space <$> [n]). rewrite <-fmap_app, IH by set_solver.
    by rewrite <-app_assoc.
Qed.


(** ** CA certificates *)

Definition cert_volume (name : string) : Volume := SecretVolume (volumeNameForSecret "ca-cert" name) name.
Definition cert_name (c : CertSecretSelector) : string := trim_space (cert_Name c).
Definition cert_key (c : CertSecretSelector) : string := trim_space (cert_Key c).
Definition selector_key (name key : string) : string := name +:+ nul +:+ key.

(** A mount the loop has made: the secret, its key, and the number of earlier
    mounts with the same file name. *)
Record cert_entry := { ce_name : string; ce_key : string; ce_count : nat }.

Definition entry_base (counts : gmap string nat) (e : cert_entry) : string :=
  mountFileBase counts (ce_name e) (ce_key e).
Definition entry_path (counts : gmap string nat) (e : cert_entry) : string :=
  "/etc/ssl/certs/" +:+ numberedFile (entry_base counts e) (ce_count e).
Definition entry_mount (counts : gmap string nat) (e : cert_entry) : VolumeMount :=
  Mount (volumeNameForSecret "ca-cert" (ce_name e)) (entry_path counts e) (ce_key e) true.

Record cert_inv (counts : gmap string nat) (done : list CertSecretSelector) (s : cert_state)
    (l : list cert_entry) : Prop := {
  ci_mounts : cert_mounts s = entry_mount counts <$> l;
  ci_seen : ∀ key, key ∈ certSelectorSeen s ↔
    ∃ e, e ∈ l ∧ key = selector_key (ce_name e) (ce_key e);
  ci_done : ∀ c, c ∈ done → cert_name c ≠ "" ∧ cert_key c ≠ "" ∧
    selector_key (cert_name c) (cert_key c) ∈ certSelectorSeen s;
  ci_entries : ∀ e, e ∈ l → cert_volume (ce_name e) ∈ cert_volumes s ∧
    (ce_count e < default O (certMountFileCount s !! entry_base counts e))%nat ∧
    ∃ c, c ∈ done ∧ ce_name e = cert_name c ∧ ce_key e = cert_key c;
  ci_files : NoDup ((λ e, (entry_base counts e, ce_count e)) <$> l);
  ci_byName : ∀ n v, certVolumeNameBySecret s !! n = Some v → v = volumeNameForSecret "ca-cert" n;
  ci_volumes : NoDup (cert_volumes s);
  ci_volume : ∀ v, v ∈ cert_volumes s ↔
    ∃ n, is_Some (certVolumeNameBySecret s !! n) ∧ v = cert_volume n
}.

Lemma cert_inv_start counts : cert_inv counts [] no_certs [].
Proof.
  split; cbn; try done; try set_solver.
  - apply NoDup_nil_2.
  - apply NoDup_nil_2.
  - intros v. rewrite elem_of_nil. split; [done|]. intros (n & [? H] & _). by rewrite lookup_empty in H.
Qed.

(** The volume of a secret that is mounted once more. *)
Lemma cert_volume_step counts done s l name volumeName byName volumes :
  cert_inv counts done s l →
  match certVolumeNameBySecret s !! name with
  | Some volumeName => (volumeName, certVolumeNameBySecret s, cert_volumes s)
  | None =>
      let volumeName := volumeNameForSecret "ca-cert" name in
      (volumeName, <[name := volumeName]> (certVolumeNameBySecret s),
       cert_volumes s ++ [SecretVolume volumeName name])
  end = (volumeName, byName, volumes) →
  volumeName = volumeNameForSecret "ca-cert" name ∧ cert_volume name ∈ volumes ∧
  (∀ v, v ∈ cert_volumes s → v ∈ volumes) ∧
  (∀ n v, byName !! n = Some v → v = volumeNameForSecret "ca-cert" n) ∧ NoDup volumes ∧
  (∀ v, v ∈ volumes ↔ ∃ n, is_Some (byName !! n) ∧ v = cert_volume n).
Proof.
  intros Hinv. pose proof (ci_volume _ _ _ _ Hinv) as Hv. pose proof (ci_byName _ _ _ _ Hinv) as Hb.
  destruct (certVolumeNameBySecret s !! name) as [v0|] eqn:Hl; intros [= <- <- <-].
  - split_and!; [by apply Hb|apply Hv; by exists name|done|done|by apply Hinv|done].
  - split_and!; [done|set_solver|set_solver|..].
    + intros n v. destruct (decide (name = n)) as [->|Hne]; [rewrite lookup_insert_eq; by intros [= <-]|].
      rewrite lookup_insert_ne by done. apply Hb.
    + apply NoDup_app. split_and!; [by apply Hinv| |apply NoDup_singleton].
      intros x (n & Hn & ->)%Hv Hx%list_elem_of_singleton. injection Hx as _ ->. rewrite Hl in Hn. by destruct Hn.
    + intros v. rewrite elem_of_app, Hv, list_elem_of_singleton. split.
      * intros [(n & Hn & ->)| ->]; [exists n|exists name]; (split; [|done]);
          [|rewrite lookup_insert_eq; by eexists].
        destruct (decide (name = n)) as [->|]; [rewrite lookup_insert_eq; by eexists|by rewrite lookup_insert_ne].
      * intros (n & Hn & ->). destruct (decide (name = n)) as [->|Hne]; [by right|].
        rewrite lookup_insert_ne in Hn by done. left. by exists n.
Qed.


Lemma cert_inv_seen counts done s l c :
  cert_inv counts done s l → cert_name c ≠ "" → cert_key c ≠ "" →
  selector_key (cert_name c) (cert_key c) ∈ certSelectorSeen s →
  cert_inv counts (done ++ [c]) s l.
Proof.
  intros [Hm Hs Hd He Hf Hb Hn Hv] Hc1 Hc2 Hin. split; try done.
  - intros c' [?| ->%list_elem_of_singleton]%elem_of_app; [by apply Hd|done].
  - intros e (H1 & H2 & c' & H3 & H4)%He. split_and!; [done|done|]. exists c'. split; [set_solver|done].
Qed.

Lemma addCertSecret_inv counts done s l c s' :
  cert_inv counts done s l → addCertSecret counts s c = Ret s' →
  ∃ l', cert_inv counts (done ++ [c]) s' l'.
Proof.
  intros Hinv. unfold addCertSecret. cbv zeta. fold (cert_name c) (cert_key c).
  intros ([] & Hc1%fail_if_Ret%String.eqb_neq & ([] & Hc2%fail_if_Ret%String.eqb_neq & H)%outcome_bind_Ret)%outcome_bind_Ret.
  fold (selector_key (cert_name c) (cert_key c)) in H. case_bool_decide as Hin.
  { injection H as <-. exists l. by apply cert_inv_seen. }
  destruct (match certVolumeNameBySecret s !! cert_name c with Some _ => _ | None => _ end)
    as [[volumeName byName] volumes] eqn:Hvol.
  apply (cert_volume_step _ _ _ _ _ _ _ _ Hinv) in Hvol as (-> & Hv1 & Hv2 & Hb & Hn & Hv).
  set (file := mountFileBase counts (cert_name c) (cert_key c)) in H.
  set (k := default O (certMountFileCount s !! file)) in H. injection H as <-.
  destruct Hinv as [Hm Hs Hd He Hf _ _ _].
  exists (l ++ [{| ce_name := cert_name c; ce_key := cert_key c; ce_count := k |}]).
  split; cbn [cert_mounts certSelectorSeen certMountFileCount cert_volumes certVolumeNameBySecret];
    [by rewrite fmap_app, Hm|..|done|done|done].
  - intros key. rewrite elem_of_union, elem_of_singleton, Hs. split.
    + intros [-> |(e & ? & ->)]; [eexists {| ce_name := _; ce_key := _ |}; split; [by apply elem_of_app; right; left|done]|].
      exists e. split; [set_solver|done].
    + intros (e & [?| ->%list_elem_of_singleton]%elem_of_app & ->); [right; by exists e|by left].
  - intros c' [(? & ? & ?)%Hd| ->%list_elem_of_singleton]%elem_of_app; set_solver.
  - intros e [(H1 & H2 & c' & H3 & H4)%He| ->%list_elem_of_singleton]%elem_of_app; cbn [ce_name ce_key ce_count].
    + split_and!; [by apply Hv2| |exists c'; split; [set_solver|done]].
      destruct (decide (file = entry_base counts e)) as [Heq|Hne]; [|by rewrite lookup_insert_ne].
      rewrite Heq, lookup_insert_eq. cbn. unfold k. rewrite Heq. lia.
    + split_and!; [done| |exists c; split; [set_solver|done]].
      unfold entry_base. cbn [ce_name ce_key]. fold file. rewrite lookup_insert_eq. cbn. lia.
  - rewrite fmap_app. apply NoDup_app. split_and!; [done| |apply NoDup_singleton].
    intros x (e & -> & (_ & Hlt & _)%He)%list_elem_of_fmap Hx%list_elem_of_singleton.
    unfold entry_base in Hx at 2. cbn [ce_name ce_key ce_count] in Hx. fold file in Hx.
    injection Hx as Hx1 Hx2. rewrite Hx1 in Hlt. fold k in Hlt. lia.
Qed.

Lemma certSecrets_inv cp s : certSecrets cp = Ret s →
  ∃ l, cert_inv (certSecretNameCounts (Certs (cp_Spec cp))) (Certs (cp_Spec cp)) s l.
Proof.
  unfold certSecrets. cbv zeta. apply (mfold_invariant (addCertSecret _) (λ done s, ∃ l, cert_inv _ done s l)).
  - exists []. apply cert_inv_start.
  - intros done c x y [l Hl] Hstep _. by eapply addCertSecret_inv.
Qed.


(** *** File names *)

Lemma ensure_suffix_has suffix x : ∃ g, ensure_suffix suffix x = g +:+ suffix.
Proof.
  unfold ensure_suffix. destruct (has_suffix suffix x) eqn:H; [by apply has_suffix_split|by exists x].
Qed.

Lemma numberedFile_inj g1 g2 i1 i2 :
  (0 < i1)%nat → (0 < i2)%nat →
  numberedFile (g1 +:+ ".crt") i1 = numberedFile (g2 +:+ ".crt") i2 → g1 = g2 ∧ i1 = i2.
Proof.
  intros H1 H2. unfold numberedFile. rewrite !(proj2 (Nat.ltb_lt _ _)) by done. rewrite !trim_suffix_app.
  assert (∀ i, contains_char "-" (format_int (Z.of_nat i + 1) +:+ ".crt") = false) as Hd.
  { intros i. by rewrite contains_char_app, format_int_no_dash by lia. }
  intros [-> Hf%(f_equal (trim_suffix ".crt"))]%append_inj_last; [|apply Hd..].
  rewrite !trim_suffix_app in Hf. apply (inj pretty) in Hf. split; [done|lia].
Qed.

(** The reference of the certificates' mounts, in the order of the spec: the
    selectors, each once; the file of a selector, named after its secret, and
    also after its key if the spec names the secret more than once; the [n]-th
    use of a file name, from the second on numbered. *)
Definition selector (c : CertSecretSelector) : string * string := (cert_name c, cert_key c).
Definition times_named (cp : CoderControlPlane) (name : string) : nat :=
  length (filter (λ c, cert_name c = name) (Certs (cp_Spec cp))).
Definition cert_file (cp : CoderControlPlane) (sel : string * string) : string :=
  ensure_suffix ".crt" (if decide (1 < times_named cp sel.1)%nat then sel.1 +:+ "-" +:+ sel.2 else sel.1).
Definition nth_file (file : string) (n : nat) : string :=
  match n with
  | O | 1%nat => file
  | _ => trim_suffix ".crt" file +:+ "-" +:+ format_int (Z.of_nat n) +:+ ".crt"
  end.
Fixpoint ca_mounts_from (file : string * string → string) (before l : list (string * string)) : list VolumeMount :=
  match l with
  | [] => []
  | sel :: l =>
      let n := length (filter (λ sel', file sel' = file sel) before) in
      Mount (volumeNameForSecret "ca-cert" sel.1) ("/etc/ssl/certs/" +:+ nth_file (file sel) (S n)) sel.2 true
      :: ca_mounts_from file (before ++ [sel]) l
  end.
Definition ca_mounts (cp : CoderControlPlane) : list VolumeMount :=
  ca_mounts_from (cert_file cp) [] (firsts (selector <$> Certs (cp_Spec cp))).

Lemma ca_mounts_from_snoc file before l sel :
  ca_mounts_from file before (l ++ [sel]) = ca_mounts_from file before l
    ++ [Mount (volumeNameForSecret "ca-cert" sel.1)
          ("/etc/ssl/certs/" +:+ nth_file (file sel) (S (length (filter (λ sel', file sel' = file sel) (before ++ l))))) sel.2 true].
Proof.
  revert before. induction l as [|x l IH]; intros before; cbn; [by rewrite app_nil_r|]. by rewrite IH, <-app_assoc.
Qed.

Lemma numberedFile_nth file n : numberedFile file n = nth_file file (S n).
Proof.
  destruct n as [|n]; [done|]. unfold numberedFile, nth_file. cbn [Nat.ltb Nat.leb].
  do 4 f_equal. lia.
Qed.

(** The counts of the code are those of the reference. *)
Lemma certSecretNameCounts_spec l name :
  name ≠ "" → default O (certSecretNameCounts l !! name) = length (filter (λ c, cert_name c = name) l).
Proof.
  intros Hne. unfold certSecretNameCounts. induction l as [|c l IH] using rev_ind; [done|].
  rewrite foldl_app, filter_app, length_app, <-IH. cbn [foldl]. fold (cert_name c).
  set (m := foldl _ _ _). destruct (String.eqb_spec (cert_name c) "") as [He|He].
  - rewrite filter_cons_False by congruence. cbn. lia.
  - destruct (decide (cert_name c = name)) as [<-|Hn].
    + rewrite lookup_insert_eq, filter_cons_True by done. cbn. lia.
    + rewrite lookup_insert_ne, filter_cons_False by done. cbn. lia.
Qed.

Lemma cert_file_base cp name key : name ≠ "" →
  mountFileBase (certSecretNameCounts (Certs (cp_Spec cp))) name key = cert_file cp (name, key).
Proof.
  intros Hne. unfold mountFileBase, cert_file, times_named. cbn [fst snd]. rewrite certSecretNameCounts_spec by done.
  destruct (Nat.ltb_spec 1 (length (filter (λ c, cert_name c = name) (Certs (cp_Spec cp))))), (decide _); done || lia.
Qed.

(** The loop computes the reference, for names without NUL. *)
Record certs_computed (cp : CoderControlPlane) (sels : list (string * string)) (s : cert_state) : Prop := {
  cc_mounts : cert_mounts s = ca_mounts_from (cert_file cp) [] sels;
  cc_seen : ∀ name key, contains_char "000" name = false →
    (selector_key name key ∈ certSelectorSeen s ↔ (name, key) ∈ sels);
  cc_files : ∀ file, default O (certMountFileCount s !! file) = length (filter (λ sel, cert_file cp sel = file) sels);
  cc_volumes : ∀ name, default (volumeNameForSecret "ca-cert" name) (certVolumeNameBySecret s !! name)
    = volumeNameForSecret "ca-cert" name
}.

Lemma selector_key_inj name key name' key' :
  contains_char "000" name = false → contains_char "000" name' = false →
  selector_key name key = selector_key name' key' → name = name' ∧ key = key'.
Proof.
  intros H1 H2 Heq. unfold selector_key in Heq. change nul with (String "000" "") in Heq. cbn in Heq.
  by apply append_inj_first in Heq as [-> ->].
Qed.

Lemma NoDup_fmap_inj {A B} (f : A → B) (l : list A) :
  NoDup (f <$> l) → ∀ x y, x ∈ l → y ∈ l → f x = f y → x = y.
Proof.
  induction l as [|a l IH]; cbn; [by intros _ ?? ?%elem_of_nil|]. rewrite NoDup_cons, list_elem_of_fmap.
  intros [Ha Hl] x y [->|Hx]%elem_of_cons [->|Hy]%elem_of_cons Heq; [done|..|by apply IH]; destruct Ha; eauto.
Qed.

Lemma NoDup_fmap_weaken {A B C} (f : A → B) (g : A → C) (l : list A) :
  (∀ x y, x ∈ l → y ∈ l → g x = g y → f x = f y) → NoDup (f <$> l) → NoDup (g <$> l).
Proof.
  induction l as [|x l IH]; intros Hfg; cbn; [intros _; apply NoDup_nil_2|].
  rewrite !NoDup_cons. intros [Hx Hl]. split; [|apply IH; [|done]; intros; apply Hfg; set_solver].
  intros (y & Heq & Hy)%list_elem_of_fmap. apply Hx, list_elem_of_fmap. exists y. split; [|done].
  apply Hfg; set_solver.
Qed.

Lemma addCertSecret_computes cp sels s c s' :
  certs_computed cp sels s → (∀ sel, sel ∈ sels → contains_char "000" sel.1 = false) →
  contains_char "000" (cert_name c) = false →
  addCertSecret (certSecretNameCounts (Certs (cp_Spec cp))) s c = Ret s' →
  certs_computed cp (if decide (selector c ∈ sels) then sels else sels ++ [selector c]) s'.
Proof.
  intros [Hm Hs Hf Hv] Hnul Hc. unfold addCertSecret. cbv zeta. fold (cert_name c) (cert_key c).
  intros ([] & Hc1%fail_if_Ret%String.eqb_neq & ([] & Hc2%fail_if_Ret%String.eqb_neq & H)%outcome_bind_Ret)%outcome_bind_Ret.
  fold (selector_key (cert_name c) (cert_key c)) in H. specialize (Hv (cert_name c)) as Hvc.
  case_bool_decide as Hin; rewrite Hs in Hin by done.
  { injection H as <-. rewrite decide_True by done. by constructor. }
  rewrite decide_False by done. rewrite (cert_file_base cp) in H by done. fold (selector c) in H.
  destruct (match certVolumeNameBySecret s !! cert_name c with Some _ => _ | None => _ end)
    as [[volumeName byName] volumes] eqn:Hvol.
  assert (volumeName = volumeNameForSecret "ca-cert" (cert_name c) ∧
    ∀ n, default (volumeNameForSecret "ca-cert" n) (byName !! n) = volumeNameForSecret "ca-cert" n) as [-> Hby].
  { destruct (certVolumeNameBySecret s !! cert_name c) eqn:El; injection Hvol as <- <- _; [by split|].
    split; [done|]. intros n. destruct (decide (cert_name c = n)) as [<-|]; [by rewrite lookup_insert_eq|].
    by rewrite lookup_insert_ne. }
  injection H as <-. split; cbn [cert_mounts certSelectorSeen certMountFileCount certVolumeNameBySecret]; [..|done].
  - rewrite ca_mounts_from_snoc, app_nil_l, Hm, Hf, numberedFile_nth. done.
  - intros name key Hn. rewrite elem_of_union, elem_of_singleton, elem_of_app, list_elem_of_singleton, Hs by done.
    split; [|intros [?|[= -> ->]]; [by right|by left]].
    intros [[-> ->]%selector_key_inj|?]; [by right|done|done|by left].
  - intros file. rewrite filter_app, length_app. destruct (decide (cert_file cp (selector c) = file)) as [<-|Hne].
    + rewrite lookup_insert_eq, filter_cons_True, Hf by done. cbn. lia.
    + rewrite lookup_insert_ne, filter_cons_False, Hf by done. cbn. lia.
Qed.

Lemma certSecrets_computes cp s :
  (∀ c, c ∈ Certs (cp_Spec cp) → contains_char "000" (cert_name c) = false) →
  certSecrets cp = Ret s → cert_mounts s = ca_mounts cp.
Proof.
  intros Hnul. unfold certSecrets, ca_mounts. cbv zeta. intros H.
  enough ((∀ c, c ∈ Certs (cp_Spec cp) → c ∈ Certs (cp_Spec cp)) →
    certs_computed cp (firsts (selector <$> Certs (cp_Spec cp))) s) as Hall by (by apply Hall).
  revert H. apply (mfold_invariant (addCertSecret _) (λ done s, (∀ c, c ∈ done → c ∈ Certs (cp_Spec cp)) →
    certs_computed cp (firsts (selector <$> done)) s)).
  - intros _. split; try done. intros name key _. cbn. by rewrite elem_of_empty, elem_of_nil.
  - intros done c x y IH Hstep _ Hd. rewrite fmap_app. cbn. rewrite firsts_snoc.
    eapply addCertSecret_computes in Hstep; [|apply IH; set_solver| |apply Hnul; set_solver].
    2: { intros sel (c' & -> & Hc')%elem_of_firsts%list_elem_of_fmap. cbn. apply Hnul. set_solver. }
    destruct (decide (selector c ∈ firsts (selector <$> done))) as [Hin|Hin]; rewrite elem_of_firsts in Hin.
    + by rewrite decide_True.
    + by rewrite decide_False.
Qed.

(** The uses of the file names, numbered from one. *)
Definition file_uses (cp : CoderControlPlane) (file : string) : nat :=
  length (filter (λ sel, cert_file cp sel = file) (firsts (selector <$> Certs (cp_Spec cp)))).

(** A certificate whose file name is also the name of a numbered use. *)
Definition numbered_clash (cp : CoderControlPlane) : Prop :=
  ∃ file file' n, (1 ≤ file_uses cp file)%nat ∧ (2 ≤ n ≤ file_uses cp file')%nat ∧ file = nth_file file' n.

Definition mount_path (m : VolumeMount) : option string :=
  match m with Mount _ path _ _ => Some path | OtherMount _ => None end.

Fixpoint file_numbers (file : string * string → string) (before l : list (string * string)) : list (string * nat) :=
  match l with
  | [] => []
  | sel :: l => (file sel, S (length (filter (λ sel', file sel' = file sel) before))) :: file_numbers file (before ++ [sel]) l
  end.

Lemma elem_of_file_numbers file before l f n :
  (f, n) ∈ file_numbers file before l ↔
  (length (filter (λ sel, file sel = f) before) < n ≤ length (filter (λ sel, file sel = f) (before ++ l)))%nat.
Proof.
  revert before. induction l as [|x l IH]; intros before; cbn.
  - rewrite elem_of_nil, app_nil_r. lia.
  - rewrite elem_of_cons, IH, <-app_assoc, !filter_app, !length_app. cbn [app].
    destruct (decide (file x = f)) as [<-|Hne].
    + rewrite !filter_cons_True by done. cbn. split; [intros [Heq|?]; [simplify_eq|]; lia|intros H].
      destruct (decide (n = S (length (filter (λ sel, file sel = file x) before)))) as [->|]; [by left|right; lia].
    + rewrite !filter_cons_False by done. cbn. split; [intros [Heq|?]; [by simplify_eq|lia]|right; lia].
Qed.

Lemma NoDup_file_numbers file before l : NoDup (file_numbers file before l).
Proof.
  revert before. induction l as [|x l IH]; intros before; cbn; [apply NoDup_nil_2|].
  rewrite NoDup_cons, elem_of_file_numbers, filter_app, length_app, filter_cons_True by done. split; [cbn; lia|done].
Qed.

Lemma ca_mounts_paths file before l :
  mount_path <$> ca_mounts_from file before l =
  (λ u, Some ("/etc/ssl/certs/" +:+ nth_file u.1 u.2)) <$> file_numbers file before l.
Proof. revert before. induction l as [|x l IH]; intros before; cbn; [done|]. by rewrite IH. Qed.

Lemma nth_file_inj g1 g2 i1 i2 :
  (2 ≤ i1)%nat → (2 ≤ i2)%nat → nth_file (g1 +:+ ".crt") i1 = nth_file (g2 +:+ ".crt") i2 → g1 = g2 ∧ i1 = i2.
Proof.
  intros H1 H2. destruct i1 as [|i1], i2 as [|i2]; [lia..|]. rewrite <-!numberedFile_nth.
  intros [-> ->]%numberedFile_inj; [done|lia..].
Qed.

Lemma file_suffix cp f : (0 < file_uses cp f)%nat → ∃ g, f = g +:+ ".crt".
Proof.
  unfold file_uses. intros Hu. destruct (filter (λ sel, cert_file cp sel = f) _) as [|sel r] eqn:E; [cbn in Hu; lia|].
  assert (sel ∈ sel :: r) as Hs by (by left). rewrite <-E in Hs. apply list_elem_of_filter in Hs as [<- _].
  apply ensure_suffix_has.
Qed.

(** The paths of the certificates are different, but for the clashes. *)
Lemma cert_paths_NoDup cp : NoDup (mount_path <$> ca_mounts cp) ↔ ¬ numbered_clash cp.
Proof.
  unfold ca_mounts. rewrite ca_mounts_paths. set (l := firsts _).
  assert (∀ f n, (f, n) ∈ file_numbers (cert_file cp) [] l ↔ (0 < n ≤ file_uses cp f)%nat) as Hin
    by (intros; apply elem_of_file_numbers).
  split.
  - intros Hnd (f & f' & n & Hf & Hn & Heq).
    assert ((f, 1%nat) = (f', n)) as [= _ <-]; [|lia].
    apply (NoDup_fmap_inj _ _ Hnd); [apply Hin; lia..|].
    cbn [fst snd]. by rewrite <-Heq.
  - intros Hclash. eapply (NoDup_fmap_weaken id); [|rewrite list_fmap_id; apply NoDup_file_numbers].
    intros [f n] [f' n'] Hu Hu' Heq%(inj Some)%(inj (String.append _)). cbn [fst snd] in Heq. unfold id.
    apply Hin in Hu, Hu'.
    destruct n as [|[|n]], n' as [|[|n']]; try lia.
    + cbn in Heq. by rewrite Heq.
    + destruct Hclash. exists f, f', (S (S n')). split_and!; [lia..|exact Heq].
    + destruct Hclash. exists f', f, (S (S n)). split_and!; [lia..|by symmetry].
    + destruct (file_suffix cp f ltac:(lia)) as [g ->], (file_suffix cp f' ltac:(lia)) as [g' ->].
      by apply nth_file_inj in Heq as [-> ->]; [|lia..].
Qed.

(** *** The access URL *)

Lemma find_env_filter found envVars name r :
  find_env found envVars name = Ret r →
  option_list found ++ List.filter (λ v, String.eqb (env_Name v) name) envVars = option_list r.
Proof.
  revert found. induction envVars as [|v l IH]; intros found; cbn.
  - intros [= <-]. by rewrite app_nil_r.
  - destruct (String.eqb (env_Name v) name); cbn; [|apply IH].
    destruct found; cbn; [discriminate|]. intros <-%IH. done.
Qed.

Definition is_access (v : EnvVar) : bool := String.eqb (env_Name v) accessURLEnvVar.

Lemma accessURLEnv_Ret cp v access : accessURLEnv cp v = Ret access →
  let extra := List.filter is_access (ExtraEnv (cp_Spec cp)) in
  access = (if injectClusterAccessURL cp && negb v && bool_decide (extra = [])
            then [env_value accessURLEnvVar (accessURL cp)] else []) ∧
  (injectClusterAccessURL cp = true → (length extra ≤ 1)%nat).
Proof.
  unfold accessURLEnv. destruct (injectClusterAccessURL cp); cbn [negb andb]; [|by intros [= <-]].
  intros (found & Hf & H)%outcome_bind_Ret. unfold findEnvVar in Hf. inv_outcome Hf.
  apply find_env_filter in Hf. cbn in Hf. change (λ v, _) with is_access in Hf. rewrite Hf.
  destruct found; cbn in H |- *; [rewrite andb_false_r|rewrite andb_true_r];
    (split; [|intros _; lia]); [by injection H|]. by destruct v; injection H.
Qed.


(** ** The pod *)

Definition tls_names (cp : CoderControlPlane) : list string :=
  trim_space <$> tls_SecretNames (TLS (cp_Spec cp)).

(** Every TLS secret has a volume that is mounted, and coderd is told the
    certificate and key files, in the same order, each once. *)
Definition tls_mounted (cp : CoderControlPlane) (pod : PodSpec) (c : Container) : Prop :=
  let files suffix := join "," ((λ n, tls_mount_path n +:+ suffix) <$> firsts (tls_names cp)) in
  controlPlaneTLSEnabled (Some cp) = true →
  (∀ n, n ∈ tls_names cp → n ≠ "" ∧ SecretVolume (volumeNameForSecret "tls" n) n ∈ pod_Volumes pod ∧
     Mount (volumeNameForSecret "tls" n) (tls_mount_path n) "" true ∈ con_VolumeMounts c) ∧
  env_value "CODER_TLS_ENABLE" "true" ∈ con_Env c ∧
  env_value "CODER_TLS_CERT_FILE" (files "/tls.crt") ∈ con_Env c ∧
  env_value "CODER_TLS_KEY_FILE" (files "/tls.key") ∈ con_Env c.

(** Every CA certificate is mounted from a volume of its secret. *)
Definition cert_mounted (pod : PodSpec) (c : Container) (name key : string) : Prop :=
  ∃ path, cert_volume name ∈ pod_Volumes pod ∧
    Mount (volumeNameForSecret "ca-cert" name) ("/etc/ssl/certs/" +:+ path) key true ∈ con_VolumeMounts c.

(** The parts of the pod are those of the reference definitions. *)
Lemma desired_deployment_Ret cp v d d' : desired_deployment cp v d = Ret d' →
  ∃ access tls certs,
    accessURLEnv cp v = Ret access ∧ certSecrets cp = Ret certs ∧
    (if controlPlaneTLSEnabled (Some cp) then tls = tls_of (tls_names cp) ∧ "" ∉ tls_names cp else tls = no_tls) ∧
    blank (resolveServiceAccountName cp) = false ∧
    isOwnedByCoderControlPlane (dep_meta d') cp = true ∧ key_of (dep_meta d') = key_of (dep_meta d) ∧
    Labels (dep_meta d') = controlPlaneLabels (Name (cp_meta cp)) ∧
    tpl_Labels (dep_Template d') = controlPlaneLabels (Name (cp_meta cp)) ∧
    tpl_Spec (dep_Template d') = coder_pod cp (resolveServiceAccountName cp)
      (coder_container cp access tls certs)
      (tls_volumes tls ++ cert_volumes certs ++ (OtherVolume <$> Volumes (cp_Spec cp))).
Proof.
  unfold desired_deployment. cbv zeta.
  intros (m & (Ho & Hk & Hl & _)%owned_by_spec & (u & Hsa%fail_if_Ret & (access & Ha &
    (tls & Ht & (certs & Hc & [= <-])%outcome_bind_Ret)%outcome_bind_Ret)%outcome_bind_Ret)%outcome_bind_Ret)%outcome_bind_Ret.
  exists access, tls, certs. cbn [dep_meta dep_Template tpl_Labels tpl_Spec]. split_and!; try done.
  destruct (controlPlaneTLSEnabled (Some cp)); [exact (tlsSecrets_Ret _ _ Ht)|]. by injection Ht.
Qed.

Lemma tls_mounted_pod cp access certs sa rest :
  "" ∉ tls_names cp →
  let c := coder_container cp access (tls_of (tls_names cp)) certs in
  tls_mounted cp (coder_pod cp sa c (tls_volumes (tls_of (tls_names cp)) ++ rest)) c.
Proof.
  intros Hb c Htls. unfold c. cbn [con_VolumeMounts con_Env coder_container pod_Volumes coder_pod]. rewrite Htls.
  split_and!; [|set_solver..]. intros n Hn. split_and!; [by intros ->|..]; apply elem_of_app; left;
    cbn [tls_volumes tls_mounts tls_of]; apply list_elem_of_fmap; exists n; (split; [done|by apply elem_of_firsts]).
Qed.

Lemma certs_mounted_pod cp access tls certs l sa before rest :
  cert_inv (certSecretNameCounts (Certs (cp_Spec cp))) (Certs (cp_Spec cp)) certs l →
  let c := coder_container cp access tls certs in
  (∀ s, s ∈ Certs (cp_Spec cp) → contains_char "000" (cert_name s) = false) →
  ∀ s, s ∈ Certs (cp_Spec cp) →
    cert_mounted (coder_pod cp sa c (before ++ cert_volumes certs ++ rest)) c (cert_name s) (cert_key s).
Proof.
  intros Hinv c Hns s Hs. destruct (ci_done _ _ _ _ Hinv s Hs) as (_ & _ & Hseen).
  apply (ci_seen _ _ _ _ Hinv) in Hseen as (e & He & Heq).
  destruct (ci_entries _ _ _ _ Hinv e He) as (Hv & _ & s' & Hs' & Hen & Hek).
  unfold selector_key in Heq. change nul with (String "000" "") in Heq. cbn in Heq.
  apply append_inj_first in Heq as [Hname Hkey]; [|by apply Hns|rewrite Hen; by apply Hns].
  exists (numberedFile (entry_base (certSecretNameCounts (Certs (cp_Spec cp))) e) (ce_count e)).
  rewrite Hname, Hkey. split; cbn [pod_Volumes coder_pod con_VolumeMounts coder_container c].
  - apply elem_of_app. right. apply elem_of_app. by left.
  - apply elem_of_app. right. apply elem_of_app. left. rewrite (ci_mounts _ _ _ _ Hinv).
    apply list_elem_of_fmap. by exists e.
Qed.


Lemma mounts_have_volumes cp access tls certs l :
  cert_inv (certSecretNameCounts (Certs (cp_Spec cp))) (Certs (cp_Spec cp)) certs l →
  (if controlPlaneTLSEnabled (Some cp) then tls = tls_of (tls_names cp) ∧ "" ∉ tls_names cp else tls = no_tls) →
  ∀ name path sub ro, Mount name path sub ro ∈ con_VolumeMounts (coder_container cp access tls certs) →
    ∃ secret, SecretVolume name secret ∈ tls_volumes tls ++ cert_volumes certs ++ (OtherVolume <$> Volumes (cp_Spec cp)).
Proof.
  intros Hl Htls name path sub ro. cbn [con_VolumeMounts coder_container].
  rewrite !elem_of_app, (ci_mounts _ _ _ _ Hl). intros [Hm|[(e & He & Hin)%list_elem_of_fmap|(x & Hx & _)%list_elem_of_fmap]].
  - destruct (controlPlaneTLSEnabled (Some cp)); [destruct Htls as [-> _]|subst tls; by apply elem_of_nil in Hm].
    apply list_elem_of_fmap in Hm as (n & [= -> _ _ _] & Hn). exists n. rewrite !elem_of_app. left.
    cbn [tls_volumes tls_of]. apply list_elem_of_fmap. by exists n.
  - injection He as -> _ _ _. exists (ce_name e). rewrite !elem_of_app. right. left. by apply (ci_entries _ _ _ _ Hl).
  - discriminate Hx.
Qed.

Lemma access_env cp access tls certs :
  (∃ v, accessURLEnv cp v = Ret access) →
  List.filter is_access (con_Env (coder_container cp access tls certs)) = access ++ List.filter is_access (ExtraEnv (cp_Spec cp)).
Proof.
  intros [v [Hacc _]%accessURLEnv_Ret]. cbn [con_Env coder_container]. rewrite !List.filter_app.
  assert (List.filter is_access (if controlPlaneTLSEnabled (Some cp) then tlsEnv tls else []) = []) as ->
    by (by destruct (controlPlaneTLSEnabled _)).
  rewrite app_nil_l. change (List.filter is_access podIPEnv) with (@nil EnvVar). rewrite app_nil_l.
  f_equal. rewrite Hacc. by destruct (_ && _).
Qed.

(** ** The environment sources *)

Section workload_properties.
Context {W : Type} (env : ∀ a : action, M W goerror (reply a)).
Implicit Types (st : kst W) (cp : CoderControlPlane).

(** What a source was found to say about a key. *)
Definition answered (rd : reader) (k : kind) (data : obj k → gmap string string) (key : object_key)
    (lookupKey : string) (b : bool) : Prop :=
  ∃ w o w', env (AGet rd k key) w = (o, w') ∧
    match o with
    | Ret found => b = bool_decide (is_Some (data found !! lookupKey))
    | Err e => IsNotFound e = true ∧ b = false
    | Panic _ => False
    end.

Lemma source_defines_Ret rd k data key lookupKey wrap st b st' :
  source_defines env rd k data key lookupKey wrap st = (Ret b, st') → answered rd k data key lookupKey b.
Proof.
  unfold source_defines. intros ([found|err] & s & Hget & H)%M_bind_Ret.
  - apply attempt_inl in Hget. inv_act Hget. inv_run H. by eexists _, _, _.
  - apply attempt_inr in Hget. unfold act in Hget. destruct (env _ _) as [o w] eqn:E.
    injection Hget as -> <-. destruct (IsNotFound err) eqn:Hn; inv_run H. by eexists _, _, _.
Qed.

(** A source that has the variable, and one that was found not to have it. *)
Definition source_has (rd : reader) (namespace name : string) (b : bool) (source : EnvFromSource) : Prop :=
  match envFromLookupKeyForEnvVar (ef_Prefix source) name with
  | (_, false) => b = false
  | (key, true) =>
      let from (k : kind) data (ref : option string) :=
        match ref with
        | None => b = false
        | Some ref => trim_space ref ≠ "" ∧ answered rd k data (namespace, trim_space ref) key b
        end in
      if b then from KConfigMap cm_Data (ef_ConfigMapRef source) ∨ from KSecret secret_Data (ef_SecretRef source)
      else from KConfigMap cm_Data (ef_ConfigMapRef source) ∧ from KSecret secret_Data (ef_SecretRef source)
  end.

Lemma sources_define_Ret rd namespace name i sources st b st' :
  sources_define env rd namespace name i sources st = (Ret b, st') →
  if b then Exists (source_has rd namespace name true) sources
  else Forall (source_has rd namespace name false) sources.
Proof.
  revert i st. induction sources as [|s l IH]; intros i st; cbn [sources_define].
  { intros H. inv_run H. constructor. }
  destruct (envFromLookupKeyForEnvVar (ef_Prefix s) name) as [key inc] eqn:Hkey.
  destruct inc; cbn [negb].
  2: { intros H%IH. destruct b; [by right|]. constructor; [|done]. unfold source_has. by rewrite Hkey. }
  intros (b1 & s1 & H1 & H)%M_bind_Ret.
  assert (match ef_ConfigMapRef s with None => b1 = false | Some ref => trim_space ref ≠ "" ∧
    answered rd KConfigMap cm_Data (namespace, trim_space ref) key b1 end) as Hb1.
  { destruct (ef_ConfigMapRef s); inv_run H1; [|done]. bool_simpl. split; [done|].
    by eapply source_defines_Ret. }
  destruct b1; cbn in H.
  { inv_run H. left. unfold source_has. rewrite Hkey. by left. }
  apply M_bind_Ret in H as (b2 & s2 & H2 & H).
  assert (match ef_SecretRef s with None => b2 = false | Some ref => trim_space ref ≠ "" ∧
    answered rd KSecret secret_Data (namespace, trim_space ref) key b2 end) as Hb2.
  { destruct (ef_SecretRef s); inv_run H2; [|done]. bool_simpl. split; [done|].
    by eapply source_defines_Ret. }
  destruct b2; cbn in H.
  { inv_run H. left. unfold source_has. rewrite Hkey. by right. }
  apply IH in H. destruct b; [by right|]. constructor; [|done]. unfold source_has. by rewrite Hkey.
Qed.
End workload_properties.


(** *** What a reconciliation of the deployment does *)

Section workload_calls.
Context {W : Type} (env : ∀ a : action, M W goerror (reply a)).

(** The environment sources are only read; then the deployment is written. *)
Inductive workload_call (cp : CoderControlPlane) : action → Prop :=
  | workload_source rd k name : k = KConfigMap ∨ k = KSecret →
      workload_call cp (AGet rd k (Namespace (cp_meta cp), name))
  | workload_deployment v a :
      written KDeployment (new_deployment (key_of (cp_meta cp))) (desired_deployment cp v) a →
      workload_call cp a.

Lemma only_sources_define cp rd name i sources :
  only (workload_call cp) (sources_define env rd (Namespace (cp_meta cp)) name i sources).
Proof.
  revert i. induction sources as [|s l IH]; intros i; cbn [sources_define]; [apply only_ret|].
  destruct (envFromLookupKeyForEnvVar _ _) as [key inc]. destruct inc; cbn [negb]; [|apply IH].
  assert (∀ k data n wrap, k = KConfigMap ∨ k = KSecret →
    only (workload_call cp) (source_defines env rd k data (Namespace (cp_meta cp), n) key wrap)) as Hsrc.
  { intros k data n wrap Hk. unfold source_defines. solve_only. by constructor. }
  apply only_bind; [destruct (ef_ConfigMapRef s); [|apply only_ret];
    apply only_bind; [apply only_guard|intros _; apply Hsrc; by left]|].
  intros [|]; [apply only_ret|].
  apply only_bind; [destruct (ef_SecretRef s); [|apply only_ret];
    apply only_bind; [apply only_guard|intros _; apply Hsrc; by right]|].
  intros [|]; [apply only_ret|apply IH].
Qed.

Lemma only_reconcileDeployment r cp :
  only (workload_call cp) (reconcileDeployment env r (Some cp)).
Proof.
  unfold reconcileDeployment. apply only_bind.
  - destruct (injectClusterAccessURL cp); [|apply only_ret]. unfold envFromDefinesEnvVar.
    do 3 (apply only_bind; [apply only_guard|intros _]). apply only_sources_define.
  - intros v. apply only_map_err. refine (only_mono _ _ _ _ (CreateOrUpdate_only env KDeployment _ _)).
    intros a. apply (workload_deployment _ v).
Qed.

(** What the environment sources were found to say about the access URL. *)
Definition access_via_sources (r : reconciler) (cp : CoderControlPlane) (v : bool) : Prop :=
  let has := source_has env (if hasAPIReader r then APIServerReader else CachedReader)
               (Namespace (cp_meta cp)) accessURLEnvVar in
  if injectClusterAccessURL cp
  then if v then Exists (has true) (EnvFrom (cp_Spec cp)) else Forall (has false) (EnvFrom (cp_Spec cp))
  else v = false.

Lemma reconcileDeployment_Ret r cp st d st' :
  reconcileDeployment env r (Some cp) st = (Ret d, st') →
  ∃ v, access_via_sources r cp v ∧
    stored env KDeployment (new_deployment (key_of (cp_meta cp))) (desired_deployment cp v) d.
Proof.
  unfold reconcileDeployment, access_via_sources. intros (v & s & Hv & H%map_err_Ret)%M_bind_Ret.
  apply (CreateOrUpdate_Ret env KDeployment) in H. exists v. split; [|exact H]. destruct (injectClusterAccessURL cp); [|by inv_run Hv].
  unfold envFromDefinesEnvVar in Hv. inv_run Hv. by eapply sources_define_Ret.
Qed.

Lemma only_reconcileService cp :
  only (written KService (new_service (key_of (cp_meta cp))) (desired_service cp)) (reconcileService env cp).
Proof. unfold reconcileService. apply only_map_err, (CreateOrUpdate_only env KService). Qed.

Lemma reconcileService_Ret cp st s st' :
  reconcileService env cp st = (Ret s, st') →
  stored env KService (new_service (key_of (cp_meta cp))) (desired_service cp) s.
Proof. unfold reconcileService. intros H%map_err_Ret. by apply (CreateOrUpdate_Ret env KService) in H. Qed.
End workload_calls.

(** C32: the service of a control plane reaches its pod on every address the
    operator hands out.  The service selects the pods of the deployment; its
    ports are pairwise distinct by number and name; each forwards to a port of
    the container with the same name; the port of the ingress and route
    backends and of the operator's own SDK calls forwards to plain HTTP; the
    URL in the status names a port that forwards to HTTPS exactly if TLS is
    configured; and the probes ask a port the container has. *)
Theorem service_reaches_pod (cp : CoderControlPlane) (v : bool) (d d' : Deployment) (s s' : ServiceObject)
    (n : Z) (Hd : desired_deployment cp v d = Ret d') (Hs : desired_service cp s = Ret s') :
  ∃ c, pod_Containers (tpl_Spec (dep_Template d')) = [c] ∧
    dep_Selector d' = Some {| ls_MatchLabels := tpl_Labels (dep_Template d'); ls_MatchExpressions := [] |} ∧
    svo_Selector s' = tpl_Labels (dep_Template d') ∧
    NoDup (sp_Port <$> svo_Ports s') ∧ NoDup (sp_Name <$> svo_Ports s') ∧
    (∀ p, p ∈ svo_Ports s' → container_port (sp_Name p) (sp_TargetPort p) ∈ con_Ports c) ∧
    (∃ p, p ∈ svo_Ports s' ∧ sp_TargetPort p = controlPlaneTargetPort ∧
       httpRouteBackendServicePort (Some cp) = Ret (sp_Port p) ∧
       controlPlaneSDKURL (Some cp) = "http://" +:+ Name (cp_meta cp) +:+ "." +:+ Namespace (cp_meta cp)
         +:+ ".svc.cluster.local:" +:+ format_int (sp_Port p)) ∧
    (∃ p, p ∈ svo_Ports s' ∧
       sp_TargetPort p = (if controlPlaneTLSEnabled (Some cp) then controlPlaneTLSTargetPort else controlPlaneTargetPort) ∧
       URL (desiredStatus cp n (key_of (svo_meta s'))) =
         (if controlPlaneTLSEnabled (Some cp) then "https" else "http") +:+ "://" +:+ Name (svo_meta s') +:+ "."
           +:+ Namespace (svo_meta s') +:+ ".svc.cluster.local:" +:+ format_int (sp_Port p)) ∧
    ∀ probe, con_ReadinessProbe c = Some probe ∨ con_LivenessProbe c = Some probe →
      ∃ p, p ∈ con_Ports c ∧ cport_Name p = hp_Port probe.
Proof.
  pose proof (servicePorts_NoDup cp) as [Hn1 Hn2].
  unfold desired_service in Hs. cbv zeta in Hs. apply outcome_bind_Ret in Hs as (m & _ & [= <-]).
  unfold desired_deployment in Hd. cbv zeta in Hd.
  apply outcome_bind_Ret in Hd as (m' & _ & (u & _ & (access & _ & (tls & _ & (certs & _ & [= <-])
    %outcome_bind_Ret)%outcome_bind_Ret)%outcome_bind_Ret)%outcome_bind_Ret).
  exists (coder_container cp access tls certs). cbn [dep_Template tpl_Spec pod_Containers coder_pod dep_Selector
    tpl_Labels svo_Selector svo_Ports svo_meta con_Ports coder_container]. do 5 (split; [done|]).
  unfold desiredStatus, controlPlaneSDKURL, httpRouteBackendServicePort, servicePorts. cbv zeta.
  cbn [URL set_service_state key_of fst snd con_ReadinessProbe con_LivenessProbe].
  split_and!.
  - intros p. destruct (controlPlaneTLSEnabled (Some cp)), (Z.eqb (servicePort cp) 443); cbn;
      rewrite ?elem_of_cons, ?elem_of_nil; naive_solver.
  - destruct (controlPlaneTLSEnabled (Some cp)), (Z.eqb (servicePort cp) 443); cbn;
      (eexists; split; [by left|done]) || (eexists; split; [by right; left|done]).
  - destruct (controlPlaneTLSEnabled (Some cp)), (Z.eqb_spec (servicePort cp) 443) as [->|]; cbn;
      (eexists; split; [by left|done]) || (eexists; split; [by right; left|done]).
  - intros probe [H|H]; exists (container_port "http" controlPlaneTargetPort); (split; [by left|]);
      cbn [con_ReadinessProbe con_LivenessProbe coder_container] in H;
      match type of H with (if ?b then _ else _) = _ => destruct b end; try discriminate H; by injection H as <-.
Qed.




(** A name that looks like a numbered file name breaks the distinctness: the
    secrets [a], [a.crt] and [a-2] have three certificates and two paths, and
    the pod is rejected by the API server. *)
Example cert_paths_clash :
  let certs := (λ n, {| cert_Name := n; cert_Key := "ca" |}) <$> ["a"; "a.crt"; "a-2"] in
  mount_path <$> cert_mounts (ret_or no_certs (certSecrets (full_cp certs))) =
  [Some "/etc/ssl/certs/a.crt"; Some "/etc/ssl/certs/a-2.crt"; Some "/etc/ssl/certs/a-2.crt"].
Proof. vm_compute. reflexivity. Qed.

Definition example_certs : list CertSecretSelector :=
  [{| cert_Name := "internal"; cert_Key := "root" |}; {| cert_Name := "internal"; cert_Key := "leaf" |}].
Definition example_deployment (cp : CoderControlPlane) : Deployment :=
  let d := new_deployment (key_of (cp_meta cp)) in ret_or d (desired_deployment cp false d).
Definition example_service (cp : CoderControlPlane) : ServiceObject :=
  let s := new_service (key_of (cp_meta cp)) in ret_or s (desired_service cp s).

Lemma service_reaches_pod_witness :
  let cp := full_cp example_certs in
  desired_deployment cp false (new_deployment ("ns", "coder")) = Ret (example_deployment cp) ∧
  desired_service cp (new_service ("ns", "coder")) = Ret (example_service cp) ∧
  ∃ c, pod_Containers (tpl_Spec (dep_Template (example_deployment cp))) = [c] ∧
    map sp_Port (svo_Ports (example_service cp)) = [443; 80]%Z.
Proof.
  cbv zeta.
  assert (desired_deployment (full_cp example_certs) false (new_deployment ("ns", "coder"))
            = Ret (example_deployment (full_cp example_certs))) as Hd by (vm_compute; reflexivity).
  assert (desired_service (full_cp example_certs) (new_service ("ns", "coder"))
            = Ret (example_service (full_cp example_certs))) as Hs by (vm_compute; reflexivity).
  split; [exact Hd|]. split; [exact Hs|].
  destruct (service_reaches_pod _ _ _ _ _ _ 1 Hd Hs) as (c & Hc & _). exists c. split; [exact Hc|].
  vm_compute. reflexivity.
Defined.


End Workload.
