(* ===== verification/Exposure.v ===== *)
(** * Exposure: the ingress or HTTP route of a control plane

    [reconcileExposure], [reconcileIngress], [reconcileHTTPRoute] and the
    clean-up of the exposure that is not configured, of
    internal/controller/codercontrolplane_controller.go. *)

From S2P Require Import Prelude GoStd GoStdFacts StringFacts GoErrors ApiTypes Examples KubeObjects Kube ControlPlaneNames ControlPlaneStatus OperatorAccess.

#[local] Open Scope string_scope.
#[local] Open Scope list_scope.

Module Exposure.
Import ControlPlaneNames ControlPlaneStatus OperatorAccess.

Definition nil_control_plane : goerror := assertion "assertion failed: coder control plane must not be nil".

(** ** The ingress *)

Definition ingress_rule (cp : CoderControlPlane) (port : Z) (host : string) : IngressRule := {|
  ir_Host := host;
  ir_Paths := [{| ip_Path := "/"; ip_PathType := "Prefix";
                  ip_Backend := {| ib_ServiceName := Name (cp_meta cp); ib_PortNumber := port |} |}] |}.

Definition ingress_tls (spec : IngressExposeSpec) (primaryHost wildcardHost : string) : result (list IngressTLS) :=
  match ie_TLS spec with
  | None => mret []
  | Some tls =>
      let secretName := trim_space (itls_SecretName tls) in
      let primary := if negb (String.eqb secretName "")
                     then [{| it_SecretName := secretName; it_Hosts := [primaryHost] |}] else [] in
      let wildcardSecretName := trim_space (itls_WildcardSecretName tls) in
      if String.eqb wildcardSecretName "" then mret primary
      else
        _ ← fail_if (String.eqb wildcardHost "")
              (assertion "assertion failed: ingress wildcard host must not be empty when wildcard TLS secret is set");
        mret (primary ++ [{| it_SecretName := wildcardSecretName; it_Hosts := [wildcardHost] |}])
  end.

(** The mutation of the ingress. *)
Definition desired_ingress (cp : CoderControlPlane) (spec : IngressExposeSpec)
    (primaryHost wildcardHost : string) (port : Z) (ingress : Ingress) : result Ingress :=
  let m := set_annotations (ie_Annotations spec)
             (set_labels (controlPlaneLabels (Name (cp_meta cp))) (ing_meta ingress)) in
  tls ← ingress_tls spec primaryHost wildcardHost;
  m ← ownedBy cp m;
  mret {|
    ing_meta := m;
    ing_ClassName := ie_ClassName spec;
    ing_Rules := ingress_rule cp port primaryHost
      :: (if negb (String.eqb wildcardHost "") then [ingress_rule cp port wildcardHost] else []);
    ing_TLS := tls;
    ing_OtherSpec := None |}.

Definition new_ingress (key : object_key) : Ingress := {|
  ing_meta := meta_of_key key; ing_ClassName := None; ing_Rules := []; ing_TLS := []; ing_OtherSpec := None |}.

(** ** The HTTP route *)

(** An optional reference: absent, or its trimmed value, which must not be blank. *)
Definition optional_ref (value : option string) (err : goerror) : result (option string) :=
  match value with
  | None => mret None
  | Some value =>
      let value := trim_space value in
      _ ← fail_if (String.eqb value "") err;
      mret (Some value)
  end.

Definition parent_ref (i : Z) (spec : GatewayParentRef) : result ParentReference :=
  let name := trim_space (gpr_Name spec) in
  _ ← fail_if (String.eqb name "")
        (Errorf "assertion failed: gateway parentRef[%d] name must not be empty" [FInt i]);
  namespace ← optional_ref (gpr_Namespace spec)
    (Errorf "assertion failed: gateway parentRef[%d] namespace must not be empty when set" [FInt i]);
  sectionName ← optional_ref (gpr_SectionName spec)
    (Errorf "assertion failed: gateway parentRef[%d] sectionName must not be empty when set" [FInt i]);
  mret {| pref_Name := name; pref_Namespace := namespace; pref_SectionName := sectionName; pref_Other := None |}.

Fixpoint parent_refs (i : Z) (specs : list GatewayParentRef) : result (list ParentReference) :=
  match specs with
  | [] => mret []
  | spec :: specs =>
      parentRef ← parent_ref i spec;
      rest ← parent_refs (i + 1) specs;
      mret (parentRef :: rest)
  end.

(** The mutation of the route. *)
Definition desired_route (cp : CoderControlPlane) (spec : GatewayExposeSpec) (primaryHost : string)
    (route : HTTPRoute) : result HTTPRoute :=
  let m := set_labels (controlPlaneLabels (Name (cp_meta cp))) (route_meta route) in
  parentRefs ← parent_refs 0 (ge_ParentRefs spec);
  let wildcardHost := trim_space (ge_WildcardHost spec) in
  port ← httpRouteBackendServicePort (Some cp);
  m ← ownedBy cp m;
  mret {|
    route_meta := m;
    route_ParentRefs := parentRefs;
    route_Hostnames := primaryHost :: (if negb (String.eqb wildcardHost "") then [wildcardHost] else []);
    route_Rules := [{| hr_PathType := "PathPrefix"; hr_PathValue := "/";
      hr_BackendRefs := [{| hb_Group := ""; hb_Kind := "Service"; hb_Name := Name (cp_meta cp); hb_Port := port |}] |}];
    route_OtherSpec := None |}.

Definition new_route (key : object_key) : HTTPRoute := {|
  route_meta := meta_of_key key; route_ParentRefs := []; route_Hostnames := []; route_Rules := [];
  route_OtherSpec := None |}.

(** ** Calls *)

Section exposure.
Context {W : Type} (env : ∀ a : action, M W goerror (reply a)).

Definition expose_ingress (cp : CoderControlPlane) : option IngressExposeSpec :=
  Expose (cp_Spec cp) ≫= expose_Ingress.
Definition expose_gateway (cp : CoderControlPlane) : option GatewayExposeSpec :=
  Expose (cp_Spec cp) ≫= expose_Gateway.

Definition reconcileIngress (cp : option CoderControlPlane) : reconciliation (W:=W) () :=
  match cp with
  | None => throw nil_control_plane
  | Some cp' =>
      match expose_ingress cp' with
      | None => throw (assertion "assertion failed: ingress exposure spec must not be nil")
      | Some spec =>
          let primaryHost := trim_space (ie_Host spec) in
          _ ← guard_err (String.eqb primaryHost "") (assertion "assertion failed: ingress host must not be empty");
          let wildcardHost := trim_space (ie_WildcardHost spec) in
          port ← lift (httpRouteBackendServicePort cp);
          _ ← map_err (λ err, Errorf "reconcile control plane ingress: %w" [FErrW err])
                (CreateOrUpdate env KIngress (new_ingress (key_of (cp_meta cp')))
                   (desired_ingress cp' spec primaryHost wildcardHost port));
          mret tt
      end
  end.

(** The route needs the Gateway API: without it, the reconciliation is retried. *)
Definition reconcileHTTPRoute (cp : option CoderControlPlane) : reconciliation (W:=W) bool :=
  match cp with
  | None => throw nil_control_plane
  | Some cp =>
      match expose_gateway cp with
      | None => throw (assertion "assertion failed: gateway exposure spec must not be nil")
      | Some spec =>
          let primaryHost := trim_space (ge_Host spec) in
          _ ← guard_err (String.eqb primaryHost "") (assertion "assertion failed: gateway host must not be empty");
          _ ← guard_err (Nat.eqb (length (ge_ParentRefs spec)) 0)
                (assertion "assertion failed: gateway parentRefs must not be empty");
          written ← attempt (CreateOrUpdate env KHTTPRoute (new_route (key_of (cp_meta cp)))
                               (desired_route cp spec primaryHost));
          match written with
          | inr err =>
              if IsNoMatchError err then mret true
              else throw (Errorf "reconcile control plane httproute: %w" [FErrW err])
          | inl _ => mret true
          end
      end
  end.

(** The common part of the clean-ups: [absent] recognises the errors that mean
    there is nothing to delete. *)
Definition cleanupOwned (k : kind) (what : string) (absent : goerror → bool) (cp : option CoderControlPlane)
    : reconciliation (W:=W) () :=
  match cp with
  | None => throw nil_control_plane
  | Some cp =>
      let key := key_of (cp_meta cp) in
      let wrap verb err := Errorf (verb +:+ " control plane " +:+ what +:+ " %s: %w")
                             [FStr (key.1 +:+ "/" +:+ key.2); FErrW err] in
      found ← attempt (act env (AGet CachedReader k key));
      match found with
      | inr err => if absent err then mret tt else throw (wrap "get" err)
      | inl object =>
          if negb (isOwnedByCoderControlPlane (meta k object) cp) then mret tt
          else map_err (wrap "delete") (ignoring absent (act env (ADelete k object)))
      end
  end.

Definition cleanupOwnedIngress (cp : option CoderControlPlane) : reconciliation (W:=W) () :=
  cleanupOwned KIngress "ingress" IsNotFound cp.
Definition cleanupOwnedHTTPRoute (cp : option CoderControlPlane) : reconciliation (W:=W) () :=
  cleanupOwned KHTTPRoute "httproute" (λ err, IsNotFound err || IsNoMatchError err) cp.

Definition managed_ingress (err : goerror) : goerror := Errorf "cleanup managed ingress: %w" [FErrW err].
Definition managed_route (err : goerror) : goerror := Errorf "cleanup managed httproute: %w" [FErrW err].

(** Whether the reconciliation has to be repeated. *)
Definition reconcileExposure (cp : option CoderControlPlane) : reconciliation (W:=W) bool :=
  match cp with
  | None => throw nil_control_plane
  | Some cp' =>
      match expose_ingress cp', expose_gateway cp' with
      | None, None =>
          _ ← map_err managed_ingress (cleanupOwnedIngress cp);
          _ ← map_err managed_route (cleanupOwnedHTTPRoute cp);
          mret false
      | Some _, Some _ =>
          throw (assertion "assertion failed: only one of ingress or gateway exposure may be configured")
      | Some _, None =>
          _ ← reconcileIngress cp;
          _ ← map_err managed_route (cleanupOwnedHTTPRoute cp);
          mret false
      | None, Some _ =>
          httpRouteReconciled ← reconcileHTTPRoute cp;
          _ ← map_err managed_ingress (cleanupOwnedIngress cp);
          mret httpRouteReconciled
      end
  end.
End exposure.

(** * Properties *)

(** ** What is written *)

Definition hosts (primary wildcard : string) : list string :=
  primary :: (if String.eqb wildcard "" then [] else [wildcard]).

(** An ingress that serves the hosts: each has one rule, which sends everything
    to the service of the control plane at the given port; certificates are
    named for these hosts only. *)
Record ingress_serves cp (hs : list string) (port : Z) (ing : Ingress) : Prop := {
  is_owned : isOwnedByCoderControlPlane (ing_meta ing) cp = true;
  is_rules : ing_Rules ing = ingress_rule cp port <$> hs;
  is_hosts : "" ∉ hs;
  is_tls : ∀ t, t ∈ ing_TLS ing → it_SecretName t ≠ "" ∧ ∃ h, h ∈ hs ∧ it_Hosts t = [h]
}.

Lemma ingress_tls_hosts spec primary wildcard tls t :
  ingress_tls spec primary wildcard = Ret tls → t ∈ tls →
  it_SecretName t ≠ "" ∧ ∃ h, h ∈ hosts primary wildcard ∧ it_Hosts t = [h].
Proof.
  unfold ingress_tls, hosts. destruct (ie_TLS spec) as [x|]; [|by intros [= <-] ?%elem_of_nil].
  cbv zeta. destruct (String.eqb_spec (trim_space (itls_SecretName x)) "") as [|Hs];
    destruct (String.eqb_spec (trim_space (itls_WildcardSecretName x)) "") as [|Hw]; cbn [negb];
    intros H; inv_outcome H; try (by intros ?%elem_of_nil);
    rewrite ?elem_of_app, ?list_elem_of_singleton, ?elem_of_nil; intros Ht;
    repeat match goal with H : fail_if _ _ = Ret _ |- _ => apply fail_if_Ret in H end; bool_simpl.
  - destruct Ht as [[]| ->]; cbn. split; [done|]. exists wildcard.
    rewrite (proj2 (String.eqb_neq _ _)) by done. split; [right; by left|done].
  - subst t. cbn. split; [done|]. exists primary. split; [by left|done].
  - destruct Ht as [-> | ->]; cbn; (split; [done|]).
    + exists primary. split; [by left|done].
    + exists wildcard. rewrite (proj2 (String.eqb_neq _ _)) by done. split; [right; by left|done].
Qed.

Lemma desired_ingress_serves cp spec primary wildcard port base ing :
  primary ≠ "" →
  desired_ingress cp spec primary wildcard port base = Ret ing →
  ingress_serves cp (hosts primary wildcard) port ing.
Proof.
  intros Hp. unfold desired_ingress. cbv zeta.
  intros (tls & Ht & (m & (Ho & _)%owned_by_spec & [= <-])%outcome_bind_Ret)%outcome_bind_Ret.
  split; cbn [ing_meta ing_Rules ing_TLS]; [done|..].
  - unfold hosts. by destruct (String.eqb wildcard "").
  - unfold hosts. destruct (String.eqb_spec wildcard ""); set_solver.
  - intros t. by eapply ingress_tls_hosts.
Qed.

(** A route that serves the hosts through the gateways of the spec. *)
Record route_serves cp spec (hs : list string) (route : HTTPRoute) : Prop := {
  rs_owned : isOwnedByCoderControlPlane (route_meta route) cp = true;
  rs_hosts : route_Hostnames route = hs ∧ "" ∉ hs;
  rs_parents : Forall2 (λ p g, pref_Name p = trim_space (gpr_Name g) ∧ pref_Name p ≠ "" ∧
    pref_Namespace p = trim_space <$> gpr_Namespace g ∧ pref_SectionName p = trim_space <$> gpr_SectionName g)
    (route_ParentRefs route) (ge_ParentRefs spec);
  rs_backend : ∃ port, httpRouteBackendServicePort (Some cp) = Ret port ∧
    route_Rules route = [{| hr_PathType := "PathPrefix"; hr_PathValue := "/";
      hr_BackendRefs := [{| hb_Group := ""; hb_Kind := "Service"; hb_Name := Name (cp_meta cp); hb_Port := port |}] |}]
}.

Lemma optional_ref_Ret value err r : optional_ref value err = Ret r → r = trim_space <$> value.
Proof. destruct value as [x|]; cbn; intros H; inv_outcome H; done. Qed.

Lemma parent_refs_Ret i specs refs : parent_refs i specs = Ret refs →
  Forall2 (λ p g, pref_Name p = trim_space (gpr_Name g) ∧ pref_Name p ≠ "" ∧
    pref_Namespace p = trim_space <$> gpr_Namespace g ∧ pref_SectionName p = trim_space <$> gpr_SectionName g)
    refs specs.
Proof.
  revert i refs. induction specs as [|g l IH]; intros i refs; cbn.
  - intros [= <-]. constructor.
  - intros (p & Hp & (rest & Hrest%IH & [= <-])%outcome_bind_Ret)%outcome_bind_Ret.
    constructor; [|done]. unfold parent_ref in Hp.
    apply outcome_bind_Ret in Hp as (u & Hn%fail_if_Ret%String.eqb_neq & (ns & Hns%optional_ref_Ret &
      (sn & Hsn%optional_ref_Ret & [= <-])%outcome_bind_Ret)%outcome_bind_Ret). done.
Qed.

Lemma desired_route_serves cp spec primary base route :
  primary ≠ "" →
  desired_route cp spec primary base = Ret route →
  route_serves cp spec (hosts primary (trim_space (ge_WildcardHost spec))) route.
Proof.
  intros Hp. unfold desired_route. cbv zeta.
  intros (refs & Hr%parent_refs_Ret & (port & Hport & (m & (Ho & _)%owned_by_spec & [= <-])
    %outcome_bind_Ret)%outcome_bind_Ret)%outcome_bind_Ret.
  split; cbn [route_meta route_Hostnames route_ParentRefs route_Rules]; [done|..|done|by exists port].
  unfold hosts. destruct (String.eqb_spec (trim_space (ge_WildcardHost spec)) ""); split; (done || set_solver).
Qed.


(** ** Calls *)

Section exposure_properties.
Context {W : Type} (env : ∀ a : action, M W goerror (reply a)).
Implicit Types (st : kst W) (cp : CoderControlPlane).

(** The exposure that is configured is written; one that is not is read, and
    deleted if it is the control plane's own. *)
Inductive exposure_call cp : action → Prop :=
  | exposure_ingress spec port a : expose_ingress cp = Some spec → expose_gateway cp = None →
      httpRouteBackendServicePort (Some cp) = Ret port →
      written KIngress (new_ingress (key_of (cp_meta cp)))
        (desired_ingress cp spec (trim_space (ie_Host spec)) (trim_space (ie_WildcardHost spec)) port) a →
      exposure_call cp a
  | exposure_route spec a : expose_gateway cp = Some spec → expose_ingress cp = None →
      written KHTTPRoute (new_route (key_of (cp_meta cp))) (desired_route cp spec (trim_space (ge_Host spec))) a →
      exposure_call cp a
  | exposure_read k : exposure_call cp (AGet CachedReader k (key_of (cp_meta cp)))
  | exposure_delete_ingress (ing : Ingress) : expose_ingress cp = None →
      isOwnedByCoderControlPlane (ing_meta ing) cp = true → exposure_call cp (ADelete KIngress ing)
  | exposure_delete_route (route : HTTPRoute) : expose_gateway cp = None →
      isOwnedByCoderControlPlane (route_meta route) cp = true → exposure_call cp (ADelete KHTTPRoute route).

Lemma only_cleanupOwned k what absent cp :
  (∀ o : obj k, isOwnedByCoderControlPlane (meta k o) cp = true → exposure_call cp (ADelete k o)) →
  only (exposure_call cp) (cleanupOwned env k what absent (Some cp)).
Proof.
  intros Hdel. unfold cleanupOwned. cbv zeta. apply only_bind; [apply only_attempt; only_call; constructor|].
  intros [o|err]; [|destruct (absent err); [apply only_ret|apply only_throw]].
  destruct (isOwnedByCoderControlPlane (meta k o) cp) eqn:Ho; cbn [negb]; [|apply only_ret].
  apply only_map_err, only_ignoring. only_call. by apply Hdel.
Qed.

Lemma only_reconcileExposure cp : only (exposure_call cp) (reconcileExposure env (Some cp)).
Proof.
  unfold reconcileExposure, cleanupOwnedIngress, cleanupOwnedHTTPRoute.
  destruct (expose_ingress cp) as [ispec|] eqn:Hi, (expose_gateway cp) as [gspec|] eqn:Hg.
  - apply only_throw.
  - apply only_bind.
    + unfold reconcileIngress. rewrite Hi. cbv zeta. apply only_bind; [apply only_guard|intros _].
      apply only_lift_bind. intros port Hport. apply only_bind; [|intros; apply only_ret]. apply only_map_err.
      refine (only_mono _ _ _ _ (CreateOrUpdate_only env KIngress _ _)).
      intros a Ha. by eapply exposure_ingress.
    + intros _. apply only_bind; [|intros; apply only_ret]. apply only_map_err, only_cleanupOwned.
      intros route Ho. by apply exposure_delete_route.
  - apply only_bind.
    + unfold reconcileHTTPRoute. rewrite Hg. cbv zeta. do 2 (apply only_bind; [apply only_guard|intros _]).
      apply only_bind; [apply only_attempt; refine (only_mono _ _ _ _ (CreateOrUpdate_only env KHTTPRoute _ _));
                        intros a; by apply exposure_route|].
      intros [route|err]; [apply only_ret|]. destruct (IsNoMatchError err); [apply only_ret|apply only_throw].
    + intros again. apply only_bind; [|intros; apply only_ret]. apply only_map_err, only_cleanupOwned.
      intros ing Ho. by apply exposure_delete_ingress.
  - apply only_bind; [|intros _; apply only_bind; [|intros; apply only_ret]];
      apply only_map_err, only_cleanupOwned; intros o Ho;
      first [by apply exposure_delete_ingress|by apply exposure_delete_route].
Qed.

(** There is no object of the control plane of the kind left: there was none,
    or what is there is not its own, or it was deleted. *)
Definition unexposed cp (k : kind) (absent : goerror → bool) : Prop :=
  ∃ w o w', env (AGet CachedReader k (key_of (cp_meta cp))) w = (o, w') ∧
    match o with
    | Ret object => isOwnedByCoderControlPlane (meta k object) cp = true →
        ∃ w1 o1 w1', env (ADelete k object) w1 = (o1, w1') ∧ match o1 with
                                                            | Ret _ => True
                                                            | Err e => absent e = true
                                                            | Panic _ => False
                                                            end
    | Err e => absent e = true
    | Panic _ => False
    end.

Lemma cleanupOwned_Ret k what absent cp st u st' :
  cleanupOwned env k what absent (Some cp) st = (Ret u, st') → unexposed cp k absent.
Proof.
  unfold cleanupOwned. cbv zeta. intros ([o|err] & s & Hget & H)%M_bind_Ret.
  - apply attempt_inl in Hget. inv_act Hget. eexists _, _, _. split; [exact Hget|]. intros Ho.
    rewrite Ho in H. cbn [negb] in H. apply map_err_Ret in H. unfold ignoring, act in H.
    destruct (env (ADelete k o) _) as [o1 w1] eqn:E. eexists _, o1, w1. split; [exact E|].
    destruct o1 as [|e|]; [done| |by injection H]. by destruct (absent e).
  - apply attempt_inr in Hget. unfold act in Hget. destruct (env (AGet _ _ _) _) as [o w] eqn:E.
    injection Hget as -> <-. eexists _, _, _. split; [exact E|]. cbn. by destruct (absent err); [|discriminate H].
Qed.

Definition route_absent (e : goerror) : bool := IsNotFound e || IsNoMatchError e.

(** The API server does not know HTTP routes. *)
Definition gateway_missing cp (spec : GatewayExposeSpec) : Prop :=
  ∃ st e st', CreateOrUpdate env KHTTPRoute (new_route (key_of (cp_meta cp)))
    (desired_route cp spec (trim_space (ge_Host spec))) st = (Err e, st') ∧ IsNoMatchError e = true.

(** The outcome of a reconciliation that returned. *)
Definition exposure_outcome cp (again : bool) : Prop :=
  match expose_ingress cp, expose_gateway cp with
  | None, None => again = false ∧ unexposed cp KIngress IsNotFound ∧ unexposed cp KHTTPRoute route_absent
  | Some spec, None => again = false ∧ unexposed cp KHTTPRoute route_absent ∧
      ∃ ing port, held env KIngress ing ∧ key_of (ing_meta ing) = key_of (cp_meta cp) ∧
        httpRouteBackendServicePort (Some cp) = Ret port ∧
        ingress_serves cp (hosts (trim_space (ie_Host spec)) (trim_space (ie_WildcardHost spec))) port ing
  | None, Some spec => again = true ∧ unexposed cp KIngress IsNotFound ∧
      ((∃ route, held env KHTTPRoute route ∧ key_of (route_meta route) = key_of (cp_meta cp) ∧
          route_serves cp spec (hosts (trim_space (ge_Host spec)) (trim_space (ge_WildcardHost spec))) route) ∨
       gateway_missing cp spec)
  | Some _, Some _ => False
  end.

Lemma reconcileIngress_Ret cp spec st u st' :
  expose_ingress cp = Some spec → reconcileIngress env (Some cp) st = (Ret u, st') →
  ∃ ing port, held env KIngress ing ∧ key_of (ing_meta ing) = key_of (cp_meta cp) ∧
    httpRouteBackendServicePort (Some cp) = Ret port ∧
    ingress_serves cp (hosts (trim_space (ie_Host spec)) (trim_space (ie_WildcardHost spec))) port ing.
Proof.
  intros Hi. unfold reconcileIngress. rewrite Hi. cbv zeta.
  intros (u1 & s1 & [Hp%String.eqb_neq _]%guard_err_Ret & (port & s2 & [Hport _]%lift_Ret &
    (ing & s3 & H%map_err_Ret & _)%M_bind_Ret)%M_bind_Ret)%M_bind_Ret.
  apply (CreateOrUpdate_Ret env KIngress), stored_held in H as (base & o & Hd & Hk & Hheld).
  exists o, port. split_and!; [done|exact Hk|done|]. by eapply desired_ingress_serves.
Qed.

Lemma reconcileHTTPRoute_Ret cp spec st again st' :
  expose_gateway cp = Some spec → reconcileHTTPRoute env (Some cp) st = (Ret again, st') →
  again = true ∧
  ((∃ route, held env KHTTPRoute route ∧ key_of (route_meta route) = key_of (cp_meta cp) ∧
      route_serves cp spec (hosts (trim_space (ge_Host spec)) (trim_space (ge_WildcardHost spec))) route) ∨
   gateway_missing cp spec).
Proof.
  intros Hg. unfold reconcileHTTPRoute. rewrite Hg. cbv zeta.
  intros (u1 & s1 & [Hp%String.eqb_neq _]%guard_err_Ret & (u2 & s2 & _ &
    (r & s3 & Hrun & H)%M_bind_Ret)%M_bind_Ret)%M_bind_Ret.
  case_attempt H route err.
  - inv_run H. split; [done|left]. apply attempt_inl in Hrun.
    apply (CreateOrUpdate_Ret env KHTTPRoute), stored_held in Hrun as (base & o & Hd & Hk & Hheld).
    exists o. split_and!; [done|exact Hk|]. by eapply desired_route_serves.
  - destruct (IsNoMatchError err) eqn:Hn; [|discriminate H]. inv_run H. split; [done|right].
    apply attempt_inr in Hrun. by eexists _, _, _.
Qed.

Lemma reconcileExposure_Ret cp st again st' :
  reconcileExposure env (Some cp) st = (Ret again, st') → exposure_outcome cp again.
Proof.
  unfold reconcileExposure, exposure_outcome, cleanupOwnedIngress, cleanupOwnedHTTPRoute.
  destruct (expose_ingress cp) as [ispec|] eqn:Hi, (expose_gateway cp) as [gspec|] eqn:Hg.
  - intros H. discriminate H.
  - intros (u1 & s1 & H1 & (u2 & s2 & H2%map_err_Ret%cleanupOwned_Ret & [-> _]%mret_Ret)%M_bind_Ret)%M_bind_Ret.
    split_and!; [done|done|]. by eapply reconcileIngress_Ret.
  - intros (b & s1 & H1 & (u2 & s2 & H2%map_err_Ret%cleanupOwned_Ret & [-> _]%mret_Ret)%M_bind_Ret)%M_bind_Ret.
    apply (reconcileHTTPRoute_Ret _ _ _ _ _ Hg) in H1 as [-> H1]. by split_and!.
  - intros (u1 & s1 & H1%map_err_Ret%cleanupOwned_Ret & (u2 & s2 & H2%map_err_Ret%cleanupOwned_Ret &
      [-> _]%mret_Ret)%M_bind_Ret)%M_bind_Ret. done.
Qed.
End exposure_properties.


(** a control plane is exposed in the configured way and in no other.
    Whatever the API server answers, every call of [reconcileExposure] is one
    of [exposure_call]: the ingress or route is only written if it is the one
    configured, and only objects the control plane owns are deleted, of the
    kind that is not configured.  When it returns, the outcome is as in
    [exposure_outcome]: the configured object was accepted and sends every host
    to a port of the service, or the Gateway API is missing and the
    reconciliation will be repeated; nothing of the other kind is left; and both
    at once are refused. *)
Theorem exposure_contract {W} (env : ∀ a : action, M W goerror (reply a)) (cp : CoderControlPlane) (st : kst W) :
  let '(o, st') := reconcileExposure env (Some cp) st in
  (∃ acts, made acts st st' ∧ Forall (exposure_call cp) acts) ∧
  ∀ again, o = Ret again → exposure_outcome env cp again.
Proof.
  pose proof (only_reconcileExposure env cp st) as Hcalls.
  pose proof (reconcileExposure_Ret env cp st) as Hret.
  destruct (reconcileExposure env (Some cp) st) as [o st']. split; [exact Hcalls|].
  intros again ->. by eapply Hret.
Qed.

End Exposure.
