(* ===== verification/ControlPlane.v ===== *)
(** * ControlPlane: the reconciliation of a control plane

    [Reconcile] of internal/controller/codercontrolplane_controller.go, composed
    of the components of the controller, and the mapping of changed objects to
    the control planes to reconcile. *)

From S2P Require Import Prelude GoStd GoStdFacts StringFacts GoErrors ApiTypes Examples KubeObjects Kube ControlPlaneNames ControlPlaneStatus OperatorAccess License ServiceAccounts WorkspaceRBAC Workload Exposure.

#[local] Open Scope string_scope.
#[local] Open Scope list_scope.

Module ControlPlane.
Import ControlPlaneNames ControlPlaneStatus OperatorAccess License ServiceAccounts WorkspaceRBAC Workload Exposure.

(** [metav1.Time.IsZero] of the deletion timestamp. *)
Definition being_deleted (cp : CoderControlPlane) : bool :=
  match DeletionTimestamp (cp_meta cp) with
  | None => false
  | Some t => negb (time_IsZero t)
  end.

Definition show_key (key : object_key) : string := key.1 +:+ "/" +:+ key.2.

Section reconcile.
Context {W : Type} (env : ∀ a : action, M W goerror (reply a)) `{!HasClock W}.

(** The reconciliation of a control plane whose permissions are set up. *)
Definition reconcileServed (r : reconciler) (cp : CoderControlPlane) : reconciliation (W:=W) Result :=
  deployment ← reconcileDeployment env r (Some cp);
  service ← reconcileService env cp;
  gatewayExposureNeedsRequeue ← reconcileExposure env (Some cp);
  let originalStatus := cp_Status cp in
  let nextStatus := desiredStatus cp (dep_ReadyReplicas deployment) (key_of (svo_meta service)) in
  '(operatorResult, nextStatus) ← reconcileOperatorAccess env r (Some cp) (Some nextStatus);
  '(licenseResult, nextStatus) ← reconcileLicense env r (Some cp) (Some nextStatus);
  '(entitlementsResult, nextStatus) ← reconcileEntitlements env r (Some cp) (Some nextStatus);
  _ ← reconcileStatus env r (Some cp) originalStatus nextStatus;
  let result := mergeResults [operatorResult; licenseResult; entitlementsResult] in
  let result := if requiresWorkspaceRBACDriftRequeue (Some cp)
                then mergeResults [result; requeue_after workspaceRBACDriftRequeueInterval] else result in
  let result := if gatewayExposureNeedsRequeue : bool
                then mergeResults [result; requeue_after gatewayExposureRequeueInterval] else result in
  mret result.

(** The reconciliation of a control plane that has the finalizer. *)
Definition reconcileLive (r : reconciler) (cp : CoderControlPlane) : reconciliation (W:=W) Result :=
  _ ← reconcileServiceAccount env (Some cp);
  _ ← reconcileWorkspaceRBAC env (Some cp);
  reconcileServed r cp.

Definition Reconcile (r : reconciler) (req : object_key) : reconciliation (W:=W) Result :=
  _ ← guard_err (negb (hasClient r)) (assertion "assertion failed: reconciler client must not be nil");
  _ ← guard_err (negb (hasScheme r)) (assertion "assertion failed: reconciler scheme must not be nil");
  found ← attempt (act env (AGet CachedReader KControlPlane req));
  match found with
  | inr err =>
      if IsNotFound err then mret no_requeue
      else throw (Errorf "get codercontrolplane %s: %w" [FStr (show_key req); FErrW err])
  | inl cp =>
      let cp : CoderControlPlane := cp in
      let m := cp_meta cp in
      _ ← guard_err (negb (String.eqb (Name m) req.2) || negb (String.eqb (Namespace m) req.1))
            (Errorf "assertion failed: fetched object %s/%s does not match request %s/%s"
               [FStr (Namespace m); FStr (Name m); FStr req.1; FStr req.2]);
      if being_deleted cp then finalizeWorkspaceRBAC env (Some cp)
      else
        cp ← ensureWorkspaceRBACFinalizer env req (Some cp);
        reconcileLive r cp
  end.
End reconcile.

(** * Properties *)

Section control_plane_properties.
Context {W : Type} (env : ∀ a : action, M W goerror (reply a)) `{!HasClock W}.
Implicit Types (st : kst W) (cp : CoderControlPlane).

(** ** Calls *)

(** Every call about a live control plane is one of the component that makes
    it, with that component's restrictions. *)
Inductive live_call cp : action → Prop :=
  | live_account a : account_call cp a → live_call cp a
  | live_rbac a : rbac_call cp (kept_role cp) (kept_binding cp) a → live_call cp a
  | live_workload a : workload_call cp a → live_call cp a
  | live_service a : written KService (new_service (key_of (cp_meta cp))) (desired_service cp) a → live_call cp a
  | live_exposure a : exposure_call cp a → live_call cp a
  | live_access a : access_call env cp a → live_call cp a
  | live_license r ready key res next a : access_outcome env r cp (desiredStatus cp ready key) res next →
      license_call env cp next a → live_call cp a
  | live_entitlements r ready key res res' next next' a : access_outcome env r cp (desiredStatus cp ready key) res next →
      license_outcome env cp next res' next' → entitlements_call env cp next' a → live_call cp a
  | live_status rd next a : status_call env rd (key_of (cp_meta cp)) (cp_Status cp) next a → live_call cp a.

Lemma only_live {A} cp P (m : reconciliation (W:=W) A) :
  (∀ a, P a → live_call cp a) → only P m → only (live_call cp) m.
Proof. intros HP. by apply only_mono. Qed.

Lemma only_reconcileStatus r cp next :
  only (live_call cp) (reconcileStatus env r (Some cp) (cp_Status cp) next).
Proof.
  intros st. pose proof (reconcileStatus_wp env r cp (cp_Status cp) next st) as H. unfold wp in H.
  destruct (reconcileStatus env r (Some cp) (cp_Status cp) next st) as [o st'].
  destruct H as [(acts & Hm & Hall & _) _]. exists acts. split; [exact Hm|].
  eapply Forall_impl; [exact Hall|]. intros a. apply live_status.
Qed.

Lemma only_reconcileServed r cp : only (live_call cp) (reconcileServed env r cp).
Proof.
  unfold reconcileServed. cbv zeta.
  apply only_bind; [eapply only_live, only_reconcileDeployment; apply live_workload|intros d].
  apply only_bind; [eapply only_live, only_reconcileService; apply live_service|intros s].
  apply only_bind; [eapply only_live, only_reconcileExposure; apply live_exposure|intros again].
  apply only_bind_run; [eapply only_live, only_reconcileOperatorAccess; apply live_access|].
  intros [r1 n1] s1 s2 Ha%reconcileOperatorAccess_Ret.
  apply only_bind_run; [eapply only_live, only_reconcileLicense; intros a; by eapply live_license|].
  intros [r2 n2] s3 s4 Hl%reconcileLicense_Ret.
  apply only_bind; [eapply only_live, only_reconcileEntitlements; intros a; by eapply live_entitlements|intros [r3 n3]].
  apply only_bind; [apply only_reconcileStatus|intros _]. apply only_ret.
Qed.

Lemma only_reconcileLive r cp : only (live_call cp) (reconcileLive env r cp).
Proof.
  unfold reconcileLive.
  apply only_bind; [eapply only_live, only_reconcileServiceAccount; apply live_account|intros _].
  apply only_bind; [eapply only_live, only_reconcileWorkspaceRBAC; apply live_rbac|intros _].
  apply only_reconcileServed.
Qed.

(** ** The finalizer *)

Definition add_finalizer cp : action :=
  APatch KControlPlane cp (set_cp_meta (AddFinalizer (cp_meta cp) workspaceRBACFinalizer) cp).

(** [cp'] is the object to work on, which is known to have the finalizer: it
    has it, or was read after the patch that adds it was accepted. *)
Definition finalizer_set req cp cp' (acts : list action) : Prop :=
  if ContainsFinalizer (cp_meta cp) workspaceRBACFinalizer then cp' = cp ∧ acts = []
  else acts = [add_finalizer cp; AGet CachedReader KControlPlane req] ∧
    (∃ w o w', env (add_finalizer cp) w = (Ret o, w')) ∧
    ∃ w w', env (AGet CachedReader KControlPlane req) w = (Ret cp', w').

(** The calls of the step that did not get there. *)
Definition finalizer_failed req cp (acts : list action) : Prop :=
  ContainsFinalizer (cp_meta cp) workspaceRBACFinalizer = false ∧
  (acts = [add_finalizer cp] ∨ acts = [add_finalizer cp; AGet CachedReader KControlPlane req]).

Lemma ensure_finalizer_run req cp st o st' :
  key_of (cp_meta cp) = req → ensureWorkspaceRBACFinalizer env req (Some cp) st = (o, st') →
  ∃ acts, made acts st st' ∧ match o with
    | Ret cp' => finalizer_set req cp cp' acts
    | _ => finalizer_failed req cp acts
    end.
Proof.
  intros <-. unfold ensureWorkspaceRBACFinalizer, finalizer_set, finalizer_failed.
  unfold guard_err, lift, mbind at 1, M_bind at 1, fail_if. cbn [key_of fst snd].
  rewrite !String.eqb_refl. cbn [negb orb].
  destruct (ContainsFinalizer _ _) eqn:Hf.
  { intros [= <- <-]. exists []. split; [apply made_nil|done]. }
  fold (add_finalizer cp). unfold mbind, M_bind, map_err, act.
  destruct (env (add_finalizer cp) (k_world st)) as [[o1|e|e] w1] eqn:E1.
  2, 3: intros [= <- <-]; exists [add_finalizer cp]; split; [done|split; [done|by left]].
  cbn [k_world k_trace].
  destruct (env (AGet CachedReader KControlPlane _) w1) as [[o2|e|e] w2] eqn:E2; intros [= <- <-];
    (eexists [_; _]; split; [unfold made; cbn; rewrite <-app_assoc; reflexivity|]).
  - split; [done|]. split; [by eexists _, _, _|by eexists _, _].
  - split; [done|by right].
  - split; [done|by right].
Qed.

(** ** The whole run *)

(** The calls about the object that was fetched. *)
Definition object_calls req cp (rest : list action) : Prop :=
  if being_deleted cp then ∃ cleaning last, rest = cleaning ++ last ∧ finalization env cp cleaning last
  else finalizer_failed req cp rest ∨
    ∃ cp' guard work, rest = guard ++ work ∧ finalizer_set req cp cp' guard ∧ Forall (live_call cp') work.

Lemma object_run r req cp st :
  key_of (cp_meta cp) = req →
  ∃ rest, made rest st ((if being_deleted cp then finalizeWorkspaceRBAC env (Some cp)
      else cp ← ensureWorkspaceRBACFinalizer env req (Some cp); reconcileLive env r cp) st).2 ∧
    object_calls req cp rest.
Proof.
  intros Hkey. unfold object_calls. destruct (being_deleted cp).
  - destruct (finalizeWorkspaceRBAC env (Some cp) st) as [o st'] eqn:Hrun.
    apply finalize_run in Hrun as (cleaning & last & Hm & Hf & _). exists (cleaning ++ last).
    split; [exact Hm|]. by exists cleaning, last.
  - unfold mbind, M_bind. destruct (ensureWorkspaceRBACFinalizer env req (Some cp) st) as [o st1] eqn:Hrun.
    apply ensure_finalizer_run in Hrun as (guard & Hm & Ho); [|done].
    destruct o as [cp'|e|e]; [|exists guard; (split; [exact Hm|by left])..].
    destruct (only_reconcileLive r cp' st1) as (work & Hm' & Hall). exists (guard ++ work).
    split; [by eapply made_trans|]. right. by exists cp', guard, work.
Qed.

(** The calls of a reconciliation: the object is fetched first, and nothing else
    is done unless it is the requested one. *)
Definition reconcile_calls req (acts : list action) : Prop :=
  acts = [] ∨ ∃ rest, acts = AGet CachedReader KControlPlane req :: rest ∧
    (rest = [] ∨ ∃ cp w w', env (AGet CachedReader KControlPlane req) w = (Ret cp, w') ∧
       key_of (cp_meta cp) = req ∧ object_calls req cp rest).

(** ** Success *)

(** The permissions in the cluster are those of the spec: with permissions
    enabled, the role and the binding of every target namespace were accepted;
    and among the calls [work] of the run are those of a clean-up that deleted
    every listed role and binding the control plane manages, except those of the
    target namespaces (with permissions disabled, [kept_role] and [kept_binding]
    hold of no key). *)
Definition rbac_outcome cp (work : list action) : Prop :=
  (workspacePermsEnabled (WorkspacePerms (RBAC (cp_Spec cp))) = true →
   ∀ ns, ns ∈ targetNamespaces cp → ∃ role rb,
     grants cp (trim_space ns) role rb ∧ held env KRole role ∧ held env KRoleBinding rb) ∧
  ∃ keep keepB before clean after, work = before ++ clean ++ after ∧ cleaned env cp keep keepB clean ∧
    (∀ key, key ∈ keep → kept_role cp key) ∧ (∀ key, key ∈ keepB → kept_binding cp key).

(** The deployment and the service of the spec were accepted; [d] and [s] are
    what the API server returned. *)
Definition workload_outcome r cp (d : Deployment) (s : ServiceObject) : Prop :=
  (∃ v, access_via_sources env r cp v ∧
     stored env KDeployment (new_deployment (key_of (cp_meta cp))) (desired_deployment cp v) d) ∧
  stored env KService (new_service (key_of (cp_meta cp))) (desired_service cp) s.

(** The status [next] that the components computed one after the other from the
    observed deployment and service; and what became of it: nothing was to be
    changed; or it is settled (it was written, or already there, or the object
    has another generation by now); or, the flaw of [interrupted_write_reports_success],
    a status call failed because its context ended, and the error was lost. *)
Definition status_outcome r cp (d : Deployment) (s : ServiceObject) (results : list Result) : Prop :=
  ∃ n1 n2 next r1 r2 r3, results = [r1; r2; r3] ∧
    access_outcome env r cp (desiredStatus cp (dep_ReadyReplicas d) (key_of (svo_meta s))) r1 n1 ∧
    license_outcome env cp n1 r2 n2 ∧ entitlements_outcome env n2 r3 next ∧
    let rd := if hasAPIReader r then APIServerReader else CachedReader in
    let key := key_of (cp_meta cp) in
    (next = cp_Status cp ∨ (∃ final w, settled env rd key (cp_Status cp) next final w) ∨
     ∃ e, interrupted env rd key (cp_Status cp) next e).

(** The requeues asked for by what may change without an event. *)
Definition polls cp (again : bool) : list Result :=
  (if requiresWorkspaceRBACDriftRequeue (Some cp) then [requeue_after workspaceRBACDriftRequeueInterval] else []) ++
  (if again then [requeue_after gatewayExposureRequeueInterval] else []).

Definition converged r cp (res : Result) (work : list action) : Prop :=
  account_outcome env cp ∧ rbac_outcome cp work ∧
  ∃ d s again results, workload_outcome r cp d s ∧ exposure_outcome env cp again ∧
    status_outcome r cp d s results ∧
    (res = no_requeue ∨ res ∈ results ++ polls cp again) ∧
    ∀ x : Result, x ∈ results ++ polls cp again → (0 < RequeueAfter x)%Z → (0 < RequeueAfter res ≤ RequeueAfter x)%Z.

(** One more requested requeue. *)
Lemma merge_one (l : list Result) m (b : bool) d :
  (m = no_requeue ∨ m ∈ l) → (∀ x : Result, x ∈ l → (0 < RequeueAfter x)%Z → (0 < RequeueAfter m ≤ RequeueAfter x)%Z) →
  let l' := l ++ (if b then [requeue_after d] else []) in
  let m' := if b then mergeResults [m; requeue_after d] else m in
  (m' = no_requeue ∨ m' ∈ l') ∧
  ∀ x : Result, x ∈ l' → (0 < RequeueAfter x)%Z → (0 < RequeueAfter m' ≤ RequeueAfter x)%Z.
Proof.
  intros Hm Hle. destruct b; cbv zeta; [|by rewrite app_nil_r].
  destruct (mergeResults_earliest [m; requeue_after d]) as [H1 H2]. split.
  - destruct H1 as [->|H1]; [by left|]. apply elem_of_cons in H1 as [->|H1]; [|right; apply elem_of_app; by right].
    destruct Hm as [->|Hm]; [by left|right; apply elem_of_app; by left].
  - intros x [Hx|Hx%list_elem_of_singleton]%elem_of_app Hpos.
    + destruct (Hle x Hx Hpos) as [Hp Hl]. destruct (H2 m) as [Hp' Hl']; [by left|done|]. lia.
    + subst x. apply H2; [right; by left|done].
Qed.

Lemma only_run {A} P (m : reconciliation (W:=W) A) st o st' :
  only P m → m st = (o, st') → ∃ acts, made acts st st' ∧ Forall P acts.
Proof. intros Honly Hm. destruct (Honly st) as (acts & H1 & H2). rewrite Hm in H1. by exists acts. Qed.

Lemma status_settled r cp next st final st' :
  reconcileStatus env r (Some cp) (cp_Status cp) next st = (Ret final, st') →
  let rd := if hasAPIReader r then APIServerReader else CachedReader in
  let key := key_of (cp_meta cp) in
  next = cp_Status cp ∨ (∃ final w, settled env rd key (cp_Status cp) next final w) ∨
  ∃ e, interrupted env rd key (cp_Status cp) next e.
Proof.
  intros Hst. pose proof (reconcileStatus_wp env r cp (cp_Status cp) next st) as Hw. unfold wp in Hw.
  rewrite Hst in Hw. destruct Hw as [_ Hw]. cbv zeta. destruct (Hw final eq_refl) as [[H _]|[H|[_ H]]]; auto.
  right. left. by eexists _, _.
Qed.

Lemma reconcileServed_Ret r cp st res st' :
  reconcileServed env r cp st = (Ret res, st') →
  ∃ d s again results, workload_outcome r cp d s ∧ exposure_outcome env cp again ∧
    status_outcome r cp d s results ∧
    (res = no_requeue ∨ res ∈ results ++ polls cp again) ∧
    ∀ x : Result, x ∈ results ++ polls cp again → (0 < RequeueAfter x)%Z → (0 < RequeueAfter res ≤ RequeueAfter x)%Z.
Proof.
  unfold reconcileServed. cbv zeta.
  intros (d & s3 & Hd%reconcileDeployment_Ret & (s & s4 & Hs%reconcileService_Ret &
    (again & s5 & He%reconcileExposure_Ret & ([r1 n1] & s6 & Ha%reconcileOperatorAccess_Ret &
    ([r2 n2] & s7 & Hl%reconcileLicense_Ret & ([r3 n3] & s8 & Hent%reconcileEntitlements_Ret &
    (final & s9 & Hst%status_settled & [-> _]%mret_Ret)%M_bind_Ret)%M_bind_Ret)%M_bind_Ret)%M_bind_Ret)%M_bind_Ret)%M_bind_Ret)%M_bind_Ret.
  exists d, s, again, [r1; r2; r3].
  split; [done|]. split; [done|]. split; [by exists n1, n2, n3, r1, r2, r3|].
  unfold polls. rewrite app_assoc.
  destruct (mergeResults_earliest [r1; r2; r3]) as [H1 H2].
  destruct (merge_one _ _ (requiresWorkspaceRBACDriftRequeue (Some cp)) workspaceRBACDriftRequeueInterval H1 H2) as [H3 H4].
  exact (merge_one _ _ again gatewayExposureRequeueInterval H3 H4).
Qed.

Lemma reconcileLive_Ret r cp st res st' :
  reconcileLive env r cp st = (Ret res, st') → ∃ work, made work st st' ∧ converged r cp res work.
Proof.
  unfold reconcileLive. intros (u1 & s1 & Hsa & (u2 & s2 & Hrbac & Hserved)%M_bind_Ret)%M_bind_Ret.
  destruct (only_run _ _ _ _ _ (only_reconcileServiceAccount env cp) Hsa) as (pre & Hm1 & _).
  destruct (only_run _ _ _ _ _ (only_reconcileServed r cp) Hserved) as (post & Hm3 & _).
  apply reconcileWorkspaceRBAC_Ret in Hrbac as [Hgrants (keep & keepB & before & clean & Hm2 & Hclean & Hk & HkB)].
  exists (pre ++ (before ++ clean) ++ post). split; [eapply made_trans; [exact Hm1|by eapply made_trans]|].
  split; [by eapply reconcileServiceAccount_Ret|]. split; [|by eapply reconcileServed_Ret].
  split; [exact Hgrants|]. exists keep, keepB, (pre ++ before), clean, post.
  split; [by rewrite <-!app_assoc|]. done.
Qed.
End control_plane_properties.

(** The calls of a reconciliation, whatever it comes to. *)
Lemma reconcile_run {W} (env : ∀ a : action, M W goerror (reply a)) `{!HasClock W} (r : reconciler)
    (req : object_key) (st : kst W) :
  let '(_, st') := Reconcile env r req st in ∃ acts, made acts st st' ∧ reconcile_calls env req acts.
Proof.
  set (P := λ st' : kst W, ∃ acts, made acts st st' ∧ reconcile_calls env req acts).
  enough (wp (Reconcile env r req) (λ _ st', P st') st) as H.
  { unfold wp in H. by destruct (Reconcile env r req st). }
  assert (P st) as Hnone by (exists []; split; [apply made_nil|by left]).
  unfold Reconcile. apply wp_bind, wp_guard; intros _; [done|]. unfold wp_cont.
  apply wp_bind, wp_guard; intros _; [done|]. unfold wp_cont. apply wp_bind, wp_attempt.
  refine (wp_act env (AGet CachedReader KControlPlane req) _ _ _). intros o w Hget.
  set (s1 := KSt w (k_trace st ++ [AGet CachedReader KControlPlane req])).
  assert (P s1) as Hfetched.
  { exists [AGet CachedReader KControlPlane req]. split; [done|]. right. exists []. split; [done|by left]. }
  destruct o as [cp|err|e]; unfold wp_cont; [|destruct (IsNotFound err); done|done]. cbn in cp. cbv zeta.
  apply wp_bind, wp_guard; intros Hk; [done|]. unfold wp_cont.
  apply orb_false_iff in Hk as [Hn%negb_false_iff%String.eqb_eq Hns%negb_false_iff%String.eqb_eq].
  assert (key_of (cp_meta cp) = req) as Hkey by (unfold key_of; rewrite Hn, Hns; by destruct req).
  apply wp_of_run. intros o s2 Hrun. destruct (object_run env r req cp s1 Hkey) as (rest & Hm & Hcalls).
  rewrite Hrun in Hm. exists (AGet CachedReader KControlPlane req :: rest). split.
  - change (AGet CachedReader KControlPlane req :: rest) with ([AGet CachedReader KControlPlane req] ++ rest).
    apply (made_trans _ _ st s1); [done|exact Hm].
  - right. exists rest. split; [done|]. right. by exists cp, (k_world st), w.
Qed.

(** C2: the operator touches only what belongs to a control plane, and grants
    nothing that would outlive it.  Whatever the cluster, the database and
    coderd answer, the calls of [Reconcile] are: the fetch of the object; for an
    object being deleted, those of a finalization, which creates and updates
    nothing; for a live object without the finalizer, first the patch that adds
    it, and nothing else before that patch was accepted and the object read
    again; and then only calls of the components ([live_call]). *)
Theorem reconcile_safety {W} (env : ∀ a : action, M W goerror (reply a)) `{!HasClock W} (r : reconciler)
    (req : object_key) (st : kst W) :
  let '(_, st') := Reconcile env r req st in ∃ acts, made acts st st' ∧ reconcile_calls env req acts.
Proof. exact (reconcile_run env r req st). Qed.

(** C1: a reconciliation that reports success has brought the cluster to the
    spec.  Its calls are [acts], and one of three things happened.
    - The object is gone.
    - It was being deleted.  Then, if it still had the finalizer, every listed
      role and binding it manages was deleted, and after that the patch that
      removes the finalizer was sent, as the last call, and accepted
      ([finalized_outcome]); without the finalizer nothing was done.
    - It has the finalizer (or got it, by a patch that was accepted, before
      anything else was done) and everything about it has [converged]: service
      account, permissions, deployment, service and exposure were accepted as
      specified, permissions it should not grant were deleted, the status is as
      computed from what was observed, and the next reconciliation is asked for
      as early as any component needs it.  The one exception, stated in
      [status_outcome]: the status write of a reconciliation whose context ends
      may be lost. *)
Theorem reconcile_converges {W} (env : ∀ a : action, M W goerror (reply a)) `{!HasClock W} (r : reconciler)
    (req : object_key) (st : kst W) :
  let '(o, st') := Reconcile env r req st in
  ∀ res, o = Ret res → ∃ rest, made (AGet CachedReader KControlPlane req :: rest) st st' ∧
    ((rest = [] ∧ res = no_requeue ∧
        ∃ w e w', env (AGet CachedReader KControlPlane req) w = (Err e, w') ∧ IsNotFound e = true) ∨
     ∃ (cp : CoderControlPlane) w w', env (AGet CachedReader KControlPlane req) w = (Ret cp, w') ∧
       key_of (cp_meta cp) = req ∧
       if being_deleted cp
       then ∃ cleaning last, rest = cleaning ++ last ∧ finalization env cp cleaning last ∧
              finalized_outcome env cp cleaning last res
       else ∃ cp' guard work, rest = guard ++ work ∧ finalizer_set env req cp cp' guard ∧
              converged env r cp' res work).
Proof.
  destruct (Reconcile env r req st) as [o st'] eqn:Hrun. intros res ->. revert Hrun. unfold Reconcile.
  intros (u1 & s1 & [_ ->]%guard_err_Ret & (u2 & s2 & [_ ->]%guard_err_Ret & (found & s3 & Hget & H)%M_bind_Ret)%M_bind_Ret)%M_bind_Ret.
  set (get := AGet CachedReader KControlPlane req) in *.
  assert (∀ rest s, made rest s3 s → made [get] st s3 → made (get :: rest) st s) as Hmade.
  { intros rest s H1 H2. change (get :: rest) with ([get] ++ rest). by eapply made_trans. }
  destruct found as [cp|err].
  - apply attempt_inl in Hget. inv_act Hget. cbv zeta in H. cbn in cp.
    apply M_bind_Ret in H as (u3 & s4 & [Hk ->]%guard_err_Ret & H).
    apply orb_false_iff in Hk as [Hn%negb_false_iff%String.eqb_eq Hns%negb_false_iff%String.eqb_eq].
    assert (key_of (cp_meta cp) = req) as Hkey by (unfold key_of; rewrite Hn, Hns; by destruct req).
    destruct (being_deleted cp) eqn:Hdel.
    + apply finalize_run in H as (cleaning & last & Hm & Hf & Hres). exists (cleaning ++ last).
      split; [by apply Hmade|]. right. exists cp. eexists _, _. split; [exact Hget|]. split; [done|].
      rewrite Hdel. exists cleaning, last. auto.
    + apply M_bind_Ret in H as (cp' & s5 & (guard & Hm1 & Hguard)%ensure_finalizer_run & Hlive); [|done].
      apply reconcileLive_Ret in Hlive as (work & Hm2 & Hconv). exists (guard ++ work).
      split; [by apply Hmade; [eapply made_trans|]|]. right. exists cp. eexists _, _. split; [exact Hget|]. split; [done|].
      rewrite Hdel. by exists cp', guard, work.
  - apply attempt_inr in Hget. unfold act in Hget. destruct (env _ (k_world _)) as [o w] eqn:E.
    injection Hget as -> <-. destruct (IsNotFound err) eqn:Hn; [|discriminate H]. inv_run H.
    exists []. split; [done|]. left. split; [done|]. split; [done|]. by eexists _, err, _.
Qed.

End ControlPlane.
