(* ===== verification/Triggers.v ===== *)
(** * Triggers: which control planes a changed object concerns

    The field indexes over control planes and the mapping of changed secrets
    and config maps to reconcile requests, of
    internal/controller/codercontrolplane_controller.go. *)

From S2P Require Import Prelude GoStd GoStdFacts StringFacts GoErrors ApiTypes Examples KubeObjects Kube ControlPlaneNames.

#[local] Open Scope string_scope.
#[local] Open Scope list_scope.

Module Triggers.
Import ControlPlaneNames.

Definition licenseSecretNameFieldIndex := ".spec.licenseSecretRef.name".
Definition envFromConfigMapNameFieldIndex := ".spec.envFrom.configMapRef.name".
Definition envFromSecretNameFieldIndex := ".spec.envFrom.secretRef.name".

(** ** Indexes

    The names an object is indexed under; their order is that of a map
    iteration, which is not specified, and nothing depends on it. *)

Definition indexByLicenseSecretName (cp : CoderControlPlane) : gset string :=
  match LicenseSecretRef (cp_Spec cp) with
  | None => ∅
  | Some ref =>
      let licenseSecretName := trim_space (sks_Name ref) in
      if String.eqb licenseSecretName "" then ∅ else {[licenseSecretName]}
  end.

(** The trimmed names some reference of the environment sources has. *)
Definition indexByEnvFrom (reference : EnvFromSource → option string) (cp : CoderControlPlane) : gset string :=
  foldl (λ names source,
    match reference source with
    | None => names
    | Some ref =>
        let name := trim_space ref in
        if String.eqb name "" then names else {[name]} ∪ names
    end) ∅ (EnvFrom (cp_Spec cp)).

Definition indexByEnvFromConfigMapName : CoderControlPlane → gset string := indexByEnvFrom ef_ConfigMapRef.
Definition indexByEnvFromSecretName : CoderControlPlane → gset string := indexByEnvFrom ef_SecretRef.

(** ** Requests *)

Definition requestKey (request : object_key) : string := namespacedResourceKey request.1 request.2.
Definition blankRequest (request : object_key) : bool := blank request.2 || blank request.1.

Definition merge_request (s : gset string * list object_key) (request : object_key)
    : gset string * list object_key :=
  let '(seen, merged) := s in
  if blankRequest request then (seen, merged)
  else if bool_decide (requestKey request ∈ seen) then (seen, merged)
  else ({[requestKey request]} ∪ seen, merged ++ [request]).

Definition mergeReconcileRequests (requestGroups : list (list object_key)) : list object_key :=
  (foldl (foldl merge_request) (∅, []) requestGroups).2.

(** An object of any kind, as the watches deliver them. *)
Definition any_object : Type := {k : kind & obj k}.

Section requests.
Context {W : Type} (env : ∀ a : action, M W goerror (reply a)).

Definition reconcileRequestsForIndexedControlPlanes (namespace indexField indexValue : string)
    : reconciliation (W:=W) (list object_key) :=
  let namespace := trim_space namespace in
  let indexField := trim_space indexField in
  let indexValue := trim_space indexValue in
  if String.eqb namespace "" || String.eqb indexField "" || String.eqb indexValue "" then mret []
  else
    listed ← attempt (act env (AListIndexed namespace indexField indexValue));
    match listed with
    | inr _ => mret []
    | inl cps =>
        mret (List.filter (λ request, negb (blankRequest request))
                (map (λ cp, key_of (cp_meta cp)) (cps : list CoderControlPlane)))
    end.

Definition reconcileRequestsForEnvFromConfigMap (o : any_object) : reconciliation (W:=W) (list object_key) :=
  match o with
  | existT KConfigMap configMap =>
      reconcileRequestsForIndexedControlPlanes (Namespace (cm_meta configMap))
        envFromConfigMapNameFieldIndex (Name (cm_meta configMap))
  | _ => mret []
  end.

Definition reconcileRequestsForEnvFromSecret (o : any_object) : reconciliation (W:=W) (list object_key) :=
  match o with
  | existT KSecret secret =>
      reconcileRequestsForIndexedControlPlanes (Namespace (secret_meta secret))
        envFromSecretNameFieldIndex (Name (secret_meta secret))
  | _ => mret []
  end.

Definition reconcileRequestsForLicenseSecret (o : any_object) : reconciliation (W:=W) (list object_key) :=
  match o with
  | existT KSecret secret =>
      let m := secret_meta secret in
      if blank (Name m) || blank (Namespace m) then mret []
      else
        licenseSecretRequests ← reconcileRequestsForIndexedControlPlanes (Namespace m)
                                  licenseSecretNameFieldIndex (Name m);
        envFromSecretRequests ← reconcileRequestsForEnvFromSecret o;
        mret (mergeReconcileRequests [licenseSecretRequests; envFromSecretRequests])
  | _ => mret []
  end.
End requests.

(** * Properties *)

(** ** Merging *)

(** The reference of the merge: the first request of every key, blanks aside. *)
Fixpoint first_requests (seen : gset string) (requests : list object_key) : list object_key :=
  match requests with
  | [] => []
  | request :: rest =>
      if blankRequest request || bool_decide (requestKey request ∈ seen) then first_requests seen rest
      else request :: first_requests ({[requestKey request]} ∪ seen) rest
  end.

Lemma merge_first_requests groups : mergeReconcileRequests groups = first_requests ∅ (concat groups).
Proof.
  unfold mergeReconcileRequests.
  assert (∀ s, foldl (foldl merge_request) s groups = foldl merge_request s (concat groups)) as ->.
  { induction groups as [|g l IH]; intros s; cbn; [done|]. by rewrite foldl_app, IH. }
  enough (∀ l seen acc, (foldl merge_request (seen, acc) l).2 = acc ++ first_requests seen l) as H by apply H.
  intros l. induction l as [|x l IH]; intros seen acc; cbn; [by rewrite app_nil_r|].
  destruct (blankRequest x); cbn [orb]; [apply IH|].
  case_bool_decide; [apply IH|]. by rewrite IH, <-app_assoc.
Qed.

Lemma first_requests_spec seen l :
  NoDup (requestKey <$> first_requests seen l) ∧
  (∀ key, key ∈ (requestKey <$> first_requests seen l) ↔
     (key ∉ seen) ∧ ∃ x, x ∈ l ∧ blankRequest x = false ∧ key = requestKey x) ∧
  ∀ x, x ∈ first_requests seen l → x ∈ l.
Proof.
  revert seen. induction l as [|y l IH]; intros seen.
  { cbn. split_and!; [apply NoDup_nil_2| |done]. intros key. split; [by intros ?%elem_of_nil|].
    by intros (_ & x & ?%elem_of_nil & _). }
  assert (blankRequest y = true ∨ requestKey y ∈ seen →
    first_requests seen (y :: l) = first_requests seen l) as Hskip.
  { cbn. intros [->|H]; [done|]. by rewrite (bool_decide_true _ H), orb_true_r. }
  destruct (decide (blankRequest y = true ∨ requestKey y ∈ seen)) as [Hy|Hy].
  - rewrite Hskip by done. destruct (IH seen) as (H1 & H2 & H3). split_and!; [done| |].
    + intros key. rewrite H2. split; intros (Hk & x & Hx & Hb & ->); (split; [done|]); exists x.
      * split; [by right|done].
      * apply elem_of_cons in Hx as [->|Hx]; [|done]. destruct Hy; congruence.
    + intros x Hx%H3. by right.
  - clear Hskip. apply Decidable.not_or in Hy as [Hb%not_true_is_false Hin]. cbn.
    rewrite Hb, (bool_decide_false _ Hin). cbn.
    destruct (IH ({[requestKey y]} ∪ seen)) as (H1 & H2 & H3). split_and!.
    + apply NoDup_cons. split; [|done]. rewrite H2. intros [H _]. apply H. set_solver.
    + intros key. rewrite elem_of_cons, H2. split.
      * intros [->|(Hk & x & Hx & Hbx & ->)]; [split; [done|]; exists y; split; [by left|done]|].
        split; [set_solver|]. exists x. split; [by right|done].
      * intros (Hk & x & [->|Hx]%elem_of_cons & Hbx & ->); [by left|].
        destruct (decide (requestKey x = requestKey y)) as [->|Hne]; [by left|right].
        split; [set_solver|]. by exists x.
    + intros x [->|Hx%H3]%elem_of_cons; [by left|by right].
Qed.

(** ** Indexes *)

Lemma indexByEnvFrom_spec reference cp name :
  name ∈ indexByEnvFrom reference cp ↔
  name ≠ "" ∧ ∃ source ref, source ∈ EnvFrom (cp_Spec cp) ∧ reference source = Some ref ∧ trim_space ref = name.
Proof.
  unfold indexByEnvFrom.
  enough (∀ l names, name ∈ foldl (λ names source,
    match reference source with
    | None => names
    | Some ref => let name := trim_space ref in if String.eqb name "" then names else {[name]} ∪ names
    end) names l ↔ name ∈ (names : gset string) ∨
      name ≠ "" ∧ ∃ source ref, source ∈ l ∧ reference source = Some ref ∧ trim_space ref = name) as H.
  { rewrite H. set_solver. }
  intros l. induction l as [|s l IH]; intros names; cbn.
  { split; [by left|]. intros [?|(_ & s & _ & ?%elem_of_nil & _)]; done. }
  rewrite IH. destruct (reference s) as [ref|] eqn:Href; [destruct (String.eqb_spec (trim_space ref) "") as [He|He]|].
  - split; (intros [?|(Hn & s' & ref' & Hs & Hr & Ht)]; [by left|right; split; [done|]; exists s', ref'; split_and!; [|done..]]);
      [by right|]. apply elem_of_cons in Hs as [->|Hs]; [|done]. congruence.
  - split.
    + intros [[Hx%elem_of_singleton|?]%elem_of_union|(Hn & s' & ref' & Hs & Hr & Ht)]; [right|by left|right].
      * subst name. split; [done|]. exists s, ref. split_and!; [by left|done..].
      * split; [done|]. exists s', ref'. split_and!; [by right|done..].
    + intros [?|(Hn & s' & ref' & [->|Hs]%elem_of_cons & Hr & Ht)]; [left; set_solver|left|right].
      * rewrite Href in Hr. injection Hr as <-. set_solver.
      * split; [done|]. by exists s', ref'.
  - split; (intros [?|(Hn & s' & ref' & Hs & Hr & Ht)]; [by left|right; split; [done|]; exists s', ref'; split_and!; [|done..]]);
      [by right|]. apply elem_of_cons in Hs as [->|Hs]; [|done]. congruence.
Qed.

(** The secrets and config maps that a control plane names in its license
    reference or its environment sources.  Those that it names elsewhere (TLS,
    CA certificates, single environment variables) are not indexed: they are
    mounted and read by its pod, and the secret of the database URL, which the
    operator reads, is read again by every reconciliation. *)
Definition names_secret (cp : CoderControlPlane) (name : string) : Prop :=
  (∃ ref, LicenseSecretRef (cp_Spec cp) = Some ref ∧ trim_space (sks_Name ref) = name) ∨
  ∃ source ref, source ∈ EnvFrom (cp_Spec cp) ∧ ef_SecretRef source = Some ref ∧ trim_space ref = name.

Lemma names_secret_indexed cp name :
  names_secret cp name → name ≠ "" →
  name ∈ indexByLicenseSecretName cp ∨ name ∈ indexByEnvFromSecretName cp.
Proof.
  intros [(ref & Href & Ht)|H] Hne; [left|right; by apply indexByEnvFrom_spec].
  unfold indexByLicenseSecretName. rewrite Href, Ht. rewrite (proj2 (String.eqb_neq _ _)) by done. set_solver.
Qed.

Definition names_config_map (cp : CoderControlPlane) (name : string) : Prop :=
  ∃ source ref, source ∈ EnvFrom (cp_Spec cp) ∧ ef_ConfigMapRef source = Some ref ∧ trim_space ref = name.

(** The index functions as they are registered with the manager. *)
Definition index_of (indexField : string) : CoderControlPlane → gset string :=
  if String.eqb indexField licenseSecretNameFieldIndex then indexByLicenseSecretName
  else if String.eqb indexField envFromConfigMapNameFieldIndex then indexByEnvFromConfigMapName
  else if String.eqb indexField envFromSecretNameFieldIndex then indexByEnvFromSecretName
  else λ _, ∅.

(** ** Requests *)

Section trigger_properties.
Context {W : Type} (env : ∀ a : action, M W goerror (reply a)).
Context (known : W → list CoderControlPlane).
Implicit Types (st : kst W) (cp : CoderControlPlane).

(** The cache of the manager: a list by a field index returns, in some order, the
    known control planes of the namespace whose index has the value. *)
Definition lists_by_index : Prop := ∀ namespace indexField indexValue w, ∃ cps,
  env (AListIndexed namespace indexField indexValue) w = (Ret cps, w) ∧
  cps ≡ₚ filter (λ cp, Namespace (cp_meta cp) = namespace ∧ indexValue ∈ index_of indexField cp) (known w).

(** The cache knows a control plane under its key, once. *)
Definition known_once (w : W) : Prop := NoDup ((λ cp, key_of (cp_meta cp)) <$> known w).

(** The requests for the control planes of a namespace that satisfy [P]. *)
Definition requests_for (w : W) (namespace : string) (P : CoderControlPlane → Prop) (requests : list object_key) : Prop :=
  ∀ req, req ∈ requests ↔ ∃ cp, cp ∈ known w ∧ key_of (cp_meta cp) = req ∧
    Namespace (cp_meta cp) = trim_space namespace ∧ blank (Name (cp_meta cp)) = false ∧ P cp.

Lemma NoDup_requests (P : CoderControlPlane → Prop) `{∀ cp, Decision (P cp)} (keep : object_key → bool) cps w :
  cps ≡ₚ filter P (known w) → known_once w → NoDup (List.filter keep (map (λ cp, key_of (cp_meta cp)) cps)).
Proof.
  intros Hperm Hk. apply NoDup_ListNoDup, List.NoDup_filter, NoDup_ListNoDup.
  change (map ?f cps) with (f <$> cps). rewrite Hperm. unfold known_once in Hk. clear Hperm.
  revert Hk. induction (known w) as [|cp l IH]; [by intros _; apply NoDup_nil_2|]. rewrite filter_cons, fmap_cons, NoDup_cons.
  intros [Hcp Hl]. destruct (decide (P cp)); [|by apply IH]. rewrite fmap_cons, NoDup_cons. split; [|by apply IH].
  intros (cp' & Heq & [_ Hin]%list_elem_of_filter)%list_elem_of_fmap. apply Hcp, list_elem_of_fmap. by exists cp'.
Qed.

Lemma indexed_requests namespace indexField indexValue st :
  lists_by_index → trim_space indexField = indexField → indexField ≠ "" →
  blank namespace = false → blank indexValue = false →
  ∃ requests st', reconcileRequestsForIndexedControlPlanes env namespace indexField indexValue st
      = (Ret requests, st') ∧ k_world st' = k_world st ∧
    requests_for (k_world st) namespace (λ cp, trim_space indexValue ∈ index_of indexField cp) requests ∧
    (known_once (k_world st) → NoDup requests).
Proof.
  intros Hidx Hf Hne Hns Hv. unfold reconcileRequestsForIndexedControlPlanes. cbv zeta. rewrite Hf.
  unfold blank in Hns, Hv. rewrite Hns, Hv, (proj2 (String.eqb_neq _ _) Hne). cbn [orb].
  destruct (Hidx (trim_space namespace) indexField (trim_space indexValue) (k_world st)) as (cps & Hl & Hin).
  unfold attempt, act, mbind, M_bind. rewrite Hl. eexists _, _. split; [reflexivity|]. split; [done|].
  assert (∀ cp, cp ∈ cps ↔ cp ∈ known (k_world st) ∧ Namespace (cp_meta cp) = trim_space namespace ∧
    trim_space indexValue ∈ index_of indexField cp) as Hcps
    by (intros cp; rewrite Hin, list_elem_of_filter; naive_solver).
  split; [|intros Hk; by eapply NoDup_requests].
  intros req. rewrite list_elem_of_In, filter_In, in_map_iff, negb_true_iff. split.
  - intros [(cp & <- & (Hk & Hn & Hi)%list_elem_of_In%Hcps) Hb]. exists cp.
    unfold blankRequest in Hb. cbn in Hb. apply orb_false_iff in Hb as [? _]. done.
  - intros (cp & Hk & <- & Hn & Hb & Hi). split.
    + exists cp. split; [done|]. apply list_elem_of_In, Hcps. done.
    + unfold blankRequest. cbn. rewrite Hb, Hn. cbn. unfold blank. by rewrite trim_space_idem.
Qed.

Lemma requestKey_inj (x y : object_key) : x.1 = y.1 → requestKey x = requestKey y → x = y.
Proof.
  destruct x as [nx x], y as [ny y]. cbn. intros ->. unfold requestKey, namespacedResourceKey. cbn.
  intros H%(inj (String.append _)). by injection H as ->.
Qed.

Lemma merged_requests w namespace P1 P2 r1 r2 :
  blank namespace = false → requests_for w namespace P1 r1 → requests_for w namespace P2 r2 →
  NoDup (mergeReconcileRequests [r1; r2]) ∧
  requests_for w namespace (λ cp, P1 cp ∨ P2 cp) (mergeReconcileRequests [r1; r2]).
Proof.
  intros Hns H1 H2. rewrite merge_first_requests. cbn. rewrite app_nil_r.
  destruct (first_requests_spec ∅ (r1 ++ r2)) as (Hnd & Hkeys & Hsub). split; [by eapply NoDup_fmap_1|].
  assert (∀ x, x ∈ r1 ++ r2 ↔ ∃ cp, cp ∈ known w ∧ key_of (cp_meta cp) = x ∧
    Namespace (cp_meta cp) = trim_space namespace ∧ blank (Name (cp_meta cp)) = false ∧ (P1 cp ∨ P2 cp)) as Hall.
  { intros x. rewrite elem_of_app, (H1 x), (H2 x). naive_solver. }
  intros req. rewrite <-Hall. split; [apply Hsub|]. intros Hin.
  pose proof (proj1 (Hall req) Hin) as (cp & _ & Hk & Hn & Hb & _).
  assert (blankRequest req = false) as Hnb.
  { unfold blankRequest. rewrite <-Hk. cbn. rewrite Hb, Hn. unfold blank. by rewrite trim_space_idem. }
  assert (requestKey req ∈ (requestKey <$> first_requests ∅ (r1 ++ r2))) as (x & Hx & Hxin)%list_elem_of_fmap.
  { apply Hkeys. split; [set_solver|]. by exists req. }
  replace req with x; [done|]. apply requestKey_inj; [|done].
  pose proof (proj1 (Hall x) (Hsub _ Hxin)) as (cp' & _ & Hk' & Hn' & _). rewrite <-Hk, <-Hk'. cbn. congruence.
Qed.
End trigger_properties.

(** C33: a changed secret or config map reconciles exactly the control planes
    whose license or environment sources name it.  Given a cache that lists by
    the registered indexes, the requests for a secret are those of the control
    planes of its namespace that name it as their license or in a source of their
    environment, and those for a config map are those of the control planes that
    name it in a source of their environment; each is requested once.  The
    references of a spec to other secrets and config maps cause no request. *)
Theorem changes_reach_control_planes {W} (env : ∀ a : action, M W goerror (reply a))
    (known : W → list CoderControlPlane) (m : ObjectMeta) (st : kst W)
    (Hindex : lists_by_index env known) (Hknown : known_once known (k_world st))
    (Hname : blank (Name m) = false) (Hns : blank (Namespace m) = false) :
  (∀ type data, ∃ requests st',
     reconcileRequestsForLicenseSecret env
       (existT KSecret {| secret_meta := m; secret_Type := type; secret_Data := data |}) st = (Ret requests, st') ∧
     NoDup requests ∧
     requests_for known (k_world st) (Namespace m) (λ cp, names_secret cp (trim_space (Name m))) requests) ∧
  (∀ data, ∃ requests st',
     reconcileRequestsForEnvFromConfigMap env (existT KConfigMap {| cm_meta := m; cm_Data := data |}) st
       = (Ret requests, st') ∧
     NoDup requests ∧
     requests_for known (k_world st) (Namespace m) (λ cp, names_config_map cp (trim_space (Name m))) requests).
Proof.
  assert (trim_space (Name m) ≠ "") as Hne by (by apply String.eqb_neq).
  split.
  - intros type data. unfold reconcileRequestsForLicenseSecret. cbn [secret_meta]. rewrite Hname, Hns. cbn [orb].
    destruct (indexed_requests env known (Namespace m) licenseSecretNameFieldIndex (Name m) st)
      as (r1 & s1 & Hr1 & Hw1 & Hq1 & _); [done..|].
    destruct (indexed_requests env known (Namespace m) envFromSecretNameFieldIndex (Name m) s1)
      as (r2 & s2 & Hr2 & Hw2 & Hq2 & _); [done..|]. rewrite Hw1 in Hq2.
    destruct (merged_requests known _ _ _ _ _ _ Hns Hq1 Hq2) as [Hnd Hq].
    exists (mergeReconcileRequests [r1; r2]), s2. split_and!; [|done|].
    + unfold reconcileRequestsForEnvFromSecret, mbind, M_bind. cbn [secret_meta]. by rewrite Hr1, Hr2.
    + intros req. rewrite (Hq req). f_equiv. intros cp.
      assert (trim_space (Name m) ∈ index_of licenseSecretNameFieldIndex cp ∨
        trim_space (Name m) ∈ index_of envFromSecretNameFieldIndex cp ↔ names_secret cp (trim_space (Name m))) as ->; [|done].
      split; [|intros H; by apply names_secret_indexed].
      intros [H|H]; [left|right; by apply indexByEnvFrom_spec in H as [_ H]].
      change (index_of licenseSecretNameFieldIndex) with indexByLicenseSecretName in H.
      unfold indexByLicenseSecretName in H. destruct (LicenseSecretRef _) as [ref|]; [|set_solver].
      cbv zeta in H. destruct (String.eqb _ _); [set_solver|]. exists ref. set_solver.
  - intros data. destruct (indexed_requests env known (Namespace m) envFromConfigMapNameFieldIndex (Name m) st)
      as (r & s & Hr & _ & Hq & Hnd); [done..|]. exists r, s. split; [exact Hr|]. split; [by apply Hnd|].
    intros req. rewrite (Hq req). f_equiv. intros cp.
    assert (trim_space (Name m) ∈ index_of envFromConfigMapNameFieldIndex cp ↔
      names_config_map cp (trim_space (Name m))) as ->; [|done].
    change (index_of envFromConfigMapNameFieldIndex) with indexByEnvFromConfigMapName.
    unfold indexByEnvFromConfigMapName, names_config_map. rewrite indexByEnvFrom_spec. naive_solver.
Qed.


(** A cache whose world is the list of control planes it knows. *)
Definition cache_env (a : action) : M (list CoderControlPlane) goerror (reply a) := λ cps,
  match a with
  | AListIndexed namespace indexField indexValue =>
      (Ret (List.filter (λ cp, String.eqb (Namespace (cp_meta cp)) namespace
                               && bool_decide (indexValue ∈ index_of indexField cp)) cps), cps)
  | _ => (Err (Errorf "not a list" []), cps)
  end.

Lemma changes_reach_control_planes_witness :
  let m := meta_of_key ("ns", "license") in
  let st := KSt [full_cp []; example_cp "ns" "other" true] [] in
  lists_by_index cache_env (λ cps, cps) ∧ known_once (λ cps, cps) (k_world st) ∧ blank (Name m) = false ∧ blank (Namespace m) = false ∧
  (∀ type data, ∃ requests st',
     reconcileRequestsForLicenseSecret cache_env
       (existT KSecret {| secret_meta := m; secret_Type := type; secret_Data := data |}) st = (Ret requests, st') ∧
     NoDup requests ∧ ("ns", "coder") ∈ requests).
Proof.
  intros m st.
  assert (lists_by_index cache_env (λ cps, cps)) as Hindex.
  { intros ns f v w. eexists. split; [reflexivity|]. apply reflexive_eq. induction w as [|cp w IH]; [done|].
    cbn [List.filter]. rewrite IH, filter_cons.
    destruct (String.eqb_spec (Namespace (cp_meta cp)) ns), (decide (v ∈ index_of f cp)) as [Hv|Hv];
      rewrite ?(bool_decide_true _ Hv), ?(bool_decide_false _ Hv); cbn; destruct (decide _); naive_solver. }
  assert (known_once (λ cps, cps) (k_world st)) as Hknown by (by apply (bool_decide_unpack _)).
  split; [exact Hindex|]. split; [exact Hknown|]. split; [reflexivity|]. split; [reflexivity|]. intros type data.
  destruct (proj1 (changes_reach_control_planes cache_env (λ cps, cps) m st Hindex Hknown eq_refl eq_refl) type data)
    as (requests & st' & Hrun & Hnd & Hreq).
  exists requests, st'. split; [exact Hrun|]. split; [exact Hnd|]. apply Hreq.
  exists (full_cp []). split; [by left|]. split; [reflexivity|]. split; [reflexivity|]. split; [reflexivity|].
  left. by eexists.
Defined.

End Triggers.
