(* ===== verification/SteadyState.v ===== *)
(** * SteadyState: a reconciliation of what was written changes nothing

    Every mutation the controller hands to [CreateOrUpdate] is a function of
    the control plane that is stable on its own results: where the API server
    has kept an object as it was written, the next reconciliation only reads
    it. *)

From S2P Require Import Prelude GoStd GoStdFacts StringFacts GoErrors ApiTypes Examples KubeObjects Kube ControlPlaneNames ControlPlaneStatus OperatorAccess ServiceAccounts WorkspaceRBAC Workload Exposure.

#[local] Open Scope string_scope.
#[local] Open Scope list_scope.

Module SteadyState.
Import ControlPlaneNames ControlPlaneStatus OperatorAccess ServiceAccounts WorkspaceRBAC Workload Exposure.

(** The mutations of the controller, with the object literals they start from. *)
Inductive mutation (cp : CoderControlPlane) : ∀ k : kind, obj k → (obj k → result (obj k)) → Prop :=
  | mutation_token name key token :
      mutation cp KSecret {| secret_meta := meta_of_key (Namespace (cp_meta cp), name);
                             secret_Type := ""; secret_Data := ∅ |} (token_secret cp key token)
  | mutation_account : mutation cp KServiceAccount (new_service_account cp) (service_account cp)
  | mutation_role ownerUID ns name :
      mutation cp KRole (new_role (ns, name)) (workspace_role cp ownerUID ns)
  | mutation_binding ownerUID ns name roleName sa :
      mutation cp KRoleBinding (new_role_binding (ns, name)) (workspace_role_binding cp ownerUID ns roleName sa)
  | mutation_deployment v :
      mutation cp KDeployment (new_deployment (key_of (cp_meta cp))) (desired_deployment cp v)
  | mutation_service : mutation cp KService (new_service (key_of (cp_meta cp))) (desired_service cp)
  | mutation_ingress spec primaryHost wildcardHost port :
      mutation cp KIngress (new_ingress (key_of (cp_meta cp))) (desired_ingress cp spec primaryHost wildcardHost port)
  | mutation_route spec primaryHost :
      mutation cp KHTTPRoute (new_route (key_of (cp_meta cp))) (desired_route cp spec primaryHost).

Lemma set_labels_id l m : Labels m = l → set_labels l m = m.
Proof. intros <-. by destruct m. Qed.
Lemma set_annotations_id a m : Annotations m = a → set_annotations a m = m.
Proof. intros <-. by destruct m. Qed.
Lemma set_owners_id l m : OwnerReferences m = l → set_owners l m = m.
Proof. intros <-. by destruct m. Qed.

(** Updates of labels and annotations that are already done. *)
Lemma ownedBy_labels cp l m m' :
  ownedBy cp (set_labels l m) = Ret m' → ownedBy cp (set_labels l m') = Ret m'.
Proof.
  intros H. pose proof (owned_by_spec _ _ _ H) as (_ & _ & Hl & _).
  rewrite set_labels_id by done. by eapply ownedBy_idem.
Qed.

Lemma ownedBy_metadata cp a l m m' :
  ownedBy cp (set_annotations a (set_labels l m)) = Ret m' →
  ownedBy cp (set_annotations a (set_labels l m')) = Ret m'.
Proof.
  intros H. pose proof (owned_by_spec _ _ _ H) as (_ & _ & Hl & Ha).
  rewrite set_labels_id, set_annotations_id by done. by eapply ownedBy_idem.
Qed.

Lemma workspace_owner_stable cp uid ns m m' :
  workspace_owner cp ns (workspace_meta cp uid m) = Ret m' →
  workspace_owner cp ns (workspace_meta cp uid m') = Ret m'.
Proof.
  unfold workspace_owner, workspace_meta. destruct (String.eqb ns _); [apply ownedBy_metadata|].
  intros [= <-]. done.
Qed.

Lemma desired_deployment_stable cp v d d' :
  desired_deployment cp v d = Ret d' → desired_deployment cp v d' = Ret d'.
Proof.
  unfold desired_deployment. cbv zeta. intros (m & Hm%ownedBy_labels & Hrest)%outcome_bind_Ret.
  destruct d' as [m' reps sel tpl other ready].
  assert (m' = m) as -> by (repeat (apply outcome_bind_Ret in Hrest as (? & _ & Hrest)); by injection Hrest).
  cbn [dep_meta]. rewrite Hm. cbn.
  destruct (fail_if _ _) as [u| |]; [|discriminate Hrest..]. cbn in Hrest |- *.
  destruct (accessURLEnv cp v) as [access| |]; [|discriminate Hrest..]. cbn in Hrest |- *.
  destruct (if controlPlaneTLSEnabled (Some cp) then _ else _) as [tls| |]; [|discriminate Hrest..]. cbn in Hrest |- *.
  destruct (certSecrets cp) as [certs| |]; [|discriminate Hrest..]. cbn in Hrest |- *.
  injection Hrest as <- <- <- <- <-. reflexivity.
Qed.

Lemma mutation_stable cp k init f : mutation cp k init f → ∀ o o', f o = Ret o' → f o' = Ret o'.
Proof.
  intros [name key token| |uid ns name|uid ns name roleName sa|v| |spec primary wildcard port|spec primary] o o'.
  - unfold token_secret. intros (m & Hm%ownedBy_labels & [= <-])%outcome_bind_Ret. cbn [secret_meta secret_Data].
    rewrite Hm. cbn. by rewrite insert_insert_eq.
  - unfold service_account. cbv zeta. intros (m & Hm%ownedBy_metadata & [= <-])%outcome_bind_Ret. cbn [sao_meta].
    by rewrite Hm.
  - unfold workspace_role. intros (m & Hm%workspace_owner_stable & [= <-])%outcome_bind_Ret. cbn [role_meta].
    by rewrite Hm.
  - unfold workspace_role_binding. intros (m & Hm%workspace_owner_stable & [= <-])%outcome_bind_Ret. cbn [rb_meta].
    by rewrite Hm.
  - apply desired_deployment_stable.
  - unfold desired_service. cbv zeta. intros (m & Hm%ownedBy_metadata & [= <-])%outcome_bind_Ret. cbn [svo_meta svo_OtherSpec].
    by rewrite Hm.
  - unfold desired_ingress. cbv zeta. intros (tls & Htls & (m & Hm%ownedBy_metadata & [= <-])%outcome_bind_Ret)%outcome_bind_Ret.
    cbn [ing_meta]. rewrite Htls. cbn. by rewrite Hm.
  - unfold desired_route. cbv zeta. intros (refs & Hr & (port & Hp & (m & Hm%ownedBy_labels & [= <-])
      %outcome_bind_Ret)%outcome_bind_Ret)%outcome_bind_Ret.
    cbn [route_meta]. rewrite Hr. cbn [mbind outcome_mbind outcome_bind]. rewrite Hp.
    cbn [mbind outcome_mbind outcome_bind]. by rewrite Hm.
Qed.

(** C34: reconciling what was reconciled is only reading it.  If the API server
    has an object as the controller asked for it, [CreateOrUpdate] with the same
    mutation is the read of that object: it succeeds with the object and writes
    nothing. *)
Theorem reconciled_objects_are_stable {W} (env : ∀ a : action, M W goerror (reply a)) (cp : CoderControlPlane)
    (k : kind) (init : obj k) (f : obj k → result (obj k)) (base o : obj k) (w w' : W) (trace : list action)
    (Hf : mutation cp k init f) (Hbase : f base = Ret o) (Hkey : key_of (meta k o) = key_of (meta k init))
    (Hget : env (AGet CachedReader k (key_of (meta k init))) w = (Ret o, w')) :
  CreateOrUpdate env k init f (KSt w trace)
    = (Ret o, KSt w' (trace ++ [AGet CachedReader k (key_of (meta k init))])).
Proof. apply CreateOrUpdate_steady; [exact Hget|by eapply mutation_stable|exact Hkey]. Qed.

(** An API server that has one service. *)
Definition one_service_env (s : ServiceObject) (a : action) : M () goerror (reply a) := λ w,
  match a with
  | AGet _ KService _ => (Ret s, w)
  | _ => (Err (Errorf "not found" []), w)
  end.

Lemma reconciled_objects_are_stable_witness :
  let cp := full_cp example_certs in
  let init := new_service ("ns", "coder") in
  mutation cp KService init (desired_service cp) ∧ desired_service cp init = Ret (example_service cp) ∧
  key_of (svo_meta (example_service cp)) = key_of (svo_meta init) ∧
  CreateOrUpdate (one_service_env (example_service cp)) KService init (desired_service cp) (KSt tt [])
    = (Ret (example_service cp), KSt tt [AGet CachedReader KService ("ns", "coder")]).
Proof.
  cbv zeta.
  assert (desired_service (full_cp example_certs) (new_service ("ns", "coder"))
            = Ret (example_service (full_cp example_certs))) as Hs by (vm_compute; reflexivity).
  assert (mutation (full_cp example_certs) KService (new_service ("ns", "coder"))
            (desired_service (full_cp example_certs))) as Hm by exact (mutation_service (full_cp example_certs)).
  split; [exact Hm|]. split; [exact Hs|]. split; [vm_compute; reflexivity|].
  apply (reconciled_objects_are_stable (one_service_env (example_service (full_cp example_certs)))
    (full_cp example_certs) KService (new_service ("ns", "coder")) (desired_service (full_cp example_certs))
    (new_service ("ns", "coder")) (example_service (full_cp example_certs)) tt tt [] Hm Hs).
  - vm_compute. reflexivity.
  - reflexivity.
Defined.

End SteadyState.
