(* ===== verification/ProvisionerNames.v ===== *)
(** * ProvisionerNames: names, hashes and delays of a provisioner

    The pure helpers of internal/controller/coderprovisioner_controller.go:
    derived object names and labels, the key configuration, the hashes that
    detect drift, and the delay after the API's rate limit was hit, with the
    floating-point jitter computed in binary64 (Standard Library, SpecFloat). *)

From S2P Require Import Prelude GoStd GoStdFacts StringFacts GoErrors ApiTypes KubeObjects Kube ControlPlaneNames.
From Stdlib Require Import SpecFloat Lia.

#[local] Open Scope string_scope.
#[local] Open Scope list_scope.

Module ProvisionerNames.
Import ControlPlaneNames.

Definition defaultProvisionerReplicas : Z := 1.
Definition defaultProvisionerTerminationGracePeriodSeconds : Z := 600.
Definition defaultProvisionerOrganizationName := "default".
Definition provisionerNamePrefix := "provisioner-".
Definition provisionerServiceAccountSuffix := "-provisioner".
Definition provisionerKeyChecksumAnnotation := "checksum/provisioner-key".
Definition provisionerRateLimitBackoffBase : Z := 2 * second.
Definition provisionerRateLimitBackoffCap : Z := 120 * second.
Definition provisionerRateLimitBackoffFloor : Z := 1 * second.
Definition externalProvisionerEntitlementRetryInterval : Z := 120 * second.
Definition provisionerOperatorAccessRetryInterval : Z := 15 * second.

(** ** Names *)

Definition at_least_one (available : Z) : Z := if (available <? 1)%Z then 1%Z else available.

Definition provisionerResourceName (name : string) : string :=
  let candidate := provisionerNamePrefix +:+ name in
  if (slen candidate <=? 63)%Z then candidate
  else
    let suffix := hash32 name in
    let available := at_least_one (63 - slen provisionerNamePrefix - slen suffix - 1) in
    provisionerNamePrefix +:+ stake (Z.to_nat available) name +:+ "-" +:+ suffix.

Definition provisionerInstanceLabelValue (name : string) : string :=
  if (slen name <=? 63)%Z then name
  else
    let suffix := hash32 name in
    let available := at_least_one (63 - slen suffix - 1) in
    stake (Z.to_nat available) name +:+ "-" +:+ suffix.

Definition provisionerLabels (name : string) : gmap string string :=
  {["app.kubernetes.io/name" := "coder-provisioner";
    "app.kubernetes.io/instance" := provisionerInstanceLabelValue name;
    "app.kubernetes.io/managed-by" := "coder-k8s"]}.

Definition provisionerServiceAccountName (name : string) : string :=
  let candidate := name +:+ provisionerServiceAccountSuffix in
  if (slen candidate <=? 63)%Z then candidate
  else
    let suffix := hash32 name in
    let available := at_least_one (63 - slen provisionerServiceAccountSuffix - slen suffix - 1) in
    stake (Z.to_nat available) name +:+ "-" +:+ suffix +:+ provisionerServiceAccountSuffix.

Definition provisionerOrganizationName (name : string) : string :=
  if String.eqb name "" then defaultProvisionerOrganizationName else name.

Definition maxKeyNameLength : Z := 128.
Definition secretNameSuffix := "-provisioner-key".

(** The three results of [provisionerKeyConfig]. *)
Definition provisionerKeyName (p : CoderProvisioner) : string :=
  let keyName := pk_Name (pvs_Key (pv_Spec p)) in
  let keyName := if String.eqb keyName "" then Name (pv_meta p) else keyName in
  if (maxKeyNameLength <? slen keyName)%Z then
    let suffix := hash32 keyName in
    let available := at_least_one (maxKeyNameLength - slen suffix - 1) in
    stake (Z.to_nat available) keyName +:+ "-" +:+ suffix
  else keyName.

Definition provisionerSecretName (p : CoderProvisioner) : string :=
  let secretName := pk_SecretName (pvs_Key (pv_Spec p)) in
  if negb (String.eqb secretName "") then secretName
  else
    let name := Name (pv_meta p) in
    let candidate := name +:+ secretNameSuffix in
    if (slen candidate <=? 253)%Z then candidate
    else
      let suffix := hash32 name in
      let available := at_least_one (253 - slen secretNameSuffix - slen suffix - 1) in
      stake (Z.to_nat available) name +:+ "-" +:+ suffix +:+ secretNameSuffix.

Definition provisionerSecretKey (p : CoderProvisioner) : string :=
  let secretKey := pk_SecretKey (pvs_Key (pv_Spec p)) in
  if String.eqb secretKey "" then DefaultProvisionerKeySecretKey else secretKey.

Definition provisionerKeyConfig (p : CoderProvisioner) : string * string * string :=
  (provisionerKeyName p, provisionerSecretName p, provisionerSecretKey p).

(** ** Hashes *)

Definition hashProvisionerTags (tags : gmap string string) : string :=
  let keys := sort_strings (map_to_list tags).*1 in
  hex_fixed 8 (foldl (λ h key,
    fnv32a_write (fnv32a_write (fnv32a_write (fnv32a_write h key) nul) (default "" (tags !! key))) nul)
    fnv32a_init keys).

Definition hashProvisionerSecret (secretValue : string) : string := hash32 secretValue.

(** ** The delay after a rate limit *)

Definition f64_of_Z (z : Z) : spec_float := binary_normalize 53 1024 z 0 false.
Definition f64_mul := SFmul 53 1024.
Definition f64_sub := SFsub 53 1024.
Definition f64_add := SFadd 53 1024.
Definition f64_div := SFdiv 53 1024.
(** The constant 0.2 in binary64. *)
Definition provisionerRateLimitJitterRatio : spec_float := S754_finite false 7205759403792794 (-55).

(** Conversion to an integer: towards zero. *)
Definition f64_trunc (x : spec_float) : Z :=
  match x with
  | S754_finite s m e =>
      let n := if (0 <=? e)%Z then Z.shiftl (Zpos m) e else Z.shiftr (Zpos m) (- e) in
      if s then Z.opp n else n
  | _ => 0
  end.

(** [random] is the big-endian number of the eight random bytes, if they could
    be read. *)
Definition provisionerRateLimitJitterMultiplier (random : option Z) : spec_float :=
  match random with
  | None => f64_of_Z 1
  | Some n =>
      let randomFraction := f64_div (f64_of_Z n) (f64_of_Z (2 ^ 64 - 1)) in
      let jitter := f64_mul (f64_sub (f64_mul randomFraction (f64_of_Z 2)) (f64_of_Z 1))
                      provisionerRateLimitJitterRatio in
      f64_add (f64_of_Z 1) jitter
  end.

(** The loop that doubles the delay. *)
Fixpoint grow_backoff (rounds : nat) (backoff : Z) : Z :=
  match rounds with
  | O => backoff
  | S rounds =>
      if (provisionerRateLimitBackoffCap / 2 <=? backoff)%Z then provisionerRateLimitBackoffCap
      else grow_backoff rounds (backoff * 2)
  end.

Definition backoff_of_attempt (attempt : Z) : Z :=
  let backoff := grow_backoff (Z.to_nat (attempt - 1)) provisionerRateLimitBackoffBase in
  if (provisionerRateLimitBackoffCap <? backoff)%Z then provisionerRateLimitBackoffCap else backoff.

Definition jittered_backoff (backoff : Z) (random : option Z) : Z :=
  let jittered := f64_trunc (f64_mul (f64_of_Z backoff) (provisionerRateLimitJitterMultiplier random)) in
  let jittered := if (jittered <? provisionerRateLimitBackoffFloor)%Z
                  then provisionerRateLimitBackoffFloor else jittered in
  if (provisionerRateLimitBackoffCap <? jittered)%Z then provisionerRateLimitBackoffCap else jittered.

Definition attempts_key (key : object_key) : string := key.1 +:+ "/" +:+ key.2.

(** The next attempt of a key; the counter is an [int]. *)
Definition next_attempt (attempts : gmap string Z) (key : object_key) : Z :=
  match attempts !! attempts_key key with
  | None => 1
  | Some previous => wrap64 ((if (previous <? 0)%Z then 0 else previous) + 1)
  end.

(** The delay and the attempts after it; [attempts] is the map
    [provisionerRateLimitBackoffAttempts]. *)
Definition nextProvisionerRateLimitBackoff (attempts : gmap string Z) (key : object_key)
    (random : option Z) : Z * gmap string Z :=
  if String.eqb key.1 "" || String.eqb key.2 "" then (provisionerRateLimitBackoffFloor, attempts)
  else
    let attempt := next_attempt attempts key in
    (jittered_backoff (backoff_of_attempt attempt) random, <[attempts_key key := attempt]> attempts).

Definition resetProvisionerRateLimitBackoff (attempts : gmap string Z) (key : object_key) : gmap string Z :=
  if String.eqb key.1 "" || String.eqb key.2 "" then attempts else delete (attempts_key key) attempts.

(** ** Examples *)

(** The least and the largest jitter of a delay of ten seconds. *)
Example jitter_range :
  (jittered_backoff (10 * second) (Some 0%Z), jittered_backoff (10 * second) (Some (2 ^ 64 - 1)%Z),
   jittered_backoff (10 * second) None) = (8 * second, 12 * second, 10 * second)%Z.
Proof. vm_compute. reflexivity. Qed.

Example tag_hash :
  hashProvisionerTags ∅ = "811c9dc5" ∧ hashProvisionerTags {["a" := "b"]} ≠ hashProvisionerTags {["b" := "a"]}.
Proof. split; vm_compute; [reflexivity|discriminate]. Qed.

(** * Properties *)

Lemma at_least_one_pos z : (0 < at_least_one z)%Z.
Proof. unfold at_least_one. destruct (Z.ltb_spec z 1); lia. Qed.

(** A name cut to [n] bytes, with a dash and its hash, has the length left. *)
Lemma slen_cut n name x :
  (slen (stake (Z.to_nat (at_least_one n)) name +:+ "-" +:+ hash32 x) ≤ Z.max 1 n + 9)%Z.
Proof.
  rewrite !slen_append, slen_hash32, slen_stake. change (slen "-") with 1%Z.
  unfold at_least_one. destruct (Z.ltb_spec n 1); lia.
Qed.

Lemma grow_backoff_spec n b :
  (0 < b ≤ provisionerRateLimitBackoffCap)%Z →
  grow_backoff n b = Z.min provisionerRateLimitBackoffCap (b * 2 ^ Z.of_nat n).
Proof.
  revert b. induction n as [|n IH]; intros b Hb; cbn [grow_backoff]; [lia|].
  assert (2 ^ Z.of_nat (S n) = 2 * 2 ^ Z.of_nat n)%Z as Hp by (rewrite Nat2Z.inj_succ, Z.pow_succ_r; lia).
  rewrite Hp. pose proof (Z.pow_pos_nonneg 2 (Z.of_nat n)) as Hpos.
  change (provisionerRateLimitBackoffCap / 2)%Z with (60 * second)%Z.
  change provisionerRateLimitBackoffCap with (120 * second)%Z in *.
  destruct (Z.leb_spec (60 * second) b).
  - rewrite Z.min_l; [done|]. unfold second in *. nia.
  - rewrite IH by lia. f_equal. lia.
Qed.

Lemma jittered_backoff_bounds b random :
  (provisionerRateLimitBackoffFloor ≤ jittered_backoff b random ≤ provisionerRateLimitBackoffCap)%Z.
Proof.
  unfold jittered_backoff. set (j := f64_trunc _).
  change provisionerRateLimitBackoffFloor with (1 * second)%Z.
  change provisionerRateLimitBackoffCap with (120 * second)%Z.
  unfold second. repeat match goal with |- context [(?x <? ?y)%Z] => destruct (Z.ltb_spec x y) end; lia.
Qed.

(** the names a provisioner's objects get fit Kubernetes and coderd
    whatever the resource is called: the deployment, role and binding, the
    service account and the instance label have at most 63 bytes, the key name
    has at most 128 and the default secret name at most 253; short names are
    used as they are, and only the configured secret name is used unchecked. *)
Theorem provisioner_names (p : CoderProvisioner) :
  let name := Name (pv_meta p) in
  (slen (provisionerResourceName name) ≤ 63)%Z ∧ (slen (provisionerServiceAccountName name) ≤ 63)%Z ∧
  (slen (provisionerInstanceLabelValue name) ≤ 63)%Z ∧
  (slen (provisionerKeyName p) ≤ 128)%Z ∧
  (pk_SecretName (pvs_Key (pv_Spec p)) = "" → (slen (provisionerSecretName p) ≤ 253)%Z) ∧
  ((slen name ≤ 51)%Z → provisionerResourceName name = "provisioner-" +:+ name ∧
     provisionerServiceAccountName name = name +:+ "-provisioner" ∧ provisionerInstanceLabelValue name = name).
Proof.
  cbv zeta. set (name := Name (pv_meta p)).
  unfold provisionerResourceName, provisionerServiceAccountName, provisionerInstanceLabelValue,
    provisionerKeyName, provisionerSecretName. cbv zeta. fold name.
  change (slen provisionerNamePrefix) with 12%Z. change (slen provisionerServiceAccountSuffix) with 12%Z.
  change (slen secretNameSuffix) with 16%Z. change maxKeyNameLength with 128%Z. rewrite !slen_hash32.
  set (keyName := if String.eqb _ "" then name else _).
  split_and!.
  - destruct (Z.leb_spec (slen (provisionerNamePrefix +:+ name)) 63); [done|].
    rewrite slen_append. pose proof (slen_cut (63 - 12 - 8 - 1) name name).
    change (slen provisionerNamePrefix) with 12%Z. lia.
  - destruct (Z.leb_spec (slen (name +:+ provisionerServiceAccountSuffix)) 63); [done|].
    pose proof (slen_cut (63 - 12 - 8 - 1) name name) as H1.
    rewrite !slen_append in *. change (slen provisionerServiceAccountSuffix) with 12%Z. lia.
  - destruct (Z.leb_spec (slen name) 63); [done|]. pose proof (slen_cut (63 - 8 - 1) name name). lia.
  - destruct (Z.ltb_spec 128 (slen keyName)); [|done]. pose proof (slen_cut (128 - 8 - 1) keyName keyName). lia.
  - intros ->. change (negb (String.eqb "" "")) with false. cbv iota.
    destruct (Z.leb_spec (slen (name +:+ secretNameSuffix)) 253); [done|].
    pose proof (slen_cut (253 - 16 - 8 - 1) name name) as H1.
    rewrite !slen_append in *. change (slen secretNameSuffix) with 16%Z. lia.
  - intros Hn. rewrite !slen_append. change (slen provisionerNamePrefix) with 12%Z.
    change (slen provisionerServiceAccountSuffix) with 12%Z.
    destruct (Z.leb_spec (12 + slen name) 63), (Z.leb_spec (slen name + 12) 63), (Z.leb_spec (slen name) 63); [done|lia..].
Qed.

(** A provisioner that runs into the API's rate limit backs off.  The delay
    is between one second and two minutes whatever the attempts and the random
    bytes; without jitter it is two seconds, doubled for every earlier attempt,
    up to two minutes; the attempt of this provisioner is counted, and those of
    all others are kept; and resetting it makes the next attempt the first. *)
Lemma rate_limit_backoff (attempts : gmap string Z) (key : object_key) (random : option Z) (n : Z)
    (Hkey : key.1 ≠ "" ∧ key.2 ≠ "") (Hn : default 0%Z (attempts !! attempts_key key) = n)
    (Hrange : (0 ≤ n < int64_max)%Z) :
  let '(delay, attempts') := nextProvisionerRateLimitBackoff attempts key random in
  (1 * second ≤ delay ≤ 120 * second)%Z ∧
  delay = jittered_backoff (Z.min (120 * second) (2 * second * 2 ^ n)) random ∧
  attempts' = <[attempts_key key := (n + 1)%Z]> attempts ∧
  next_attempt (resetProvisionerRateLimitBackoff attempts' key) key = 1%Z.
Proof.
  destruct Hkey as [H1 H2]. unfold nextProvisionerRateLimitBackoff, resetProvisionerRateLimitBackoff.
  rewrite (proj2 (String.eqb_neq _ _) H1), (proj2 (String.eqb_neq _ _) H2). cbn [orb].
  assert (next_attempt attempts key = (n + 1)%Z) as ->.
  { unfold next_attempt. destruct (attempts !! attempts_key key) as [m|]; cbn in Hn; subst; [|done].
    destruct (Z.ltb_spec n 0); [lia|]. unfold wrap64, int64_max in *.
    rewrite Z.mod_small by lia. lia. }
  assert (backoff_of_attempt (n + 1) = Z.min (120 * second) (2 * second * 2 ^ n)) as ->.
  { unfold backoff_of_attempt. rewrite grow_backoff_spec by (unfold second; done).
    rewrite Z2Nat.id by lia. replace (n + 1 - 1)%Z with n by lia.
    change provisionerRateLimitBackoffCap with (120 * second)%Z.
    change provisionerRateLimitBackoffBase with (2 * second)%Z.
    destruct (Z.ltb_spec (120 * second) (Z.min (120 * second) (2 * second * 2 ^ n))); lia. }
  split_and!; [apply jittered_backoff_bounds..|done|done|].
  unfold next_attempt. by rewrite lookup_delete_eq.
Qed.

End ProvisionerNames.
