(* ===== verification/Provisioner.v ===== *)
(** * Provisioner: the reconciliation of a provisioner

    [Reconcile] of internal/controller/coderprovisioner_controller.go: the
    finalizer and the deletion, the operator's session token, the entitlement to
    external provisioners, the life of the provisioner key in coderd and in its
    secret, the objects that run the provisioner, the status, and the deferred
    function that turns the API's rate limit into a delay.

    The Go code works on one provisioner object, which conditions, status updates
    and the answers of the API server change in place.  A [step] therefore runs
    in the state of the calls ([Kube.kst]) together with that object; what the
    object is when a step fails matters to the deferred function. *)

From S2P Require Import Prelude GoStd GoStdFacts StringFacts GoErrors Uuid ApiTypes KubeObjects Kube ControlPlaneNames ControlPlaneStatus OperatorAccess License ServiceAccounts WorkspaceRBAC Workload ProvisionerNames.

#[local] Open Scope string_scope.
#[local] Open Scope list_scope.

Module Provisioner.
Import ControlPlaneNames ControlPlaneStatus OperatorAccess License ServiceAccounts WorkspaceRBAC Workload.
Import ProvisionerNames.

(** Eight random bytes of crypto/rand as a number, if they can be read. *)
Class HasRand (W : Type) := random_bytes : W → option Z * W.

(** ** The provisioner object *)

Definition empty_provisioner : CoderProvisioner := {|
  pv_meta := empty_meta;
  pv_Spec := {| pvs_ControlPlaneRef := ""; pvs_OrganizationName := "";
    pvs_Key := {| pk_Name := ""; pk_SecretName := ""; pk_SecretKey := "" |};
    pvs_Replicas := None; pvs_Tags := ∅; pvs_Image := ""; pvs_ExtraArgs := []; pvs_ExtraEnv := [];
    pvs_Resources := None; pvs_ImagePullSecrets := []; pvs_TerminationGracePeriodSeconds := None |};
  pv_Status := {| pst_ObservedGeneration := 0; pst_ReadyReplicas := 0; pst_Phase := ""; pst_Conditions := [];
    pst_OrganizationID := ""; pst_OrganizationName := ""; pst_ProvisionerKeyID := "";
    pst_ProvisionerKeyName := ""; pst_TagsHash := ""; pst_ControlPlaneRefName := "";
    pst_ControlPlaneURL := ""; pst_SecretRef := None |} |}.

Definition with_meta (m : ObjectMeta) (p : CoderProvisioner) : CoderProvisioner := {|
  pv_meta := m; pv_Spec := pv_Spec p; pv_Status := pv_Status p |}.
Definition with_status (f : CoderProvisionerStatus → CoderProvisionerStatus) (p : CoderProvisioner)
    : CoderProvisioner := {|
  pv_meta := pv_meta p; pv_Spec := pv_Spec p; pv_Status := f (pv_Status p) |}.
Definition with_conditions (l : list Condition) (s : CoderProvisionerStatus) : CoderProvisionerStatus := {|
  pst_ObservedGeneration := pst_ObservedGeneration s; pst_ReadyReplicas := pst_ReadyReplicas s;
  pst_Phase := pst_Phase s; pst_Conditions := l; pst_OrganizationID := pst_OrganizationID s;
  pst_OrganizationName := pst_OrganizationName s; pst_ProvisionerKeyID := pst_ProvisionerKeyID s;
  pst_ProvisionerKeyName := pst_ProvisionerKeyName s; pst_TagsHash := pst_TagsHash s;
  pst_ControlPlaneRefName := pst_ControlPlaneRefName s; pst_ControlPlaneURL := pst_ControlPlaneURL s;
  pst_SecretRef := pst_SecretRef s |}.

(** What a reconciliation knows of the key: the local variables
    [organizationID], [appliedOrgName], ..., and the plaintext if coderd has
    returned it. *)
Record key_state := {
  organizationID : string; appliedOrgName : string; provisionerKeyID : string;
  currentKeyName : string; appliedTagsHash : string; appliedControlPlaneRefName : string;
  appliedControlPlaneURL : string; keyMaterial : string
}.

(** The status fields of the key, with the reference to its secret. *)
Definition with_key (k : key_state) (ref : SecretKeySelector) (s : CoderProvisionerStatus)
    : CoderProvisionerStatus := {|
  pst_ObservedGeneration := pst_ObservedGeneration s; pst_ReadyReplicas := pst_ReadyReplicas s;
  pst_Phase := pst_Phase s; pst_Conditions := pst_Conditions s; pst_OrganizationID := organizationID k;
  pst_OrganizationName := appliedOrgName k; pst_ProvisionerKeyID := provisionerKeyID k;
  pst_ProvisionerKeyName := currentKeyName k; pst_TagsHash := appliedTagsHash k;
  pst_ControlPlaneRefName := appliedControlPlaneRefName k; pst_ControlPlaneURL := appliedControlPlaneURL k;
  pst_SecretRef := Some ref |}.
Definition with_observed (generation readyReplicas : Z) (phase : string) (s : CoderProvisionerStatus)
    : CoderProvisionerStatus := {|
  pst_ObservedGeneration := generation; pst_ReadyReplicas := readyReplicas; pst_Phase := phase;
  pst_Conditions := pst_Conditions s; pst_OrganizationID := pst_OrganizationID s;
  pst_OrganizationName := pst_OrganizationName s; pst_ProvisionerKeyID := pst_ProvisionerKeyID s;
  pst_ProvisionerKeyName := pst_ProvisionerKeyName s; pst_TagsHash := pst_TagsHash s;
  pst_ControlPlaneRefName := pst_ControlPlaneRefName s; pst_ControlPlaneURL := pst_ControlPlaneURL s;
  pst_SecretRef := pst_SecretRef s |}.

(** ** The objects of a provisioner *)

Definition provisionerKind := "CoderProvisioner".

(** [SetControllerReference] of the provisioner, with its wrapped error. *)
Definition ownedByProvisioner (p : CoderProvisioner) (m : ObjectMeta) : result ObjectMeta :=
  match SetControllerReference controlPlaneAPIVersion provisionerKind (pv_meta p) m with
  | Err err => Err (Errorf "set controller reference: %w" [FErrW err])
  | r => r
  end.
Definition labelled (p : CoderProvisioner) (m : ObjectMeta) : ObjectMeta :=
  set_labels (provisionerLabels (Name (pv_meta p))) m.
Definition object_key_of (p : CoderProvisioner) (name : string) : object_key := (Namespace (pv_meta p), name).

(** The mutation of the key secret. *)
Definition key_secret (p : CoderProvisioner) (secretName secretKey keyMaterial : string) (secret : Secret)
    : result Secret :=
  let data := if negb (String.eqb keyMaterial "") then <[secretKey := keyMaterial]> (secret_Data secret)
              else secret_Data secret in
  _ ← fail_if (String.eqb (default "" (data !! secretKey)) "")
        (Errorf "provisioner key secret %q key %q is empty" [FStr secretName; FStr secretKey]);
  m ← ownedByProvisioner p (labelled p (secret_meta secret));
  mret {| secret_meta := m; secret_Type := "Opaque"; secret_Data := data |}.
Definition new_secret (key : object_key) : Secret := {|
  secret_meta := meta_of_key key; secret_Type := ""; secret_Data := ∅ |}.

Definition provisioner_account (p : CoderProvisioner) (o : ServiceAccountObject) : result ServiceAccountObject :=
  m ← ownedByProvisioner p (labelled p (sao_meta o)); mret {| sao_meta := m |}.

Definition provisioner_rules : list PolicyRule :=
  [{| pr_APIGroups := [""]; pr_Resources := ["pods"; "persistentvolumeclaims"];
      pr_Verbs := ["get"; "list"; "watch"; "create"; "update"; "patch"; "delete"] |}].
Definition provisioner_role (p : CoderProvisioner) (o : Role) : result Role :=
  m ← ownedByProvisioner p (labelled p (role_meta o));
  mret {| role_meta := m; role_Rules := provisioner_rules |}.

Definition provisioner_role_binding (p : CoderProvisioner) (roleName serviceAccountName : string)
    (o : RoleBinding) : result RoleBinding :=
  m ← ownedByProvisioner p (labelled p (rb_meta o));
  mret {| rb_meta := m;
          rb_RoleRef := {| rr_APIGroup := rbacGroupName; rr_Kind := "Role"; rr_Name := roleName |};
          rb_Subjects := [{| sub_Kind := ServiceAccountKind; sub_Name := serviceAccountName;
                             sub_Namespace := Namespace (pv_meta p) |}] |}.

Definition provisioner_container (p : CoderProvisioner) (image coderURL : string) (ref : SecretKeySelector)
    : Container := {|
  con_Name := "provisioner"; con_Image := image; con_Command := ["coder"];
  con_Args := ["provisioner"; "start"] ++ pvs_ExtraArgs (pv_Spec p);
  con_Env := [env_value "CODER_URL" coderURL;
              {| env_Name := "CODER_PROVISIONER_DAEMON_KEY"; env_Value := "";
                 env_ValueFrom := Some {| FieldRefPath := None; SecretKeyRef := Some ref; OtherSource := None |} |}]
             ++ pvs_ExtraEnv (pv_Spec p);
  con_EnvFrom := []; con_Ports := []; con_VolumeMounts := []; con_SecurityContext := None;
  con_Resources := pvs_Resources (pv_Spec p); con_ReadinessProbe := None; con_LivenessProbe := None;
  con_Other := None |}.

(** The mutation of the deployment. *)
Definition provisioner_deployment (p : CoderProvisioner) (image coderURL : string) (ref : SecretKeySelector)
    (serviceAccountName secretChecksum : string) (d : Deployment) : result Deployment :=
  let labels := provisionerLabels (Name (pv_meta p)) in
  m ← ownedByProvisioner p (labelled p (dep_meta d));
  mret {|
    dep_meta := m;
    dep_Replicas := Some (default defaultProvisionerReplicas (pvs_Replicas (pv_Spec p)));
    dep_Selector := Some {| ls_MatchLabels := labels; ls_MatchExpressions := [] |};
    dep_Template := {|
      tpl_Labels := labels; tpl_Annotations := {[provisionerKeyChecksumAnnotation := secretChecksum]};
      tpl_Other := None;
      tpl_Spec := {|
        pod_ServiceAccountName := serviceAccountName;
        pod_ImagePullSecrets := pvs_ImagePullSecrets (pv_Spec p);
        pod_Containers := [provisioner_container p image coderURL ref];
        pod_Volumes := []; pod_NodeSelector := ∅; pod_Tolerations := []; pod_TopologySpreadConstraints := [];
        pod_SecurityContext := None; pod_Affinity := None;
        pod_TerminationGracePeriodSeconds :=
          Some (default defaultProvisionerTerminationGracePeriodSeconds
                  (pvs_TerminationGracePeriodSeconds (pv_Spec p)));
        pod_Other := None |} |};
    dep_OtherSpec := dep_OtherSpec d;
    dep_ReadyReplicas := dep_ReadyReplicas d |}.

(** ** Steps *)

Section steps.
Context {W : Type} (env : ∀ a : action, M W goerror (reply a)).

Definition step : Type → Type := M (kst W * CoderProvisioner) goerror.

Definition call {A} (m : reconciliation (W:=W) A) : step A := λ s,
  let '(o, k) := m s.1 in (o, (k, s.2)).
Definition current : step CoderProvisioner := λ s, (Ret s.2, s).
Definition change (f : CoderProvisioner → CoderProvisioner) : step () := λ s, (Ret tt, (s.1, f s.2)).
Definition put (p : CoderProvisioner) : step () := change (λ _, p).

(** A call whose answer is decoded into the object. *)
Definition replace (a : action) (f : reply a → CoderProvisioner) : step () :=
  o ← call (act env a); put (f o).

(** [r.Status().Update(ctx, provisioner)] *)
Definition update_status : step () :=
  p ← current; replace (AUpdateProvisionerStatus p) (λ p', p').
(** [_ = r.Status().Update(ctx, provisioner)] *)
Definition save_status : step () := _ ← attempt update_status; mret tt.
(** The same if the status is not the one of the snapshot. *)
Definition save_if_changed (snapshot : CoderProvisionerStatus) : step () :=
  p ← current; if bool_decide (snapshot = pv_Status p) then mret tt else save_status.

Context `{!HasClock W}.
(** [render] is the text of a formatted message. *)
Context (render : text → string).

Definition setCondition (conditionType st reason message : string) : step () :=
  now ← call Now;
  change (λ p, with_status (λ s, with_conditions (SetStatusCondition now (pst_Conditions s)
    (new_condition (Generation (pv_meta p)) conditionType st reason message)) s) p).

(** ** The finalizer *)

Definition ensureCleanupFinalizer : step bool :=
  p ← current;
  if ContainsFinalizer (pv_meta p) ProvisionerKeyCleanupFinalizer then mret false
  else
    let p1 := with_meta (AddFinalizer (pv_meta p) ProvisionerKeyCleanupFinalizer) p in
    _ ← put p1;
    _ ← map_err (wrap_key "add finalizer to coderprovisioner %s/%s: %w" (Namespace (pv_meta p)) (Name (pv_meta p)))
          (replace (AUpdate KProvisioner p1) (λ p', p'));
    mret true.

(** ** The control plane and its access token *)

Definition fetchControlPlane : step CoderControlPlane :=
  p ← current;
  let m := pv_meta p in
  let controlPlaneName := pvs_ControlPlaneRef (pv_Spec p) in
  _ ← guard_err (String.eqb controlPlaneName "")
        (Errorf "coderprovisioner %s/%s spec.controlPlaneRef.name is required"
           [FStr (Namespace m); FStr (Name m)]);
  cp ← map_err (λ err, Errorf "get referenced codercontrolplane %s for coderprovisioner %s/%s: %w"
                 [FStr (Namespace m +:+ "/" +:+ controlPlaneName); FStr (Namespace m); FStr (Name m); FErrW err])
         (call (act env (AGet CachedReader KControlPlane (Namespace m, controlPlaneName))));
  let cp : CoderControlPlane := cp in
  _ ← guard_err (negb (String.eqb (Name (cp_meta cp)) controlPlaneName)
                 || negb (String.eqb (Namespace (cp_meta cp)) (Namespace m)))
        (Errorf "assertion failed: fetched control plane %s/%s does not match expected %s/%s"
           [FStr (Namespace (cp_meta cp)); FStr (Name (cp_meta cp)); FStr (Namespace m); FStr controlPlaneName]);
  _ ← guard_err (String.eqb (URL (cp_Status cp)) "")
        (Errorf "codercontrolplane %s/%s status.url is empty"
           [FStr (Namespace (cp_meta cp)); FStr (Name (cp_meta cp))]);
  mret cp.

Definition readProvisionerSecretValue (namespace name key : string) : reconciliation (W:=W) string :=
  secret ← act env (AGet CachedReader KSecret (namespace, name));
  let secret : Secret := secret in
  match secret_Data secret !! key with
  | None => throw (Errorf "secret %q does not contain key %q" [FStr name; FStr key])
  | Some value =>
      if String.eqb value "" then throw (Errorf "secret %q key %q is empty" [FStr name; FStr key])
      else mret value
  end.

(** The results of [readOperatorSessionToken] besides its error. *)
Record token_result := {
  tr_token : string; tr_result : Result; tr_reason : string; tr_message : string
}.
Definition token_wait (reason message : string) : token_result := {|
  tr_token := ""; tr_result := requeue_after provisionerOperatorAccessRetryInterval;
  tr_reason := reason; tr_message := message |}.

Definition readOperatorSessionToken (p : option CoderProvisioner) (cp : option CoderControlPlane)
    : reconciliation (W:=W) token_result :=
  match p, cp with
  | None, _ => throw (assertion "assertion failed: coder provisioner must not be nil")
  | _, None => throw (assertion "assertion failed: coder control plane must not be nil")
  | Some p, Some cp =>
      let m := cp_meta cp in
      let about format := render (Sprintf format [FStr (Namespace m); FStr (Name m)]) in
      if negb (OperatorAccessReady (cp_Status cp)) then
        mret (token_wait "OperatorAccessNotReady"
          (about "Waiting for CoderControlPlane %s/%s status.operatorAccessReady=true before reconciling provisioner keys."))
      else
        match OperatorTokenSecretRef (cp_Status cp) with
        | None => mret (token_wait "OperatorTokenSecretRefMissing"
            (about "Waiting for CoderControlPlane %s/%s status.operatorTokenSecretRef to be set by operator access bootstrap."))
        | Some ref =>
            let name := trim_space (sks_Name ref) in
            if String.eqb name "" then mret (token_wait "OperatorTokenSecretRefInvalid"
              (about "Waiting for CoderControlPlane %s/%s status.operatorTokenSecretRef.name to be non-empty."))
            else
              let key := key_or_default (sks_Key ref) DefaultTokenSecretKey in
              read ← attempt (readProvisionerSecretValue (Namespace (pv_meta p)) name key);
              match read with
              | inr err => mret (token_wait "OperatorTokenSecretUnavailable"
                  (render (Sprintf "Failed to read operator token Secret %q/%q key %q from referenced control plane status: %v"
                     [FStr (Namespace (pv_meta p)); FStr name; FStr key; FErrV err])))
              | inl token => mret {| tr_token := token; tr_result := no_requeue; tr_reason := "OperatorAccessReady";
                  tr_message := "Operator-managed access token from referenced control plane is available" |}
              end
        end
  end.

(** ** The entitlement *)

Definition durationUntilNextEntitlementsCheck (lastChecked : option time) (interval : Z)
    : reconciliation (W:=W) Z :=
  match lastChecked with
  | None => mret 0%Z
  | Some t =>
      if (interval <=? 0)%Z then mret 0%Z
      else
        elapsed ← Since t;
        mret (if (elapsed <? 0)%Z then interval else if (interval <=? elapsed)%Z then 0%Z else (interval - elapsed)%Z)
  end.

Definition set_entitled (st reason message : string) : step () :=
  setCondition CoderProvisionerConditionExternalProvisionersEntitled st reason message.
Definition entitled_now : step Result :=
  _ ← set_entitled ConditionTrue "Entitled" "Coder deployment is entitled to external provisioner daemons";
  mret no_requeue.
Definition not_entitled (d : Z) : step Result :=
  _ ← set_entitled ConditionFalse "NotEntitled" "Coder deployment is not entitled to external provisioner daemons; install a Premium/Enterprise license to enable external provisioners.";
  mret (requeue_after d).

(** The query of coderd. *)
Definition queryEntitlement (cp : CoderControlPlane) (sessionToken : string) : step Result :=
  asked ← attempt (call (act env (AEntitlements (URL (cp_Status cp)) sessionToken)));
  match asked with
  | inr err =>
      let code := match as_sdk_error err with Some e => sdk_StatusCode e | None => 0%Z end in
      let '(reason, message) :=
        if Z.eqb code 404 then
          ("NotSupported", "Coder deployment does not expose /api/v2/entitlements; cannot verify license.")
        else if Z.eqb code 401 || Z.eqb code 403 then
          ("Forbidden", "Operator access token is not authorized to read entitlements; retrying.")
        else ("EntitlementsQueryFailed", "Failed to query Coder entitlements; retrying.") in
      _ ← set_entitled ConditionFalse reason message;
      mret (requeue_after externalProvisionerEntitlementRetryInterval)
  | inl e =>
      let e : Entitlements := e in
      _ ← guard_err (is_nil (ent_Features e)) (assertion "assertion failed: entitlements features must not be nil");
      match feature e FeatureExternalProvisionerDaemons with
      | Some entitlement => if Entitled entitlement then entitled_now
                            else not_entitled externalProvisionerEntitlementRetryInterval
      | None => not_entitled externalProvisionerEntitlementRetryInterval
      end
  end.

Definition reconcileExternalProvisionerEntitlement (p : option CoderProvisioner) (cp : option CoderControlPlane)
    (sessionToken : string) : step Result :=
  match p, cp with
  | None, _ => throw (assertion "assertion failed: coder provisioner must not be nil")
  | _, None => throw (assertion "assertion failed: coder control plane must not be nil")
  | Some _, Some cp =>
      let s := cp_Status cp in
      _ ← guard_err (blank (URL s)) (assertion "assertion failed: coder control plane URL must not be empty");
      _ ← guard_err (String.eqb sessionToken "") (assertion "assertion failed: operator session token must not be empty");
      if is_nil (EntitlementsLastChecked s) then queryEntitlement cp sessionToken
      else
        recheckAfter ← call (durationUntilNextEntitlementsCheck (EntitlementsLastChecked s)
                               externalProvisionerEntitlementRetryInterval);
        let cached := trim_space (ExternalProvisionerDaemonsEntitlement s) in
        if (0 <? recheckAfter)%Z && Entitled cached then entitled_now
        else if (0 <? recheckAfter)%Z && String.eqb cached EntitlementNotEntitled then not_entitled recheckAfter
        else queryEntitlement cp sessionToken
  end.

(** ** The life of the key *)

(** What the spec and the control plane ask for. *)
Record key_request := {
  kr_CoderURL : string; kr_SessionToken : string; kr_OrganizationName : string; kr_KeyName : string;
  kr_Tags : gmap string string; kr_ControlPlaneRefName : string
}.

Definition key_request_of (p : CoderProvisioner) (cp : CoderControlPlane) (sessionToken : string) : key_request := {|
  kr_CoderURL := URL (cp_Status cp); kr_SessionToken := sessionToken;
  kr_OrganizationName := provisionerOrganizationName (pvs_OrganizationName (pv_Spec p));
  kr_KeyName := provisionerKeyName p; kr_Tags := pvs_Tags (pv_Spec p);
  kr_ControlPlaneRefName := pvs_ControlPlaneRef (pv_Spec p) |}.

Definition ensure_request (kr : key_request) : EnsureProvisionerKeyRequest := {|
  epk_CoderURL := kr_CoderURL kr; epk_SessionToken := kr_SessionToken kr;
  epk_OrganizationName := kr_OrganizationName kr; epk_KeyName := kr_KeyName kr; epk_Tags := kr_Tags kr |}.

Definition or_nil (id : Uuid.t) (old : string) : string :=
  if Z.eqb id Uuid.Nil then old else Uuid.to_string id.

(** The identifiers and the plaintext of a response. *)
Definition absorb (r : EnsureProvisionerKeyResponse) (k : key_state) : key_state := {|
  organizationID := or_nil (epr_OrganizationID r) (organizationID k);
  appliedOrgName := appliedOrgName k;
  provisionerKeyID := or_nil (epr_KeyID r) (provisionerKeyID k);
  currentKeyName := if String.eqb (epr_KeyName r) "" then currentKeyName k else epr_KeyName r;
  appliedTagsHash := appliedTagsHash k; appliedControlPlaneRefName := appliedControlPlaneRefName k;
  appliedControlPlaneURL := appliedControlPlaneURL k; keyMaterial := epr_Key r |}.

(** The applied values once the key has the desired ones. *)
Definition apply_request (kr : key_request) (k : key_state) : key_state := {|
  organizationID := organizationID k; appliedOrgName := kr_OrganizationName kr;
  provisionerKeyID := provisionerKeyID k; currentKeyName := currentKeyName k;
  appliedTagsHash := hashProvisionerTags (kr_Tags kr);
  appliedControlPlaneRefName := kr_ControlPlaneRefName kr; appliedControlPlaneURL := kr_CoderURL kr;
  keyMaterial := keyMaterial k |}.

Definition initial_key (kr : key_request) (s : CoderProvisionerStatus) : key_state := {|
  organizationID := pst_OrganizationID s; appliedOrgName := pst_OrganizationName s;
  provisionerKeyID := pst_ProvisionerKeyID s;
  currentKeyName := if String.eqb (pst_ProvisionerKeyName s) "" then kr_KeyName kr else pst_ProvisionerKeyName s;
  appliedTagsHash := pst_TagsHash s; appliedControlPlaneRefName := pst_ControlPlaneRefName s;
  appliedControlPlaneURL := pst_ControlPlaneURL s; keyMaterial := "" |}.

(** A recorded value that is not the desired one. *)
Definition drifted (recorded desired : string) : bool :=
  negb (String.eqb recorded "") && negb (String.eqb recorded desired).
Definition driftDetected (kr : key_request) (s : CoderProvisionerStatus) : bool :=
  drifted (pst_OrganizationName s) (kr_OrganizationName kr)
  || drifted (pst_ProvisionerKeyName s) (kr_KeyName kr)
  || drifted (pst_TagsHash s) (hashProvisionerTags (kr_Tags kr))
  || drifted (pst_ControlPlaneRefName s) (kr_ControlPlaneRefName kr)
  || drifted (pst_ControlPlaneURL s) (kr_CoderURL kr).
(** No baseline to compare with was recorded. *)
Definition metadata_missing (s : CoderProvisionerStatus) : bool :=
  String.eqb (pst_OrganizationName s) "" || String.eqb (pst_TagsHash s) ""
  || String.eqb (pst_ControlPlaneRefName s) "" || String.eqb (pst_ControlPlaneURL s) "".

Definition key_condition (st reason message : string) : step () :=
  setCondition CoderProvisionerConditionProvisionerKeyReady st reason message.
Definition key_ready : step () :=
  key_condition ConditionTrue "ProvisionerKeyReady" "Provisioner key is available in coderd".

(** [fmt] of a key name. *)
Definition about_key (format : string) (kr : key_request) : string :=
  render (Sprintf format [FStr (kr_KeyName kr)]).
Definition key_error (format : string) (kr : key_request) (err : goerror) : goerror :=
  Errorf format [FStr (kr_KeyName kr); FErrW err].

(** A failure: it is recorded in the status, where the code does so, and the
    error is returned. *)
Definition key_failed {A} (message : option string) (err : goerror) : step A :=
  _ ← match message with
      | Some message => _ ← key_condition ConditionFalse "ProvisionerKeyFailed" message; save_status
      | None => mret tt
      end;
  throw err.

Definition ensure_key (kr : key_request) : step EnsureProvisionerKeyResponse :=
  call (act env (AEnsureProvisionerKey (ensure_request kr))).

(** The messages of a rotation, which the three places of the code word
    differently. *)
Record rotation_texts := {
  rt_delete_message : option string; rt_delete_error : string;
  rt_create_message : string; rt_create_error : string;
  rt_empty_message : string; rt_empty_error : string
}.
Definition drift_texts : rotation_texts := {|
  rt_delete_message := Some "Failed to delete provisioner key %q for drift recovery";
  rt_delete_error := "delete provisioner key %q for drift recovery: %w";
  rt_create_message := "Failed to recreate provisioner key %q after drift recovery";
  rt_create_error := "recreate provisioner key %q after drift recovery: %w";
  rt_empty_message := "Provisioner key %q returned empty material after drift recovery rotation";
  rt_empty_error := "assertion failed: provisioner key %q returned empty material after drift recovery rotation" |}.
Definition missing_texts : rotation_texts := {|
  rt_delete_message := Some "Failed to delete stale provisioner key %q for rotation";
  rt_delete_error := "delete stale provisioner key %q for rotation: %w";
  rt_create_message := "Failed to recreate provisioner key %q after rotation";
  rt_create_error := "recreate provisioner key %q after rotation: %w";
  rt_empty_message := "Provisioner key %q returned empty key material after rotation";
  rt_empty_error := "assertion failed: provisioner key %q returned empty key material after rotation" |}.
Definition backfill_texts : rotation_texts := {|
  rt_delete_message := None;
  rt_delete_error := "delete provisioner key %q for metadata backfill rotation: %w";
  rt_create_message := "Failed to recreate provisioner key %q after metadata backfill rotation";
  rt_create_error := "recreate provisioner key %q after metadata backfill rotation: %w";
  rt_empty_message := "Provisioner key %q returned empty material after metadata backfill rotation";
  rt_empty_error := "assertion failed: provisioner key %q returned empty material after metadata backfill rotation" |}.

(** A key that exists, but whose plaintext is not known, is deleted and made
    again. *)
Definition rotateKey (kr : key_request) (texts : rotation_texts) (k : key_state) : step key_state :=
  deleted ← attempt (call (act env (ADeleteProvisionerKey (kr_CoderURL kr) (kr_SessionToken kr)
                                      (kr_OrganizationName kr) (kr_KeyName kr))));
  match deleted with
  | inr err => key_failed ((λ m, about_key m kr) <$> rt_delete_message texts) (key_error (rt_delete_error texts) kr err)
  | inl _ =>
      ensured ← attempt (ensure_key kr);
      match ensured with
      | inr err => key_failed (Some (about_key (rt_create_message texts) kr)) (key_error (rt_create_error texts) kr err)
      | inl rotated =>
          let k := absorb rotated k in
          if String.eqb (keyMaterial k) ""
          then key_failed (Some (about_key (rt_empty_message texts) kr))
                 (Errorf (rt_empty_error texts) [FStr (kr_KeyName kr)])
          else mret k
      end
  end.

(** The key of the desired name, with its plaintext: made, or made again. *)
Definition obtainKey (kr : key_request) (failed : string) (texts : rotation_texts) (k : key_state) : step key_state :=
  ensured ← attempt (ensure_key kr);
  match ensured with
  | inr err => key_failed (Some (about_key failed kr)) (key_error "ensure provisioner key %q: %w" kr err)
  | inl response =>
      let k := absorb response k in
      k ← (if String.eqb (keyMaterial k) "" then rotateKey kr texts k else mret k);
      _ ← key_ready;
      mret (apply_request kr k)
  end.

(** The old key is deleted as it was recorded, if it can be. *)
Definition rotateDriftedKey (kr : key_request) (s : CoderProvisionerStatus) (k : key_state) : step key_state :=
  let recorded value desired := if String.eqb value "" then desired else value in
  _ ← attempt (call (act env (ADeleteProvisionerKey
        (recorded (pst_ControlPlaneURL s) (kr_CoderURL kr)) (kr_SessionToken kr)
        (recorded (pst_OrganizationName s) (kr_OrganizationName kr))
        (recorded (pst_ProvisionerKeyName s) (kr_KeyName kr)))));
  obtainKey kr "Failed to ensure provisioner key %q after drift rotation" drift_texts k.

(** A usable secret without a recorded baseline. *)
Definition backfillKey (kr : key_request) (k : key_state) : step key_state :=
  ensured ← attempt (ensure_key kr);
  match ensured with
  | inr err => throw (Errorf "verify provisioner key metadata: %w" [FErrW err])
  | inl response =>
      let k := absorb response k in
      k ← (if negb (String.eqb (keyMaterial k) "") then mret k else rotateKey kr backfill_texts k);
      _ ← key_ready;
      mret (apply_request kr k)
  end.

(** Whether the secret has a value at the configured key. *)
Definition secret_usable (p : CoderProvisioner) (name key : string) : reconciliation (W:=W) bool :=
  found ← attempt (act env (AGet CachedReader KSecret (object_key_of p name)));
  match found with
  | inl secret => mret (negb (String.eqb (default "" (secret_Data (secret : Secret) !! key)) ""))
  | inr err =>
      if IsNotFound err then mret false
      else throw (Errorf "get provisioner key secret %s: %w" [FStr (Namespace (pv_meta p) +:+ "/" +:+ name); FErrW err])
  end.

Definition reconcileKey (kr : key_request) : step key_state :=
  p ← current;
  let s := pv_Status p in
  usable ← call (secret_usable p (provisionerSecretName p) (provisionerSecretKey p));
  let k := initial_key kr s in
  if driftDetected kr s then rotateDriftedKey kr s k
  else if negb usable then obtainKey kr "Failed to ensure provisioner key %q" missing_texts k
  else if metadata_missing s then backfillKey kr k
  else mret k.

(** ** The objects *)

Definition ensureProvisionerKeySecret (secretName secretKey keyMaterial : string) : step Secret :=
  p ← current;
  map_err (λ err, Errorf "reconcile provisioner key secret %q: %w" [FStr secretName; FErrW err])
    (call (CreateOrUpdate env KSecret (new_secret (object_key_of p secretName))
             (key_secret p secretName secretKey keyMaterial))).

Definition new_account (key : object_key) : ServiceAccountObject := {| sao_meta := meta_of_key key |}.

Definition reconcileServiceAccount (serviceAccountName : string) : step ServiceAccountObject :=
  p ← current;
  map_err (λ err, Errorf "reconcile serviceaccount %q: %w" [FStr serviceAccountName; FErrW err])
    (call (CreateOrUpdate env KServiceAccount (new_account (object_key_of p serviceAccountName))
             (provisioner_account p))).

Definition reconcileRole (roleName : string) : step Role :=
  p ← current;
  map_err (λ err, Errorf "reconcile role %q: %w" [FStr roleName; FErrW err])
    (call (CreateOrUpdate env KRole (new_role (object_key_of p roleName)) (provisioner_role p))).

Definition reconcileRoleBinding (roleBindingName roleName serviceAccountName : string) : step RoleBinding :=
  p ← current;
  map_err (λ err, Errorf "reconcile rolebinding %q: %w" [FStr roleBindingName; FErrW err])
    (call (CreateOrUpdate env KRoleBinding (new_role_binding (object_key_of p roleBindingName))
             (provisioner_role_binding p roleName serviceAccountName))).

Definition reconcileDeployment (image coderURL : string) (ref : SecretKeySelector)
    (serviceAccountName secretChecksum : string) : step Deployment :=
  p ← current;
  map_err (λ err, Errorf "reconcile provisioner deployment: %w" [FErrW err])
    (call (CreateOrUpdate env KDeployment
             (new_deployment (object_key_of p (provisionerResourceName (Name (pv_meta p)))))
             (provisioner_deployment p image coderURL ref serviceAccountName secretChecksum))).

(** The status update, if the status is not the one of the snapshot. *)
Definition write_if_changed (snapshot : CoderProvisionerStatus) (format : string) : step () :=
  p ← current;
  if bool_decide (snapshot = pv_Status p) then mret tt
  else map_err (λ err, Errorf format [FErrW err]) update_status.

Definition reconcileStatus (deployment : Deployment) (ref : SecretKeySelector) (k : key_state)
    (statusSnapshot : CoderProvisionerStatus) : step () :=
  let ready := (0 <? dep_ReadyReplicas deployment)%Z in
  _ ← change (λ p, with_status (λ s, with_key k ref (with_observed (Generation (pv_meta p))
        (dep_ReadyReplicas deployment)
        (if ready then CoderProvisionerPhaseReady else CoderProvisionerPhasePending) s)) p);
  _ ← (if ready
       then setCondition CoderProvisionerConditionDeploymentReady ConditionTrue
              "MinimumReplicasReady" "At least one provisioner pod is ready"
       else setCondition CoderProvisionerConditionDeploymentReady ConditionFalse
              "NoReplicasReady" "No provisioner pods are ready yet");
  write_if_changed statusSnapshot "update coderprovisioner status: %w".

(** The value of the key in the secret, which is there. *)
Definition secret_value (secretName secretKey : string) (secret : Secret) : step string :=
  match secret_Data secret !! secretKey with
  | None => throw (Errorf "assertion failed: provisioner key secret %q is missing key %q after reconciliation"
                     [FStr secretName; FStr secretKey])
  | Some value =>
      if String.eqb value ""
      then throw (Errorf "assertion failed: provisioner key secret %q key %q is empty after reconciliation"
                    [FStr secretName; FStr secretKey])
      else mret value
  end.

Definition provisioner_image (p : CoderProvisioner) (cp : CoderControlPlane) : string :=
  if negb (String.eqb (pvs_Image (pv_Spec p)) "") then pvs_Image (pv_Spec p)
  else if negb (String.eqb (Image (cp_Spec cp)) "") then Image (cp_Spec cp) else defaultCoderImage.

(** From the key on: the secret, the key's status, and the objects.  The status
    of the key is written at once, so that a later failure does not make another
    key. *)
Definition reconcileObjects (cp : CoderControlPlane) (secretName secretKey : string) (k : key_state)
    (statusSnapshot : CoderProvisionerStatus) : step Result :=
  secret ← ensureProvisionerKeySecret secretName secretKey (keyMaterial k);
  value ← secret_value secretName secretKey secret;
  let secretChecksum := hashProvisionerSecret value in
  let ref := {| sks_Name := secretName; sks_Key := secretKey |} in
  _ ← setCondition CoderProvisionerConditionProvisionerKeySecretReady ConditionTrue
        "SecretReady" "Provisioner key secret is available";
  p ← current;
  let keyStatusSnapshot := pv_Status p in
  _ ← change (with_status (with_key k ref));
  changed ← current;
  _ ← write_if_changed keyStatusSnapshot "update coderprovisioner key status: %w";
  p ← current;
  let statusSnapshot := if bool_decide (keyStatusSnapshot = pv_Status changed) then statusSnapshot
                        else pv_Status p in
  let serviceAccountName := provisionerServiceAccountName (Name (pv_meta p)) in
  _ ← reconcileServiceAccount serviceAccountName;
  let roleName := provisionerResourceName (Name (pv_meta p)) in
  role ← reconcileRole roleName;
  _ ← reconcileRoleBinding roleName (Name (role_meta role)) serviceAccountName;
  deployment ← reconcileDeployment (provisioner_image p cp) (URL (cp_Status cp)) ref serviceAccountName secretChecksum;
  _ ← reconcileStatus deployment ref k statusSnapshot;
  mret no_requeue.

(** ** The reconciliation *)

(** A provisioner with the finalizer that is not being deleted. *)
Definition reconcileLive (statusSnapshot : CoderProvisionerStatus) : step Result :=
  fetched ← attempt fetchControlPlane;
  match fetched with
  | inr err =>
      _ ← setCondition CoderProvisionerConditionControlPlaneReady ConditionFalse "ControlPlaneUnavailable"
            (render (Sprintf "Failed to fetch control plane: %v" [FErrV err]));
      _ ← save_status;
      throw err
  | inl cp =>
      _ ← setCondition CoderProvisionerConditionControlPlaneReady ConditionTrue "ControlPlaneAvailable"
            "Referenced control plane is available and has a URL";
      p ← current;
      let '(_, keySecretName, keySecretKey) := provisionerKeyConfig p in
      access ← call (readOperatorSessionToken (Some p) (Some cp));
      if (0 <? RequeueAfter (tr_result access))%Z then
        _ ← setCondition CoderProvisionerConditionOperatorAccessReady ConditionFalse
              (tr_reason access) (tr_message access);
        _ ← save_status;
        mret (tr_result access)
      else
        _ ← setCondition CoderProvisionerConditionOperatorAccessReady ConditionTrue
              (tr_reason access) (tr_message access);
        p ← current;
        entitled ← attempt (reconcileExternalProvisionerEntitlement (Some p) (Some cp) (tr_token access));
        match entitled with
        | inr err => _ ← save_if_changed statusSnapshot; throw err
        | inl result =>
            if (0 <? RequeueAfter result)%Z then _ ← save_if_changed statusSnapshot; mret result
            else
              k ← reconcileKey (key_request_of p cp (tr_token access));
              reconcileObjects cp keySecretName keySecretKey k statusSnapshot
        end
  end.

(** The control plane of a provisioner that is being deleted, if it can be
    read. *)
Definition deletionControlPlane (p : CoderProvisioner) : step (option CoderControlPlane) :=
  let namespace := Namespace (pv_meta p) in
  let controlPlaneName := trim_space (pvs_ControlPlaneRef (pv_Spec p)) in
  if String.eqb controlPlaneName "" then mret None
  else
    found ← attempt (call (act env (AGet CachedReader KControlPlane (namespace, controlPlaneName))));
    match found with
    | inr _ => mret None
    | inl cp =>
        let cp : CoderControlPlane := cp in
        _ ← guard_err (negb (String.eqb (Name (cp_meta cp)) controlPlaneName)
                       || negb (String.eqb (Namespace (cp_meta cp)) namespace))
              (Errorf "assertion failed: fetched control plane %s/%s does not match expected %s/%s"
                 [FStr (Namespace (cp_meta cp)); FStr (Name (cp_meta cp)); FStr namespace; FStr controlPlaneName]);
        mret (Some cp)
    end.

(** The attempt to delete the key, whose failure is only logged. *)
Definition deleteRemoteKey (p : CoderProvisioner) (cp : option CoderControlPlane) : step () :=
  let s := pv_Status p in
  let organizationName := if String.eqb (pst_OrganizationName s) ""
    then provisionerOrganizationName (pvs_OrganizationName (pv_Spec p)) else pst_OrganizationName s in
  let keyName := if String.eqb (pst_ProvisionerKeyName s) "" then provisionerKeyName p
                 else pst_ProvisionerKeyName s in
  match cp with
  | None => mret tt
  | Some cp' =>
      let url := if String.eqb (pst_ControlPlaneURL s) "" then trim_space (URL (cp_Status cp'))
                 else pst_ControlPlaneURL s in
      if String.eqb url "" then mret tt
      else
        access ← attempt (call (readOperatorSessionToken (Some p) cp));
        match access with
        | inr _ => mret tt
        | inl access =>
            if (0 <? RequeueAfter (tr_result access))%Z then mret tt
            else _ ← attempt (call (act env (ADeleteProvisionerKey url (tr_token access) organizationName keyName)));
                 mret tt
        end
  end.

(** The removal of the finalizer. *)
Definition removeCleanupFinalizer (p : CoderProvisioner) : step Result :=
  let p1 := with_meta (RemoveFinalizer (pv_meta p) ProvisionerKeyCleanupFinalizer) p in
  _ ← put p1;
  _ ← map_err (wrap_key "remove finalizer from coderprovisioner %s/%s: %w" (Namespace (pv_meta p)) (Name (pv_meta p)))
        (replace (AUpdate KProvisioner p1) (λ p', p'));
  mret no_requeue.

Definition reconcileDeletion : step Result :=
  p ← current;
  if negb (ContainsFinalizer (pv_meta p) ProvisionerKeyCleanupFinalizer) then mret no_requeue
  else
    cp ← deletionControlPlane p;
    _ ← deleteRemoteKey p cp;
    removeCleanupFinalizer p.

(** [Reconcile] without its deferred function. *)
Definition reconcileBody (req : object_key) : step Result :=
  found ← attempt (call (act env (AGet CachedReader KProvisioner req)));
  match found with
  | inr err =>
      if IsNotFound err then mret no_requeue
      else throw (Errorf "get coderprovisioner %s: %w" [FStr (attempts_key req); FErrW err])
  | inl p =>
      let p : CoderProvisioner := p in
      let m := pv_meta p in
      _ ← put p;
      _ ← guard_err (negb (String.eqb (Name m) req.2) || negb (String.eqb (Namespace m) req.1))
            (Errorf "assertion failed: fetched object %s/%s does not match request %s/%s"
               [FStr (Namespace m); FStr (Name m); FStr req.1; FStr req.2]);
      if negb (match DeletionTimestamp m with None => true | Some t => time_IsZero t end) then reconcileDeletion
      else
        finalizerAdded ← ensureCleanupFinalizer;
        if finalizerAdded : bool then mret no_requeue else reconcileLive (pv_Status p)
  end.

Context `{!HasRand W}.

Definition IsRateLimitError (err : goerror) : bool :=
  match as_sdk_error err with Some e => Z.eqb (sdk_StatusCode e) 429 | None => false end.

Definition RandomBytes : reconciliation (W:=W) (option Z) := λ s,
  let '(random, w) := random_bytes (k_world s) in (Ret random, KSt w (k_trace s)).

(** The random bytes of the jitter, which are only read for a named object. *)
Definition draw (req : object_key) : reconciliation (W:=W) (option Z) :=
  if String.eqb req.1 "" || String.eqb req.2 "" then mret None else RandomBytes.

(** The status after the API's rate limit was hit. *)
Definition recordRateLimit : step () :=
  p ← current;
  let statusSnapshot := pv_Status p in
  _ ← setCondition CoderProvisionerConditionProvisionerKeyReady ConditionFalse "RateLimited"
        "Coder API rate limited while reconciling provisioner key";
  save_if_changed statusSnapshot.

(** The collaborators that are set. *)
Record provisioner_reconciler := { pvr_Client : bool; pvr_Scheme : bool; pvr_BootstrapClient : bool }.

(** The deferred function of [Reconcile]. *)
Definition deferred (req : object_key) (body : step Result) : M (kst W * gmap string Z) goerror Result := λ s,
  let attempts := s.2 in
  let '(o, (st, p)) := body (s.1, empty_provisioner) in
  match o with
  | Ret result =>
      (Ret result, (st, if Z.eqb (RequeueAfter result) 0 then resetProvisionerRateLimitBackoff attempts req
                        else attempts))
  | Panic e => (Panic e, (st, resetProvisionerRateLimitBackoff attempts req))
  | Err err =>
      if negb (IsRateLimitError err) then (Err err, (st, resetProvisionerRateLimitBackoff attempts req))
      else
        match draw req st with
        | (Ret random, st) =>
            let '(backoff, attempts) := nextProvisionerRateLimitBackoff attempts req random in
            let '(o, (st, _)) := recordRateLimit (st, p) in
            (_ ← o; Ret (requeue_after backoff), (st, attempts))
        | (Err e, st) => (Err e, (st, attempts))
        | (Panic e, st) => (Panic e, (st, attempts))
        end
  end.

(** [Reconcile], in the state of the calls and of the process's map of
    attempts. *)
Definition Reconcile (r : provisioner_reconciler) (req : object_key)
    : M (kst W * gmap string Z) goerror Result :=
  _ ← guard_err (negb (pvr_Client r)) (assertion "assertion failed: reconciler client must not be nil");
  _ ← guard_err (negb (pvr_Scheme r)) (assertion "assertion failed: reconciler scheme must not be nil");
  _ ← guard_err (negb (pvr_BootstrapClient r)) (assertion "assertion failed: reconciler bootstrap client must not be nil");
  deferred req (reconcileBody req).
End steps.

End Provisioner.
