(* ===== verification/ProvisionerErrors.v ===== *)
(** * ProvisionerErrors: where the failures of a provisioner's reconciliation come from

    [Reconcile] reacts to the API's rate limit, which it recognises in the chain
    of the error.  The code wraps the errors of its calls with [%w], and the
    errors it makes itself wrap nothing: so a rate limit, and likewise a panic,
    is always the answer to some call. *)

From S2P Require Import Prelude GoStd GoStdFacts StringFacts GoErrors Uuid ApiTypes KubeObjects Kube ControlPlaneNames ControlPlaneStatus OperatorAccess License ServiceAccounts WorkspaceRBAC Workload ProvisionerNames Provisioner.

#[local] Open Scope string_scope.
#[local] Open Scope list_scope.

Module ProvisionerErrors.
Import ControlPlaneNames ControlPlaneStatus OperatorAccess License ServiceAccounts WorkspaceRBAC Workload.
Import ProvisionerNames Provisioner.

(** Wrapping with [%w] does not hide a rate limit, and makes none. *)
Ltac limit_wrapped :=
  intros; unfold IsRateLimitError, as_sdk_error; cbn;
  repeat match goal with |- context [find_in_chain ?f ?e] => destruct (find_in_chain f e) end; reflexivity.

Section errors.
Context {W : Type} (env : ∀ a : action, M W goerror (reply a)).

Definition limited_answer : Prop := ∃ a w e w', env a w = (Err e, w') ∧ IsRateLimitError e = true.
Definition panicked_answer : Prop := ∃ a w e w', env a w = (Panic e, w').

(** A rate limit or panic of [m] is the answer to a call. *)
Definition blames {S A} (m : M S goerror A) : Prop := ∀ s,
  match (m s).1 with
  | Ret _ => True
  | Err e => IsRateLimitError e = true → limited_answer
  | Panic _ => panicked_answer
  end.

Lemma blames_ret {S A} (a : A) : blames (mret a : M S goerror A).
Proof. by intros s. Qed.
Lemma blames_throw {S A} e : (IsRateLimitError e = true → limited_answer) → blames (throw e : M S goerror A).
Proof. by intros H s. Qed.
Lemma blames_lift {S A} (o : result A) :
  (∀ e, o = Err e → IsRateLimitError e = false) → (∀ e, o ≠ Panic e) → blames (lift o : M S goerror A).
Proof.
  intros He Hp s. destruct o as [a|e|e]; [done| |by destruct (Hp e)]. intros H. by rewrite (He e eq_refl) in H.
Qed.
Lemma blames_guard {S} b e : IsRateLimitError e = false → blames (guard_err b e : M S goerror ()).
Proof. intros He s. destruct b; [|done]. intros H. by rewrite He in H. Qed.
Lemma blames_bind {S A B} (m : M S goerror A) (f : A → M S goerror B) :
  blames m → (∀ a, blames (f a)) → blames (x ← m; f x).
Proof.
  intros Hm Hf s. specialize (Hm s). unfold mbind, M_bind. destruct (m s) as [[a|e|e] s']; [apply Hf|exact Hm..].
Qed.
Lemma blames_attempt_bind {S A B} (m : M S goerror A) (f : A + goerror → M S goerror B) :
  blames m → (∀ a, blames (f (inl a))) → (∀ e, (IsRateLimitError e = true → limited_answer) → blames (f (inr e))) →
  blames (x ← attempt m; f x).
Proof.
  intros Hm Ha He s. specialize (Hm s). unfold mbind, M_bind, attempt.
  destruct (m s) as [[a|e|e] s']; [apply Ha|by apply He|exact Hm].
Qed.
Lemma blames_map_err {S A} (f : goerror → goerror) (m : M S goerror A) :
  (∀ e, IsRateLimitError (f e) = IsRateLimitError e) → blames m → blames (map_err f m).
Proof. intros Hf Hm s. specialize (Hm s). unfold map_err. destruct (m s) as [[a|e|e] s']; [done| |done].
  intros H. apply Hm. by rewrite <-Hf. Qed.
Lemma blames_call {A} (m : reconciliation (W:=W) A) : blames m → blames (call m).
Proof. intros Hm s. specialize (Hm s.1). unfold call. by destruct (m s.1). Qed.
Lemma blames_act a : blames (act env a).
Proof.
  intros s. unfold act. destruct (env a (k_world s)) as [[x|e|e] w] eqn:E; [done|..].
  - intros He. by exists a, (k_world s), e, w.
  - by exists a, (k_world s), e, w.
Qed.
Lemma blames_attempt_drop {S A} (m : M S goerror A) : blames m → blames (_ ← attempt m; mret tt).
Proof. intros Hm. by apply blames_attempt_bind; [|intros; apply blames_ret..]. Qed.

Create HintDb blame.
#[local] Hint Resolve blames_ret blames_act : blame.

(** An error that wraps one that is known to be the answer to a call. *)
Ltac wrapped :=
  match goal with
  | Hl : IsRateLimitError ?e = true → limited_answer |- IsRateLimitError _ = true → limited_answer =>
      let H := fresh in intros H; apply Hl; rewrite <-H; symmetry; limit_wrapped
  end.

(** One step of the obvious reasoning: the shape of the program says it all. *)
Ltac blame_step :=
  match goal with
  | |- ∀ _, _ => intro
  | |- blames (mbind _ (attempt _)) => apply blames_attempt_bind
  | |- blames (mbind _ _) => apply blames_bind
  | |- blames (mret _) => apply blames_ret
  | |- blames (throw ?e) => apply blames_throw; first [assumption | cbn; discriminate | wrapped | idtac]
  | |- blames (guard_err _ _) => apply blames_guard; reflexivity
  | |- blames (map_err _ _) => apply blames_map_err; [limit_wrapped|]
  | |- blames (call _) => apply blames_call
  | |- blames (act _ ?a) => exact (blames_act a)
  | |- blames current => by intros ?
  | |- blames (change _) => by intros ?
  | |- blames (put _) => by intros ?
  | |- blames (let _ := _ in _) => cbv zeta
  | |- blames (match ?x with _ => _ end) => destruct x
  end.
Ltac blame := repeat blame_step; auto with blame.

Lemma blames_CreateOrUpdate k init f :
  (∀ o e, f o = Err e → IsRateLimitError e = false) → (∀ o e, f o ≠ Panic e) →
  blames (CreateOrUpdate env k init f).
Proof.
  intros He Hp. unfold CreateOrUpdate. cbv zeta.
  assert (∀ o, blames (S:=kst W) (o' ← lift (f o);
      _ ← guard_err (negb (bool_decide (key_of (meta k o') = key_of (meta k init))))
            (Errorf "MutateFn cannot mutate object name and/or object namespace" []); mret o')) as Hmut.
  { intros o. apply blames_bind; [by apply blames_lift; [apply He|apply Hp]|]. blame. }
  apply blames_attempt_bind; [blame| |].
  - intros o. apply blames_bind; [apply Hmut|]. blame.
  - intros e Hlim. destruct (IsNotFound e); [|by apply blames_throw]. apply blames_bind; [apply Hmut|]. blame.
Qed.

(** A mutation that fails with errors of its own only, and never panics. *)
Definition quiet {A} (o : result A) : Prop :=
  match o with Ret _ => True | Err e => IsRateLimitError e = false | Panic _ => False end.

Lemma quiet_bind {A B} (o : result A) (f : A → result B) : quiet o → (∀ a, quiet (f a)) → quiet (x ← o; f x).
Proof. destruct o; cbn; auto. Qed.
Lemma quiet_fail_if b e : IsRateLimitError e = false → quiet (fail_if b e).
Proof. by destruct b. Qed.

Lemma quiet_owner owner m : quiet (SetControllerReference controlPlaneAPIVersion provisionerKind owner m).
Proof.
  unfold SetControllerReference, validateOwner. cbv zeta. apply quiet_bind.
  - destruct (String.eqb _ _); [done|]. apply quiet_bind; [by apply quiet_fail_if|]. intros _. by apply quiet_fail_if.
  - intros _. apply quiet_bind; [|done]. destruct (GetControllerOf m); [by apply quiet_fail_if|done].
Qed.

Lemma quiet_owned p m : quiet (ownedByProvisioner p m).
Proof.
  unfold ownedByProvisioner. pose proof (quiet_owner (pv_meta p) m) as H.
  destruct (SetControllerReference _ _ _ _) as [x|e|e]; [done| |done].
  assert (IsRateLimitError (Errorf "set controller reference: %w" [FErrW e]) = IsRateLimitError e) as Hw by limit_wrapped.
  unfold quiet. by rewrite Hw.
Qed.

Lemma blames_object (k : kind) init f : (∀ o, quiet (f o)) → blames (CreateOrUpdate env k init f).
Proof.
  intros Hq. apply blames_CreateOrUpdate; intros o e H; specialize (Hq o); by rewrite H in Hq.
Qed.

Context `{!HasClock W} (render : text → string).

Lemma blames_Now : blames (Now (W:=W)).
Proof. intros s. unfold Now. by destruct (tick (k_world s)). Qed.
#[local] Hint Resolve blames_Now : blame.
Lemma blames_replace a f : blames (replace env a f).
Proof. unfold replace. blame. Qed.
Lemma blames_update_status : blames (update_status env).
Proof. unfold update_status. blame. apply blames_replace. Qed.
Lemma blames_save_status : blames (save_status env).
Proof. apply blames_attempt_drop, blames_update_status. Qed.
Lemma blames_save_if_changed snapshot : blames (save_if_changed env snapshot).
Proof. unfold save_if_changed. blame. apply blames_save_status. Qed.
Lemma blames_setCondition ty st reason message : blames (setCondition (W:=W) ty st reason message).
Proof. unfold setCondition. blame. Qed.
#[local] Hint Resolve blames_replace blames_update_status blames_save_status blames_save_if_changed blames_setCondition : blame.

Lemma blames_write_if_changed snapshot format :
  (∀ e, IsRateLimitError (Errorf format [FErrW e]) = IsRateLimitError e) → blames (write_if_changed env snapshot format).
Proof. intros Hf. unfold write_if_changed. blame. Qed.

Lemma blames_ensureCleanupFinalizer : blames (ensureCleanupFinalizer env).
Proof. unfold ensureCleanupFinalizer. blame. Qed.
Lemma blames_fetchControlPlane : blames (fetchControlPlane env).
Proof. unfold fetchControlPlane. blame. Qed.
Lemma blames_readOperatorSessionToken p cp : blames (readOperatorSessionToken env render p cp).
Proof. unfold readOperatorSessionToken, readProvisionerSecretValue. blame. Qed.
Lemma blames_duration t interval : blames (durationUntilNextEntitlementsCheck (W:=W) t interval).
Proof. unfold durationUntilNextEntitlementsCheck, Since. blame. Qed.
Lemma blames_entitlement p cp token : blames (reconcileExternalProvisionerEntitlement env p cp token).
Proof.
  unfold reconcileExternalProvisionerEntitlement, queryEntitlement, entitled_now, not_entitled, set_entitled.
  blame; apply blames_duration.
Qed.
#[local] Hint Resolve blames_ensureCleanupFinalizer blames_fetchControlPlane blames_readOperatorSessionToken
  blames_entitlement : blame.

Lemma blames_key_failed {A} message err :
  (IsRateLimitError err = true → limited_answer) → blames (key_failed (A:=A) env message err).
Proof. intros He. unfold key_failed, key_condition. blame. Qed.
Lemma blames_key_ready : blames (key_ready (W:=W)).
Proof. apply blames_setCondition. Qed.
Lemma blames_ensure_key kr : blames (ensure_key env kr).
Proof. unfold ensure_key. blame. Qed.
#[local] Hint Resolve blames_key_ready blames_ensure_key : blame.

Lemma limit_key_error format kr err : IsRateLimitError (key_error format kr err) = IsRateLimitError err.
Proof. unfold key_error. limit_wrapped. Qed.

Lemma blames_rotateKey kr texts k : blames (rotateKey env render kr texts k).
Proof.
  unfold rotateKey. blame; apply blames_key_failed; rewrite ?limit_key_error; try done. all: intros H; vm_compute in H; discriminate H.
Qed.
Lemma blames_obtainKey kr failed texts k : blames (obtainKey env render kr failed texts k).
Proof.
  unfold obtainKey. blame; try apply blames_rotateKey. apply blames_key_failed. by rewrite limit_key_error.
Qed.
Lemma blames_reconcileKey kr : blames (reconcileKey env render kr).
Proof.
  unfold reconcileKey, rotateDriftedKey, backfillKey, secret_usable. blame;
    try apply blames_obtainKey; try apply blames_rotateKey.
Qed.

Lemma blames_reconcileObjects cp name key k snapshot : blames (reconcileObjects env cp name key k snapshot).
Proof.
  unfold reconcileObjects, secret_value, ensureProvisionerKeySecret, reconcileServiceAccount, reconcileRole,
    reconcileRoleBinding, reconcileDeployment, reconcileStatus, with_status.
  blame; try (apply blames_write_if_changed; limit_wrapped);
    match goal with |- blames (CreateOrUpdate _ ?kd ?init ?f) => refine (blames_object kd init f _) end;
    intros; unfold key_secret, provisioner_account, provisioner_role, provisioner_role_binding,
      provisioner_deployment; cbv zeta; repeat (apply quiet_bind; [|intros ?]); try done;
    try apply quiet_owned; by apply quiet_fail_if.
Qed.

Lemma blames_reconcileLive snapshot : blames (reconcileLive env render snapshot).
Proof.
  unfold reconcileLive. blame; try apply blames_reconcileKey; apply blames_reconcileObjects.
Qed.

Lemma blames_reconcileDeletion : blames (reconcileDeletion env render).
Proof. unfold reconcileDeletion, deletionControlPlane, deleteRemoteKey, removeCleanupFinalizer. blame. Qed.

Lemma blames_reconcileBody req : blames (reconcileBody env render req).
Proof. unfold reconcileBody. blame; [apply blames_reconcileDeletion|apply blames_reconcileLive]. Qed.

Lemma blames_recordRateLimit : blames (recordRateLimit env).
Proof. unfold recordRateLimit. blame. Qed.

(** In the form that runs use. *)
Lemma blames_run {S A} (m : M S goerror A) s o s' :
  blames m → m s = (o, s') →
  match o with
  | Ret _ => True
  | Err e => IsRateLimitError e = true → limited_answer
  | Panic _ => panicked_answer
  end.
Proof. intros Hm Hrun. specialize (Hm s). by rewrite Hrun in Hm. Qed.
End errors.
End ProvisionerErrors.
