(* ===== verification/ProvisionerReconcile.v ===== *)
(** * ProvisionerReconcile: what reconciling a provisioner does

    The properties of [Provisioner]: the calls of a reconciliation, what a
    successful one has achieved, the deletion, and the reaction to the API's
    rate limit. *)

From S2P Require Import Prelude GoStd GoStdFacts StringFacts GoErrors Uuid ApiTypes Examples KubeObjects Kube ControlPlaneNames ControlPlaneStatus OperatorAccess License ServiceAccounts WorkspaceRBAC Workload ProvisionerNames Provisioner ProvisionerErrors.

#[local] Open Scope string_scope.
#[local] Open Scope list_scope.

Module ProvisionerReconcile.
Import ControlPlaneNames ControlPlaneStatus OperatorAccess License ServiceAccounts WorkspaceRBAC Workload.
Import ProvisionerNames Provisioner ProvisionerErrors.

(** ** Reasoning about steps *)

Section step_logic.
Context {W : Type} (env : ∀ a : action, M W goerror (reply a)).
Implicit Types (p : CoderProvisioner) (P : action → Prop) (K : CoderProvisioner → Prop).

(** Run on the object [p], the step [m] makes only calls [P]; when it returns,
    its result and the object are as in [J], and when it fails the object is as
    in [K]. *)
Definition sat {A} P (J : A → CoderProvisioner → Prop) K (m : step (W:=W) A) p : Prop := ∀ st,
  let '(o, (st', p')) := m (st, p) in
  (∃ acts, made acts st st' ∧ Forall P acts) ∧ match o with Ret a => J a p' | _ => K p' end.

Lemma sat_ret {A} P J K (a : A) p : J a p → sat P J K (mret a) p.
Proof. intros H st. split; [|done]. exists []. split; [apply made_nil|constructor]. Qed.
Lemma sat_throw {A} P (J : A → _) K e p : K p → sat P J K (throw e) p.
Proof. intros H st. split; [|done]. exists []. split; [apply made_nil|constructor]. Qed.
Lemma sat_guard P J K b e p : (b = true → K p) → (b = false → J tt p) → sat P J K (guard_err b e) p.
Proof.
  intros Hk Hj st. unfold guard_err, lift, fail_if. destruct b; (split; [|by auto]);
    exists []; (split; [apply made_nil|constructor]).
Qed.
Lemma sat_current P (J : CoderProvisioner → _) K p : J p p → sat P J K current p.
Proof. intros H st. split; [|done]. exists []. split; [apply made_nil|constructor]. Qed.
Lemma sat_change P (J : () → _) K f p : J tt (f p) → sat P J K (change f) p.
Proof. intros H st. split; [|done]. exists []. split; [apply made_nil|constructor]. Qed.
Lemma sat_mono {A} P (J J' : A → CoderProvisioner → Prop) K K' m p :
  sat P J K m p → (∀ a p', J a p' → J' a p') → (∀ p', K p' → K' p') → sat P J' K' m p.
Proof.
  intros H HJ HK st. specialize (H st). destruct (m (st, p)) as [[a|e|e] [st' p']];
    destruct H as [? ?]; (split; [done|auto]).
Qed.
Lemma sat_bind {A B} P (J : A → CoderProvisioner → Prop) (J' : B → _) K m (f : A → step B) p :
  sat P J K m p → (∀ a p', J a p' → sat P J' K (f a) p') → sat P J' K (m ≫= f) p.
Proof.
  intros Hm Hf st. specialize (Hm st). unfold mbind, M_bind.
  destruct (m (st, p)) as [[a|e|e] [s1 p1]]; [|done..]. destruct Hm as [(l & Hl & HP) HJ].
  specialize (Hf a p1 HJ s1). destruct (f a (s1, p1)) as [o [s2 p2]]. destruct Hf as [(l' & Hl' & HP') Ho].
  split; [|done]. exists (l ++ l'). split; [by eapply made_trans|by apply Forall_app].
Qed.
Lemma sat_attempt {A} P (J : A + goerror → CoderProvisioner → Prop) K m p :
  sat P (λ a, J (inl a)) (λ p', K p' ∧ ∀ e, J (inr e) p') m p → sat P J K (attempt m) p.
Proof.
  intros H st. specialize (H st). unfold attempt. destruct (m (st, p)) as [[a|e|e] [st' p']];
    destruct H as [Ha Hb]; (split; [done|]); [done|by apply Hb|by apply Hb].
Qed.
Lemma sat_map_err {A} P (J : A → _) K f (m : step A) p : sat P J K m p → sat P J K (map_err f m) p.
Proof. intros H st. specialize (H st). unfold map_err. by destruct (m (st, p)) as [[] []]. Qed.
(** A call keeps the object. *)
Lemma sat_call {A} P (J : A → CoderProvisioner → Prop) K (m : reconciliation (W:=W) A) p :
  only P m → (∀ a st st', m st = (Ret a, st') → J a p) → K p → sat P J K (call m) p.
Proof.
  intros Hm HJ HK st. destruct (Hm st) as (l & Hl & HP). unfold call. cbn [fst snd].
  destruct (m st) as [[a|e|e] st'] eqn:E; (split; [by exists l|]); [by eapply HJ|done|done].
Qed.
Lemma sat_act (P : action → Prop) a (J : reply a → CoderProvisioner → Prop) K p :
  P a → (∀ r w w', env a w = (Ret r, w') → J r p) → K p → sat P J K (call (act env a)) p.
Proof.
  intros HP HJ HK. apply sat_call; [by only_call| |done].
  intros r st st' H. inv_act H. by eapply HJ.
Qed.
Lemma sat_Now `{!HasClock W} P (J : time → _) K p : (∀ t, J t p) → K p → sat P J K (call Now) p.
Proof. intros H HK. apply sat_call; [apply only_Now|by intros|done]. Qed.

(** What the status update does to the object. *)
Lemma sat_update_status P (J : () → _) K p :
  P (AUpdateProvisionerStatus p) → K p →
  (∀ q w w', env (AUpdateProvisionerStatus p) w = (Ret q, w') → J tt q) →
  sat P J K (update_status env) p.
Proof.
  intros HP HK HJ. unfold update_status.
  apply (sat_bind _ (λ q p', q = p ∧ p' = p)); [by apply sat_current|]. intros q p' [-> ->].
  unfold replace. apply (sat_bind _ (λ r p', p' = p ∧ J tt r)).
  - refine (sat_act _ (AUpdateProvisionerStatus p) _ _ _ HP _ HK). intros r w w' H. split; [done|by eapply HJ].
  - intros r p' [-> Hr]. by apply sat_change.
Qed.
Lemma sat_save_status P (J : () → _) K p :
  P (AUpdateProvisionerStatus p) → K p → J tt p →
  (∀ q w w', env (AUpdateProvisionerStatus p) w = (Ret q, w') → J tt q) →
  sat P J K (save_status env) p.
Proof.
  intros HP HK HJ Hq. unfold save_status. apply (sat_bind _ (λ _, J tt)); [|by intros; apply sat_ret].
  apply sat_attempt, sat_update_status; [done|by split|done].
Qed.
Lemma sat_save_if_changed P (J : () → _) K snapshot p :
  P (AUpdateProvisionerStatus p) → K p → J tt p →
  (∀ q w w', env (AUpdateProvisionerStatus p) w = (Ret q, w') → J tt q) →
  sat P J K (save_if_changed env snapshot) p.
Proof.
  intros HP HK HJ Hq. unfold save_if_changed.
  apply (sat_bind _ (λ q p', q = p ∧ p' = p)); [by apply sat_current|]. intros q p' [-> ->].
  case_bool_decide; [by apply sat_ret|by apply sat_save_status].
Qed.
Lemma sat_setCondition `{!HasClock W} P (J : () → _) K ty st reason message p :
  K p → (∀ l, J tt (with_status (with_conditions l) p)) → sat P J K (setCondition ty st reason message) p.
Proof.
  intros HK HJ. unfold setCondition. apply (sat_bind _ (λ _ p', p' = p)); [by apply sat_Now|].
  intros now p' ->. apply sat_change. apply HJ.
Qed.

(** The same followed by a continuation. *)
Lemma sat_current_bind {A} P (J : A → _) K (f : CoderProvisioner → step A) p :
  sat P J K (f p) p → sat P J K (current ≫= f) p.
Proof.
  intros H. apply (sat_bind _ (λ q p', q = p ∧ p' = p)); [by apply sat_current|]. by intros q p' [-> ->].
Qed.
Lemma sat_change_bind {A} P (J : A → _) K g (f : () → step A) p :
  sat P J K (f tt) (g p) → sat P J K (change g ≫= f) p.
Proof.
  intros H. apply (sat_bind _ (λ _ p', p' = g p)); [by apply sat_change|]. by intros [] p' ->.
Qed.
Lemma sat_guard_bind {A} P (J : A → _) K b e (f : () → step A) p :
  K p → (b = false → sat P J K (f tt) p) → sat P J K (guard_err b e ≫= f) p.
Proof.
  intros HK H. apply (sat_bind _ (λ _ p', p' = p ∧ b = false)); [by apply sat_guard|]. by intros [] p' [-> ?]; apply H.
Qed.
Lemma sat_setCondition_bind {A} `{!HasClock W} P (J : A → _) K ty st reason message (f : () → step A) p :
  K p → (∀ l, sat P J K (f tt) (with_status (with_conditions l) p)) →
  sat P J K (setCondition ty st reason message ≫= f) p.
Proof.
  intros HK H. apply (sat_bind _ (λ _ p', ∃ l, p' = with_status (with_conditions l) p)).
  - apply sat_setCondition; [done|]. intros l. by exists l.
  - intros [] p' [l ->]. apply H.
Qed.
Lemma sat_call_bind {A B} P (J : B → _) K (m : reconciliation (W:=W) A) (f : A → step B) p :
  only P m → K p → (∀ a st st', m st = (Ret a, st') → sat P J K (f a) p) → sat P J K (call m ≫= f) p.
Proof.
  intros Hm HK H. apply (sat_bind _ (λ a p', p' = p ∧ ∃ st st', m st = (Ret a, st'))).
  - apply sat_call; [done| |done]. intros a st st' ?. split; [done|by exists st, st'].
  - intros a p' [-> (st & st' & ?)]. by eapply H.
Qed.
Lemma sat_act_attempt_bind {B} (P : action → Prop) a (J : B → _) K (f : reply a + goerror → step B) p :
  P a → K p → (∀ r w w', env a w = (Ret r, w') → sat P J K (f (inl r)) p) →
  (∀ e w w', env a w = (Err e, w') → sat P J K (f (inr e)) p) →
  sat P J K (attempt (call (act env a)) ≫= f) p.
Proof.
  intros HP HK Hf He st. unfold mbind, M_bind, attempt, call, act. cbn [fst snd].
  destruct (env a (k_world st)) as [[r|e|e] w] eqn:E.
  3: { split; [|done]. exists [a]. split; [done|by repeat constructor]. }
  - specialize (Hf r _ _ E (KSt w (k_trace st ++ [a]))). destruct (f (inl r) _) as [o [s' p']].
    destruct Hf as [(l & Hl & HPl) Ho]. split; [|done]. exists ([a] ++ l).
    split; [by eapply (made_trans [a]), Hl|by constructor].
  - specialize (He e _ _ E (KSt w (k_trace st ++ [a]))). destruct (f (inr e) _) as [o [s' p']].
    destruct He as [(l & Hl & HPl) Ho]. split; [|done]. exists ([a] ++ l).
    split; [by eapply (made_trans [a]), Hl|by constructor].
Qed.
End step_logic.

Section provisioner_properties.
Context {W : Type} (env : ∀ a : action, M W goerror (reply a)) `{!HasClock W} (render : text → string).
(** The provisioner as it was fetched. *)
Context (p0 : CoderProvisioner).
Implicit Types (p : CoderProvisioner) (cp : CoderControlPlane) (kr : key_request) (k : key_state).

Let namespace := Namespace (pv_meta p0).

(** The fetched object with other conditions. *)
Definition same p : Prop := ∃ l, p = with_status (with_conditions l) p0.
(** Metadata and spec as fetched, or as the API server answered a status update. *)
Definition known p : Prop :=
  pv_meta p = pv_meta p0 ∧ pv_Spec p = pv_Spec p0 ∨
  ∃ sent q w w', env (AUpdateProvisionerStatus sent) w = (Ret q, w') ∧ pv_meta p = pv_meta q ∧ pv_Spec p = pv_Spec q.

Lemma same_known p : same p → known p.
Proof. intros [l ->]. by left. Qed.
Lemma same_fetched : same p0.
Proof. exists (pst_Conditions (pv_Status p0)). by destruct p0 as [m s []]. Qed.
Lemma same_conditions l p : same p → same (with_status (with_conditions l) p).
Proof. intros [l' ->]. by exists l. Qed.
Lemma known_status f p : known p → known (with_status f p).
Proof. done. Qed.
Lemma known_reply sent q w w' : env (AUpdateProvisionerStatus sent) w = (Ret q, w') → known q.
Proof. intros H. right. by exists sent, q, w, w'. Qed.

(** *** What the calls depend on *)

(** The control plane the provisioner refers to, as it was read, and the token
    in the secret its status names. *)
Definition plane_read cp : Prop :=
  (∃ w w', env (AGet CachedReader KControlPlane (namespace, pvs_ControlPlaneRef (pv_Spec p0))) w = (Ret cp, w')) ∧
  key_of (cp_meta cp) = (namespace, pvs_ControlPlaneRef (pv_Spec p0)) ∧ URL (cp_Status cp) ≠ "".
Definition token_read cp (token : string) : Prop :=
  OperatorAccessReady (cp_Status cp) = true ∧ ∃ ref (secret : Secret) w w',
    OperatorTokenSecretRef (cp_Status cp) = Some ref ∧
    env (AGet CachedReader KSecret (namespace, trim_space (sks_Name ref))) w = (Ret secret, w') ∧
    secret_Data secret !! key_or_default (sks_Key ref) DefaultTokenSecretKey = Some token ∧ token ≠ "".
(** External provisioners are licensed, by the recent check of the control
    plane's status or by coderd's answer. *)
Definition licensed cp (token : string) : Prop :=
  (EntitlementsLastChecked (cp_Status cp) ≠ None ∧
   Entitled (trim_space (ExternalProvisionerDaemonsEntitlement (cp_Status cp))) = true) ∨
  ∃ e v w w', env (AEntitlements (URL (cp_Status cp)) token) w = (Ret e, w') ∧
    feature e FeatureExternalProvisionerDaemons = Some v ∧ Entitled v = true.

(** What coderd answered to the request for the key. *)
Definition ensured kr (r : EnsureProvisionerKeyResponse) : Prop :=
  ∃ w w', env (AEnsureProvisionerKey (ensure_request kr)) w = (Ret r, w').

Definition recorded (value desired : string) : string := if String.eqb value "" then desired else value.

(** The calls about the key: it is asked for as the spec says; the recorded one
    is deleted if the records differ from the spec, and the desired one only
    after coderd has it without telling its plaintext. *)
Inductive key_call kr (s : CoderProvisionerStatus) : action → Prop :=
  | call_ensure : key_call kr s (AEnsureProvisionerKey (ensure_request kr))
  | call_delete_recorded : driftDetected kr s = true → key_call kr s
      (ADeleteProvisionerKey (recorded (pst_ControlPlaneURL s) (kr_CoderURL kr)) (kr_SessionToken kr)
         (recorded (pst_OrganizationName s) (kr_OrganizationName kr))
         (recorded (pst_ProvisionerKeyName s) (kr_KeyName kr)))
  | call_delete_unknown r : ensured kr r → epr_Key r = "" → key_call kr s
      (ADeleteProvisionerKey (kr_CoderURL kr) (kr_SessionToken kr) (kr_OrganizationName kr) (kr_KeyName kr)).

Let secretName := provisionerSecretName p0.
Let secretKey := provisionerSecretKey p0.
Let ref := {| sks_Name := secretName; sks_Key := secretKey |}.

(** The key is the desired one and its plaintext is known, or nothing has
    changed since a usable secret was recorded for it. *)
Definition applied kr k : Prop :=
  appliedOrgName k = kr_OrganizationName kr ∧ appliedTagsHash k = hashProvisionerTags (kr_Tags kr) ∧
  appliedControlPlaneRefName k = kr_ControlPlaneRefName kr ∧ appliedControlPlaneURL k = kr_CoderURL kr.
Definition key_outcome kr k : Prop :=
  applied kr k ∧
  (keyMaterial k ≠ "" ∧ (∃ r, ensured kr r ∧ epr_Key r = keyMaterial k) ∨
   keyMaterial k = "" ∧ k = initial_key kr (pv_Status p0) ∧ driftDetected kr (pv_Status p0) = false ∧
   ∃ secret w w', env (AGet CachedReader KSecret (namespace, secretName)) w = (Ret secret, w') ∧
     default "" (secret_Data (secret : Secret) !! secretKey) ≠ "").

(** The objects that run the provisioner. *)
Inductive object_call cp p : action → Prop :=
  | object_account a : written KServiceAccount
      (new_account (object_key_of p (provisionerServiceAccountName (Name (pv_meta p)))))
      (provisioner_account p) a → object_call cp p a
  | object_role a : written KRole (new_role (object_key_of p (provisionerResourceName (Name (pv_meta p)))))
      (provisioner_role p) a → object_call cp p a
  | object_role_binding roleName a : written KRoleBinding
      (new_role_binding (object_key_of p (provisionerResourceName (Name (pv_meta p)))))
      (provisioner_role_binding p roleName (provisionerServiceAccountName (Name (pv_meta p)))) a → object_call cp p a
  | object_deployment value a : value ≠ "" → written KDeployment
      (new_deployment (object_key_of p (provisionerResourceName (Name (pv_meta p)))))
      (provisioner_deployment p (provisioner_image p cp) (URL (cp_Status cp)) ref
         (provisionerServiceAccountName (Name (pv_meta p))) (hashProvisionerSecret value)) a → object_call cp p a.

(** The calls of a reconciliation of a provisioner that has its finalizer. *)
Inductive provisioner_call : action → Prop :=
  | pcall_plane : provisioner_call
      (AGet CachedReader KControlPlane (namespace, pvs_ControlPlaneRef (pv_Spec p0)))
  | pcall_token cp r : plane_read cp → OperatorTokenSecretRef (cp_Status cp) = Some r →
      provisioner_call (AGet CachedReader KSecret (namespace, trim_space (sks_Name r)))
  | pcall_entitlements cp token : plane_read cp → token_read cp token →
      provisioner_call (AEntitlements (URL (cp_Status cp)) token)
  | pcall_usable : provisioner_call (AGet CachedReader KSecret (namespace, secretName))
  | pcall_key cp token a : plane_read cp → token_read cp token → licensed cp token →
      key_call (key_request_of p0 cp token) (pv_Status p0) a → provisioner_call a
  | pcall_secret cp token k a : plane_read cp → token_read cp token → licensed cp token →
      key_outcome (key_request_of p0 cp token) k →
      written KSecret (new_secret (namespace, secretName)) (key_secret p0 secretName secretKey (keyMaterial k)) a →
      provisioner_call a
  | pcall_object cp p a : plane_read cp → known p → object_call cp p a → provisioner_call a
  | pcall_status p : known p → provisioner_call (AUpdateProvisionerStatus p).

Local Abbreviation SAT J m p := (sat provisioner_call J known m p).

(** *** The control plane and the token *)

Lemma fetchControlPlane_sat p :
  same p → SAT (λ cp p', p' = p ∧ plane_read cp) (fetchControlPlane env) p.
Proof.
  intros Hs. pose proof (same_known p Hs) as Hk. assert (pv_meta p = pv_meta p0 ∧ pv_Spec p = pv_Spec p0) as [Hm Hsp]
    by (by destruct Hs as [l ->]).
  unfold fetchControlPlane. apply sat_current_bind. cbv zeta. rewrite Hm, Hsp.
  apply sat_guard_bind; [done|intros _]. eapply (sat_bind _ (λ cp p', p' = p ∧ ∃ w w',
    env (AGet CachedReader KControlPlane (namespace, pvs_ControlPlaneRef (pv_Spec p0))) w = (Ret cp, w'))).
  { apply sat_map_err.
    refine (sat_act env provisioner_call (AGet CachedReader KControlPlane (namespace, pvs_ControlPlaneRef (pv_Spec p0)))
      _ _ _ pcall_plane _ Hk).
    intros cp w w' H. split; [done|]. by exists w, w'. }
  intros cp p' [-> Hget]. cbn in cp. apply sat_guard_bind; [done|intros Hkey].
  apply orb_false_iff in Hkey as [H1%negb_false_iff%String.eqb_eq H2%negb_false_iff%String.eqb_eq].
  apply sat_guard_bind; [done|intros Hurl%String.eqb_neq]. apply sat_ret. split; [done|].
  split; [exact Hget|]. split; [|done]. unfold key_of. by rewrite H1, H2.
Qed.

Lemma only_readOperatorSessionToken p cp :
  same p → plane_read cp → only provisioner_call (readOperatorSessionToken env render (Some p) (Some cp)).
Proof.
  intros [l ->] Hcp. unfold readOperatorSessionToken. cbv zeta.
  destruct (OperatorAccessReady _); cbn [negb]; [|apply only_ret].
  destruct (OperatorTokenSecretRef _) as [r|] eqn:Hr; [|apply only_ret].
  destruct (String.eqb _ _); [apply only_ret|].
  apply only_bind; [|intros [?|?]; apply only_ret]. apply only_attempt. unfold readProvisionerSecretValue.
  apply only_bind; [only_call; by eapply pcall_token|]. intros secret.
  destruct (secret_Data _ !! _); [destruct (String.eqb _ _); [apply only_throw|apply only_ret]|apply only_throw].
Qed.

Lemma readOperatorSessionToken_Ret p cp st r st' :
  same p → readOperatorSessionToken env render (Some p) (Some cp) st = (Ret r, st') →
  tr_result r = requeue_after provisionerOperatorAccessRetryInterval ∨
  tr_result r = no_requeue ∧ token_read cp (tr_token r).
Proof.
  intros [l ->]. unfold readOperatorSessionToken, token_read. cbv zeta.
  destruct (OperatorAccessReady _); cbn [negb]; [|intros H; inv_run H; by left].
  destruct (OperatorTokenSecretRef _) as [rf|] eqn:Hr; [|intros H; inv_run H; by left].
  destruct (String.eqb _ _); [intros H; inv_run H; by left|].
  intros (x & s1 & H1 & H)%M_bind_Ret. case_attempt H token err; [|inv_run H; by left].
  inv_run H. right. split; [done|]. split; [done|]. apply attempt_inl in H1. unfold readProvisionerSecretValue in H1.
  apply M_bind_Ret in H1 as (secret & s2 & Hget & H1). inv_act Hget. cbn in secret.
  destruct (secret_Data secret !! _) as [v|] eqn:Hv; [|discriminate H1].
  destruct (String.eqb_spec v ""); [discriminate H1|]. inv_run H1. exists rf, secret. eexists _, _. done.
Qed.

(** *** The entitlement *)

Definition entitlement_sat cp token : Result → CoderProvisioner → Prop := λ res p',
  same p' ∧ ((0 < RequeueAfter res)%Z ∨ RequeueAfter res = 0%Z ∧ licensed cp token).

Lemma entitled_now_sat cp token p :
  same p → licensed cp token → SAT (entitlement_sat cp token) entitled_now p.
Proof.
  intros Hs Hl. unfold entitled_now, set_entitled. apply sat_setCondition_bind; [by apply same_known|].
  intros l. apply sat_ret. split; [by apply same_conditions|]. by right.
Qed.
Lemma not_entitled_sat cp token d p :
  same p → (0 < d)%Z → SAT (entitlement_sat cp token) (not_entitled d) p.
Proof.
  intros Hs Hl. unfold not_entitled, set_entitled. apply sat_setCondition_bind; [by apply same_known|].
  intros l. apply sat_ret. split; [by apply same_conditions|]. by left.
Qed.

Lemma queryEntitlement_sat cp token p :
  same p → plane_read cp → token_read cp token →
  SAT (entitlement_sat cp token) (queryEntitlement env cp token) p.
Proof.
  intros Hs Hcp Ht. pose proof (same_known p Hs) as Hk. unfold queryEntitlement.
  refine (sat_act_attempt_bind env _ (AEntitlements _ _) _ _ _ _ (pcall_entitlements _ _ Hcp Ht) Hk _ _).
  - intros e w w' He. cbn in e. apply sat_guard_bind; [done|intros _].
    destruct (feature e _) as [v|] eqn:Hf; [|by apply not_entitled_sat].
    destruct (Entitled v) eqn:Hv; [|by apply not_entitled_sat].
    apply entitled_now_sat; [done|]. right. by exists e, v, w, w'.
  - intros err w w' _. cbv zeta. destruct (if Z.eqb _ 404 then _ else _) as [reason message].
    unfold set_entitled. apply sat_setCondition_bind; [done|]. intros l. apply sat_ret.
    split; [by apply same_conditions|]. by left.
Qed.

Lemma only_duration P t interval : only P (durationUntilNextEntitlementsCheck (W:=W) t interval).
Proof.
  unfold durationUntilNextEntitlementsCheck. destruct t; [|apply only_ret]. destruct (_ <=? 0)%Z; [apply only_ret|].
  apply only_bind; [|intros; apply only_ret]. unfold Since. apply only_bind; [apply only_Now|intros; apply only_ret].
Qed.

Lemma entitlement_run p q cp token :
  same p → plane_read cp → token_read cp token →
  SAT (entitlement_sat cp token) (reconcileExternalProvisionerEntitlement env (Some q) (Some cp) token) p.
Proof.
  intros Hs Hcp Ht. pose proof (same_known p Hs) as Hk. unfold reconcileExternalProvisionerEntitlement. cbv zeta.
  do 2 (apply sat_guard_bind; [done|intros _]).
  destruct (EntitlementsLastChecked _) as [t|] eqn:Hc; cbn [is_nil]; [|by apply queryEntitlement_sat].
  apply sat_call_bind; [apply only_duration|done|]. intros d st st' _.
  destruct (Z.ltb_spec 0 d); cbn [andb]; [|by apply queryEntitlement_sat].
  destruct (Entitled _) eqn:He.
  - apply entitled_now_sat; [done|]. left. by rewrite Hc.
  - destruct (String.eqb _ _); [by apply not_entitled_sat|by apply queryEntitlement_sat].
Qed.

(** *** The key *)

Section key.
Context (cp : CoderControlPlane) (token : string).
Context (Hcp : plane_read cp) (Htoken : token_read cp token) (Hlicensed : licensed cp token).
Let kr := key_request_of p0 cp token.

Lemma pcall_key_of a : key_call kr (pv_Status p0) a → provisioner_call a.
Proof. by apply pcall_key. Qed.

Lemma key_failed_sat {A} (J : A → _) message err p :
  same p → SAT J (key_failed env message err) p.
Proof.
  intros Hs. unfold key_failed. apply (sat_bind _ (λ _, known)); [|intros; by apply sat_throw].
  destruct message; [|by apply sat_ret, same_known]. unfold key_condition.
  apply sat_setCondition_bind; [by apply same_known|]. intros l.
  apply sat_save_status; [apply pcall_status|..|intros; by eapply known_reply]; by apply known_status, same_known.
Qed.

(** The plaintext is one coderd has told. *)
Definition fresh k : Prop := ∃ r, ensured kr r ∧ epr_Key r = keyMaterial k.

Lemma ensure_key_bind {A} (J : A → _) (f : EnsureProvisionerKeyResponse + goerror → step A) p :
  same p → (∀ r, ensured kr r → SAT J (f (inl r)) p) → (∀ e, SAT J (f (inr e)) p) →
  SAT J (attempt (ensure_key env kr) ≫= f) p.
Proof.
  intros Hs Hr He. unfold ensure_key.
  refine (sat_act_attempt_bind env _ (AEnsureProvisionerKey _) _ _ _ _ (pcall_key_of _ (call_ensure _ _))
    (same_known _ Hs) _ _); [|by intros].
  intros r w w' H. apply Hr. by exists w, w'.
Qed.

Lemma rotateKey_sat texts k p r :
  same p → ensured kr r → epr_Key r = "" →
  SAT (λ k' p', same p' ∧ fresh k' ∧ keyMaterial k' ≠ "") (rotateKey env render kr texts k) p.
Proof.
  intros Hs Hr Hempty. unfold rotateKey.
  refine (sat_act_attempt_bind env _ (ADeleteProvisionerKey _ _ _ _) _ _ _ _
    (pcall_key_of _ (call_delete_unknown _ _ r Hr Hempty)) (same_known _ Hs) _ _); [|intros; by apply key_failed_sat].
  intros [] w w' _. apply ensure_key_bind; [done| |intros; by apply key_failed_sat].
  intros r' Hr'. cbv zeta. destruct (String.eqb_spec (keyMaterial (absorb r' k)) "") as [|Hne]; [by apply key_failed_sat|].
  apply sat_ret. split; [done|]. split; [|done]. by exists r'.
Qed.

Lemma key_ready_bind {A} (J : A → CoderProvisioner → Prop) a p :
  same p → (∀ p', same p' → J a p') → SAT J (_ ← key_ready; mret a) p.
Proof.
  intros Hs HJ. unfold key_ready, key_condition. apply sat_setCondition_bind; [by apply same_known|].
  intros l. by apply sat_ret, HJ, same_conditions.
Qed.

Lemma fresh_outcome k : fresh k → keyMaterial k ≠ "" → key_outcome kr (apply_request kr k).
Proof. intros [r Hr] Hne. split; [done|]. left. split; [done|]. by exists r. Qed.

Lemma obtainKey_sat failed texts k p :
  same p → SAT (λ k' p', same p' ∧ key_outcome kr k') (obtainKey env render kr failed texts k) p.
Proof.
  intros Hs. unfold obtainKey. apply ensure_key_bind; [done| |intros; by apply key_failed_sat].
  intros r Hr. cbv zeta. eapply (sat_bind _ (λ k' p', same p' ∧ fresh k' ∧ keyMaterial k' ≠ "")).
  - destruct (String.eqb_spec (keyMaterial (absorb r k)) "") as [He|Hne]; [by eapply rotateKey_sat|].
    apply sat_ret. split; [done|]. split; [by exists r|done].
  - intros k' p' (Hs' & Hf & Hne). apply key_ready_bind; [done|]. intros p'' ?. split; [done|by apply fresh_outcome].
Qed.

Lemma rotateDriftedKey_sat k p :
  same p → driftDetected kr (pv_Status p0) = true →
  SAT (λ k' p', same p' ∧ key_outcome kr k') (rotateDriftedKey env render kr (pv_Status p0) k) p.
Proof.
  intros Hs Hd. unfold rotateDriftedKey. cbv zeta.
  refine (sat_act_attempt_bind env _ (ADeleteProvisionerKey _ _ _ _) _ _ _ _
    (pcall_key_of _ (call_delete_recorded _ _ Hd)) (same_known _ Hs) _ _); intros; by apply obtainKey_sat.
Qed.

Lemma backfillKey_sat k p :
  same p → SAT (λ k' p', same p' ∧ key_outcome kr k') (backfillKey env render kr k) p.
Proof.
  intros Hs. unfold backfillKey. apply ensure_key_bind; [done| |intros; by apply sat_throw, same_known].
  intros r Hr. cbv zeta. eapply (sat_bind _ (λ k' p', same p' ∧ fresh k' ∧ keyMaterial k' ≠ "")).
  - destruct (String.eqb_spec (keyMaterial (absorb r k)) "") as [He|Hne]; cbn [negb]; [by eapply rotateKey_sat|].
    apply sat_ret. split; [done|]. split; [by exists r|done].
  - intros k' p' (Hs' & Hf & Hne). apply key_ready_bind; [done|]. intros p'' ?. split; [done|by apply fresh_outcome].
Qed.

Lemma not_drifted recorded desired : drifted recorded desired = false → recorded ≠ "" → recorded = desired.
Proof.
  unfold drifted. intros H Hne. apply andb_false_iff in H as [H|H].
  - by apply negb_false_iff, String.eqb_eq in H.
  - by apply negb_false_iff, String.eqb_eq in H.
Qed.

Lemma initial_applied :
  driftDetected kr (pv_Status p0) = false → metadata_missing (pv_Status p0) = false →
  applied kr (initial_key kr (pv_Status p0)).
Proof.
  unfold driftDetected, metadata_missing. intros Hd Hm.
  apply orb_false_iff in Hd as [Hd H5]. apply orb_false_iff in Hd as [Hd H4].
  apply orb_false_iff in Hd as [Hd H3]. apply orb_false_iff in Hd as [H1 H2].
  apply orb_false_iff in Hm as [Hm M4%String.eqb_neq]. apply orb_false_iff in Hm as [Hm M3%String.eqb_neq].
  apply orb_false_iff in Hm as [M1%String.eqb_neq M2%String.eqb_neq].
  split_and!; by apply not_drifted.
Qed.

Lemma reconcileKey_sat p :
  same p → SAT (λ k' p', same p' ∧ key_outcome kr k') (reconcileKey env render kr) p.
Proof.
  intros Hs. destruct Hs as [l0 Hl0]. assert (same p) as Hs by by exists l0.
  pose proof (same_known p Hs) as Hk. unfold reconcileKey. apply sat_current_bind. cbv zeta.
  assert (initial_key kr (pv_Status p) = initial_key kr (pv_Status p0)) as -> by by rewrite Hl0.
  change (driftDetected kr (pv_Status p)) with (driftDetected kr (pv_Status p)).
  assert (driftDetected kr (pv_Status p) = driftDetected kr (pv_Status p0)) as -> by by rewrite Hl0.
  assert (metadata_missing (pv_Status p) = metadata_missing (pv_Status p0)) as -> by by rewrite Hl0.
  assert (secret_usable env p (provisionerSecretName p) (provisionerSecretKey p)
    = secret_usable env p0 secretName secretKey) as -> by by rewrite Hl0.
  apply sat_call_bind; [|done|].
  { unfold secret_usable. apply only_bind; [apply only_attempt; only_call; apply pcall_usable|].
    intros [?|err]; [apply only_ret|]. destruct (IsNotFound err); [apply only_ret|apply only_throw]. }
  intros usable st st' Hu. destruct (driftDetected kr (pv_Status p0)) eqn:Hd.
  { assert (rotateDriftedKey env render kr (pv_Status p) = rotateDriftedKey env render kr (pv_Status p0)) as ->
      by by rewrite Hl0. by apply rotateDriftedKey_sat. }
  destruct usable; cbn [negb]; [|by apply obtainKey_sat].
  destruct (metadata_missing (pv_Status p0)) eqn:Hm; [by apply backfillKey_sat|].
  apply sat_ret. split; [done|]. split; [by apply initial_applied|]. right. split_and!; [done..|].
  unfold secret_usable in Hu. apply M_bind_Ret in Hu as (x & s1 & Hget & H). case_attempt H secret err.
  - apply attempt_inl in Hget. inv_act Hget. inv_run H. exists secret. eexists _, _. split; [exact Hget|].
    by intros He; rewrite He in *.
  - destruct (IsNotFound err); discriminate H.
Qed.

(** *** The objects *)

Lemma CreateOrUpdate_sat kd init g f J p :
  (∀ a, written kd init g a → provisioner_call a) → known p → (∀ o, stored env kd init g o → J o p) →
  SAT J (map_err f (call (CreateOrUpdate env kd init g))) p.
Proof.
  intros HP Hk HJ. apply sat_map_err, sat_call; [|intros o st st' H; by eapply HJ, CreateOrUpdate_Ret|done].
  exact (only_mono _ _ _ HP (CreateOrUpdate_only env kd init g)).
Qed.

Lemma write_if_changed_sat snapshot format (J : () → _) p :
  known p → (snapshot = pv_Status p → J tt p) →
  (∀ q w w', snapshot ≠ pv_Status p → env (AUpdateProvisionerStatus p) w = (Ret q, w') → J tt q) →
  SAT J (write_if_changed env snapshot format) p.
Proof.
  intros Hk HJ Hq. unfold write_if_changed. apply sat_current_bind.
  case_bool_decide; [by apply sat_ret, HJ|]. apply sat_map_err, sat_update_status; [by apply pcall_status|done|].
  intros q w w' Hup. by eapply Hq.
Qed.

Definition phase_of (d : Deployment) : string :=
  if (0 <? dep_ReadyReplicas d)%Z then CoderProvisionerPhaseReady else CoderProvisionerPhasePending.

(** The API server has the status of a provisioner: it was fetched with it,
    answered it, or has just accepted it. *)
Definition status_held p : Prop :=
  (∃ q w w', env (AUpdateProvisionerStatus p) w = (Ret q, w')) ∨ pv_Status p = pv_Status p0 ∨
  ∃ sent q w w', env (AUpdateProvisionerStatus sent) w = (Ret q, w') ∧ pv_Status p = pv_Status q.

Definition status_settled k (d : Deployment) : Prop := ∃ p s, known p ∧ status_held p ∧
  pv_Status p = with_key k ref (with_observed (Generation (pv_meta p)) (dep_ReadyReplicas d) (phase_of d) s).

(** Everything is as the spec says: the secret has a key, the deployment runs
    with the checksum of that key, under its own account, and the status records
    what the key was made for. *)
Definition provisioned k : Prop :=
  ∃ (secret : Secret) value p (role : Role) (d : Deployment),
    stored env KSecret (new_secret (namespace, secretName)) (key_secret p0 secretName secretKey (keyMaterial k)) secret ∧
    secret_Data secret !! secretKey = Some value ∧ value ≠ "" ∧ known p ∧
    let name := provisionerResourceName (Name (pv_meta p)) in
    let account := provisionerServiceAccountName (Name (pv_meta p)) in
    (∃ sa, stored env KServiceAccount (new_account (object_key_of p account)) (provisioner_account p) sa) ∧
    stored env KRole (new_role (object_key_of p name)) (provisioner_role p) role ∧
    (∃ rb, stored env KRoleBinding (new_role_binding (object_key_of p name))
             (provisioner_role_binding p (Name (role_meta role)) account) rb) ∧
    stored env KDeployment (new_deployment (object_key_of p name))
      (provisioner_deployment p (provisioner_image p cp) (URL (cp_Status cp)) ref account (hashProvisionerSecret value)) d ∧
    status_settled k d.

Lemma reconcileStatus_sat d k snapshot p (J : () → _) :
  known p → (snapshot = pv_Status p0 ∨ ∃ sent q w w', env (AUpdateProvisionerStatus sent) w = (Ret q, w') ∧ snapshot = pv_Status q) →
  (∀ p', status_settled k d → J tt p') → SAT J (reconcileStatus env d ref k snapshot) p.
Proof.
  intros Hk Hsnap HJ. unfold reconcileStatus. cbv zeta. apply sat_change_bind.
  assert (∀ l, SAT J (write_if_changed env snapshot "update coderprovisioner status: %w")
    (with_status (with_conditions l) (with_status (λ s, with_key k ref (with_observed (Generation (pv_meta p))
       (dep_ReadyReplicas d) (phase_of d) s)) p))) as Hend.
  { intros l. set (p1 := with_status (with_conditions l) _). assert (known p1) as Hk1 by done.
    assert (∃ s, pv_Status p1 = with_key k ref (with_observed (Generation (pv_meta p1)) (dep_ReadyReplicas d)
              (phase_of d) s)) as [s Hs1] by (by exists (with_conditions l (pv_Status p))).
    apply write_if_changed_sat; [done|intros Heq|intros q w w' _ Hup]; apply HJ; exists p1, s.
    - split; [done|]. split; [|done]. right. destruct Hsnap as [->|(sent & q & w & w' & Hup & ->)]; [by left|].
      right. by exists sent, q, w, w'.
    - split; [done|]. split; [|done]. left. by exists q, w, w'. }
  fold (phase_of d). destruct (0 <? dep_ReadyReplicas d)%Z; (apply sat_setCondition_bind; [done|apply Hend]).
Qed.

Lemma secret_value_sat (J : string → CoderProvisioner → Prop) name key secret p :
  known p → (∀ v, secret_Data secret !! key = Some v → v ≠ "" → J v p) →
  SAT J (secret_value (W:=W) name key secret) p.
Proof.
  intros Hk HJ. unfold secret_value. destruct (secret_Data secret !! key) as [v|]; [|by apply sat_throw].
  destruct (String.eqb_spec v ""); [by apply sat_throw|by apply sat_ret, HJ].
Qed.

(** An object of the provisioner, and what follows. *)
Lemma object_bind {A} kd (init : CoderProvisioner → obj kd) g f (rest : obj kd → step A) J p :
  known p → (∀ a, written kd (init p) (g p) a → object_call cp p a) →
  (∀ o, stored env kd (init p) (g p) o → SAT J (rest o) p) →
  SAT J ((q ← current; map_err (f q) (call (CreateOrUpdate env kd (init q) (g q)))) ≫= rest) p.
Proof.
  intros Hk Ha Hrest. apply (sat_bind _ (λ o p', p' = p ∧ stored env kd (init p) (g p) o)); [|by intros o p' [-> ?]; apply Hrest].
  apply sat_current_bind, CreateOrUpdate_sat; [|done|done]. intros a Hw. by eapply pcall_object; [exact Hcp|exact Hk|apply Ha].
Qed.

Lemma reconcileObjects_sat k p :
  same p → key_outcome kr k →
  SAT (λ res _, res = no_requeue ∧ provisioned k)
    (reconcileObjects env cp secretName secretKey k (pv_Status p0)) p.
Proof.
  intros Hs Hout. pose proof (same_known p Hs) as Hk. unfold reconcileObjects. cbv zeta. fold ref.
  eapply (sat_bind _ (λ secret p', p' = p ∧ stored env KSecret (new_secret (namespace, secretName))
    (key_secret p0 secretName secretKey (keyMaterial k)) secret)).
  { unfold ensureProvisionerKeySecret. apply sat_current_bind.
    assert (new_secret (object_key_of p secretName) = new_secret (namespace, secretName) ∧
      key_secret p secretName secretKey (keyMaterial k) = key_secret p0 secretName secretKey (keyMaterial k)) as [-> ->]
      by (by destruct Hs as [l ->]).
    apply CreateOrUpdate_sat; [|done|done]. intros a. by apply (pcall_secret cp token). }
  intros secret p' [-> Hsecret]. apply (sat_bind _ (λ v p', p' = p ∧ secret_Data secret !! secretKey = Some v ∧ v ≠ "")).
  { by apply secret_value_sat. }
  intros value p' (-> & Hv & Hne). apply sat_setCondition_bind; [done|]. intros l. apply sat_current_bind, sat_change_bind,
    sat_current_bind. set (p1 := with_status (with_conditions l) p). set (p2 := with_status (with_key k ref) p1).
  assert (known p2) as Hk2 by done.
  apply (sat_bind _ (λ _ p', known p' ∧ (pv_Status p1 = pv_Status p2 ∨
    pv_Status p1 ≠ pv_Status p2 ∧ ∃ sent q w w', env (AUpdateProvisionerStatus sent) w = (Ret q, w') ∧ pv_Status p' = pv_Status q))).
  { apply write_if_changed_sat; [done|intros ?; split; [done|by left]|]. intros q w w' ? Hup.
    split; [by eapply known_reply|]. right. split; [done|]. by exists p2, q, w, w'. }
  intros [] p3 [Hk3 Hsnap]. apply sat_current_bind.
  assert (let snapshot := if bool_decide (pv_Status p1 = pv_Status p2) then pv_Status p0 else pv_Status p3 in
    snapshot = pv_Status p0 ∨ ∃ sent q w w', env (AUpdateProvisionerStatus sent) w = (Ret q, w') ∧ snapshot = pv_Status q)
    as Hsn by (case_bool_decide; [by left|right; by destruct Hsnap as [?|[_ ?]]]).
  cbv zeta in Hsn. set (snapshot := if bool_decide _ then pv_Status p0 else _) in *. clearbody snapshot. clear Hsnap.
  set (name := provisionerResourceName (Name (pv_meta p3))). set (account := provisionerServiceAccountName (Name (pv_meta p3))).
  unfold reconcileServiceAccount, reconcileRole, reconcileRoleBinding, reconcileDeployment. fold name account.
  refine (object_bind _ _ _ _ _ _ _ Hk3 (object_account cp p3) _). intros sa Hsa.
  refine (object_bind _ _ _ _ _ _ _ Hk3 (object_role cp p3) _). intros role Hrole.
  refine (object_bind _ _ _ _ _ _ _ Hk3 (object_role_binding cp p3 _) _). intros rb Hrb.
  refine (object_bind _ _ _ _ _ _ _ Hk3 (λ a, object_deployment cp p3 value a Hne) _). intros d Hd.
  apply (sat_bind _ (λ _ _, status_settled k d)); [by apply reconcileStatus_sat|].
  intros [] p' Hst. apply sat_ret. split; [done|]. exists secret, value, p3, role, d.
  do 4 (split; [done|]). cbv zeta. split; [by exists sa|]. split; [done|]. split; [by exists rb|]. done.
Qed.
End key.

(** *** A live provisioner *)

Definition live_outcome (res : Result) : Prop :=
  (0 < RequeueAfter res)%Z ∨ res = no_requeue ∧ ∃ cp token k, plane_read cp ∧ token_read cp token ∧
    licensed cp token ∧ key_outcome (key_request_of p0 cp token) k ∧ provisioned cp k.

Lemma save_status_bind {A} (J : A → _) (f : () → step A) p :
  known p → (∀ p', known p' → SAT J (f tt) p') → SAT J (save_status env ≫= f) p.
Proof.
  intros Hk H. apply (sat_bind _ (λ _, known)); [|by intros [] p' ?; apply H].
  apply sat_save_status; [by apply pcall_status|done|done|intros; by eapply known_reply].
Qed.
Lemma save_if_changed_bind {A} (J : A → _) snapshot (f : () → step A) p :
  known p → (∀ p', known p' → SAT J (f tt) p') → SAT J (save_if_changed env snapshot ≫= f) p.
Proof.
  intros Hk H. apply (sat_bind _ (λ _, known)); [|by intros [] p' ?; apply H].
  apply sat_save_if_changed; [by apply pcall_status|done|done|intros; by eapply known_reply].
Qed.

(** From the entitlement on. *)
Lemma entitled_sat cp token p :
  same p → plane_read cp → token_read cp token →
  SAT (λ res _, live_outcome res)
    (entitled ← attempt (reconcileExternalProvisionerEntitlement env (Some p) (Some cp) token);
     match entitled with
     | inr err => _ ← save_if_changed env (pv_Status p0); throw err
     | inl result =>
         if (0 <? RequeueAfter result)%Z then _ ← save_if_changed env (pv_Status p0); mret result
         else
           k ← reconcileKey env render (key_request_of p0 cp token);
           reconcileObjects env cp secretName secretKey k (pv_Status p0)
     end) p.
Proof.
  intros Hs Hcp Ht. apply (sat_bind _ (λ x p', match x with
    | inl res => entitlement_sat cp token res p' | inr _ => known p' end)).
  { apply sat_attempt. eapply sat_mono; [by apply entitlement_run|done|done]. }
  intros [res|err] p'.
  - intros [Hs' Hl]. destruct (Z.ltb_spec 0 (RequeueAfter res)) as [Hpos|Hnot].
    + apply save_if_changed_bind; [by apply same_known|]. intros p'' _. apply sat_ret. by left.
    + destruct Hl as [|[_ Hlic]]; [lia|]. eapply sat_bind; [by apply reconcileKey_sat|].
      intros k p'' [Hs'' Hout]. eapply sat_mono; [by eapply (reconcileObjects_sat cp token)| |done].
      intros r q [-> Hp]. right. split; [done|]. by exists cp, token, k.
  - intros Hk. apply save_if_changed_bind; [done|]. intros p'' ?. by apply sat_throw.
Qed.

Lemma reconcileLive_sat : SAT (λ res _, live_outcome res) (reconcileLive env render (pv_Status p0)) p0.
Proof.
  unfold reconcileLive. apply (sat_bind _ (λ x p', match x with
    | inl cp => p' = p0 ∧ plane_read cp | inr _ => known p' end)).
  { apply sat_attempt. eapply sat_mono; [by apply fetchControlPlane_sat, same_fetched|done|done]. }
  intros [cp|err] p'.
  2: { intros Hk. apply sat_setCondition_bind; [done|]. intros l. apply save_status_bind; [done|].
       intros p'' ?. by apply sat_throw. }
  intros [-> Hcp]. apply sat_setCondition_bind; [apply same_known, same_fetched|]. intros l. apply sat_current_bind.
  set (p1 := with_status (with_conditions l) p0). assert (same p1) as Hs1 by by exists l.
  pose proof (same_known p1 Hs1) as Hk1.
  change (provisionerKeyConfig p1) with (provisionerKeyName p0, secretName, secretKey). cbv iota.
  apply sat_call_bind; [by apply only_readOperatorSessionToken|by apply same_known|].
  intros access st st' Hread. pose proof (readOperatorSessionToken_Ret _ _ _ _ _ Hs1 Hread) as [Hw|[Hw Ht]]; rewrite Hw.
  - rewrite (proj2 (Z.ltb_lt 0 _)) by done. apply sat_setCondition_bind; [by apply same_known|]. intros l'.
    apply save_status_bind; [done|]. intros p'' _. apply sat_ret. by left.
  - change (0 <? RequeueAfter no_requeue)%Z with false. cbv iota.
    apply sat_setCondition_bind; [by apply same_known|]. intros l'. apply sat_current_bind.
    apply entitled_sat; [by exists l'|done|done].
Qed.

(** *** Deletion *)

(** The control plane the deletion finds. *)
Let planeName := trim_space (pvs_ControlPlaneRef (pv_Spec p0)).
Definition deletion_plane cp : Prop :=
  (∃ w w', env (AGet CachedReader KControlPlane (namespace, planeName)) w = (Ret cp, w')) ∧
  key_of (cp_meta cp) = (namespace, planeName).

Inductive deletion_read : action → Prop :=
  | dread_plane : planeName ≠ "" → deletion_read (AGet CachedReader KControlPlane (namespace, planeName))
  | dread_token cp r : deletion_plane cp → OperatorTokenSecretRef (cp_Status cp) = Some r →
      deletion_read (AGet CachedReader KSecret (namespace, trim_space (sks_Name r))).

(** The key that was recorded, or else the one of the spec. *)
Inductive key_deletion : action → Prop :=
  | key_deleted cp token url : deletion_plane cp → token_read cp token → url ≠ "" →
      url = recorded (pst_ControlPlaneURL (pv_Status p0)) (trim_space (URL (cp_Status cp))) →
      key_deletion (ADeleteProvisionerKey url token
        (recorded (pst_OrganizationName (pv_Status p0))
           (provisionerOrganizationName (pvs_OrganizationName (pv_Spec p0))))
        (recorded (pst_ProvisionerKeyName (pv_Status p0)) (provisionerKeyName p0))).

(** The update that lets the provisioner go. *)
Definition release : action :=
  AUpdate KProvisioner (with_meta (RemoveFinalizer (pv_meta p0) ProvisionerKeyCleanupFinalizer) p0).
(** The API server answered with an object that was not asked for. *)
Definition foreign_plane : Prop := ∃ (cp : CoderControlPlane) w w',
  env (AGet CachedReader KControlPlane (namespace, planeName)) w = (Ret cp, w') ∧
  key_of (cp_meta cp) ≠ (namespace, planeName).

Lemma deletionControlPlane_run st :
  let '(o, (st', p')) := deletionControlPlane env p0 (st, p0) in
  p' = p0 ∧ ∃ reads, made reads st st' ∧ Forall deletion_read reads ∧
    match o with Ret (Some cp) => deletion_plane cp | Err _ => foreign_plane | _ => True end.
Proof.
  unfold deletionControlPlane. cbv zeta. fold planeName.
  destruct (String.eqb_spec planeName "") as [|Hne].
  { split; [done|]. exists []. by split; [apply made_nil|]. }
  set (a := AGet CachedReader KControlPlane (namespace, planeName)).
  unfold mbind, M_bind, attempt, call, act. cbn [fst snd]. fold namespace a.
  assert (made [a] st (KSt (env a (k_world st)).2 (k_trace st ++ [a])) ∧ Forall deletion_read [a]) as [Hm Hr]
    by (split; [done|constructor; [by constructor|constructor]]).
  destruct (env a (k_world st)) as [[cp|e|e] w] eqn:E; cbn [snd] in Hm; [|by split; [|exists [a]]..].
  unfold guard_err, lift, fail_if. destruct (_ || _) eqn:Hk.
  - split; [done|]. exists [a]. do 2 (split; [done|]). exists cp, (k_world st), w. split; [exact E|].
    unfold key_of. intros [= Hns Hn]. rewrite Hns, Hn in Hk. unfold namespace in Hk. by rewrite !String.eqb_refl in Hk.
  - split; [done|]. exists [a]. do 2 (split; [done|]).
    apply orb_false_iff in Hk as [H1%negb_false_iff%String.eqb_eq H2%negb_false_iff%String.eqb_eq].
    split; [by exists (k_world st), w|]. unfold key_of, namespace. by rewrite H1, H2.
Qed.

Lemma token_reads cp :
  deletion_plane cp → only deletion_read (readOperatorSessionToken env render (Some p0) (Some cp)).
Proof.
  intros Hcp. unfold readOperatorSessionToken. cbv zeta.
  destruct (OperatorAccessReady _); cbn [negb]; [|apply only_ret].
  destruct (OperatorTokenSecretRef _) as [r|] eqn:Hr; [|apply only_ret].
  destruct (String.eqb _ _); [apply only_ret|].
  apply only_bind; [|intros [?|?]; apply only_ret]. apply only_attempt. unfold readProvisionerSecretValue.
  apply only_bind; [only_call; by eapply dread_token|]. intros secret.
  destruct (secret_Data _ !! _); [destruct (String.eqb _ _); [apply only_throw|apply only_ret]|apply only_throw].
Qed.

Lemma deleteRemoteKey_run ocp st :
  match ocp with Some cp => deletion_plane cp | None => True end →
  let '(o, (st', p')) := deleteRemoteKey env render p0 ocp (st, p0) in
  p' = p0 ∧ ∃ reads del, made (reads ++ del) st st' ∧ Forall deletion_read reads ∧
    (del = [] ∨ ∃ a, del = [a] ∧ key_deletion a) ∧ match o with Err _ => False | _ => True end.
Proof.
  intros Hcp. assert (∀ o : result (), match o with Err _ => False | _ => True end →
    p0 = p0 ∧ ∃ reads del, made (reads ++ del) st st ∧ Forall deletion_read reads ∧
      (del = [] ∨ ∃ a, del = [a] ∧ key_deletion a) ∧ match o with Err _ => False | _ => True end) as Hnone.
  { intros o Ho. split; [done|]. exists [], []. split; [apply made_nil|]. by split; [|split; [left|]]. }
  unfold deleteRemoteKey. cbv zeta. destruct ocp as [cp|]; [|by apply (Hnone (Ret tt))].
  fold (recorded (pst_ControlPlaneURL (pv_Status p0)) (trim_space (URL (cp_Status cp)))).
  set (url := recorded _ _). destruct (String.eqb_spec url "") as [|Hurl]; [by apply (Hnone (Ret tt))|].
  destruct (token_reads cp Hcp st) as (reads & Hm & Hr).
  unfold mbind, M_bind, attempt at 1, call at 1. cbn [fst snd].
  destruct (readOperatorSessionToken env render (Some p0) (Some cp) st) as [[access|e|e] s1] eqn:E.
  2, 3: split; [done|]; exists reads, []; rewrite app_nil_r; by (split; [|split; [|split; [left|]]]).
  cbn [snd] in Hm. pose proof (readOperatorSessionToken_Ret _ _ _ _ _ same_fetched E) as [Hw|[Hw Ht]]; rewrite Hw.
  { split; [done|]. exists reads, []. rewrite app_nil_r. by (split; [|split; [|split; [left|]]]). }
  cbn [RequeueAfter no_requeue]. change (0 <? 0)%Z with false. cbv iota.
  set (a := ADeleteProvisionerKey url (tr_token access) _ _).
  assert (key_deletion a) as Ha by (by eapply key_deleted).
  unfold attempt, call, act. cbn [fst snd].
  assert (made (reads ++ [a]) st (KSt (env a (k_world s1)).2 (k_trace s1 ++ [a]))) as Hma by (by eapply made_trans).
  destruct (env a (k_world s1)) as [[u|e|e] w]; (split; [done|]); exists reads, [a];
    (split; [exact Hma|]); (split; [done|]); (split; [right; by exists a|done]).
Qed.

(** What a run of the deletion did, and how it ended: whatever coderd answers to
    the deletion of the key, the finalizer is removed, and success means that
    the removal was accepted; an error without the removal is that of an API
    server that answered with another control plane. *)
Definition deletion_run (o : result Result) (acts : list action) : Prop :=
  ∃ reads del last, acts = reads ++ del ++ last ∧ Forall deletion_read reads ∧
    (del = [] ∨ ∃ a, del = [a] ∧ key_deletion a) ∧
    match o with
    | Ret res => res = no_requeue ∧ last = [release] ∧ ∃ q w w', env release w = (Ret q, w')
    | Err _ => last = [release] ∨ last = [] ∧ del = [] ∧ foreign_plane
    | Panic _ => last = [] ∨ last = [release]
    end.

Lemma release_run st p :
  let '(o, (st', _)) := removeCleanupFinalizer env p0 (st, p) in
  made [release] st st' ∧ ∀ res, o = Ret res → res = no_requeue ∧ ∃ q w w', env release w = (Ret q, w').
Proof.
  unfold removeCleanupFinalizer, mbind, M_bind, map_err, replace, put, change, call, act, mbind, M_bind.
  cbn [fst snd]. fold release.
  destruct (env release (k_world st)) as [[q|e|e] w] eqn:E; (split; [done|]); [|done|done].
  intros res [= <-]. split; [done|]. by exists q, (k_world st), w.
Qed.

Lemma reconcileDeletion_run st :
  ContainsFinalizer (pv_meta p0) ProvisionerKeyCleanupFinalizer = true →
  let '(o, (st', _)) := reconcileDeletion env render (st, p0) in
  ∃ acts, made acts st st' ∧ deletion_run o acts.
Proof.
  intros Hf. unfold reconcileDeletion. unfold mbind at 1, M_bind at 1, current. cbn [snd]. rewrite Hf. cbn [negb].
  pose proof (deletionControlPlane_run st) as H1. unfold mbind at 1, M_bind at 1.
  destruct (deletionControlPlane env p0 (st, p0)) as [[ocp|e|e] [s1 p1]]; destruct H1 as (-> & reads & Hm & Hr & Ho).
  2, 3: exists reads; (split; [done|]); exists reads, [], []; rewrite !app_nil_r;
    (split; [done|split; [done|split; [by left|]]]); by auto.
  assert (match ocp with Some cp => deletion_plane cp | None => True end) as Hocp by (by destruct ocp).
  pose proof (deleteRemoteKey_run ocp s1 Hocp) as H2. unfold mbind at 1, M_bind at 1.
  destruct (deleteRemoteKey env render p0 ocp (s1, p0)) as [[u|e|e] [s2 p2]];
    destruct H2 as (-> & reads2 & del & Hm2 & Hr2 & Hdel & Ho2); [|done|].
  2: { exists (reads ++ reads2 ++ del). split; [by eapply made_trans|]. exists (reads ++ reads2), del, [].
       rewrite app_nil_r, app_assoc. split; [done|]. split; [by apply Forall_app|]. split; [done|by left]. }
  pose proof (release_run s2 p0) as H3.
  destruct (removeCleanupFinalizer env p0 (s2, p0)) as [o [s3 p3]]. destruct H3 as [Hm3 Hres].
  exists (reads ++ (reads2 ++ del) ++ [release]). split; [by eapply made_trans; [|eapply made_trans]|].
  exists (reads ++ reads2), del, [release]. rewrite <-!app_assoc. split; [done|]. split; [by apply Forall_app|].
  split; [done|]. destruct o as [res|e|e]; [|by left|by right]. destruct (Hres res eq_refl) as [-> ?]. done.
Qed.
(** *** The finalizer *)

Definition add_finalizer : action :=
  AUpdate KProvisioner (with_meta (AddFinalizer (pv_meta p0) ProvisionerKeyCleanupFinalizer) p0).

Lemma ensureCleanupFinalizer_run st :
  let '(o, (st', p')) := ensureCleanupFinalizer env (st, p0) in
  if ContainsFinalizer (pv_meta p0) ProvisionerKeyCleanupFinalizer then o = Ret false ∧ st' = st ∧ p' = p0
  else made [add_finalizer] st st' ∧
    match o with Ret b => b = true ∧ ∃ q w w', env add_finalizer w = (Ret q, w') | _ => True end.
Proof.
  unfold ensureCleanupFinalizer, mbind at 1, M_bind at 1, current. cbn [snd].
  destruct (ContainsFinalizer _ _); [done|]. cbv zeta. fold add_finalizer.
  unfold mbind, M_bind, map_err, replace, put, change, call, act, mbind, M_bind. cbn [fst snd].
  destruct (env add_finalizer (k_world st)) as [[q|e|e] w] eqn:E; (split; [done|]); [|done|done].
  split; [done|]. by exists q, (k_world st), w.
Qed.

(** *** One object *)

Definition deleting : bool :=
  negb (match DeletionTimestamp (pv_meta p0) with None => true | Some t => time_IsZero t end).
Definition finalized : bool := ContainsFinalizer (pv_meta p0) ProvisionerKeyCleanupFinalizer.

(** The calls of a reconciliation after the object was read, and its outcome as
    far as they go together. *)
Definition object_calls (o : result Result) (acts : list action) : Prop :=
  match deleting, finalized with
  | true, true => deletion_run o acts
  | true, false => acts = [] ∧ o = Ret no_requeue
  | false, true => Forall provisioner_call acts
  | false, false => acts = [add_finalizer]
  end.
(** What a reconciliation has achieved that returns [res]. *)
Definition object_outcome (res : Result) : Prop :=
  match deleting, finalized with
  | true, true => res = no_requeue ∧ ∃ q w w', env release w = (Ret q, w')
  | true, false => res = no_requeue
  | false, true => live_outcome res
  | false, false => res = no_requeue ∧ ∃ q w w', env add_finalizer w = (Ret q, w')
  end.

(** [reconcileBody] from the object on. *)
Definition reconcile_object : step Result :=
  if deleting then reconcileDeletion env render
  else
    added ← ensureCleanupFinalizer env;
    if added : bool then mret no_requeue else reconcileLive env render (pv_Status p0).

Lemma reconcile_object_run st :
  let '(o, (st', _)) := reconcile_object (st, p0) in
  (∃ acts, made acts st st' ∧ object_calls o acts) ∧ ∀ res, o = Ret res → object_outcome res.
Proof.
  unfold reconcile_object, object_calls, object_outcome. destruct deleting.
  - destruct finalized eqn:Hf.
    + pose proof (reconcileDeletion_run st Hf) as H. destruct (reconcileDeletion env render (st, p0)) as [o [st' p']].
      destruct H as (acts & Hm & Hrun). split; [by exists acts|]. intros res ->.
      by destruct Hrun as (? & ? & ? & _ & _ & _ & -> & _ & Hacc).
    + unfold reconcileDeletion, mbind at 1, M_bind at 1, current. cbn [snd].
      unfold finalized in Hf. rewrite Hf. cbn [negb]. split; [exists []; by split; [apply made_nil|split]|].
      by intros res [= <-].
  - pose proof (ensureCleanupFinalizer_run st) as H. unfold mbind, M_bind. fold finalized in H.
    destruct (ensureCleanupFinalizer env (st, p0)) as [o [st' p']]. destruct finalized.
    + destruct H as (-> & -> & ->). cbv iota. pose proof (reconcileLive_sat st) as H.
      destruct (reconcileLive env render (pv_Status p0) (st, p0)) as [o [s1 p1]]. destruct H as [Hm Ho].
      split; [exact Hm|]. by intros res ->.
    + destruct H as [Hm Ho]. destruct o as [b|e|e]; [destruct Ho as [-> Hacc]|..];
        (split; [by exists [add_finalizer]|]); [by intros res [= <-]|done|done].
Qed.
End provisioner_properties.

(** ** Reconcile *)

Section provisioner_reconcile.
Context {W : Type} (env : ∀ a : action, M W goerror (reply a)) `{!HasClock W} (render : text → string).
Context (req : object_key).

Definition found (p0 : CoderProvisioner) : Prop :=
  (∃ w w', env (AGet CachedReader KProvisioner req) w = (Ret p0, w')) ∧ key_of (pv_meta p0) = req.

(** The read gave an error or another object. *)
Definition not_found : Prop := ∃ w answer w', env (AGet CachedReader KProvisioner req) w = (answer, w') ∧
  ∀ p0, answer = Ret p0 → key_of (pv_meta p0) ≠ req.

(** The calls of a reconciliation: the object is read first, and nothing else is
    done unless it is the requested one. *)
Definition body_calls (o : result Result) (acts : list action) : Prop :=
  ∃ rest, acts = AGet CachedReader KProvisioner req :: rest ∧
    (rest = [] ∧ not_found ∨ ∃ p0, found p0 ∧ object_calls env p0 o rest).
Definition body_outcome (res : Result) : Prop :=
  (res = no_requeue ∧ ∃ w e w', env (AGet CachedReader KProvisioner req) w = (Err e, w') ∧ IsNotFound e = true) ∨
  ∃ p0, found p0 ∧ object_outcome env p0 res.

Lemma reconcileBody_run st p :
  let '(o, (st', _)) := reconcileBody env render req (st, p) in
  (∃ acts, made acts st st' ∧ body_calls o acts) ∧ ∀ res, o = Ret res → body_outcome res.
Proof.
  unfold reconcileBody, mbind at 1, M_bind at 1, attempt, call, act. cbn [fst snd].
  set (a := AGet CachedReader KProvisioner req).
  assert (∀ o w, not_found → ∃ acts, made acts st (KSt w (k_trace st ++ [a])) ∧ body_calls o acts) as Hread.
  { intros o w Hn. exists [a]. split; [done|]. exists []. by split; [|left]. }
  destruct (env a (k_world st)) as [[p0|err|e] w] eqn:E.
  3: { split; [|done]. apply Hread. by eexists _, _, _; split; [exact E|]. }
  2: { assert not_found as Hno by (eexists _, _, _; split; [exact E|done]). destruct (IsNotFound err) eqn:Hn; (split; [by apply Hread|]); [|done]. intros res [= <-]. left.
       split; [done|]. by exists (k_world st), err, w. }
  cbn in p0. cbv zeta. unfold put, change, mbind, M_bind, guard_err, lift, fail_if. cbn [fst snd].
  destruct (_ || _) eqn:Hk.
  { split; [apply Hread|done]. eexists _, _, _. split; [exact E|]. intros ? [= <-] Hkey.
    rewrite <-Hkey in Hk. unfold key_of in Hk. cbn [fst snd] in Hk. by rewrite !String.eqb_refl in Hk. }
  apply orb_false_iff in Hk as [Hn%negb_false_iff%String.eqb_eq Hns%negb_false_iff%String.eqb_eq].
  assert (found p0) as Hfound.
  { split; [by exists (k_world st), w|]. unfold key_of. rewrite Hn, Hns. by destruct req. }
  set (s1 := KSt w (k_trace st ++ [a])).
  pose proof (reconcile_object_run env render p0 s1) as H. unfold reconcile_object, deleting, mbind, M_bind in H.
  destruct (if negb _ then _ else _) as [o [st' p']]. destruct H as [(rest & Hm & Hc) Ho]. split.
  - exists (a :: rest). split; [apply (made_trans [a] rest st s1); [done|exact Hm]|].
    exists rest. split; [done|]. right. by exists p0.
  - intros res ->. right. exists p0. split; [done|by apply Ho].
Qed.

(** *** The deferred function *)

Context `{!HasRand W}.

(** What the rate limit leaves in the status of [p], and whether it is sent. *)
Definition limited (now : time) (p : CoderProvisioner) : CoderProvisioner :=
  with_status (λ s, with_conditions (SetStatusCondition now (pst_Conditions s)
    (new_condition (Generation (pv_meta p)) CoderProvisionerConditionProvisionerKeyReady ConditionFalse
       "RateLimited" "Coder API rate limited while reconciling provisioner key")) s) p.
Definition late_calls (p : CoderProvisioner) (late : list action) : Prop :=
  late = [] ∨ ∃ now, late = [AUpdateProvisionerStatus (limited now p)].

Lemma recordRateLimit_run st p :
  let '(o, (st', _)) := recordRateLimit env (st, p) in
  (∃ late, made late st st' ∧ late_calls p late) ∧ ∀ e, o ≠ Err e.
Proof.
  unfold recordRateLimit, setCondition, save_if_changed, save_status, update_status, replace, put, change, current,
    attempt, call, act, Now, mbind, M_bind. cbn [fst snd].
  destruct (tick (k_world st)) as [t w]. cbn [fst snd]. fold (limited t p).
  case_bool_decide; cbn [fst snd k_world k_trace].
  { split; [|done]. exists []. split; [by unfold made; rewrite app_nil_r|by left]. }
  destruct (env (AUpdateProvisionerStatus (limited t p)) w) as [[q|e|e] w'];
    (split; [exists [AUpdateProvisionerStatus (limited t p)]; by split; [|right; exists t]|done]).
Qed.

Lemma draw_run st : ∃ random w, draw req st = (Ret random, KSt w (k_trace st)).
Proof.
  unfold draw, RandomBytes. destruct (_ || _); [exists None, (k_world st); by destruct st|].
  destruct (random_bytes (k_world st)) as [random w]. by exists random, w.
Qed.

(** What the deferred function makes of the body's outcome. *)
Inductive deferred_outcome (attempts : gmap string Z) : outcome goerror Result → list action → outcome goerror Result →
    gmap string Z → Prop :=
  | deferred_done res : RequeueAfter res = 0%Z → deferred_outcome attempts (Ret res) [] (Ret res)
      (resetProvisionerRateLimitBackoff attempts req)
  | deferred_again res : RequeueAfter res ≠ 0%Z → deferred_outcome attempts (Ret res) [] (Ret res) attempts
  | deferred_panic e : deferred_outcome attempts (Panic e) [] (Panic e) (resetProvisionerRateLimitBackoff attempts req)
  | deferred_error err : IsRateLimitError err = false →
      deferred_outcome attempts (Err err) [] (Err err) (resetProvisionerRateLimitBackoff attempts req)
  | deferred_limited err random delay attempts' p late o : IsRateLimitError err = true →
      nextProvisionerRateLimitBackoff attempts req random = (delay, attempts') → late_calls p late →
      (o = Ret (requeue_after delay) ∨ panicked_answer env ∧ ∃ e, o = Panic e) →
      deferred_outcome attempts (Err err) late o attempts'.

Lemma deferred_run st attempts :
  let '(o, (st', attempts')) := deferred env req (reconcileBody env render req) (st, attempts) in
  let body := (reconcileBody env render req (st, empty_provisioner)).1 in
  ∃ acts late, made (acts ++ late) st st' ∧ body_calls body acts ∧
    (∀ res, body = Ret res → body_outcome res) ∧ deferred_outcome attempts body late o attempts'.
Proof.
  unfold deferred. cbn [fst snd]. pose proof (reconcileBody_run st empty_provisioner) as H.
  destruct (reconcileBody env render req (st, empty_provisioner)) as [o [s1 p]].
  destruct H as [(acts & Hm & Hc) Ho]. cbn [fst].
  destruct o as [res|err|e].
  - exists acts, []. rewrite app_nil_r. do 3 (split; [done|]).
    destruct (Z.eqb_spec (RequeueAfter res) 0); by constructor.
  - destruct (IsRateLimitError err) eqn:Hr; cbn [negb].
    + destruct (draw_run s1) as (random & w & Hd). rewrite Hd.
      destruct (nextProvisionerRateLimitBackoff attempts req random) as [delay attempts'] eqn:Hnext.
      pose proof (recordRateLimit_run (KSt w (k_trace s1)) p) as H.
      pose proof (blames_run env (recordRateLimit env) (KSt w (k_trace s1), p)) as Hblame.
      destruct (recordRateLimit env (KSt w (k_trace s1), p)) as [o [s2 p2]]. destruct H as [(late & Hm2 & Hl) Hne].
      specialize (Hblame o (s2, p2) (blames_recordRateLimit env) eq_refl). exists acts, late. split; [exact (made_trans acts late st (KSt w (k_trace s1)) s2 Hm Hm2)|].
      do 2 (split; [done|]). eapply deferred_limited; [done|done|exact Hl|].
      destruct o as [u|e|e]; [by left|by destruct (Hne e)|right; split; [done|by exists e]].
    + exists acts, []. rewrite app_nil_r. do 3 (split; [done|]). by constructor.
  - exists acts, []. rewrite app_nil_r. do 3 (split; [done|]). constructor.
Qed.

Lemma deferred_late attempts body late o attempts' :
  deferred_outcome attempts body late o attempts' → ∃ p, late_calls p late.
Proof. destruct 1; [exists empty_provisioner; by left..|by exists p]. Qed.

Lemma next_delay attempts random :
  (1 * second ≤ (nextProvisionerRateLimitBackoff attempts req random).1 ≤ 120 * second)%Z.
Proof.
  unfold nextProvisionerRateLimitBackoff. destruct (_ || _); [by unfold second|apply jittered_backoff_bounds].
Qed.

Lemma reset_other attempts k :
  k ≠ attempts_key req → resetProvisionerRateLimitBackoff attempts req !! k = attempts !! k.
Proof. intros Hk. unfold resetProvisionerRateLimitBackoff. destruct (_ || _); [done|by rewrite lookup_delete_ne]. Qed.
Lemma reset_mine attempts :
  req.1 ≠ "" → req.2 ≠ "" → resetProvisionerRateLimitBackoff attempts req !! attempts_key req = None.
Proof.
  intros H1 H2. unfold resetProvisionerRateLimitBackoff.
  rewrite (proj2 (String.eqb_neq _ _) H1), (proj2 (String.eqb_neq _ _) H2). apply lookup_delete_eq.
Qed.
Lemma next_other attempts random delay attempts' k :
  nextProvisionerRateLimitBackoff attempts req random = (delay, attempts') → k ≠ attempts_key req →
  attempts' !! k = attempts !! k.
Proof.
  unfold nextProvisionerRateLimitBackoff. destruct (_ || _); [by intros [= _ <-]|].
  intros [= _ <-] Hk. by rewrite lookup_insert_ne.
Qed.

(** A reconciler without one of its collaborators does nothing. *)
Definition complete (r : provisioner_reconciler) : bool :=
  pvr_Client r && pvr_Scheme r && pvr_BootstrapClient r.
Lemma Reconcile_incomplete r s :
  complete r = false → ∃ text, Reconcile env render r req s = (Err (assertion text), s).
Proof. destruct r as [[] [] []]; [done|..]; intros _; eexists; reflexivity. Qed.
Lemma Reconcile_complete r s :
  complete r = true → Reconcile env render r req s = deferred env req (reconcileBody env render req) s.
Proof. by destruct r as [[] [] []]. Qed.
End provisioner_reconcile.

(** The calls of a reconciliation, whatever it comes to. *)
Definition run_calls {W} (env : ∀ a : action, M W goerror (reply a)) `{!HasClock W} `{!HasRand W}
    (r : provisioner_reconciler) (req : object_key) (attempts : gmap string Z) (acts late : list action)
    (o : result Result) (attempts' : gmap string Z) : Prop :=
  acts = [] ∧ late = [] ∧ complete r = false ∨
  ∃ body, body_calls env req body acts ∧ deferred_outcome env req attempts body late o attempts' ∧
    ∀ e, body = Panic e → panicked_answer env.

Lemma provisioner_run {W} (env : ∀ a : action, M W goerror (reply a)) `{!HasClock W} `{!HasRand W}
    (render : text → string) (r : provisioner_reconciler) (req : object_key) (st : kst W) (attempts : gmap string Z) :
  let '(o, (st', attempts')) := Reconcile env render r req (st, attempts) in
  ∃ acts late, made (acts ++ late) st st' ∧ run_calls env r req attempts acts late o attempts'.
Proof.
  destruct (complete r) eqn:Hr.
  - rewrite Reconcile_complete by done. pose proof (deferred_run env render req st attempts) as H.
    pose proof (blames_reconcileBody env render req (st, empty_provisioner)) as Hblame.
    destruct (deferred env req _ _) as [o [st' attempts']]. cbv zeta in H.
    destruct H as (acts & late & Hm & Hc & _ & Hd). exists acts, late. split; [done|]. right.
    eexists. split; [exact Hc|]. split; [exact Hd|]. intros e He. by rewrite He in Hblame.
  - destruct (Reconcile_incomplete env render req r (st, attempts) Hr) as [text ->].
    exists [], []. split; [apply made_nil|by left].
Qed.


(** C3: a reconciliation that succeeds and asks for no other has brought the
    provisioner to its spec: the object is gone; or it was being deleted and its
    finalizer was removed; or its finalizer was added; or the control plane and
    its token were read, external provisioners are licensed, the key is the one
    the spec describes, and the secret, the account, the permissions and the
    deployment were accepted as specified, the deployment with the checksum of
    the key in the secret, and the status records it all ([provisioned]). *)
Theorem provisioner_converges {W} (env : ∀ a : action, M W goerror (reply a)) `{!HasClock W} `{!HasRand W}
    (render : text → string) (r : provisioner_reconciler) (req : object_key) (st : kst W) (attempts : gmap string Z) :
  let '(o, _) := Reconcile env render r req (st, attempts) in
  ∀ res, o = Ret res → RequeueAfter res = 0%Z → body_outcome env req res.
Proof.
  destruct (complete r) eqn:Hr.
  - rewrite Reconcile_complete by done. pose proof (deferred_run env render req st attempts) as H.
    destruct (deferred env req _ _) as [o [st' attempts']]. cbv zeta in H.
    destruct H as (acts & late & _ & _ & Ho & Hd). intros res -> Hz.
    inversion Hd as [| | | |err random delay m p l o _ Hnext _ Hret]; subst; auto.
    destruct Hret as [[= ->]|[_ [e [=]]]]. pose proof (next_delay req attempts random) as Hb.
    rewrite Hnext in Hb. cbn in Hb, Hz. subst. unfold second in Hb. lia.
  - destruct (Reconcile_incomplete env render req r (st, attempts) Hr) as [text ->]. done.
Qed.

(** C35: the reaction to coderd's rate limit, by the outcome of [reconcileBody],
    the body whose error [Reconcile] looks at.  If that is an error with the
    rate limit in its chain, then some call was answered with the rate limit,
    the attempt is counted, and [Reconcile] asks to be called again after the
    delay of this attempt: two seconds, doubled for every attempt that was
    counted before, up to two minutes, then spread by the random jitter, and in
    any case between one second and two minutes.  Any other error is returned
    and forgets the attempts; so does a success that asks for no other call,
    while one that does leaves them alone.  A panic is the answer to a call.
    The attempts of other provisioners are never touched. *)
Theorem provisioner_rate_limit {W} (env : ∀ a : action, M W goerror (reply a)) `{!HasClock W} `{!HasRand W}
    (render : text → string) (r : provisioner_reconciler) (req : object_key) (st : kst W) (attempts : gmap string Z) :
  let '(o, (_, attempts')) := Reconcile env render r req (st, attempts) in
  let mine := attempts_key req in
  let n := default 0%Z (attempts !! mine) in
  (∀ k, k ≠ mine → attempts' !! k = attempts !! k) ∧
  (complete r = true → req.1 ≠ "" → req.2 ≠ "" → (0 ≤ n < int64_max)%Z →
   match (reconcileBody env render req (st, empty_provisioner)).1 with
   | Ret res => o = Ret res ∧ if Z.eqb (RequeueAfter res) 0 then attempts' !! mine = None else attempts' = attempts
   | Err err =>
       if IsRateLimitError err
       then limited_answer env ∧ attempts' !! mine = Some (n + 1)%Z ∧
            ∃ random, let delay := jittered_backoff (Z.min (120 * second) (2 * second * 2 ^ n)) random in
              (1 * second ≤ delay ≤ 120 * second)%Z ∧
              (o = Ret (requeue_after delay) ∨ panicked_answer env ∧ ∃ e, o = Panic e)
       else o = Err err ∧ attempts' !! mine = None
   | Panic e => o = Panic e ∧ panicked_answer env ∧ attempts' !! mine = None
   end).
Proof.
  destruct (complete r) eqn:Hr.
  2: { destruct (Reconcile_incomplete env render req r (st, attempts) Hr) as [text ->]. done. }
  rewrite Reconcile_complete by done. pose proof (deferred_run env render req st attempts) as H.
  pose proof (blames_reconcileBody env render req (st, empty_provisioner)) as Hblame.
  destruct (deferred env req _ _) as [o [st' attempts']]. cbv zeta in H.
  destruct H as (acts & late & _ & _ & _ & Hd). cbv zeta. split.
  - intros k Hk. destruct Hd; [by apply reset_other|done|by apply reset_other|by apply reset_other|].
    by eapply next_other.
  - intros _ H1 H2 Hn. destruct Hd as [res Hz|res Hz|e|err Herr|err random delay attempts' p late o Herr Hnext _ Ho].
    + split; [done|]. rewrite (proj2 (Z.eqb_eq _ _) Hz). by apply reset_mine.
    + split; [done|]. by rewrite (proj2 (Z.eqb_neq _ _) Hz).
    + split; [done|]. split; [exact Hblame|]. by apply reset_mine.
    + rewrite Herr. split; [done|]. by apply reset_mine.
    + rewrite Herr. split; [by apply Hblame|].
      pose proof (rate_limit_backoff attempts req random _ (conj H1 H2) eq_refl Hn) as Hb. rewrite Hnext in Hb.
      destruct Hb as (Hrange & Hdelay & -> & _). split; [by rewrite lookup_insert_eq|].
      exists random. cbv zeta. rewrite <-Hdelay. by split.
Qed.

(** ** A concrete cluster *)

(** A cluster with one provisioner, its control plane and the operator's token,
    in which every object can be made; [limit] is whether coderd refuses to make
    the key because of its rate limit. *)
Definition example_provisioner : CoderProvisioner := with_meta
  {| Name := "prov"; Namespace := "ns"; UID := "uid-2"; ResourceVersion := "7"; CreationTimestamp := time_zero;
     Generation := 1; Labels := ∅; Annotations := ∅; OwnerReferences := [];
     Finalizers := [ProvisionerKeyCleanupFinalizer]; DeletionTimestamp := None |}
  {| pv_meta := empty_meta; pv_Status := pv_Status empty_provisioner;
     pv_Spec := {| pvs_ControlPlaneRef := "coder"; pvs_OrganizationName := "";
       pvs_Key := {| pk_Name := ""; pk_SecretName := ""; pk_SecretKey := "" |};
       pvs_Replicas := None; pvs_Tags := {["scope" := "org"]}; pvs_Image := ""; pvs_ExtraArgs := []; pvs_ExtraEnv := [];
       pvs_Resources := None; pvs_ImagePullSecrets := []; pvs_TerminationGracePeriodSeconds := None |} |}.

Definition missing : goerror := StatusErr (NewNotFound (GroupResource "" "objects") "object").

Definition example_env (limit : bool) (a : action) : M () goerror (reply a) := λ w,
  match a with
  | AGet _ k key =>
      match k return outcome goerror (obj k) * () with
      | KProvisioner => (Ret example_provisioner, w)
      | KControlPlane => (Ret (example_cp "ns" "coder" true), w)
      | KSecret =>
          if String.eqb key.2 "tok"
          then (Ret {| secret_meta := meta_of_key key; secret_Type := ""; secret_Data := {["token" := "operator"]} |}, w)
          else (Err missing, w)
      | _ => (Err missing, w)
      end
  | ACreate _ o => (Ret o, w)
  | AUpdateProvisionerStatus p => (Ret p, w)
  | AEntitlements _ _ => (Ret {| ent_Features := Some {[FeatureExternalProvisionerDaemons := EntitlementEntitled]};
                                 ent_HasLicense := true; ent_Trial := false |}, w)
  | AEnsureProvisionerKey req =>
      if limit then (Err (Errorf "create key: %w" [FErrW (SDKErr (SdkError 429 "" ""))]), w)
      else (Ret {| epr_OrganizationID := 1%Z; epr_KeyID := 2%Z; epr_KeyName := epk_KeyName req; epr_Key := "plain" |}, w)
  | _ => (Err missing, w)
  end.
#[local] Instance example_clock : HasClock () := λ w, (5%Z, w).
#[local] Instance example_rand : HasRand () := λ w, (None, w).

Definition example_run (limit : bool) (attempts : gmap string Z) :=
  Reconcile (example_env limit) (λ _, "text") {| pvr_Client := true; pvr_Scheme := true; pvr_BootstrapClient := true |}
    ("ns", "prov") (KSt tt [], attempts).

(** There the provisioner is brought to its spec, with a key for it. *)
Example provisioner_runs :
  let '(o, (st, attempts)) := example_run false {["ns/prov" := 3%Z]} in
  o = Ret no_requeue ∧ attempts = ∅ ∧
  AEnsureProvisionerKey {| epk_CoderURL := " http://coder "; epk_SessionToken := "operator";
    epk_OrganizationName := "default"; epk_KeyName := "prov"; epk_Tags := {["scope" := "org"]} |} ∈ k_trace st.
Proof. vm_compute. split; [done|]. split; [done|]. repeat (apply list_elem_of_here || apply list_elem_of_further). Qed.

(** With the rate limit, the fourth time, the next attempt is in sixteen
    seconds. *)
Example provisioner_backs_off :
  let '(o, (_, attempts)) := example_run true {["ns/prov" := 3%Z; "ns/other" := 1%Z]} in
  o = Ret (requeue_after (16 * second)) ∧ attempts = {["ns/prov" := 4%Z; "ns/other" := 1%Z]}.
Proof. vm_compute. done. Qed.


End ProvisionerReconcile.
