(* ===== verification/ProvisionerTriggers.v ===== *)
(** * ProvisionerTriggers: which provisioners a changed control plane concerns

    The field index over provisioners and the mapping of a changed control plane
    to reconcile requests, of internal/controller/coderprovisioner_controller.go. *)

From S2P Require Import Prelude GoStd GoStdFacts StringFacts GoErrors ApiTypes KubeObjects Kube ControlPlaneNames Triggers Provisioner.

#[local] Open Scope string_scope.
#[local] Open Scope list_scope.

Module ProvisionerTriggers.
Import ControlPlaneNames Triggers.

Definition provisionerControlPlaneRefNameFieldIndex := ".spec.controlPlaneRef.name".

Definition indexProvisionerByControlPlaneRefName (p : CoderProvisioner) : list string :=
  let controlPlaneName := trim_space (pvs_ControlPlaneRef (pv_Spec p)) in
  if String.eqb controlPlaneName "" then [] else [controlPlaneName].

Section requests.
Context {W : Type} (env : ∀ a : action, M W goerror (reply a)).

(** The mapping for a control plane; the watch delivers no other objects, and
    the code would answer them with no request. *)
Definition reconcileRequestsForControlPlane (cp : CoderControlPlane) : reconciliation (W:=W) (list object_key) :=
  let m := cp_meta cp in
  if blank (Name m) || blank (Namespace m) then mret []
  else
    listed ← attempt (act env (AListProvisioners (Namespace m) provisionerControlPlaneRefNameFieldIndex (Name m)));
    match listed with
    | inr _ => mret []
    | inl provisioners =>
        mret (List.filter (λ request, negb (blankRequest request))
                (map (λ p, key_of (pv_meta p)) (provisioners : list CoderProvisioner)))
    end.

Context (known : W → list CoderProvisioner).
Implicit Types (st : kst W).

(** The cache of the manager: a list by the index returns the known provisioners
    of the namespace that are indexed under the value. *)
Definition lists_provisioners : Prop := ∀ namespace indexValue w, ∃ ps,
  env (AListProvisioners namespace provisionerControlPlaneRefNameFieldIndex indexValue) w = (Ret ps, w) ∧
  ∀ p, p ∈ ps ↔ p ∈ known w ∧ Namespace (pv_meta p) = namespace ∧
    indexValue ∈ indexProvisionerByControlPlaneRefName p.
End requests.

(** A changed control plane reconciles exactly the provisioners of its namespace
    that refer to it, blanks around the reference aside; in particular a
    provisioner that waits for its control plane need not poll for it. *)
Theorem control_plane_reaches_provisioners {W} (env : ∀ a : action, M W goerror (reply a))
    (known : W → list CoderProvisioner) (cp : CoderControlPlane) (st : kst W)
    (Hindex : lists_provisioners env known)
    (Hname : blank (Name (cp_meta cp)) = false) (Hns : blank (Namespace (cp_meta cp)) = false) :
  ∃ requests st', reconcileRequestsForControlPlane env cp st = (Ret requests, st') ∧
    ∀ req, req ∈ requests ↔ ∃ p, p ∈ known (k_world st) ∧ key_of (pv_meta p) = req ∧
      Namespace (pv_meta p) = Namespace (cp_meta cp) ∧ blank (Name (pv_meta p)) = false ∧
      trim_space (pvs_ControlPlaneRef (pv_Spec p)) = Name (cp_meta cp).
Proof.
  unfold reconcileRequestsForControlPlane. cbv zeta. rewrite Hname, Hns. cbn [orb].
  destruct (Hindex (Namespace (cp_meta cp)) (Name (cp_meta cp)) (k_world st)) as (ps & Hl & Hin).
  unfold attempt, act, mbind, M_bind. rewrite Hl. eexists _, _. split; [reflexivity|].
  assert (∀ p, Name (cp_meta cp) ∈ indexProvisionerByControlPlaneRefName p ↔
    trim_space (pvs_ControlPlaneRef (pv_Spec p)) = Name (cp_meta cp)) as Hix.
  { intros p. unfold indexProvisionerByControlPlaneRefName. cbv zeta.
    destruct (String.eqb_spec (trim_space (pvs_ControlPlaneRef (pv_Spec p))) "") as [->|_].
    - rewrite elem_of_nil. split; [done|]. intros H. by rewrite <-H in Hname.
    - rewrite list_elem_of_singleton. naive_solver. }
  intros req. rewrite list_elem_of_In, filter_In, in_map_iff, negb_true_iff. split.
  - intros [(p & <- & (Hk & Hn & Hi)%list_elem_of_In%Hin) Hb]. exists p.
    unfold blankRequest in Hb. cbn in Hb. apply orb_false_iff in Hb as [? _].
    do 4 (split; [done|]). by apply Hix.
  - intros (p & Hk & <- & Hn & Hb & Hi). split.
    + exists p. split; [done|]. apply list_elem_of_In, Hin. split; [done|]. split; [done|]. by apply Hix.
    + unfold blankRequest. cbn. by rewrite Hb, Hn, Hns.
Qed.

End ProvisionerTriggers.
