(* ===== verification/WorkspaceProxy.v ===== *)
(** * WorkspaceProxy: the controller of workspace proxies

    internal/controller/coderworkspaceproxy_controller.go: names, the
    credentials of a proxy with its registration in coderd, deployment, service
    and status. *)

From S2P Require Import Prelude GoStd GoStdFacts StringFacts GoErrors ApiTypes Examples KubeObjects Kube ControlPlaneNames ControlPlaneStatus OperatorAccess ServiceAccounts Workload ProvisionerNames Provisioner.

#[local] Open Scope string_scope.
#[local] Open Scope list_scope.

Module WorkspaceProxy.
Import ControlPlaneNames ControlPlaneStatus OperatorAccess ServiceAccounts Workload.
Import ProvisionerNames.

Definition defaultWorkspaceProxyPort : Z := 80.
Definition workspaceProxyTargetPort : Z := 3001.
Definition workspaceProxyNamePrefix := "wsproxy-".

(** ** Names *)

Definition workspaceProxyResourceName (name : string) : string :=
  let candidate := workspaceProxyNamePrefix +:+ name in
  if (slen candidate <=? 63)%Z then candidate
  else
    let suffix := hash32 name in
    let available := at_least_one (63 - slen workspaceProxyNamePrefix - slen suffix - 1) in
    workspaceProxyNamePrefix +:+ stake (Z.to_nat available) name +:+ "-" +:+ suffix.

Definition workspaceProxyInstanceLabelValue (name : string) : string :=
  if (slen name <=? 63)%Z then name
  else
    let suffix := hash32 name in
    let available := at_least_one (63 - slen suffix - 1) in
    stake (Z.to_nat available) name +:+ "-" +:+ suffix.

Definition workspaceProxyLabels (name : string) : gmap string string :=
  {["app.kubernetes.io/name" := "coder-workspace-proxy";
    "app.kubernetes.io/instance" := workspaceProxyInstanceLabelValue name;
    "app.kubernetes.io/managed-by" := "coder-k8s"]}.

(** ** Objects *)

Definition workspaceProxyKind := "CoderWorkspaceProxy".

Definition ownedByProxy (p : CoderWorkspaceProxy) (m : ObjectMeta) : result ObjectMeta :=
  match SetControllerReference controlPlaneAPIVersion workspaceProxyKind (wp_meta p) m with
  | Err err => Err (Errorf "set controller reference: %w" [FErrW err])
  | r => r
  end.
Definition proxy_labelled (p : CoderWorkspaceProxy) (m : ObjectMeta) : ObjectMeta :=
  set_labels (workspaceProxyLabels (Name (wp_meta p))) m.
Definition proxy_key (p : CoderWorkspaceProxy) (name : string) : object_key := (Namespace (wp_meta p), name).

Definition proxy_container (p : CoderWorkspaceProxy) (primaryAccessURL : string) (tokenRef : SecretKeySelector)
    : Container := {|
  con_Name := "workspace-proxy";
  con_Image := if String.eqb (wps_Image (wp_Spec p)) "" then defaultCoderImage else wps_Image (wp_Spec p);
  con_Command := [];
  con_Args := ["wsproxy"; "server"; "--http-address=0.0.0.0:3001"]
              ++ (if wps_DerpOnly (wp_Spec p) then ["--derp-only"] else []) ++ wps_ExtraArgs (wp_Spec p);
  con_Env := [env_value "CODER_PRIMARY_ACCESS_URL" primaryAccessURL;
              {| env_Name := "CODER_PROXY_SESSION_TOKEN"; env_Value := "";
                 env_ValueFrom := Some {| FieldRefPath := None; SecretKeyRef := Some tokenRef; OtherSource := None |} |}]
             ++ wps_ExtraEnv (wp_Spec p);
  con_EnvFrom := []; con_Ports := [container_port "http" workspaceProxyTargetPort]; con_VolumeMounts := [];
  con_SecurityContext := None; con_Resources := None; con_ReadinessProbe := None; con_LivenessProbe := None;
  con_Other := None |}.

Definition proxy_deployment (p : CoderWorkspaceProxy) (primaryAccessURL : string) (tokenRef : SecretKeySelector)
    (d : Deployment) : result Deployment :=
  let labels := workspaceProxyLabels (Name (wp_meta p)) in
  m ← ownedByProxy p (proxy_labelled p (dep_meta d));
  mret {|
    dep_meta := m;
    dep_Replicas := Some (default 1%Z (wps_Replicas (wp_Spec p)));
    dep_Selector := Some {| ls_MatchLabels := labels; ls_MatchExpressions := [] |};
    dep_Template := {|
      tpl_Labels := labels; tpl_Annotations := ∅; tpl_Other := None;
      tpl_Spec := {|
        pod_ServiceAccountName := ""; pod_ImagePullSecrets := wps_ImagePullSecrets (wp_Spec p);
        pod_Containers := [proxy_container p primaryAccessURL tokenRef];
        pod_Volumes := []; pod_NodeSelector := ∅; pod_Tolerations := []; pod_TopologySpreadConstraints := [];
        pod_SecurityContext := None; pod_Affinity := None; pod_TerminationGracePeriodSeconds := None;
        pod_Other := None |} |};
    dep_OtherSpec := dep_OtherSpec d;
    dep_ReadyReplicas := dep_ReadyReplicas d |}.

Definition proxy_service (p : CoderWorkspaceProxy) (s : ServiceObject) : result ServiceObject :=
  let spec := wps_Service (wp_Spec p) in
  m ← ownedByProxy p (set_annotations (svc_Annotations spec) (proxy_labelled p (svo_meta s)));
  mret {|
    svo_meta := m;
    svo_Type := if String.eqb (svc_Type spec) "" then "ClusterIP" else svc_Type spec;
    svo_Selector := workspaceProxyLabels (Name (wp_meta p));
    svo_Ports := [service_port "http"
                    (if Z.eqb (svc_Port spec) 0 then defaultWorkspaceProxyPort else svc_Port spec)
                    workspaceProxyTargetPort];
    svo_OtherSpec := svo_OtherSpec s |}.

Definition token_secret (p : CoderWorkspaceProxy) (key token : string) (secret : Secret) : result Secret :=
  m ← ownedByProxy p (proxy_labelled p (secret_meta secret));
  mret {| secret_meta := m; secret_Type := "Opaque"; secret_Data := <[key := token]> (secret_Data secret) |}.

(** The status after a reconciliation; conditions are not kept. *)
Definition next_status (p : CoderWorkspaceProxy) (deployment : Deployment) (tokenRef : SecretKeySelector)
    (registered : bool) : WorkspaceProxyStatus := {|
  wst_ObservedGeneration := Generation (wp_meta p);
  wst_ReadyReplicas := dep_ReadyReplicas deployment;
  wst_Registered := registered;
  wst_ProxyTokenSecretRef := Some tokenRef;
  wst_Phase := if (0 <? dep_ReadyReplicas deployment)%Z then WorkspaceProxyPhaseReady else WorkspaceProxyPhasePending;
  wst_Conditions := [] |}.

(** ** The reconciliation *)

Section workspace_proxy.
Context {W : Type} (env : ∀ a : action, M W goerror (reply a)).

(** The same method as the provisioner controller's. *)
Definition readSecretValue : string → string → string → reconciliation (W:=W) string :=
  Provisioner.readProvisionerSecretValue env.

Definition ensureTokenSecret (p : CoderWorkspaceProxy) (name key token : string) : reconciliation (W:=W) () :=
  _ ← map_err (λ err, Errorf "reconcile proxy token secret %q: %w" [FStr name; FErrW err])
        (CreateOrUpdate env KSecret (Provisioner.new_secret (proxy_key p name)) (token_secret p key token));
  mret tt.

(** The collaborators that are set. *)
Record proxy_reconciler := { wpr_Client : bool; wpr_Scheme : bool; wpr_BootstrapClient : bool }.

Definition or_else (value fallback : string) : string := if String.eqb value "" then fallback else value.

(** The secret that holds a proxy's generated token. *)
Definition token_secret_name (p : CoderWorkspaceProxy) (b : ProxyBootstrapSpec) : string :=
  or_else (pb_GeneratedTokenSecretName b) (Name (wp_meta p) +:+ "-proxy-token").

(** The registration in coderd and the new token. *)
Definition registerProxy (p : CoderWorkspaceProxy) (b : ProxyBootstrapSpec) : reconciliation (W:=W) () :=
  let ref := pb_CredentialsSecretRef b in
  credentials ← map_err (λ err, Errorf "read bootstrap credentials: %w" [FErrW err])
    (readSecretValue (Namespace (wp_meta p)) (sks_Name ref) (or_else (sks_Key ref) DefaultTokenSecretKey));
  response ← map_err (λ err, Errorf "bootstrap workspace proxy registration: %w" [FErrW err])
    (act env (AEnsureWorkspaceProxy {|
       rwp_CoderURL := pb_CoderURL b; rwp_SessionToken := credentials;
       rwp_ProxyName := or_else (pb_ProxyName b) (Name (wp_meta p));
       rwp_DisplayName := pb_DisplayName b; rwp_Icon := pb_Icon b |}));
  ensureTokenSecret p (token_secret_name p b) DefaultTokenSecretKey (rwr_ProxyToken response).

(** The URL of the primary deployment, where the token is, and whether the
    operator registered the proxy. *)
Definition resolveProxyCredentials (r : proxy_reconciler) (p : CoderWorkspaceProxy)
    : reconciliation (W:=W) (string * option SecretKeySelector * bool) :=
  match wps_Bootstrap (wp_Spec p) with
  | None =>
      let tokenRef := (λ ref, if String.eqb (sks_Key ref) ""
                              then {| sks_Name := sks_Name ref; sks_Key := DefaultTokenSecretKey |} else ref)
                      <$> wps_ProxySessionTokenSecretRef (wp_Spec p) in
      mret (wps_PrimaryAccessURL (wp_Spec p), tokenRef, false)
  | Some bootstrap =>
      _ ← guard_err (negb (wpr_BootstrapClient r))
            (Errorf "workspace proxy bootstrap is configured but bootstrap client is not available" []);
      let tokenSecretName := token_secret_name p bootstrap in
      existing ← attempt (readSecretValue (Namespace (wp_meta p)) tokenSecretName DefaultTokenSecretKey);
      _ ← match existing with
          | inl existingToken => if String.eqb existingToken "" then registerProxy p bootstrap else mret tt
          | inr _ => registerProxy p bootstrap
          end;
      mret (or_else (wps_PrimaryAccessURL (wp_Spec p)) (pb_CoderURL bootstrap),
            Some {| sks_Name := tokenSecretName; sks_Key := DefaultTokenSecretKey |}, true)
  end.

Definition reconcileDeployment (p : CoderWorkspaceProxy) (primaryAccessURL : string) (tokenRef : SecretKeySelector)
    : reconciliation (W:=W) Deployment :=
  map_err (λ err, Errorf "reconcile workspace proxy deployment: %w" [FErrW err])
    (CreateOrUpdate env KDeployment (new_deployment (proxy_key p (workspaceProxyResourceName (Name (wp_meta p)))))
       (proxy_deployment p primaryAccessURL tokenRef)).

Definition reconcileService (p : CoderWorkspaceProxy) : reconciliation (W:=W) ServiceObject :=
  map_err (λ err, Errorf "reconcile workspace proxy service: %w" [FErrW err])
    (CreateOrUpdate env KService (new_service (proxy_key p (workspaceProxyResourceName (Name (wp_meta p)))))
       (proxy_service p)).

Definition reconcileStatus (p : CoderWorkspaceProxy) (deployment : Deployment) (tokenRef : SecretKeySelector)
    (registered : bool) : reconciliation (W:=W) () :=
  let nextStatus := next_status p deployment tokenRef registered in
  if bool_decide (wp_Status p = nextStatus) then mret tt
  else
    _ ← map_err (λ err, Errorf "update workspace proxy status: %w" [FErrW err])
          (act env (AUpdateProxyStatus {| wp_meta := wp_meta p; wp_Spec := wp_Spec p; wp_Status := nextStatus |}));
    mret tt.

(** From the fetched proxy on. *)
Definition reconcileProxy (r : proxy_reconciler) (p : CoderWorkspaceProxy) : reconciliation (W:=W) Result :=
  '(primaryAccessURL, tokenRef, registered) ← resolveProxyCredentials r p;
  _ ← guard_err (String.eqb primaryAccessURL "")
        (Errorf "workspace proxy primaryAccessURL must be provided directly or via bootstrap.coderURL" []);
  match tokenRef with
  | None => throw (Errorf "workspace proxy session token reference must be provided directly or via bootstrap" [])
  | Some tokenRef =>
      deployment ← reconcileDeployment p primaryAccessURL tokenRef;
      _ ← reconcileService p;
      _ ← reconcileStatus p deployment tokenRef registered;
      mret no_requeue
  end.

Definition Reconcile (r : proxy_reconciler) (req : object_key) : reconciliation (W:=W) Result :=
  _ ← guard_err (negb (wpr_Client r)) (assertion "assertion failed: reconciler client must not be nil");
  _ ← guard_err (negb (wpr_Scheme r)) (assertion "assertion failed: reconciler scheme must not be nil");
  found ← attempt (act env (AGet CachedReader KWorkspaceProxy req));
  match found with
  | inr err =>
      if IsNotFound err then mret no_requeue
      else throw (Errorf "get coderworkspaceproxy %s: %w" [FStr (attempts_key req); FErrW err])
  | inl p =>
      let p : CoderWorkspaceProxy := p in
      let m := wp_meta p in
      _ ← guard_err (negb (String.eqb (Name m) req.2) || negb (String.eqb (Namespace m) req.1))
            (Errorf "assertion failed: fetched object %s/%s does not match request %s/%s"
               [FStr (Namespace m); FStr (Name m); FStr req.1; FStr req.2]);
      reconcileProxy r p
  end.
End workspace_proxy.

(** * Properties *)

(** The resource name and the instance label fit Kubernetes. *)
Lemma workspace_proxy_names name :
  (slen (workspaceProxyResourceName name) ≤ 63)%Z ∧ (slen (workspaceProxyInstanceLabelValue name) ≤ 63)%Z.
Proof.
  unfold workspaceProxyResourceName, workspaceProxyInstanceLabelValue. cbv zeta. rewrite !slen_hash32.
  change (slen workspaceProxyNamePrefix) with 8%Z. split.
  - destruct (Z.leb_spec (slen (workspaceProxyNamePrefix +:+ name)) 63); [done|].
    rewrite slen_append. pose proof (slen_cut (63 - 8 - 8 - 1) name name).
    change (slen workspaceProxyNamePrefix) with 8%Z. lia.
  - destruct (Z.leb_spec (slen name) 63); [done|]. pose proof (slen_cut (63 - 8 - 1) name name). lia.
Qed.

(** The service selects the pods of the deployment and its port is one the
    container listens on. *)
Lemma proxy_service_reaches_pod p url ref d d' s s' :
  proxy_deployment p url ref d = Ret d' → proxy_service p s = Ret s' →
  svo_Selector s' = tpl_Labels (dep_Template d') ∧
  dep_Selector d' = Some {| ls_MatchLabels := tpl_Labels (dep_Template d'); ls_MatchExpressions := [] |} ∧
  ∃ c port, pod_Containers (tpl_Spec (dep_Template d')) = [c] ∧ svo_Ports s' = [port] ∧ sp_Port port ≠ 0%Z ∧
    container_port (sp_Name port) (sp_TargetPort port) ∈ con_Ports c.
Proof.
  unfold proxy_deployment, proxy_service. cbv zeta. intros Hd Hs.
  apply outcome_bind_Ret in Hd as (m & _ & Hd). apply outcome_bind_Ret in Hs as (m' & _ & Hs).
  inv_outcome Hd. inv_outcome Hs. cbn. do 2 (split; [done|]). eexists _, _. do 2 (split; [reflexivity|]).
  split; [by destruct (Z.eqb_spec (svc_Port (wps_Service (wp_Spec p))) 0)|by left].
Qed.

Section workspace_proxy_properties.
Context {W : Type} (env : ∀ a : action, M W goerror (reply a)).
Implicit Types (st : kst W) (b : ProxyBootstrapSpec).

Section proxy.
Context (p : CoderWorkspaceProxy).
Let namespace := Namespace (wp_meta p).
Let token_key b : object_key := (namespace, token_secret_name p b).
Let token_ref b : SecretKeySelector := {| sks_Name := token_secret_name p b; sks_Key := DefaultTokenSecretKey |}.
Let init_secret b : Secret := Provisioner.new_secret (proxy_key p (token_secret_name p b)).
Let init_deployment := new_deployment (proxy_key p (workspaceProxyResourceName (Name (wp_meta p)))).
Let init_service := new_service (proxy_key p (workspaceProxyResourceName (Name (wp_meta p)))).

(** A read of a secret found the value. *)
Definition read_value (name key value : string) : Prop :=
  ∃ (secret : Secret) w w', env (AGet CachedReader KSecret (namespace, name)) w = (Ret secret, w') ∧
    secret_Data secret !! key = Some value ∧ value ≠ "".
(** The read of the generated token failed, or found no token. *)
Definition token_not_read b : Prop :=
  ∃ (o : outcome goerror Secret) w w', env (AGet CachedReader KSecret (token_key b)) w = (o, w') ∧
    ∀ secret, o = Ret secret → default "" (secret_Data secret !! DefaultTokenSecretKey) = "".

Definition registration b (credentials : string) : action := AEnsureWorkspaceProxy {|
  rwp_CoderURL := pb_CoderURL b; rwp_SessionToken := credentials;
  rwp_ProxyName := or_else (pb_ProxyName b) (Name (wp_meta p));
  rwp_DisplayName := pb_DisplayName b; rwp_Icon := pb_Icon b |}.
Definition credentials_read b (credentials : string) : Prop :=
  read_value (sks_Name (pb_CredentialsSecretRef b))
    (or_else (sks_Key (pb_CredentialsSecretRef b)) DefaultTokenSecretKey) credentials.
Definition registered_as b (r : RegisterWorkspaceProxyResponse) : Prop := ∃ credentials w w',
  credentials_read b credentials ∧ env (registration b credentials) w = (Ret r, w').

(** The token of a proxy that is to be registered is in its secret, from before
    or from a registration. *)
Definition token_available b : Prop :=
  (∃ token, read_value (token_secret_name p b) DefaultTokenSecretKey token) ∨
  token_not_read b ∧ ∃ r secret, registered_as b r ∧
    stored env KSecret (init_secret b) (token_secret p DefaultTokenSecretKey (rwr_ProxyToken r)) secret.

(** Where the proxy connects to and where its token is. *)
Definition resolved (url : string) (ref : SecretKeySelector) (registered : bool) : Prop :=
  match wps_Bootstrap (wp_Spec p) with
  | None => url = wps_PrimaryAccessURL (wp_Spec p) ∧ registered = false ∧
      ∃ r, wps_ProxySessionTokenSecretRef (wp_Spec p) = Some r ∧ sks_Name ref = sks_Name r ∧
        sks_Key ref = or_else (sks_Key r) DefaultTokenSecretKey
  | Some b => url = or_else (wps_PrimaryAccessURL (wp_Spec p)) (pb_CoderURL b) ∧ registered = true ∧
      ref = token_ref b ∧ token_available b
  end.

Definition status_update (d : Deployment) ref registered : action := AUpdateProxyStatus
  {| wp_meta := wp_meta p; wp_Spec := wp_Spec p; wp_Status := next_status p d ref registered |}.

Inductive proxy_call : action → Prop :=
  | xcall_token b : wps_Bootstrap (wp_Spec p) = Some b → proxy_call (AGet CachedReader KSecret (token_key b))
  | xcall_credentials b : wps_Bootstrap (wp_Spec p) = Some b → token_not_read b →
      proxy_call (AGet CachedReader KSecret (namespace, sks_Name (pb_CredentialsSecretRef b)))
  | xcall_register b credentials : wps_Bootstrap (wp_Spec p) = Some b → token_not_read b →
      credentials_read b credentials → proxy_call (registration b credentials)
  | xcall_secret b r a : wps_Bootstrap (wp_Spec p) = Some b → token_not_read b → registered_as b r →
      written KSecret (init_secret b) (token_secret p DefaultTokenSecretKey (rwr_ProxyToken r)) a → proxy_call a
  | xcall_deployment url ref registered a : resolved url ref registered → url ≠ "" →
      written KDeployment init_deployment (proxy_deployment p url ref) a → proxy_call a
  | xcall_service url ref registered d a : resolved url ref registered → url ≠ "" →
      stored env KDeployment init_deployment (proxy_deployment p url ref) d →
      written KService init_service (proxy_service p) a → proxy_call a
  | xcall_status url ref registered d s : resolved url ref registered → url ≠ "" →
      stored env KDeployment init_deployment (proxy_deployment p url ref) d →
      stored env KService init_service (proxy_service p) s →
      proxy_call (status_update d ref registered).

(** What a successful reconciliation has achieved. *)
Definition proxied : Prop := ∃ url ref registered d s, resolved url ref registered ∧ url ≠ "" ∧
  stored env KDeployment init_deployment (proxy_deployment p url ref) d ∧
  stored env KService init_service (proxy_service p) s ∧
  (wp_Status p = next_status p d ref registered ∨
   ∃ q w w', env (status_update d ref registered) w = (Ret q, w')).

Lemma proxy_secret_Ret name key st value st' :
  readSecretValue env namespace name key st = (Ret value, st') → read_value name key value.
Proof.
  unfold readSecretValue, Provisioner.readProvisionerSecretValue. intros (secret & s1 & Hget & H)%M_bind_Ret.
  inv_act Hget. cbn in secret. destruct (secret_Data secret !! key) as [v|] eqn:Hv; [|discriminate H].
  destruct (String.eqb_spec v ""); [discriminate H|]. inv_run H. exists secret. by eexists _, _.
Qed.

Lemma only_proxy_secret name key :
  proxy_call (AGet CachedReader KSecret (namespace, name)) → only proxy_call (readSecretValue env namespace name key).
Proof.
  intros Hc. unfold readSecretValue, Provisioner.readProvisionerSecretValue.
  apply only_bind; [only_call; exact Hc|]. intros secret.
  destruct (secret_Data _ !! _); [destruct (String.eqb _ _); [apply only_throw|apply only_ret]|apply only_throw].
Qed.

Lemma token_read_failed b st x st' :
  attempt (readSecretValue env namespace (token_secret_name p b) DefaultTokenSecretKey) st = (Ret x, st') →
  match x with
  | inl token => read_value (token_secret_name p b) DefaultTokenSecretKey token
  | inr _ => token_not_read b
  end.
Proof.
  destruct x as [token|err]; intros H; [by apply attempt_inl, proxy_secret_Ret in H|].
  apply attempt_inr in H. unfold readSecretValue, Provisioner.readProvisionerSecretValue, mbind, M_bind, act in H.
  fold (token_key b) in H. unfold token_not_read.
  destruct (env (AGet CachedReader KSecret (token_key b)) (k_world st)) as [[secret|e|e] w] eqn:E; [|by eexists _, _, _|done].
  eexists _, _, _. split; [exact E|]. intros ? [= <-].
  destruct (secret_Data secret !! DefaultTokenSecretKey) as [v|]; [|done]. cbn. by destruct (String.eqb_spec v "").
Qed.

Section registering.
Context (b : ProxyBootstrapSpec) (Hb : wps_Bootstrap (wp_Spec p) = Some b) (Hnone : token_not_read b).

Lemma only_registerProxy : only proxy_call (registerProxy env p b).
Proof.
  unfold registerProxy. cbv zeta. apply only_bind_run.
  { apply only_map_err, only_proxy_secret. by apply xcall_credentials. }
  intros credentials s1 s2 Hc%map_err_Ret%proxy_secret_Ret. apply only_bind_run.
  { apply only_map_err. only_call. by apply xcall_register. }
  intros r s3 s4 Hr%map_err_Ret. inv_act Hr. cbn in r. unfold ensureTokenSecret.
  apply only_bind; [|intros; apply only_ret]. apply only_map_err.
  refine (only_mono _ _ _ _ (CreateOrUpdate_only env KSecret (init_secret b) _)). intros a.
  apply xcall_secret; [done|done|]. exists credentials. by eexists _, _.
Qed.

Lemma registerProxy_Ret st u st' : registerProxy env p b st = (Ret u, st') → token_available b.
Proof.
  unfold registerProxy. cbv zeta.
  intros (credentials & s1 & Hc%map_err_Ret%proxy_secret_Ret & (r & s2 & Hr%map_err_Ret & H)%M_bind_Ret)%M_bind_Ret.
  inv_act Hr. cbn in r. unfold ensureTokenSecret in H.
  apply M_bind_Ret in H as (secret & s3 & Hs%map_err_Ret%CreateOrUpdate_Ret & _).
  right. split; [done|]. exists r, secret. split; [|exact Hs]. exists credentials. by eexists _, _.
Qed.
End registering.

Lemma resolveProxyCredentials_Ret r st url oref registered st' :
  resolveProxyCredentials env r p st = (Ret (url, oref, registered), st') →
  ∀ ref, oref = Some ref → resolved url ref registered.
Proof.
  unfold resolveProxyCredentials, resolved. destruct (wps_Bootstrap (wp_Spec p)) as [b|] eqn:Hb.
  - cbv zeta. intros (u & s1 & _ & (x & s2 & Hx%token_read_failed & (u2 & s3 & Hreg & H)%M_bind_Ret)%M_bind_Ret)%M_bind_Ret.
    injection H as <- <- <- _. intros ref [= <-]. do 3 (split; [done|]). destruct x as [token|err].
    + left. by exists token.
    + by eapply registerProxy_Ret.
  - intros [= <- <- <- _]. intros ref. destruct (wps_ProxySessionTokenSecretRef (wp_Spec p)) as [sr|]; [|done].
    intros [= <-]. do 2 (split; [done|]). exists sr. split; [done|].
    unfold or_else. destruct (String.eqb (sks_Key sr) ""); by split.
Qed.

Lemma only_resolveProxyCredentials r : only proxy_call (resolveProxyCredentials env r p).
Proof.
  unfold resolveProxyCredentials. destruct (wps_Bootstrap (wp_Spec p)) as [b|] eqn:Hb; [|apply only_ret].
  apply only_bind; [apply only_guard|intros _]. cbv zeta. apply only_bind_run.
  { apply only_attempt, only_proxy_secret. by apply xcall_token. }
  intros x s1 s2 Hx%token_read_failed. apply only_bind; [|intros; apply only_ret].
  destruct x as [token|err]; [|by apply only_registerProxy].
  destruct Hx as (secret & w & w' & _ & _ & Hne). destruct (String.eqb_spec token ""); [done|apply only_ret].
Qed.

Lemma reconcileStatus_Ret d ref registered st u st' :
  reconcileStatus env p d ref registered st = (Ret u, st') →
  wp_Status p = next_status p d ref registered ∨ ∃ q w w', env (status_update d ref registered) w = (Ret q, w').
Proof.
  unfold reconcileStatus. cbv zeta. case_bool_decide; [by left|].
  intros (q & s1 & Hq%map_err_Ret & _)%M_bind_Ret. inv_act Hq. right. by eexists q, _, _.
Qed.

Lemma only_reconcileProxy r : only proxy_call (reconcileProxy env r p).
Proof.
  unfold reconcileProxy. apply only_bind_run; [apply only_resolveProxyCredentials|].
  intros [[url oref] registered] s1 s2 Hres. apply only_bind_run; [apply only_guard|].
  intros u s3 s4 [Hu%String.eqb_neq _]%guard_err_Ret. destruct oref as [ref|]; [|apply only_throw].
  pose proof (resolveProxyCredentials_Ret _ _ _ _ _ _ Hres ref eq_refl) as Hr.
  apply only_bind_run.
  { apply only_map_err. refine (only_mono _ _ _ _ (CreateOrUpdate_only env KDeployment init_deployment _)).
    intros a. by eapply xcall_deployment. }
  intros d s5 s6 Hd%map_err_Ret. apply (CreateOrUpdate_Ret env KDeployment init_deployment) in Hd. apply only_bind_run.
  { apply only_map_err. refine (only_mono _ _ _ _ (CreateOrUpdate_only env KService init_service _)).
    intros a. by eapply xcall_service. }
  intros s s7 s8 Hs%map_err_Ret. apply (CreateOrUpdate_Ret env KService init_service) in Hs. apply only_bind; [|intros; apply only_ret]. unfold reconcileStatus. cbv zeta.
  case_bool_decide; [apply only_ret|]. apply only_bind; [|intros; apply only_ret].
  apply only_map_err. only_call. by eapply xcall_status.
Qed.

Lemma reconcileProxy_Ret r st res st' :
  reconcileProxy env r p st = (Ret res, st') → res = no_requeue ∧ proxied.
Proof.
  unfold reconcileProxy. intros ([[url oref] registered] & s1 & Hres & H)%M_bind_Ret.
  apply M_bind_Ret in H as (u & s2 & [Hu%String.eqb_neq _]%guard_err_Ret & H).
  destruct oref as [ref|]; [|discriminate H].
  apply M_bind_Ret in H as (d & s3 & Hd%map_err_Ret & H). apply (CreateOrUpdate_Ret env KDeployment init_deployment) in Hd.
  apply M_bind_Ret in H as (s & s4 & Hs%map_err_Ret & H). apply (CreateOrUpdate_Ret env KService init_service) in Hs.
  apply M_bind_Ret in H as (u' & s5 & Hst%reconcileStatus_Ret & H). inv_run H.
  split; [done|]. exists url, ref, registered, d, s. split; [by eapply resolveProxyCredentials_Ret|]. done.
Qed.

(** The registrations of a run: at most one. *)
Definition registers (a : action) : bool := match a with AEnsureWorkspaceProxy _ => true | _ => false end.

Lemma never {A} (m : reconciliation (W:=W) A) : only (λ a, registers a = false) m → at_most registers 0 m.
Proof. apply at_most_only. Qed.
Lemma never_reads ns name key : only (λ a, registers a = false) (readSecretValue env ns name key).
Proof.
  unfold readSecretValue, Provisioner.readProvisionerSecretValue. apply only_bind; [by only_call|]. intros secret.
  destruct (secret_Data _ !! _); [destruct (String.eqb _ _); [apply only_throw|apply only_ret]|apply only_throw].
Qed.
Lemma registers_once_resolve r : at_most registers 1 (resolveProxyCredentials env r p).
Proof.
  unfold resolveProxyCredentials. destruct (wps_Bootstrap (wp_Spec p)) as [b|];
    [|apply (at_most_mono _ 0); [lia|apply never, only_ret]].
  apply (at_most_bind _ 0 1); [apply never, only_guard|intros _]. cbv zeta.
  apply (at_most_bind _ 0 1); [apply never, only_attempt, never_reads|]. intros x.
  assert (at_most registers 1 (registerProxy env p b)) as Hreg.
  { unfold registerProxy. cbv zeta. apply (at_most_bind _ 0 1); [apply never, only_map_err, never_reads|]. intros c.
    apply (at_most_bind _ 1 0); [apply at_most_map_err; refine (at_most_act env registers (AEnsureWorkspaceProxy _))|]. intros r'.
    apply never, only_bind; [apply only_map_err|intros; apply only_ret].
    refine (only_mono _ _ _ _ (CreateOrUpdate_only env KSecret (init_secret b) _)). by intros a []. }
  apply (at_most_bind _ 1 0); [|intros; apply never, only_ret].
  destruct x as [token|]; [destruct (String.eqb token ""); [done|]|done].
  apply (at_most_mono _ 0); [lia|apply never, only_ret].
Qed.
Lemma registers_once r : at_most registers 1 (reconcileProxy env r p).
Proof.
  unfold reconcileProxy. apply (at_most_bind _ 1 0); [apply registers_once_resolve|]. intros [[url oref] registered].
  apply never. apply only_bind; [apply only_guard|intros _]. destruct oref as [ref|]; [|apply only_throw].
  apply only_bind; [apply only_map_err|intros d].
  { refine (only_mono _ _ _ _ (CreateOrUpdate_only env KDeployment init_deployment _)). by intros a []. }
  apply only_bind; [apply only_map_err|intros s].
  { refine (only_mono _ _ _ _ (CreateOrUpdate_only env KService init_service _)). by intros a []. }
  apply only_bind; [|intros; apply only_ret]. unfold reconcileStatus. cbv zeta.
  case_bool_decide; [apply only_ret|]. apply only_bind; [apply only_map_err; by only_call|intros; apply only_ret].
Qed.
End proxy.

Definition proxy_fetched (req : object_key) (p : CoderWorkspaceProxy) : Prop :=
  (∃ w w', env (AGet CachedReader KWorkspaceProxy req) w = (Ret p, w')) ∧ key_of (wp_meta p) = req.
End workspace_proxy_properties.

(** The calls of a reconciliation and what it has come to. *)
Lemma proxy_run {W} (env : ∀ a : action, M W goerror (reply a)) (r : proxy_reconciler)
    (req : object_key) (st : kst W) :
  let '(o, st') := Reconcile env r req st in
  (∃ acts, made acts st st' ∧ (length (List.filter registers acts) ≤ 1)%nat ∧
     (acts = [] ∨ ∃ rest, acts = AGet CachedReader KWorkspaceProxy req :: rest ∧
        (rest = [] ∨ ∃ p, proxy_fetched env req p ∧ Forall (proxy_call env p) rest))) ∧
  ∀ res, o = Ret res → res = no_requeue ∧
    ((∃ w e w', env (AGet CachedReader KWorkspaceProxy req) w = (Err e, w') ∧ IsNotFound e = true) ∨
     ∃ p, proxy_fetched env req p ∧ proxied env p).
Proof.
  unfold Reconcile. unfold guard_err, lift, fail_if, mbind, M_bind, mret, M_ret.
  destruct (wpr_Client r); cbn [negb]; [|split; [exists []; split; [apply made_nil|by split; [cbn; lia|left]]|done]].
  destruct (wpr_Scheme r); cbn [negb]; [|split; [exists []; split; [apply made_nil|by split; [cbn; lia|left]]|done]].
  unfold attempt, act. set (a := AGet CachedReader KWorkspaceProxy req).
  assert (∀ w, ∃ acts, made acts st (KSt w (k_trace st ++ [a])) ∧ (length (List.filter registers acts) ≤ 1)%nat ∧
    (acts = [] ∨ ∃ rest, acts = a :: rest ∧
        (rest = [] ∨ ∃ p, proxy_fetched env req p ∧ Forall (proxy_call env p) rest))) as Hread.
  { intros w. exists [a]. split; [done|]. split; [cbn; lia|]. right. exists []. by split; [|left]. }
  destruct (env a (k_world st)) as [[p|err|e] w] eqn:E; [| |done].
  2: { destruct (IsNotFound err) eqn:Hn; (split; [done|]); [|done]. intros res [= <-].
       split; [done|]. left. by exists (k_world st), err, w. }
  cbn in p. cbv zeta. destruct (_ || _) eqn:Hk; [done|].
  apply orb_false_iff in Hk as [Hn%negb_false_iff%String.eqb_eq Hns%negb_false_iff%String.eqb_eq].
  assert (proxy_fetched env req p) as Hf.
  { split; [by exists (k_world st), w|]. unfold key_of. rewrite Hn, Hns. by destruct req. }
  set (s1 := KSt w (k_trace st ++ [a])).
  destruct (only_reconcileProxy env p r s1) as (rest & Hm & Hcalls).
  destruct (registers_once env p r s1) as (rest' & Hm' & Hcount).
  assert (rest' = rest) as -> by (unfold made in Hm, Hm'; rewrite Hm in Hm'; by apply app_inv_head in Hm').
  destruct (reconcileProxy env r p s1) as [o st'] eqn:Hrun. cbn [snd] in Hm. split.
  - exists (a :: rest). split; [apply (made_trans [a] rest st s1); [done|exact Hm]|]. split; [exact Hcount|].
    right. exists rest. split; [done|]. right. by exists p.
  - intros res ->. apply reconcileProxy_Ret in Hrun as [-> Hp]. split; [done|]. right. by exists p.
Qed.

(** C12: a reconciliation of a workspace proxy.  Whatever the cluster and coderd
    answer, its calls are the fetch of the proxy and then those of
    [proxy_call]: the proxy is registered in coderd only if it is to be, if its
    secret gave no token, and with the credentials that were read; the new token
    is stored in that secret and nowhere else; the deployment is written only
    when the URL is known, and the token is in that secret or referred to by the
    spec ([resolved]), the service only after that deployment was accepted, and
    the status only after both were.  A run registers at most once.  When it succeeds, the object is
    gone, or the token is available and deployment, service and status are as
    the spec says. *)
Theorem workspace_proxy_contract {W} (env : ∀ a : action, M W goerror (reply a)) (r : proxy_reconciler)
    (req : object_key) (st : kst W) :
  let '(o, st') := Reconcile env r req st in
  (∃ acts, made acts st st' ∧ (length (List.filter registers acts) ≤ 1)%nat ∧
     (acts = [] ∨ ∃ rest, acts = AGet CachedReader KWorkspaceProxy req :: rest ∧
        (rest = [] ∨ ∃ p, proxy_fetched env req p ∧ Forall (proxy_call env p) rest))) ∧
  ∀ res, o = Ret res → res = no_requeue ∧
    ((∃ w e w', env (AGet CachedReader KWorkspaceProxy req) w = (Err e, w') ∧ IsNotFound e = true) ∨
     ∃ p, proxy_fetched env req p ∧ proxied env p).
Proof. exact (proxy_run env r req st). Qed.

(** ** A concrete cluster *)

(** A proxy that is to be registered, with the credentials for it; [have] is the
    token that is already in its secret. *)
Definition example_proxy : CoderWorkspaceProxy := {|
  wp_meta := meta_of_key ("ns", "eu");
  wp_Spec := {| wps_Image := ""; wps_Replicas := None;
    wps_Service := {| svc_Type := ""; svc_Port := 0; svc_Annotations := ∅ |};
    wps_PrimaryAccessURL := ""; wps_ProxySessionTokenSecretRef := None;
    wps_Bootstrap := Some {| pb_CoderURL := "http://coder"; pb_CredentialsSecretRef := {| sks_Name := "cred"; sks_Key := "" |};
      pb_ProxyName := ""; pb_DisplayName := ""; pb_Icon := ""; pb_GeneratedTokenSecretName := "" |};
    wps_DerpOnly := false; wps_ExtraArgs := []; wps_ExtraEnv := []; wps_ImagePullSecrets := [] |};
  wp_Status := {| wst_ObservedGeneration := 0; wst_ReadyReplicas := 0; wst_Registered := false;
    wst_ProxyTokenSecretRef := None; wst_Phase := ""; wst_Conditions := [] |} |}.

Definition example_env (have : string) (a : action) : M () goerror (reply a) := λ w,
  match a with
  | AGet _ k key =>
      match k return outcome goerror (obj k) * () with
      | KWorkspaceProxy => (Ret example_proxy, w)
      | KSecret => (Ret {| secret_meta := meta_of_key key; secret_Type := "";
                           secret_Data := {["token" := if String.eqb key.2 "cred" then "session" else have]} |}, w)
      | _ => (Err (StatusErr (NewNotFound (GroupResource "" "objects") "object")), w)
      end
  | ACreate _ o | AUpdate _ o => (Ret o, w)
  | AUpdateProxyStatus p => (Ret p, w)
  | AEnsureWorkspaceProxy req => (Ret {| rwr_ProxyName := rwp_ProxyName req; rwr_ProxyToken := "new" |}, w)
  | _ => (Err (Errorf "not available" []), w)
  end.
Definition example_run (have : string) :=
  Reconcile (example_env have) {| wpr_Client := true; wpr_Scheme := true; wpr_BootstrapClient := true |} ("ns", "eu") (KSt tt []).

(** A proxy without a token is registered, one with a token is not. *)
Example proxy_registered_if_needed :
  (example_run "").1 = Ret no_requeue ∧ length (List.filter registers (k_trace (example_run "").2)) = 1%nat ∧
  (example_run "old").1 = Ret no_requeue ∧ length (List.filter registers (k_trace (example_run "old").2)) = 0%nat.
Proof. vm_compute. done. Qed.

End WorkspaceProxy.
