(* ===== verification/Calls.v ===== *)
(** * Calls: programs that make calls

    A state monad for code that talks to a service through calls, with the list
    of the calls made so far, and a logic for it: [runs m R] relates the calls of
    every run of [m] to its outcome. *)

From S2P Require Import Prelude GoErrors.

#[local] Open Scope list_scope.

Module Calls.

(** The world and the calls made so far. *)
Record cst (W C : Type) := CSt { c_world : W; c_calls : list C }.
#[global] Arguments CSt {W C}.
#[global] Arguments c_world {W C}.
#[global] Arguments c_calls {W C}.

Section calls.
Context {W C : Type}.

Definition calling : Type → Type := M (cst W C) goerror.

Definition issue {reply : C → Type} (env : ∀ c : C, M W goerror (reply c)) (c : C) : calling (reply c) := λ s,
  let '(o, w) := env c (c_world s) in (o, CSt w (c_calls s ++ [c])).

(** [defer func() { _ = cleanup() }()] *)
Definition finally {A} (cleanup : calling ()) (m : calling A) : calling A := λ s,
  let '(o, s) := m s in
  match cleanup s with
  | (Panic e, s) => (Panic e, s)
  | (_, s) => (o, s)
  end.

Definition sends (l : list C) (s s' : cst W C) : Prop := c_calls s' = c_calls s ++ l.

(** Every run of [m] makes calls and has an outcome that are related by [R]. *)
Definition runs {A} (m : calling A) (R : list C → outcome goerror A → Prop) : Prop := ∀ s,
  let '(o, s') := m s in ∃ l, sends l s s' ∧ R l o.

Lemma runs_pure {A} (m : calling A) R : (∀ s, ∃ o, m s = (o, s) ∧ R [] o) → runs m R.
Proof. intros H s. destruct (H s) as (o & -> & Ho). exists []. by split; [unfold sends; rewrite app_nil_r|]. Qed.
Lemma runs_ret {A} (a : A) R : R [] (Ret a) → runs (mret a) R.
Proof. intros H. apply runs_pure. intros s. by eexists. Qed.
Lemma runs_throw {A} e R : R [] (Err e) → runs (throw e : calling A) R.
Proof. intros H. apply runs_pure. intros s. by eexists. Qed.
Lemma runs_lift {A} (o : result A) R : R [] o → runs (lift o) R.
Proof. intros H. apply runs_pure. intros s. by exists o. Qed.
Lemma runs_mono {A} (m : calling A) R R' : runs m R → (∀ l o, R l o → R' l o) → runs m R'.
Proof. intros H HR s. specialize (H s). destruct (m s) as [o s1]. destruct H as (l & ? & ?). exists l. auto. Qed.

Lemma runs_bind {A B} (m : calling A) (f : A → calling B) R1 R :
  runs m R1 → (∀ l1 a, R1 l1 (Ret a) → runs (f a) (λ l2, R (l1 ++ l2))) →
  (∀ l e, R1 l (Err e) → R l (Err e)) → (∀ l e, R1 l (Panic e) → R l (Panic e)) → runs (m ≫= f) R.
Proof.
  intros Hm Hf He Hp s. specialize (Hm s). unfold mbind, M_bind.
  destruct (m s) as [[a|e|e] s1]; destruct Hm as (l1 & Hl1 & H1); [|by exists l1; auto..].
  specialize (Hf l1 a H1 s1). destruct (f a s1) as [o s2]. destruct Hf as (l2 & Hl2 & H2).
  exists (l1 ++ l2). split; [|done]. unfold sends in *. by rewrite Hl2, Hl1, app_assoc.
Qed.
Lemma runs_guard_bind {A} b e (f : () → calling A) R :
  (b = true → R [] (Err e)) → (b = false → runs (f tt) R) → runs (guard_err b e ≫= f) R.
Proof.
  intros Ht Hf. unfold guard_err, lift, fail_if, runs, mbind, M_bind. intros s.
  destruct b; [exists []; split; [unfold sends; by rewrite app_nil_r|by apply Ht]|by apply Hf].
Qed.
Lemma runs_lift_bind {A B} (r : result A) (f : A → calling B) R :
  (∀ a, r = Ret a → runs (f a) R) → (∀ e, r = Err e → R [] (Err e)) → (∀ e, r = Panic e → R [] (Panic e)) →
  runs (lift r ≫= f) R.
Proof.
  intros Hf He Hp. destruct r as [a|e|e]; [exact (Hf a eq_refl)| |]; intros s; exists []; (split; [unfold sends; by rewrite app_nil_r|auto]).
Qed.
Lemma runs_attempt {A} (m : calling A) R R' :
  runs m R' → (∀ l a, R' l (Ret a) → R l (Ret (inl a))) → (∀ l e, R' l (Err e) → R l (Ret (inr e))) →
  (∀ l e, R' l (Panic e) → R l (Panic e)) → runs (attempt m) R.
Proof.
  intros Hm Ha He Hp s. specialize (Hm s). unfold attempt.
  destruct (m s) as [[a|e|e] s1]; destruct Hm as (l1 & Hl1 & H1); exists l1; auto.
Qed.
Lemma runs_map_err {A} f (m : calling A) R :
  runs m (λ l o, match o with Err e => R l (Err (f e)) | o => R l o end) → runs (map_err f m) R.
Proof. intros H s. specialize (H s). unfold map_err. by destruct (m s) as [[a|e|e] s1]. Qed.

Lemma runs_finally {A} (cleanup : calling ()) (m : calling A) R1 Rc R :
  runs m R1 → runs cleanup Rc → (∀ l l' o o', R1 l o → Rc l' o' → R (l ++ l') (match o' with Panic e => Panic e | _ => o end)) →
  runs (finally cleanup m) R.
Proof.
  intros Hm Hc HR s. specialize (Hm s). unfold finally. destruct (m s) as [o s1]. destruct Hm as (l & Hl & Ho).
  specialize (Hc s1). destruct (cleanup s1) as [o' s2]. destruct Hc as (l' & Hl' & Ho').
  specialize (HR l l' o o' Ho Ho'). assert (sends (l ++ l') s s2) as Hs by (unfold sends in *; by rewrite Hl', Hl, app_assoc).
  destruct o' as [u|e|e]; by exists (l ++ l').
Qed.
Lemma runs_issue {reply : C → Type} (env : ∀ c : C, M W goerror (reply c)) c R :
  (∀ o w w', env c w = (o, w') → R [c] o) → runs (issue env c) R.
Proof.
  intros H s. unfold issue. destruct (env c (c_world s)) as [o w] eqn:E. exists [c]. split; [done|by eapply H].
Qed.

(** ** Single calls *)

Section answers.
Context {reply : C → Type} (env : ∀ c : C, M W goerror (reply c)).

(** The call was answered with the value. *)
Definition answered (c : C) (r : reply c) : Prop := ∃ w w', env c w = (Ret r, w').

(** [m] is one call, whose reply it returns. *)
Definition calls_once c (m : calling (reply c)) : Prop :=
  runs m (λ l o, l = [c] ∧ ∀ r, o = Ret r → answered c r).
Lemma calls_once_issue c : calls_once c (issue env c).
Proof. apply runs_issue. intros [r|e|e] w w' H; (split; [done|]); [|done..]. intros ? [= <-]. by exists w, w'. Qed.
Lemma calls_once_map_err c f m : calls_once c m → calls_once c (map_err f m).
Proof. intros Hm. apply runs_map_err. eapply runs_mono; [exact Hm|]. by intros l [r|e|e] [-> Hr]. Qed.

Lemma runs_call_bind {A} c m (f : reply c → calling A) R :
  calls_once c m → (∀ r, answered c r → runs (f r) (λ l, R (c :: l))) → (∀ e, R [c] (Err e)) → (∀ e, R [c] (Panic e)) →
  runs (m ≫= f) R.
Proof.
  intros Hm Hf He Hp. apply (runs_bind _ _ _ _ Hm).
  - intros l r [-> Hr]. by apply Hf, Hr.
  - by intros l e [-> _].
  - by intros l e [-> _].
Qed.
End answers.

(** ** Calls in a given order *)

(** Every run makes the calls of one of the lists, in their order, and stops at the
    first step that fails. *)
Definition in_order {A I} (cs : I → list C) (m : calling A) : Prop :=
  runs m (λ l o, ∃ i, l `prefix_of` cs i ∧ ∀ a, o = Ret a → l = cs i).
Definition just (l : list C) : () → list C := λ _, l.

Lemma in_order_bind {A B I J} `{!Inhabited J} (cs1 : I → list C) (cs2 : J → list C) (m : calling A) (f : A → calling B) :
  in_order cs1 m → (∀ a, in_order cs2 (f a)) → in_order (λ '(i, j), cs1 i ++ cs2 j) (m ≫= f).
Proof.
  intros Hm Hf. apply (runs_bind _ _ _ _ Hm).
  - intros l1 a (i & _ & Hl). rewrite (Hl a eq_refl). eapply runs_mono; [apply Hf|].
    intros l2 o (j & Hp & Ho). exists (i, j). split; [by apply prefix_app|]. intros b Hb. by rewrite (Ho b Hb).
  - intros l e (i & Hp & _). exists (i, inhabitant). split; [by apply prefix_app_r|done].
  - intros l e (i & Hp & _). exists (i, inhabitant). split; [by apply prefix_app_r|done].
Qed.
Lemma in_order_mono {A I J} (cs : I → list C) (cs' : J → list C) (m : calling A) :
  in_order cs m → (∀ i, ∃ j, cs i = cs' j) → in_order cs' m.
Proof.
  intros Hm Hcs. eapply runs_mono; [exact Hm|]. intros l o (i & Hp & Ho). destruct (Hcs i) as [j Hj].
  exists j. by rewrite <-Hj.
Qed.
(** A step that makes no call of its own, before the others. *)
Lemma in_order_silent {A B I} `{!Inhabited I} (cs : I → list C) (m : calling A) (f : A → calling B) :
  in_order (just []) m → (∀ a, in_order cs (f a)) → in_order cs (m ≫= f).
Proof. intros Hm Hf. eapply in_order_mono; [exact (in_order_bind (just []) cs m f Hm Hf)|]. intros [[] i]. by exists i. Qed.
Lemma in_order_then {A B I} `{!Inhabited I} (l : list C) (cs : I → list C) (m : calling A) (f : A → calling B) :
  in_order (just l) m → (∀ a, in_order cs (f a)) → in_order (λ i, l ++ cs i) (m ≫= f).
Proof. intros Hm Hf. eapply in_order_mono; [exact (in_order_bind (just l) cs m f Hm Hf)|]. intros [[] i]. by exists i. Qed.
(** The same for a step whose value is known. *)
Definition returns {A} (m : calling A) (Q : A → Prop) : Prop := ∀ s a s', m s = (Ret a, s') → Q a.
Lemma in_order_returning {A B I} `{!Inhabited I} Q (l : list C) (cs : I → list C) (m : calling A) (f : A → calling B) :
  in_order (just l) m → returns m Q → (∀ a, Q a → in_order cs (f a)) → in_order (λ i, l ++ cs i) (m ≫= f).
Proof.
  intros Hm HQ Hf s. specialize (Hm s). unfold mbind, M_bind.
  destruct (m s) as [[a|e|e] s1] eqn:E; destruct Hm as (l1 & Hl & [] & Hp & Ho).
  - specialize (Hf a (HQ _ _ _ E) s1). destruct (f a s1) as [o s2]. destruct Hf as (l2 & Hl2 & i & Hp2 & Ho2).
    rewrite (Ho a eq_refl) in Hl. exists (l ++ l2). split; [unfold sends in *; by rewrite Hl2, Hl, app_assoc|].
    exists i. split; [by apply prefix_app|]. intros b Hb. by rewrite (Ho2 b Hb).
  - exists l1. split; [done|]. exists inhabitant. split; [by apply prefix_app_r|done].
  - exists l1. split; [done|]. exists inhabitant. split; [by apply prefix_app_r|done].
Qed.
Lemma in_order_cons {A B} c (l : list C) (m : calling A) (f : A → calling B) :
  in_order (just [c]) m → (∀ a, in_order (just l) (f a)) → in_order (just (c :: l)) (m ≫= f).
Proof. exact (in_order_then [c] (just l) m f). Qed.

Lemma in_order_ret {A} (a : A) : in_order (just []) (mret a).
Proof. apply runs_ret. exists (). by split. Qed.
Lemma in_order_lift {A} (o : result A) : in_order (just []) (lift o).
Proof. apply runs_lift. exists (). by split. Qed.
Lemma in_order_guard b e : in_order (just []) (guard_err b e).
Proof. apply in_order_lift. Qed.
Lemma in_order_issue {reply : C → Type} (env : ∀ c : C, M W goerror (reply c)) c : in_order (just [c]) (issue env c).
Proof. apply runs_issue. intros o w w' _. exists (). by split. Qed.
Lemma in_order_attempt_issue {reply : C → Type} (env : ∀ c : C, M W goerror (reply c)) c :
  in_order (just [c]) (attempt (issue env c)).
Proof.
  intros s. unfold attempt, issue. destruct (env c (c_world s)) as [[a|e|e] w]; exists [c]; (split; [done|]); exists (); by split.
Qed.
Lemma in_order_map_err {A I} (cs : I → list C) f (m : calling A) : in_order cs m → in_order cs (map_err f m).
Proof. intros Hm. apply runs_map_err. eapply runs_mono; [exact Hm|]. intros l [a|e|e] (i & Hp & Ho); exists i; by split. Qed.

(** ** Calls with their answers *)

(** A property of lists that sequencing keeps. *)
Class Closed {X} (G : list X → Prop) := {
  closed_nil : G [];
  closed_app x y : G x → G y → G (x ++ y)
}.
#[global] Instance closed_True {X} : Closed (λ _ : list X, True).
Proof. done. Qed.

Section exchanges.
Context {reply : C → Type} (env : ∀ c : C, M W goerror (reply c)).

Definition exchange : Type := {c : C & outcome goerror (reply c)}.
Definition asked : list exchange → list C := fmap projT1.

(** The calls were made in this order, and answered so. *)
Fixpoint played (x : list exchange) (w w' : W) : Prop :=
  match x with
  | [] => w' = w
  | e :: x => ∃ w1, env (projT1 e) w = (projT2 e, w1) ∧ played x w1 w'
  end.
Lemma played_app x y w w1 w2 : played x w w1 → played y w1 w2 → played (x ++ y) w w2.
Proof. revert w. induction x as [|e x IH]; intros w; cbn; [by intros ->|]. intros (w0 & He & Hx) Hy. eauto. Qed.

(** Every run of [m] has exchanges and an outcome that are related by [R]. *)
Definition says {A} (m : calling A) (R : list exchange → outcome goerror A → Prop) : Prop := ∀ s,
  let '(o, s') := m s in ∃ x, sends (asked x) s s' ∧ played x (c_world s) (c_world s') ∧ R x o.

(** The answers with which a program goes on: those that are no errors, and the
    [tolerated] ones. *)
Context (tolerated : exchange → bool).
Definition passes (e : exchange) : bool := match projT2 e with Ret _ => true | _ => tolerated e end.
(** The program stops at the first call that fails: all calls passed, or all but
    the last one, and then the program fails as well. *)
Definition straight {A} (x : list exchange) (o : outcome goerror A) : Prop :=
  Forall (λ e, passes e = true) x ∨
  ∃ before e, x = before ++ [e] ∧ Forall (λ e, passes e = true) before ∧ passes e = false ∧ ∀ a, o ≠ Ret a.

(** A program that does so, with a property [G] of its exchanges. *)
Context (G : list exchange → Prop) `{!Closed G}.
Definition strict {A} (m : calling A) : Prop := says m (λ x o, straight x o ∧ G x).

Lemma strict_pure {A} (m : calling A) : (∀ s, ∃ o, m s = (o, s)) → strict m.
Proof.
  intros H s. destruct (H s) as [o ->]. exists []. split; [unfold sends; by rewrite app_nil_r|].
  split; [done|]. split; [by left|apply closed_nil].
Qed.
Lemma strict_ret {A} (a : A) : strict (mret a).
Proof. apply strict_pure. by eexists. Qed.
Lemma strict_lift {A} (o : result A) : strict (lift o).
Proof. apply strict_pure. by exists o. Qed.
Lemma strict_throw {A} e : strict (throw e : calling A).
Proof. apply strict_pure. by eexists. Qed.
Lemma strict_guard b e : strict (guard_err b e).
Proof. apply strict_lift. Qed.
Lemma strict_map_err {A} f (m : calling A) : strict m → strict (map_err f m).
Proof.
  intros H s. specialize (H s). unfold map_err. destruct (m s) as [[a|e|e] s1]; [exact H| |exact H].
  destruct H as (x & H1 & H2 & [Hx|(b & y & -> & Hb & Hy & _)] & HG); eexists; (split; [exact H1|]); (split; [exact H2|]);
    (split; [|exact HG]); [by left|right; by exists b, y].
Qed.
Lemma strict_bind {A B} (m : calling A) (f : A → calling B) : strict m → (∀ a, strict (f a)) → strict (m ≫= f).
Proof.
  intros Hm Hf s. specialize (Hm s). unfold mbind, M_bind. destruct (m s) as [[a|e|e] s1].
  - destruct Hm as (x & Hs & Hp & [Hx|(? & ? & _ & _ & _ & Hno)] & HG); [|by destruct (Hno a)].
    specialize (Hf a s1). destruct (f a s1) as [o s2]. destruct Hf as (y & Hs2 & Hp2 & Hy & HG2). exists (x ++ y).
    split; [unfold sends, asked in *; by rewrite Hs2, Hs, fmap_app, app_assoc|]. split; [by eapply played_app|].
    split; [|by apply closed_app]. destruct Hy as [Hy|(b & e & -> & Hb & He & Hno)]; [left; by apply Forall_app|right].
    exists (x ++ b), e. split; [by rewrite app_assoc|]. split; [by apply Forall_app|done].
  - destruct Hm as (x & Hs & Hp & [Hx|(b & y & -> & Hb & Hy & _)] & HG); eexists; (split; [exact Hs|]); (split; [exact Hp|]);
      (split; [|exact HG]); [by left|right; by exists b, y].
  - destruct Hm as (x & Hs & Hp & [Hx|(b & y & -> & Hb & Hy & _)] & HG); eexists; (split; [exact Hs|]); (split; [exact Hp|]);
      (split; [|exact HG]); [by left|right; by exists b, y].
Qed.
Lemma straight_one {A} e (o : outcome goerror A) : (passes e = false → ∀ a, o ≠ Ret a) → straight [e] o.
Proof.
  intros Ho. destruct (passes e) eqn:He; [left; by repeat constructor|right]. exists [], e. repeat split; auto.
Qed.
Lemma strict_issue c : (∀ o, G [existT c o]) → strict (issue env c).
Proof.
  intros HG s. unfold issue. destruct (env c (c_world s)) as [o w] eqn:E. exists [existT c o].
  split; [done|]. split; [by exists w|]. split; [|apply HG]. apply straight_one. by destruct o.
Qed.
(** Both views of a program's runs. *)
Lemma says_runs {A} (m : calling A) R : runs m R → strict m → says m (λ x o, R (asked x) o ∧ straight x o ∧ G x).
Proof.
  intros Hr Hs s. specialize (Hr s). specialize (Hs s). destruct (m s) as [o s'].
  destruct Hr as (l & Hl & HR). destruct Hs as (x & Hx & Hp & Hst & HG). exists x. split; [done|]. split; [done|].
  assert (asked x = l) as -> by (unfold sends in *; rewrite Hl in Hx; by apply app_inv_head in Hx). done.
Qed.
Lemma says_mono {A} (m : calling A) R R' : says m R → (∀ x o, R x o → R' x o) → says m R'.
Proof. intros H HR s. specialize (H s). destruct (m s) as [o s']. destruct H as (x & ? & ? & ?). exists x. auto. Qed.
End exchanges.

(** A call whose error the program looks at: it goes on with tolerated ones only,
    and then as in [H] for the answer. *)
Lemma strict_attempt_bind {reply : C → Type} (env : ∀ c : C, M W goerror (reply c)) tolerated {A} c
    (f : reply c + goerror → calling A) (G : list exchange → Prop) (H : outcome goerror (reply c) → list exchange → Prop) :
  (∀ o, G [existT c o]) → (∀ o y, H o y → G (existT c o :: y)) →
  (∀ r, strict env tolerated (H (Ret r)) (f (inl r))) →
  (∀ e, tolerated (existT c (Err e)) = true → strict env tolerated (H (Err e)) (f (inr e))) →
  (∀ e s, tolerated (existT c (Err e)) = false → ∃ e', f (inr e) s = (Err e', s)) →
  strict env tolerated G (attempt (issue env c) ≫= f).
Proof.
  intros HG HH Hr He Hn s. unfold mbind, M_bind, attempt, issue. destruct (env c (c_world s)) as [o w] eqn:E.
  set (s1 := CSt w (c_calls s ++ [c])).
  assert (∀ (o' : outcome goerror A) m, m = s1 → (passes tolerated (existT c o) = false → ∀ a, o' ≠ Ret a) →
    ∃ x, sends (asked x) s m ∧ played env x (c_world s) (c_world m) ∧ straight tolerated x o' ∧ G x) as Hlast.
  { intros o' m -> Ho. exists [existT c o]. split; [done|]. split; [by exists w|]. split; [by apply straight_one|apply HG]. }
  assert (∀ m : calling A, strict env tolerated (H o) m → passes tolerated (existT c o) = true → let '(o', s') := m s1 in
    ∃ x, sends (asked x) s s' ∧ played env x (c_world s) (c_world s') ∧ straight tolerated x o' ∧ G x) as Hon.
  { intros m Hm Hp. specialize (Hm s1). destruct (m s1) as [o' s2]. destruct Hm as (y & Hs & Hpl & Hy & HGy).
    exists (existT c o :: y). split; [unfold sends, asked in *; cbn in *; by rewrite Hs, <-app_assoc|].
    split; [by exists w|]. split; [|by apply HH].
    destruct Hy as [Hy|(b & e & -> & Hb & He' & Hno)]; [left; by constructor|right].
    exists (existT c o :: b), e. split; [done|]. split; [by constructor|done]. }
  destruct o as [r|e|e].
  - by apply Hon.
  - destruct (tolerated (existT c (Err e))) eqn:Ht; [by apply Hon; [apply He|]|].
    destruct (Hn e s1 Ht) as [e' ->]. by apply Hlast.
  - by apply Hlast.
Qed.

(** ** Runs that succeed *)

Definition succeeds {A} (m : calling A) (Q : A → Prop) : Prop := ∀ s, ∃ a s', m s = (Ret a, s') ∧ Q a.
Lemma succeeds_bind {A B} (m : calling A) (f : A → calling B) Q Q' :
  succeeds m Q → (∀ a, Q a → succeeds (f a) Q') → succeeds (m ≫= f) Q'.
Proof.
  intros Hm Hf s. destruct (Hm s) as (a & s1 & E & Ha). destruct (Hf a Ha s1) as (b & s2 & E2 & Hb).
  exists b, s2. split; [|done]. unfold mbind, M_bind. by rewrite E.
Qed.
Lemma succeeds_mono {A} (m : calling A) (Q Q' : A → Prop) : succeeds m Q → (∀ a, Q a → Q' a) → succeeds m Q'.
Proof. intros Hm HQ s. destruct (Hm s) as (a & s' & E & Ha). exists a, s'. auto. Qed.
Lemma succeeds_ret {A} (a : A) (Q : A → Prop) : Q a → succeeds (mret a) Q.
Proof. intros Ha s. by exists a, s. Qed.
Lemma succeeds_lift {A} (a : A) (Q : A → Prop) : Q a → succeeds (lift (Ret a)) Q.
Proof. intros Ha s. by exists a, s. Qed.
Lemma succeeds_guard e : succeeds (guard_err false e) (λ _, True).
Proof. intros s. by exists (), s. Qed.
Lemma succeeds_issue {reply : C → Type} (env : ∀ c : C, M W goerror (reply c)) c Q :
  (∀ w, ∃ r w', env c w = (Ret r, w') ∧ Q r) → succeeds (issue env c) Q.
Proof.
  intros Hc s. destruct (Hc (c_world s)) as (r & w' & E & Hr). eexists r, _. split; [|done]. unfold issue. by rewrite E.
Qed.
Lemma succeeds_map_err {A} f (m : calling A) Q : succeeds m Q → succeeds (map_err f m) Q.
Proof. intros Hm s. destruct (Hm s) as (a & s' & E & Ha). exists a, s'. split; [|done]. unfold map_err. by rewrite E. Qed.
Lemma succeeds_in_order {A I} (cs : I → list C) (m : calling A) Q s :
  in_order cs m → succeeds m Q → ∃ a s' i, m s = (Ret a, s') ∧ sends (cs i) s s' ∧ Q a.
Proof.
  intros Ho Hs. destruct (Hs s) as (a & s' & E & Ha). specialize (Ho s). rewrite E in Ho.
  destruct Ho as (l & Hl & i & _ & Hi). exists a, s', i. by rewrite <-(Hi a eq_refl).
Qed.
End calls.
#[global] Arguments calling : clear implicits.

(** The steps of a straight-line program, one after the other; a component says how
    it makes its calls. *)
Ltac in_order_call := fail.
Ltac in_order_step :=
  first
    [ apply in_order_ret | apply in_order_lift | apply in_order_guard | in_order_call
    | apply in_order_map_err; in_order_step ].
Ltac in_order_steps :=
  repeat lazymatch goal with
    | |- in_order _ (let '(_, _) := ?x in _) => destruct x
    | |- in_order _ (_ ≫= _) =>
        first [ apply in_order_cons; [in_order_step|intros ?] | apply in_order_silent; [in_order_step|intros ?] ]
    end; try in_order_step.

(** The same for [strict]; a component says how its single calls are. *)
Ltac strict_call := fail.
Ltac strict_steps :=
  repeat lazymatch goal with
    | |- strict _ _ _ (let '(_, _) := ?x in _) => destruct x
    | |- strict _ _ _ (match ?x with _ => _ end) => destruct x
    | |- strict _ _ _ (map_err _ _) => apply strict_map_err
    | |- strict _ _ _ (_ ≫= _) => apply strict_bind; [apply _| |intros ?]
    | |- ∀ _, _ => intros ?
    end;
  try first [ apply strict_ret; apply _ | apply strict_lift; apply _ | apply strict_guard; apply _ | apply strict_throw; apply _ | strict_call ]; try done.

Ltac succeeds_call := fail.
Ltac succeeds_step :=
  first
    [ apply succeeds_guard
    | lazymatch goal with
      | |- succeeds (mret ?a) _ => first [by apply succeeds_ret|by apply (succeeds_ret a (λ x, x = a))]
      | |- succeeds (lift (Ret ?a)) _ => first [by apply succeeds_lift|by apply (succeeds_lift a (λ x, x = a))]
      end
    | succeeds_call | apply succeeds_map_err; succeeds_step ].
Ltac succeeds_steps :=
  repeat lazymatch goal with
    | |- succeeds (_ ≫= _) _ => eapply succeeds_bind; [succeeds_step|intros ? ?]
    end.

End Calls.
