(* ===== verification/BootstrapClient.v ===== *)
(** * BootstrapClient: the operator's client of Coder's API

    internal/coderbootstrap/client.go and provisionerkeys.go: registering
    workspace proxies, making and deleting provisioner keys, reading the
    entitlements, with the optional bypass of the API's rate limit.

    The vendored package codersdk is not modelled: its methods are one parameter
    [sdk], a function from a client, the bypass header and a request to an effect
    on an arbitrary world. *)

From S2P Require Import Prelude GoStd GoErrors Uuid ApiTypes Providers KubeObjects Kube ControlPlaneNames Calls.

#[local] Open Scope string_scope.
#[local] Open Scope list_scope.

Module BootstrapClient.
Import Uuid Providers ControlPlaneNames Calls.

Definition coderSDKRequestTimeout : Z := 30 * second.
Definition DefaultOrganization := "default".
Definition BypassRatelimitHeader := "X-Coder-Bypass-Ratelimit".

(** ** The bypass of the rate limit *)

(** A context, if it is not nil, with its value under
    [bypassRateLimitContextKey]. *)
Definition context : Type := option bool.

Definition withRateLimitBypass (ctx : context) : context := (λ _, true) <$> ctx.
Definition shouldBypassRateLimit (ctx : context) : bool := default false ctx.

Definition isRateLimitBypassRejected (err : goerror) : bool :=
  match as_sdk_error err with Some e => Z.eqb (sdk_StatusCode e) 428 | None => false end.

(** [*http.Request], as far as the transport reads it. *)
Record http_request := { hr_ctx : context; hr_headers : gmap string (list string) }.

(** The request [bypassRateLimitRoundTripper] hands to its base: the original
    one, or a copy with the header set. *)
Definition RoundTrip (req : option http_request) : result http_request :=
  match req with
  | None => Err (Errorf "assertion failed: request must not be nil" [])
  | Some req =>
      if negb (shouldBypassRateLimit (hr_ctx req)) then Ret req
      else Ret {| hr_ctx := hr_ctx req; hr_headers := <[BypassRatelimitHeader := ["true"]]> (hr_headers req) |}
  end.

(** ** Requests *)

Record WorkspaceProxy := { px_ID : Uuid.t; px_Name : string; px_DisplayName : string; px_IconURL : string }.
Record UpdateWorkspaceProxyResponse := { up_ProxyName : string; up_ProxyToken : string }.
Record ProvisionerKey := { key_ID : Uuid.t; key_Name : string }.

Inductive request :=
  | WorkspaceProxyByName (name : string)
  | CreateWorkspaceProxy (name displayName icon : string)
  | PatchWorkspaceProxy (id : Uuid.t) (name displayName icon : string) (regenerateToken : bool)
  | OrganizationByName (name : string)                        (* its ID *)
  | ListProvisionerKeys (organization : Uuid.t)
  | CreateProvisionerKey (organization : Uuid.t) (name : string) (tags : gmap string string)
                                                              (* the plaintext *)
  | DeleteKey (organization : Uuid.t) (name : string)
  | GetEntitlements
  | AddLicenseJWT (license : string)
  | ListLicenses.                                             (* their IDs *)

Definition response (r : request) : Type :=
  match r with
  | WorkspaceProxyByName _ => WorkspaceProxy
  | CreateWorkspaceProxy _ _ _ | PatchWorkspaceProxy _ _ _ _ _ => UpdateWorkspaceProxyResponse
  | OrganizationByName _ => Uuid.t
  | ListProvisionerKeys _ => list ProvisionerKey
  | CreateProvisionerKey _ _ _ => string
  | DeleteKey _ _ | AddLicenseJWT _ => ()
  | GetEntitlements => Entitlements
  | ListLicenses => list Z
  end.

Definition mutates (r : request) : bool :=
  match r with
  | CreateWorkspaceProxy _ _ _ | PatchWorkspaceProxy _ _ _ _ _ | CreateProvisionerKey _ _ _ | DeleteKey _ _
  | AddLicenseJWT _ => true
  | _ => false
  end.

(** A request that was sent: by which client, and whether with the header. *)
Record sent := { sent_client : client; sent_bypass : bool; sent_request : request }.
Section client.
Context {W : Type} (sdk : client → bool → ∀ r : request, M W goerror (response r)).
Context (url_Parse : string → result url).
(** Whether [http.DefaultTransport] is an [*http.Transport]. *)
Context (default_transport : bool).

Definition requesting : Type → Type := calling W sent.

Definition do (ctx : context) (c : client) (r : request) : requesting (response r) :=
  issue (reply := λ x, response (sent_request x)) (λ x, sdk (sent_client x) (sent_bypass x) (sent_request x))
    {| sent_client := c; sent_bypass := shouldBypassRateLimit ctx; sent_request := r |}.

Definition withOptionalRateLimitBypass {T} (ctx : context) (operation : context → requesting T) : requesting T :=
  tried ← attempt (operation (withRateLimitBypass ctx));
  match tried with
  | inl result => mret result
  | inr err => if negb (isRateLimitBypassRejected err) then throw err else operation ctx
  end.

(** [codersdk.New] never returns nil. *)
Definition newAuthenticatedClient (coderURL sessionToken : string) : result client :=
  match url_Parse coderURL with
  | Err err => Err (Errorf "parse coder URL: %w" [FErrW err])
  | Panic e => Panic e
  | Ret coderAPIURL =>
      _ ← fail_if (negb default_transport)
            (Errorf "assertion failed: http.DefaultTransport is not *http.Transport" []);
      mret {| client_URL := coderAPIURL; client_SessionToken := sessionToken;
              client_Timeout := coderSDKRequestTimeout |}
  end.

Definition required (value message : string) : requesting () := guard_err (String.eqb value "") (Errorf message []).

(** ** Workspace proxies *)

Definition EnsureWorkspaceProxy (ctx : context) (req : RegisterWorkspaceProxyRequest)
    : requesting RegisterWorkspaceProxyResponse :=
  _ ← required (rwp_CoderURL req) "coder URL is required";
  _ ← required (rwp_SessionToken req) "session token is required";
  _ ← required (rwp_ProxyName req) "proxy name is required";
  client ← lift (newAuthenticatedClient (rwp_CoderURL req) (rwp_SessionToken req));
  found ← attempt (do ctx client (WorkspaceProxyByName (rwp_ProxyName req)));
  match found with
  | inr err =>
      if negb (match as_sdk_error err with Some e => Z.eqb (sdk_StatusCode e) 404 | None => false end)
      then throw (Errorf "query workspace proxy %q: %w" [FStr (rwp_ProxyName req); FErrW err])
      else
        created ← map_err (λ err, Errorf "create workspace proxy %q: %w" [FStr (rwp_ProxyName req); FErrW err])
          (withOptionalRateLimitBypass ctx (λ requestCtx,
             do requestCtx client (CreateWorkspaceProxy (rwp_ProxyName req) (rwp_DisplayName req) (rwp_Icon req))));
        let created : UpdateWorkspaceProxyResponse := created in
        mret {| rwr_ProxyName := up_ProxyName created; rwr_ProxyToken := up_ProxyToken created |}
  | inl existing =>
      let existing : WorkspaceProxy := existing in
      let displayName := if String.eqb (rwp_DisplayName req) "" then px_DisplayName existing else rwp_DisplayName req in
      let icon := if String.eqb (rwp_Icon req) "" then px_IconURL existing else rwp_Icon req in
      updated ← map_err (λ err, Errorf "update workspace proxy %q: %w" [FStr (rwp_ProxyName req); FErrW err])
        (withOptionalRateLimitBypass ctx (λ requestCtx,
           do requestCtx client (PatchWorkspaceProxy (px_ID existing) (px_Name existing) displayName icon true)));
      let updated : UpdateWorkspaceProxyResponse := updated in
      mret {| rwr_ProxyName := up_ProxyName updated; rwr_ProxyToken := up_ProxyToken updated |}
  end.

(** ** Provisioner keys *)

Definition validateProvisionerKeyInputs (coderURL sessionToken keyName : string) : requesting () :=
  _ ← required coderURL "coder URL is required";
  _ ← required sessionToken "session token is required";
  required keyName "provisioner key name is required".

Definition resolveOrganizationByName (ctx : context) (client : client) (organizationName : string)
    : requesting Uuid.t :=
  organization ← map_err (λ err, Errorf "query organization %q: %w" [FStr organizationName; FErrW err])
                   (do ctx client (OrganizationByName organizationName));
  _ ← guard_err (Z.eqb organization Uuid.Nil)
        (Errorf "assertion failed: organization %q returned an empty ID" [FStr organizationName]);
  mret organization.

(** The loop over the keys. *)
Fixpoint find_key (organizationID : Uuid.t) (keyName : string) (match_ : option ProvisionerKey)
    (keys : list ProvisionerKey) : result (option ProvisionerKey) :=
  match keys with
  | [] => Ret match_
  | key :: keys =>
      if negb (String.eqb (key_Name key) keyName) then find_key organizationID keyName match_ keys
      else if negb (is_nil match_) then
        Err (Errorf "assertion failed: found multiple provisioner keys named %q in organization %q"
               [FStr keyName; FStr (Uuid.to_string organizationID)])
      else find_key organizationID keyName (Some key) keys
  end.

Definition findOrganizationProvisionerKey (ctx : context) (client : client) (organizationID : Uuid.t)
    (keyName : string) : requesting (option ProvisionerKey) :=
  keys ← map_err (λ err, Errorf "list provisioner keys for organization %q: %w"
                     [FStr (Uuid.to_string organizationID); FErrW err])
           (do ctx client (ListProvisionerKeys organizationID));
  lift (find_key organizationID keyName None keys).

(** Making the key that was not found. *)
Definition createProvisionerKey (ctx : context) (client : client) (organization : Uuid.t)
    (req : EnsureProvisionerKeyRequest) : requesting EnsureProvisionerKeyResponse :=
  let name := epk_KeyName req in
  created ← map_err (λ err, Errorf "create provisioner key %q: %w" [FStr name; FErrW err])
    (withOptionalRateLimitBypass ctx (λ requestCtx,
       do requestCtx client (CreateProvisionerKey organization name (epk_Tags req))));
  let created : string := created in
  _ ← guard_err (String.eqb created "")
        (Errorf "assertion failed: created provisioner key %q returned an empty key" [FStr name]);
  createdMetadata ← map_err (λ err, Errorf "query created provisioner key %q: %w" [FStr name; FErrW err])
    (withOptionalRateLimitBypass ctx (λ requestCtx,
       findOrganizationProvisionerKey requestCtx client organization name));
  match createdMetadata with
  | None => throw (Errorf "assertion failed: created provisioner key %q was not returned by list" [FStr name])
  | Some createdMetadata =>
      _ ← guard_err (Z.eqb (key_ID createdMetadata) Uuid.Nil)
            (Errorf "assertion failed: created provisioner key %q returned an empty ID" [FStr name]);
      mret {| epr_OrganizationID := organization; epr_KeyID := key_ID createdMetadata;
              epr_KeyName := key_Name createdMetadata; epr_Key := created |}
  end.

Definition or_default_organization (name : string) : string :=
  if String.eqb name "" then DefaultOrganization else name.

Definition EnsureProvisionerKey (ctx : context) (req : EnsureProvisionerKeyRequest)
    : requesting EnsureProvisionerKeyResponse :=
  _ ← validateProvisionerKeyInputs (epk_CoderURL req) (epk_SessionToken req) (epk_KeyName req);
  client ← lift (newAuthenticatedClient (epk_CoderURL req) (epk_SessionToken req));
  organization ← resolveOrganizationByName ctx client (or_default_organization (epk_OrganizationName req));
  existing ← findOrganizationProvisionerKey ctx client organization (epk_KeyName req);
  match existing with
  | Some existing =>
      _ ← guard_err (Z.eqb (key_ID existing) Uuid.Nil)
            (Errorf "assertion failed: provisioner key %q returned an empty ID" [FStr (epk_KeyName req)]);
      mret {| epr_OrganizationID := organization; epr_KeyID := key_ID existing;
              epr_KeyName := key_Name existing; epr_Key := "" |}
  | None => createProvisionerKey ctx client organization req
  end.

Definition DeleteProvisionerKey (ctx : context) (coderURL sessionToken orgName keyName : string) : requesting () :=
  _ ← validateProvisionerKeyInputs coderURL sessionToken keyName;
  client ← lift (newAuthenticatedClient coderURL sessionToken);
  organization ← resolveOrganizationByName ctx client (or_default_organization orgName);
  deleted ← attempt (withOptionalRateLimitBypass ctx (λ requestCtx,
              do requestCtx client (DeleteKey organization keyName)));
  match deleted with
  | inl _ => mret tt
  | inr err =>
      if match as_sdk_error err with Some e => Z.eqb (sdk_StatusCode e) 404 | None => false end then mret tt
      else throw (Errorf "delete provisioner key %q: %w" [FStr keyName; FErrW err])
  end.

(** [SDKClient.Entitlements] *)
Definition FetchEntitlements (ctx : context) (coderURL sessionToken : string) : requesting Entitlements :=
  _ ← required coderURL "coder URL is required";
  _ ← required sessionToken "session token is required";
  client ← lift (newAuthenticatedClient coderURL sessionToken);
  entitlements ← map_err (λ err, Errorf "get entitlements: %w" [FErrW err])
    (withOptionalRateLimitBypass ctx (λ requestCtx, do requestCtx client GetEntitlements));
  let entitlements : Entitlements := entitlements in
  _ ← guard_err (is_nil (ent_Features entitlements)) (Errorf "assertion failed: entitlements.features is nil" []);
  mret entitlements.
End client.

(** * Properties *)

(** The transport changes nothing but the header, and that only for a context
    that asks for it. *)
Lemma RoundTrip_header req req' :
  RoundTrip (Some req) = Ret req' →
  hr_ctx req' = hr_ctx req ∧
  (hr_headers req' !! BypassRatelimitHeader = Some ["true"] ∨ shouldBypassRateLimit (hr_ctx req) = false) ∧
  (∀ k, k ≠ BypassRatelimitHeader ∨ shouldBypassRateLimit (hr_ctx req) = false →
     hr_headers req' !! k = hr_headers req !! k).
Proof.
  unfold RoundTrip. destruct (shouldBypassRateLimit (hr_ctx req)) eqn:Hb; cbn [negb]; intros [= <-]; cbn.
  - split; [done|]. split; [left; apply lookup_insert_eq|]. intros k [Hk|?]; [by rewrite lookup_insert_ne|done].
  - split; [done|]. split; [by right|done].
Qed.

(** The loop finds the only key of the name, and fails when there are several. *)
Lemma find_key_spec org name keys m m' :
  find_key org name m keys = Ret m' →
  option_list m' = option_list m ++ List.filter (λ k, String.eqb (key_Name k) name) keys.
Proof.
  revert m. induction keys as [|k keys IH]; intros m; cbn.
  - intros [= ->]. by rewrite app_nil_r.
  - destruct (String.eqb (key_Name k) name); cbn [negb]; [|apply IH].
    destruct m as [x|]; cbn [is_nil negb]; [done|]. intros H%IH. by rewrite H.
Qed.

Section client_properties.
Context {W : Type} (sdk : client → bool → ∀ r : request, M W goerror (response r)).
Context (url_Parse : string → result url) (default_transport : bool).
Implicit Types (s : cst W sent) (c : client) (ctx : context) (l : list sent).

Lemma runs_do ctx c r (R : list sent → outcome goerror (response r) → Prop) :
  (∀ o w w', sdk c (shouldBypassRateLimit ctx) r w = (o, w') →
     R [{| sent_client := c; sent_bypass := shouldBypassRateLimit ctx; sent_request := r |}] o) →
  runs (do sdk ctx c r) R.
Proof.
  intros H. refine (runs_issue (reply := λ x, response (sent_request x))
    (λ x, sdk (sent_client x) (sent_bypass x) (sent_request x)) {| sent_request := r |} R _). exact H.
Qed.

Lemma runs_bypass {T} ctx (operation : context → requesting (W:=W) T) R1 R :
  runs (operation (withRateLimitBypass ctx)) R1 →
  (∀ l a, R1 l (Ret a) → R l (Ret a)) → (∀ l e, R1 l (Panic e) → R l (Panic e)) →
  (∀ l e, R1 l (Err e) → isRateLimitBypassRejected e = false → R l (Err e)) →
  (∀ l e, R1 l (Err e) → isRateLimitBypassRejected e = true → runs (operation ctx) (λ l', R (l ++ l'))) →
  runs (withOptionalRateLimitBypass ctx operation) R.
Proof.
  intros Hop Ha Hp He Hr. unfold withOptionalRateLimitBypass.
  apply (runs_bind _ _ (λ l x, match x with Ret (inl a) => R1 l (Ret a) | Ret (inr e) => R1 l (Err e)
    | Err _ => False | Panic e => R1 l (Panic e) end)); [by eapply runs_attempt| |done|auto].
  intros l [a|e] H1; [apply runs_ret; rewrite app_nil_r; auto|].
  destruct (isRateLimitBypassRejected e) eqn:Hb; cbn [negb]; [by eapply Hr|].
  apply runs_throw. rewrite app_nil_r. auto.
Qed.

(** ** One request, with the bypass of the rate limit *)

(** The request is sent with the header, and only if coderd refuses the header
    (428) once more without. *)
Inductive attempted ctx c r : list sent → outcome goerror (response r) → Prop :=
  | attempted_once o w w' :
      sdk c (shouldBypassRateLimit (withRateLimitBypass ctx)) r w = (o, w') →
      (∀ e, o = Err e → isRateLimitBypassRejected e = false) →
      attempted ctx c r [{| sent_client := c; sent_bypass := shouldBypassRateLimit (withRateLimitBypass ctx);
                            sent_request := r |}] o
  | attempted_twice e w1 w2 o w w' :
      sdk c (shouldBypassRateLimit (withRateLimitBypass ctx)) r w1 = (Err e, w2) →
      isRateLimitBypassRejected e = true → sdk c (shouldBypassRateLimit ctx) r w = (o, w') →
      attempted ctx c r [{| sent_client := c; sent_bypass := shouldBypassRateLimit (withRateLimitBypass ctx);
                            sent_request := r |};
                         {| sent_client := c; sent_bypass := shouldBypassRateLimit ctx; sent_request := r |}] o.

Lemma runs_attempted ctx c r : runs (withOptionalRateLimitBypass ctx (λ x, do sdk x c r)) (attempted ctx c r).
Proof.
  apply (runs_bypass _ _ (λ l o, l = [{| sent_client := c;
      sent_bypass := shouldBypassRateLimit (withRateLimitBypass ctx); sent_request := r |}] ∧
    ∃ w w', sdk c (shouldBypassRateLimit (withRateLimitBypass ctx)) r w = (o, w'))).
  - apply runs_do. intros o w w' H. split; [done|]. by exists w, w'.
  - intros l a (-> & w & w' & H). by eapply attempted_once.
  - intros l e (-> & w & w' & H). by eapply attempted_once.
  - intros l e (-> & w & w' & H) Hr. eapply attempted_once; [exact H|]. by intros e' [= <-].
  - intros l e (-> & w & w' & H) Hr. apply runs_do. intros o w1 w1' H1. by eapply attempted_twice.
Qed.

(** The requests that change coderd. *)
Definition writes_of l : list sent := List.filter (λ x, mutates (sent_request x)) l.
Definition reads c l : Prop := Forall (λ x, sent_client x = c ∧ mutates (sent_request x) = false) l.
Definition only_client c l : Prop := Forall (λ x, sent_client x = c) l.

Lemma writes_app l1 l2 : writes_of (l1 ++ l2) = writes_of l1 ++ writes_of l2.
Proof. apply List.filter_app. Qed.
Lemma reads_app c l1 l2 : reads c l1 → reads c l2 → reads c (l1 ++ l2).
Proof. intros. by apply Forall_app. Qed.
Lemma reads_writes c l : reads c l → writes_of l = [].
Proof. intros H. induction H as [|x l [_ Hx] _ IH]; [done|]. cbn. by rewrite Hx. Qed.
Lemma reads_client c l : reads c l → only_client c l.
Proof. intros H. eapply Forall_impl; [exact H|]. by intros x []. Qed.
Lemma attempted_client ctx c r l o : attempted ctx c r l o → only_client c l.
Proof. destruct 1; by repeat constructor. Qed.
Lemma attempted_writes ctx c r l o : attempted ctx c r l o → mutates r = true → writes_of l = l.
Proof. intros H Hr. destruct H; cbn; by rewrite !Hr. Qed.
Lemma attempted_reads ctx c r l o : attempted ctx c r l o → mutates r = false → reads c l.
Proof. destruct 1; by repeat constructor. Qed.

(** ** Provisioner keys *)

Definition organization_is c (name : string) (org : Uuid.t) : Prop :=
  org ≠ Uuid.Nil ∧ ∃ bypass w w', sdk c bypass (OrganizationByName name) w = (Ret org, w').
(** A listing of the organization's keys has exactly this one, or none, of the
    name. *)
Definition the_key c (org : Uuid.t) (name : string) (k : option ProvisionerKey) : Prop :=
  ∃ bypass keys w w', sdk c bypass (ListProvisionerKeys org) w = (Ret keys, w') ∧
    List.filter (λ k, String.eqb (key_Name k) name) keys = option_list k.

Lemma the_key_name c org name k : the_key c org name (Some k) → key_Name k = name.
Proof.
  intros (b & keys & w & w' & _ & H). assert (k ∈ List.filter (λ k, String.eqb (key_Name k) name) keys) as Hin
    by (rewrite H; by left). by apply list_elem_of_In, filter_In in Hin as [_ Hin%String.eqb_eq].
Qed.

Lemma runs_resolve ctx c name :
  runs (resolveOrganizationByName sdk ctx c name) (λ l o, reads c l ∧ ∀ org, o = Ret org → organization_is c name org).
Proof.
  unfold resolveOrganizationByName.
  apply (runs_bind _ _ (λ l o, reads c l ∧ ∀ org, o = Ret org → ∃ bypass w w',
    sdk c bypass (OrganizationByName name) w = (Ret org, w'))); [|intros l org [Hl Ho]|by intros l e []..].
  - apply runs_map_err, runs_do. intros [org|e|e] w w' H; (split; [by repeat constructor|]); [|done..].
    intros ? [= <-]. by exists (shouldBypassRateLimit ctx), w, w'.
  - apply runs_guard_bind; [intros _; rewrite app_nil_r; by split|]. intros Hn%Z.eqb_neq.
    apply runs_ret. rewrite app_nil_r. split; [done|]. intros ? [= <-]. split; [done|by apply Ho].
Qed.

Lemma runs_find ctx c org name :
  runs (findOrganizationProvisionerKey sdk ctx c org name) (λ l o, reads c l ∧ ∀ k, o = Ret k → the_key c org name k).
Proof.
  unfold findOrganizationProvisionerKey.
  apply (runs_bind _ _ (λ l o, reads c l ∧ ∀ keys, o = Ret keys → ∃ bypass w w',
    sdk c bypass (ListProvisionerKeys org) w = (Ret keys, w'))); [|intros l keys [Hl Ho]|by intros l e []..].
  - apply runs_map_err, runs_do. intros [keys|e|e] w w' H; (split; [by repeat constructor|]); [|done..].
    intros ? [= <-]. by exists (shouldBypassRateLimit ctx), w, w'.
  - apply runs_lift. rewrite app_nil_r. split; [done|]. intros k Hk%find_key_spec.
    destruct (Ho keys eq_refl) as (bypass & w & w' & H). by exists bypass, keys, w, w'.
Qed.

Lemma runs_find_bypass ctx c org name :
  runs (withOptionalRateLimitBypass ctx (λ x, findOrganizationProvisionerKey sdk x c org name))
    (λ l o, reads c l ∧ ∀ k, o = Ret k → the_key c org name k).
Proof.
  eapply runs_bypass; [apply runs_find|by intros..|]. intros l e [Hl _] _.
  eapply runs_mono; [apply runs_find|]. intros l' o [Hl' Ho]. split; [by apply reads_app|done].
Qed.

Definition creation (org : Uuid.t) (req : EnsureProvisionerKeyRequest) : request :=
  CreateProvisionerKey org (epk_KeyName req) (epk_Tags req).

(** What a run that is to make sure there is a key has done. *)
Definition key_ensured ctx c (req : EnsureProvisionerKeyRequest) l (o : outcome goerror EnsureProvisionerKeyResponse)
    : Prop :=
  only_client c l ∧
  let name := epk_KeyName req in
  let created org ws o' := organization_is c (or_default_organization (epk_OrganizationName req)) org ∧
    the_key c org name None ∧ attempted ctx c (creation org req) ws o' in
  match o with
  | Ret r =>
      organization_is c (or_default_organization (epk_OrganizationName req)) (epr_OrganizationID r) ∧
      epr_KeyName r = name ∧ epr_KeyID r ≠ Uuid.Nil ∧
      the_key c (epr_OrganizationID r) name (Some {| key_ID := epr_KeyID r; key_Name := name |}) ∧
      if String.eqb (epr_Key r) "" then writes_of l = []
      else created (epr_OrganizationID r) (writes_of l) (Ret (epr_Key r))
  | _ => writes_of l = [] ∨ ∃ org o', created org (writes_of l) o'
  end.

Lemma runs_createProvisionerKey ctx c org req l0 :
  reads c l0 → organization_is c (or_default_organization (epk_OrganizationName req)) org →
  the_key c org (epk_KeyName req) None →
  runs (createProvisionerKey sdk ctx c org req) (λ l, key_ensured ctx c req (l0 ++ l)).
Proof.
  intros Hl0 Horg Hnone. unfold createProvisionerKey. cbv zeta.
  assert (∀ l o, attempted ctx c (creation org req) l o → ∀ l' o', reads c l' →
    match o' with Ret _ => False | _ => True end → key_ensured ctx c req (l0 ++ (l ++ l')) o') as Hfail.
  { intros l o Ha l' o' Hl' Ho'. split.
    - apply Forall_app. split; [by apply reads_client|]. apply Forall_app. split; [by eapply attempted_client|by apply reads_client].
    - cbv zeta. assert (writes_of (l0 ++ (l ++ l')) = l) as ->; [|destruct o'; [done|right; by exists org, o..]].
      rewrite !writes_app, (reads_writes _ _ Hl0), (reads_writes _ _ Hl'), (attempted_writes _ _ _ _ _ Ha eq_refl). apply app_nil_r. }
  apply (runs_bind _ _ (λ l o, match o with Err _ => ∃ e, attempted ctx c (creation org req) l (Err e)
    | o => attempted ctx c (creation org req) l o end)).
  { apply runs_map_err. eapply runs_mono; [apply runs_attempted|]. intros l [k|e|e] H; [done|by exists e|done]. }
  2: { intros l e [e' Ha]. rewrite <-(app_nil_r l). by eapply Hfail; [|constructor|]. }
  2: { intros l e Ha. rewrite <-(app_nil_r l). by eapply Hfail; [|constructor|]. }
  intros l1 created Ha. apply runs_guard_bind; [intros _; by eapply Hfail; [|constructor|]|]. intros Hne.
  apply (runs_bind _ _ (λ l o, reads c l ∧ ∀ k, o = Ret k → the_key c org (epk_KeyName req) k)).
  { apply runs_map_err. eapply runs_mono; [apply runs_find_bypass|]. by intros l [k|e|e] []. }
  2, 3: intros l e [Hl _]; by eapply Hfail.
  intros l2 [k|] [Hl2 Hk]; [|apply runs_throw; rewrite app_nil_r; by eapply Hfail].
  apply runs_guard_bind; [intros _; rewrite app_nil_r; by eapply Hfail|]. intros Hid%Z.eqb_neq.
  apply runs_ret. rewrite app_nil_r. destruct (Hfail _ _ Ha l2 (Err (Errorf "" [])) Hl2 I) as [Hcl _].
  split; [done|]. cbv zeta. cbn [epr_OrganizationID epr_KeyName epr_KeyID epr_Key].
  pose proof (Hk _ eq_refl) as Hkey. pose proof (the_key_name _ _ _ _ Hkey) as Hname. rewrite Hne.
  do 3 (split; [done|]). split; [by destruct k; cbn in *; subst|]. do 2 (split; [done|]).
  rewrite !writes_app, (reads_writes _ _ Hl0), (reads_writes _ _ Hl2), (attempted_writes _ _ _ _ _ Ha eq_refl).
  by rewrite app_nil_r.
Qed.

(** Inputs that are missing, and a URL that does not parse, are refused before
    anything is sent. *)
Definition with_client {A} (coderURL sessionToken : string) (R : client → list sent → outcome goerror A → Prop)
    l (o : outcome goerror A) : Prop :=
  (l = [] ∧ ∀ a, o ≠ Ret a) ∨ ∃ c, newAuthenticatedClient url_Parse default_transport coderURL sessionToken = Ret c ∧
    coderURL ≠ "" ∧ sessionToken ≠ "" ∧ R c l o.

Lemma runs_required {A} value message (f : () → requesting (W:=W) A) R :
  (∀ e, R [] (Err e)) → (value ≠ "" → runs (f tt) R) → runs (required value message ≫= f) R.
Proof. intros He Hf. apply runs_guard_bind; [by intros _|]. intros Hv%String.eqb_neq. auto. Qed.

Lemma runs_client {A} coderURL sessionToken (f : client → requesting (W:=W) A) R :
  coderURL ≠ "" → sessionToken ≠ "" → (∀ c, runs (f c) (R c)) →
  runs (client ← lift (newAuthenticatedClient url_Parse default_transport coderURL sessionToken); f client)
    (with_client coderURL sessionToken R).
Proof.
  intros Hu Ht Hf. apply (runs_bind _ _ (λ l o, l = [] ∧
    o = newAuthenticatedClient url_Parse default_transport coderURL sessionToken)); [by apply runs_lift|..].
  - intros l c [-> Hc]. eapply runs_mono; [apply Hf|]. intros l o H. right. by exists c.
  - intros l e [-> _]. by left.
  - intros l e [-> _]. by left.
Qed.

Lemma runs_validated {A} coderURL sessionToken keyName (f : client → requesting (W:=W) A) R :
  (∀ c, runs (f c) (R c)) →
  runs (_ ← validateProvisionerKeyInputs coderURL sessionToken keyName;
        client ← lift (newAuthenticatedClient url_Parse default_transport coderURL sessionToken); f client)
    (with_client coderURL sessionToken R).
Proof.
  intros Hf. apply (runs_bind _ _ (λ l o, l = [] ∧ ∀ u, o = Ret u → coderURL ≠ "" ∧ sessionToken ≠ "")).
  - unfold validateProvisionerKeyInputs. apply runs_required; [by intros|intros Hu].
    apply runs_required; [by intros|intros Ht]. apply runs_lift. by split.
  - intros l u [-> Hv]. destruct (Hv u eq_refl) as [Hu Ht]. by apply runs_client.
  - intros l e [-> _]. by left.
  - intros l e [-> _]. by left.
Qed.

Lemma reads_nothing ctx c req l (o : outcome goerror EnsureProvisionerKeyResponse) :
  reads c l → (∀ r, o ≠ Ret r) → key_ensured ctx c req l o.
Proof.
  intros Hl Ho. split; [by apply reads_client|]. cbv zeta.
  destruct o as [r|e|e]; [by destruct (Ho r)|left; by eapply reads_writes..].
Qed.

Lemma runs_EnsureProvisionerKey ctx req :
  runs (EnsureProvisionerKey sdk url_Parse default_transport ctx req)
    (with_client (epk_CoderURL req) (epk_SessionToken req) (λ c, key_ensured ctx c req)).
Proof.
  unfold EnsureProvisionerKey. apply runs_validated. intros c.
  eapply runs_bind; [apply runs_resolve| |by intros l e []; apply reads_nothing..].
  intros l1 org [Hl1 Horg]. specialize (Horg org eq_refl).
  eapply runs_bind; [apply runs_find| |intros l e []; apply reads_nothing; [by apply reads_app|done]..].
  intros l2 k [Hl2 Hk]. specialize (Hk k eq_refl). pose proof (reads_app _ _ _ Hl1 Hl2) as Hl.
  destruct k as [k|].
  - apply runs_guard_bind; [intros _; rewrite app_nil_r; by apply reads_nothing|]. intros Hid%Z.eqb_neq.
    apply runs_ret. rewrite app_nil_r. split; [by apply reads_client|]. cbv zeta. cbn.
    pose proof (the_key_name _ _ _ _ Hk) as Hname. do 3 (split; [done|]). split; [|by eapply reads_writes].
    by destruct k; cbn in *; subst.
  - eapply runs_mono; [by apply (runs_createProvisionerKey _ _ _ _ _ Hl)|]. intros l o. by rewrite app_assoc.
Qed.

(** A deletion that succeeds was accepted, or there was no such key. *)
Definition key_removed ctx c (orgName keyName : string) l (o : outcome goerror ()) : Prop :=
  only_client c l ∧
  let deleted org o' := organization_is c (or_default_organization orgName) org ∧
    attempted ctx c (DeleteKey org keyName) (writes_of l) o' in
  match o with
  | Ret _ => ∃ org o', deleted org o' ∧
      (o' = Ret tt ∨ ∃ e err, o' = Err e ∧ as_sdk_error e = Some err ∧ sdk_StatusCode err = 404%Z)
  | _ => writes_of l = [] ∨ ∃ org o', deleted org o'
  end.

Lemma runs_DeleteProvisionerKey ctx coderURL sessionToken orgName keyName :
  runs (DeleteProvisionerKey sdk url_Parse default_transport ctx coderURL sessionToken orgName keyName)
    (with_client coderURL sessionToken (λ c, key_removed ctx c orgName keyName)).
Proof.
  unfold DeleteProvisionerKey. apply runs_validated. intros c.
  eapply runs_bind; [apply runs_resolve| |by intros l e [Hl _]; split; [by apply reads_client|left; by eapply reads_writes]..].
  intros l1 org [Hl1 Horg]. specialize (Horg org eq_refl).
  assert (∀ l o, attempted ctx c (DeleteKey org keyName) l o →
    only_client c (l1 ++ l) ∧ writes_of (l1 ++ l) = l) as Hw.
  { intros l o Ha. split; [apply Forall_app; split; [by apply reads_client|by eapply attempted_client]|].
    by rewrite writes_app, (reads_writes _ _ Hl1), (attempted_writes _ _ _ _ _ Ha eq_refl). }
  apply (runs_bind _ _ (λ l o, match o with
    | Ret (inl _) => attempted ctx c (DeleteKey org keyName) l (Ret tt)
    | Ret (inr e) => attempted ctx c (DeleteKey org keyName) l (Err e)
    | Err _ => False | Panic e => attempted ctx c (DeleteKey org keyName) l (Panic e) end)).
  { eapply runs_attempt; [apply runs_attempted|by intros l []|done..]. }
  2: done.
  2: { intros l e Ha. destruct (Hw _ _ Ha) as [Hc Hl]. split; [done|]. right. rewrite Hl. by exists org, (Panic e). }
  intros l [u|e] Ha; destruct (Hw _ _ Ha) as [Hc Hl].
  - apply runs_ret. rewrite app_nil_r. split; [done|]. exists org, (Ret tt). rewrite Hl. by split; [|left].
  - destruct (as_sdk_error e) as [err|] eqn:Herr; [destruct (Z.eqb_spec (sdk_StatusCode err) 404)|].
    + apply runs_ret. rewrite app_nil_r. split; [done|]. exists org, (Err e). rewrite Hl. split; [done|].
      right. by exists e, err.
    + apply runs_throw. rewrite app_nil_r. split; [done|]. right. exists org, (Err e). by rewrite Hl.
    + apply runs_throw. rewrite app_nil_r. split; [done|]. right. exists org, (Err e). by rewrite Hl.
Qed.

(** ** Workspace proxies *)

(** The proxy of the name, if coderd has it: it answered the query with it, or
    with 404. *)
Definition proxy_is c (name : string) (existing : option WorkspaceProxy) : Prop :=
  ∃ bypass o w w', sdk c bypass (WorkspaceProxyByName name) w = (o, w') ∧
    match existing with
    | Some px => o = Ret px
    | None => ∃ e err, o = Err e ∧ as_sdk_error e = Some err ∧ sdk_StatusCode err = 404%Z
    end.

Definition patch_of (req : RegisterWorkspaceProxyRequest) (existing : WorkspaceProxy) : request :=
  PatchWorkspaceProxy (px_ID existing) (px_Name existing)
    (if String.eqb (rwp_DisplayName req) "" then px_DisplayName existing else rwp_DisplayName req)
    (if String.eqb (rwp_Icon req) "" then px_IconURL existing else rwp_Icon req) true.
Definition creation_of (req : RegisterWorkspaceProxyRequest) : request :=
  CreateWorkspaceProxy (rwp_ProxyName req) (rwp_DisplayName req) (rwp_Icon req).

Definition answer (u : UpdateWorkspaceProxyResponse) : RegisterWorkspaceProxyResponse :=
  {| rwr_ProxyName := up_ProxyName u; rwr_ProxyToken := up_ProxyToken u |}.

(** An existing proxy gets a new token and keeps its name; one that does not
    exist is created. *)
Definition proxy_registered ctx c (req : RegisterWorkspaceProxyRequest) l
    (o : outcome goerror RegisterWorkspaceProxyResponse) : Prop :=
  only_client c l ∧
  ((writes_of l = [] ∧ ∀ r, o ≠ Ret r) ∨
   (∃ px o', proxy_is c (rwp_ProxyName req) (Some px) ∧ attempted ctx c (patch_of req px) (writes_of l) o' ∧
      ∀ r, o = Ret r → ∃ u, o' = Ret u ∧ r = answer u) ∨
   (∃ o', proxy_is c (rwp_ProxyName req) None ∧ attempted ctx c (creation_of req) (writes_of l) o' ∧
      ∀ r, o = Ret r → ∃ u, o' = Ret u ∧ r = answer u)).

(** A request that changes coderd after one that does not, and its answer. *)
Lemma runs_change ctx c r f (g : response r → RegisterWorkspaceProxyResponse) l0 R :
  mutates r = true → reads c l0 →
  (∀ l o o', only_client c l → attempted ctx c r (writes_of l) o' →
     (∀ x, o = Ret x → ∃ u, o' = Ret u ∧ x = g u) → R l o) →
  runs (u ← map_err f (withOptionalRateLimitBypass ctx (λ x, do sdk x c r)); mret (g u)) (λ l, R (l0 ++ l)).
Proof.
  intros Hm Hl0 HR.
  assert (∀ l o', attempted ctx c r l o' → only_client c (l0 ++ l) ∧ attempted ctx c r (writes_of (l0 ++ l)) o') as Hw.
  { intros l o' Ha. split; [apply Forall_app; split; [by apply reads_client|by eapply attempted_client]|].
    by rewrite writes_app, (reads_writes _ _ Hl0), (attempted_writes _ _ _ _ _ Ha Hm). }
  apply (runs_bind _ _ (λ l o, match o with Err _ => ∃ e, attempted ctx c r l (Err e)
    | o => attempted ctx c r l o end)).
  - apply runs_map_err. eapply runs_mono; [apply runs_attempted|]. intros l [k|e|e] H; [done|by exists e|done].
  - intros l u Ha. apply runs_ret. rewrite app_nil_r. destruct (Hw _ _ Ha) as [Hc Ha']. eapply HR; [done|exact Ha'|].
    intros x [= <-]. by exists u.
  - intros l e [e' Ha]. destruct (Hw _ _ Ha) as [Hc Ha']. by eapply HR.
  - intros l e Ha. destruct (Hw _ _ Ha) as [Hc Ha']. by eapply HR.
Qed.

Lemma runs_EnsureWorkspaceProxy ctx req :
  runs (EnsureWorkspaceProxy sdk url_Parse default_transport ctx req)
    (with_client (rwp_CoderURL req) (rwp_SessionToken req) (λ c, proxy_registered ctx c req)).
Proof.
  unfold EnsureWorkspaceProxy. apply runs_required; [by left|intros Hu]. apply runs_required; [by left|intros Ht].
  apply runs_required; [by left|intros Hname]. apply (runs_client _ _ _ (λ c, proxy_registered ctx c req)); [done..|intros c].
  set (name := rwp_ProxyName req).
  apply (runs_bind _ _ (λ l o, reads c l ∧ match o with
    | Ret (inl px) => proxy_is c name (Some px)
    | Ret (inr e) => ∃ bypass w w', sdk c bypass (WorkspaceProxyByName name) w = (Err e, w')
    | Err _ => False | Panic _ => True end)).
  { apply (runs_attempt _ _ (λ l o, reads c l ∧ ∃ bypass w w', sdk c bypass (WorkspaceProxyByName name) w = (o, w'))).
    - apply runs_do. intros o w w' H. split; [by repeat constructor|]. by exists (shouldBypassRateLimit ctx), w, w'.
    - intros l px (Hl & b & w & w' & H). split; [done|]. by exists b, (Ret px), w, w'.
    - by intros l e [Hl ?].
    - by intros l e [Hl ?]. }
  2: by intros l e [].
  2: { intros l e [Hl _]. split; [by apply reads_client|]. left. split; [by eapply reads_writes|done]. }
  intros l1 [px|e] [Hl1 H1].
  - apply (runs_change ctx c (patch_of req px) _ answer l1 (proxy_registered ctx c req)); [done|done|].
    intros l o o' Hc Ha Ho. split; [done|]. right. left. by exists px, o'.
  - destruct H1 as (b & w & w' & H1). destruct (as_sdk_error e) as [err|] eqn:Herr; [destruct (Z.eqb_spec (sdk_StatusCode err) 404)|]; cbn [negb].
    2, 3: apply runs_throw; rewrite app_nil_r; (split; [by apply reads_client|]); left; (split; [by eapply reads_writes|done]).
    apply (runs_change ctx c (creation_of req) _ answer l1 (proxy_registered ctx c req)); [done|done|].
    intros l o o' Hc Ha Ho. split; [done|]. right. right. exists o'. split; [|done]. exists b, (Err e), w, w'.
    split; [done|]. by exists e, err.
Qed.

(** ** Entitlements *)

Lemma runs_FetchEntitlements ctx coderURL sessionToken :
  runs (FetchEntitlements sdk url_Parse default_transport ctx coderURL sessionToken)
    (with_client coderURL sessionToken (λ c l o, reads c l ∧
       ∀ e, o = Ret e → ent_Features e ≠ None ∧ attempted ctx c GetEntitlements l (Ret e))).
Proof.
  unfold FetchEntitlements. apply runs_required; [by left|intros Hu]. apply runs_required; [by left|intros Ht].
  apply runs_client; [done..|intros c].
  apply (runs_bind _ _ (λ l o, reads c l ∧ ∀ e, o = Ret e → attempted ctx c GetEntitlements l (Ret e))).
  - apply runs_map_err. eapply runs_mono; [apply runs_attempted|]. intros l o Ha.
    pose proof (attempted_reads _ _ _ _ _ Ha eq_refl) as Hl. destruct o as [e|e|e]; (split; [done|]); [|done..].
    by intros ? [= <-].
  - intros l e [Hl Ha]. apply runs_guard_bind; [intros _; rewrite app_nil_r; by split|]. intros Hf.
    apply runs_ret. rewrite app_nil_r. split; [done|]. intros ? [= <-]. split; [by destruct (ent_Features e)|by apply Ha].
  - by intros l e [Hl _].
  - by intros l e [Hl _].
Qed.
End client_properties.

(** what the operator does to coderd for a provisioner key.  All requests
    of a run go to the deployment and with the token it was called for, and
    without a URL, token or name nothing is sent.  A key is created only in the
    organization that was looked up, and only if its listing has no key of the
    name; the creation is repeated, without the bypass header, only if coderd
    refuses that header.  The answer names a key that the listing has exactly
    once; it has a plaintext exactly if this run created it, and then that of the
    accepted creation.  A deletion succeeds only if coderd accepted it or has no
    such key. *)
Theorem provisioner_key_client {W} (sdk : client → bool → ∀ r : request, M W goerror (response r))
    (url_Parse : string → result url) (default_transport : bool) (ctx : context) (s : cst W sent) :
  (∀ req, let '(o, s') := EnsureProvisionerKey sdk url_Parse default_transport ctx req s in
     ∃ l, sends l s s' ∧
       with_client url_Parse default_transport (epk_CoderURL req) (epk_SessionToken req)
         (λ c, key_ensured sdk ctx c req) l o) ∧
  (∀ coderURL sessionToken orgName keyName,
     let '(o, s') := DeleteProvisionerKey sdk url_Parse default_transport ctx coderURL sessionToken orgName keyName s in
     ∃ l, sends l s s' ∧
       with_client url_Parse default_transport coderURL sessionToken (λ c, key_removed sdk ctx c orgName keyName) l o).
Proof. split; intros; [apply runs_EnsureProvisionerKey|apply runs_DeleteProvisionerKey]. Qed.

(** registering a workspace proxy.  At most one change is asked of coderd,
    repeated without the bypass header only if coderd refuses it: an existing
    proxy is patched under its own name and identifier, with a new token and
    with its display name and icon where none are given; one that coderd does
    not have (404) is created; after any other answer nothing is changed.  The
    token returned is that of the accepted change. *)
Theorem workspace_proxy_client {W} (sdk : client → bool → ∀ r : request, M W goerror (response r))
    (url_Parse : string → result url) (default_transport : bool) (ctx : context) (s : cst W sent)
    (req : RegisterWorkspaceProxyRequest) :
  let '(o, s') := EnsureWorkspaceProxy sdk url_Parse default_transport ctx req s in
  ∃ l, sends l s s' ∧
    with_client url_Parse default_transport (rwp_CoderURL req) (rwp_SessionToken req)
      (λ c, proxy_registered sdk ctx c req) l o.
Proof. apply runs_EnsureWorkspaceProxy. Qed.

(** ** A concrete coderd *)

(** It knows one organization and refuses the bypass header; its world is the
    list of its keys. *)
Definition example_coderd (c : client) (bypass : bool) (r : request)
    : M (list ProvisionerKey) goerror (response r) := λ keys,
  match r with
  | OrganizationByName _ => (Ret 7%Z, keys)
  | ListProvisionerKeys _ => (Ret keys, keys)
  | CreateProvisionerKey _ name _ =>
      if bypass then (Err (SDKErr (SdkError 428 "" "")), keys)
      else (Ret "plain", keys ++ [{| key_ID := 9%Z; key_Name := name |}])
  | _ => (Err (SDKErr (SdkError 404 "" "")), keys)
  end.
Definition example_request : EnsureProvisionerKeyRequest := {|
  epk_CoderURL := "http://coder"; epk_SessionToken := "t"; epk_OrganizationName := ""; epk_KeyName := "prov";
  epk_Tags := ∅ |}.
Definition example_ensure :=
  EnsureProvisionerKey example_coderd (λ u, Ret {| url_Raw := u; url_Scheme := "http"; url_Host := "coder" |}) true
    (Some false) example_request.

(** The key is made on the second try, without the header, and is found without
    its plaintext afterwards. *)
Example key_is_made_once :
  let '(o, s) := example_ensure (CSt [] []) in
  o = Ret {| epr_OrganizationID := 7%Z; epr_KeyID := 9%Z; epr_KeyName := "prov"; epr_Key := "plain" |} ∧
  map sent_bypass (List.filter (λ x, mutates (sent_request x)) (c_calls s)) = [true; false] ∧
  (example_ensure s).1 = Ret {| epr_OrganizationID := 7%Z; epr_KeyID := 9%Z; epr_KeyName := "prov"; epr_Key := "" |}.
Proof. vm_compute. done. Qed.

End BootstrapClient.
