(* ===== verification/LicenseClient.v ===== *)
(** * LicenseClient: licenses and entitlements over Coder's API

    The clients behind the interfaces [LicenseUploader] and
    [EntitlementsInspector] of the control plane controller
    (internal/controller/codercontrolplane_controller.go), as programs over the
    same requests as those of [BootstrapClient]. *)

From S2P Require Import Prelude GoStd GoErrors ApiTypes Providers KubeObjects Kube ControlPlaneNames ControlPlaneStatus License Calls BootstrapClient.

#[local] Open Scope string_scope.
#[local] Open Scope list_scope.

Module LicenseClient.
Import Providers ControlPlaneNames ControlPlaneStatus License Calls BootstrapClient.

Definition licenseUploadRequestTimeout : Z := 30 * second.

Section clients.
Context {W : Type} (sdk : client → bool → ∀ r : request, M W goerror (response r)).
Context (url_Parse : string → result url) (default_transport : bool).

(** The client has a transport of its own; [codersdk.New] gives it an HTTP
    client. *)
Definition newSDKLicenseClient (coderURL sessionToken : string) : result client :=
  _ ← fail_if (blank coderURL) (assertion "assertion failed: coder URL must not be empty");
  _ ← fail_if (String.eqb sessionToken "") (assertion "assertion failed: session token must not be empty");
  match url_Parse coderURL with
  | Err err => Err (Errorf "parse coder URL: %w" [FErrW err])
  | Panic e => Panic e
  | Ret parsedURL =>
      _ ← fail_if (negb default_transport)
            (assertion "assertion failed: http.DefaultTransport is not *http.Transport");
      mret {| client_URL := parsedURL; client_SessionToken := sessionToken;
              client_Timeout := licenseUploadRequestTimeout |}
  end.

(** These clients never ask to bypass the rate limit. *)
Definition ask (c : client) (r : request) : requesting (W:=W) (response r) := do sdk (Some false) c r.

(** [sdkEntitlementsInspector.Entitlements] *)
Definition InspectEntitlements (coderURL sessionToken : string) : requesting (W:=W) Entitlements :=
  client ← lift (newSDKLicenseClient coderURL sessionToken);
  entitlements ← map_err (λ err, Errorf "query coder entitlements: %w" [FErrW err]) (ask client GetEntitlements);
  let entitlements : Entitlements := entitlements in
  _ ← guard_err (is_nil (ent_Features entitlements))
        (assertion "assertion failed: entitlements features must not be nil");
  mret entitlements.

(** [sdkLicenseUploader.AddLicense]; coderd's answer is not used. *)
Definition AddLicense (coderURL sessionToken licenseJWT : string) : requesting (W:=W) () :=
  _ ← guard_err (String.eqb licenseJWT "") (assertion "assertion failed: license JWT must not be empty");
  client ← lift (newSDKLicenseClient coderURL sessionToken);
  _ ← map_err (λ err, Errorf "upload coder license: %w" [FErrW err]) (ask client (AddLicenseJWT licenseJWT));
  mret tt.

(** [sdkLicenseUploader.HasAnyLicense] *)
Definition HasAnyLicense (coderURL sessionToken : string) : requesting (W:=W) bool :=
  client ← lift (newSDKLicenseClient coderURL sessionToken);
  licenses ← map_err (λ err, Errorf "list coder licenses: %w" [FErrW err]) (ask client ListLicenses);
  mret (0 <? Z.of_nat (length (licenses : list Z)))%Z.

(** * Properties *)

(** A run that gets as far as the client makes exactly one request, with it. *)
Definition asked {A} (coderURL sessionToken : string) (r : request) (K : response r → A → Prop)
    l (o : outcome goerror A) : Prop :=
  (l = [] ∧ ∀ a, o ≠ Ret a) ∨
  ∃ c, newSDKLicenseClient coderURL sessionToken = Ret c ∧
    l = [{| sent_client := c; sent_bypass := false; sent_request := r |}] ∧
    ∃ w o' w', sdk c false r w = (o', w') ∧
      match o with
      | Ret a => ∃ x, o' = Ret x ∧ K x a
      | Err e => (∃ x, o' = Ret x) ∨ ∃ e', o' = Err e' ∧ as_sdk_error e = as_sdk_error e'
      | Panic e => o' = Panic e
      end.

(** The client is the one of the URL and the token, both of which are there. *)
Lemma newSDKLicenseClient_Ret coderURL sessionToken c :
  newSDKLicenseClient coderURL sessionToken = Ret c →
  blank coderURL = false ∧ sessionToken ≠ "" ∧ url_Parse coderURL = Ret (client_URL c) ∧
  client_SessionToken c = sessionToken ∧ client_Timeout c = licenseUploadRequestTimeout.
Proof.
  unfold newSDKLicenseClient, fail_if. destruct (blank coderURL); [done|].
  destruct (String.eqb_spec sessionToken ""); [done|]. cbn. destruct (url_Parse coderURL) as [u|e|e]; [|done..].
  destruct (negb default_transport); [done|]. by intros [= <-].
Qed.

(** The wrapping of the errors keeps coderd's. *)
Lemma as_sdk_error_wrapped format err : as_sdk_error (Errorf format [FErrW err]) = as_sdk_error err.
Proof. unfold as_sdk_error. cbn. by destruct (find_in_chain _ err). Qed.

Lemma runs_asked {A} coderURL sessionToken r format (g : response r → requesting (W:=W) A) K :
  (∀ x, runs (g x) (λ l o, l = [] ∧ match o with Ret a => K x a | Err _ => True | Panic _ => False end)) →
  runs (client ← lift (newSDKLicenseClient coderURL sessionToken);
        x ← map_err (λ err, Errorf format [FErrW err]) (ask client r); g x) (asked coderURL sessionToken r K).
Proof.
  intros Hg. apply runs_lift_bind; [intros c Hc|by left..].
  apply (runs_bind _ _ (λ l o, l = [{| sent_client := c; sent_bypass := false; sent_request := r |}] ∧
    ∃ w o' w', sdk c false r w = (o', w') ∧
      match o with
      | Ret x => o' = Ret x
      | Err e => ∃ e', o' = Err e' ∧ as_sdk_error e = as_sdk_error e'
      | Panic e => o' = Panic e
      end)).
  - apply runs_map_err, runs_do. intros [x|e|e] w w' H; (split; [done|]); exists w; eexists _, w'; (split; [exact H|]); [done| |done].
    exists e. by rewrite as_sdk_error_wrapped.
  - intros l x [-> (w & o' & w' & Hs & ->)]. eapply runs_mono; [apply Hg|]. intros l o [-> Ho]. rewrite app_nil_r.
    right. exists c. do 2 (split; [done|]). exists w, (Ret x), w'. split; [done|].
    destruct o as [a|e|e]; [by exists x|left; by exists x|done].
  - intros l e [-> (w & o' & w' & Hs & Ho)]. right. exists c. do 2 (split; [done|]). exists w, o', w'. split; [done|by right].
  - intros l e [-> (w & o' & w' & Hs & Ho)]. right. exists c. do 2 (split; [done|]). by exists w, o', w'.
Qed.

Lemma runs_InspectEntitlements coderURL sessionToken :
  runs (InspectEntitlements coderURL sessionToken)
    (asked coderURL sessionToken GetEntitlements (λ x e, e = x ∧ ent_Features e ≠ None)).
Proof.
  refine (runs_asked _ _ GetEntitlements "query coder entitlements: %w" (λ e : Entitlements, _ ← guard_err (is_nil (ent_Features e)) _; mret e) _ _).
  intros e. apply runs_guard_bind; [done|]. intros He. apply runs_ret. split; [done|].
  split; [done|]. by destruct (ent_Features e).
Qed.

Lemma runs_AddLicense coderURL sessionToken licenseJWT :
  runs (AddLicense coderURL sessionToken licenseJWT)
    (λ l o, (licenseJWT ≠ "" ∨ l = [] ∧ ∀ a, o ≠ Ret a) ∧
       asked coderURL sessionToken (AddLicenseJWT licenseJWT) (λ _ _, True) l o).
Proof.
  unfold AddLicense. apply runs_guard_bind; [intros _; split; [by right|by left]|]. intros Hj%String.eqb_neq.
  eapply runs_mono; [refine (runs_asked _ _ (AddLicenseJWT licenseJWT) "upload coder license: %w" (λ _, mret tt) (λ _ _, True) _)|].
  { intros x. by apply runs_ret. }
  intros l o H. split; [by left|done].
Qed.

Lemma runs_HasAnyLicense coderURL sessionToken :
  runs (HasAnyLicense coderURL sessionToken)
    (asked coderURL sessionToken ListLicenses (λ x b, b = true ↔ (x : list Z) ≠ [])).
Proof.
  refine (runs_asked _ _ ListLicenses "list coder licenses: %w" (λ x : list Z, mret (0 <? Z.of_nat (length x))%Z) _ _).
  intros x. apply runs_ret. split; [done|]. destruct x; cbn; [|by rewrite Z.ltb_lt; split].
  split; [done|by intros []].
Qed.
End clients.

End LicenseClient.
