(* ===== verification/Locality.v ===== *)
(** * Locality: reconciliations change the world only through their calls

    The three controllers are programs over a world they cannot see: it changes
    only when they make a call, look at the clock or draw random bytes.  So an
    invariant of the state that these three keep is kept by every reconciliation,
    whatever it does and however it ends ([control_plane_keeps],
    [provisioner_keeps], [proxy_keeps]).  [Linked] uses this to follow the
    requests that the calls lead to. *)

From S2P Require Import Prelude GoStd GoErrors ApiTypes KubeObjects Kube ControlPlaneNames ControlPlaneStatus OperatorAccess License ServiceAccounts WorkspaceRBAC Workload Exposure ControlPlane ProvisionerNames Provisioner WorkspaceProxy.

#[local] Open Scope list_scope.

Module Locality.
Import ProvisionerNames Provisioner.

(** ** Programs that keep an invariant *)

Definition keeps {S E A} (I : S → Prop) (m : M S E A) : Prop := ∀ s, I s → I (m s).2.

Section keeps.
Context {S E : Type} (I : S → Prop).
#[local] Abbreviation keeps := (keeps I).

Lemma keeps_ret {A} (a : A) : keeps (mret a : M S E A).
Proof. by intros s. Qed.
Lemma keeps_throw {A} (e : E) : keeps (throw e : M S E A).
Proof. by intros s. Qed.
Lemma keeps_lift {A} (o : outcome E A) : keeps (lift o).
Proof. by intros s. Qed.
Lemma keeps_guard b e : keeps (guard_err b e : M S E ()).
Proof. by intros s. Qed.
Lemma keeps_bind {A B} (m : M S E A) (f : A → M S E B) : keeps m → (∀ a, keeps (f a)) → keeps (m ≫= f).
Proof.
  intros Hm Hf s Hs. specialize (Hm s Hs). unfold mbind, M_bind.
  destruct (m s) as [[a|e|e] s1]; [by apply Hf|done..].
Qed.
Lemma keeps_attempt {A} (m : M S E A) : keeps m → keeps (attempt m).
Proof. intros Hm s Hs. specialize (Hm s Hs). unfold attempt. by destruct (m s) as [[]]. Qed.
Lemma keeps_map_err {A} f (m : M S E A) : keeps m → keeps (map_err f m).
Proof. intros Hm s Hs. specialize (Hm s Hs). unfold map_err. by destruct (m s) as [[]]. Qed.
Lemma keeps_mfor {A B} (f : B → A → M S E B) b l : (∀ b a, keeps (f b a)) → keeps (mfor f b l).
Proof.
  intros Hf. revert b. induction l as [|a l IH]; intros b; cbn; [apply keeps_ret|]. by apply keeps_bind.
Qed.
End keeps.

Section reconciliations.
Context {W : Type} (env : ∀ a : action, M W goerror (reply a)) (I : kst W → Prop).
Hypothesis act_keeps : ∀ a, keeps I (act env a).

Lemma keeps_ignoring ignored (m : reconciliation (W:=W) ()) : keeps I m → keeps I (ignoring ignored m).
Proof.
  intros Hm s Hs. specialize (Hm s Hs). unfold ignoring. destruct (m s) as [[u|e|e] s1]; [done| |done].
  by destruct (ignored e).
Qed.
Lemma keeps_retry {A} (kept : A) (fn : reconciliation (W:=W) A) : keeps I fn → keeps I (RetryOnConflict env kept fn).
Proof.
  intros Hfn. unfold RetryOnConflict. generalize (@None goerror), 4%nat. intros o n. revert o. induction n as [|n IH]; intros lastErr s Hs;
    cbn [retry_loop]; specialize (Hfn s Hs); destruct (fn s) as [[a|e|e] s1]; try done.
  - destruct (IsConflict e); [done|]. by destruct (Interrupted e), lastErr.
  - destruct (IsConflict e).
    + apply (keeps_bind I); [apply keeps_attempt, act_keeps|intros _; apply IH|done].
    + by destruct (Interrupted e), lastErr.
Qed.
End reconciliations.

(** The structure of a program decides it; [keeps_leaf] knows its calls. *)
Ltac keeps_leaf := fail.
Ltac head_of t := lazymatch t with ?f _ => head_of f | _ => t end.
Ltac keeps_steps :=
  lazymatch goal with
  | |- keeps _ (mret _) => apply keeps_ret
  | |- keeps _ (throw _) => apply keeps_throw
  | |- keeps _ (lift _) => apply keeps_lift
  | |- keeps _ (guard_err _ _) => apply keeps_guard
  | |- keeps _ (_ ≫= _) => apply keeps_bind; [keeps_steps|intros ?; keeps_steps]
  | |- keeps _ (attempt _) => apply keeps_attempt; keeps_steps
  | |- keeps _ (map_err _ _) => apply keeps_map_err; keeps_steps
  | |- keeps _ (mfor _ _ _) => apply keeps_mfor; intros ? ?; keeps_steps
  | |- keeps _ (ignoring _ _) => apply keeps_ignoring; keeps_steps
  | |- keeps _ (RetryOnConflict _ _ _) => apply keeps_retry; [solve [eauto]|keeps_steps]
  | |- keeps _ (let x := _ in _) => cbv zeta; keeps_steps
  | |- keeps _ (match ?x with _ => _ end) => destruct x; keeps_steps
  | |- keeps _ ((λ _, _) _) => cbv beta; keeps_steps
  | |- keeps _ ?m => first [keeps_leaf | let h := head_of m in unfold h; keeps_steps]
  end.

Section controllers.
Context {W : Type} (env : ∀ a : action, M W goerror (reply a)) `{!HasClock W} (I : kst W → Prop).
Hypothesis act_keeps : ∀ a, keeps I (act env a).
Hypothesis Now_keeps : keeps I (Now (W:=W)).

Ltac keeps_leaf ::=
  lazymatch goal with
  | |- keeps _ (act _ ?a) => exact (act_keeps a)
  | |- keeps _ Now => exact Now_keeps
  | IH : ∀ i, keeps _ (Workload.sources_define _ _ _ _ i ?l) |- keeps _ (Workload.sources_define _ _ _ _ _ ?l) => apply IH
  end.

Lemma sources_define_keeps rd namespace name i sources :
  keeps I (Workload.sources_define env rd namespace name i sources).
Proof. revert i. induction sources as [|source sources IH]; intros i; cbn [Workload.sources_define]; keeps_steps. Qed.

Ltac keeps_leaf ::=
  lazymatch goal with
  | |- keeps _ (act _ ?a) => exact (act_keeps a)
  | |- keeps _ Now => exact Now_keeps
  | |- keeps _ (Workload.sources_define _ _ _ _ _ _) => apply sources_define_keeps
  end.

Lemma control_plane_keeps r req : keeps I (ControlPlane.Reconcile env r req).
Proof. keeps_steps. Qed.

Lemma proxy_keeps r req : keeps I (WorkspaceProxy.Reconcile env r req).
Proof. keeps_steps. Qed.

(** The steps of a provisioner carry the object besides the state. *)
#[local] Abbreviation keeps_fst := (keeps (λ s : kst W * CoderProvisioner, I s.1)).

Lemma call_keeps {A} (m : reconciliation (W:=W) A) : keeps I m → keeps_fst (call m).
Proof. intros Hm [s p] Hs. specialize (Hm s Hs). unfold call. cbn [fst snd]. by destruct (m s). Qed.
Lemma current_keeps : keeps_fst current.
Proof. by intros s. Qed.
Lemma change_keeps f : keeps_fst (change f).
Proof. by intros s. Qed.

Context `{!HasRand W}.
Hypothesis draw_keeps : ∀ req, keeps I (draw (W:=W) req).

Ltac keeps_leaf ::=
  lazymatch goal with
  | |- keeps _ (act _ ?a) => exact (act_keeps a)
  | |- keeps _ Now => exact Now_keeps
  | |- keeps _ (call _) => apply call_keeps; keeps_steps
  | |- keeps _ current => apply current_keeps
  | |- keeps _ (change _) => apply change_keeps
  end.

Lemma body_keeps render req : keeps_fst (reconcileBody env render req).
Proof. keeps_steps. Qed.
Lemma recordRateLimit_keeps : keeps_fst (recordRateLimit env).
Proof. keeps_steps. Qed.

Lemma deferred_keeps req (body : step Result) :
  keeps_fst body → keeps (λ s : kst W * gmap string Z, I s.1) (deferred env req body).
Proof.
  intros Hb [s attempts] Hs. unfold deferred. cbn [fst snd]. specialize (Hb (s, empty_provisioner) Hs).
  destruct (body (s, empty_provisioner)) as [[res|err|e] [s1 p]]; [done| |done]. cbn [fst snd] in Hb.
  destruct (IsRateLimitError err); cbn [negb]; [|done]. pose proof (draw_keeps req s1 Hb) as Hd.
  destruct (draw req s1) as [[random|e|e] s2]; [|done..].
  destruct (nextProvisionerRateLimitBackoff attempts req random) as [delay attempts'].
  pose proof (recordRateLimit_keeps (s2, p) Hd) as Hr. by destruct (recordRateLimit env (s2, p)) as [o [s3 p3]].
Qed.

Lemma provisioner_keeps render r req :
  keeps (λ s : kst W * gmap string Z, I s.1) (Provisioner.Reconcile env render r req).
Proof.
  unfold Provisioner.Reconcile. do 3 (apply keeps_bind; [apply keeps_guard|intros _]). apply deferred_keeps, body_keeps.
Qed.
End controllers.
End Locality.
