(* ===== verification/OperatorDatabase.v ===== *)
(** * OperatorDatabase: the operator's access to coderd's database

    internal/coderbootstrap/operator_access_postgres.go: the transaction that
    makes the operator's user, its memberships and its API token, and the one
    that revokes the token.

    The database behind database/sql, the clock, uuid.New and crypto/rand are one
    parameter [env], which answers every [dbcall] with an arbitrary reply in an
    arbitrary world.  A statement is its query with the arguments; what the query
    text means is the database's.  [sql.ErrNoRows] of a row is the reply [None]. *)

From Stdlib Require Import Strings.Byte.
From S2P Require Import Prelude GoStd GoStdFacts StringFacts GoErrors Uuid Sha256 ApiTypes Kube ControlPlaneNames ControlPlaneStatus Calls ProvisionerNames.

#[local] Open Scope string_scope.
#[local] Open Scope list_scope.

Module OperatorDatabase.
Import ControlPlaneNames ControlPlaneStatus Calls ProvisionerNames Sha256.

Definition operatorTokenIDLength : Z := 10.
Definition operatorTokenSecretLength : Z := 22.
Definition operatorTokenCharset := "0123456789ABCDEFGHIJKLMNOPQRSTUVWXYZabcdefghijklmnopqrstuvwxyz".

(** ** Calls *)

(** The queries of the file with their arguments. *)
Inductive statement :=
  | LookupOperatorUser (username : string)
  | InsertOperatorUser (id : Uuid.t) (email username name : string) (now : time)
  | EnforceOperatorUser (id : Uuid.t) (email name : string) (now : time)
  | ListOrganizations
  | UpsertOrganizationMember (organization user : Uuid.t) (now : time)
  | LookupExistingToken (id : string) (user : Uuid.t) (tokenName : string) (hashedSecret : list Z)
  | DeleteExistingToken (user : Uuid.t) (tokenName : string)
  | InsertOperatorToken (id : string) (hashedSecret : list Z) (user : Uuid.t) (now expiresAt : time)
      (lifetimeSeconds : Z) (tokenName : string)
  | DeleteOperatorTokenByName (username tokenName : string).

(** [*sql.Rows] of identifiers: what the scans give, [Err] and [Close]. *)
Record rows := { rows_Scans : list (result Uuid.t); rows_Err : option goerror; rows_Close : option goerror }.

Definition statement_reply (s : statement) : Type :=
  match s with
  | LookupOperatorUser _ => option Uuid.t
  | EnforceOperatorUser _ _ _ _ => result Z                 (* RowsAffected() *)
  | ListOrganizations => rows
  | LookupExistingToken _ _ _ _ => option time               (* expires_at *)
  | _ => ()
  end.

Inductive dbcall :=
  | COpen (postgresURL : string)                             (* sql.Open *)
  | CPing | CBegin | CCommit | CRollback | CClose
  | CStatement (s : statement)
  | CNow | CUuid | CRandom.

(** [sql.Open] may return nil; a random byte. *)
Definition dbreply (c : dbcall) : Type :=
  match c with
  | COpen _ => bool
  | CStatement s => statement_reply s
  | CNow => time
  | CUuid => Uuid.t
  | CRandom => byte
  | _ => ()
  end.

(** ** Pure parts *)

Definition splitOperatorToken (token : string) : option (string * string) :=
  let token := trim_space token in
  if String.eqb token "" then None
  else
    match cut "-" token with
    | None => None
    | Some (tokenID, tokenSecret) =>
        if String.eqb tokenID "" || String.eqb tokenSecret "" then None else Some (tokenID, tokenSecret)
    end.

(** [byte(len(operatorTokenCharset))] and the largest byte that is used. *)
Definition charsetLength : Z := slen operatorTokenCharset mod 256.
Definition rejectionThreshold : Z := (255 - 256 mod charsetLength) mod 256.
Definition byte_value (b : byte) : Z := Z.of_N (Byte.to_N b).
Definition token_char (b : byte) : string :=
  match String.get (Z.to_nat (byte_value b mod slen operatorTokenCharset)) operatorTokenCharset with
  | Some c => String c ""
  | None => ""
  end.

(** [int64(d.Seconds())]: seconds and nanoseconds are added as float64. *)
Definition lifetime_seconds (d : Z) : Z :=
  f64_trunc (f64_add (f64_of_Z (d ÷ second)) (f64_div (f64_of_Z (Z.rem d second)) (f64_of_Z 1000000000))).

Definition validateEnsure (req : EnsureOperatorTokenRequest) : result () :=
  _ ← fail_if (blank (eot_PostgresURL req)) (Errorf "operator access postgres URL is required" []);
  _ ← fail_if (blank (eot_OperatorUsername req)) (Errorf "operator access username is required" []);
  _ ← fail_if (blank (eot_OperatorEmail req)) (Errorf "operator access email is required" []);
  _ ← fail_if (blank (eot_TokenName req)) (Errorf "operator access token name is required" []);
  fail_if (eot_TokenLifetime req <=? 0)%Z (Errorf "operator access token lifetime must be positive" []).

Definition validateRevoke (req : RevokeOperatorTokenRequest) : result () :=
  _ ← fail_if (blank (rot_PostgresURL req)) (Errorf "operator access postgres URL is required" []);
  _ ← fail_if (blank (rot_OperatorUsername req)) (Errorf "operator access username is required" []);
  fail_if (blank (rot_TokenName req)) (Errorf "operator access token name is required" []).

(** The random source gave fewer usable bytes than the fuel allows for. *)
Definition out_of_random : goerror := ErrorString "unreachable: out of fuel".

Definition wrapped (format : string) (args : list fmt_arg) (err : goerror) : goerror :=
  Errorf format (args ++ [FErrW err]).

(** ** Effects *)

Section database.
Context {W : Type} (env : ∀ c : dbcall, M W goerror (dbreply c)).

Definition dbm : Type → Type := calling W dbcall.
Definition db (c : dbcall) : dbm (dbreply c) := issue env c.
Definition exec (s : statement) : dbm (statement_reply s) := issue (reply := dbreply) env (CStatement s).

(** [finally], unless [m] returns a value: [committed] is set right before. *)
Definition unless_committed {A} (cleanup : dbm ()) (m : dbm A) : dbm A := λ s,
  match m s with
  | (Ret a, s) => (Ret a, s)
  | (o, s) => match cleanup s with (Panic e, s) => (Panic e, s) | (_, s) => (o, s) end
  end.

Definition openPostgresDatabase (postgresURL : string) : dbm bool :=
  _ ← guard_err (blank postgresURL) (assertion "assertion failed: postgres URL must not be empty");
  opened ← map_err (wrapped "open postgres connection: %w" []) (db (COpen postgresURL));
  _ ← guard_err (negb opened) (assertion "assertion failed: sql.Open returned nil db and nil error");
  mret opened.

(** The provisioner's fields, if they are set. *)
Record PostgresOperatorAccessProvisioner := {
  openDB : option (string → dbm bool);
  now_ : option (dbm time)
}.
Definition NewPostgresOperatorAccessProvisioner : PostgresOperatorAccessProvisioner :=
  {| openDB := Some openPostgresDatabase; now_ := Some (db CNow) |}.

(** *** Random text *)

Context (fuel : nat).

(** The loop, with [missing] characters to go. *)
Fixpoint token_loop (fuel missing : nat) (output : string) : dbm string :=
  match missing with
  | O => mret output
  | S missing' =>
      match fuel with
      | O => throw out_of_random
      | S fuel =>
          randomByte ← map_err (wrapped "read random byte: %w" []) (db CRandom);
          if (rejectionThreshold <? byte_value randomByte)%Z then token_loop fuel missing output
          else token_loop fuel missing' (output +:+ token_char randomByte)
      end
  end.

Definition randomTokenPart (length : Z) : dbm string :=
  _ ← guard_err (length <=? 0)%Z (assertion "assertion failed: token part length must be positive");
  _ ← guard_err (String.eqb operatorTokenCharset "") (assertion "assertion failed: token charset must not be empty");
  token_loop fuel (Z.to_nat length) "".

(** *** The user and its memberships *)

(** [tx] and [userID] are there in every call. *)
Definition guard_tx (tx : bool) : dbm () :=
  guard_err (negb tx) (assertion "assertion failed: transaction must not be nil").
Definition guard_user (userID : Uuid.t) : dbm () :=
  guard_err (Z.eqb userID Uuid.Nil) (assertion "assertion failed: operator user ID must not be nil").

Definition ensureOperatorUser (tx : bool) (now : time) (req : EnsureOperatorTokenRequest) : dbm Uuid.t :=
  let username := eot_OperatorUsername req in
  _ ← guard_tx tx;
  found ← map_err (wrapped "query operator user %q: %w" [FStr username]) (exec (LookupOperatorUser username));
  userID ← (match found : option Uuid.t with
    | Some userID => mret userID
    | None =>
        userID ← db CUuid;
        _ ← map_err (wrapped "insert operator user %q: %w" [FStr username])
              (exec (InsertOperatorUser userID (eot_OperatorEmail req) username username now));
        mret (userID : Uuid.t)
    end);
  _ ← guard_user userID;
  updated ← map_err (wrapped "enforce operator user %q attributes: %w" [FStr username])
    (exec (EnforceOperatorUser userID (eot_OperatorEmail req) username now));
  rowsAffected ← map_err (wrapped "get rows affected while enforcing operator user %q: %w" [FStr username])
    (lift (updated : result Z));
  _ ← guard_err (negb (Z.eqb rowsAffected 1))
        (Errorf "assertion failed: expected one operator user row updated, got %d" [FInt rowsAffected]);
  mret userID.

(** The loop over the rows. *)
Fixpoint scan_organizations (scans : list (result Uuid.t)) : result (list Uuid.t) :=
  match scans with
  | [] => Ret []
  | Err err :: _ => Err (Errorf "scan organization ID: %w" [FErrW err])
  | Panic e :: _ => Panic e
  | Ret organizationID :: scans =>
      _ ← fail_if (Z.eqb organizationID Uuid.Nil) (assertion "assertion failed: organization ID must not be nil");
      rest ← scan_organizations scans;
      mret (organizationID :: rest)
  end.

Definition fail_with (format : string) (err : option goerror) : result () :=
  match err with Some err => Err (Errorf format [FErrW err]) | None => Ret tt end.

Definition ensureOperatorMemberships (tx : bool) (now : time) (userID : Uuid.t) : dbm () :=
  _ ← guard_tx tx;
  _ ← guard_user userID;
  found ← map_err (wrapped "list organizations: %w" []) (exec ListOrganizations);
  let found : rows := found in
  organizationIDs ← lift (scan_organizations (rows_Scans found));
  _ ← lift (fail_with "iterate organizations: %w" (rows_Err found));
  _ ← lift (fail_with "close organizations rows: %w" (rows_Close found));
  _ ← guard_err (Nat.eqb (length organizationIDs) 0) (assertion "assertion failed: expected at least one organization");
  mfor (λ _ organizationID,
    _ ← map_err (wrapped "upsert operator organization membership for org %q: %w" [FStr (Uuid.to_string organizationID)])
          (exec (UpsertOrganizationMember organizationID userID now));
    mret tt) tt organizationIDs.

(** *** The token *)

Definition existingOperatorTokenStillValid (tx : bool) (now : time) (userID : Uuid.t) (tokenName existingToken : string)
    : dbm bool :=
  _ ← guard_tx tx;
  _ ← guard_user userID;
  _ ← guard_err (blank tokenName) (assertion "assertion failed: token name must not be empty");
  _ ← guard_err (blank existingToken) (assertion "assertion failed: existing token must not be empty");
  match splitOperatorToken existingToken with
  | None => mret false
  | Some (tokenID, tokenSecret) =>
      found ← map_err (wrapped "query existing operator token %q: %w" [FStr tokenName])
        (exec (LookupExistingToken tokenID userID tokenName (Sum256 tokenSecret)));
      mret (match found : option time with Some expiresAt => (now <? expiresAt)%Z | None => false end)
  end.

Definition rotateOperatorToken (tx : bool) (now : time) (userID : Uuid.t) (req : EnsureOperatorTokenRequest)
    : dbm string :=
  let tokenName := eot_TokenName req in
  _ ← guard_tx tx;
  _ ← guard_user userID;
  _ ← map_err (wrapped "delete existing operator token %q: %w" [FStr tokenName])
        (exec (DeleteExistingToken userID tokenName));
  tokenID ← map_err (wrapped "generate operator token ID: %w" []) (randomTokenPart operatorTokenIDLength);
  tokenSecret ← map_err (wrapped "generate operator token secret: %w" []) (randomTokenPart operatorTokenSecretLength);
  let lifetimeSeconds := lifetime_seconds (eot_TokenLifetime req) in
  _ ← guard_err (lifetimeSeconds <=? 0)%Z (assertion "assertion failed: token lifetime seconds must be positive");
  let expiresAt := (now + eot_TokenLifetime req)%Z in
  _ ← map_err (wrapped "insert operator token %q: %w" [FStr tokenName])
        (exec (InsertOperatorToken tokenID (Sum256 tokenSecret) userID now expiresAt lifetimeSeconds tokenName));
  mret (tokenID +:+ "-" +:+ tokenSecret).

Definition ensureOperatorToken (tx : bool) (now : time) (userID : Uuid.t) (req : EnsureOperatorTokenRequest)
    : dbm string :=
  _ ← guard_tx tx;
  _ ← guard_user userID;
  let existingToken := trim_space (eot_ExistingToken req) in
  tokenStillValid ← (if String.eqb existingToken "" then mret false
                     else existingOperatorTokenStillValid tx now userID (eot_TokenName req) existingToken) : dbm bool;
  if tokenStillValid : bool then mret existingToken else rotateOperatorToken tx now userID req.

(** *** The two operations *)

(** The part between the beginning of the transaction and its end. *)
Definition ensureInTransaction (clock : dbm time) (req : EnsureOperatorTokenRequest) : dbm string :=
  now ← clock;
  _ ← guard_err (time_IsZero now) (assertion "assertion failed: provisioner clock returned zero time");
  userID ← ensureOperatorUser true now req;
  _ ← ensureOperatorMemberships true now userID;
  token ← ensureOperatorToken true now userID req;
  _ ← guard_err (String.eqb token "") (assertion "assertion failed: ensured operator token must not be empty");
  _ ← map_err (wrapped "commit operator access transaction: %w" []) (db CCommit);
  mret token.

Definition revokeOperatorToken (tx : bool) (req : RevokeOperatorTokenRequest) : dbm () :=
  _ ← guard_tx tx;
  _ ← lift (validateRevoke req);
  _ ← map_err (wrapped "delete operator token %q: %w" [FStr (rot_TokenName req)])
        (exec (DeleteOperatorTokenByName (rot_OperatorUsername req) (rot_TokenName req)));
  mret tt.

Definition revokeInTransaction (req : RevokeOperatorTokenRequest) : dbm () :=
  _ ← revokeOperatorToken true req;
  _ ← map_err (wrapped "commit operator access revoke transaction: %w" []) (db CCommit);
  mret tt.

(** A connection, a transaction on it, and what is done in it. *)
Definition transaction {A} (open : string → dbm bool) (postgresURL beginError : string) (work : dbm A) : dbm A :=
  opened ← map_err (wrapped "open coderd postgres database: %w" []) (open postgresURL);
  _ ← guard_err (negb opened) (assertion "assertion failed: openDB returned nil db and nil error");
  finally (db CClose)
    (_ ← map_err (wrapped "ping coderd postgres database: %w" []) (db CPing);
     _ ← map_err (wrapped beginError []) (db CBegin);
     unless_committed (db CRollback) work).

(** [ctx] is whether the context is not nil. *)
Definition EnsureOperatorToken (ctx : bool) (p : option PostgresOperatorAccessProvisioner)
    (req : EnsureOperatorTokenRequest) : dbm string :=
  _ ← guard_err (negb ctx) (assertion "assertion failed: context must not be nil");
  _ ← lift (validateEnsure req);
  match p with
  | None => throw (assertion "assertion failed: provisioner must not be nil")
  | Some p =>
      match openDB p, now_ p with
      | None, _ => throw (assertion "assertion failed: provisioner openDB must not be nil")
      | _, None => throw (assertion "assertion failed: provisioner now clock must not be nil")
      | Some open, Some now =>
          transaction open (eot_PostgresURL req) "begin operator access transaction: %w" (ensureInTransaction now req)
      end
  end.

Definition RevokeOperatorToken (ctx : bool) (p : option PostgresOperatorAccessProvisioner)
    (req : RevokeOperatorTokenRequest) : dbm () :=
  _ ← guard_err (negb ctx) (assertion "assertion failed: context must not be nil");
  _ ← lift (validateRevoke req);
  match p with
  | None => throw (assertion "assertion failed: provisioner must not be nil")
  | Some p =>
      match openDB p with
      | None => throw (assertion "assertion failed: provisioner openDB must not be nil")
      | Some open =>
          transaction open (rot_PostgresURL req) "begin operator access revoke transaction: %w" (revokeInTransaction req)
      end
  end.
End database.

(** * Properties *)

(** ** Random text *)

Definition in_charset (a : ascii) : bool := existsb (Ascii.eqb a) (list_ascii_of_string operatorTokenCharset).
Definition token_text (n : Z) (s : string) : Prop := slen s = n ∧ all_bytes in_charset s = true.

Definition usable (b : byte) : bool := (byte_value b <=? rejectionThreshold)%Z.
Definition bytes : list byte := omap (λ n, Byte.of_N (N.of_nat n)) (seq 0 256).

(** Every character of the charset comes from exactly four of the bytes that are
    used, so all are equally likely. *)
Lemma token_char_uniform :
  Forall (λ c, length (List.filter (λ b, usable b && String.eqb (token_char b) (String c "")) bytes) = 4%nat)
    (list_ascii_of_string operatorTokenCharset) ∧ length bytes = 256%nat.
Proof. split; [|reflexivity]. apply (Forall_forall _), Forall_forall. repeat constructor. Qed.

Lemma token_char_text b : usable b = true → token_text 1 (token_char b).
Proof. destruct b; vm_compute; by split. Qed.

Lemma token_text_app n m x y : token_text n x → token_text m y → token_text (n + m) (x +:+ y).
Proof. intros [Hx1 Hx2] [Hy1 Hy2]. split; [by rewrite slen_append, Hx1, Hy1|by rewrite all_bytes_app, Hx2, Hy2]. Qed.

Section text.
Context {W : Type} (env : ∀ c : dbcall, M W goerror (dbreply c)).

Lemma runs_token_loop fuel missing output :
  runs (token_loop env fuel missing output) (λ l o, Forall (eq CRandom) l ∧
    ∀ t, o = Ret t → ∃ text, t = output +:+ text ∧ token_text (Z.of_nat missing) text).
Proof.
  revert missing output. induction fuel as [|fuel IH]; intros [|missing] output; cbn [token_loop];
    [apply runs_ret|apply runs_throw|apply runs_ret|]; [split; [constructor|]..|].
  - intros t [= <-]. exists "". by rewrite append_empty_r.
  - done.
  - intros t [= <-]. exists "". by rewrite append_empty_r.
  - apply (runs_bind _ _ (λ l o, l = [CRandom])); [apply runs_map_err, (runs_issue env CRandom); by intros [] ? ? _| |by intros l e ->; split; [repeat constructor|]..].
    intros l b ->. destruct (Z.ltb_spec rejectionThreshold (byte_value b)) as [_|Hle].
    + eapply runs_mono; [apply IH|]. intros l' o [Hl Ho]. split; [by constructor|done].
    + eapply runs_mono; [apply IH|]. intros l' o [Hl Ho]. split; [by constructor|]. intros t Ht.
      destruct (Ho t Ht) as (text & -> & Htext). exists (token_char b +:+ text). split; [by rewrite Uuid.append_assoc|].
      replace (Z.of_nat (S missing)) with (1 + Z.of_nat missing)%Z by lia.
      apply token_text_app; [|done]. apply token_char_text. unfold usable. by apply Z.leb_le.
Qed.

(** The bytes that the random source gives next, [n] at most. *)
Fixpoint received (n : nat) (w : W) : list byte :=
  match n with
  | O => []
  | S n => match env CRandom w with (Ret b, w) => b :: received n w | _ => [] end
  end.
Definition used (n : nat) (w : W) : list byte := List.filter usable (received n w).
Definition text_of : list byte → string := foldr (λ b text, token_char b +:+ text) "".

Lemma token_loop_used fuel missing output (s : cst W dbcall) :
  (missing ≤ length (used fuel (c_world s)))%nat →
  ∃ s', token_loop env fuel missing output s = (Ret (output +:+ text_of (take missing (used fuel (c_world s)))), s').
Proof.
  revert missing output s. induction fuel as [|fuel IH]; intros [|missing] output s;
    [eexists; cbn; by rewrite append_empty_r|cbn; lia|eexists; cbn; by rewrite append_empty_r|].
  unfold used. cbn [token_loop received]. unfold db, issue, map_err, mbind, M_bind.
  destruct (env CRandom (c_world s)) as [[b|e|e] w]; [|cbn; lia..]. cbn [List.filter].
  destruct (usable b) eqn:Hb; intros Hused; pose proof Hb as Hle; unfold usable in Hle.
  - apply Z.leb_le, Z.ltb_ge in Hle. rewrite Hle. cbn [take text_of foldr]. rewrite <-Uuid.append_assoc.
    apply (IH missing (output +:+ token_char b) (CSt w (c_calls s ++ [CRandom]))). cbn in *. unfold used. lia.
  - apply Z.leb_gt, Z.ltb_lt in Hle. rewrite Hle. exact (IH (S missing) output (CSt w (c_calls s ++ [CRandom])) Hused).
Qed.
Lemma text_of_text l : Forall (λ b, usable b = true) l → token_text (Z.of_nat (length l)) (text_of l).
Proof.
  induction 1 as [|b l Hb Hl IH]; [done|]. cbn [text_of foldr length].
  replace (Z.of_nat (S (length l))) with (1 + Z.of_nat (length l))%Z by lia.
  by apply token_text_app; [apply token_char_text|].
Qed.

(** C36: A part of a new token is as long as was asked for, of characters of the
    charset: exactly those that the usable bytes of the random source select, in
    order, as soon as the source has given enough of them.  Every character of the
    charset is selected by four of the 256 bytes, so all are equally likely. *)
Theorem random_token_part :
  Forall (λ c, length (List.filter (λ b, usable b && String.eqb (token_char b) (String c "")) bytes) = 4%nat)
    (list_ascii_of_string operatorTokenCharset) ∧
  ∀ fuel n (s : cst W dbcall), (0 < n)%Z → (n ≤ Z.of_nat (length (used fuel (c_world s))))%Z →
    let text := text_of (take (Z.to_nat n) (used fuel (c_world s))) in
    ∃ s', randomTokenPart env fuel n s = (Ret text, s') ∧ token_text n text.
Proof.
  split; [apply token_char_uniform|]. intros fuel n s Hn Hused text.
  destruct (token_loop_used fuel (Z.to_nat n) "" s) as [s' Hs']; [lia|]. exists s'. split.
  - unfold randomTokenPart, guard_err, fail_if. by rewrite (proj2 (Z.leb_gt n 0) Hn).
  - assert (length (take (Z.to_nat n) (used fuel (c_world s))) = Z.to_nat n) as Hl by (rewrite length_take; lia).
    rewrite <-(Z2Nat.id n) at 1 by lia. rewrite <-Hl. apply text_of_text, Forall_take, Forall_forall.
    intros b [_ Hb]%list_elem_of_In%filter_In. done.
Qed.
End text.

(** The identifier and the secret of a new token are found again in it. *)
Lemma in_charset_facts :
  Forall (λ a, graphic a = true ∧ Ascii.eqb a "-" = false) (list_ascii_of_string operatorTokenCharset).
Proof. repeat (apply Forall_cons; split; [split; vm_compute; reflexivity|]). constructor. Qed.
Lemma in_charset_spec a : in_charset a = true → graphic a = true ∧ Ascii.eqb a "-" = false.
Proof.
  unfold in_charset. rewrite existsb_exists. intros (x & Hx & ->%Ascii.eqb_eq).
  exact (proj1 (Forall_forall _ _) in_charset_facts x (proj2 (list_elem_of_In _ _) Hx)).
Qed.
Lemma cut_dash x y : all_bytes in_charset x = true → cut "-" (x +:+ "-" +:+ y) = Some (x, y).
Proof.
  induction x as [|a x IH]; [done|]. cbn [all_bytes]. intros [Ha Hx]%andb_true_iff.
  change (String a x +:+ "-" +:+ y) with (String a (x +:+ "-" +:+ y)). cbn [cut].
  by rewrite (proj2 (in_charset_spec a Ha)), IH.
Qed.
Lemma token_text_ends n s :
  (0 < n)%Z → token_text n s → s ≠ "" ∧ first_is graphic s = true ∧ last_is graphic s = true.
Proof.
  intros Hn [Hl Hs]. assert (s ≠ "") as Hne by (intros ->; change (slen "") with 0%Z in Hl; lia).
  apply (all_bytes_impl in_charset graphic) in Hs; [|by intros a Ha; apply in_charset_spec].
  split; [done|]. split; [|by apply last_is_all]. destruct s; [done|]. cbn in Hs |- *. by apply andb_true_iff in Hs as [? _].
Qed.
Lemma split_token n m x y :
  (0 < n)%Z → (0 < m)%Z → token_text n x → token_text m y →
  splitOperatorToken (x +:+ "-" +:+ y) = Some (x, y) ∧ trim_space (x +:+ "-" +:+ y) = x +:+ "-" +:+ y.
Proof.
  intros Hn Hm Hx Hy. destruct (token_text_ends n x Hn Hx) as (Hx1 & Hx2 & _).
  destruct (token_text_ends m y Hm Hy) as (Hy1 & _ & Hy3).
  assert (trim_space (x +:+ "-" +:+ y) = x +:+ "-" +:+ y) as Ht.
  { apply trim_space_id; [by rewrite first_is_app|]. by rewrite !last_is_app by (done || by destruct y). }
  split; [|done]. unfold splitOperatorToken. cbv zeta. rewrite Ht.
  destruct (String.eqb_spec (x +:+ "-" +:+ y) "") as [He|_]; [by destruct x|].
  rewrite (cut_dash x y) by apply Hx.
  by rewrite (proj2 (String.eqb_neq _ _) Hx1), (proj2 (String.eqb_neq _ _) Hy1).
Qed.

(** ** What a transaction has done *)

Section transactions.
Context {W : Type} (env : ∀ c : dbcall, M W goerror (dbreply c)) (fuel : nat).
Implicit Types (l : list dbcall).

#[local] Abbreviation answered := (Calls.answered env).
Definition answered_statement (s : statement) (r : statement_reply s) : Prop := answered (CStatement s) r.

(** The calls between the beginning and the end of a transaction. *)
Definition inside (c : dbcall) : Prop :=
  match c with CStatement _ | CNow | CUuid | CRandom => True | _ => False end.

Section ensuring.
Context (req : EnsureOperatorTokenRequest) (now : time).
Let username := eot_OperatorUsername req.
Let tokenName := eot_TokenName req.

Let enforcement (user : Uuid.t) := EnforceOperatorUser user (eot_OperatorEmail req) username now.
Let insertion (user : Uuid.t) := InsertOperatorUser user (eot_OperatorEmail req) username username now.

(** The user was found, or made with a new identifier. *)
Definition user_found (user : Uuid.t) l : Prop :=
  l = [CStatement (LookupOperatorUser username)] ∧ answered_statement (LookupOperatorUser username) (Some user) ∨
  l = [CStatement (LookupOperatorUser username); CUuid; CStatement (insertion user)] ∧
    answered_statement (LookupOperatorUser username) None ∧ answered CUuid user ∧ answered_statement (insertion user) tt.
(** Its attributes were set, in one row. *)
Definition user_ensured (user : Uuid.t) l : Prop :=
  user ≠ Uuid.Nil ∧ answered_statement (enforcement user) (Ret 1%Z) ∧
  ∃ finding, l = finding ++ [CStatement (enforcement user)] ∧ user_found user finding.

(** The user is a member of every organization that was listed. *)
Definition members_ensured (user : Uuid.t) l : Prop := ∃ (r : rows) orgs,
  answered_statement ListOrganizations r ∧ rows_Scans r = Ret <$> orgs ∧ rows_Err r = None ∧ rows_Close r = None ∧
  orgs ≠ [] ∧ Forall (λ org, org ≠ Uuid.Nil ∧ answered_statement (UpsertOrganizationMember org user now) tt) orgs ∧
  l = CStatement ListOrganizations :: ((λ org, CStatement (UpsertOrganizationMember org user now)) <$> orgs).

(** The token that was there is kept: the database has its hash, and it has not
    expired. *)
Definition token_kept (user : Uuid.t) (t : string) l : Prop := ∃ id secret expiresAt,
  t = trim_space (eot_ExistingToken req) ∧ splitOperatorToken t = Some (id, secret) ∧
  answered_statement (LookupExistingToken id user tokenName (Sum256 secret)) (Some expiresAt) ∧ (now < expiresAt)%Z ∧
  l = [CStatement (LookupExistingToken id user tokenName (Sum256 secret))].
(** A new token was inserted, after the old ones were deleted. *)
Definition token_rotated (user : Uuid.t) (t : string) l : Prop := ∃ looked randoms id secret,
  let insertion := InsertOperatorToken id (Sum256 secret) user now (now + eot_TokenLifetime req)%Z
    (lifetime_seconds (eot_TokenLifetime req)) tokenName in
  (looked = [] ∨ ∃ i h, looked = [CStatement (LookupExistingToken i user tokenName h)]) ∧
  Forall (eq CRandom) randoms ∧
  l = looked ++ [CStatement (DeleteExistingToken user tokenName)] ++ randoms ++ [CStatement insertion] ∧
  answered_statement (DeleteExistingToken user tokenName) tt ∧ answered_statement insertion tt ∧
  (0 < lifetime_seconds (eot_TokenLifetime req))%Z ∧ t = id +:+ "-" +:+ secret ∧
  token_text operatorTokenIDLength id ∧ token_text operatorTokenSecretLength secret ∧
  splitOperatorToken t = Some (id, secret).
End ensuring.

(** What a run on the database at [url] has done: nothing that lasts, or [K], in a
    transaction that was committed.  A failed run has asked for the commit at most
    once, and was refused; it rolls back what it has begun.  Every connection that
    was opened is closed. *)
Definition transacted {A} (url : string) (K : A → list dbcall → Prop) l (o : outcome goerror A) : Prop :=
  match o with
  | Ret a => ∃ work, l = [COpen url; CPing; CBegin] ++ work ++ [CCommit; CClose] ∧
      Forall inside work ∧ answered CCommit tt ∧ K a work
  | Err _ => l = [] ∨ l = [COpen url] ∨ l = [COpen url; CPing; CClose] ∨ l = [COpen url; CPing; CBegin; CClose] ∨
      ∃ work commit, l = [COpen url; CPing; CBegin] ++ work ++ commit ++ [CRollback; CClose] ∧
        Forall inside work ∧ (commit = [] ∨ commit = [CCommit] ∧ ∃ e w w', env CCommit w = (Err e, w'))
  | Panic _ => True
  end.

(** The work of the two operations. *)
Definition token_ensured (req : EnsureOperatorTokenRequest) (t : string) (work : list dbcall) : Prop :=
  validateEnsure req = Ret tt ∧ t ≠ "" ∧ ∃ now user users members tokens,
    work = [CNow] ++ users ++ members ++ tokens ∧ answered CNow now ∧
    user_ensured req now user users ∧ members_ensured now user members ∧
    (token_kept req now user t tokens ∨ token_rotated req now user t tokens).
Definition token_revoked (req : RevokeOperatorTokenRequest) (_ : ()) (work : list dbcall) : Prop :=
  let deletion := DeleteOperatorTokenByName (rot_OperatorUsername req) (rot_TokenName req) in
  validateRevoke req = Ret tt ∧ work = [CStatement deletion] ∧ answered_statement deletion tt.

(** *** Proofs *)

Lemma calls_once_db c : calls_once env c (db env c).
Proof. apply calls_once_issue. Qed.
Lemma calls_once_wrapped c wrap : calls_once env c (map_err wrap (db env c)).
Proof. apply calls_once_map_err, calls_once_issue. Qed.
#[local] Hint Resolve calls_once_db calls_once_wrapped : core.


(** All calls are inside, and a value comes with [K]. *)
Definition in_tx {A} (K : A → list dbcall → Prop) l (o : outcome goerror A) : Prop :=
  Forall inside l ∧ ∀ a, o = Ret a → K a l.
Lemma in_tx_ret {A} (K : A → _) l a : Forall inside l → K a l → in_tx K l (Ret a).
Proof. intros Hl HK. split; [done|]. by intros ? [= <-]. Qed.
Lemma in_tx_bind {A B} (m : dbm (W:=W) A) (f : A → dbm (W:=W) B) K1 K :
  runs m (in_tx K1) → (∀ l1 a, K1 a l1 → runs (f a) (in_tx (λ b l2, K b (l1 ++ l2)))) → runs (m ≫= f) (in_tx K).
Proof.
  intros Hm Hf. apply (runs_bind _ _ (in_tx K1)); [done| |by intros l e [Hl _]; split..].
  intros l1 a [Hl1 Ha]. eapply runs_mono; [by apply Hf, Ha|]. intros l2 o [Hl2 Ho].
  split; [by apply Forall_app|done].
Qed.
Lemma in_tx_call_bind {A} c m (f : dbreply c → dbm (W:=W) A) K :
  calls_once env c m → inside c → (∀ r, answered c r → runs (f r) (in_tx (λ a l, K a (c :: l)))) → runs (m ≫= f) (in_tx K).
Proof.
  intros Hm Hc Hf. apply (runs_call_bind env c); [done| |by intros; split; [repeat constructor|]..].
  intros r Hr. eapply runs_mono; [by apply Hf|]. intros l o [Hl Ho]. split; [by constructor|done].
Qed.
Lemma in_tx_exec_bind {A} st wrap (f : statement_reply st → dbm (W:=W) A) K :
  (∀ r, answered_statement st r → runs (f r) (in_tx (λ a l, K a (CStatement st :: l)))) →
  runs (map_err wrap (exec env st) ≫= f) (in_tx K).
Proof. intros Hf. exact (in_tx_call_bind (CStatement st) _ f K (calls_once_wrapped _ wrap) I Hf). Qed.
Lemma in_tx_guard_bind {A} b e (f : () → dbm (W:=W) A) K :
  (b = false → runs (f tt) (in_tx K)) → runs (guard_err b e ≫= f) (in_tx K).
Proof. intros Hf. apply runs_guard_bind; [by intros _; split; [constructor|]|done]. Qed.
Lemma in_tx_lift_bind {A B} (o : result A) (f : A → dbm (W:=W) B) K :
  (∀ a, o = Ret a → runs (f a) (in_tx K)) → runs (lift o ≫= f) (in_tx K).
Proof. intros Hf. apply runs_lift_bind; [done|by intros; split; [constructor|]..]. Qed.
Lemma in_tx_done {A} (a : A) K : K a [] → runs (mret a : dbm (W:=W) A) (in_tx K).
Proof. intros H. apply runs_ret, in_tx_ret; [constructor|done]. Qed.

Lemma runs_ensureOperatorUser now req :
  runs (ensureOperatorUser env true now req) (in_tx (user_ensured req now)).
Proof.
  unfold ensureOperatorUser. cbv zeta. apply in_tx_guard_bind. intros _.
  refine (in_tx_exec_bind _ _ _ _ _). intros found Hfound.
  apply (in_tx_bind _ _ (λ user l, user_found req now user (CStatement (LookupOperatorUser (eot_OperatorUsername req)) :: l))).
  - destruct found as [user|]; [apply in_tx_done; by left|].
    apply (in_tx_call_bind CUuid); [done..|]. intros user Huser. refine (in_tx_exec_bind _ _ _ _ _).
    intros [] Hinserted. apply in_tx_done. by right.
  - intros finding user Hfinding. apply in_tx_guard_bind. intros Hne%Z.eqb_neq.
    refine (in_tx_exec_bind _ _ _ _ _). intros updated Hupdated.
    apply (in_tx_bind _ _ (λ n l, l = [] ∧ updated = Ret n)).
    { apply runs_map_err, runs_lift. by destruct (updated : result Z). }
    intros l n [-> ->]. apply in_tx_guard_bind. intros Hn%negb_false_iff%Z.eqb_eq. subst n.
    apply in_tx_done. split; [done|]. split; [done|]. eexists (_ :: finding). by split.
Qed.

Lemma scan_organizations_Ret scans orgs :
  scan_organizations scans = Ret orgs → scans = Ret <$> orgs ∧ Forall (λ org, org ≠ Uuid.Nil) orgs.
Proof.
  revert orgs. induction scans as [|[org|e|e] scans IH]; intros orgs; cbn [scan_organizations]; [by intros [= <-]| |done..].
  destruct (Z.eqb_spec org Uuid.Nil) as [|Hne]; [done|]. cbn.
  destruct (scan_organizations scans) as [rest|e|e]; [|done..]. intros [= <-].
  destruct (IH rest eq_refl) as [-> Hrest]. split; [done|by constructor].
Qed.
Lemma fail_with_Ret format err u : fail_with format err = Ret u → err = None.
Proof. by destruct err. Qed.

Lemma runs_ensureOperatorMemberships now user :
  runs (ensureOperatorMemberships env true now user) (in_tx (λ _, members_ensured now user)).
Proof.
  unfold ensureOperatorMemberships. apply in_tx_guard_bind. intros _. apply in_tx_guard_bind. intros _.
  refine (in_tx_exec_bind _ _ _ _ _). intros found Hfound. cbv zeta.
  apply in_tx_lift_bind. intros orgs [Hscans Horgs]%scan_organizations_Ret.
  apply in_tx_lift_bind. intros [] Herr%fail_with_Ret. apply in_tx_lift_bind. intros [] Hclose%fail_with_Ret.
  apply in_tx_guard_bind. intros Hne%Nat.eqb_neq.
  eapply (runs_mono _ (in_tx (λ _ l, Forall (λ org, answered_statement (UpsertOrganizationMember org user now) tt) orgs ∧
    l = (λ org, CStatement (UpsertOrganizationMember org user now)) <$> orgs))).
  - clear. induction orgs as [|org orgs IH]; [by apply in_tx_done|]. cbn [mfor].
    apply (in_tx_bind _ _ (λ _ l, answered_statement (UpsertOrganizationMember org user now) tt ∧
      l = [CStatement (UpsertOrganizationMember org user now)])).
    { refine (in_tx_exec_bind _ _ _ _ _). intros [] Hr. by apply in_tx_done. }
    intros l [] [Hr ->]. eapply runs_mono; [apply IH|]. intros l o [Hl Ho]. split; [done|].
    intros u Hu. destruct (Ho u Hu) as [Horgs ->]. split; [by constructor|done].
  - intros l o [Hl Ho]. split; [done|]. intros u Hu. destruct (Ho u Hu) as [Hupserts ->].
    exists found, orgs. repeat split; [done..| |].
    + by intros ->.
    + apply Forall_and. by split.
Qed.

Lemma runs_randomTokenPart n :
  runs (randomTokenPart env fuel n) (in_tx (λ t l, Forall (eq CRandom) l ∧ token_text n t)).
Proof.
  unfold randomTokenPart. apply runs_guard_bind; [done|]. intros Hn%Z.leb_gt.
  apply in_tx_guard_bind. intros _. eapply runs_mono; [apply runs_token_loop|].
  intros l o [Hl Ho]. split; [eapply Forall_impl; [exact Hl|]; by intros ? <-|].
  intros t Ht. split; [done|]. destruct (Ho t Ht) as (text & -> & Htext). by rewrite Z2Nat.id in Htext by lia.
Qed.

Lemma runs_existing now user tokenName existing :
  runs (existingOperatorTokenStillValid env true now user tokenName existing)
    (in_tx (λ valid l, (valid = false ∧ (l = [] ∨ ∃ i h, l = [CStatement (LookupExistingToken i user tokenName h)])) ∨
      valid = true ∧ ∃ id secret expiresAt, splitOperatorToken existing = Some (id, secret) ∧
        answered_statement (LookupExistingToken id user tokenName (Sum256 secret)) (Some expiresAt) ∧ (now < expiresAt)%Z ∧
        l = [CStatement (LookupExistingToken id user tokenName (Sum256 secret))])).
Proof.
  unfold existingOperatorTokenStillValid. do 4 (apply in_tx_guard_bind; intros _).
  destruct (splitOperatorToken existing) as [[id secret]|]; [|apply in_tx_done; by left; split; [|left]].
  refine (in_tx_exec_bind _ _ _ _ _). intros found Hfound. apply in_tx_done.
  destruct found as [expiresAt|]; [|left; split; [done|right; by eexists _, _]].
  destruct (Z.ltb_spec now expiresAt) as [Hlt|Hge]; [right|left; split; [done|right; by eexists _, _]].
  split; [done|]. by exists id, secret, expiresAt.
Qed.

Lemma runs_rotate req now user :
  runs (rotateOperatorToken env fuel true now user req)
    (in_tx (λ t l, ∀ looked, looked = [] ∨ (∃ i h, looked = [CStatement (LookupExistingToken i user (eot_TokenName req) h)]) →
       token_rotated req now user t (looked ++ l))).
Proof.
  unfold rotateOperatorToken. cbv zeta. do 2 (apply in_tx_guard_bind; intros _).
  refine (in_tx_exec_bind _ _ _ _ _). intros [] Hdelete.
  apply (in_tx_bind _ _ (λ t l, Forall (eq CRandom) l ∧ token_text operatorTokenIDLength t)).
  { apply runs_map_err. eapply runs_mono; [apply runs_randomTokenPart|]. by intros l [t|e|e] []. }
  intros r1 id [Hr1 Hid].
  apply (in_tx_bind _ _ (λ t l, Forall (eq CRandom) l ∧ token_text operatorTokenSecretLength t)).
  { apply runs_map_err. eapply runs_mono; [apply runs_randomTokenPart|]. by intros l [t|e|e] []. }
  intros r2 secret [Hr2 Hsecret]. apply in_tx_guard_bind. intros Hlife%Z.leb_gt.
  refine (in_tx_exec_bind _ _ _ _ _). intros [] Hinsert. apply in_tx_done. intros looked Hlooked.
  exists looked, (r1 ++ r2), id, secret. cbv zeta. split; [done|]. split; [by apply Forall_app|].
  split; [by rewrite <-(app_assoc r1)|]. repeat (split; [done|]).
  by apply (split_token operatorTokenIDLength operatorTokenSecretLength).
Qed.

Lemma runs_ensureOperatorToken req now user :
  runs (ensureOperatorToken env fuel true now user req)
    (in_tx (λ t l, token_kept req now user t l ∨ token_rotated req now user t l)).
Proof.
  unfold ensureOperatorToken. cbv zeta. do 2 (apply in_tx_guard_bind; intros _).
  set (existing := trim_space (eot_ExistingToken req)).
  apply (in_tx_bind _ _ (λ valid l, (valid = false ∧ (l = [] ∨ ∃ i h, l = [CStatement (LookupExistingToken i user (eot_TokenName req) h)])) ∨
    valid = true ∧ token_kept req now user existing l)).
  - destruct (String.eqb existing ""); [apply in_tx_done; left; by split; [|left]|].
    eapply runs_mono; [apply runs_existing|]. intros l o [Hl Ho]. split; [done|]. intros valid Hv.
    destruct (Ho valid Hv) as [?|(-> & id & secret & expiresAt & Hs & Hr & Hlt & ->)]; [by left|].
    right. split; [done|]. by exists id, secret, expiresAt.
  - intros l1 valid [(-> & Hl1)|(-> & Hkept)].
    + eapply runs_mono; [apply runs_rotate|]. intros l o [Hl Ho]. split; [done|]. intros t Ht. right. by apply Ho.
    + apply in_tx_done. left. by rewrite app_nil_r.
Qed.

(** *** Transactions *)

(** The work of a transaction has ended: with the commit, or with an error. *)
Definition ended {A} (K : A → list dbcall → Prop) l (o : outcome goerror A) : Prop :=
  match o with
  | Ret a => ∃ work, l = work ++ [CCommit] ∧ Forall inside work ∧ answered CCommit tt ∧ K a work
  | Err _ => ∃ work commit, l = work ++ commit ∧ Forall inside work ∧
      (commit = [] ∨ commit = [CCommit] ∧ ∃ e w w', env CCommit w = (Err e, w'))
  | Panic _ => True
  end.
Lemma ended_before {A} (K : A → _) l e : Forall inside l → ended K l (Err e).
Proof. intros Hl. exists l, []. rewrite app_nil_r. auto. Qed.

Lemma ended_bind {A B} (m : dbm (W:=W) A) (f : A → dbm (W:=W) B) K1 K :
  runs m (in_tx K1) → (∀ l1 a, K1 a l1 → runs (f a) (ended (λ b l2, K b (l1 ++ l2)))) → runs (m ≫= f) (ended K).
Proof.
  intros Hm Hf. apply (runs_bind _ _ (in_tx K1)); [done| |by intros l e [Hl _]; apply ended_before|done].
  intros l1 a [Hl1 Ha]. eapply runs_mono; [by apply Hf, Ha|]. intros l2 [b|e|e]; cbn; [| |done].
  - intros (work & -> & Hw & Hc & HK). exists (l1 ++ work). rewrite <-app_assoc. repeat split; [|done..]. by apply Forall_app.
  - intros (work & commit & -> & Hw & Hc). exists (l1 ++ work), commit. rewrite <-app_assoc. repeat split; [|done]. by apply Forall_app.
Qed.
Lemma ended_guard_bind {A} b e (f : () → dbm (W:=W) A) K :
  (b = false → runs (f tt) (ended K)) → runs (guard_err b e ≫= f) (ended K).
Proof. intros Hf. apply runs_guard_bind; [by intros _; apply ended_before|done]. Qed.
Lemma ended_commit {A} wrap (a : A) K : K a [] → runs (_ ← map_err wrap (db env CCommit); mret a) (ended K).
Proof.
  intros HK. apply (runs_bind _ _ (λ l o, match o with
    | Ret _ => l = [CCommit] ∧ answered CCommit tt
    | Err _ => l = [CCommit] ∧ ∃ e w w', env CCommit w = (Err e, w')
    | Panic _ => True
    end)); [| |by intros l e [-> H]; exists [], [CCommit]; auto|done].
  - apply runs_map_err. refine (runs_issue (reply := dbreply) env CCommit _ _). intros [[]|e|e] w w' H; [split; [done|by exists w, w']|eauto 6|done].
  - intros l [] [-> Hc]. apply runs_ret. by exists [].
Qed.

Lemma runs_ensureInTransaction req :
  validateEnsure req = Ret tt → runs (ensureInTransaction env fuel (db env CNow) req) (ended (token_ensured req)).
Proof.
  intros Hreq. unfold ensureInTransaction.
  apply (ended_bind _ _ (λ now l, l = [CNow] ∧ answered CNow now)).
  { eapply runs_mono; [apply (calls_once_db CNow)|]. intros l o [-> H]. split; [by repeat constructor|auto]. }
  intros l now [-> Hnow]. apply ended_guard_bind. intros _.
  eapply ended_bind; [apply runs_ensureOperatorUser|]. intros users user Husers.
  eapply ended_bind; [apply runs_ensureOperatorMemberships|]. intros members [] Hmembers.
  eapply ended_bind; [apply runs_ensureOperatorToken|]. intros tokens t Htokens.
  apply ended_guard_bind. intros Ht%String.eqb_neq. apply ended_commit. rewrite app_nil_r.
  split; [done|]. split; [done|]. exists now, user, users, members, tokens. tauto.
Qed.

Lemma runs_revokeInTransaction req :
  runs (revokeInTransaction env req) (ended (token_revoked req)).
Proof.
  unfold revokeInTransaction. apply (ended_bind _ _ (λ _, token_revoked req () )).
  - unfold revokeOperatorToken. apply in_tx_guard_bind. intros _. apply in_tx_lift_bind. intros [] Hreq.
    refine (in_tx_exec_bind _ _ _ _ _). intros [] Hdelete. apply in_tx_done. by repeat split.
  - intros l _ Hl. apply ended_commit. by rewrite app_nil_r.
Qed.
(** The cleanups make their call on the paths that they are for. *)
Lemma runs_closing {A} (m : dbm (W:=W) A) R1 (R : list dbcall → outcome goerror A → Prop) :
  runs m R1 → (∀ l o, R1 l o → R (l ++ [CClose]) o) → (∀ l e, R l (Panic e)) → runs (finally (db env CClose) m) R.
Proof.
  intros Hm HR Hp. apply (runs_finally _ _ R1 (λ l _, l = [CClose])); [done| |].
  - eapply runs_mono; [apply (calls_once_db CClose)|]. by intros l o [-> _].
  - intros l l' o o' Ho ->. destruct o'; auto.
Qed.
Lemma runs_unless_committed {A} (m : dbm (W:=W) A) R1 (R : list dbcall → outcome goerror A → Prop) :
  runs m R1 → (∀ l a, R1 l (Ret a) → R l (Ret a)) → (∀ l e, R1 l (Err e) → R (l ++ [CRollback]) (Err e)) →
  (∀ l e, R l (Panic e)) → runs (unless_committed (db env CRollback) m) R.
Proof.
  intros Hm Ha He Hp s. specialize (Hm s). unfold unless_committed.
  destruct (m s) as [[a|e|e] s1]; destruct Hm as (l & Hl & Ho); [exists l; auto|..];
    unfold db, issue; destruct (env CRollback (c_world s1)) as [[r|e'|e'] w]; exists (l ++ [CRollback]);
    (split; [unfold sends in *; cbn; by rewrite Hl, app_assoc|auto]).
Qed.

Lemma runs_open url :
  runs (openPostgresDatabase env url) (λ l o, (∃ e, l = [] ∧ o = Err e) ∨ (l = [COpen url] ∧ o ≠ Ret false)).
Proof.
  unfold openPostgresDatabase. apply runs_guard_bind; [left; by eexists|]. intros _.
  apply (runs_call_bind env (COpen url)); [done| |by right..]. intros opened _.
  apply runs_guard_bind; [by right|]. intros ->%negb_false_iff. apply runs_ret. by right.
Qed.

Lemma runs_transaction {A} url beginError (work : dbm (W:=W) A) K :
  runs work (ended K) → runs (transaction env (openPostgresDatabase env) url beginError work) (transacted url K).
Proof.
  intros Hwork. unfold transaction.
  apply (runs_bind _ _ (λ l o, match o with Ret opened => l = [COpen url] ∧ opened = true | Err _ => l = [] ∨ l = [COpen url] | _ => True end));
    [|intros l opened [-> ->]|by intros l e []; [left|right; left]|done].
  { apply runs_map_err. eapply runs_mono; [apply runs_open|].
    intros l o [(e & -> & ->)|[-> Ho]]; [by left|]. destruct o as [[]|e|e]; by try right. }
  apply runs_guard_bind; [done|]. intros _.
  apply (runs_closing _ (λ l o, match o with
    | Ret _ => transacted url K (COpen url :: l ++ [CClose]) o
    | Err _ => transacted url K (COpen url :: l ++ [CClose]) o
    | Panic _ => True end)); [|by intros l [a|e|e]|done].
  apply (runs_call_bind env CPing); [done| |by right; right; left|done]. intros [] _.
  apply (runs_call_bind env CBegin); [done| |by right; right; right; left|done]. intros [] _.
  apply (runs_unless_committed _ (ended K)); [done| | |done].
  - intros l a (w & -> & Hw & Hc & HK). exists w. repeat split; [|done..]. cbn; by rewrite <-app_assoc.
  - intros l e (w & commit & -> & Hw & Hc). do 4 right. exists w, commit. repeat split; [|done..]. cbn; by rewrite <-!app_assoc.
Qed.

Lemma runs_EnsureOperatorToken req :
  runs (EnsureOperatorToken env fuel true (Some (NewPostgresOperatorAccessProvisioner env)) req)
    (transacted (eot_PostgresURL req) (token_ensured req)).
Proof.
  apply runs_guard_bind; [done|intros _]. apply runs_lift_bind; [intros [] Hreq|by left|done].
  by apply runs_transaction, runs_ensureInTransaction.
Qed.
Lemma runs_RevokeOperatorToken req :
  runs (RevokeOperatorToken env true (Some (NewPostgresOperatorAccessProvisioner env)) req)
    (transacted (rot_PostgresURL req) (token_revoked req)).
Proof.
  apply runs_guard_bind; [done|intros _]. apply runs_lift_bind; [intros [] Hreq|by left|done].
  apply runs_transaction, runs_revokeInTransaction.
Qed.

(** C14: A run of EnsureOperatorToken that returns a token has committed exactly one
    transaction, in which the operator's user was found or made and set up in
    exactly one row, made a member of every organization listed (there is one), and
    the token is the existing one, found with its hash and not expired, or a new
    one, inserted as its hash after the tokens of the name were deleted, which splits
    into its own identifier and secret.  A run that fails has committed nothing: it
    asked for the commit at most once, and was refused, and it rolls back.
    RevokeOperatorToken deletes the tokens of the name of the user in the same way.
    A connection that was opened is closed. *)
Theorem operator_token_contract :
  (∀ req, runs (EnsureOperatorToken env fuel true (Some (NewPostgresOperatorAccessProvisioner env)) req)
     (transacted (eot_PostgresURL req) (token_ensured req))) ∧
  (∀ req, runs (RevokeOperatorToken env true (Some (NewPostgresOperatorAccessProvisioner env)) req)
     (transacted (rot_PostgresURL req) (token_revoked req))).
Proof. split; [exact runs_EnsureOperatorToken|exact runs_RevokeOperatorToken]. Qed.
End transactions.

(** ** A run *)

(** A database without the user, with two organizations and no keys but [keys], and
    a random source that counts. *)
Definition sample_env (keys : list (string * list Z)) (c : dbcall) : M Z goerror (dbreply c) := λ w,
  match c with
  | COpen _ => (Ret true, w)
  | CStatement (LookupOperatorUser _) => (Ret None, w)
  | CStatement (EnforceOperatorUser _ _ _ _) => (Ret (Ret 1%Z), w)
  | CStatement ListOrganizations =>
      (Ret {| rows_Scans := [Ret 21%Z; Ret 22%Z]; rows_Err := None; rows_Close := None |}, w)
  | CStatement (LookupExistingToken id _ _ h) =>
      (Ret (if existsb (λ k, String.eqb k.1 id && bool_decide (k.2 = h)) keys then Some 500%Z else None), w)
  | CStatement (InsertOperatorUser _ _ _ _ _) | CStatement (UpsertOrganizationMember _ _ _)
  | CStatement (DeleteExistingToken _ _) | CStatement (InsertOperatorToken _ _ _ _ _ _ _)
  | CStatement (DeleteOperatorTokenByName _ _) => (Ret tt, w)
  | CNow => (Ret 100%Z, w)
  | CUuid => (Ret 7%Z, w)
  | CRandom => (Ret (match Byte.of_N (Z.to_N w) with Some b => b | None => x00 end), ((w + 1) mod 256)%Z)
  | CPing | CBegin | CCommit | CRollback | CClose => (Ret tt, w)
  end.

Definition sample_request (existing : string) : EnsureOperatorTokenRequest :=
  {| eot_PostgresURL := "postgres://db"; eot_OperatorUsername := "coder-k8s-operator"; eot_OperatorEmail := "op@example.com";
     eot_TokenName := "operator"; eot_TokenLifetime := (3600 * second)%Z; eot_ExistingToken := existing |}.
Definition sample_run (keys : list (string * list Z)) (existing : string) : result string * nat :=
  let '(o, s) := EnsureOperatorToken (sample_env keys) 40 true
    (Some (NewPostgresOperatorAccessProvisioner (sample_env keys))) (sample_request existing) (CSt 246%Z []) in
  (o, length (c_calls s)).

(** The first ten usable bytes and the next 22: 248 to 255 are skipped. *)
Example new_token_is_made : sample_run [] "" = (Ret "yz01234567-89ABCDEFGHIJKLMNOPQRST", 55%nat).
Proof. vm_compute. reflexivity. Qed.
Example valid_token_is_kept :
  sample_run [("yz01234567", Sum256 "89ABCDEFGHIJKLMNOPQRST")] " yz01234567-89ABCDEFGHIJKLMNOPQRST "
    = (Ret "yz01234567-89ABCDEFGHIJKLMNOPQRST", 14%nat) ∧
  sample_run [("yz01234567", Sum256 "another secret")] " yz01234567-89ABCDEFGHIJKLMNOPQRST "
    = (Ret "yz01234567-89ABCDEFGHIJKLMNOPQRST", 56%nat).
Proof. split; vm_compute; reflexivity. Qed.

Lemma random_token_part_witness :
  ((0 < 10)%Z ∧ (10 ≤ Z.of_nat (length (used (sample_env []) 40 246%Z)))%Z) ∧
  ∃ s', randomTokenPart (sample_env []) 40 10 (CSt 246%Z []) = (Ret "yz01234567", s') ∧ token_text 10 "yz01234567".
Proof.
  split; [split; vm_compute; [done|by intros [=]]|].
  apply (proj2 (random_token_part (sample_env [])) 40%nat 10%Z (CSt 246%Z [])); vm_compute; [done|by intros [=]].
Defined.

End OperatorDatabase.
