(* ===== verification/Times.v ===== *)
(** * Times: the text of points in time

    What the source uses of [Time.Format] in UTC: the layouts time.RFC3339 and
    time.RFC3339Nano, with the calendar of package time, and the reading of such a
    text as a reference. *)

From Stdlib Require Import Lia.
From S2P Require Import Prelude GoStd GoStdFacts ApiTypes.

#[local] Open Scope string_scope.
#[local] Open Scope Z_scope.

Module Times.

(** ** The calendar *)

(** Days since January 1 of year 1 as year, zero-based day of the year, and back. *)
Definition year_of (d : Z) : Z * Z :=
  let n400 := d / 146097 in let d := d mod 146097 in
  let n100 := d / 36524 in let n100 := n100 - n100 / 4 in let d := d - 36524 * n100 in
  let n4 := d / 1461 in let d := d - 1461 * n4 in
  let n := d / 365 in let n := n - n / 4 in let d := d - 365 * n in
  (400 * n400 + 100 * n100 + 4 * n4 + n + 1, d).
Definition days_before_year (year : Z) : Z :=
  let y := year - 1 in 365 * y + y / 4 - y / 100 + y / 400.

Definition isLeap (year : Z) : bool :=
  (year mod 4 =? 0) && (negb (year mod 100 =? 0) || (year mod 400 =? 0)).

(** The first day of a month of a year that is no leap year, [daysBefore]. *)
Definition daysBefore (month : Z) : Z :=
  nth (Z.to_nat (month - 1)) [0; 31; 59; 90; 120; 151; 181; 212; 243; 273; 304; 334; 365] 0.
(** Month and day from the day of the year. *)
Definition month_of (leap : bool) (yday : Z) : Z * Z :=
  if leap && (yday =? 59) then (2, 29)
  else
    let day := if leap && (59 <? yday) then yday - 1 else yday in
    let month := day / 31 + 1 in
    if daysBefore (month + 1) <=? day then (month + 1, day - daysBefore (month + 1) + 1)
    else (month, day - daysBefore month + 1).
Definition yday_of (leap : bool) (month day : Z) : Z :=
  daysBefore month + day - 1 + (if leap && (2 <? month) then 1 else 0).

Record civil := {
  year : Z; month : Z; day : Z; hour : Z; minute : Z; second : Z; nanosecond : Z
}.

(** Seconds from January 1 of year 1 to the Unix epoch. *)
Definition unix_epoch : Z := 62135596800.
Definition civil_of (t : time) : civil :=
  let sec := t / 10 ^ 9 + unix_epoch in
  let '(y, yday) := year_of (sec / 86400) in
  let '(m, d) := month_of (isLeap y) yday in
  {| year := y; month := m; day := d;
     hour := sec mod 86400 / 3600; minute := sec mod 3600 / 60; second := sec mod 60; nanosecond := t mod 10 ^ 9 |}.
Definition time_of (c : civil) : time :=
  let days := days_before_year (year c) + yday_of (isLeap (year c)) (month c) (day c) in
  (86400 * days + 3600 * hour c + 60 * minute c + second c - unix_epoch) * 10 ^ 9 + nanosecond c.

(** ** Text *)

Fixpoint digits (w : nat) (z : Z) : string :=
  match w with O => "" | S w => digits w (z / 10) +:+ String (hex_digit (z mod 10)) "" end.
(** [appendInt(b, z, 4)] *)
Definition year_digits (z : Z) : string :=
  if z <? 0 then "-" +:+ (if - z <? 10000 then digits 4 (- z) else format_int (- z))
  else if z <? 10000 then digits 4 z else format_int z.

Definition seconds_text (c : civil) : string :=
  year_digits (year c) +:+ "-" +:+ digits 2 (month c) +:+ "-" +:+ digits 2 (day c) +:+ "T" +:+
  digits 2 (hour c) +:+ ":" +:+ digits 2 (minute c) +:+ ":" +:+ digits 2 (second c).
Definition format_RFC3339 (t : time) : string := seconds_text (civil_of t) +:+ "Z".

(** The fraction without trailing zeros. *)
Definition fraction (ns : Z) : string :=
  if ns =? 0 then "" else "." +:+ trim_right_set ["0"%char] (digits 9 ns).
Definition format_RFC3339Nano (t : time) : string :=
  seconds_text (civil_of t) +:+ fraction (nanosecond (civil_of t)) +:+ "Z".

(** Reading digits. *)
Definition digit_value (a : ascii) : Z := byte_val a - 48.
Fixpoint number (acc : Z) (s : string) : Z :=
  match s with "" => acc | String a s => number (10 * acc + digit_value a) s end.
(** The text of years 0 to 9999 read again, by position. *)
Definition field (from len : nat) (s : string) : Z := number 0 (stake len (sdrop from s)).
Definition parse_RFC3339 (s : string) : time :=
  time_of {| year := field 0 4 s; month := field 5 2 s; day := field 8 2 s; hour := field 11 2 s;
             minute := field 14 2 s; second := field 17 2 s; nanosecond := 0 |}.

(** [time.Parse] of a text in the layout RFC3339, with its fraction and zone: the
    fast path [parseRFC3339] of package time, which every RFC 3339 text takes. *)
Definition daysIn (leap : bool) (month : Z) : Z :=
  daysBefore (month + 1) - daysBefore month + (if leap && (month =? 2) then 1 else 0).
Definition is_digit (a : ascii) : bool := in_range 48 57 a.
Fixpoint digits_only (s : string) : bool :=
  match s with "" => true | String a s => is_digit a && digits_only s end.
Definition parseUint (from len : nat) (lo hi : Z) (s : string) : option Z :=
  let text := stake len (sdrop from s) in
  let x := number 0 text in
  if digits_only text && (lo <=? x) && (x <=? hi) then Some x else None.
Definition char_is (i : nat) (a : ascii) (s : string) : bool := String.eqb (stake 1 (sdrop i s)) (String a "").
Fixpoint leading_digits (s : string) : nat :=
  match s with "" => O | String a s => if is_digit a then S (leading_digits s) else O end.
Definition parseFraction (s : string) : Z * string :=
  match s with
  | String "." rest =>
      let n := leading_digits rest in
      if (n =? 0)%nat then (0, s)
      else (number 0 (stake 9 (stake n rest)) * 10 ^ Z.of_nat (9 - n), sdrop n rest)
  | s => (0, s)
  end.
(** The offset of a zone in seconds. *)
Definition parseZone (s : string) : option Z :=
  if String.eqb s "Z" then Some 0
  else if negb (slen s =? 6) then None
  else
    hr ← parseUint 1 2 0 23 s; mm ← parseUint 4 2 0 59 s;
    if negb (char_is 3 ":" s) then None
    else if char_is 0 "-" s then Some (- ((hr * 60 + mm) * 60))
    else if char_is 0 "+" s then Some ((hr * 60 + mm) * 60) else None.
Definition parse_time (s : string) : option time :=
  if slen s <? 19 then None else
  y ← parseUint 0 4 0 9999 s; m ← parseUint 5 2 1 12 s; d ← parseUint 8 2 1 (daysIn (isLeap y) m) s;
  h ← parseUint 11 2 0 23 s; mi ← parseUint 14 2 0 59 s; sec ← parseUint 17 2 0 59 s;
  if negb (char_is 4 "-" s && char_is 7 "-" s && char_is 10 "T" s && char_is 13 ":" s && char_is 16 ":" s) then None
  else
    let '(ns, rest) := parseFraction (sdrop 19 s) in
    offset ← parseZone rest;
    Some (time_of {| year := y; month := m; day := d; hour := h; minute := mi; second := sec; nanosecond := ns |}
          - offset * 10 ^ 9).

(** * Properties *)

(** A year from its position in the 400-year cycle. *)
Lemma cycle_year a c q n :
  0 ≤ c ≤ 3 → 0 ≤ q ≤ 24 → 0 ≤ n ≤ 3 →
  let y := 400 * a + 100 * c + 4 * q + n + 1 in
  days_before_year y = 146097 * a + 36524 * c + 1461 * q + 365 * n ∧
  isLeap y = ((n =? 3) && (negb (q =? 24) || (c =? 3))).
Proof.
  intros Hc Hq Hn y. subst y. split.
  - unfold days_before_year. replace (_ - 1) with (400 * a + 100 * c + 4 * q + n) by lia.
    rewrite <-(Z.div_unique (400 * a + 100 * c + 4 * q + n) 4 (100 * a + 25 * c + q) n) by lia.
    rewrite <-(Z.div_unique (400 * a + 100 * c + 4 * q + n) 100 (4 * a + c) (4 * q + n)) by lia.
    rewrite <-(Z.div_unique (400 * a + 100 * c + 4 * q + n) 400 a (100 * c + 4 * q + n)) by lia. lia.
  - unfold isLeap. apply eq_bool_prop_intro. rewrite !Is_true_true, !andb_true_iff, !orb_true_iff, !negb_true_iff, !Z.eqb_eq, !Z.eqb_neq.
    Z.to_euclidean_division_equations. lia.
Qed.

Lemma year_of_spec d y yday :
  year_of d = (y, yday) → d = days_before_year y + yday ∧ 0 ≤ yday < (if isLeap y then 366 else 365).
Proof.
  unfold year_of. intros [= <- <-].
  pose proof (Z.div_mod d 146097 ltac:(lia)) as Hd. pose proof (Z.mod_pos_bound d 146097 ltac:(lia)) as Hr.
  set (a := d / 146097) in *. set (r := d mod 146097) in *. clearbody a r.
  set (c := r / 36524 - r / 36524 / 4).
  assert (0 ≤ c ≤ 3 ∧ 0 ≤ r - 36524 * c < (if c =? 3 then 36525 else 36524)) as [Hc Hr2].
  { subst c. destruct (Z.eqb_spec (r / 36524 - r / 36524 / 4) 3); Z.to_euclidean_division_equations; lia. }
  set (r2 := r - 36524 * c) in *. assert (r = 36524 * c + r2) as Hr' by (subst r2; lia). clearbody c r2. subst r.
  set (q := r2 / 1461). assert (0 ≤ q ≤ 24 ∧ 0 ≤ r2 - 1461 * q < (if (q =? 24) && negb (c =? 3) then 1460 else 1461)) as [Hq Hr3].
  { subst q. destruct (Z.eqb_spec c 3), (Z.eqb_spec (r2 / 1461) 24); cbn; Z.to_euclidean_division_equations; lia. }
  set (r3 := r2 - 1461 * q) in *. assert (r2 = 1461 * q + r3) as Hr2' by (subst r3; lia). clearbody q r3. subst r2.
  set (n := r3 / 365 - r3 / 365 / 4). assert (0 ≤ n ≤ 3 ∧ 0 ≤ r3 - 365 * n ≤ 365 ∧ (n < 3 → r3 - 365 * n < 365)) as (Hn & Hr4 & Hr5).
  { subst n. destruct (Z.eqb_spec c 3), (Z.eqb_spec q 24); cbn in Hr3; Z.to_euclidean_division_equations; lia. }
  destruct (cycle_year a c q n Hc Hq Hn) as [-> ->]. split; [lia|].
  destruct (Z.eqb_spec n 3), (Z.eqb_spec q 24), (Z.eqb_spec c 3); cbn in *; lia.
Qed.

Lemma month_of_spec (leap : bool) yday m d :
  0 ≤ yday < (if leap then 366 else 365) → month_of leap yday = (m, d) →
  yday_of leap m d = yday ∧ 1 ≤ m ≤ 12 ∧ 1 ≤ d ≤ daysIn leap m ∧ daysIn leap m ≤ 31.
Proof.
  set (ok := λ (leap : bool) (yday : Z), let '(m, d) := month_of leap yday in
    (yday_of leap m d =? yday) && ((1 <=? m) && (m <=? 12)) && ((1 <=? d) && (d <=? daysIn leap m)) && (daysIn leap m <=? 31)).
  assert (∀ leap, forallb (ok leap) (seqZ 0 (if leap then 366 else 365)) = true) as Hall by (by intros []; vm_compute).
  intros Hy Hm. pose proof (proj1 (forallb_forall _ _) (Hall leap) yday) as Hok.
  rewrite <-list_elem_of_In, elem_of_seqZ in Hok. specialize (Hok ltac:(lia)).
  unfold ok in Hok. rewrite Hm in Hok. rewrite !andb_true_iff, Z.eqb_eq, !Z.leb_le in Hok. lia.
Qed.

(** The calendar is a bijection: a point in time is found again in its civil form,
    whose fields are in range. *)
Definition civil_ok (c : civil) : Prop :=
  1 ≤ month c ≤ 12 ∧ 1 ≤ day c ≤ daysIn (isLeap (year c)) (month c) ∧ daysIn (isLeap (year c)) (month c) ≤ 31 ∧ 0 ≤ hour c < 24 ∧ 0 ≤ minute c < 60 ∧ 0 ≤ second c < 60 ∧
  0 ≤ nanosecond c < 10 ^ 9.
Lemma civil_of_spec t : time_of (civil_of t) = t ∧ civil_ok (civil_of t).
Proof.
  unfold civil_of, time_of, civil_ok. set (sec := t / 10 ^ 9 + unix_epoch).
  destruct (year_of (sec / 86400)) as [y yday] eqn:Hy. apply year_of_spec in Hy as [Hd Hr].
  destruct (month_of (isLeap y) yday) as [m d] eqn:Hm. apply month_of_spec in Hm as (Hyd & Hm & Hd' & Hd''); [|done].
  cbn [year month day hour minute second nanosecond]. rewrite Hyd.
  assert (t = (sec - unix_epoch) * 10 ^ 9 + t mod 10 ^ 9) as Ht by (subst sec; pose proof (Z.div_mod t (10 ^ 9)); lia).
  pose proof (Z.mod_pos_bound t (10 ^ 9) ltac:(lia)). clearbody sec. split.
  - rewrite <-Hd. replace (86400 * (sec / 86400) + _ + _ + sec mod 60 - unix_epoch) with (sec - unix_epoch); [lia|].
    Z.to_euclidean_division_equations. lia.
  - repeat split; try lia; Z.to_euclidean_division_equations; lia.
Qed.

Lemma digit_value_hex z : 0 ≤ z < 10 → digit_value (hex_digit z) = z.
Proof.
  intros H. unfold hex_digit. rewrite (proj2 (Z.ltb_lt _ _)) by lia.
  unfold digit_value, byte_val. rewrite N_ascii_embedding by lia. lia.
Qed.
Lemma digit_mod z : digit_value (hex_digit (z mod 10)) = z mod 10.
Proof. apply digit_value_hex. by apply Z.mod_pos_bound. Qed.

(** The fields of a text, read back. *)
Definition text_ok (c : civil) : Prop := 0 ≤ year c < 10000 ∧ civil_ok c.
Lemma fields_of_text c :
  text_ok c → let s := seconds_text c +:+ "Z" in
  field 0 4 s = year c ∧ field 5 2 s = month c ∧ field 8 2 s = day c ∧
  field 11 2 s = hour c ∧ field 14 2 s = minute c ∧ field 17 2 s = second c.
Proof.
  intros (Hy & Hm & Hd & Hd' & Hh & Hmin & Hs & _). unfold seconds_text, year_digits.
  rewrite (proj2 (Z.ltb_ge (year c) 0)), (proj2 (Z.ltb_lt (year c) 10000)) by lia.
  destruct c as [y m d h mi sec ns]; cbn [year month day hour minute second] in *.
  cbn -[Z.div Z.modulo hex_digit Z.mul Z.add digit_value].
  unfold field. cbn -[Z.div Z.modulo hex_digit Z.mul Z.add digit_value].
  rewrite !digit_mod. repeat split; Z.to_euclidean_division_equations; lia.
Qed.

(** The text of a point in time in the years 0 to 9999 reads back as its second. *)
Lemma parse_format t :
  0 ≤ year (civil_of t) < 10000 → parse_RFC3339 (format_RFC3339 t) = t - t mod 10 ^ 9.
Proof.
  intros Hy. destruct (civil_of_spec t) as [Ht Hok].
  assert (nanosecond (civil_of t) = t mod 10 ^ 9) as Hns.
  { unfold civil_of. destruct (year_of _). by destruct (month_of _ _). }
  destruct (fields_of_text (civil_of t) (conj Hy Hok)) as (E1 & E2 & E3 & E4 & E5 & E6).
  unfold parse_RFC3339, format_RFC3339. rewrite E1, E2, E3, E4, E5, E6, <-Hns.
  transitivity (time_of (civil_of t) - nanosecond (civil_of t)); [|by rewrite Ht]. clear. generalize (civil_of t) as c. intros c. unfold time_of.
  cbn [year month day hour minute second nanosecond]. unfold time. ring.
Qed.

(** So does the strict reader, which checks every character. *)
Lemma is_digit_hex z : is_digit (hex_digit (z mod 10)) = true.
Proof.
  pose proof (Z.mod_pos_bound z 10 ltac:(lia)) as Hz.
  assert (z mod 10 ∈ seqZ 0 10) as Hin by (apply elem_of_seqZ; lia).
  revert Hin. generalize (z mod 10) as x. clear. intros x Hin.
  apply list_elem_of_In in Hin. assert (forallb (λ x, is_digit (hex_digit x)) (seqZ 0 10) = true) as H by (vm_compute; reflexivity).
  exact (proj1 (forallb_forall _ _) H x Hin).
Qed.
Lemma parseUint_field from len lo hi s x :
  digits_only (stake len (sdrop from s)) = true → field from len s = x → lo ≤ x ≤ hi →
  parseUint from len lo hi s = Some x.
Proof.
  unfold parseUint, field. intros -> -> Hx. by rewrite (proj2 (Z.leb_le lo x)), (proj2 (Z.leb_le x hi)) by lia.
Qed.
Lemma text_layout c :
  text_ok c → let s := seconds_text c +:+ "Z" in
  (slen s <? 19) = false ∧ sdrop 19 s = "Z" ∧
  forallb (λ '(from, len), digits_only (stake len (sdrop from s))) [(0, 4); (5, 2); (8, 2); (11, 2); (14, 2); (17, 2)]%nat = true ∧
  char_is 4 "-" s && char_is 7 "-" s && char_is 10 "T" s && char_is 13 ":" s && char_is 16 ":" s = true.
Proof.
  intros (Hy & _). unfold seconds_text, year_digits.
  rewrite (proj2 (Z.ltb_ge (year c) 0)), (proj2 (Z.ltb_lt (year c) 10000)) by lia.
  destruct c as [y m d h mi sec ns]. cbn -[Z.div Z.modulo hex_digit Z.mul Z.add is_digit].
  rewrite !is_digit_hex. repeat split.
Qed.
Lemma parse_time_text c :
  text_ok c → parse_time (seconds_text c +:+ "Z") = Some (parse_RFC3339 (seconds_text c +:+ "Z")).
Proof.
  intros Htext. pose proof Htext as [Hy Hok]. unfold parse_time, parse_RFC3339.
  destruct (fields_of_text _ Htext) as (E1 & E2 & E3 & E4 & E5 & E6).
  destruct (text_layout _ Htext) as (Hlen & Hrest & Hdigits & Hchars).
  revert E1 E2 E3 E4 E5 E6 Hlen Hrest Hdigits Hchars. generalize (seconds_text c +:+ "Z") as s. intros s E1 E2 E3 E4 E5 E6 Hlen Hrest Hdigits Hchars.
  cbn [forallb] in Hdigits. rewrite !andb_true_iff in Hdigits. destruct Hdigits as (D1 & D2 & D3 & D4 & D5 & D6 & _).
  destruct Hok as (Hm & Hd & _ & Hh & Hmi & Hs & _).
  rewrite Hlen, E1, E2, E3, E4, E5, E6.
  do 6 (erewrite parseUint_field by (eassumption || lia); cbn [mbind option_bind]).
  rewrite Hchars, Hrest. change (parseFraction "Z") with (0, "Z").
  cbn [negb]. change (parseZone "Z") with (Some 0). cbn [mbind option_bind]. by rewrite Z.mul_0_l, Z.sub_0_r.
Qed.
Lemma parse_time_format t :
  0 ≤ year (civil_of t) < 10000 → parse_time (format_RFC3339 t) = Some (t - t mod 10 ^ 9).
Proof.
  intros Hy. destruct (civil_of_spec t) as [_ Hok].
  rewrite <-(parse_format t Hy). exact (parse_time_text (civil_of t) (conj Hy Hok)).
Qed.

Lemma format_nonempty t : format_RFC3339 t ≠ "".
Proof.
  unfold format_RFC3339. generalize (seconds_text (civil_of t)) as s. intros s.
  assert (String.length (s +:+ "Z") ≠ 0%nat) as H by (rewrite length_append; cbn; lia). by intros E; rewrite E in H.
Qed.

End Times.
