(* ===== verification/OpenApi.v ===== *)
(** * OpenApi: the published schemas and the JSON form of the aggregated resources

    internal/app/apiserverapp/apiserverapp.go ([getOpenAPIDefinitions]) against the
    json tags of api/aggregation/v1alpha1/types.go, by the rules of encoding/json:
    what a value is encoded as, and what is read back.  The text of JSON and the
    JSON form of [metav1.ObjectMeta] are the libraries'. *)

From S2P Require Import Prelude GoStd GoStdFacts GoErrors ApiTypes AggTypes Sdk Convert Times.

#[local] Open Scope string_scope.
#[local] Open Scope list_scope.

Module OpenApi.
Import Sdk Times.

(** ** Encoding of structs *)

(** A field with its tag: no value if [omitempty] leaves it out. *)
Definition field : Type := string * option k8s_value.
Definition str_field (tag s : string) : field := (tag, Some (JStr s)).
Definition bool_field (tag : string) (b : bool) : field := (tag, Some (JBool b)).
Definition omitempty_str (tag s : string) : field := (tag, if String.eqb s "" then None else Some (JStr s)).
Definition omitempty_bool (tag : string) (b : bool) : field := (tag, if b then Some (JBool b) else None).
Definition omitempty_ptr {A} (tag : string) (encode : A → k8s_value) (p : option A) : field := (tag, encode <$> p).
(** A struct is never empty. *)
Definition struct_field (tag : string) (v : k8s_value) : field := (tag, Some v).

Definition members (fields : list field) : list (string * k8s_value) :=
  omap (λ '(tag, v), v ← v; Some (tag, v)) fields.
Definition encode_struct (fields : list field) : k8s_value := JObj (members fields).

(** [metav1.Time] *)
Definition encode_time (t : time) : k8s_value := if time_IsZero t then JNull else JStr (format_RFC3339 t).
(** A map, by its sorted keys. *)
Definition encode_string_map (m : gmap string string) : k8s_value :=
  JObj ((λ k, (k, JStr (default "" (m !! k)))) <$> sort_strings (map_to_list m).*1).
Definition omitempty_map (tag : string) (m : option (gmap string string)) : field :=
  (tag, m ← m; if bool_decide (m = ∅) then None else Some (encode_string_map m)).

(** The JSON form of an object's metadata, and what is read back from it. *)
Class MetaCodec := {
  meta_members : ObjectMeta → list (string * k8s_value);
  meta_of : list (string * k8s_value) → option ObjectMeta;
  meta_read : ObjectMeta → ObjectMeta;
  meta_NoDup m : NoDup (meta_members m).*1;
  meta_of_members m : meta_of (meta_members m) = Some (meta_read m)
}.

Section encoding.
Context `{MetaCodec}.

Definition type_fields (t : TypeMeta) : list field := [omitempty_str "kind" (Kind t); omitempty_str "apiVersion" (APIVersion t)].

Definition encode_workspace_spec (s : CoderWorkspaceSpec) : k8s_value := encode_struct [
  omitempty_str "organization" (wss_Organization s); omitempty_str "templateName" (wss_TemplateName s);
  omitempty_str "templateVersionID" (wss_TemplateVersionID s); bool_field "running" (wss_Running s);
  omitempty_ptr "ttlMillis" JInt (wss_TTLMillis s); omitempty_ptr "autostartSchedule" JStr (wss_AutostartSchedule s)].
Definition encode_workspace_status (s : CoderWorkspaceStatus) : k8s_value := encode_struct [
  omitempty_str "id" (wst_ID s); omitempty_str "ownerName" (wst_OwnerName s);
  omitempty_str "organizationName" (wst_OrganizationName s); omitempty_str "templateName" (wst_TemplateName s);
  omitempty_str "latestBuildID" (wst_LatestBuildID s); omitempty_str "latestBuildStatus" (wst_LatestBuildStatus s);
  omitempty_ptr "autoShutdown" encode_time (wst_AutoShutdown s); omitempty_ptr "lastUsedAt" encode_time (wst_LastUsedAt s)].
Definition encode_workspace (w : CoderWorkspace) : k8s_value := encode_struct (type_fields (ws_type w) ++ [
  struct_field "metadata" (JObj (meta_members (ws_meta w))); struct_field "spec" (encode_workspace_spec (ws_Spec w));
  struct_field "status" (encode_workspace_status (ws_Status w))]).

Definition encode_template_spec (s : CoderTemplateSpec) : k8s_value := encode_struct [
  str_field "organization" (ts_Organization s); str_field "versionID" (ts_VersionID s);
  omitempty_str "displayName" (ts_DisplayName s); omitempty_str "description" (ts_Description s);
  omitempty_str "icon" (ts_Icon s); omitempty_map "files" (ts_Files s); omitempty_bool "running" (ts_Running s)].
Definition encode_template_status (s : CoderTemplateStatus) : k8s_value := encode_struct [
  omitempty_str "id" (tst_ID s); omitempty_str "organizationName" (tst_OrganizationName s);
  omitempty_str "activeVersionID" (tst_ActiveVersionID s); omitempty_bool "deprecated" (tst_Deprecated s);
  omitempty_ptr "updatedAt" encode_time (tst_UpdatedAt s); omitempty_ptr "autoShutdown" encode_time (tst_AutoShutdown s)].
Definition encode_template (t : CoderTemplate) : k8s_value := encode_struct (type_fields (tpl_type t) ++ [
  struct_field "metadata" (JObj (meta_members (tpl_meta t))); struct_field "spec" (encode_template_spec (tpl_Spec t));
  struct_field "status" (encode_template_status (tpl_Status t))]).

(** A list, whose [ListMeta] is empty. *)
Definition encode_list {A} (encode : A → k8s_value) (t : TypeMeta) (items : list A) : k8s_value :=
  encode_struct (type_fields t ++ [struct_field "metadata" (JObj []); ("items", Some (JList (encode <$> items)))]).
Definition encode_object (o : object) : option k8s_value :=
  match o with
  | OWorkspace (Some w) => Some (encode_workspace w)
  | OTemplate (Some t) => Some (encode_template t)
  | OWorkspaceList t items => Some (encode_list encode_workspace t items)
  | OTemplateList t items => Some (encode_list encode_template t items)
  | _ => None
  end.
End encoding.

(** ** Decoding: a member that is absent or null leaves its field empty *)

Fixpoint assoc {A} (k : string) (l : list (string * A)) : option A :=
  match l with [] => None | (k', v) :: l => if String.eqb k k' then Some v else assoc k l end.
Definition member (k : string) (fields : list (string * k8s_value)) : k8s_value := default JNull (assoc k fields).

Definition as_str (v : k8s_value) : option string :=
  match v with JNull => Some "" | JStr s => Some s | _ => None end.
Definition as_bool (v : k8s_value) : option bool :=
  match v with JNull => Some false | JBool b => Some b | _ => None end.
Definition as_ptr {A} (decode : k8s_value → option A) (v : k8s_value) : option (option A) :=
  match v with JNull => Some None | v => Some <$> decode v end.
(** An [int64] *)
Definition as_int64 (v : k8s_value) : option Z :=
  match v with JInt z => if decide (- 2 ^ 63 ≤ z < 2 ^ 63)%Z then Some z else None | _ => None end.
Definition as_time (v : k8s_value) : option time :=
  match v with JStr s => parse_time s | _ => None end.
Definition as_fields (v : k8s_value) : option (list (string * k8s_value)) :=
  match v with JNull => Some [] | JObj fields => Some fields | _ => None end.
Definition as_string_map (v : k8s_value) : option (option (gmap string string)) :=
  match v with
  | JNull => Some None
  | JObj fields => pairs ← mapM (λ '(k, v), s ← as_str v; Some (k, s)) fields; Some (Some (list_to_map (reverse pairs)))
  | _ => None
  end.

Section decoding.
Context `{MetaCodec}.

Definition decode_type (f : list (string * k8s_value)) : option TypeMeta :=
  kind ← as_str (member "kind" f); version ← as_str (member "apiVersion" f);
  Some {| Kind := kind; APIVersion := version |}.
Definition decode_workspace_spec (v : k8s_value) : option CoderWorkspaceSpec :=
  f ← as_fields v;
  organization ← as_str (member "organization" f); templateName ← as_str (member "templateName" f);
  version ← as_str (member "templateVersionID" f); running ← as_bool (member "running" f);
  ttl ← as_ptr as_int64 (member "ttlMillis" f); autostart ← as_ptr as_str (member "autostartSchedule" f);
  Some {| wss_Organization := organization; wss_TemplateName := templateName; wss_TemplateVersionID := version;
          wss_Running := running; wss_TTLMillis := ttl; wss_AutostartSchedule := autostart |}.
Definition decode_workspace_status (v : k8s_value) : option CoderWorkspaceStatus :=
  f ← as_fields v;
  id ← as_str (member "id" f); owner ← as_str (member "ownerName" f); org ← as_str (member "organizationName" f);
  template ← as_str (member "templateName" f); build ← as_str (member "latestBuildID" f);
  status ← as_str (member "latestBuildStatus" f); autoShutdown ← as_ptr as_time (member "autoShutdown" f);
  lastUsed ← as_ptr as_time (member "lastUsedAt" f);
  Some {| wst_ID := id; wst_OwnerName := owner; wst_OrganizationName := org; wst_TemplateName := template;
          wst_LatestBuildID := build; wst_LatestBuildStatus := status; wst_AutoShutdown := autoShutdown;
          wst_LastUsedAt := lastUsed |}.
Definition decode_meta (v : k8s_value) : option ObjectMeta := f ← as_fields v; meta_of f.
Definition decode_workspace (v : k8s_value) : option CoderWorkspace :=
  f ← as_fields v;
  type ← decode_type f; meta ← decode_meta (member "metadata" f); spec ← decode_workspace_spec (member "spec" f);
  status ← decode_workspace_status (member "status" f);
  Some {| ws_type := type; ws_meta := meta; ws_Spec := spec; ws_Status := status |}.

Definition decode_template_spec (v : k8s_value) : option CoderTemplateSpec :=
  f ← as_fields v;
  organization ← as_str (member "organization" f); version ← as_str (member "versionID" f);
  displayName ← as_str (member "displayName" f); description ← as_str (member "description" f);
  icon ← as_str (member "icon" f); files ← as_string_map (member "files" f); running ← as_bool (member "running" f);
  Some {| ts_Organization := organization; ts_VersionID := version; ts_DisplayName := displayName;
          ts_Description := description; ts_Icon := icon; ts_Files := files; ts_Running := running |}.
Definition decode_template_status (v : k8s_value) : option CoderTemplateStatus :=
  f ← as_fields v;
  id ← as_str (member "id" f); org ← as_str (member "organizationName" f); version ← as_str (member "activeVersionID" f);
  deprecated ← as_bool (member "deprecated" f); updated ← as_ptr as_time (member "updatedAt" f);
  autoShutdown ← as_ptr as_time (member "autoShutdown" f);
  Some {| tst_ID := id; tst_OrganizationName := org; tst_ActiveVersionID := version; tst_Deprecated := deprecated;
          tst_UpdatedAt := updated; tst_AutoShutdown := autoShutdown |}.
Definition decode_template (v : k8s_value) : option CoderTemplate :=
  f ← as_fields v;
  type ← decode_type f; meta ← decode_meta (member "metadata" f); spec ← decode_template_spec (member "spec" f);
  status ← decode_template_status (member "status" f);
  Some {| tpl_type := type; tpl_meta := meta; tpl_Spec := spec; tpl_Status := status |}.
End decoding.

(** ** Schemas *)

(** [spec.Schema], as far as it is used; properties by distinct names. *)
#[warnings="-register-all"] Inductive schema := Schema
  (types : list string) (format : string) (properties : list (string * schema)) (items : option schema)
  (additionalProperties : option (bool * option schema)) (extensions : list (string * k8s_value)).
Definition typed (type : string) : schema := Schema [type] "" [] None None [].
Definition formatted (type format : string) : schema := Schema [type] format [] None None [].
Definition structure (extensions : list (string * k8s_value)) (properties : list (string * schema)) : schema :=
  Schema ["object"] "" properties None None extensions.
Definition array_of (items : schema) : schema := Schema ["array"] "" [] (Some items) None [].

Definition groupVersionKindExtension (kind : string) : list (string * k8s_value) :=
  [("x-kubernetes-group-version-kind",
    JList [JObj [("group", JStr GroupName); ("version", JStr "v1alpha1"); ("kind", JStr kind)]])].

Definition boolSchema := typed "boolean".
Definition dateTimeSchema := formatted "string" "date-time".
Definition int64Schema := formatted "integer" "int64".
Definition stringSchema := typed "string".
Definition objectMetaSchema := typed "object".
Definition listMetaSchema := typed "object".
Definition filesSchema : schema :=
  Schema ["object"] "" [] None (Some (true, Some stringSchema)) [("x-kubernetes-map-type", JStr "atomic")].

Definition workspaceSchema : schema := structure (groupVersionKindExtension "CoderWorkspace") [
  ("apiVersion", stringSchema); ("kind", stringSchema); ("metadata", objectMetaSchema);
  ("spec", structure [] [
    ("organization", stringSchema); ("templateName", stringSchema); ("templateVersionID", stringSchema);
    ("running", boolSchema); ("ttlMillis", int64Schema); ("autostartSchedule", stringSchema)]);
  ("status", structure [] [
    ("id", stringSchema); ("ownerName", stringSchema); ("organizationName", stringSchema);
    ("templateName", stringSchema); ("latestBuildID", stringSchema); ("latestBuildStatus", stringSchema);
    ("autoShutdown", dateTimeSchema); ("lastUsedAt", dateTimeSchema)])].
Definition templateSchema : schema := structure (groupVersionKindExtension "CoderTemplate") [
  ("apiVersion", stringSchema); ("kind", stringSchema); ("metadata", objectMetaSchema);
  ("spec", structure [] [
    ("organization", stringSchema); ("versionID", stringSchema); ("displayName", stringSchema);
    ("description", stringSchema); ("icon", stringSchema); ("files", filesSchema); ("running", boolSchema)]);
  ("status", structure [] [
    ("id", stringSchema); ("organizationName", stringSchema); ("activeVersionID", stringSchema);
    ("deprecated", boolSchema); ("updatedAt", dateTimeSchema); ("autoShutdown", dateTimeSchema)])].
Definition workspaceListSchema : schema := structure (groupVersionKindExtension "CoderWorkspaceList") [
  ("apiVersion", stringSchema); ("kind", stringSchema); ("metadata", listMetaSchema); ("items", array_of workspaceSchema)].
Definition templateListSchema : schema := structure (groupVersionKindExtension "CoderTemplateList") [
  ("apiVersion", stringSchema); ("kind", stringSchema); ("metadata", listMetaSchema); ("items", array_of templateSchema)].

(** The definitions, by the canonical name that kube-openapi gives a Go type. *)
Definition getOpenAPIDefinitions (GetCanonicalTypeName : string → string) : list (string * schema) := [
  (GetCanonicalTypeName "CoderWorkspace", workspaceSchema); (GetCanonicalTypeName "CoderWorkspaceList", workspaceListSchema);
  (GetCanonicalTypeName "CoderTemplate", templateSchema); (GetCanonicalTypeName "CoderTemplateList", templateListSchema)].

(** ** Validity of a value: closed objects, as server-side apply has them *)

Definition has_type (format type : string) (v : k8s_value) : bool :=
  match v with
  | JNull => false
  | JBool _ => String.eqb type "boolean"
  | JInt z => String.eqb type "integer" && (negb (String.eqb format "int64") || bool_decide (- 2 ^ 63 ≤ z < 2 ^ 63)%Z)
  | JStr s => String.eqb type "string" && (negb (String.eqb format "date-time") || bool_decide (is_Some (parse_time s)))
  | JList _ => String.eqb type "array"
  | JObj _ => String.eqb type "object"
  end.
Fixpoint conforms (s : schema) (v : k8s_value) : bool :=
  let '(Schema types format properties items additional _) := s in
  existsb (λ type, has_type format type v) types &&
  match v with
  | JObj fields =>
      let checks := List.map (λ '(k, p), (k, conforms p)) properties in
      bool_decide (NoDup fields.*1) &&
      forallb (λ '(k, v), match assoc k checks with
                          | Some check => check v
                          | None => match additional with
                                    | Some (allows, Some p) => allows && conforms p v
                                    | Some (allows, None) => allows
                                    | None => match properties with [] => true | _ => false end
                                    end
                          end) fields
  | JList l => match items with Some p => forallb (conforms p) l | None => true end
  | _ => true
  end.

(** The Go type of an object of the group. *)
Definition go_type (o : object) : option string :=
  match o with
  | OWorkspace _ => Some "CoderWorkspace" | OTemplate _ => Some "CoderTemplate"
  | OWorkspaceList _ _ => Some "CoderWorkspaceList" | OTemplateList _ _ => Some "CoderTemplateList"
  | _ => None
  end.

(** What the JSON form keeps of a value: a time by its second, if it is not zero. *)
Definition read_time (t : option time) : option time :=
  t ← t; if time_IsZero t then None else Some (t - t mod 10 ^ 9)%Z.
Definition read_files (files : option (gmap string string)) : option (gmap string string) :=
  files ← files; if bool_decide (files = ∅) then None else Some files.
Definition read_workspace `{MetaCodec} (w : CoderWorkspace) : CoderWorkspace := {|
  ws_type := ws_type w; ws_meta := meta_read (ws_meta w); ws_Spec := ws_Spec w;
  ws_Status := let s := ws_Status w in
    {| wst_ID := wst_ID s; wst_OwnerName := wst_OwnerName s; wst_OrganizationName := wst_OrganizationName s;
       wst_TemplateName := wst_TemplateName s; wst_LatestBuildID := wst_LatestBuildID s;
       wst_LatestBuildStatus := wst_LatestBuildStatus s; wst_AutoShutdown := read_time (wst_AutoShutdown s);
       wst_LastUsedAt := read_time (wst_LastUsedAt s) |} |}.
Definition read_template `{MetaCodec} (t : CoderTemplate) : CoderTemplate := {|
  tpl_type := tpl_type t; tpl_meta := meta_read (tpl_meta t);
  tpl_Spec := let s := tpl_Spec t in
    {| ts_Organization := ts_Organization s; ts_VersionID := ts_VersionID s; ts_DisplayName := ts_DisplayName s;
       ts_Description := ts_Description s; ts_Icon := ts_Icon s; ts_Files := read_files (ts_Files s); ts_Running := ts_Running s |};
  tpl_Status := let s := tpl_Status t in
    {| tst_ID := tst_ID s; tst_OrganizationName := tst_OrganizationName s; tst_ActiveVersionID := tst_ActiveVersionID s;
       tst_Deprecated := tst_Deprecated s; tst_UpdatedAt := read_time (tst_UpdatedAt s);
       tst_AutoShutdown := read_time (tst_AutoShutdown s) |} |}.

(** The times and the 64-bit integers of an object. *)
Definition workspace_times (w : CoderWorkspace) : list time :=
  option_list (wst_AutoShutdown (ws_Status w)) ++ option_list (wst_LastUsedAt (ws_Status w)).
Definition template_times (t : CoderTemplate) : list time :=
  option_list (tst_UpdatedAt (tpl_Status t)) ++ option_list (tst_AutoShutdown (tpl_Status t)).
Definition times_of (o : object) : list time :=
  match o with
  | OWorkspace (Some w) => workspace_times w
  | OTemplate (Some t) => template_times t
  | OWorkspaceList _ l => l ≫= workspace_times
  | OTemplateList _ l => l ≫= template_times
  | _ => []
  end.
Definition workspace_ttls (w : CoderWorkspace) : list Z := option_list (wss_TTLMillis (ws_Spec w)).
Definition ttls_of (o : object) : list Z :=
  match o with OWorkspace (Some w) => workspace_ttls w | OWorkspaceList _ l => l ≫= workspace_ttls | _ => [] end.
Definition printable (t : time) : Prop := (0 ≤ year (civil_of t) < 10000)%Z.
Definition int64 (z : Z) : Prop := (- 2 ^ 63 ≤ z < 2 ^ 63)%Z.
#[global] Instance int64_dec z : Decision (int64 z).
Proof. unfold int64. apply _. Defined.

(** * Properties *)

#[local] Arguments parse_time : simpl never.
#[local] Arguments format_RFC3339 : simpl never.

(** ** Structs *)

Lemma assoc_elem {A} k (l : list (string * A)) v : assoc k l = Some v → (k, v) ∈ l.
Proof.
  induction l as [|[k' v'] l IH]; cbn; [done|]. destruct (String.eqb_spec k k') as [->|]; [intros [= ->]; left|right; auto].
Qed.
Lemma assoc_None {A} k (l : list (string * A)) : k ∉ l.*1 → assoc k l = None.
Proof.
  induction l as [|[k' v] l IH]; cbn; [done|]. rewrite not_elem_of_cons. intros [Hk Hl].
  destruct (String.eqb_spec k k'); [done|auto].
Qed.
Lemma elem_assoc {A} k v (l : list (string * A)) : NoDup l.*1 → (k, v) ∈ l → assoc k l = Some v.
Proof.
  induction l as [|[k' v'] l IH]; cbn; [by rewrite elem_of_nil|].
  rewrite NoDup_cons, elem_of_cons. intros [Hk Hl] [[= -> ->]|Hin]; [by rewrite String.eqb_refl|].
  destruct (String.eqb_spec k k') as [->|]; [|auto]. destruct Hk. apply list_elem_of_fmap. by exists (k', v).
Qed.
Lemma assoc_map {A B} (f : A → B) k l : assoc k (List.map (λ '(k, p), (k, f p)) l) = f <$> assoc k l.
Proof. induction l as [|[k' p] l IH]; cbn; [done|]. by destruct (String.eqb k k'). Qed.

Lemma members_keys tbl : (members tbl).*1 `sublist_of` tbl.*1.
Proof. induction tbl as [|[k [v|]] tbl IH]; cbn; [done|by apply sublist_skip|by apply sublist_cons]. Qed.
Lemma members_NoDup tbl : NoDup tbl.*1 → NoDup (members tbl).*1.
Proof. intros H. exact (sublist_NoDup _ _ H (members_keys _)). Qed.
Lemma member_members k tbl :
  NoDup tbl.*1 → member k (members tbl) = default JNull (mjoin (assoc k tbl)).
Proof.
  unfold member. intros Hnd. f_equal. induction tbl as [|[k' o] tbl IH]; cbn; [done|].
  apply NoDup_cons in Hnd as [Hk Hnd]. destruct o as [v|]; cbn; destruct (String.eqb_spec k k') as [->|]; try by auto.
  apply assoc_None. intros Hin. apply Hk. eapply elem_of_sublist; [done|apply members_keys].
Qed.

(** A struct conforms if its fields do. *)
Definition field_conforms (properties : list (string * schema)) (f : field) : bool :=
  match f.2 with
  | None => true
  | Some v => match assoc f.1 properties with Some p => conforms p v | None => false end
  end.
Lemma conforms_struct extensions p properties tbl :
  NoDup tbl.*1 →
  conforms (structure extensions (p :: properties)) (encode_struct tbl) = forallb (field_conforms (p :: properties)) tbl.
Proof.
  intros Hnd. unfold structure, encode_struct. set (ps := p :: properties). cbn -[ps assoc List.map].
  rewrite bool_decide_eq_true_2 by by apply members_NoDup. cbn [andb].
  change (("object" =? "object")%string || false) with true. cbn [andb]. clear Hnd.
  induction tbl as [|[k [v|]] tbl IH]; [done| |exact IH]. cbn [members omap list_omap mbind option_bind].
  cbn [forallb]. f_equal; [|exact IH].
  rewrite assoc_map. unfold field_conforms. cbn [fst snd]. by destruct (assoc k ps) as [q|].
Qed.
(** What a value that conforms to a structure holds. *)
Lemma conforms_structure extensions p properties v :
  conforms (structure extensions (p :: properties)) v = true →
  ∃ fields, v = JObj fields ∧
    ∀ k q, assoc k (p :: properties) = Some q → member k fields = JNull ∨ conforms q (member k fields) = true.
Proof.
  unfold structure. set (ps := p :: properties). cbn -[ps assoc List.map]. rewrite andb_true_iff. intros [Ht Hv].
  destruct v as [| | | | |fields]; try discriminate. exists fields. split; [done|]. intros k q Hq.
  rewrite andb_true_iff, bool_decide_eq_true, forallb_forall in Hv. destruct Hv as [Hnd Hall].
  unfold member. destruct (assoc k fields) as [x|] eqn:Hx; [|by left]. right. cbn.
  apply assoc_elem, list_elem_of_In, Hall in Hx. by rewrite assoc_map, Hq in Hx.
Qed.

(** ** Leaves *)

Lemma conforms_omitempty_str ps tag s :
  assoc tag ps = Some stringSchema → field_conforms ps (omitempty_str tag s) = true.
Proof. unfold omitempty_str, field_conforms. cbn. intros ->. by destruct (String.eqb s ""). Qed.
Lemma conforms_str ps tag s : assoc tag ps = Some stringSchema → field_conforms ps (str_field tag s) = true.
Proof. unfold str_field, field_conforms. cbn. by intros ->. Qed.
Lemma conforms_bool ps tag b : assoc tag ps = Some boolSchema → field_conforms ps (bool_field tag b) = true.
Proof. unfold bool_field, field_conforms. cbn. by intros ->. Qed.
Lemma conforms_omitempty_bool ps tag b :
  assoc tag ps = Some boolSchema → field_conforms ps (omitempty_bool tag b) = true.
Proof. unfold omitempty_bool, field_conforms. cbn. intros ->. by destruct b. Qed.
Lemma conforms_omitempty_string_ptr ps tag p :
  assoc tag ps = Some stringSchema → field_conforms ps (omitempty_ptr tag JStr p) = true.
Proof. unfold omitempty_ptr, field_conforms. cbn. intros ->. by destruct p. Qed.
Lemma conforms_int64 ps tag p :
  assoc tag ps = Some int64Schema → Forall int64 (option_list p) → field_conforms ps (omitempty_ptr tag JInt p) = true.
Proof.
  unfold omitempty_ptr, field_conforms. cbn. intros -> Hp. destruct p as [z|]; cbn; [|done].
  apply Forall_cons in Hp as [Hp _]. rewrite bool_decide_eq_true_2 by exact Hp. reflexivity.
Qed.
Lemma conforms_time ps tag p :
  assoc tag ps = Some dateTimeSchema → Forall printable (option_list p) →
  field_conforms ps (omitempty_ptr tag encode_time p) = forallb (λ t, negb (time_IsZero t)) (option_list p).
Proof.
  unfold omitempty_ptr, field_conforms. cbn. intros -> Hp. destruct p as [t|]; cbn; [|done].
  apply Forall_cons in Hp as [Hp _]. unfold encode_time. destruct (time_IsZero t); [done|]. cbn.
  rewrite parse_time_format by done. rewrite bool_decide_eq_true_2 by by eexists. reflexivity.
Qed.
Lemma conforms_struct_field ps tag v q :
  assoc tag ps = Some q → field_conforms ps (struct_field tag v) = conforms q v.
Proof. unfold struct_field, field_conforms. cbn. by intros ->. Qed.
Lemma conforms_files ps tag m :
  assoc tag ps = Some filesSchema → field_conforms ps (omitempty_map tag m) = true.
Proof.
  unfold omitempty_map, field_conforms. cbn [fst snd]. intros ->. destruct m as [m|]; [|done]. cbn.
  case_bool_decide; [done|]. cbn. rewrite <-list_fmap_compose. unfold compose. cbn. rewrite list_fmap_id.
  rewrite bool_decide_eq_true_2.
  - change (("object" =? "object")%string || false) with true. cbn [andb]. apply forallb_forall. intros [k v] [k' [[= -> ->] _]]%list_elem_of_In%list_elem_of_fmap. done.
  - unfold sort_strings. rewrite merge_sort_Permutation. apply NoDup_fst_map_to_list.
Qed.
Lemma conforms_meta `{MetaCodec} m : conforms objectMetaSchema (JObj (meta_members m)) = true.
Proof.
  cbn. rewrite bool_decide_eq_true_2 by apply meta_NoDup. cbn. by apply forallb_forall; intros [].
Qed.

(** ** Objects conform to the schemas *)

(** The distinct tags of a struct, and the fields of its schema. *)
Ltac distinct_tags := apply (bool_decide_unpack _); vm_compute; exact I.
Ltac conforming_fields :=
  repeat first
    [ rewrite conforms_omitempty_str by reflexivity | rewrite conforms_str by reflexivity
    | rewrite conforms_bool by reflexivity | rewrite conforms_omitempty_bool by reflexivity
    | rewrite conforms_omitempty_string_ptr by reflexivity | rewrite conforms_files by reflexivity
    | rewrite conforms_int64 by (reflexivity || assumption) | rewrite conforms_time by (reflexivity || assumption)
    | erewrite conforms_struct_field by reflexivity ].

Section conformance.
Context `{MetaCodec}.
Definition nonzero (l : list time) : bool := forallb (λ t, negb (time_IsZero t)) l.

Lemma conforms_workspace w :
  Forall printable (workspace_times w) → Forall int64 (workspace_ttls w) →
  conforms workspaceSchema (encode_workspace w) = nonzero (workspace_times w).
Proof.
  intros [H1 H2]%Forall_app H3. unfold workspaceSchema, encode_workspace. rewrite conforms_struct by distinct_tags.
  cbn [forallb app type_fields]. conforming_fields.
  rewrite conforms_meta. unfold encode_workspace_spec, encode_workspace_status.
  rewrite !conforms_struct by distinct_tags. cbn [forallb]. conforming_fields. cbn [andb].
  unfold nonzero, workspace_times. by rewrite forallb_app, !andb_true_r.
Qed.
Lemma conforms_template t :
  Forall printable (template_times t) → conforms templateSchema (encode_template t) = nonzero (template_times t).
Proof.
  intros [H1 H2]%Forall_app. unfold templateSchema, encode_template. rewrite conforms_struct by distinct_tags.
  cbn [forallb app type_fields]. conforming_fields.
  rewrite conforms_meta. unfold encode_template_spec, encode_template_status.
  rewrite !conforms_struct by distinct_tags. cbn [forallb]. conforming_fields. cbn [andb].
  unfold nonzero, template_times. by rewrite forallb_app, !andb_true_r.
Qed.


Lemma conforms_list {A} extensions (q : schema) (encode : A → k8s_value) t items :
  conforms (structure extensions [("apiVersion", stringSchema); ("kind", stringSchema); ("metadata", listMetaSchema); ("items", array_of q)])
    (encode_list encode t items) = forallb (λ x, conforms q (encode x)) items.
Proof.
  unfold encode_list. rewrite conforms_struct by distinct_tags. cbn [forallb app type_fields]. conforming_fields.
  change (conforms listMetaSchema (JObj [])) with true. cbn [andb]. unfold field_conforms. cbn [fst snd].
  change (assoc "items" _) with (Some (array_of q)). cbn. rewrite andb_true_r.
  change (("array" =? "array")%string || false) with true. cbn [andb].
  induction items as [|x items IH]; cbn; [done|]. by rewrite IH.
Qed.
Lemma nonzero_bind {A} (f : A → list time) l : nonzero (l ≫= f) = forallb (λ x, nonzero (f x)) l.
Proof. unfold nonzero. induction l as [|x l IH]; cbn; [done|]. by rewrite forallb_app, IH. Qed.
Lemma Forall_bind_elem {A B} (P : B → Prop) (f : A → list B) l x : Forall P (l ≫= f) → x ∈ l → Forall P (f x).
Proof. rewrite !Forall_forall. intros Hf Hx y Hy. apply Hf, list_elem_of_bind. by exists x. Qed.
Lemma forallb_ext_elem {A} (f g : A → bool) l : (∀ x, x ∈ l → f x = g x) → forallb f l = forallb g l.
Proof.
  induction l as [|x l IH]; cbn; intros Hfg; [done|]. rewrite (Hfg x) by by left. f_equal. apply IH. intros y Hy. apply Hfg. by right.
Qed.

(** The schema of an object, and the kind it is published for. *)
Definition schema_of (ty : string) : option schema :=
  assoc ty [("CoderWorkspace", workspaceSchema); ("CoderWorkspaceList", workspaceListSchema);
            ("CoderTemplate", templateSchema); ("CoderTemplateList", templateListSchema)].
Definition published_kind (s : schema) : option k8s_value :=
  let '(Schema _ _ _ _ _ extensions) := s in assoc "x-kubernetes-group-version-kind" extensions.

Lemma conforms_object o j :
  Forall printable (times_of o) → Forall int64 (ttls_of o) → encode_object o = Some j →
  ∃ ty s, go_type o = Some ty ∧ schema_of ty = Some s ∧ conforms s j = nonzero (times_of o).
Proof.
  intros Ht Hz Hj.
  destruct o as [[w|]|[t|]|ty l|ty l| |]; try discriminate; injection Hj as <-; eexists _, _; (split; [reflexivity|]; split; [reflexivity|]).
  - by apply conforms_workspace.
  - by apply conforms_template.
  - unfold workspaceListSchema. rewrite conforms_list. cbn [times_of ttls_of] in *. rewrite nonzero_bind.
    apply forallb_ext_elem. intros w Hw. by apply conforms_workspace; [apply (Forall_bind_elem _ _ _ _ Ht)|apply (Forall_bind_elem _ _ _ _ Hz)].
  - unfold templateListSchema. rewrite conforms_list. cbn [times_of] in *. rewrite nonzero_bind.
    apply forallb_ext_elem. intros t Ht'. by apply conforms_template, (Forall_bind_elem _ _ _ _ Ht).
Qed.

(** ** What conforms is read *)

Lemma read_str f k : member k f = JNull ∨ conforms stringSchema (member k f) = true → is_Some (as_str (member k f)).
Proof. intros [->|H1]; [by eexists|]. destruct (member k f); try discriminate; by eexists. Qed.
Lemma read_bool f k : member k f = JNull ∨ conforms boolSchema (member k f) = true → is_Some (as_bool (member k f)).
Proof. intros [->|H1]; [by eexists|]. destruct (member k f); try discriminate; by eexists. Qed.
Lemma read_str_ptr f k :
  member k f = JNull ∨ conforms stringSchema (member k f) = true → is_Some (as_ptr as_str (member k f)).
Proof. intros [->|H1]; [by eexists|]. destruct (member k f); try discriminate; by eexists. Qed.
Lemma read_int64 f k :
  member k f = JNull ∨ conforms int64Schema (member k f) = true → is_Some (as_ptr as_int64 (member k f)).
Proof.
  intros [->|H1]; [by eexists|]. destruct (member k f) as [| |z| | |]; try discriminate. cbn.
  destruct (decide _) as [Hz|Hz]; [by eexists|]. cbn in H1.
  change (("integer" =? "integer")%string && (negb ("int64" =? "int64")%string || bool_decide (- 2 ^ 63 ≤ z < 2 ^ 63)%Z) || false)
    with (bool_decide (- 2 ^ 63 ≤ z < 2 ^ 63)%Z || false) in H1.
  by rewrite bool_decide_eq_false_2 in H1.
Qed.
Lemma read_time_ptr f k :
  member k f = JNull ∨ conforms dateTimeSchema (member k f) = true → is_Some (as_ptr as_time (member k f)).
Proof.
  intros [->|H1]; [by eexists|]. destruct (member k f) as [| | |s| |]; try discriminate. cbn.
  destruct (parse_time s) eqn:Hs; [by eexists|]. cbn in H1. rewrite Hs in H1.
  rewrite bool_decide_eq_false_2 in H1 by by intros []. discriminate.
Qed.
Lemma read_string_map f k :
  member k f = JNull ∨ conforms filesSchema (member k f) = true → is_Some (as_string_map (member k f)).
Proof.
  intros [->|H1]; [by eexists|]. destruct (member k f) as [| | | | |fields]; try discriminate. cbn.
  cbn in H1. rewrite !andb_true_iff in H1. destruct H1 as (_ & _ & H1).
  assert (is_Some (mapM (λ '(k, v), s ← as_str v; Some (k, s)) fields)) as [pairs ->]; [|by eexists].
  apply mapM_is_Some. rewrite Forall_forall. intros [k' v] Hin. apply list_elem_of_In in Hin.
  rewrite forallb_forall in H1. specialize (H1 _ Hin). cbn in H1. destruct v; try discriminate; by eexists.
Qed.

Ltac read_fields Hall :=
  repeat match goal with
  | |- context [as_str (member ?k ?f)] => destruct (read_str f k (Hall k _ eq_refl)) as [? ->]
  | |- context [as_bool (member ?k ?f)] => destruct (read_bool f k (Hall k _ eq_refl)) as [? ->]
  | |- context [as_ptr as_str (member ?k ?f)] => destruct (read_str_ptr f k (Hall k _ eq_refl)) as [? ->]
  | |- context [as_ptr as_int64 (member ?k ?f)] => destruct (read_int64 f k (Hall k _ eq_refl)) as [? ->]
  | |- context [as_ptr as_time (member ?k ?f)] => destruct (read_time_ptr f k (Hall k _ eq_refl)) as [? ->]
  | |- context [as_string_map (member ?k ?f)] => destruct (read_string_map f k (Hall k _ eq_refl)) as [? ->]
  end; cbn [mbind option_bind].

Lemma read_struct {A} extensions p ps (decode : k8s_value → option A) v :
  (∀ fields, (∀ k q, assoc k (p :: ps) = Some q → member k fields = JNull ∨ conforms q (member k fields) = true) →
     is_Some (decode (JObj fields))) →
  is_Some (decode JNull) →
  v = JNull ∨ conforms (structure extensions (p :: ps)) v = true → is_Some (decode v).
Proof. intros Hobj Hnull [->|(fields & -> & Hall)%conforms_structure]; auto. Qed.

Lemma decode_conforming_workspace v :
  conforms workspaceSchema v = true → is_Some (f ← as_fields v; decode_meta (member "metadata" f)) → is_Some (decode_workspace v).
Proof.
  unfold workspaceSchema. intros (f & -> & Hall)%conforms_structure [m Hm]. cbn [as_fields mbind option_bind] in Hm.
  unfold decode_workspace, decode_type. cbn [as_fields mbind option_bind]. read_fields Hall. rewrite Hm. cbn [mbind option_bind].
  assert (is_Some (decode_workspace_spec (member "spec" f))) as [spec ->].
  { eapply read_struct; [|by eexists|exact (Hall "spec" _ eq_refl)]. intros g Hg. unfold decode_workspace_spec.
    cbn [as_fields mbind option_bind]. read_fields Hg. by eexists. }
  assert (is_Some (decode_workspace_status (member "status" f))) as [status ->]; [|by eexists].
  eapply read_struct; [|by eexists|exact (Hall "status" _ eq_refl)]. intros g Hg. unfold decode_workspace_status.
  cbn [as_fields mbind option_bind]. read_fields Hg. by eexists.
Qed.
Lemma decode_conforming_template v :
  conforms templateSchema v = true → is_Some (f ← as_fields v; decode_meta (member "metadata" f)) → is_Some (decode_template v).
Proof.
  unfold templateSchema. intros (f & -> & Hall)%conforms_structure [m Hm]. cbn [as_fields mbind option_bind] in Hm.
  unfold decode_template, decode_type. cbn [as_fields mbind option_bind]. read_fields Hall. rewrite Hm. cbn [mbind option_bind].
  assert (is_Some (decode_template_spec (member "spec" f))) as [spec ->].
  { eapply read_struct; [|by eexists|exact (Hall "spec" _ eq_refl)]. intros g Hg. unfold decode_template_spec.
    cbn [as_fields mbind option_bind]. read_fields Hg. by eexists. }
  assert (is_Some (decode_template_status (member "status" f))) as [status ->]; [|by eexists].
  eapply read_struct; [|by eexists|exact (Hall "status" _ eq_refl)]. intros g Hg. unfold decode_template_status.
  cbn [as_fields mbind option_bind]. read_fields Hg. by eexists.
Qed.

(** ** What is written is read back *)

Lemma member_row k tbl o : NoDup tbl.*1 → assoc k tbl = Some o → member k (members tbl) = default JNull o.
Proof. intros Hnd Ho. by rewrite member_members, Ho. Qed.
Lemma back_str s : as_str (default JNull (if String.eqb s "" then None else Some (JStr s))) = Some s.
Proof. by destruct (String.eqb_spec s "") as [->|]. Qed.
Lemma back_bool (b : bool) : as_bool (default JNull (if b then Some (JBool b) else None)) = Some b.
Proof. by destruct b. Qed.
Lemma back_str_ptr p : as_ptr as_str (default JNull (JStr <$> p)) = Some p.
Proof. by destruct p. Qed.
Lemma back_int64 p : Forall int64 (option_list p) → as_ptr as_int64 (default JNull (JInt <$> p)) = Some p.
Proof. destruct p as [z|]; [|done]. intros [Hz _]%Forall_cons. cbn. by rewrite decide_True. Qed.
Lemma back_time p : Forall printable (option_list p) → as_ptr as_time (default JNull (encode_time <$> p)) = Some (read_time p).
Proof.
  destruct p as [t|]; [|done]. intros [Ht _]%Forall_cons. cbn. unfold encode_time.
  destruct (time_IsZero t); [done|]. cbn. by rewrite parse_time_format.
Qed.
Lemma back_files files :
  as_string_map (default JNull (m ← files; if bool_decide (m = ∅) then None else Some (encode_string_map m))) = Some (read_files files).
Proof.
  destruct files as [m|]; [|done]. cbn. case_bool_decide as Hm; [done|]. cbn.
  set (keys := sort_strings (map_to_list m).*1).
  assert (keys ≡ₚ (map_to_list m).*1) as Hkeys by apply merge_sort_Permutation. clearbody keys.
  set (pair := λ k, (k, default "" (m !! k))).
  assert (mapM (λ '(k, v), s ← as_str v; Some (k, s)) ((λ k, (k, JStr (default "" (m !! k)))) <$> keys) = Some (pair <$> keys)) as ->.
  { apply mapM_Some. clear Hkeys. induction keys as [|k keys IH]; cbn; by constructor. }
  cbn. do 2 f_equal. rewrite (list_to_map_proper _ (map_to_list m)); [by rewrite list_to_map_to_list| |].
  - rewrite fmap_reverse, <-list_fmap_compose. unfold compose. cbn. rewrite list_fmap_id, reverse_Permutation, Hkeys.
    apply NoDup_fst_map_to_list.
  - rewrite reverse_Permutation, Hkeys, <-list_fmap_compose. rewrite <-(list_fmap_id (map_to_list m)) at 2.
    apply reflexive_eq, list_fmap_ext. intros i [k v] Hi. cbn. subst pair. cbn.
    apply list_elem_of_lookup_2, elem_of_map_to_list in Hi. by rewrite Hi.
Qed.

Ltac back_row := erewrite member_row by first [distinct_tags | reflexivity].
Ltac back_fields :=
  repeat first
    [ back_row | rewrite back_str | rewrite back_bool | rewrite back_str_ptr | rewrite back_files
    | rewrite back_int64 by assumption | rewrite back_time by assumption ].

Lemma workspace_back w :
  Forall printable (workspace_times w) → Forall int64 (workspace_ttls w) →
  decode_workspace (encode_workspace w) = Some (read_workspace w).
Proof.
  intros [H1 H2]%Forall_app H3. unfold decode_workspace, encode_workspace, encode_struct, decode_type.
  cbn [as_fields mbind option_bind]. back_fields. cbn [mbind option_bind default from_option id].
  unfold decode_meta. cbn [as_fields mbind option_bind]. rewrite meta_of_members. cbn [mbind option_bind].
  unfold decode_workspace_spec, encode_workspace_spec, encode_struct. cbn [as_fields mbind option_bind]. back_fields.
  cbn [mbind option_bind default from_option id as_bool].
  unfold decode_workspace_status, encode_workspace_status, encode_struct. cbn [as_fields mbind option_bind]. back_fields.
  cbn [mbind option_bind]. unfold read_workspace. by destruct w as [[] m [] []].
Qed.
Lemma template_back t :
  Forall printable (template_times t) → decode_template (encode_template t) = Some (read_template t).
Proof.
  intros [H1 H2]%Forall_app. unfold decode_template, encode_template, encode_struct, decode_type.
  cbn [as_fields mbind option_bind]. back_fields. cbn [mbind option_bind default from_option id].
  unfold decode_meta. cbn [as_fields mbind option_bind]. rewrite meta_of_members. cbn [mbind option_bind].
  unfold decode_template_spec, encode_template_spec, encode_struct. cbn [as_fields mbind option_bind]. back_fields.
  cbn [mbind option_bind default from_option id as_str].
  unfold decode_template_status, encode_template_status, encode_struct. cbn [as_fields mbind option_bind]. back_fields.
  cbn [mbind option_bind]. unfold read_template. by destruct t as [[] m [] []].
Qed.
End conformance.


(** C16: The published schemas describe the types: the JSON of an object of the group,
    with times of the years 0 to 9999 and int64 durations, conforms to the schema
    published for its Go type and its kind, every field of it being declared there
    with its type, unless a time is set to the zero time, which is written as null.
    Conversely every value that conforms is read, if its metadata is. *)
Theorem openapi_schemas_fit `{MetaCodec} (GetCanonicalTypeName : string → string) :
  NoDup (GetCanonicalTypeName <$> ["CoderWorkspace"; "CoderWorkspaceList"; "CoderTemplate"; "CoderTemplateList"]) →
  (∀ o j, Forall printable (times_of o) → Forall int64 (ttls_of o) → encode_object o = Some j →
     ∃ ty s, go_type o = Some ty ∧
       assoc (GetCanonicalTypeName ty) (getOpenAPIDefinitions GetCanonicalTypeName) = Some s ∧
       published_kind s = Some (JList [JObj [("group", JStr GroupName); ("version", JStr "v1alpha1"); ("kind", JStr ty)]]) ∧
       (conforms s j = true ↔ time_zero ∉ times_of o)) ∧
  (∀ v, is_Some (f ← as_fields v; decode_meta (member "metadata" f)) →
     (conforms workspaceSchema v = true → is_Some (decode_workspace v)) ∧
     (conforms templateSchema v = true → is_Some (decode_template v))).
Proof.
  intros Hnd. split.
  - intros o j Ht Hz Hj. destruct (conforms_object o j Ht Hz Hj) as (ty & s & Hty & Hs & Hc).
    exists ty, s. split; [done|]. split; [|split].
    + apply elem_assoc; [exact Hnd|]. unfold schema_of in Hs. apply assoc_elem in Hs. unfold getOpenAPIDefinitions.
      repeat (apply elem_of_cons in Hs as [[= -> ->]|Hs]; [by repeat first [left|right]|]). by apply not_elem_of_nil in Hs.
    + unfold schema_of in Hs. apply assoc_elem in Hs.
      repeat (apply elem_of_cons in Hs as [[= -> ->]|Hs]; [reflexivity|]). by apply not_elem_of_nil in Hs.
    + rewrite Hc. unfold nonzero, time_IsZero. rewrite forallb_forall. split.
      * intros Hall Hin%list_elem_of_In. specialize (Hall _ Hin). by rewrite Z.eqb_refl in Hall.
      * intros Hno t Hin. apply list_elem_of_In in Hin. apply negb_true_iff, Z.eqb_neq. by intros ->.
  - intros v Hm. split; intros Hv; [by apply decode_conforming_workspace|by apply decode_conforming_template].
Qed.

(** C38: What is written is read back: the JSON of a workspace or template, read by the
    same types, is the object itself, but for its times, which are kept to the second
    (and not at all if they are zero), a file map without files, which is not kept,
    and the metadata, which reads back as its own JSON does. *)
Theorem json_form_reads_back `{MetaCodec} :
  (∀ w, Forall printable (workspace_times w) → Forall int64 (workspace_ttls w) →
     decode_workspace (encode_workspace w) = Some (read_workspace w)) ∧
  (∀ t, Forall printable (template_times t) → decode_template (encode_template t) = Some (read_template t)).
Proof. split; [apply workspace_back|apply template_back]. Qed.

(** The workspace that [WorkspaceToK8s] makes of one of the backend is published in
    the form of its schema exactly if it was ever used: the time of the last use is
    set even if it is zero. *)
Theorem unused_workspace_breaks_schema `{MetaCodec} namespace w o :
  Convert.Convert.WorkspaceToK8s namespace w = Ret o → Forall printable (workspace_times o) → Forall int64 (workspace_ttls o) →
  conforms workspaceSchema (encode_workspace o) = true ↔ w_LastUsedAt w ≠ time_zero.
Proof.
  intros Ho Ht Hz. rewrite (conforms_workspace o Ht Hz). unfold Convert.Convert.WorkspaceToK8s in Ho.
  apply outcome_bind_Ret in Ho as ([] & _ & (name & _ & [= <-])%outcome_bind_Ret).
  unfold workspace_times, nonzero. cbn [ws_Status wst_AutoShutdown wst_LastUsedAt]. rewrite forallb_app, andb_true_iff. cbn.
  rewrite andb_true_r, negb_true_iff.
  change (time_IsZero (w_LastUsedAt w) = false) with ((w_LastUsedAt w =? time_zero)%Z = false). rewrite Z.eqb_neq. split; [by intros []|intros Hu; split; [|done]].
  destruct (b_DeadlineValid _); [|done]. cbn. by destruct (time_IsZero _) eqn:Hd; cbn; rewrite ?Hd.
Qed.

(** ** Concrete objects *)

(** A codec of the name and namespace. *)
#[local] Instance named_codec : MetaCodec.
Proof.
  refine {| meta_members m := [("name", JStr (Name m)); ("namespace", JStr (Namespace m))];
            meta_of f := name ← as_str (member "name" f); ns ← as_str (member "namespace" f);
              Some (set_meta_name name {| Name := ""; Namespace := ns; UID := ""; ResourceVersion := ""; Generation := 0;
                CreationTimestamp := time_zero; DeletionTimestamp := None; Labels := ∅; Annotations := ∅;
                OwnerReferences := []; Finalizers := [] |});
            meta_read m := set_meta_name (Name m) {| Name := ""; Namespace := Namespace m; UID := ""; ResourceVersion := "";
              Generation := 0; CreationTimestamp := time_zero; DeletionTimestamp := None; Labels := ∅; Annotations := ∅;
              OwnerReferences := []; Finalizers := [] |} |}.
  - intros m. distinct_tags.
  - done.
Defined.
Definition published_workspace : CoderWorkspace := {|
  ws_type := {| Kind := "CoderWorkspace"; APIVersion := SchemeGroupVersion |};
  ws_meta := set_meta_name "acme.ann.dev" empty_meta;
  ws_Spec := {| wss_Organization := "acme"; wss_TemplateName := "go"; wss_TemplateVersionID := ""; wss_Running := true;
                wss_TTLMillis := Some 3600000%Z; wss_AutostartSchedule := None |};
  ws_Status := {| wst_ID := "1"; wst_OwnerName := "ann"; wst_OrganizationName := "acme"; wst_TemplateName := "go";
                  wst_LatestBuildID := "2"; wst_LatestBuildStatus := "running"; wst_AutoShutdown := None;
                  wst_LastUsedAt := Some (1709210096 * 10 ^ 9 + 5)%Z |} |}.
Definition published_template : CoderTemplate := {|
  tpl_type := {| Kind := "CoderTemplate"; APIVersion := SchemeGroupVersion |};
  tpl_meta := set_meta_name "acme.go" empty_meta;
  tpl_Spec := {| ts_Organization := "acme"; ts_VersionID := "3"; ts_DisplayName := ""; ts_Description := ""; ts_Icon := "";
                 ts_Files := Some {["main.tf" := "a"; "b/c.tf" := ""]}; ts_Running := false |};
  tpl_Status := {| tst_ID := "1"; tst_OrganizationName := "acme"; tst_ActiveVersionID := "3"; tst_Deprecated := false;
                   tst_UpdatedAt := Some time_zero; tst_AutoShutdown := None |} |}.

Theorem openapi_schemas_fit_witness :
  (conforms workspaceSchema (encode_workspace published_workspace) = true ∧
   is_Some (decode_workspace (encode_workspace published_workspace))) ∧
  conforms templateSchema (encode_template published_template) ≠ true.
Proof.
  destruct (openapi_schemas_fit (λ s, "v1alpha1." +:+ s) ltac:(distinct_tags)) as [Hfit Hread]. split; [split|].
  - destruct (Hfit (OWorkspace (Some published_workspace)) _ ltac:(repeat constructor; vm_compute; congruence)
      ltac:(repeat constructor; vm_compute; congruence) eq_refl) as (ty & s & [= <-] & [= <-] & _ & Hc).
    apply Hc. apply (bool_decide_unpack _). vm_compute. exact I.
  - apply Hread; vm_compute; [by eexists|reflexivity].
  - destruct (Hfit (OTemplate (Some published_template)) _ ltac:(repeat constructor; vm_compute; congruence)
      ltac:(repeat constructor) eq_refl) as (ty & s & [= <-] & [= <-] & _ & Hc).
    intros H. apply Hc in H. apply H. left.
Defined.
Theorem json_form_reads_back_witness :
  decode_workspace (encode_workspace published_workspace) = Some (read_workspace published_workspace) ∧
  ts_Files <$> (tpl_Spec <$> decode_template (encode_template published_template)) = Some (ts_Files (tpl_Spec published_template)).
Proof.
  destruct json_form_reads_back as [Hw Ht]. split.
  - apply Hw; repeat constructor; vm_compute; congruence.
  - rewrite Ht by (repeat constructor; vm_compute; congruence). vm_compute. reflexivity.
Defined.

End OpenApi.
