(* ===== verification/McpTools.v ===== *)
(** * McpTools: the tools of the MCP server

    internal/app/mcpapp/tools.go: the handlers that [registerTools] registers, one
    function per tool.  The Kubernetes client and the clientset are one parameter
    [env], which answers every [mcpcall] with an arbitrary reply in an arbitrary
    world; a run records its calls.  The MCP library decodes a tool's input and
    encodes its output. *)

From S2P Require Import Prelude GoStd GoStdFacts StringFacts GoErrors ApiTypes AggTypes KubeObjects TemplateFiles Times Calls.

#[local] Open Scope string_scope.
#[local] Open Scope list_scope.

Module McpTools.
Import TemplateFiles Times Calls.

Definition defaultPodLogTailLines : Z := 2000.
Definition maxPodLogBytes : Z := Z.shiftl 1 20.
Definition podLogTruncatedSuffix := String "010" "(truncated)".
Definition defaultEventListLimit : Z := 200.
Definition maxEventListLimit : Z := 1000.
Definition defaultControlPlanePodListLimit : Z := 100.
Definition maxControlPlanePodListLimit : Z := 500.
(** server.go *)
Definition serverImplementationVersion := "dev".

(** ** Inputs and outputs *)

(** An object by namespace and name: the input of most tools. *)
Record object_input := { in_Namespace : string; in_Name : string }.

Record controlPlaneSummary := {
  cps_Name : string; cps_Namespace : string; cps_Phase : string; cps_ReadyReplicas : Z; cps_URL : string
}.
Record controlPlaneConditionSummary := {
  ccs_Type : string; ccs_Status : string; ccs_Reason : string; ccs_Message : string;
  ccs_ObservedGeneration : Z; ccs_LastTransitionTime : string
}.
Record getControlPlaneStatusOutput := {
  gcs_ObservedGeneration : Z; gcs_ReadyReplicas : Z; gcs_URL : string; gcs_Phase : string;
  gcs_Conditions : list controlPlaneConditionSummary
}.
Record listControlPlanePodsInput := { lpi_Namespace : string; lpi_Name : string; lpi_Limit : Z }.
Record controlPlanePodSummary := {
  pods_Name : string; pods_Namespace : string; pods_Phase : string; pods_NodeName : string;
  pods_ReadyContainers : Z; pods_TotalContainers : Z; pods_StartTime : string
}.
Record listControlPlanePodsOutput := { lpo_Items : list controlPlanePodSummary; lpo_Truncated : bool }.
Record deploymentConditionSummary := {
  dcs_Type : string; dcs_Status : string; dcs_Reason : string; dcs_Message : string;
  dcs_LastUpdateTime : string; dcs_LastTransitionTime : string
}.
Record getControlPlaneDeploymentStatusOutput := {
  gds_Name : string; gds_Namespace : string; gds_Replicas : Z; gds_ReadyReplicas : Z; gds_UpdatedReplicas : Z;
  gds_AvailableReplicas : Z; gds_UnavailableReplicas : Z; gds_ObservedGeneration : Z;
  gds_Conditions : list deploymentConditionSummary
}.
Record servicePortSummary := {
  sps_Name : string; sps_Port : Z; sps_TargetPort : string; sps_NodePort : Z; sps_Protocol : string
}.
Record getServiceStatusOutput := {
  gss_Name : string; gss_Namespace : string; gss_Type : string; gss_ClusterIP : string;
  gss_Ports : list servicePortSummary; gss_Annotations : gmap string string
}.
(** [workspaceSummary] and [templateSummary] *)
Record runnableSummary := {
  rs_Name : string; rs_Namespace : string; rs_Running : bool; rs_AutoShutdown : string
}.
Record setRunningInput := { sri_Namespace : string; sri_Name : string; sri_Running : bool }.
Record setRunningOutput := { sro_Summary : runnableSummary; sro_Updated : bool }.
Record getEventsInput := {
  gei_Namespace : string; gei_Name : string; gei_Kind : string; gei_Limit : Z; gei_Continue : string
}.
Record eventSummary := {
  es_Type : string; es_Reason : string; es_Message : string; es_Count : Z; es_LastTimestamp : string
}.
Record getEventsOutput := { geo_Items : list eventSummary; geo_Continue : string }.
Record getPodLogsInput := {
  gpl_Namespace : string; gpl_Name : string; gpl_TailLines : option Z; gpl_LimitBytes : option Z;
  gpl_Container : string
}.
Record checkHealthOutput := { cho_Status : string; cho_Version : string }.

(** ** The objects that only these tools read *)

(** [core/v1.Pod]: containers by name, whether the reported ones are ready. *)
Record Pod := {
  pod_meta : ObjectMeta; pod_ContainerNames : list string; pod_NodeName : string;
  pod_Phase : string; pod_StartTime : option time; pod_ContainerStatuses : list bool
}.
Record DeploymentCondition := {
  dc_Type : string; dc_Status : string; dc_Reason : string; dc_Message : string;
  dc_LastUpdateTime : time; dc_LastTransitionTime : time
}.
(** [apps/v1.Deployment] with its status. *)
Record DeploymentView := {
  dv_meta : ObjectMeta; dv_Replicas : option Z; dv_ReadyReplicas : Z; dv_UpdatedReplicas : Z;
  dv_AvailableReplicas : Z; dv_UnavailableReplicas : Z; dv_ObservedGeneration : Z;
  dv_Conditions : list DeploymentCondition
}.
(** [intstr.IntOrString] and its text. *)
Inductive IntOrString := IntVal (z : Z) | StrVal (s : string).
Definition IntOrString_String (v : IntOrString) : string :=
  match v with IntVal z => format_int z | StrVal s => s end.
Record ServicePortView := {
  spv_Name : string; spv_Port : Z; spv_TargetPort : IntOrString; spv_NodePort : Z; spv_Protocol : string
}.
Record ServiceView := {
  sv_meta : ObjectMeta; sv_Type : string; sv_ClusterIP : string; sv_Ports : list ServicePortView
}.
(** [core/v1.Event] *)
Record Event := {
  event_Type : string; event_Reason : string; event_Message : string; event_Count : Z;
  event_EventTime : time; event_LastTimestamp : time; event_FirstTimestamp : time
}.
Record EventList := { el_Items : list Event; el_Continue : string }.

(** [metav1.ListOptions] and [PodLogOptions], as they are set. *)
Record event_options := { eo_Limit : Z; eo_Continue : string; eo_FieldSelector : string }.
Record log_options := { lo_Container : string; lo_TailLines : Z }.
(** What a log stream yields before it ends or fails. *)
Record log_stream := { ls_Content : string; ls_Failure : option goerror }.

(** ** Calls *)

Inductive mcpcall :=
  | CListControlPlanes (namespace : option string)
  | CGetControlPlane (key : object_key)
  | CListPods (namespace : string) (labels : gmap string string)
  | CGetDeployment (key : object_key)
  | CGetService (key : object_key)
  | CListWorkspaces (namespace : option string)
  | CGetWorkspace (key : object_key)
  | CUpdateWorkspace (w : CoderWorkspace)
  | CListTemplates (namespace : option string)
  | CGetTemplate (key : object_key)
  | CUpdateTemplate (t : CoderTemplate)
  | CListEvents (namespace : string) (options : event_options)
  | CStreamLogs (namespace name : string) (options : log_options)
  | CCloseLogs
  | CListNamespaces (limit : Z).

(** An update call leaves the server's answer in the object. *)
Definition mcpreply (c : mcpcall) : Type :=
  match c with
  | CListControlPlanes _ => list CoderControlPlane
  | CGetControlPlane _ => CoderControlPlane
  | CListPods _ _ => list Pod
  | CGetDeployment _ => DeploymentView
  | CGetService _ => ServiceView
  | CListWorkspaces _ => list CoderWorkspace
  | CGetWorkspace _ | CUpdateWorkspace _ => CoderWorkspace
  | CListTemplates _ => list CoderTemplate
  | CGetTemplate _ | CUpdateTemplate _ => CoderTemplate
  | CListEvents _ _ => EventList
  | CStreamLogs _ _ _ => log_stream
  | CCloseLogs | CListNamespaces _ => ()
  end.

(** ** Pure parts *)

Definition controlPlaneWorkloadLabels (name : string) : gmap string string :=
  {["app.kubernetes.io/name" := "coder-control-plane";
    "app.kubernetes.io/instance" := name;
    "app.kubernetes.io/managed-by" := "coder-k8s"]}.

Definition formatTime (value : time) : string := if time_IsZero value then "" else format_RFC3339 value.
Definition formatOptionalTime (value : option time) : string :=
  match value with Some value => if time_IsZero value then "" else format_RFC3339 value | None => "" end.

Definition eventTimestamp (event : Event) : string :=
  if negb (time_IsZero (event_EventTime event)) then format_RFC3339 (event_EventTime event)
  else if negb (time_IsZero (event_LastTimestamp event)) then format_RFC3339 (event_LastTimestamp event)
  else if negb (time_IsZero (event_FirstTimestamp event)) then format_RFC3339 (event_FirstTimestamp event)
  else "".

(** Both panic on nil; no caller passes nil. *)
Definition workspaceToSummary (workspace : CoderWorkspace) : runnableSummary := {|
  rs_Name := Name (ws_meta workspace); rs_Namespace := Namespace (ws_meta workspace);
  rs_Running := wss_Running (ws_Spec workspace);
  rs_AutoShutdown := formatOptionalTime (wst_AutoShutdown (ws_Status workspace)) |}.
Definition templateToSummary (template : CoderTemplate) : runnableSummary := {|
  rs_Name := Name (tpl_meta template); rs_Namespace := Namespace (tpl_meta template);
  rs_Running := ts_Running (AggTypes.tpl_Spec template);
  rs_AutoShutdown := formatOptionalTime (tst_AutoShutdown (tpl_Status template)) |}.

Definition desiredReplicas (replicas : option Z) : Z := match replicas with Some n => n | None => 0 end.

(** nil and empty are not told apart. *)
Definition summarizeMetav1Conditions (conditions : list Condition) : list controlPlaneConditionSummary :=
  (λ cond, {|
    ccs_Type := cond_Type cond; ccs_Status := cond_Status cond; ccs_Reason := cond_Reason cond;
    ccs_Message := cond_Message cond; ccs_ObservedGeneration := cond_ObservedGeneration cond;
    ccs_LastTransitionTime :=
      if negb (time_IsZero (cond_LastTransitionTime cond)) then format_RFC3339Nano (cond_LastTransitionTime cond) else ""
  |}) <$> conditions.

Definition sanitizeControlPlanePodListLimit (limit : Z) : Z :=
  if (limit <=? 0)%Z then defaultControlPlanePodListLimit
  else if (maxControlPlanePodListLimit <? limit)%Z then maxControlPlanePodListLimit
  else limit.

Definition MaxInt32 : Z := 2 ^ 31 - 1.
Definition safeInt32Count (value : Z) : result Z :=
  _ ← fail_if (value <? 0)%Z (Errorf "assertion failed: count must not be negative" []);
  _ ← fail_if (MaxInt32 <? value)%Z
        (Errorf "assertion failed: count %d exceeds int32 max %d" [FInt value; FInt MaxInt32]);
  mret value.

(** [fields.Set.String] *)
Definition Set_String (set : gmap string string) : string :=
  join "," (sort_strings ((λ kv, kv.1 +:+ "=" +:+ kv.2) <$> map_to_list set)).

Definition cloneStringMap (source : gmap string string) : gmap string string :=
  map_fold (λ key value cloned, <[key := value]> cloned) ∅ source.

Definition wrap32 (z : Z) : Z := ((z + 2 ^ 31) mod 2 ^ 32 - 2 ^ 31)%Z.
(** The loop over the container statuses. *)
Definition readyContainers (statuses : list bool) : Z :=
  foldl (λ n ready, if ready : bool then wrap32 (n + 1) else n) 0%Z statuses.

(** The order of the pods: by name, then by namespace.  [sort.Slice] may leave equal
    elements in any order; [merge_sort] is one of its results, and the only one where
    names, or types of conditions, are not repeated. *)
Definition pod_le (p q : Pod) : Prop :=
  if decide (Name (pod_meta p) = Name (pod_meta q)) then String.le (Namespace (pod_meta p)) (Namespace (pod_meta q))
  else String.le (Name (pod_meta p)) (Name (pod_meta q)).
#[global] Instance pod_le_dec p q : Decision (pod_le p q).
Proof. unfold pod_le. destruct (decide _); apply _. Defined.
Definition condition_le (c d : deploymentConditionSummary) : Prop := String.le (dcs_Type c) (dcs_Type d).
#[global] Instance condition_le_dec c d : Decision (condition_le c d).
Proof. unfold condition_le. apply _. Defined.

Definition podSummary (pod : Pod) : result controlPlanePodSummary :=
  totalContainers ← safeInt32Count (Z.of_nat (length (pod_ContainerNames pod)));
  totalContainers ← (if (totalContainers =? 0)%Z then safeInt32Count (Z.of_nat (length (pod_ContainerStatuses pod)))
                     else mret totalContainers);
  mret {|
    pods_Name := Name (pod_meta pod); pods_Namespace := Namespace (pod_meta pod); pods_Phase := pod_Phase pod;
    pods_NodeName := pod_NodeName pod; pods_ReadyContainers := readyContainers (pod_ContainerStatuses pod);
    pods_TotalContainers := totalContainers; pods_StartTime := formatOptionalTime (pod_StartTime pod) |}.
(** The loop over the sorted pods, from index [i]. *)
Fixpoint summarizePods (limit i : Z) (pods : list Pod) : result (list controlPlanePodSummary * bool) :=
  match pods with
  | [] => mret ([], false)
  | pod :: pods =>
      if (limit <=? i)%Z then mret ([], true)
      else
        summary ← podSummary pod;
        '(rest, truncated) ← summarizePods limit (i + 1)%Z pods;
        mret (summary :: rest, truncated)
  end.

(** ** The tools *)

Section tools.
Context {W : Type} (env : ∀ c : mcpcall, M W goerror (mcpreply c)).

Definition tool : Type → Type := calling W mcpcall.
Definition mcp (c : mcpcall) : tool (mcpreply c) := issue (reply := mcpreply) env c.

Definition require (value message : string) : tool () := guard_err (String.eqb value "") (Errorf message []).
Definition requireKey (namespace name : string) : tool () :=
  _ ← require namespace "namespace is required";
  require name "name is required".
Definition keyed (format namespace name : string) (err : goerror) : goerror :=
  Errorf format [FStr namespace; FStr name; FErrW err].
(** [if input.Namespace != "" { client.InNamespace(...) }] *)
Definition inNamespace (namespace : string) : option string :=
  if negb (String.eqb namespace "") then Some namespace else None.

Definition list_control_planes (namespace : string) : tool (list controlPlaneSummary) :=
  controlPlaneList ← map_err (λ err, Errorf "list CoderControlPlane resources: %w" [FErrW err])
    (mcp (CListControlPlanes (inNamespace namespace)));
  mret ((λ controlPlane : CoderControlPlane, {|
    cps_Name := Name (cp_meta controlPlane); cps_Namespace := Namespace (cp_meta controlPlane);
    cps_Phase := Phase (cp_Status controlPlane); cps_ReadyReplicas := ReadyReplicas (cp_Status controlPlane);
    cps_URL := URL (cp_Status controlPlane) |}) <$> controlPlaneList).

Definition get_control_plane_status (input : object_input) : tool getControlPlaneStatusOutput :=
  let '(namespace, name) := (in_Namespace input, in_Name input) in
  _ ← requireKey namespace name;
  controlPlane ← map_err (keyed "get CoderControlPlane %s/%s: %w" namespace name)
    (mcp (CGetControlPlane (namespace, name)));
  let status := cp_Status (controlPlane : CoderControlPlane) in
  mret {| gcs_ObservedGeneration := ObservedGeneration status; gcs_ReadyReplicas := ReadyReplicas status;
          gcs_URL := URL status; gcs_Phase := Phase status;
          gcs_Conditions := summarizeMetav1Conditions (Conditions status) |}.

(** The functions below are only called with a client. *)
Definition listControlPlanePods (input : listControlPlanePodsInput) : tool listControlPlanePodsOutput :=
  let '(namespace, name) := (lpi_Namespace input, lpi_Name input) in
  _ ← requireKey namespace name;
  let labels := controlPlaneWorkloadLabels name in
  _ ← guard_err (bool_decide (labels = ∅)) (Errorf "assertion failed: control plane workload labels must not be empty" []);
  podList ← map_err (keyed "list control plane pods for %s/%s: %w" namespace name) (mcp (CListPods namespace labels));
  let sorted := merge_sort pod_le podList in
  let limit := sanitizeControlPlanePodListLimit (lpi_Limit input) in
  _ ← guard_err (limit <=? 0)%Z (Errorf "assertion failed: pod list limit must be positive" []);
  '(items, truncated) ← lift (summarizePods limit 0 sorted);
  mret {| lpo_Items := items; lpo_Truncated := truncated |}.

Definition getControlPlaneDeploymentStatus (input : object_input) : tool getControlPlaneDeploymentStatusOutput :=
  let '(namespace, name) := (in_Namespace input, in_Name input) in
  _ ← requireKey namespace name;
  deployment ← map_err (keyed "get deployment %s/%s: %w" namespace name) (mcp (CGetDeployment (namespace, name)));
  let deployment : DeploymentView := deployment in
  let conditions := (λ condition, {|
    dcs_Type := dc_Type condition; dcs_Status := dc_Status condition; dcs_Reason := dc_Reason condition;
    dcs_Message := dc_Message condition; dcs_LastUpdateTime := formatTime (dc_LastUpdateTime condition);
    dcs_LastTransitionTime := formatTime (dc_LastTransitionTime condition) |}) <$> dv_Conditions deployment in
  mret {| gds_Name := Name (dv_meta deployment); gds_Namespace := Namespace (dv_meta deployment);
          gds_Replicas := desiredReplicas (dv_Replicas deployment); gds_ReadyReplicas := dv_ReadyReplicas deployment;
          gds_UpdatedReplicas := dv_UpdatedReplicas deployment; gds_AvailableReplicas := dv_AvailableReplicas deployment;
          gds_UnavailableReplicas := dv_UnavailableReplicas deployment;
          gds_ObservedGeneration := dv_ObservedGeneration deployment; gds_Conditions := merge_sort condition_le conditions |}.

Definition getServiceStatus (input : object_input) : tool getServiceStatusOutput :=
  let '(namespace, name) := (in_Namespace input, in_Name input) in
  _ ← requireKey namespace name;
  service ← map_err (keyed "get service %s/%s: %w" namespace name) (mcp (CGetService (namespace, name)));
  let service : ServiceView := service in
  let ports := (λ port, {|
    sps_Name := spv_Name port; sps_Port := spv_Port port; sps_TargetPort := IntOrString_String (spv_TargetPort port);
    sps_NodePort := spv_NodePort port; sps_Protocol := spv_Protocol port |}) <$> sv_Ports service in
  mret {| gss_Name := Name (sv_meta service); gss_Namespace := Namespace (sv_meta service); gss_Type := sv_Type service;
          gss_ClusterIP := sv_ClusterIP service; gss_Ports := ports;
          gss_Annotations := cloneStringMap (Annotations (sv_meta service)) |}.

Definition list_workspaces (namespace : string) : tool (list runnableSummary) :=
  workspaceList ← map_err (λ err, Errorf "list CoderWorkspace resources: %w" [FErrW err])
    (mcp (CListWorkspaces (inNamespace namespace)));
  mret (workspaceToSummary <$> (workspaceList : list CoderWorkspace)).

(** What get and set_running share: the object, checked to be the one asked for. *)
Definition mismatch (format : string) (meta : ObjectMeta) (namespace name : string) : goerror :=
  Errorf format [FStr (Namespace meta); FStr (Name meta); FStr namespace; FStr name].
Definition is_requested (meta : ObjectMeta) (namespace name : string) : bool :=
  String.eqb (Namespace meta) namespace && String.eqb (Name meta) name.

Definition fetchWorkspace (namespace name : string) : tool CoderWorkspace :=
  _ ← requireKey namespace name;
  workspace ← map_err (keyed "get CoderWorkspace %s/%s: %w" namespace name) (mcp (CGetWorkspace (namespace, name)));
  let workspace : CoderWorkspace := workspace in
  _ ← guard_err (negb (is_requested (ws_meta workspace) namespace name))
        (mismatch "assertion failed: fetched workspace %s/%s does not match request %s/%s" (ws_meta workspace) namespace name);
  mret workspace.
Definition getWorkspaceDetail (input : object_input) : tool runnableSummary :=
  workspace ← fetchWorkspace (in_Namespace input) (in_Name input);
  mret (workspaceToSummary workspace).

Definition set_workspace_running (running : bool) (w : CoderWorkspace) : CoderWorkspace :=
  let spec := ws_Spec w in
  {| ws_type := ws_type w; ws_meta := ws_meta w;
     ws_Spec := {| wss_Organization := wss_Organization spec; wss_TemplateName := wss_TemplateName spec;
                   wss_TemplateVersionID := wss_TemplateVersionID spec; wss_Running := running;
                   wss_TTLMillis := wss_TTLMillis spec; wss_AutostartSchedule := wss_AutostartSchedule spec |};
     ws_Status := ws_Status w |}.
Definition setWorkspaceRunning (input : setRunningInput) : tool setRunningOutput :=
  let '(namespace, name) := (sri_Namespace input, sri_Name input) in
  workspace ← fetchWorkspace namespace name;
  let updated := negb (Bool.eqb (wss_Running (ws_Spec workspace)) (sri_Running input)) in
  let workspace := set_workspace_running (sri_Running input) workspace in
  workspace ← (if updated then map_err (keyed "update CoderWorkspace %s/%s: %w" namespace name) (mcp (CUpdateWorkspace workspace))
               else mret workspace) : tool CoderWorkspace;
  mret {| sro_Summary := workspaceToSummary workspace; sro_Updated := updated |}.

Definition list_templates (namespace : string) : tool (list runnableSummary) :=
  templateList ← map_err (λ err, Errorf "list CoderTemplate resources: %w" [FErrW err])
    (mcp (CListTemplates (inNamespace namespace)));
  mret (templateToSummary <$> (templateList : list CoderTemplate)).

Definition fetchTemplate (namespace name : string) : tool CoderTemplate :=
  _ ← requireKey namespace name;
  template ← map_err (keyed "get CoderTemplate %s/%s: %w" namespace name) (mcp (CGetTemplate (namespace, name)));
  let template : CoderTemplate := template in
  _ ← guard_err (negb (is_requested (tpl_meta template) namespace name))
        (mismatch "assertion failed: fetched template %s/%s does not match request %s/%s" (tpl_meta template) namespace name);
  mret template.
Definition getTemplateDetail (input : object_input) : tool runnableSummary :=
  template ← fetchTemplate (in_Namespace input) (in_Name input);
  mret (templateToSummary template).

Definition set_template_running (running : bool) (t : CoderTemplate) : CoderTemplate :=
  let spec := AggTypes.tpl_Spec t in
  {| tpl_type := tpl_type t; tpl_meta := tpl_meta t;
     AggTypes.tpl_Spec := {| ts_Organization := ts_Organization spec; ts_VersionID := ts_VersionID spec;
        ts_DisplayName := ts_DisplayName spec; ts_Description := ts_Description spec; ts_Icon := ts_Icon spec;
        ts_Files := ts_Files spec; ts_Running := running |};
     tpl_Status := tpl_Status t |}.
Definition setTemplateRunning (input : setRunningInput) : tool setRunningOutput :=
  let '(namespace, name) := (sri_Namespace input, sri_Name input) in
  template ← fetchTemplate namespace name;
  let updated := negb (Bool.eqb (ts_Running (AggTypes.tpl_Spec template)) (sri_Running input)) in
  let template := set_template_running (sri_Running input) template in
  template ← (if updated then map_err (keyed "update CoderTemplate %s/%s: %w" namespace name) (mcp (CUpdateTemplate template))
              else mret template) : tool CoderTemplate;
  mret {| sro_Summary := templateToSummary template; sro_Updated := updated |}.

Definition event_limit (limit : Z) : Z :=
  let limit := if (limit <=? 0)%Z then defaultEventListLimit else limit in
  if (maxEventListLimit <? limit)%Z then maxEventListLimit else limit.
Definition event_selector (name kind : string) : gmap string string :=
  let selector := if negb (String.eqb name "") then {["involvedObject.name" := name]} else ∅ in
  if negb (String.eqb kind "") then <["involvedObject.kind" := kind]> selector else selector.
Definition get_events (input : getEventsInput) : tool getEventsOutput :=
  _ ← require (gei_Namespace input) "namespace is required";
  let selector := event_selector (gei_Name input) (gei_Kind input) in
  let listOptions := {|
    eo_Limit := event_limit (gei_Limit input); eo_Continue := gei_Continue input;
    eo_FieldSelector := if (0 <? Z.of_nat (size selector))%Z then Set_String selector else "" |} in
  eventList ← map_err (λ err, Errorf "list events in namespace %q: %w" [FStr (gei_Namespace input); FErrW err])
    (mcp (CListEvents (gei_Namespace input) listOptions));
  let eventList : EventList := eventList in
  mret {| geo_Items := (λ event, {|
            es_Type := event_Type event; es_Reason := event_Reason event; es_Message := event_Message event;
            es_Count := event_Count event; es_LastTimestamp := eventTimestamp event |}) <$> el_Items eventList;
          geo_Continue := el_Continue eventList |}.

(** The bytes asked for. *)
Definition log_limit (limitBytes : option Z) : Z :=
  match limitBytes with
  | Some n => if (0 <? n)%Z && (n <? maxPodLogBytes)%Z then n else maxPodLogBytes
  | None => maxPodLogBytes
  end.
Definition get_pod_logs (input : getPodLogsInput) : tool string :=
  let '(namespace, name) := (gpl_Namespace input, gpl_Name input) in
  _ ← requireKey namespace name;
  let tailLines := match gpl_TailLines input with Some n => n | None => defaultPodLogTailLines end in
  let limitBytes := log_limit (gpl_LimitBytes input) in
  stream ← map_err (keyed "stream logs for pod %s/%s: %w" namespace name)
    (mcp (CStreamLogs namespace name {| lo_Container := gpl_Container input; lo_TailLines := tailLines |}));
  let stream : log_stream := stream in
  finally (mcp CCloseLogs)
    (logs ← map_err (keyed "read logs for pod %s/%s: %w" namespace name)
       (lift (read_limited (limitBytes + 1) (ls_Content stream) (ls_Failure stream)));
     let truncated := (limitBytes <? slen logs)%Z in
     let logs := if truncated then stake (Z.to_nat limitBytes) logs else logs in
     mret (if truncated then logs +:+ podLogTruncatedSuffix else logs)).

Definition check_health : tool checkHealthOutput :=
  _ ← map_err (λ err, Errorf "list namespaces for connectivity check: %w" [FErrW err]) (mcp (CListNamespaces 1));
  mret {| cho_Status := "ok"; cho_Version := serverImplementationVersion |}.

(** [registerTools]: the tools by name. *)
Inductive tool_request :=
  | ListControlPlanes (namespace : string)
  | GetControlPlaneStatus (input : object_input)
  | ListControlPlanePods (input : listControlPlanePodsInput)
  | GetControlPlaneDeploymentStatus (input : object_input)
  | GetServiceStatus (input : object_input)
  | ListWorkspaces (namespace : string)
  | GetWorkspace (input : object_input)
  | SetWorkspaceRunning (input : setRunningInput)
  | ListTemplates (namespace : string)
  | GetTemplate (input : object_input)
  | SetTemplateRunning (input : setRunningInput)
  | GetEvents (input : getEventsInput)
  | GetPodLogs (input : getPodLogsInput)
  | CheckHealth.
Definition tool_output (r : tool_request) : Type :=
  match r with
  | ListControlPlanes _ => list controlPlaneSummary
  | GetControlPlaneStatus _ => getControlPlaneStatusOutput
  | ListControlPlanePods _ => listControlPlanePodsOutput
  | GetControlPlaneDeploymentStatus _ => getControlPlaneDeploymentStatusOutput
  | GetServiceStatus _ => getServiceStatusOutput
  | ListWorkspaces _ | ListTemplates _ => list runnableSummary
  | GetWorkspace _ | GetTemplate _ => runnableSummary
  | SetWorkspaceRunning _ | SetTemplateRunning _ => setRunningOutput
  | GetEvents _ => getEventsOutput
  | GetPodLogs _ => string
  | CheckHealth => checkHealthOutput
  end.
Definition call_tool (r : tool_request) : tool (tool_output r) :=
  match r with
  | ListControlPlanes namespace => list_control_planes namespace
  | GetControlPlaneStatus input => get_control_plane_status input
  | ListControlPlanePods input => listControlPlanePods input
  | GetControlPlaneDeploymentStatus input => getControlPlaneDeploymentStatus input
  | GetServiceStatus input => getServiceStatus input
  | ListWorkspaces namespace => list_workspaces namespace
  | GetWorkspace input => getWorkspaceDetail input
  | SetWorkspaceRunning input => setWorkspaceRunning input
  | ListTemplates namespace => list_templates namespace
  | GetTemplate input => getTemplateDetail input
  | SetTemplateRunning input => setTemplateRunning input
  | GetEvents input => get_events input
  | GetPodLogs input => get_pod_logs input
  | CheckHealth => check_health
  end.
End tools.

(** * Properties *)

(** The read a tool starts with. *)
Definition event_list_options (input : getEventsInput) : event_options :=
  let selector := event_selector (gei_Name input) (gei_Kind input) in
  {| eo_Limit := event_limit (gei_Limit input); eo_Continue := gei_Continue input;
     eo_FieldSelector := if (0 <? Z.of_nat (size selector))%Z then Set_String selector else "" |}.
Definition tool_read (r : tool_request) : mcpcall :=
  match r with
  | ListControlPlanes namespace => CListControlPlanes (inNamespace namespace)
  | GetControlPlaneStatus i => CGetControlPlane (in_Namespace i, in_Name i)
  | ListControlPlanePods i => CListPods (lpi_Namespace i) (controlPlaneWorkloadLabels (lpi_Name i))
  | GetControlPlaneDeploymentStatus i => CGetDeployment (in_Namespace i, in_Name i)
  | GetServiceStatus i => CGetService (in_Namespace i, in_Name i)
  | ListWorkspaces namespace => CListWorkspaces (inNamespace namespace)
  | GetWorkspace i => CGetWorkspace (in_Namespace i, in_Name i)
  | SetWorkspaceRunning i => CGetWorkspace (sri_Namespace i, sri_Name i)
  | ListTemplates namespace => CListTemplates (inNamespace namespace)
  | GetTemplate i => CGetTemplate (in_Namespace i, in_Name i)
  | SetTemplateRunning i => CGetTemplate (sri_Namespace i, sri_Name i)
  | GetEvents i => CListEvents (gei_Namespace i) (event_list_options i)
  | GetPodLogs i => CStreamLogs (gpl_Namespace i) (gpl_Name i)
      {| lo_Container := gpl_Container i;
         lo_TailLines := match gpl_TailLines i with Some n => n | None => defaultPodLogTailLines end |}
  | CheckHealth => CListNamespaces 1
  end.
(** The inputs that are required are there. *)
Definition complete (r : tool_request) : Prop :=
  match r with
  | ListControlPlanes _ | ListWorkspaces _ | ListTemplates _ | CheckHealth => True
  | GetControlPlaneStatus i | GetControlPlaneDeploymentStatus i | GetServiceStatus i | GetWorkspace i | GetTemplate i =>
      in_Namespace i ≠ "" ∧ in_Name i ≠ ""
  | ListControlPlanePods i => lpi_Namespace i ≠ "" ∧ lpi_Name i ≠ ""
  | SetWorkspaceRunning i | SetTemplateRunning i => sri_Namespace i ≠ "" ∧ sri_Name i ≠ ""
  | GetEvents i => gei_Namespace i ≠ ""
  | GetPodLogs i => gpl_Namespace i ≠ "" ∧ gpl_Name i ≠ ""
  end.

Section properties.
Context {W : Type} (env : ∀ c : mcpcall, M W goerror (mcpreply c)).
Implicit Types (l : list mcpcall).

(** What a run of a set_running tool does: it reads the object, and writes it only
    to change [spec.running], as it read it otherwise. *)
Definition workspace_set (i : setRunningInput) l (o : result setRunningOutput) : Prop :=
  let key := (sri_Namespace i, sri_Name i) in
  match o with
  | Ret out => ∃ w, answered env (CGetWorkspace key) w ∧ key_of (ws_meta w) = key ∧
      if Bool.eqb (wss_Running (ws_Spec w)) (sri_Running i)
      then l = [CGetWorkspace key] ∧ out = {| sro_Summary := workspaceToSummary w; sro_Updated := false |}
      else ∃ w', answered env (CUpdateWorkspace (set_workspace_running (sri_Running i) w)) w' ∧
        l = [CGetWorkspace key; CUpdateWorkspace (set_workspace_running (sri_Running i) w)] ∧
        out = {| sro_Summary := workspaceToSummary w'; sro_Updated := true |}
  | _ => l = [CGetWorkspace key] ∨ ∃ w, answered env (CGetWorkspace key) w ∧ key_of (ws_meta w) = key ∧
      wss_Running (ws_Spec w) ≠ sri_Running i ∧
      l = [CGetWorkspace key; CUpdateWorkspace (set_workspace_running (sri_Running i) w)]
  end.
Definition template_set (i : setRunningInput) l (o : result setRunningOutput) : Prop :=
  let key := (sri_Namespace i, sri_Name i) in
  match o with
  | Ret out => ∃ t, answered env (CGetTemplate key) t ∧ key_of (tpl_meta t) = key ∧
      if Bool.eqb (ts_Running (AggTypes.tpl_Spec t)) (sri_Running i)
      then l = [CGetTemplate key] ∧ out = {| sro_Summary := templateToSummary t; sro_Updated := false |}
      else ∃ t', answered env (CUpdateTemplate (set_template_running (sri_Running i) t)) t' ∧
        l = [CGetTemplate key; CUpdateTemplate (set_template_running (sri_Running i) t)] ∧
        out = {| sro_Summary := templateToSummary t'; sro_Updated := true |}
  | _ => l = [CGetTemplate key] ∨ ∃ t, answered env (CGetTemplate key) t ∧ key_of (tpl_meta t) = key ∧
      ts_Running (AggTypes.tpl_Spec t) ≠ sri_Running i ∧
      l = [CGetTemplate key; CUpdateTemplate (set_template_running (sri_Running i) t)]
  end.

Definition tool_run (r : tool_request) l : result (tool_output r) → Prop :=
  match r with
  | SetWorkspaceRunning i => workspace_set i l
  | SetTemplateRunning i => template_set i l
  | GetPodLogs i => λ o, match o with
      | Ret _ => l = [tool_read (GetPodLogs i); CCloseLogs]
      | _ => l = [tool_read (GetPodLogs i)] ∨ l = [tool_read (GetPodLogs i); CCloseLogs]
      end
  | r => λ _, l = [tool_read r]
  end.

Lemma calls_once_mcp c : calls_once env c (mcp env c).
Proof. apply calls_once_issue. Qed.
Lemma tool_call_wrapped c wrap : calls_once env c (map_err wrap (mcp env c)).
Proof. apply calls_once_map_err, calls_once_issue. Qed.
#[local] Hint Resolve calls_once_mcp tool_call_wrapped : core.

(** The checks of the inputs. *)
Lemma runs_require {A} v m (f : () → tool (W:=W) A) (R : list mcpcall → result A → Prop) :
  (v = "" → R [] (Err (Errorf m []))) → (v ≠ "" → runs (f tt) R) → runs (require v m ≫= f) R.
Proof. intros He Hf. apply runs_guard_bind; [intros ->%String.eqb_eq|intros ?%String.eqb_neq]; auto. Qed.
Lemma runs_requireKey {A} ns n (f : () → tool (W:=W) A) (R : list mcpcall → result A → Prop) :
  (∀ e, ¬ (ns ≠ "" ∧ n ≠ "") → R [] (Err e)) → (ns ≠ "" ∧ n ≠ "" → runs (f tt) R) → runs (requireKey ns n ≫= f) R.
Proof.
  intros He Hf. unfold requireKey.
  apply (runs_bind _ _ (λ l o, l = [] ∧ match o with Ret _ => ns ≠ "" ∧ n ≠ "" | Err _ => ¬ (ns ≠ "" ∧ n ≠ "") | Panic _ => False end)).
  - apply runs_require; [intros ->; split; [done|by intros []]|intros Hns].
    apply runs_lift. split; [done|]. destruct (String.eqb_spec n "") as [->|]; cbn; [by intros []|done].
  - intros l [] [-> H]. auto.
  - intros l e [-> H]. auto.
  - by intros l e [_ H].
Qed.

(** A tool that does one wrapped read and then computes. *)
Lemma runs_read {A} c wrap (f : mcpreply c → tool (W:=W) A) R :
  (∀ r s, ∃ o, f r s = (o, s) ∧ (answered env c r → R [c] o)) → (∀ e, R [c] (Err e)) → (∀ e, R [c] (Panic e)) →
  runs (map_err wrap (mcp env c) ≫= f) R.
Proof.
  intros Hf He Hp. apply (runs_call_bind env c); [auto| |done..]. intros r Hr.
  apply runs_pure. intros s. destruct (Hf r s) as (o & Ho & HR). exists o. auto.
Qed.

Definition checked (r : tool_request) (P : list mcpcall → result (tool_output r) → Prop) l (o : result (tool_output r)) : Prop :=
  (¬ complete r ∧ l = [] ∧ ∃ e, o = Err e) ∨ (complete r ∧ P l o).

Lemma is_requested_key m ns n : is_requested m ns n = true → key_of m = (ns, n).
Proof. unfold is_requested, key_of. intros [->%String.eqb_eq ->%String.eqb_eq]%andb_true_iff. done. Qed.
Lemma runs_fetchWorkspace ns n :
  runs (fetchWorkspace env ns n) (λ l o,
    (¬ (ns ≠ "" ∧ n ≠ "") ∧ l = [] ∧ ∃ e, o = Err e) ∨
    (ns ≠ "" ∧ n ≠ "") ∧ l = [CGetWorkspace (ns, n)] ∧
      ∀ w, o = Ret w → answered env (CGetWorkspace (ns, n)) w ∧ key_of (ws_meta w) = (ns, n)).
Proof.
  unfold fetchWorkspace. apply runs_requireKey; [by left; eauto|]. intros Hk.
  apply (runs_read (CGetWorkspace (ns, n))); [|by right..]. intros w s. cbv zeta.
  unfold guard_err, mbind, M_bind, lift, fail_if. destruct (is_requested _ _ _) eqn:Hreq; cbn;
    (eexists; split; [done|]); intros Hans; right; (split; [done|]); (split; [done|]); [|done].
  intros ? [= <-]. split; [done|]. by apply is_requested_key.
Qed.
Lemma runs_fetchTemplate ns n :
  runs (fetchTemplate env ns n) (λ l o,
    (¬ (ns ≠ "" ∧ n ≠ "") ∧ l = [] ∧ ∃ e, o = Err e) ∨
    (ns ≠ "" ∧ n ≠ "") ∧ l = [CGetTemplate (ns, n)] ∧
      ∀ t, o = Ret t → answered env (CGetTemplate (ns, n)) t ∧ key_of (tpl_meta t) = (ns, n)).
Proof.
  unfold fetchTemplate. apply runs_requireKey; [by left; eauto|]. intros Hk.
  apply (runs_read (CGetTemplate (ns, n))); [|by right..]. intros t s. cbv zeta.
  unfold guard_err, mbind, M_bind, lift, fail_if. destruct (is_requested _ _ _) eqn:Hreq; cbn;
    (eexists; split; [done|]); intros Hans; right; (split; [done|]); (split; [done|]); [|done].
  intros ? [= <-]. split; [done|]. by apply is_requested_key.
Qed.

Lemma runs_setWorkspaceRunning i :
  runs (setWorkspaceRunning env i) (checked (SetWorkspaceRunning i) (workspace_set i)).
Proof.
  unfold setWorkspaceRunning, checked. cbn [complete tool_output].
  eapply runs_bind; [apply runs_fetchWorkspace|intros l w H|intros l e H|intros l e H];
    destruct H as [(Hk & -> & e' & He)|(Hk & -> & H)]; try discriminate He;
    [|left; split; [exact Hk|split; [done|by eexists]]|right; split; [exact Hk|by left]..].
  destruct (H w eq_refl) as [Hans Hkey]. cbv zeta.
  destruct (Bool.eqb (wss_Running (ws_Spec w)) (sri_Running i)) eqn:Hsame; cbn [negb].
  - apply runs_pure. intros s. eexists. split; [done|]. right. split; [done|]. exists w. rewrite Hsame.
    split_and!; [done..|]. cbn. by rewrite <-(eqb_prop _ _ Hsame).
  - apply eqb_false_iff in Hsame as Hne.
    apply (runs_read (CUpdateWorkspace _)); [|by intros e; right; (split; [done|]); right; exists w..].
    intros w' s. eexists. split; [done|]. intros Hans'. right. split; [done|]. exists w. rewrite Hsame.
    split; [done|]. split; [done|]. by exists w'.
Qed.
Lemma runs_setTemplateRunning i :
  runs (setTemplateRunning env i) (checked (SetTemplateRunning i) (template_set i)).
Proof.
  unfold setTemplateRunning, checked. cbn [complete tool_output].
  eapply runs_bind; [apply runs_fetchTemplate|intros l t H|intros l e H|intros l e H];
    destruct H as [(Hk & -> & e' & He)|(Hk & -> & H)]; try discriminate He;
    [|left; split; [exact Hk|split; [done|by eexists]]|right; split; [exact Hk|by left]..].
  destruct (H t eq_refl) as [Hans Hkey]. cbv zeta.
  destruct (Bool.eqb (ts_Running (AggTypes.tpl_Spec t)) (sri_Running i)) eqn:Hsame; cbn [negb].
  - apply runs_pure. intros s. eexists. split; [done|]. right. split; [done|]. exists t. rewrite Hsame.
    split_and!; [done..|]. cbn. by rewrite <-(eqb_prop _ _ Hsame).
  - apply eqb_false_iff in Hsame as Hne.
    apply (runs_read (CUpdateTemplate _)); [|by intros e; right; (split; [done|]); right; exists t..].
    intros t' s. eexists. split; [done|]. intros Hans'. right. split; [done|]. exists t. rewrite Hsame.
    split; [done|]. split; [done|]. by exists t'.
Qed.

(** ** Pods *)

Definition ready_count (statuses : list bool) : Z := Z.of_nat (length (List.filter id statuses)).
Lemma readyContainers_count statuses :
  (Z.of_nat (length statuses) ≤ MaxInt32)%Z → readyContainers statuses = ready_count statuses.
Proof.
  unfold readyContainers, ready_count.
  enough (∀ n, (0 ≤ n)%Z → (n + Z.of_nat (length statuses) ≤ MaxInt32)%Z →
    foldl (λ n ready, if ready : bool then wrap32 (n + 1) else n) n statuses
      = (n + Z.of_nat (length (List.filter id statuses)))%Z) as H by (intros Hl; rewrite H; lia).
  unfold MaxInt32. induction statuses as [|[] statuses IH]; intros n Hn Hl; cbn [foldl List.filter id length] in *; [lia| |].
  - assert (wrap32 (n + 1) = n + 1)%Z as -> by (unfold wrap32; rewrite Z.mod_small; lia). rewrite IH; lia.
  - rewrite IH; lia.
Qed.

(** What a summary says of its pod. *)
Definition summarizes (pod : Pod) (s : controlPlanePodSummary) : Prop :=
  (pods_Namespace s, pods_Name s) = key_of (pod_meta pod) ∧ pods_Phase s = pod_Phase pod ∧
  pods_NodeName s = pod_NodeName pod ∧ pods_StartTime s = formatOptionalTime (pod_StartTime pod) ∧
  pods_TotalContainers s = Z.of_nat (if decide (pod_ContainerNames pod = []) then length (pod_ContainerStatuses pod)
                                     else length (pod_ContainerNames pod)) ∧
  (pods_TotalContainers s ≤ MaxInt32)%Z ∧
  ((Z.of_nat (length (pod_ContainerStatuses pod)) ≤ MaxInt32)%Z →
     pods_ReadyContainers s = ready_count (pod_ContainerStatuses pod)).

Lemma safeInt32Count_Ret n m : safeInt32Count n = Ret m → m = n ∧ (0 ≤ n ≤ MaxInt32)%Z.
Proof.
  unfold safeInt32Count. intros (u & H1%fail_if_Ret & (u' & H2%fail_if_Ret & [= <-])%outcome_bind_Ret)%outcome_bind_Ret. lia.
Qed.
Lemma podSummary_Ret pod s : podSummary pod = Ret s → summarizes pod s.
Proof.
  unfold podSummary. intros (n & [-> Hn]%safeInt32Count_Ret & (m & Hm & [= <-])%outcome_bind_Ret)%outcome_bind_Ret.
  unfold summarizes. cbn. split_and!; try done.
  - destruct (pod_ContainerNames pod); cbn in *; [|by injection Hm as <-]. by apply safeInt32Count_Ret in Hm as [-> _].
  - destruct (Z.eqb_spec (Z.of_nat (length (pod_ContainerNames pod))) 0) as [_|_]; [apply safeInt32Count_Ret in Hm; lia|].
    injection Hm as <-. lia.
  - apply readyContainers_count.
Qed.
Lemma summarizePods_Ret limit i pods items truncated :
  (i ≤ limit)%Z → summarizePods limit i pods = Ret (items, truncated) →
  Forall2 summarizes (take (Z.to_nat (limit - i)) pods) items ∧ truncated = (limit - i <? Z.of_nat (length pods))%Z.
Proof.
  revert i items truncated. induction pods as [|pod pods IH]; intros i items truncated Hi; cbn [summarizePods].
  - intros [= <- <-]. rewrite take_nil. split; [constructor|]. symmetry. apply Z.ltb_ge. cbn. lia.
  - destruct (Z.leb_spec limit i) as [Hle|Hlt].
    + intros [= <- <-]. replace (limit - i)%Z with 0%Z by lia. split; [constructor|]. symmetry. apply Z.ltb_lt. cbn. lia.
    + intros (s & Hs%podSummary_Ret & ([rest tr] & Hrest & [= <- <-])%outcome_bind_Ret)%outcome_bind_Ret.
      apply IH in Hrest as [Hall ->]; [|lia].
      replace (Z.to_nat (limit - i)) with (S (Z.to_nat (limit - (i + 1)))) by lia. cbn [take].
      split; [by constructor|]. cbn [length]. apply eq_bool_prop_intro. rewrite !Is_true_true, !Z.ltb_lt. lia.
Qed.
#[local] Instance pod_le_total : Total pod_le.
Proof.
  intros p q. unfold pod_le. destruct (decide (Name (pod_meta p) = Name (pod_meta q))) as [He|Hne].
  - rewrite decide_True by done. apply (total String.le).
  - rewrite decide_False by congruence. apply (total String.le).
Qed.
Lemma sanitize_bounds n : (1 ≤ sanitizeControlPlanePodListLimit n ≤ 500)%Z.
Proof.
  unfold sanitizeControlPlanePodListLimit, defaultControlPlanePodListLimit, maxControlPlanePodListLimit.
  destruct (Z.leb_spec n 0), (Z.ltb_spec 500 n); lia.
Qed.

Lemma runs_listControlPlanePods i :
  runs (listControlPlanePods env i) (checked (ListControlPlanePods i) (λ l o,
    l = [tool_read (ListControlPlanePods i)] ∧ ∀ out, o = Ret out →
    ∃ pods, answered env (tool_read (ListControlPlanePods i)) pods ∧
      let n := sanitizeControlPlanePodListLimit (lpi_Limit i) in
      Forall2 summarizes (take (Z.to_nat n) (merge_sort pod_le pods)) (lpo_Items out) ∧
      lpo_Truncated out = (n <? Z.of_nat (length pods))%Z)).
Proof.
  unfold listControlPlanePods. apply runs_requireKey; [left; by eauto|]. intros Hk.
  apply runs_guard_bind; [|intros _].
  { intros H%bool_decide_eq_true. apply (f_equal (lookup "app.kubernetes.io/name")) in H. discriminate H. }
  apply (runs_read (tool_read (ListControlPlanePods i))); [|by right..].
  intros pods s. pose proof (sanitize_bounds (lpi_Limit i)) as Hn. cbv zeta.
  unfold guard_err, fail_if, mbind, M_bind, lift. rewrite (proj2 (Z.leb_gt _ 0)) by lia.
  destruct (summarizePods _ 0 _) as [[items tr]|e|e] eqn:Hs; (eexists; split; [done|]); intros Hans; right;
    (split; [done|]); (split; [done|]); [|done..].
  intros ? [= <-]. exists pods. split; [done|]. apply summarizePods_Ret in Hs as [Hall ->]; [|lia].
  rewrite Z.sub_0_r in *. split; [done|]. cbn. do 2 f_equal. apply Permutation_length, merge_sort_Permutation.
Qed.

(** ** Logs *)

Definition log_text (n : Z) (content text : string) : Prop :=
  if (slen content <=? n)%Z then text = content else text = stake (Z.to_nat n) content +:+ podLogTruncatedSuffix.

Lemma log_limit_bounds n : (1 ≤ log_limit n ≤ 2 ^ 20)%Z.
Proof.
  unfold log_limit. change maxPodLogBytes with (2 ^ 20)%Z. destruct n as [n|]; [|lia].
  destruct (Z.ltb_spec 0 n), (Z.ltb_spec n (2 ^ 20)); cbn [andb]; lia.
Qed.
Lemma read_log_text n content failure logs :
  (0 ≤ n)%Z → read_limited (n + 1) content failure = Ret logs →
  log_text n content (if (n <? slen logs)%Z then stake (Z.to_nat n) logs +:+ podLogTruncatedSuffix else logs) ∧
  ((slen content ≤ n)%Z → failure = None).
Proof.
  unfold read_limited, log_text. intros Hn. destruct (Z.leb_spec (n + 1) (slen content)) as [Hlong|Hshort].
  - intros [= <-]. rewrite slen_stake, (proj2 (Z.leb_gt _ _)), (proj2 (Z.ltb_lt _ _)) by lia. split; [|lia].
    f_equal. generalize (Z.to_nat n), (Z.to_nat (n + 1)), (Z2Nat.inj_le n (n + 1) Hn ltac:(lia)).
    clear. intros a b Hab. assert (a ≤ b)%nat as Hle by lia. clear Hab. revert b content Hle.
    induction a as [|a IH]; intros [|b] [|c s] Hle; try done; [lia..|]. cbn. f_equal. apply IH. lia.
  - destruct failure; [done|]. intros [= <-]. by rewrite (proj2 (Z.leb_le _ _)), (proj2 (Z.ltb_ge _ _)) by lia.
Qed.

Lemma runs_get_pod_logs i :
  runs (get_pod_logs env i) (checked (GetPodLogs i) (λ l o, tool_run (GetPodLogs i) l o ∧ ∀ text, o = Ret text →
    ∃ stream, answered env (tool_read (GetPodLogs i)) stream ∧ let n := log_limit (gpl_LimitBytes i) in
      log_text n (ls_Content stream) text ∧ ((slen (ls_Content stream) ≤ n)%Z → ls_Failure stream = None))).
Proof.
  unfold get_pod_logs. apply runs_requireKey; [left; by eauto|]. intros Hk. cbv zeta.
  apply (runs_call_bind env (tool_read (GetPodLogs i))); [auto| |by right; split; [|split; [left|]]..]. intros stream Hans.
  apply (runs_finally _ _ (λ l o, l = [] ∧ ∀ text, o = Ret text → let n := log_limit (gpl_LimitBytes i) in
    log_text n (ls_Content stream) text ∧ ((slen (ls_Content stream) ≤ n)%Z → ls_Failure stream = None)) (λ l _, l = [CCloseLogs])).
  - apply runs_pure. intros s. unfold map_err, lift, mbind, M_bind.
    destruct (read_limited _ _ _) as [logs|e|e] eqn:Hread; (eexists; split; [done|]); (split; [done|]); [|done..].
    pose proof (log_limit_bounds (gpl_LimitBytes i)). apply read_log_text in Hread; [|lia].
    intros text [= <-]. by destruct (_ <? _)%Z.
  - eapply runs_mono; [apply (calls_once_mcp CCloseLogs)|]. by intros l o [-> _].
  - intros l l' o o' [-> Ho] ->. right. split; [done|].
    assert (tool_run (GetPodLogs i) [tool_read (GetPodLogs i); CCloseLogs] (match o' with Panic e => Panic e | _ => o end)) as Hrun
      by (destruct o' as [u|e|e], o as [v|e'|e']; cbn; auto).
    split; [done|]. intros text Ht. exists stream. split; [done|]. apply Ho. by destruct o'.
Qed.

(** ** The claims *)

(** A tool that is one read. *)
Lemma runs_one_read {A} c wrap (f : mcpreply c → tool (W:=W) A) (R : list mcpcall → result A → Prop) :
  (∀ o, R [c] o) → (∀ r s, ∃ o, f r s = (o, s)) → runs (map_err wrap (mcp env c) ≫= f) R.
Proof. intros HR Hf. apply (runs_read c); [|done..]. intros x s. destruct (Hf x s) as [o Ho]. eauto. Qed.
Lemma runs_keyed_read {A} ns n c wrap (f : mcpreply c → tool (W:=W) A) (R : list mcpcall → result A → Prop) :
  (∀ e, ¬ (ns ≠ "" ∧ n ≠ "") → R [] (Err e)) → (ns ≠ "" ∧ n ≠ "" → ∀ o, R [c] o) → (∀ r s, ∃ o, f r s = (o, s)) →
  runs (_ ← requireKey ns n; map_err wrap (mcp env c) ≫= f) R.
Proof. intros He HR Hf. apply runs_requireKey; [done|]. intros Hk. apply runs_one_read; auto. Qed.
Ltac one_read r :=
  first [refine (runs_one_read (tool_read r) _ _ _ _ _); [by right|by eexists]
        |refine (runs_keyed_read _ _ (tool_read r) _ _ _ _ _ _); [by left; eauto|by right|by eexists]].

Lemma runs_getWorkspaceDetail i : runs (getWorkspaceDetail env i) (checked (GetWorkspace i) (tool_run (GetWorkspace i))).
Proof.
  unfold getWorkspaceDetail.
  eapply runs_bind; [apply runs_fetchWorkspace|intros l w H|intros l e H|intros l e H];
    destruct H as [(Hk & -> & e' & He)|(Hk & -> & H)]; try discriminate He;
    [apply runs_ret; by right|left; split; [exact Hk|split; [done|by eexists]]|by right..].
Qed.
Lemma runs_getTemplateDetail i : runs (getTemplateDetail env i) (checked (GetTemplate i) (tool_run (GetTemplate i))).
Proof.
  unfold getTemplateDetail.
  eapply runs_bind; [apply runs_fetchTemplate|intros l t H|intros l e H|intros l e H];
    destruct H as [(Hk & -> & e' & He)|(Hk & -> & H)]; try discriminate He;
    [apply runs_ret; by right|left; split; [exact Hk|split; [done|by eexists]]|by right..].
Qed.
Lemma runs_get_events i : runs (get_events env i) (checked (GetEvents i) (tool_run (GetEvents i))).
Proof.
  unfold get_events. apply runs_require; [intros Hns; left; split; [by intros H|by eauto]|]. intros Hns.
  one_read (GetEvents i).
Qed.

(** C21: A tool that lacks a required input fails without a call.  Otherwise it does
    the one read of its input, on the named object or in the named namespace, and
    nothing else; only the two set_running tools write, at most once, and only the
    object that they have just read, whose key is the requested one, with
    [spec.running] changed to what was asked for and nothing else changed.  Their
    summary is that of the object the server answered with last, and [updated] is
    whether the write was made.  The log stream is closed if it was opened. *)
Theorem mcp_tools_contract r : runs (call_tool env r) (checked r (tool_run r)).
Proof.
  destruct r as [x|x|x|x|x|x|x|x|x|x|x|x|x|]; cbn [call_tool tool_run].
  - one_read (ListControlPlanes x).
  - one_read (GetControlPlaneStatus x).
  - eapply runs_mono; [apply runs_listControlPlanePods|]. intros l o [H|(Hk & -> & _)]; [by left|by right].
  - one_read (GetControlPlaneDeploymentStatus x).
  - one_read (GetServiceStatus x).
  - one_read (ListWorkspaces x).
  - apply runs_getWorkspaceDetail.
  - apply runs_setWorkspaceRunning.
  - one_read (ListTemplates x).
  - apply runs_getTemplateDetail.
  - apply runs_setTemplateRunning.
  - apply runs_get_events.
  - eapply runs_mono; [apply runs_get_pod_logs|]. intros l o [H|(Hk & H & _)]; [by left|by right].
  - one_read CheckHealth.
Qed.

(** The pods listed for a control plane are the first ones, at most 500, of the
    pods of its namespace with its labels in the order of their names, each with
    its own data; [truncated] says whether there are more. *)
Theorem control_plane_pods_listed i :
  runs (listControlPlanePods env i) (λ l o, ∀ out, o = Ret out →
    ∃ pods, answered env (CListPods (lpi_Namespace i) (controlPlaneWorkloadLabels (lpi_Name i))) pods ∧
      let n := sanitizeControlPlanePodListLimit (lpi_Limit i) in
      (1 ≤ n ≤ 500)%Z ∧ (1 ≤ lpi_Limit i ≤ 500 → n = lpi_Limit i)%Z ∧
      ∃ sorted, sorted ≡ₚ pods ∧ Sorted pod_le sorted ∧
        Forall2 summarizes (take (Z.to_nat n) sorted) (lpo_Items out) ∧
        lpo_Truncated out = (n <? Z.of_nat (length pods))%Z).
Proof.
  eapply runs_mono; [apply runs_listControlPlanePods|]. intros l o [(_ & _ & e & ->)|(_ & _ & H)]; [done|].
  intros out Ho. destruct (H out Ho) as (pods & Hans & Hitems & Htr). exists pods. split; [done|].
  split; [apply sanitize_bounds|]. split.
  - intros Hn. unfold sanitizeControlPlanePodListLimit, maxControlPlanePodListLimit.
    by rewrite (proj2 (Z.leb_gt _ _)), (proj2 (Z.ltb_ge _ _)) by lia.
  - exists (merge_sort pod_le pods). split; [apply merge_sort_Permutation|]. by split; [apply Sorted_merge_sort, _|].
Qed.

(** C24: The logs of a pod are what the stream yields, if it ends within the limit
    and without an error, and else its first bytes up to the limit, marked as
    truncated; the limit is the requested one if it is positive and below 1 MiB, and
    1 MiB otherwise, so the text never exceeds 1 MiB and the mark. *)
Theorem pod_logs_bounded i :
  runs (get_pod_logs env i) (λ l o, ∀ text, o = Ret text →
    ∃ stream, answered env (tool_read (GetPodLogs i)) stream ∧
      let n := log_limit (gpl_LimitBytes i) in
      (∀ m, gpl_LimitBytes i = Some m → (0 < m < 2 ^ 20)%Z → n = m) ∧ (slen text ≤ 2 ^ 20 + slen podLogTruncatedSuffix)%Z ∧
      (if (slen (ls_Content stream) <=? n)%Z then text = ls_Content stream ∧ ls_Failure stream = None
       else text = stake (Z.to_nat n) (ls_Content stream) +:+ podLogTruncatedSuffix)).
Proof.
  eapply runs_mono; [apply runs_get_pod_logs|]. intros l o [(_ & _ & e & ->)|(_ & _ & H)]; [done|].
  intros text Ho. destruct (H text Ho) as (stream & Hans & Htext & Hfail). exists stream. split; [done|]. cbv zeta.
  pose proof (log_limit_bounds (gpl_LimitBytes i)) as Hn. unfold log_text in Htext. split_and!.
  - intros m -> Hm. unfold log_limit. change maxPodLogBytes with (2 ^ 20)%Z.
    by rewrite (proj2 (Z.ltb_lt 0 m)), (proj2 (Z.ltb_lt m (2 ^ 20))) by lia.
  - change (slen podLogTruncatedSuffix) with 12%Z. destruct (Z.leb_spec (slen (ls_Content stream)) (log_limit (gpl_LimitBytes i))); subst text; [lia|].
    rewrite slen_append, slen_stake. change (slen podLogTruncatedSuffix) with 12%Z. lia.
  - destruct (Z.leb_spec (slen (ls_Content stream)) (log_limit (gpl_LimitBytes i))); auto.
Qed.
End properties.

(** A point in time is shown as a text that reads back as its second, in the
    years 0 to 9999; the zero time, and it only, is shown as the empty text.  An event
    is shown with the first of its times that is set. *)
Theorem timestamps_read_back (t : time) (event : Event) :
  (0 ≤ year (civil_of t) < 10000)%Z →
  (formatTime t = "" ↔ t = time_zero) ∧ (t ≠ time_zero → parse_RFC3339 (formatTime t) = t - t mod 10 ^ 9)%Z ∧
  formatOptionalTime (Some t) = formatTime t ∧
  eventTimestamp event = List.hd "" (formatTime <$> List.filter (λ t, negb (time_IsZero t))
    [event_EventTime event; event_LastTimestamp event; event_FirstTimestamp event]).
Proof.
  intros Hy. unfold formatOptionalTime, formatTime, time_IsZero. split_and!.
  - destruct (Z.eqb_spec t time_zero) as [->|Hne]; split; try done. by intros H%format_nonempty.
  - intros Hne. rewrite (proj2 (Z.eqb_neq _ _) Hne). by apply parse_format.
  - done.
  - unfold eventTimestamp, time_IsZero. cbn.
    destruct (Z.eqb_spec (event_EventTime event) time_zero) as [|H1], (Z.eqb_spec (event_LastTimestamp event) time_zero) as [|H2],
      (Z.eqb_spec (event_FirstTimestamp event) time_zero) as [|H3]; cbn; rewrite ?(proj2 (Z.eqb_neq _ _) H1), ?(proj2 (Z.eqb_neq _ _) H2), ?(proj2 (Z.eqb_neq _ _) H3); done.
Qed.
(** A leap day. *)
Definition leap_day_noon : time := (1709210096 * 10 ^ 9 + 123)%Z.
Definition undated : Event := {| event_Type := "Normal"; event_Reason := "Started"; event_Message := ""; event_Count := 1%Z;
  event_EventTime := time_zero; event_LastTimestamp := leap_day_noon; event_FirstTimestamp := time_zero |}.
Theorem timestamps_read_back_witness :
  formatTime leap_day_noon = "2024-02-29T12:34:56Z" ∧ eventTimestamp undated = "2024-02-29T12:34:56Z" ∧
  parse_RFC3339 (formatTime leap_day_noon) = (1709210096 * 10 ^ 9)%Z.
Proof.
  assert (Hy : (0 ≤ year (civil_of leap_day_noon) < 10000)%Z) by (vm_compute; split; congruence).
  destruct (timestamps_read_back leap_day_noon undated Hy) as (_ & H & _ & He).
  split; [vm_compute; reflexivity|]. split; [rewrite He; vm_compute; reflexivity|].
  rewrite H; [vm_compute; reflexivity | vm_compute; congruence].
Defined.

End McpTools.
