(* ===== verification/McpServing.v ===== *)
(** * McpServing: the MCP tools on the objects of the other components

    The workspaces and templates that the tools read and write are served by the
    aggregated API server, the pods they list are made by the operator's
    controllers: here the tools run against the handlers of [WorkspaceStorage] and
    [TemplateStorage], and their selection of pods against the deployments of the
    controllers. *)

From S2P Require Import Prelude GoStd GoErrors Uuid Names CoderErrors ApiTypes Providers AggTypes Sdk Convert Watch TemplateFiles Storage HandlerLogic BuildWait WorkspaceStorage TemplateStorage KubeObjects ControlPlaneNames Workload ProvisionerNames Provisioner ProvisionerReconcile WorkspaceProxy Examples Calls McpTools.

#[local] Open Scope string_scope.
#[local] Open Scope list_scope.

Module McpServing.
Import Names Providers Sdk Convert Storage HandlerLogic Calls McpTools.

(** ** The aggregated API server as the client sees it *)

Section serving.
Context {W : Type} {C : BuildWait.Clock W} {ZA : TemplateFiles.ZipArchive}.
Context (sdk : client → ∀ r : request, M W goerror (response r)).
Context (range : ∀ V : Type, gmap string V → list (string * V)).
Context (ReadBodyAsError : http_response → goerror).
Context (getenv : string → string) (ParseDuration : string → result Z).
(** The storages, the deadline the server puts on a request, and every other API. *)
Context (workspaces templates : storage W) (deadline : option time).
Context (other : ∀ c : mcpcall, M (Sdk.st W) goerror (mcpreply c)).

Definition unexpected : goerror := ErrorString "the server returned an object of another kind".
Definition as_workspace (o : object) : result CoderWorkspace :=
  match o with OWorkspace (Some w) => mret w | _ => Err unexpected end.
Definition as_template (o : object) : result CoderTemplate :=
  match o with OTemplate (Some t) => mret t | _ => Err unexpected end.

(** The context of a request, and the object of an update without admission. *)
Definition request_context (namespace : string) : option context :=
  Some {| ctx_namespace := namespace; ctx_deadline := deadline |}.
Definition replacing (o : object) : option (UpdatedObjectInfo W) := Some (λ _, mret (Some o)).

Definition updateWorkspace (w : CoderWorkspace) : handler (W:=W) CoderWorkspace :=
  '(o, _) ← WorkspaceStorage.Update sdk (Some workspaces) (request_context (Namespace (ws_meta w))) (Name (ws_meta w))
    (replacing (OWorkspace (Some w))) None None false;
  lift (as_workspace o).
Definition updateTemplate (t : CoderTemplate) : handler (W:=W) CoderTemplate :=
  '(o, _) ← TemplateStorage.Update sdk range ReadBodyAsError getenv ParseDuration (Some templates)
    (request_context (Namespace (tpl_meta t))) (Name (tpl_meta t)) (replacing (OTemplate (Some t))) None None false;
  lift (as_template o).

Definition served (c : mcpcall) : M (Sdk.st W) goerror (mcpreply c) :=
  match c with
  | CGetWorkspace key =>
      o ← WorkspaceStorage.Get sdk (Some workspaces) (request_context key.1) key.2; lift (as_workspace o)
  | CUpdateWorkspace w => updateWorkspace w
  | CGetTemplate key =>
      o ← TemplateStorage.Get sdk ReadBodyAsError (Some templates) (request_context key.1) key.2; lift (as_template o)
  | CUpdateTemplate t => updateTemplate t
  | c => other c
  end.
End serving.

(** * Properties *)

(** ** Runs of the tools that returned *)

Section runs.
Context {W : Type} (env : ∀ c : mcpcall, M W goerror (mcpreply c)).
Implicit Types (s : cst W mcpcall).

Lemma mcp_Ret c s r s' :
  mcp env c s = (Ret r, s') → env c (c_world s) = (Ret r, c_world s').
Proof. unfold mcp, issue. destruct (env c (c_world s)) as [o w] eqn:E. by intros [= -> <-]. Qed.

Lemma fetchWorkspace_Ret ns n s w s' :
  fetchWorkspace env ns n s = (Ret w, s') →
  env (CGetWorkspace (ns, n)) (c_world s) = (Ret w, c_world s') ∧ key_of (ws_meta w) = (ns, n).
Proof.
  unfold fetchWorkspace, requireKey. intros ([] & s1 & ([] & s2 & [_ ->]%guard_err_Ret & [_ ->]%guard_err_Ret)%M_bind_Ret &
    (w' & s3 & H%map_err_Ret & ([] & s4 & [Hk%negb_false_iff ->]%guard_err_Ret & [-> ->]%mret_Ret)%M_bind_Ret)%M_bind_Ret)%M_bind_Ret.
  apply (mcp_Ret (CGetWorkspace (ns, n))) in H. split; [done|by apply is_requested_key].
Qed.
Lemma fetchTemplate_Ret ns n s t s' :
  fetchTemplate env ns n s = (Ret t, s') →
  env (CGetTemplate (ns, n)) (c_world s) = (Ret t, c_world s') ∧ key_of (tpl_meta t) = (ns, n).
Proof.
  unfold fetchTemplate, requireKey. intros ([] & s1 & ([] & s2 & [_ ->]%guard_err_Ret & [_ ->]%guard_err_Ret)%M_bind_Ret &
    (t' & s3 & H%map_err_Ret & ([] & s4 & [Hk%negb_false_iff ->]%guard_err_Ret & [-> ->]%mret_Ret)%M_bind_Ret)%M_bind_Ret)%M_bind_Ret.
  apply (mcp_Ret (CGetTemplate (ns, n))) in H. split; [done|by apply is_requested_key].
Qed.

Lemma setWorkspaceRunning_Ret i s out s' :
  setWorkspaceRunning env i s = (Ret out, s') →
  ∃ w st1, env (CGetWorkspace (sri_Namespace i, sri_Name i)) (c_world s) = (Ret w, st1) ∧
    key_of (ws_meta w) = (sri_Namespace i, sri_Name i) ∧
    sro_Updated out = negb (Bool.eqb (wss_Running (ws_Spec w)) (sri_Running i)) ∧
    if sro_Updated out
    then ∃ w', env (CUpdateWorkspace (set_workspace_running (sri_Running i) w)) st1 = (Ret w', c_world s') ∧
      sro_Summary out = workspaceToSummary w'
    else c_world s' = st1 ∧ sro_Summary out = workspaceToSummary w.
Proof.
  unfold setWorkspaceRunning. cbv zeta. intros (w & s1 & [Hget Hk]%fetchWorkspace_Ret & H)%M_bind_Ret.
  exists w, (c_world s1). split; [done|]. split; [done|].
  destruct (Bool.eqb (wss_Running (ws_Spec w)) (sri_Running i)) eqn:Hsame; cbn [negb] in *;
    apply M_bind_Ret in H as (w' & s2 & Hu & [-> ->]%mret_Ret); cbn; (split; [done|]).
  - apply mret_Ret in Hu as [-> ->]. split; [done|]. unfold workspaceToSummary. cbn. by rewrite <-(eqb_prop _ _ Hsame).
  - apply map_err_Ret, (mcp_Ret (CUpdateWorkspace _)) in Hu. by exists w'.
Qed.
Lemma setTemplateRunning_Ret i s out s' :
  setTemplateRunning env i s = (Ret out, s') →
  ∃ t st1, env (CGetTemplate (sri_Namespace i, sri_Name i)) (c_world s) = (Ret t, st1) ∧
    key_of (tpl_meta t) = (sri_Namespace i, sri_Name i) ∧
    sro_Updated out = negb (Bool.eqb (ts_Running (AggTypes.tpl_Spec t)) (sri_Running i)) ∧
    if sro_Updated out
    then ∃ t', env (CUpdateTemplate (set_template_running (sri_Running i) t)) st1 = (Ret t', c_world s') ∧
      sro_Summary out = templateToSummary t'
    else c_world s' = st1 ∧ sro_Summary out = templateToSummary t.
Proof.
  unfold setTemplateRunning. cbv zeta. intros (t & s1 & [Hget Hk]%fetchTemplate_Ret & H)%M_bind_Ret.
  exists t, (c_world s1). split; [done|]. split; [done|].
  destruct (Bool.eqb (ts_Running (AggTypes.tpl_Spec t)) (sri_Running i)) eqn:Hsame; cbn [negb] in *;
    apply M_bind_Ret in H as (t' & s2 & Hu & [-> ->]%mret_Ret); cbn; (split; [done|]).
  - apply mret_Ret in Hu as [-> ->]. split; [done|]. unfold templateToSummary. cbn. by rewrite <-(eqb_prop _ _ Hsame).
  - apply map_err_Ret, (mcp_Ret (CUpdateTemplate _)) in Hu. by exists t'.
Qed.
End runs.

Section serving_properties.
Context {W : Type} {C : BuildWait.Clock W} {ZA : TemplateFiles.ZipArchive}.
Context (sdk : client → ∀ r : request, M W goerror (response r)).
Context (range : ∀ V : Type, gmap string V → list (string * V)).
Context (ReadBodyAsError : http_response → goerror).
Context (getenv : string → string) (ParseDuration : string → result Z).
Context (workspaces templates : storage W) (deadline : option time).
Context (other : ∀ c : mcpcall, M (Sdk.st W) goerror (mcpreply c)).
#[local] Abbreviation server :=
  (served sdk range ReadBodyAsError getenv ParseDuration workspaces templates deadline other).
Implicit Types (st : Sdk.st W).

(** *** Templates *)

Lemma TemplateToK8s_not_running ns b t : TemplateToK8s ns b = Ret t → ts_Running (AggTypes.tpl_Spec t) = false.
Proof. unfold TemplateToK8s. intros H. by inv_outcome H. Qed.
Lemma getTemplate_not_running s ctx name st t st' :
  TemplateStorage.getTemplate sdk ReadBodyAsError s ctx name st = (Ret t, st') → ts_Running (AggTypes.tpl_Spec t) = false.
Proof.
  unfold TemplateStorage.getTemplate. destruct s as [s|]; [|discriminate]. intros H.
  do 3 (apply M_bind_Ret in H as (? & ? & _ & H)). apply M_bind_Ret in H as ([org name'] & ? & _ & H).
  do 3 (apply M_bind_Ret in H as (? & ? & _ & H)). revert H.
  intros (obj & ? & [Hobj _]%lift_Ret & (files & ? & _ & [-> _]%mret_Ret)%M_bind_Ret)%M_bind_Ret.
  exact (TemplateToK8s_not_running _ _ _ Hobj).
Qed.

Lemma updateTemplate_ignores_running b t st :
  updateTemplate sdk range ReadBodyAsError getenv ParseDuration templates deadline (set_template_running b t) st =
  updateTemplate sdk range ReadBodyAsError getenv ParseDuration templates deadline t st.
Proof. reflexivity. Qed.

(** What an accepted write of a template asks of the backend, from the state [st]:
    the template [current] is read again, in the version of the one written, then
    the metadata are written only if they differ from those of [current], and a
    version is published only if the files differ from those of the version that
    [current] has active. *)
Definition differences_written (t : CoderTemplate) st st' : Prop :=
  ∃ current st2 c metas files,
    TemplateStorage.getTemplate sdk ReadBodyAsError (Some templates)
      (request_context deadline (Namespace (tpl_meta t))) (Name (tpl_meta t)) st = (Ret current, st2) ∧
    ResourceVersion (tpl_meta t) = ResourceVersion (tpl_meta current) ∧
    mutations (st_trace st') = mutations (st_trace st) ++ map (pair c) (metas ++ files) ∧
    (metas ≠ [] → TemplateStorage.metadata (AggTypes.tpl_Spec t) ≠ TemplateStorage.metadata (AggTypes.tpl_Spec current)) ∧
    (files ≠ [] → ∃ vid st3 old st4, Uuid.Parse (tst_ActiveVersionID (tpl_Status current)) = Ret vid ∧
       TemplateFiles.fetchTemplateSourceFiles sdk ReadBodyAsError
         (request_context deadline (Namespace (tpl_meta t))) (Some c) vid st3 = (Ret old, st4) ∧
       ts_Files (AggTypes.tpl_Spec t) ≠ Some old).

(** Files as they were read are not other files after their validation. *)
Lemma prevalidated_differ (Hrange : ∀ V (m : gmap string V), range V m ≡ₚ map_to_list m)
    files desired ctx c v st old st' :
  TemplateStorage.prevalidateFiles range files = Ret (Some desired) →
  TemplateFiles.fetchTemplateSourceFiles sdk ReadBodyAsError ctx c v st = (Ret old, st') → desired ≠ old → files ≠ Some old.
Proof.
  intros Hpre Hold Hne ->. apply Hne. pose proof (TemplateFiles.fetch_normal _ _ _ _ _ _ _ _ Hold) as Hn. unfold TemplateStorage.prevalidateFiles in Hpre.
  inv_outcome Hpre. apply (TemplateFiles.normalize_normal range Hrange); [|exact Hn].
  destruct (TemplateFiles.normalizeFileKeys range (Some old)); by simplify_eq.
Qed.

Lemma updateTemplate_Ret (Hrange : ∀ V (m : gmap string V), range V m ≡ₚ map_to_list m) t st t' st' :
  updateTemplate sdk range ReadBodyAsError getenv ParseDuration templates deadline t st = (Ret t', st') →
  ts_Running (AggTypes.tpl_Spec t') = false ∧ differences_written t st st'.
Proof.
  unfold updateTemplate. intros ([o b] & st1 & Hup & [Ho ->]%lift_Ret)%M_bind_Ret.
  eapply wp_run in Hup; [|apply TemplateStorage.template_Update_wp].
  destruct Hup as [[Hno _]|[(current & s1 & Hcur & Hu1 & Hex)|(err & s1 & _ & _ & Hf & _)]]; [by destruct (Hno _ eq_refl)| |done].
  destruct Hex as [[Hno _]|(updated & ns & c & tid & desired & s2 & Hadm & Hacc)]; [by destruct (Hno _ eq_refl)|].
  destruct Hacc as (metas & oM & s3 & HM & [(_ & Hno & _)|(_ & files & oF & s4 & HF & Hmut & Hend)]); [by destruct (Hno _ eq_refl)|].
  destruct Hend as [[Hno _]|(_ & result & s5 & Hget & [= -> ->] & _)]; [by destruct (Hno _ eq_refl)|].
  injection Ho as <-. split; [by eapply getTemplate_not_running|].
  destruct Hadm as [_ (w & [= <- <-] & _) Htgt _ _ _ Hpre Hu2].
  exists current, s1, c, metas, files. split; [done|]. split; [exact (tgt_current _ _ _ _ Htgt)|]. split.
  { rewrite Hmut. f_equal. destruct Hu1 as [_ Hu1], Hu2 as [_ Hu2]. congruence. }
  unfold TemplateStorage.metadata_outcome in HM. split.
  - intros Hm. destruct (decide _) as [Hne|_]; [done|]. by destruct HM as [? _].
  - intros Hf. destruct HF as [(? & _)|(fs & vid & old & raw & zip & sa & sb & -> & Hvid & Hold & Hne & _)]; [done|].
    exists vid; eexists _, old, _. split; [done|]. split; [exact Hold|]. by eapply prevalidated_differ.
Qed.

(** C23: The tool set_template_running has no effect of its own on the templates
    that the aggregated API server serves, contrary to what is written in
    docs/how-to/mcp-server.md.  It always reports the template as not running, and
    as updated exactly when it was asked to start it.  Asked to stop, it only reads;
    asked to start, it has the server write the template just as it was read,
    and that asks coderd for no change, unless the template is no longer as it was
    read: the metadata are written only if they differ from those the server
    reads, in the same version, and a version is published only if the files are
    not those that the server fetches of the active version. *)
Theorem set_template_running_ignored i (s : cst (Sdk.st W) mcpcall) out s'
    (Hrange : ∀ V (m : gmap string V), range V m ≡ₚ map_to_list m)
    (Hrun : setTemplateRunning server i s = (Ret out, s')) :
  rs_Running (sro_Summary out) = false ∧ sro_Updated out = sri_Running i ∧
  ∃ t st1, server (CGetTemplate (sri_Namespace i, sri_Name i)) (c_world s) = (Ret t, st1) ∧
    key_of (tpl_meta t) = (sri_Namespace i, sri_Name i) ∧
    mutations (st_trace st1) = mutations (st_trace (c_world s)) ∧
    if sri_Running i
    then (∃ t', server (CUpdateTemplate t) st1 = (Ret t', c_world s')) ∧ differences_written t st1 (c_world s')
    else c_world s' = st1.
Proof.
  apply setTemplateRunning_Ret in Hrun as (t & st1 & Hget & Hkey & Hupd & Hrun).
  pose proof Hget as (o & s2 & (t2 & s3 & Ht & [-> ->]%mret_Ret)%M_bind_Ret & [[= <-] ->]%lift_Ret)%M_bind_Ret.
  pose proof (getTemplate_not_running _ _ _ _ _ _ Ht) as Hoff. rewrite Hoff in Hupd.
  assert (sro_Updated out = sri_Running i) as Heq by (rewrite Hupd; by destruct (sri_Running i)).
  assert (mutations (st_trace s3) = mutations (st_trace (c_world s))) as Hm.
  { pose proof (TemplateStorage.ro_getTemplate sdk ReadBodyAsError (Some templates)
      (request_context deadline (sri_Namespace i)) (sri_Name i) (c_world s)) as [_ Hm]. cbn [fst snd] in Ht. by rewrite Ht in Hm. }
  rewrite Heq in Hrun. destruct (sri_Running i).
  - destruct Hrun as (t' & Hup & ->). pose proof (updateTemplate_Ret Hrange _ _ _ _ Hup) as [Hr Hw].
    split; [done|]. split; [done|]. exists t2, s3. split; [done|]. split; [done|]. split; [done|]. by split; [exists t'|].
  - destruct Hrun as [Hw ->]. split; [done|]. split; [done|]. by exists t2, s3.
Qed.

(** *** Workspaces *)

Lemma ro_get_workspace s ctx name : read_only (WorkspaceStorage.Get sdk s ctx name).
Proof.
  unfold WorkspaceStorage.Get, WorkspaceStorage.parseName, WorkspaceStorage.workspace_client, clientForNamespace. solve_read_only.
Qed.

(** What an accepted write of [spec.running] asks of the backend: nothing, if the
    workspace is already as asked, or one transition of the workspace of the name. *)
Definition transition_asked (name : string) (running : bool) (version : string) st st' : Prop :=
  ∃ org user wsname c st1 bw st2,
    ParseWorkspaceName name = Ret (org, user, wsname) ∧
    call sdk c (RWorkspaceByOwnerAndName user wsname) st1 = (Ret bw, st2) ∧ version = format_int (UnixNano (w_UpdatedAt bw)) ∧
    let r := RCreateWorkspaceBuild (w_ID bw) (if running then WorkspaceTransitionStart else WorkspaceTransitionStop) in
    (mutations (st_trace st') = mutations (st_trace st) ∧ workspaceRunning bw = running ∨
     mutations (st_trace st') = mutations (st_trace st) ++ [(c, r)] ∧ workspaceRunning bw ≠ running).

Lemma updateWorkspace_Ret w st w' st' :
  updateWorkspace sdk workspaces deadline w st = (Ret w', st') →
  transition_asked (Name (ws_meta w)) (wss_Running (ws_Spec w)) (ResourceVersion (ws_meta w)) st st'.
Proof.
  unfold updateWorkspace. intros ([o b] & st1 & Hup & [Ho ->]%lift_Ret)%M_bind_Ret.
  eapply wp_run in Hup; [|apply WorkspaceStorage.workspace_Update_wp].
  destruct Hup as [[_ Hno]|(ns & org & user & wsname & c & s0 & r & s1 & Haddr & Hcall & Hr)]; [by destruct (Hno _ eq_refl)|].
  destruct r as [bw|e|e]; [|by destruct Hr as [[[=] _]|[Hno _]]; destruct (Hno _ eq_refl)|by destruct Hr as [Hno _]; destruct (Hno _ eq_refl)].
  destruct Haddr as (_ & _ & Hparse & _ & Htr & _).
  assert (mutations (st_trace s1) = mutations (st_trace st)) as Hm.
  { rewrite <-Htr. apply call_Ret in Hcall as (w1 & _ & ->). by apply mutations_read. }
  exists org, user, wsname, c, s0, bw, s1. split; [done|]. split; [done|].
  destruct Hr as [(Htr' & _ & Hsame)|(current & desired & w1 & s2 & Hacc & Hobj & _ & Htr2 & _ & Hout)].
  - destruct (Hsame _ eq_refl) as (current & desired & w1 & Hcur & [= <- <-] & Htgt & Hrun & _).
    apply WorkspaceToK8s_Ret in Hcur as (_ & _ & _ & Hv & Hcrun & _). rewrite (tgt_current _ _ _ _ Htgt), Hv.
    split; [done|]. left. by rewrite Htr', Hm, <-Hcrun.
  - injection Hobj as <- <-. destruct Hacc as [_ Hcur Htgt _ Htog].
    apply WorkspaceToK8s_Ret in Hcur as (_ & _ & _ & Hv & Hcrun & _). rewrite (tgt_current _ _ _ _ Htgt), Hv.
    split; [done|]. right. destruct Hout as [Htr3 _]. rewrite Htr3, mutations_write, Htr2, Hm by done.
    split; [done|]. by rewrite <-Hcrun.
Qed.

(** C22: The tool set_workspace_running, on the workspaces that the aggregated API
    server serves, asks coderd for nothing if the workspace is as it was asked to
    be, and otherwise for one start or stop of the workspace of that name, unless it
    has just become as asked, and only at the version that the tool has read. *)
Theorem set_workspace_running_transitions i (s : cst (Sdk.st W) mcpcall) out s'
    (Hrun : setWorkspaceRunning server i s = (Ret out, s')) :
  ∃ w st1, server (CGetWorkspace (sri_Namespace i, sri_Name i)) (c_world s) = (Ret w, st1) ∧
    key_of (ws_meta w) = (sri_Namespace i, sri_Name i) ∧
    mutations (st_trace st1) = mutations (st_trace (c_world s)) ∧
    (sro_Updated out = true ↔ wss_Running (ws_Spec w) ≠ sri_Running i) ∧
    if sro_Updated out
    then transition_asked (sri_Name i) (sri_Running i) (ResourceVersion (ws_meta w)) st1 (c_world s')
    else c_world s' = st1.
Proof.
  apply setWorkspaceRunning_Ret in Hrun as (w & st1 & Hget & Hkey & Hupd & Hrun).
  exists w, st1. split; [done|]. split; [done|]. split.
  { apply M_bind_Ret in Hget as (o & st2 & Hget & [_ ->]%lift_Ret). cbn [fst snd] in Hget.
    pose proof (ro_get_workspace (Some workspaces) (request_context deadline (sri_Namespace i)) (sri_Name i) (c_world s)) as [_ Hm].
    by rewrite Hget in Hm. }
  split; [rewrite Hupd, negb_true_iff; apply eqb_false_iff|].
  destruct (sro_Updated out); [|by destruct Hrun]. destruct Hrun as (w' & Hup & _).
  apply updateWorkspace_Ret in Hup. injection Hkey as _ Hname. by rewrite <-Hname.
Qed.
End serving_properties.

(** ** Pods *)

(** A pod of a deployment: made from its template. *)
Definition pod_of (d : Deployment) (pod : Pod) : Prop := tpl_Labels (dep_Template d) ⊆ Labels (pod_meta pod).
(** A pod that list_control_plane_pods selects. *)
Definition selected (name : string) (pod : Pod) : Prop := controlPlaneWorkloadLabels name ⊆ Labels (pod_meta pod).

Lemma selected_labels (l : gmap string string) name pod :
  l ⊆ Labels (pod_meta pod) → selected name pod →
  ∀ k v v', l !! k = Some v → controlPlaneWorkloadLabels name !! k = Some v' → v = v'.
Proof. intros Hl Hs k v v' H1 H2. pose proof (lookup_weaken _ _ _ _ H1 Hl). pose proof (lookup_weaken _ _ _ _ H2 Hs). congruence. Qed.

(** The pods that list_control_plane_pods selects are those of the control
    plane: the pods of the deployment that its controller makes, but none of the
    deployment of another control plane, of a provisioner or of a workspace proxy,
    whatever they are called. *)
Theorem selected_pods_are_its_own :
  (∀ cp v d d' pod name, Workload.Workload.desired_deployment cp v d = Ret d' → pod_of d' pod →
     selected name pod ↔ name = Name (cp_meta cp)) ∧
  (∀ p image url ref account sum d d' pod name,
     Provisioner.Provisioner.provisioner_deployment p image url ref account sum d = Ret d' → pod_of d' pod → ¬ selected name pod) ∧
  (∀ p url ref d d' pod name,
     WorkspaceProxy.WorkspaceProxy.proxy_deployment p url ref d = Ret d' → pod_of d' pod → ¬ selected name pod).
Proof.
  split_and!.
  - intros cp v d d' pod name Hd Hpod.
    apply Workload.Workload.desired_deployment_Ret in Hd as (access & tls & certs & _ & _ & _ & _ & _ & _ & _ & Hl & _).
    unfold pod_of in Hpod. rewrite Hl in Hpod. split; [|by intros ->].
    intros Hs. symmetry. by apply (selected_labels _ _ _ Hpod Hs "app.kubernetes.io/instance").
  - intros p image url ref account sum d d' pod name (m & _ & [= <-])%outcome_bind_Ret Hpod Hs.
    by pose proof (selected_labels _ _ _ Hpod Hs "app.kubernetes.io/name" _ _ eq_refl eq_refl).
  - intros p url ref d d' pod name (m & _ & [= <-])%outcome_bind_Ret Hpod Hs.
    by pose proof (selected_labels _ _ _ Hpod Hs "app.kubernetes.io/name" _ _ eq_refl eq_refl).
Qed.

(** ** Concrete runs *)

Definition no_other {W} (c : mcpcall) : M (Sdk.st W) goerror (mcpreply c) := throw (ErrorString "not served").

Definition template_server := served (C := BuildWait.toy_clock) (ZA := TemplateFiles.ToyZip.toy_zip)
  TemplateStorage.ts_sdk TemplateFiles.toy_range TemplateStorage.ts_body BuildWait.no_env
  BuildWait.no_durations TemplateStorage.ts_storage TemplateStorage.ts_storage None no_other.
Definition start_template : setRunningInput := {| sri_Namespace := "ns"; sri_Name := "acme.go"; sri_Running := true |}.
Definition start_template_run := setTemplateRunning template_server start_template (CSt TemplateStorage.ts_state []).

Lemma set_template_running_ignored_witness :
  ∃ out s', start_template_run = (Ret out, s') ∧
    sro_Updated out = true ∧ rs_Running (sro_Summary out) = false ∧ mutations (st_trace (c_world s')) = [].
Proof.
  assert (∃ out s', start_template_run = (Ret out, s') ∧ mutations (st_trace (c_world s')) = []) as (out & s' & Hrun & Hm)
    by (vm_compute; do 2 eexists; split; reflexivity).
  exists out, s'. destruct (set_template_running_ignored (C := BuildWait.toy_clock) (ZA := TemplateFiles.ToyZip.toy_zip)
    TemplateStorage.ts_sdk TemplateFiles.toy_range TemplateStorage.ts_body BuildWait.no_env
    BuildWait.no_durations TemplateStorage.ts_storage TemplateStorage.ts_storage None no_other
    start_template (CSt TemplateStorage.ts_state []) out s' TemplateFiles.toy_range_perm Hrun) as (H1 & H2 & _).
  by repeat split.
Defined.

Definition unit_clock : BuildWait.Clock () := {|
  BuildWait.Now _ := 0%Z; BuildWait.request_Err _ _ := None; BuildWait.select_after _ _ _ w := (false, w) |}.
Definition workspace_server := served (C := unit_clock) (ZA := TemplateFiles.ToyZip.toy_zip)
  WorkspaceStorage.toy_sdk TemplateFiles.toy_range TemplateStorage.ts_body BuildWait.no_env
  BuildWait.no_durations WorkspaceStorage.toy_storage WorkspaceStorage.toy_storage None no_other.
Definition stop_workspace : setRunningInput := {| sri_Namespace := "ns"; sri_Name := "acme.ann.dev"; sri_Running := false |}.
Definition stop_workspace_run := setWorkspaceRunning workspace_server stop_workspace (CSt WorkspaceStorage.toy_state []).

Lemma set_workspace_running_transitions_witness :
  ∃ out s' w st1, stop_workspace_run = (Ret out, s') ∧
    workspace_server (CGetWorkspace ("ns", "acme.ann.dev")) WorkspaceStorage.toy_state = (Ret w, st1) ∧
    (sro_Updated out = true ↔ wss_Running (ws_Spec w) ≠ false) ∧
    mutations (st_trace (c_world s')) = [(WorkspaceStorage.toy_client, RCreateWorkspaceBuild 42%Z "stop")].
Proof.
  assert (∃ out s', stop_workspace_run = (Ret out, s') ∧
    mutations (st_trace (c_world s')) = [(WorkspaceStorage.toy_client, RCreateWorkspaceBuild 42%Z "stop")])
    as (out & s' & Hrun & Hm) by (vm_compute; do 2 eexists; split; reflexivity).
  destruct (set_workspace_running_transitions (C := unit_clock) (ZA := TemplateFiles.ToyZip.toy_zip)
    WorkspaceStorage.toy_sdk TemplateFiles.toy_range TemplateStorage.ts_body BuildWait.no_env
    BuildWait.no_durations WorkspaceStorage.toy_storage WorkspaceStorage.toy_storage None no_other
    stop_workspace (CSt WorkspaceStorage.toy_state []) out s' Hrun) as (w & st1 & Hget & _ & _ & Hupd & _).
  by exists out, s', w, st1.
Defined.

(** A pod of each kind of deployment. *)
Definition pod_with (labels : gmap string string) : Pod := {|
  pod_meta := set_labels labels empty_meta; pod_ContainerNames := ["coder"]; pod_NodeName := "node-1";
  pod_Phase := "Running"; pod_StartTime := None; pod_ContainerStatuses := [true] |}.
Definition template_labels (r : result Deployment) : gmap string string :=
  match r with Ret d => tpl_Labels (dep_Template d) | _ => ∅ end.
Lemma pod_of_template r d : r = Ret d → pod_of d (pod_with (template_labels r)).
Proof. intros ->. unfold pod_of. cbn. reflexivity. Qed.

Definition example_plane : CoderControlPlane := full_cp Workload.example_certs.
Definition fresh_deployment : Deployment := Workload.new_deployment ("ns", "coder").
Definition plane_run := Workload.desired_deployment example_plane false fresh_deployment.
Definition provisioner_run := Provisioner.provisioner_deployment ProvisionerReconcile.example_provisioner "img" "http://coder"
  {| sks_Name := "s"; sks_Key := "k" |} "sa" "sum" fresh_deployment.
Definition proxy_run := WorkspaceProxy.proxy_deployment WorkspaceProxy.example_proxy "http://coder"
  {| sks_Name := "s"; sks_Key := "k" |} fresh_deployment.

Lemma selected_pods_are_its_own_witness :
  (∃ d, plane_run = Ret d) ∧ (∃ d, provisioner_run = Ret d) ∧ (∃ d, proxy_run = Ret d) ∧
  selected "coder" (pod_with (template_labels plane_run)) ∧
  ¬ selected "prov" (pod_with (template_labels provisioner_run)) ∧
  ¬ selected "eu" (pod_with (template_labels proxy_run)).
Proof.
  assert (∃ d, plane_run = Ret d) as [d1 H1] by (vm_compute; eexists; reflexivity).
  assert (∃ d, provisioner_run = Ret d) as [d2 H2] by (vm_compute; eexists; reflexivity).
  assert (∃ d, proxy_run = Ret d) as [d3 H3] by (vm_compute; eexists; reflexivity).
  destruct selected_pods_are_its_own as (Hplane & Hprov & Hproxy).
  split_and!; [by eexists..| | |].
  - by apply (Hplane _ _ _ _ _ "coder" H1 (pod_of_template _ _ H1)).
  - exact (Hprov _ _ _ _ _ _ _ _ _ _ H2 (pod_of_template _ _ H2)).
  - exact (Hproxy _ _ _ _ _ _ _ H3 (pod_of_template _ _ H3)).
Defined.

End McpServing.
