(* ===== verification/ApiServer.v ===== *)
(** * ApiServer: starting the aggregated API server

    internal/app/apiserverapp/apiserverapp.go: the choice of the client provider is
    [Providers.buildClientProvider], the schemas are in [OpenApi]; here
    [RunWithOptions] as the sequence of calls it makes into k8s.io/apiserver, and the
    API group it installs, with the storages of the two resources. *)

From S2P Require Import Prelude GoStd GoErrors ApiTypes Providers AggTypes Storage BuildWait OpenApi Calls.

#[local] Open Scope string_scope.
#[local] Open Scope list_scope.

Module ApiServer.
Import Providers Storage Calls.

Definition DefaultSecureServingPort : Z := 6443.
Definition serverName := "coder-k8s-aggregated-apiserver".
(** [defaultRequestTimeout] of this package *)
Definition server_RequestTimeout : Z := BuildWait.MaxTemplateVersionBuildWaitTimeout.

(** ** The scheme *)

(** The types registered with a scheme: those of a library function, and the kinds of
    a group and version. *)
Inductive scheme_entry := LibraryTypes (name : string) | KnownType (group version kind : string).
Definition APIVersionInternal := "__internal".
Definition aggregation_kinds : list string := ["CoderWorkspace"; "CoderWorkspaceList"; "CoderTemplate"; "CoderTemplateList"].
Definition AddKnownTypes (group version : string) (kinds : list string) : list scheme_entry := KnownType group version <$> kinds.
(** [addKnownTypes] of api/aggregation/v1alpha1 *)
Definition addKnownTypes : list scheme_entry :=
  AddKnownTypes GroupName "v1alpha1" aggregation_kinds ++ [LibraryTypes "metav1.AddToGroupVersion(aggregation.coder.com/v1alpha1)"].
(** [utilruntime.Must] *)
Definition Must {A} (r : result A) : result A := match r with Err err => Panic err | r => r end.

Section scheme.
(** The registration functions of the libraries may fail. *)
Context (register : string → result ()).
Definition NewScheme : result (list scheme_entry) :=
  _ ← Must (register "metav1.AddMetaToScheme");
  _ ← Must (register "metainternalversion.AddToScheme");
  mret ([LibraryTypes "metav1.AddToGroupVersion(v1)"; LibraryTypes "metav1.AddMetaToScheme";
         LibraryTypes "metainternalversion.AddToScheme"] ++ addKnownTypes ++
        AddKnownTypes GroupName APIVersionInternal aggregation_kinds).
End scheme.

(** ** Configuration and calls *)

Inductive authenticator := AnonymousAuthenticator.
Inductive authorizer := AlwaysAllowAuthorizer.
(** The fields that are set of the recommended configuration. *)
Record server_config := {
  sc_Authenticator : authenticator; sc_Authorizer : authorizer; sc_RuleResolver : authorizer;
  sc_SkipOpenAPIInstallation : bool; sc_RequestTimeout : Z;
  sc_OpenAPIDefinitions : (string → string) → list (string * OpenApi.schema);
  sc_OpenAPIV3Definitions : (string → string) → list (string * OpenApi.schema)
}.
Section server.
Context {V : Type}.

Record server_options := {
  so_SecureServingPort : Z; so_Listener : bool; so_Options : Options; so_ClientProvider : option (ClientProvider V)
}.
Record api_group := {
  ag_Group : string; ag_Version : string; ag_Scheme : list scheme_entry; ag_Storage : list (string * storage V)
}.

Inductive server_call :=
  | CSelfSignedCerts (publicAddress : string) (alternateDNS : list string)
  | CApplySecureServing (bindPort : Z) (listener : bool)
  | CNewServer (name : string) (config : server_config)
  | CInstallAPIGroup (group : api_group)
  | CRunServer.
(** What was set, or that the server is there. *)
Definition server_reply (c : server_call) : Type :=
  match c with
  | CSelfSignedCerts _ _ | CInstallAPIGroup _ | CRunServer => ()
  | CApplySecureServing _ _ => bool * bool
  | CNewServer _ _ => bool
  end.

Context {W : Type} (env : ∀ c : server_call, M W goerror (server_reply c)).
Context (url_Parse : string → result url) (register : string → result ()).

Definition server : Type → Type := calling W server_call.
Definition serve (c : server_call) : server (server_reply c) := issue (reply := server_reply) env c.
Definition fails (message : string) : goerror := Errorf message [].

(** Schemes, codecs and options are not nil where these are called. *)
Definition recommended_config : server_config := {|
  sc_Authenticator := AnonymousAuthenticator; sc_Authorizer := AlwaysAllowAuthorizer; sc_RuleResolver := AlwaysAllowAuthorizer;
  sc_SkipOpenAPIInstallation := true; sc_RequestTimeout := server_RequestTimeout;
  sc_OpenAPIDefinitions := OpenApi.getOpenAPIDefinitions; sc_OpenAPIV3Definitions := OpenApi.getOpenAPIDefinitions |}.
Definition NewRecommendedConfig (bindPort : Z) (listener : bool) : server server_config :=
  _ ← map_err (λ err, Errorf "configure self-signed serving certs: %w" [FErrW err])
        (serve (CSelfSignedCerts "localhost" ["localhost"]));
  '(serving, loopback) ← map_err (λ err, Errorf "configure secure serving: %w" [FErrW err])
        (serve (CApplySecureServing bindPort listener));
  _ ← guard_err (negb serving) (fails "assertion failed: secure serving config is nil after successful ApplyTo");
  _ ← guard_err (negb loopback) (fails "assertion failed: loopback client config is nil after successful ApplyTo");
  mret recommended_config.

Definition NewGenericAPIServer (config : server_config) : server () :=
  server ← map_err (λ err, Errorf "construct generic API server: %w" [FErrW err]) (serve (CNewServer serverName config));
  guard_err (negb server) (fails "assertion failed: generic API server is nil after successful construction").

(** [NewWorkspaceStorage] and [NewTemplateStorage] *)
Definition new_storage (provider : option (ClientProvider V)) (message : string) : result (storage V) :=
  _ ← panic_if (is_nil provider) (ErrorString message);
  mret (MkStorage provider true).
Definition NewWorkspaceStorage provider := new_storage provider "assertion failed: workspace client provider must not be nil".
Definition NewTemplateStorage provider := new_storage provider "assertion failed: template client provider must not be nil".

Definition NewAPIGroupInfo (scheme : list scheme_entry) (provider : option (ClientProvider V)) : result api_group :=
  _ ← fail_if (is_nil provider) (fails "assertion failed: coder client provider must not be nil");
  workspaces ← NewWorkspaceStorage provider;
  templates ← NewTemplateStorage provider;
  mret {| ag_Group := GroupName; ag_Version := "v1alpha1"; ag_Scheme := scheme;
          ag_Storage := [("coderworkspaces", workspaces); ("codertemplates", templates)] |}.

(** A provider that was built, behind its interface. *)
Definition err_provider (message : text) : ClientProvider V := {|
  ClientForNamespace := λ ctx _, lift (Some <$> err_ClientForNamespace (Some message) ctx);
  DefaultNamespace := None; EligibleNamespaces := None |}.
Definition built (p : built_provider) : ClientProvider V :=
  match p with BuiltErr message => err_provider message | BuiltStatic p => static_provider p end.

Definition choose_provider (opts : server_options) (requestTimeout : Z) : result (ClientProvider V) :=
  match so_ClientProvider opts with
  | Some provider => mret provider
  | None =>
      match buildClientProvider url_Parse (so_Options opts) requestTimeout with
      | Ret provider => mret (built provider)
      | Err err => Err (Errorf "build coder client provider: %w" [FErrW err])
      | Panic p => Panic p
      end
  end.

Definition request_timeout (opts : server_options) : Z :=
  let t := opt_CoderRequestTimeout (so_Options opts) in if Z.eqb t 0 then 30 * Second else t.
Definition serving_port (opts : server_options) : Z :=
  if Z.eqb (so_SecureServingPort opts) 0 then DefaultSecureServingPort else so_SecureServingPort opts.

(** The context is nil or not. *)
Definition RunWithOptions (ctx : bool) (opts : server_options) : server () :=
  _ ← guard_err (negb ctx) (fails "assertion failed: context must not be nil");
  _ ← guard_err (opt_CoderRequestTimeout (so_Options opts) <? 0)%Z
        (fails "assertion failed: coder request timeout must not be negative");
  provider ← lift (choose_provider opts (request_timeout opts));
  scheme ← lift (NewScheme register);
  _ ← guard_err (serving_port opts <? 0)%Z (fails "assertion failed: secure serving port must not be negative");
  let bindPort := if so_Listener opts then 0%Z else serving_port opts in
  config ← map_err (λ err, Errorf "configure aggregated API server: %w" [FErrW err])
             (NewRecommendedConfig bindPort (so_Listener opts));
  _ ← NewGenericAPIServer config;
  group ← map_err (λ err, Errorf "build API group info: %w" [FErrW err]) (lift (NewAPIGroupInfo scheme (Some provider)));
  _ ← map_err (λ err, Errorf "install API group: %w" [FErrW err]) (serve (CInstallAPIGroup group));
  serve CRunServer.
Definition Run (ctx : bool) : server () :=
  RunWithOptions ctx {| so_SecureServingPort := 0; so_Listener := false; so_ClientProvider := None;
    so_Options := {| opt_CoderURL := ""; opt_CoderSessionToken := ""; opt_CoderNamespace := ""; opt_CoderRequestTimeout := 0 |} |}.

(** * Properties *)

(** What is served: the provider that was given or built, for both resources, by the
    names under which the schemes and storages know them. *)
Definition installed (provider : ClientProvider V) (scheme : list scheme_entry) : api_group := {|
  ag_Group := GroupName; ag_Version := "v1alpha1"; ag_Scheme := scheme;
  ag_Storage := [("coderworkspaces", MkStorage (Some provider) true); ("codertemplates", MkStorage (Some provider) true)] |}.
Definition start_up (opts : server_options) (provider : ClientProvider V) (scheme : list scheme_entry) : list server_call :=
  [CSelfSignedCerts "localhost" ["localhost"];
   CApplySecureServing (if so_Listener opts then 0%Z else serving_port opts) (so_Listener opts);
   CNewServer serverName recommended_config; CInstallAPIGroup (installed provider scheme); CRunServer].
(** Options that are accepted, with the provider they give. *)
Definition accepted (ctx : bool) (opts : server_options) (provider : ClientProvider V) (scheme : list scheme_entry) : Prop :=
  ctx = true ∧ (0 ≤ opt_CoderRequestTimeout (so_Options opts))%Z ∧ (0 ≤ serving_port opts)%Z ∧
  choose_provider opts (request_timeout opts) = Ret provider ∧ NewScheme register = Ret scheme.

Lemma in_order_serve c : in_order (just [c]) (serve c).
Proof. apply in_order_issue. Qed.
Ltac in_order_call ::= match goal with |- in_order (just [?c]) _ => exact (in_order_serve c) end.

Lemma in_order_config bindPort listener :
  in_order (just [CSelfSignedCerts "localhost" ["localhost"]; CApplySecureServing bindPort listener])
    (NewRecommendedConfig bindPort listener).
Proof. unfold NewRecommendedConfig. in_order_steps. Qed.
Lemma in_order_server config : in_order (just [CNewServer serverName config]) (NewGenericAPIServer config).
Proof. unfold NewGenericAPIServer. in_order_steps. Qed.

Lemma config_value bindPort listener : returns (NewRecommendedConfig bindPort listener) (λ c, c = recommended_config).
Proof. intros s c s' H. unfold NewRecommendedConfig in H. inv_run H. match type of H with (let '(_, _) := ?x in _) _ = _ => destruct x end. by inv_run H. Qed.

(** The configuration that is not accepted starts nothing. *)
Definition start_up_run (ctx : bool) (opts : server_options) (l : list server_call) (o : result ()) : Prop :=
  l = [] ∧ (∀ a, o ≠ Ret a) ∧ (∀ provider scheme, ¬ accepted ctx opts provider scheme) ∨
  ∃ provider scheme, accepted ctx opts provider scheme ∧
    l `prefix_of` start_up opts provider scheme ∧ (o = Ret () → l = start_up opts provider scheme).

Lemma run_start_up ctx opts : runs (RunWithOptions ctx opts) (start_up_run ctx opts).
Proof.
  unfold RunWithOptions, start_up_run.
  apply runs_guard_bind; [intros ->%negb_true_iff; left; split_and!; [done..|by intros p s (? & _)]|intros ->%negb_false_iff].
  apply runs_guard_bind; [intros H%Z.ltb_lt; left; split_and!; [done..|intros p s (_ & ? & _); lia]|intros Ht%Z.ltb_ge].
  apply runs_lift_bind; [|intros e He; left; split_and!; [done..|intros p s (_ & _ & _ & Hp & _); congruence]..].
  intros provider Hp.
  apply runs_lift_bind; [|intros e He; left; split_and!; [done..|intros p s (_ & _ & _ & _ & Hs); congruence]..].
  intros scheme Hs.
  apply runs_guard_bind; [intros H%Z.ltb_lt; left; split_and!; [done..|intros p s (_ & _ & ? & _); lia]|intros Hport%Z.ltb_ge].
  change (NewAPIGroupInfo scheme (Some provider)) with (Ret (installed provider scheme) : result api_group).
  refine (runs_mono _ _ _ (_ : in_order (just (start_up opts provider scheme)) _) _).
  - apply (in_order_returning (λ c, c = recommended_config) [_; _] (just [_; _; _])); [apply in_order_map_err, in_order_config| |].
    { intros s c s' H%map_err_Ret. by eapply config_value. }
    intros config ->. apply (in_order_then [_] (just [_; _])); [apply in_order_server|intros _].
    apply (in_order_returning (λ g, g = installed provider scheme) [] (just [_; _])); [in_order_step| |].
    { intros s g s' H%map_err_Ret. by inv_run H. }
    intros group ->. in_order_steps.
  - intros l o ([] & Hl & Ho). right. exists provider, scheme. split; [done|]. split; [done|]. exact (Ho tt).
Qed.

(** No answer but a value is tolerated. *)
Definition nothing_tolerated (x : exchange (reply := server_reply)) : bool := false.
Lemma strict_serve c : strict env nothing_tolerated (λ _, True) (serve c).
Proof. by apply (strict_issue env). Qed.
Ltac strict_call ::= apply strict_serve.
Lemma strict_run ctx opts : strict env nothing_tolerated (λ _, True) (RunWithOptions ctx opts).
Proof.
  unfold RunWithOptions, NewRecommendedConfig, NewGenericAPIServer. cbv zeta. strict_steps.
Qed.
Definition server_run (ctx : bool) (opts : server_options) (x : list (exchange (reply := server_reply))) (o : result ()) : Prop :=
  start_up_run ctx opts (asked x) o ∧ straight nothing_tolerated x o.
Lemma run_says ctx opts : says env (RunWithOptions ctx opts) (server_run ctx opts).
Proof.
  eapply says_mono; [exact (says_runs env nothing_tolerated _ _ _ (run_start_up ctx opts) (strict_run ctx opts))|].
  by intros x o (H1 & H2 & _).
Qed.

(** The library has what it was asked for. *)
Definition present (c : server_call) : server_reply c → Prop :=
  match c with
  | CApplySecureServing _ _ => λ r, r = (true, true)
  | CNewServer _ _ => λ r, r = true
  | _ => λ _, True
  end.
Definition server_answers : Prop := ∀ c w, ∃ r w', env c w = (Ret r, w') ∧ present c r.

Lemma run_succeeds ctx opts provider scheme :
  server_answers → accepted ctx opts provider scheme → succeeds (RunWithOptions ctx opts) (λ _, True).
Proof.
  intros Henv (-> & Ht & Hport & Hp & Hs). unfold RunWithOptions. cbn [negb]. rewrite (proj2 (Z.ltb_ge _ _) Ht), Hp, Hs.
  assert (∀ c, succeeds (serve c) (present c)) as Hcall by (intros c; apply succeeds_issue, Henv).
  apply (succeeds_bind _ _ _ _ (succeeds_guard _)); intros _ _. apply (succeeds_bind _ _ _ _ (succeeds_guard _)); intros _ _.
  apply (succeeds_bind _ _ (λ p, p = provider)); [by apply succeeds_lift|intros _ ->].
  apply (succeeds_bind _ _ (λ s, s = scheme)); [by apply succeeds_lift|intros _ ->].
  rewrite (proj2 (Z.ltb_ge _ _) Hport). apply (succeeds_bind _ _ _ _ (succeeds_guard _)); intros _ _.
  apply (succeeds_bind _ _ (λ _, True)).
  { apply succeeds_map_err. unfold NewRecommendedConfig.
    apply (succeeds_bind _ _ (λ _, True)); [apply succeeds_map_err; exact (Hcall (CSelfSignedCerts _ _))|intros _ _].
    apply (succeeds_bind _ _ (λ r, r = (true, true))); [apply succeeds_map_err; exact (Hcall (CApplySecureServing _ _))|intros _ ->]. cbn [negb].
    apply (succeeds_bind _ _ _ _ (succeeds_guard _)); intros _ _. apply (succeeds_bind _ _ _ _ (succeeds_guard _)); intros _ _.
    by apply succeeds_ret. }
  intros config _. apply (succeeds_bind _ _ (λ _, True)).
  { unfold NewGenericAPIServer. apply (succeeds_bind _ _ (λ r, r = true)); [apply succeeds_map_err; exact (Hcall (CNewServer _ _))|intros _ ->]. apply succeeds_guard. }
  intros _ _. apply (succeeds_bind _ _ (λ _, True)); [by apply succeeds_map_err, succeeds_lift|intros group _].
  apply (succeeds_bind _ _ (λ _, True)); [apply succeeds_map_err; exact (Hcall (CInstallAPIGroup _))|intros _ _]. exact (Hcall CRunServer).
Qed.
End server.
#[global] Arguments server_options : clear implicits.
#[global] Arguments server_call : clear implicits.

(** No flags: neither URL nor token. *)
Definition unconfigured {V} : server_options V := {|
  so_SecureServingPort := 0; so_Listener := false; so_ClientProvider := None;
  so_Options := {| opt_CoderURL := ""; opt_CoderSessionToken := ""; opt_CoderNamespace := ""; opt_CoderRequestTimeout := 0 |} |}.

(** C20: starting the aggregated API server.  Options that are not accepted (a nil
    context, a negative timeout or port, an incomplete configuration of the client
    provider) start nothing; with accepted ones the calls into the library are made in
    the order of [start_up]: certificates, serving, server, API group, run.  The first
    call that is answered with an error is the last one, and then starting fails as well
    ([straight]).  In these calls the group serves both resources from the one provider that
    was given or chosen, and every kind of them is registered for the external and the
    internal version.  If the library answers, the server runs.  Without configuration
    it runs too, and every request for a backend is answered "service unavailable". *)
Theorem server_start_up_contract {V W} (env : ∀ c : server_call V, M W goerror (server_reply c))
    (url_Parse : string → result url) (register : string → result ()) (ctx : bool) (opts : server_options V) :
  says env (RunWithOptions env url_Parse register ctx opts) (server_run url_Parse register ctx opts) ∧
  (∀ provider scheme s, server_answers env → accepted url_Parse register ctx opts provider scheme →
     (∃ s', RunWithOptions env url_Parse register ctx opts s = (Ret (), s') ∧ sends (start_up opts provider scheme) s s') ∧
     ∀ kind version, kind ∈ aggregation_kinds → version ∈ ["v1alpha1"; APIVersionInternal] →
       KnownType GroupName version kind ∈ scheme) ∧
  (∀ scheme, NewScheme register = Ret scheme → ∃ message,
     accepted url_Parse register true (unconfigured : server_options V) (err_provider message) scheme ∧
     ∀ c ns w, ClientForNamespace V (err_provider message) (Some c) ns w = (Err (StatusErr (NewServiceUnavailable message)), w)).
Proof.
  split; [apply run_says|]. split.
  - intros provider scheme s Henv Hacc. split.
    + destruct (run_succeeds env url_Parse register ctx opts provider scheme Henv Hacc s) as ([] & s' & E & _).
      pose proof (run_start_up env url_Parse register ctx opts s) as Hrun. rewrite E in Hrun.
      destruct Hrun as (l & Hl & [(_ & Hno & _)|(p & sch & (-> & _ & _ & Hp & Hs) & _ & Ho)]); [by destruct (Hno tt)|].
      destruct Hacc as (_ & _ & _ & Hp' & Hs'). rewrite Hp' in Hp. rewrite Hs' in Hs. injection Hp as <-. injection Hs as <-.
      exists s'. split; [exact E|]. by rewrite <-(Ho eq_refl).
    + destruct Hacc as (_ & _ & _ & _ & Hs). unfold NewScheme in Hs.
      apply outcome_bind_Ret in Hs as (_ & _ & (_ & _ & [= <-])%outcome_bind_Ret). intros kind version Hk Hv.
      apply (elem_of_app [_; _; _]). right. apply (elem_of_app addKnownTypes). apply elem_of_cons in Hv as [->|Hv%list_elem_of_singleton]; [left|subst version; right].
      * apply elem_of_app. left. by apply list_elem_of_fmap_2.
      * exact (list_elem_of_fmap_2 (KnownType GroupName APIVersionInternal) _ _ Hk).
  - intros scheme Hs. eexists. split; [by repeat split|]. intros c ns w. reflexivity.
Qed.

Module ToyServer.
Definition env (c : server_call ()) : M () goerror (server_reply c) := λ w,
  (match c return outcome goerror (server_reply c) with
   | CApplySecureServing _ _ => Ret (true, true) | CNewServer _ _ => Ret true | _ => Ret tt
   end, w).
Definition register (_ : string) : result () := Ret tt.
Definition parse (_ : string) : result url := Err (ErrorString "no URL").
End ToyServer.
Theorem server_start_up_contract_witness : ∃ l s',
  RunWithOptions ToyServer.env ToyServer.parse ToyServer.register true unconfigured (CSt () []) = (Ret (), s') ∧
  c_calls s' = l ∧ length l = 5%nat.
Proof.
  destruct (server_start_up_contract ToyServer.env ToyServer.parse ToyServer.register true unconfigured) as (_ & Hok & Hun).
  destruct (Hun _ eq_refl) as (message & Hacc & _).
  destruct (Hok _ _ (CSt () []) ltac:(intros [] w; by repeat eexists) Hacc) as [(s' & E & Hl) _].
  eexists _, s'. split; [exact E|]. split; [exact Hl|]. reflexivity.
Defined.

End ApiServer.
