(* ===== verification/Dispatch.v ===== *)
(** * Dispatch: the command line and the application modes

    app_dispatch.go and main.go: package flag as the source uses it (a flag set of
    string and duration flags that returns its errors), the check of the URL, and the
    application that is run. *)

From S2P Require Import Prelude GoStd GoStdFacts GoErrors Providers Calls ApiServer.

#[local] Open Scope string_scope.
#[local] Open Scope list_scope.

Module Dispatch.
Import Providers Calls ApiServer.

Definition supportedAppModes := "all, controller, aggregated-apiserver, mcp-http".

(** ** Package flag *)

(** The variables of [run] that the flags set, and which flag sets which. *)
Record flags := {
  appMode : string; coderURL : string; coderSessionToken : string; coderNamespace : string; coderRequestTimeout : Z
}.
Inductive flag := FApp | FSessionToken | FURL | FNamespace | FTimeout.
#[global] Instance flag_eq_dec : EqDecision flag.
Proof. solve_decision. Defined.

Definition flag_name (f : flag) : string :=
  match f with
  | FApp => "app" | FSessionToken => "coder-session-token" | FURL => "coder-url"
  | FNamespace => "coder-namespace" | FTimeout => "coder-request-timeout"
  end.
Definition formal : list flag := [FApp; FSessionToken; FURL; FNamespace; FTimeout].
Definition formal_flag (name : string) : option flag := find (λ f, String.eqb (flag_name f) name) formal.
Definition defaults : flags := {|
  appMode := "all"; coderURL := ""; coderSessionToken := ""; coderNamespace := ""; coderRequestTimeout := 30 * Second |}.

Definition ErrHelp : goerror := ErrorString "flag: help requested".
Definition errParse : goerror := ErrorString "parse error".

(** What [parseOne] takes an argument for. *)
Inductive argument := NotAFlag | Terminator | BadSyntax | Named (name : string) (value : option string).
Definition named (text : string) : argument :=
  match text with
  | "" => BadSyntax
  | String a rest =>
      if Ascii.eqb a "-" || Ascii.eqb a "=" then BadSyntax
      else match cut "=" rest with
           | Some (before, value) => Named (String a before) (Some value)
           | None => Named text None
           end
  end.
Definition read_argument (s : string) : argument :=
  match s with
  | String "-" (String a rest) =>
      if Ascii.eqb a "-" then match rest with "" => Terminator | _ => named rest end
      else named (String a rest)
  | _ => NotAFlag
  end.

Section dispatch.
(** [net/url.Parse] and [time.ParseDuration]. *)
Context (url_Parse : string → result url) (ParseDuration : string → result Z).

(** [Value.Set]: the duration flag answers every malformed text with [errParse]. *)
Definition set_flag (o : flags) (f : flag) (value : string) : result flags :=
  match f with
  | FApp => mret {| appMode := value; coderURL := coderURL o; coderSessionToken := coderSessionToken o;
                    coderNamespace := coderNamespace o; coderRequestTimeout := coderRequestTimeout o |}
  | FSessionToken => mret {| appMode := appMode o; coderURL := coderURL o; coderSessionToken := value;
                    coderNamespace := coderNamespace o; coderRequestTimeout := coderRequestTimeout o |}
  | FURL => mret {| appMode := appMode o; coderURL := value; coderSessionToken := coderSessionToken o;
                    coderNamespace := coderNamespace o; coderRequestTimeout := coderRequestTimeout o |}
  | FNamespace => mret {| appMode := appMode o; coderURL := coderURL o; coderSessionToken := coderSessionToken o;
                    coderNamespace := value; coderRequestTimeout := coderRequestTimeout o |}
  | FTimeout =>
      match ParseDuration value with
      | Ret d => mret {| appMode := appMode o; coderURL := coderURL o; coderSessionToken := coderSessionToken o;
                         coderNamespace := coderNamespace o; coderRequestTimeout := d |}
      | Err _ => Err (Errorf "invalid value %q for flag -%s: %v" [FStr value; FStr (flag_name f); FErrV errParse])
      | Panic e => Panic e
      end
  end.

(** [FlagSet.Parse]: the flags and the arguments that are left. *)
Fixpoint Parse (args : list string) (o : flags) : result (flags * list string) :=
  match args with
  | [] => mret (o, [])
  | s :: args' =>
      match read_argument s with
      | NotAFlag => mret (o, args)
      | Terminator => mret (o, args')
      | BadSyntax => Err (Errorf "bad flag syntax: %s" [FStr s])
      | Named name value =>
          match formal_flag name with
          | None =>
              if String.eqb name "help" || String.eqb name "h" then Err ErrHelp
              else Err (Errorf "flag provided but not defined: -%s" [FStr name])
          | Some f =>
              match value with
              | Some value => o ← set_flag o f value; Parse args' o
              | None =>
                  match args' with
                  | [] => Err (Errorf "flag needs an argument: -%s" [FStr name])
                  | value :: args'' => o ← set_flag o f value; Parse args'' o
                  end
              end
          end
      end
  end.

(** ** app_dispatch.go *)

Definition check_url (coderURL : string) : result () :=
  if String.eqb coderURL "" then mret tt else
  match url_Parse coderURL with
  | Err err => Err (Errorf "assertion failed: invalid --coder-url %q: %w" [FStr coderURL; FErrW err])
  | Panic e => Panic e
  | Ret parsed =>
      _ ← fail_if (String.eqb (url_Scheme parsed) "" || String.eqb (url_Host parsed) "")
            (Errorf "assertion failed: invalid --coder-url %q: must include scheme and host (for example, https://coder.example.com)" [FStr coderURL]);
      let scheme := to_lower (url_Scheme parsed) in
      fail_if (negb (String.eqb scheme "http") && negb (String.eqb scheme "https"))
        (Errorf "assertion failed: invalid --coder-url %q: scheme must be http or https" [FStr coderURL])
  end.

Context {V W : Type}.

(** The functions that [run] calls; each is given the context of the signal handler
    (here whether it is not nil). *)
Inductive app_call :=
  | CSetupSignalHandler
  | CRunAll (ctx : bool) (coderRequestTimeout : Z)
  | CRunController (ctx : bool)
  | CRunAggregatedAPIServer (ctx : bool) (opts : server_options V)
  | CRunMCPHTTP (ctx : bool).
Definition app_reply (c : app_call) : Type := match c with CSetupSignalHandler => bool | _ => () end.
Context (env : ∀ c : app_call, M W goerror (app_reply c)).
Definition app : Type → Type := calling W app_call.
Definition call (c : app_call) : app (app_reply c) := issue (reply := app_reply) env c.

Definition server_options_of (o : flags) : server_options V := {|
  so_SecureServingPort := 0; so_Listener := false; so_ClientProvider := None;
  so_Options := {| opt_CoderURL := coderURL o; opt_CoderSessionToken := coderSessionToken o;
                   opt_CoderNamespace := coderNamespace o; opt_CoderRequestTimeout := coderRequestTimeout o |} |}.

Definition run_mode (o : flags) : app () :=
  let mode := appMode o in
  if String.eqb mode "all" then ctx ← call CSetupSignalHandler; call (CRunAll ctx (coderRequestTimeout o))
  else if String.eqb mode "controller" then ctx ← call CSetupSignalHandler; call (CRunController ctx)
  else if String.eqb mode "aggregated-apiserver" then
    ctx ← call CSetupSignalHandler; call (CRunAggregatedAPIServer ctx (server_options_of o))
  else if String.eqb mode "mcp-http" then ctx ← call CSetupSignalHandler; call (CRunMCPHTTP ctx)
  else throw (Errorf "assertion failed: unsupported --app value %q; must be one of: %s" [FStr mode; FStr supportedAppModes]).
Definition run (args : list string) : app () :=
  '(o, _) ← lift (Parse args defaults);
  _ ← lift (check_url (coderURL o));
  run_mode o.

(** [main]: the exit status; a panic ends a Go program with status 2. *)
Definition main (args : list string) : cst W app_call → Z * cst W app_call := λ s,
  match run args s with (Ret _, s) => (0, s) | (Err _, s) => (1, s) | (Panic _, s) => (2, s) end%Z.

(** * Properties *)

(** ** The grammar of the command line

    One or two dashes, the name, and the value behind "=" or as the next argument;
    the flags end at the first argument that is none of them or behind "--". *)
Definition no_flag (s : string) : Prop := has_prefix "-" s = false ∨ s = "-".
Inductive reads : list string → list (flag * string) → list string → Prop :=
  | reads_nothing : reads [] [] []
  | reads_rest s rest : no_flag s → reads (s :: rest) [] (s :: rest)
  | reads_terminator rest : reads ("--" :: rest) [] rest
  | reads_joined dashes f value args settings rest :
      dashes ∈ ["-"; "--"] → reads args settings rest →
      reads ((dashes +:+ flag_name f +:+ "=" +:+ value) :: args) ((f, value) :: settings) rest
  | reads_apart dashes f value args settings rest :
      dashes ∈ ["-"; "--"] → reads args settings rest →
      reads ((dashes +:+ flag_name f) :: value :: args) ((f, value) :: settings) rest.

(** The settings take effect one after the other: the last one counts. *)
Definition set_flags (o : flags) (settings : list (flag * string)) : result flags :=
  mfold (λ o '(f, value), set_flag o f value) o settings.

Lemma cut_Some c s before after : cut c s = Some (before, after) → s = before +:+ String c after.
Proof.
  revert before. induction s as [|a s IH]; intros before; cbn; [done|]. destruct (Ascii.eqb_spec a c) as [->|_].
  - by intros [= <- <-].
  - destruct (cut c s) as [[b t]|]; [|done]. intros [= <- ->]. cbn. by rewrite (IH b eq_refl).
Qed.

Lemma named_spec text :
  match named text with
  | Named name (Some value) => text = name +:+ "=" +:+ value
  | Named name None => text = name
  | BadSyntax => True
  | _ => False
  end.
Proof.
  destruct text as [|a rest]; [done|]. cbn. destruct (Ascii.eqb a "-" || Ascii.eqb a "="); [done|].
  destruct (cut "=" rest) as [[b v]|] eqn:E; [|done]. by apply cut_Some in E as ->.
Qed.
Lemma read_argument_spec s :
  match read_argument s with
  | NotAFlag => no_flag s
  | Terminator => s = "--"
  | BadSyntax => True
  | Named name (Some value) => ∃ dashes, dashes ∈ ["-"; "--"] ∧ s = dashes +:+ name +:+ "=" +:+ value
  | Named name None => ∃ dashes, dashes ∈ ["-"; "--"] ∧ s = dashes +:+ name
  end.
Proof.
  unfold no_flag. destruct s as [|c [|a rest]]; [by left| |].
  - destruct c as [[] [] [] [] [] [] [] []]; first [by left|by right].
  - destruct (Ascii.ascii_dec c "-") as [->|Hc].
    + change (read_argument (String "-" (String a rest))) with
        (if Ascii.eqb a "-" then match rest with "" => Terminator | _ => named rest end else named (String a rest)).
      destruct (Ascii.eqb_spec a "-") as [->|_].
      * destruct rest as [|b rest]; [done|]. pose proof (named_spec (String b rest)) as H.
        destruct (named (String b rest)) as [| | |name [value|]]; [done..| |]; exists "--"; split; [set_solver|by rewrite H|set_solver|by rewrite H].
      * pose proof (named_spec (String a rest)) as H.
        destruct (named (String a rest)) as [| | |name [value|]]; [done..| |]; exists "-"; split; [set_solver|by rewrite H|set_solver|by rewrite H].
    + assert (read_argument (String c (String a rest)) = NotAFlag) as ->
        by (destruct c as [[] [] [] [] [] [] [] []]; first [done|by destruct Hc]).
      left. unfold has_prefix. by rewrite (proj2 (Ascii.eqb_neq "-" c)) by congruence.
Qed.
Lemma formal_flag_Some name f : formal_flag name = Some f → name = flag_name f.
Proof. intros H%find_some. destruct H as [_ H%String.eqb_eq]. done. Qed.
Lemma formal_flag_name f : formal_flag (flag_name f) = Some f.
Proof. by destruct f. Qed.

Lemma read_no_flag s : no_flag s → read_argument s = NotAFlag.
Proof.
  intros [H| ->]; [|done]. destruct s as [|c [|a rest]]; [done..| |];
    destruct c as [[] [] [] [] [] [] [] []]; first [done|cbn in H; discriminate].
Qed.
Lemma read_joined dashes f value :
  dashes ∈ ["-"; "--"] → read_argument (dashes +:+ flag_name f +:+ "=" +:+ value) = Named (flag_name f) (Some value).
Proof. intros [->|[->|[]%not_elem_of_nil]%elem_of_cons]%elem_of_cons; by destruct f. Qed.
Lemma read_apart dashes f : dashes ∈ ["-"; "--"] → read_argument (dashes +:+ flag_name f) = Named (flag_name f) None.
Proof. intros [->|[->|[]%not_elem_of_nil]%elem_of_cons]%elem_of_cons; by destruct f. Qed.

(** The parser reads the grammar, and nothing else. *)
Lemma Parse_reads args o settings rest o' :
  reads args settings rest → set_flags o settings = Ret o' → Parse args o = Ret (o', rest).
Proof.
  intros Hr. revert o. induction Hr as [|s rest Hs| |dashes f value args settings rest Hd _ IH|dashes f value args settings rest Hd _ IH];
    intros o Ho; cbn [Parse].
  - by injection Ho as ->.
  - injection Ho as ->. by rewrite (read_no_flag s Hs).
  - by injection Ho as ->.
  - rewrite (read_joined _ _ _ Hd), formal_flag_name. apply outcome_bind_Ret in Ho as (o1 & H1 & Ho). rewrite H1. by apply IH.
  - rewrite (read_apart _ _ Hd), formal_flag_name. apply outcome_bind_Ret in Ho as (o1 & H1 & Ho). rewrite H1. by apply IH.
Qed.
Lemma reads_Parse args : ∀ o o' rest,
  Parse args o = Ret (o', rest) → ∃ settings, reads args settings rest ∧ set_flags o settings = Ret o'.
Proof.
  remember (length args) as n eqn:Hn. revert args Hn. induction n as [n IH] using lt_wf_ind; intros [|s args] Hn o o' rest; cbn [Parse].
  { intros [= <- <-]. exists []. by split; [constructor|]. }
  pose proof (read_argument_spec s) as Hs. destruct (read_argument s) as [| | |name value].
  - intros [= <- <-]. exists []. by split; [constructor|].
  - subst s. intros [= <- <-]. exists []. by split; [constructor|].
  - done.
  - destruct (formal_flag name) as [f|] eqn:Hf; [apply formal_flag_Some in Hf as ->|by destruct (_ || _)].
    assert (∀ v args' o1, (length args' < n)%nat → set_flag o f v = Ret o1 → Parse args' o1 = Ret (o', rest) →
      ∃ settings, reads args' settings rest ∧ set_flags o ((f, v) :: settings) = Ret o') as Hrec.
    { intros v args' o1 Hlen H1 HP. destruct (IH _ Hlen args' eq_refl _ _ _ HP) as (settings & Hr & Hset).
      exists settings. split; [done|]. unfold set_flags in *. cbn. by rewrite H1. }
    cbn in Hn. destruct value as [v|]; [|destruct args as [|v args]; [done|]]; intros (o1 & H1 & HP)%outcome_bind_Ret;
      destruct Hs as (dashes & Hd & ->).
    + destruct (Hrec v args o1 ltac:(lia) H1 HP) as (settings & Hr & Hset). exists ((f, v) :: settings).
      split; [by constructor|done].
    + cbn in Hn. destruct (Hrec v args o1 ltac:(lia) H1 HP) as (settings & Hr & Hset). exists ((f, v) :: settings).
      split; [by constructor|done].
Qed.

(** ** What is started *)

Definition usable_url (text : string) : Prop :=
  text = "" ∨ ∃ parsed, url_Parse text = Ret parsed ∧ url_Host parsed ≠ "" ∧ to_lower (url_Scheme parsed) ∈ ["http"; "https"].
Definition mode_call (ctx : bool) (o : flags) : option app_call :=
  list_to_map (M := gmap string app_call)
    [("all", CRunAll ctx (coderRequestTimeout o)); ("controller", CRunController ctx);
     ("aggregated-apiserver", CRunAggregatedAPIServer ctx (server_options_of o)); ("mcp-http", CRunMCPHTTP ctx)]
  !! appMode o.

Lemma check_url_spec text : check_url text = Ret tt ↔ usable_url text.
Proof.
  unfold check_url, usable_url. destruct (String.eqb_spec text "") as [->|Hne]; [by split; [left|]|].
  destruct (url_Parse text) as [u|e|e]; [|by split; [|intros [|(? & ? & _)]]..].
  assert (to_lower (url_Scheme u) ∈ ["http"; "https"] → url_Scheme u ≠ "") as Hs by (intros Hs E; rewrite E in Hs; set_solver).
  split.
  - intros (_ & [H1 H2]%fail_if_Ret%orb_false_iff & H3%fail_if_Ret)%outcome_bind_Ret. right. exists u. split; [done|].
    split; [by apply String.eqb_neq|]. apply andb_false_iff in H3.
    destruct H3 as [H%negb_false_iff%String.eqb_eq|H%negb_false_iff%String.eqb_eq]; rewrite H; set_solver.
  - intros [|(u' & [= <-] & Hh & Hl)]; [done|]. rewrite (proj2 (String.eqb_neq _ _) (Hs Hl)), (proj2 (String.eqb_neq _ _) Hh).
    apply elem_of_cons in Hl as [E|E%list_elem_of_singleton]; cbn; by rewrite E.
Qed.

(** The application of the mode, once the signal handler is there. *)
Definition starts (o : flags) (l : list app_call) (r : result ()) : Prop :=
  match mode_call true o with
  | None => l = [] ∧ ∀ a, r ≠ Ret a
  | Some _ =>
      l = [CSetupSignalHandler] ∧ (∀ a, r ≠ Ret a) ∨
      ∃ ctx start, answered (reply := app_reply) env CSetupSignalHandler ctx ∧ mode_call ctx o = Some start ∧
        l = [CSetupSignalHandler; start]
  end.
Lemma run_mode_starts o : runs (run_mode o) (starts o).
Proof.
  assert (∀ (f : bool → app_call) (m : bool → app ()),
    (∀ ctx, runs (m ctx) (λ l _, l = [f ctx])) → (∀ ctx, mode_call ctx o = Some (f ctx)) →
    runs (ctx ← call CSetupSignalHandler; m ctx) (starts o)) as Hrun.
  { intros f m Hm Hmode. unfold starts. rewrite Hmode.
    apply (runs_call_bind env CSetupSignalHandler); [apply calls_once_issue| |by left..].
    intros ctx Hctx. apply (runs_mono _ _ _ (Hm ctx)). intros l r ->. right. by exists ctx, (f ctx). }
  assert (∀ c, runs (call c) (λ l _, l = [c])) as Hcall by (intros c; by apply runs_issue).
  unfold run_mode. destruct (String.eqb_spec (appMode o) "all") as [E|H1].
  { by apply (Hrun (λ ctx, CRunAll ctx (coderRequestTimeout o))); [intros ctx; apply (Hcall (CRunAll _ _))|intros ctx; unfold mode_call; rewrite E]. }
  destruct (String.eqb_spec (appMode o) "controller") as [E|H2].
  { by apply (Hrun CRunController); [intros ctx; apply (Hcall (CRunController _))|intros ctx; unfold mode_call; rewrite E]. }
  destruct (String.eqb_spec (appMode o) "aggregated-apiserver") as [E|H3].
  { by apply (Hrun (λ ctx, CRunAggregatedAPIServer ctx (server_options_of o))); [intros ctx; apply (Hcall (CRunAggregatedAPIServer _ _))|intros ctx; unfold mode_call; rewrite E]. }
  destruct (String.eqb_spec (appMode o) "mcp-http") as [E|H4].
  { by apply (Hrun CRunMCPHTTP); [intros ctx; apply (Hcall (CRunMCPHTTP _))|intros ctx; unfold mode_call; rewrite E]. }
  apply runs_throw. unfold starts, mode_call. by rewrite !list_to_map_cons, !lookup_insert_ne.
Qed.

(** What a command line asks for: settings the grammar reads, with values that are
    accepted and a URL that is usable. *)
Definition asks (args : list string) (o : flags) : Prop :=
  ∃ settings rest, reads args settings rest ∧ set_flags defaults settings = Ret o.
Definition dispatched (args : list string) (l : list app_call) (r : result ()) : Prop :=
  l = [] ∧ (∀ a, r ≠ Ret a) ∧ (∀ o, asks args o → ¬ usable_url (coderURL o)) ∨
  ∃ o, asks args o ∧ usable_url (coderURL o) ∧ starts o l r.

Lemma asks_Parse args o : asks args o ↔ ∃ rest, Parse args defaults = Ret (o, rest).
Proof.
  split.
  - intros (settings & rest & Hr & Hs). exists rest. by eapply Parse_reads.
  - intros [rest (settings & Hr & Hs)%reads_Parse]. by exists settings, rest.
Qed.
Lemma run_dispatched args : runs (run args) (dispatched args).
Proof.
  unfold run. apply runs_lift_bind.
  - intros [o rest] HP. assert (asks args o) as Hasks by (apply asks_Parse; by exists rest).
    apply runs_lift_bind.
    + intros [] Hu%check_url_spec. apply (runs_mono _ _ _ (run_mode_starts o)). intros l r Hl. right. by exists o.
    + intros e He. left. split; [done|]. split; [done|]. intros o' [rest' HP']%asks_Parse. simplify_eq. intros Hu%check_url_spec. congruence.
    + intros e He. left. split; [done|]. split; [done|]. intros o' [rest' HP']%asks_Parse. simplify_eq. intros Hu%check_url_spec. congruence.
  - intros e He. left. split; [done|]. split; [done|]. intros o' [rest' HP']%asks_Parse. congruence.
  - intros e He. left. split; [done|]. split; [done|]. intros o' [rest' HP']%asks_Parse. congruence.
Qed.

(** Only one mode looks at the URL, the token and the namespace. *)
Lemma mode_call_ignores ctx o o' :
  appMode o = appMode o' → coderRequestTimeout o = coderRequestTimeout o' → appMode o ≠ "aggregated-apiserver" →
  mode_call ctx o = mode_call ctx o'.
Proof.
  intros E Et Hne. unfold mode_call. rewrite <-E, <-Et. cbn [list_to_map]. rewrite !list_to_map_cons.
  destruct (decide (appMode o = "all")) as [->|H1]; [by simplify_map_eq|].
  destruct (decide (appMode o = "controller")) as [->|H2]; [by simplify_map_eq|].
  by rewrite !(lookup_insert_ne _ "all"), !(lookup_insert_ne _ "controller"), !(lookup_insert_ne _ "aggregated-apiserver").
Qed.
End dispatch.
#[global] Arguments app_call : clear implicits.

(** The clients of the standalone server are those of the command line. *)
Lemma standalone_client {V} (url_Parse : string → result url) o provider ctx ns (w w' : V) cl :
  choose_provider url_Parse (server_options_of o) (request_timeout (server_options_of (V := V) o)) = Ret provider →
  ClientForNamespace V provider ctx ns w = (Ret (Some cl), w') →
  url_Parse (trim_space (coderURL o)) = Ret (client_URL cl) ∧
  client_SessionToken cl = trim_space (coderSessionToken o) ∧ client_SessionToken cl ≠ "" ∧
  (ns = "" ∨ ns = trim_space (coderNamespace o)).
Proof.
  unfold choose_provider, server_options_of. cbn [so_ClientProvider so_Options].
  destruct (buildClientProvider _ _ _) as [b|e|e] eqn:E; [|done..]. intros [= <-]. unfold buildClientProvider in E.
  apply outcome_bind_Ret in E as (_ & _ & E). cbn [opt_CoderURL opt_CoderSessionToken opt_CoderNamespace] in E.
  destruct (_ <? _)%nat eqn:Hm in E.
  - destruct (_ =? _)%nat in E; [|done]. injection E as <-. cbn [built err_provider ClientForNamespace]. unfold lift.
    unfold err_ClientForNamespace. destruct (is_nil ctx); [done|]. by destruct (text_empty _).
  - assert (trim_space (coderSessionToken o) ≠ "") as Htok.
    { intros Ht. rewrite Ht in Hm. rewrite length_app in Hm. cbn in Hm. by destruct (String.eqb _ _). }
    apply outcome_bind_Ret in E as (_ & _ & E). destruct (url_Parse _) as [u|e|e] eqn:Hu; [|done..].
    unfold NewStaticClientProvider, NewSDKClient in E. cbn [CoderURL SessionToken RequestTimeout] in E.
    rewrite (proj2 (String.eqb_neq _ _) Htok) in E. cbn in E. destruct (_ <? 0)%Z in E; [done|]. injection E as <-.
    cbn. unfold lift, static_ClientForNamespace. cbn. intros H. injection H as H _.
    destruct (is_nil ctx) in H; [done|]. destruct (String.eqb (trim_space (coderNamespace o)) "") eqn:Hn in H; [done|]. cbn in H.
    destruct (String.eqb_spec ns "") as [Hns|Hns] in H.
    + rewrite String.eqb_refl in H. injection H as <-. cbn. auto.
    + destruct (String.eqb_spec ns (trim_space (coderNamespace o))) as [->|]; [|done]. injection H as <-. cbn. auto.
Qed.

(** C17: the command line.  It is accepted exactly when the grammar [reads] it, with
    values that are accepted, and the last setting of a flag counts.  [run] starts
    nothing unless it is accepted, the URL is empty or has a host and the scheme http
    or https, and the mode is one of the four; then it sets up the signal handler and
    calls the one application of the mode, which in mode "all" gets the timeout only.
    The URL, the token and the namespace matter in mode "aggregated-apiserver" only,
    and there every client is for the deployment at that URL, with that token, in that
    namespace.  The process ends with status 0 only if the application was started
    and returned no error. *)
Theorem dispatch_contract {V W} (url_Parse : string → result url) (ParseDuration : string → result Z)
    (env : ∀ c : app_call V, M W goerror (app_reply c)) (args : list string) :
  (∀ o o' rest, Parse ParseDuration args o = Ret (o', rest) ↔
     ∃ settings, reads args settings rest ∧ set_flags ParseDuration o settings = Ret o') ∧
  runs (run url_Parse ParseDuration env args) (dispatched url_Parse ParseDuration env args) ∧
  (∀ ctx o o', appMode o = appMode o' → coderRequestTimeout o = coderRequestTimeout o' →
     appMode o ≠ "aggregated-apiserver" → mode_call (V := V) ctx o = mode_call ctx o') ∧
  (∀ o provider ctx ns w w' cl,
     choose_provider url_Parse (server_options_of o) (request_timeout (server_options_of (V := V) o)) = Ret provider →
     ClientForNamespace V provider ctx ns w = (Ret (Some cl), w') →
     url_Parse (trim_space (coderURL o)) = Ret (client_URL cl) ∧
     client_SessionToken cl = trim_space (coderSessionToken o) ∧ client_SessionToken cl ≠ "" ∧
     (ns = "" ∨ ns = trim_space (coderNamespace o))) ∧
  (∀ s s', main url_Parse ParseDuration env args s = (0%Z, s') →
     ∃ o ctx start, asks ParseDuration args o ∧ usable_url url_Parse (coderURL o) ∧ mode_call ctx o = Some start ∧
       sends [CSetupSignalHandler; start] s s').
Proof.
  split_and!.
  - intros o o' rest. split; [intros HP; by apply reads_Parse|intros (settings & Hr & Hs); by eapply Parse_reads].
  - apply run_dispatched.
  - apply mode_call_ignores.
  - apply standalone_client.
  - intros s s' H. pose proof (run_dispatched url_Parse ParseDuration env args s) as Hrun. unfold main in H.
    destruct (run _ _ _ args s) as [[[]|e|e] s1]; [injection H as <-|done..].
    destruct Hrun as (l & Hl & [(_ & Hno & _)|(o & Hasks & Hu & Hst)]); [by destruct (Hno tt)|].
    unfold starts in Hst. destruct (mode_call true o); [|by destruct Hst as [_ Hno]; destruct (Hno tt)].
    destruct Hst as [[_ Hno]|(ctx & start & _ & Hm & ->)]; [by destruct (Hno tt)|]. by exists o, ctx, start.
Qed.

Module ToyApps.
Definition env (c : app_call ()) : M () goerror (app_reply c) := λ w,
  (match c return outcome goerror (app_reply c) with CSetupSignalHandler => Ret true | _ => Ret tt end, w).
Definition parse (s : string) : result url := Ret {| url_Raw := s; url_Scheme := "HTTPS"; url_Host := "coder.example" |}.
Definition duration (s : string) : result Z := if String.eqb s "45s" then Ret (45 * Second)%Z else Err (ErrorString s).
End ToyApps.

Example dispatch_toy :
  main ToyApps.parse ToyApps.duration ToyApps.env
    ["--app=controller"; "-app"; "all"; "--coder-url=https://coder.example"; "-coder-request-timeout=45s"; "rest"] (CSt () []) =
  (0%Z, CSt () [CSetupSignalHandler; CRunAll true (45 * Second)]).
Proof. reflexivity. Qed.

Theorem dispatch_contract_witness : ∃ o ctx start,
  asks ToyApps.duration ["-app"; "mcp-http"] o ∧ mode_call (V := ()) ctx o = Some start ∧ start = CRunMCPHTTP true.
Proof.
  destruct (dispatch_contract ToyApps.parse ToyApps.duration ToyApps.env ["-app"; "mcp-http"]) as (_ & _ & _ & _ & Hmain).
  destruct (Hmain (CSt () []) _ eq_refl) as (o & ctx & start & Ha & _ & Hm & Hs). exists o, ctx, start.
  split; [exact Ha|]. split; [exact Hm|]. unfold sends in Hs. cbn in Hs. by injection Hs.
Defined.

End Dispatch.
