(* ===== verification/McpHttp.v ===== *)
(** * McpHttp: the HTTP server of the MCP application

    internal/app/mcpapp/http.go and server.go: the clients that are built, the routes,
    and the life of the server as a transition system of two goroutines, the one that
    listens and the one that waits for it or for the end of the context. *)

From S2P Require Import Prelude GoErrors Calls.

#[local] Open Scope string_scope.
#[local] Open Scope list_scope.

Module McpHttp.
Import Calls.

Definition DefaultHTTPAddr := ":8090".
Definition streamableHTTPSessionTimeout : Z := 15 * 60 * 1000000000.
Definition serverImplementationName := "coder-k8s".
Definition serverImplementationVersion := "dev".

(** ** server.go *)

Definition fails (message : string) : goerror := Errorf message [].
Definition wrapping (message : string) (err : goerror) : goerror := Errorf message [FErrW err].

(** The API groups of the scheme, in the order they are added. *)
Definition newScheme_groups : list string := ["client-go"; "coder.com/v1alpha1"; "aggregation.coder.com/v1alpha1"].

Inductive client_call :=
  | CGetConfig                             (* ctrl.GetConfigOrDie *)
  | CNewClient (scheme : list string)      (* client.New *)
  | CNewForConfig.                         (* kubernetes.NewForConfig *)

Section clients.
(** What is returned is there or nil. *)
Context {W : Type} (env : client_call → M W goerror bool) (AddToScheme : string → result ()).
Definition building : Type → Type := calling W client_call.
Definition call (c : client_call) : building bool := issue (reply := λ _, bool) env c.

Definition newScheme : result (list string) :=
  _ ← mfold (λ _ group, match AddToScheme group with Err err => Panic err | r => r end) tt newScheme_groups;
  mret newScheme_groups.
Definition newClients : building () :=
  cfg ← call CGetConfig;
  _ ← guard_err (negb cfg) (fails "assertion failed: Kubernetes config is nil after successful construction");
  scheme ← lift newScheme;
  k8sClient ← map_err (wrapping "build Kubernetes controller-runtime client: %w") (call (CNewClient scheme));
  _ ← guard_err (negb k8sClient) (fails "assertion failed: Kubernetes controller-runtime client is nil after successful construction");
  clientset ← map_err (wrapping "build Kubernetes clientset: %w") (call CNewForConfig);
  guard_err (negb clientset) (fails "assertion failed: Kubernetes clientset is nil after successful construction").
End clients.

(** ** http.go: routes *)

Inductive handler := StreamableMCP (sessionTimeout : Z) | Respond (status : Z) (body : string).
Definition routes : list (string * handler) :=
  [("/mcp", StreamableMCP streamableHTTPSessionTimeout); ("/healthz", Respond 200 "ok"); ("/readyz", Respond 200 "ok")].
(** [http.ServeMux] for patterns without a trailing slash and a path that is clean. *)
Definition handler_of (path : string) : option handler := snd <$> find (λ '(pattern, _), String.eqb pattern path) routes.

(** ** http.go: the life of the server *)

Definition ErrServerClosed : goerror := ErrorString "http: Server closed".
(** [errors.Is(err, http.ErrServerClosed)] *)
Definition is_closed (err : goerror) : bool :=
  match find_in_chain (λ e, match e with ErrorString s => if String.eqb s "http: Server closed" then Some tt else None | _ => None end) err with
  | Some _ => true | None => false
  end.

(** [ListenAndServe] looks whether the server is shut down, binds the address, and
    serves until accepting fails; it never returns nil. *)
Inductive listener := Starting | Binding | Serving | Stopped (err : goerror) | Sent.
(** The main goroutine: in the select, in Shutdown, at the second receive, returned. *)
Inductive waiter := Selecting | ShuttingDown | Draining | Returned (r : result ()).
Record state := St {
  st_listener : listener; st_listenErr : option goerror; (* a channel with one slot *)
  st_inShutdown : bool; st_done : bool (* the context *); st_main : waiter
}.

(** What is made of the error received from the channel. *)
Definition conclude (err : goerror) : result () :=
  if is_closed err then mret tt else Err (wrapping "run MCP HTTP server: %w" err).

Inductive step : state → state → Prop :=
  | step_refuse ch d m : step (St Starting ch true d m) (St (Stopped ErrServerClosed) ch true d m)
  | step_bind ch d m : step (St Starting ch false d m) (St Binding ch false d m)
  | step_bind_fails err ch sh d m : is_closed err = false → step (St Binding ch sh d m) (St (Stopped err) ch sh d m)
  | step_serve ch sh d m : step (St Binding ch sh d m) (St Serving ch sh d m)
  | step_accept_fails err ch d m : is_closed err = false → step (St Serving ch false d m) (St (Stopped err) ch false d m)
  | step_closed ch d m : step (St Serving ch true d m) (St (Stopped ErrServerClosed) ch true d m)
  | step_send err sh d m : step (St (Stopped err) None sh d m) (St Sent (Some err) sh d m)
  | step_cancel l ch sh m : step (St l ch sh false m) (St l ch sh true m)
  | step_receive l err sh d : step (St l (Some err) sh d Selecting) (St l None sh d (Returned (conclude err)))
  | step_shutdown l ch sh : step (St l ch sh true Selecting) (St l ch true true ShuttingDown)
  | step_shutdown_fails err l ch sh d :
      step (St l ch sh d ShuttingDown) (St l ch sh d (Returned (Err (wrapping "shutdown MCP HTTP server: %w" err))))
  | step_shutdown_done l ch sh d : step (St l ch sh d ShuttingDown) (St l ch sh d Draining)
  | step_drain l err sh d : step (St l (Some err) sh d Draining) (St l None sh d (Returned (conclude err))).

Definition init (cancelled : bool) : state := St Starting None false cancelled Selecting.

(** [RunHTTPWithClients] of a context and two clients, nil or not, and [RunHTTP]. *)
Inductive RunHTTPWithClients : bool → bool → bool → result () → Prop :=
  | run_no_context client clientset :
      RunHTTPWithClients false client clientset (Err (fails "assertion failed: context must not be nil"))
  | run_no_client clientset :
      RunHTTPWithClients true false clientset (Err (fails "assertion failed: Kubernetes client must not be nil"))
  | run_no_clientset :
      RunHTTPWithClients true true false (Err (fails "assertion failed: Kubernetes clientset must not be nil"))
  | run_returns cancelled s r :
      rtc step (init cancelled) s → st_main s = Returned r → RunHTTPWithClients true true true r.

Section RunHTTP.
Context {W : Type} (env : client_call → M W goerror bool) (AddToScheme : string → result ()).
Definition connect (ctx : bool) : building () :=
  _ ← guard_err (negb ctx) (fails "assertion failed: context must not be nil");
  newClients env AddToScheme.
Inductive RunHTTP (ctx : bool) (s : cst W client_call) : result () → cst W client_call → Prop :=
  | http_not_connected o s' : connect ctx s = (o, s') → (∀ u, o ≠ Ret u) → RunHTTP ctx s o s'
  | http_served r s' : connect ctx s = (Ret tt, s') → RunHTTPWithClients ctx true true r → RunHTTP ctx s r s'.

(** * Properties *)

Definition client_calls : list client_call := [CGetConfig; CNewClient newScheme_groups; CNewForConfig].

Lemma in_order_client_call c : in_order (just [c]) (call env c).
Proof. exact (in_order_issue (reply := λ _, bool) env c). Qed.
Ltac in_order_call ::= match goal with |- in_order (just [?c]) _ => exact (in_order_client_call c) end.

Lemma in_order_connect ctx : in_order (just client_calls) (connect ctx).
Proof.
  unfold connect. apply in_order_silent; [in_order_step|intros _]. unfold newClients.
  apply in_order_cons; [in_order_step|intros cfg]. apply in_order_silent; [in_order_step|intros _].
  apply (in_order_returning (λ s, s = newScheme_groups) [] (just [_; _])); [in_order_step| |].
  { intros s g s' H. unfold lift, newScheme in H. injection H as H _. by apply outcome_bind_Ret in H as (_ & _ & [= <-]). }
  intros scheme ->. in_order_steps.
Qed.
End RunHTTP.

(** ** The two goroutines *)

Definition finished (s : state) : Prop := st_listener s = Sent ∧ ∃ r, st_main s = Returned r.
(** A closed server was shut down. *)
Definition honest (err : goerror) (sh : bool) : Prop := is_closed err = true → sh = true.
(** How the main goroutine got its result. *)
Definition justified (s : state) (r : result ()) : Prop :=
  (∃ err, honest err (st_inShutdown s) ∧ r = conclude err ∧ st_listener s = Sent) ∨
  (∃ err, r = Err (wrapping "shutdown MCP HTTP server: %w" err) ∧ st_inShutdown s = true).
Definition inv (s : state) : Prop :=
  (st_inShutdown s = true → st_done s = true) ∧
  (∀ err, st_listener s = Stopped err ∨ st_listenErr s = Some err → honest err (st_inShutdown s)) ∧
  match st_main s with
  | Selecting => st_inShutdown s = false ∧ (st_listener s = Sent ↔ is_Some (st_listenErr s))
  | ShuttingDown | Draining => st_inShutdown s = true ∧ (st_listener s = Sent ↔ is_Some (st_listenErr s))
  | Returned r => justified s r ∧ (st_listener s ≠ Sent → st_listenErr s = None)
  end.

Lemma inv_init cancelled : inv (init cancelled).
Proof. unfold inv, init. cbn. repeat split; [done|by intros e [|]|done|by intros [? ?]]. Qed.
Lemma inv_step s s' : step s s' → inv s → inv s'.
Proof.
  intros Hs (Hd & He & Hm). unfold inv, justified, honest in *.
  destruct Hs; cbn in *; (split; [by auto|]);
    try (split; [naive_solver|]);
    try match goal with |- context [match ?m with _ => _ end] => destruct m end; cbn in *;
    try (naive_solver (eauto using is_Some_None; done)).
  destruct Hm as [-> Hl]. split; [right; by eexists|]. destruct ch; [|done]. intros Hn. destruct Hn. by apply Hl.
Qed.
Lemma inv_reachable cancelled s : rtc step (init cancelled) s → inv s.
Proof.
  intros H. assert (inv (init cancelled)) as Hi by apply inv_init. revert Hi. induction H; eauto using inv_step.
Qed.

(** Every step brings the end nearer. *)
Definition distance (s : state) : nat :=
  match st_listener s with Starting => 4 | Binding => 3 | Serving => 2 | Stopped _ => 1 | Sent => 0 end +
  match st_main s with Selecting => 3 | ShuttingDown => 2 | Draining => 1 | Returned _ => 0 end +
  (if st_done s then 0 else 1).
Lemma step_distance s s' : step s s' → (distance s' < distance s)%nat.
Proof. destruct 1; cbn; lia. Qed.
Lemma steps_bounded n s s' : nsteps step n s s' → (n + distance s' ≤ distance s)%nat.
Proof. induction 1 as [|n s s1 s' Hs%step_distance _ IH]; lia. Qed.

Lemma listener_moves l ch sh d m :
  l ≠ Sent → (l = Serving → sh = true) → ch = None → ∃ s', step (St l ch sh d m) s'.
Proof.
  intros Hl Hsh ->. destruct l as [| | |e|]; [|eexists; apply step_serve| |eexists; apply step_send|done].
  - destruct sh; eexists; [apply step_refuse|apply step_bind].
  - rewrite (Hsh eq_refl). eexists. apply step_closed.
Qed.
(** Once the context is done, there is a step to take until both goroutines have
    ended, and it is not the failure of a server that still accepts connections. *)
Lemma progress s :
  inv s → st_done s = true →
  finished s ∨ ∃ s', step s s' ∧ (st_listener s = Serving → st_inShutdown s = false → st_listener s' = Serving).
Proof.
  intros (_ & _ & Hm) Hd. destruct s as [l ch sh d m]. unfold justified in Hm. cbn in *. subst d.
  destruct m as [| | |r].
  - right. eexists. split; [apply step_shutdown|]. done.
  - right. eexists. split; [apply step_shutdown_done|]. done.
  - right. destruct Hm as [-> Hl]. destruct ch as [err|]; [eexists; split; [apply step_drain|done]|].
    destruct (listener_moves l None true true Draining) as [s' Hs]; [by intros [? ?]%Hl|done..|]. by exists s'.
  - destruct Hm as [[(err & _ & _ & ->)|(err & -> & ->)] Hl]; [left; by split; [|exists r]|].
    assert (l = Sent ∨ l ≠ Sent) as [->|Hne] by (destruct l; auto); [left; split; [done|by eexists]|]. right.
    destruct (listener_moves l ch true true (Returned (Err (wrapping "shutdown MCP HTTP server: %w" err)))) as [s' Hs]; [done|done|by apply Hl|].
    by exists s'.
Qed.

(** C18: the MCP server.  [RunHTTP] builds its clients in one order and stops at the
    first that is not there.  Then, whatever the interleaving of its goroutines: a run
    has at most eight steps; once the context is done, a step can be taken until the
    server has returned and the listening goroutine has ended (its one message never
    waits for a reader), and this does not need the server to fail; success is
    returned only for a server that was asked to stop, and another error of listening
    or of the shutdown is returned wrapped. *)
Theorem mcp_http_contract {W} (env : client_call → M W goerror bool) (AddToScheme : string → result ()) (ctx : bool) :
  in_order (just client_calls) (connect env AddToScheme ctx) ∧
  (∀ cancelled n s, nsteps step n (init cancelled) s → (n ≤ 8)%nat) ∧
  (∀ cancelled s, rtc step (init cancelled) s →
     (st_done s = true → finished s ∨
        ∃ s', step s s' ∧ (st_listener s = Serving → st_inShutdown s = false → st_listener s' = Serving)) ∧
     (∀ err, st_listener s = Stopped err → ∃ s', step s s' ∧ st_listener s' = Sent) ∧
     (st_main s = Returned (Ret tt) → st_done s = true ∧ st_listener s = Sent) ∧
     (∀ r, st_main s = Returned r →
        r = Ret tt ∨
        (∃ err, r = Err (wrapping "run MCP HTTP server: %w" err) ∧ is_closed err = false ∧ st_listener s = Sent) ∨
        (∃ err, r = Err (wrapping "shutdown MCP HTTP server: %w" err) ∧ st_done s = true))) ∧
  (∀ s r s', RunHTTP env AddToScheme ctx s r s' → ctx = false → ∃ e, r = Err e).
Proof.
  split; [apply in_order_connect|]. split; [|split].
  - intros cancelled n s H%steps_bounded. cbn in H. destruct cancelled; lia.
  - intros cancelled s Hr. pose proof (inv_reachable _ _ Hr) as Hi. split; [by apply progress|]. destruct Hi as (Hd & _ & Hm).
    split; [|split].
    + intros err Hl. destruct s as [l ch sh d m]. cbn in *. subst l. enough (ch = None) as -> by (eexists; split; [apply step_send|done]).
      destruct ch; [|done]. destruct m; [| | |by destruct Hm as [_ Hm]; specialize (Hm ltac:(done))];
        destruct Hm as [_ [_ Hm]]; by specialize (Hm ltac:(done)).
    + intros Hret. rewrite Hret in Hm. destruct Hm as [[(err & Hh & Hc & Hl)|(err & [=] & _)] _]. split; [|done].
      apply Hd, Hh. unfold conclude in Hc. by destruct (is_closed err).
    + intros r Hret. rewrite Hret in Hm. destruct Hm as [[(err & Hh & -> & Hl)|(err & -> & Hs)] _]; [|right; right; eauto].
      unfold conclude. destruct (is_closed err) eqn:E; [by left|]. right; left. by exists err.
  - intros s r s' [o s1 H Ho|r1 s1 H Hr] ->; unfold connect, mbind, M_bind in H; cbn in H.
    + injection H as <- <-. by eexists.
    + done.
Qed.

Module ToyHttp.
Definition env (c : client_call) : M () goerror bool := λ w, (Ret true, w).
(** Bind, serve, cancel, shut down, close, send, finish the shutdown, drain. *)
Example runs_and_stops : rtc step (init false) (St Sent None true true (Returned (Ret tt))).
Proof.
  eapply rtc_l; [apply step_bind|]. eapply rtc_l; [apply step_serve|]. eapply rtc_l; [apply step_cancel|].
  eapply rtc_l; [apply step_shutdown|]. eapply rtc_l; [apply step_closed|]. eapply rtc_l; [apply step_send|].
  eapply rtc_l; [apply step_shutdown_done|]. eapply rtc_l; [apply step_drain|]. apply rtc_refl.
Qed.
End ToyHttp.

End McpHttp.
