(* ===== verification/Setup.v ===== *)
(** * Setup: the manager, its controllers and its runnables

    [SetupWithManager] of the three controllers of internal/controller,
    internal/app/controllerapp/controllerapp.go and internal/app/allapp/allapp.go: the
    process as the sequence of calls that it makes into controller-runtime, and what
    the runnables that it adds do when the manager starts them. *)

From S2P Require Import Prelude GoStd GoStdFacts StringFacts GoErrors ApiTypes Providers KubeObjects ControlPlaneStatus Exposure Triggers ProvisionerTriggers Provisioner WorkspaceProxy Calls ApiServer.

#[local] Open Scope string_scope.
#[local] Open Scope list_scope.

Module Setup.
Import Providers ControlPlaneStatus Provisioner WorkspaceProxy Calls.

Definition HealthProbeBindAddress := ":8081".
Definition leaderElectionID := "coder-k8s-controller.coder.com".
Definition defaultLeaderElectionNamespace := "kube-system".
Definition inClusterNamespacePath := "/var/run/secrets/kubernetes.io/serviceaccount/namespace".
Definition cacheSyncTimeout : Z := 30 * Second.
Definition defaultCoderRequestTimeout : Z := 30 * Second.

(** ** What is registered *)

Inductive indexer :=
  | IndexByLicenseSecretName | IndexByEnvFromConfigMapName | IndexByEnvFromSecretName
  | IndexProvisionerByControlPlaneRefName.
Inductive mapper := RequestsForLicenseSecret | RequestsForEnvFromConfigMap | RequestsForControlPlane.
Inductive reconciler_value :=
  | ControlPlaneReconciler (r : reconciler)
  | ProvisionerReconciler (r : provisioner_reconciler)
  | WorkspaceProxyReconciler (r : proxy_reconciler).
(** [ctrl.NewControllerManagedBy(mgr).For(...).Owns(...).Watches(...).Named(...).Complete(r)] *)
Record registration := {
  reg_Name : string; reg_For : kind; reg_Owns : list kind; reg_Watches : list (kind * mapper);
  reg_Reconciler : reconciler_value
}.
Inductive check := Ping | CachesSynced (timeout : Z).

(** The API groups of a scheme, in the order they are added. *)
Definition scheme : Type := list string.
Definition sharedscheme_groups : scheme :=
  ["client-go"; "coder.com/v1alpha1"; "aggregation.coder.com/v1alpha1"; "gateway.networking.k8s.io/v1"].

Record manager_options := {
  mo_Scheme : scheme; mo_HealthProbeBindAddress : string; mo_LeaderElection : bool; mo_LeaderElectionID : string;
  mo_LeaderElectionNamespace : string; mo_LeaderElectionReleaseOnCancel : bool
}.

Section setup.
Context {V : Type}.

(** The manager's getters: a reader of the cluster, or whether the value is there. *)
Record manager := {
  mgr_Client : option (cp_reader V); mgr_APIReader : option (secret_reader V);
  mgr_Scheme : bool; mgr_Cache : bool; mgr_Config : bool
}.
(** [nonLeaderRunnable] by the function that it runs. *)
Inductive runnable := AggregatedAPIServer (requestTimeout : Z) | MCPServer.
Definition NeedLeaderElection (r : runnable) : bool := false.

Inductive setup_call :=
  | CGetConfig                                    (* ctrl.GetConfigOrDie *)
  | CNewManager (options : manager_options)
  | CIndexField (k : kind) (field : string) (index : indexer)
  | CRESTMapping (group version kind : string)
  | CComplete (r : registration)
  | CAddHealthzCheck (name : string) (c : check)
  | CAddReadyzCheck (name : string) (c : check)
  | CAddRunnable (r : runnable)
  | CStart
  | CWaitForCacheSync (timeout : Z)
  | CNewClientset
  | CRunAggregatedAPIServer (provider : ControlPlaneClientProvider V) (requestTimeout : Z)
  | CRunMCPHTTP (client : cp_reader V).
Definition setup_reply (c : setup_call) : Type :=
  match c with
  | CGetConfig | CWaitForCacheSync _ | CNewClientset => bool
  | CNewManager _ => option manager
  | _ => ()
  end.

Context {W : Type} (env : ∀ c : setup_call, M W goerror (setup_reply c)).
(** [os.Getenv], [os.ReadFile] and the registration functions of the API groups. *)
Context (getenv : string → string) (ReadFile : string → result string) (AddToScheme : string → result ()).

Definition setup : Type → Type := calling W setup_call.
Definition call (c : setup_call) : setup (setup_reply c) := issue (reply := setup_reply) env c.
Definition fails (message : string) : goerror := Errorf message [].
Definition wrapping (message : string) (err : goerror) : goerror := Errorf message [FErrW err].

(** *** sharedscheme.go *)

(** [utilruntime.Must] of every registration. *)
Fixpoint add_groups (groups : list string) : result () :=
  match groups with
  | [] => mret tt
  | g :: groups =>
      _ ← match AddToScheme g with Err err => Panic err | r => r end;
      add_groups groups
  end.
Definition New : result scheme := _ ← add_groups sharedscheme_groups; mret sharedscheme_groups.

(** *** SetupWithManager *)

Definition index (k : kind) (field : string) (i : indexer) (message : string) : setup () :=
  map_err (wrapping message) (call (CIndexField k field i)).

Definition control_plane_registration (routes : bool) (r : reconciler) : registration := {|
  reg_Name := "codercontrolplane"; reg_For := KControlPlane;
  reg_Owns := [KDeployment; KService; KIngress; KServiceAccount; KRole; KRoleBinding; KSecret] ++
              (if routes then [KHTTPRoute] else []);
  reg_Watches := [(KSecret, RequestsForLicenseSecret); (KConfigMap, RequestsForEnvFromConfigMap)];
  reg_Reconciler := ControlPlaneReconciler r |}.
(** The first argument of each is whether the manager is not nil. *)
Definition controlPlane_SetupWithManager (mgr : bool) (r : reconciler) : setup () :=
  _ ← guard_err (negb mgr) (fails "assertion failed: manager must not be nil");
  _ ← guard_err (negb (hasClient r)) (fails "assertion failed: reconciler client must not be nil");
  _ ← guard_err (negb (hasScheme r)) (fails "assertion failed: reconciler scheme must not be nil");
  _ ← index KControlPlane Triggers.licenseSecretNameFieldIndex IndexByLicenseSecretName
        "index coder control planes by license secret name: %w";
  _ ← index KControlPlane Triggers.envFromConfigMapNameFieldIndex IndexByEnvFromConfigMapName
        "index coder control planes by envFrom ConfigMap name: %w";
  _ ← index KControlPlane Triggers.envFromSecretNameFieldIndex IndexByEnvFromSecretName
        "index coder control planes by envFrom Secret name: %w";
  mapping ← attempt (call (CRESTMapping "gateway.networking.k8s.io" "v1" "HTTPRoute"));
  routes ← match mapping with
           | inl _ => mret true
           | inr err =>
               _ ← guard_err (negb (IsNoMatchError err)) (wrapping "check HTTPRoute REST mapping: %w" err);
               mret false
           end : setup bool;
  call (CComplete (control_plane_registration routes r)).

Definition proxy_registration (r : proxy_reconciler) : registration := {|
  reg_Name := "coderworkspaceproxy"; reg_For := KWorkspaceProxy; reg_Owns := [KDeployment; KService; KSecret];
  reg_Watches := []; reg_Reconciler := WorkspaceProxyReconciler r |}.
Definition workspaceProxy_SetupWithManager (mgr : bool) (r : proxy_reconciler) : setup () :=
  _ ← guard_err (negb mgr) (fails "assertion failed: manager must not be nil");
  _ ← guard_err (negb (wpr_Client r)) (fails "assertion failed: reconciler client must not be nil");
  _ ← guard_err (negb (wpr_Scheme r)) (fails "assertion failed: reconciler scheme must not be nil");
  call (CComplete (proxy_registration r)).

Definition provisioner_registration (r : provisioner_reconciler) : registration := {|
  reg_Name := "coderprovisioner"; reg_For := KProvisioner;
  reg_Owns := [KDeployment; KSecret; KServiceAccount; KRole; KRoleBinding];
  reg_Watches := [(KControlPlane, RequestsForControlPlane)]; reg_Reconciler := ProvisionerReconciler r |}.
Definition provisioner_SetupWithManager (mgr : bool) (r : provisioner_reconciler) : setup () :=
  _ ← guard_err (negb mgr) (fails "assertion failed: manager must not be nil");
  _ ← guard_err (negb (pvr_Client r)) (fails "assertion failed: reconciler client must not be nil");
  _ ← guard_err (negb (pvr_Scheme r)) (fails "assertion failed: reconciler scheme must not be nil");
  _ ← guard_err (negb (pvr_BootstrapClient r)) (fails "assertion failed: reconciler bootstrap client must not be nil");
  _ ← index KProvisioner ProvisionerTriggers.provisionerControlPlaneRefNameFieldIndex IndexProvisionerByControlPlaneRefName
        "index coder provisioners by control plane ref name: %w";
  call (CComplete (provisioner_registration r)).

(** *** controllerapp.go *)

Definition detectLeaderElectionNamespace : string :=
  let ns := trim_space (getenv "POD_NAMESPACE") in
  if negb (String.eqb ns "") then ns
  else
    match ReadFile inClusterNamespacePath with
    | Ret data => let ns := trim_space data in if negb (String.eqb ns "") then ns else defaultLeaderElectionNamespace
    | _ => defaultLeaderElectionNamespace
    end.

(** The scheme is that of [New], never nil. *)
Definition manager_options_of (s : scheme) : manager_options := {|
  mo_Scheme := s; mo_HealthProbeBindAddress := HealthProbeBindAddress; mo_LeaderElection := true;
  mo_LeaderElectionID := leaderElectionID; mo_LeaderElectionNamespace := detectLeaderElectionNamespace;
  mo_LeaderElectionReleaseOnCancel := true |}.
Definition NewManager (cfg : bool) (s : scheme) : setup manager :=
  _ ← guard_err (negb cfg) (fails "assertion failed: config must not be nil");
  mgr ← map_err (wrapping "unable to start manager: %w") (call (CNewManager (manager_options_of s)));
  match mgr : option manager with
  | None => throw (fails "assertion failed: manager is nil after successful construction")
  | Some mgr => mret mgr
  end.

(** The reconcilers with all their collaborators. *)
Definition control_plane_reconciler (mgr : manager) : reconciler := {|
  hasClient := negb (is_nil (mgr_Client mgr)); hasScheme := mgr_Scheme mgr; hasAPIReader := negb (is_nil (mgr_APIReader mgr));
  hasOperatorAccessProvisioner := true; hasLicenseUploader := true; hasEntitlementsInspector := true |}.
Definition SetupControllers (mgr : manager) : setup () :=
  _ ← guard_err (is_nil (mgr_Client mgr)) (fails "assertion failed: manager client is nil");
  _ ← guard_err (negb (mgr_Scheme mgr)) (fails "assertion failed: manager scheme is nil");
  let client := negb (is_nil (mgr_Client mgr)) in
  _ ← map_err (wrapping "unable to create controller: %w")
        (controlPlane_SetupWithManager true (control_plane_reconciler mgr));
  _ ← map_err (wrapping "unable to create coder workspace proxy controller: %w")
        (workspaceProxy_SetupWithManager true
           {| wpr_Client := client; wpr_Scheme := mgr_Scheme mgr; wpr_BootstrapClient := true |});
  map_err (wrapping "unable to create provisioner controller: %w")
    (provisioner_SetupWithManager true
       {| pvr_Client := client; pvr_Scheme := mgr_Scheme mgr; pvr_BootstrapClient := true |}).

Definition SetupProbes : setup () :=
  _ ← map_err (wrapping "unable to set up health check: %w") (call (CAddHealthzCheck "healthz" Ping));
  map_err (wrapping "unable to set up ready check: %w") (call (CAddReadyzCheck "readyz" (CachesSynced (2 * Second)))).

(** [controllerapp.Run] *)
Definition RunController (ctx : bool) : setup () :=
  _ ← guard_err (negb ctx) (fails "assertion failed: context must not be nil");
  s ← lift New;
  cfg ← call CGetConfig;
  mgr ← NewManager cfg s;
  _ ← SetupControllers mgr;
  _ ← SetupProbes;
  map_err (wrapping "problem running manager: %w") (call CStart).

(** *** allapp.go *)

Definition RunAll (ctx : bool) (coderRequestTimeout : Z) : setup () :=
  _ ← guard_err (negb ctx) (fails "assertion failed: context must not be nil");
  _ ← guard_err (coderRequestTimeout <? 0)%Z
        (Errorf "assertion failed: coder request timeout must not be negative: %s" [FInt coderRequestTimeout]);
  let requestTimeout := if Z.eqb coderRequestTimeout 0 then defaultCoderRequestTimeout else coderRequestTimeout in
  s ← lift New;
  cfg ← call CGetConfig;
  _ ← guard_err (negb cfg) (fails "assertion failed: config is nil after successful construction");
  mgr ← NewManager cfg s;
  _ ← SetupControllers mgr;
  _ ← SetupProbes;
  _ ← map_err (wrapping "add aggregated-apiserver runnable: %w") (call (CAddRunnable (AggregatedAPIServer requestTimeout)));
  _ ← map_err (wrapping "add mcp-http runnable: %w") (call (CAddRunnable MCPServer));
  call CStart.

Definition waitForCacheSync (ctx : bool) (mgr : manager) (runnableName : string) : setup () :=
  _ ← guard_err (negb ctx) (fails "assertion failed: context must not be nil");
  _ ← guard_err (String.eqb runnableName "") (fails "assertion failed: runnable name must not be empty");
  _ ← guard_err (negb (mgr_Cache mgr)) (fails "assertion failed: manager cache is nil");
  synced ← call (CWaitForCacheSync cacheSyncTimeout);
  guard_err (negb synced) (Errorf "cache did not sync within %s for %s" [FInt cacheSyncTimeout; FStr runnableName]).

(** [Start] of a runnable, with the manager that its function refers to. *)
Definition start_runnable (mgr : manager) (ctx : bool) (r : runnable) : setup () :=
  _ ← guard_err (negb ctx) (fails "assertion failed: context must not be nil");
  match r with
  | AggregatedAPIServer requestTimeout =>
      _ ← waitForCacheSync ctx mgr "aggregated-apiserver";
      _ ← guard_err (is_nil (mgr_Client mgr)) (fails "assertion failed: manager client is nil");
      _ ← guard_err (is_nil (mgr_APIReader mgr)) (fails "assertion failed: manager API reader is nil");
      provider ← map_err (wrapping "build control plane client provider: %w")
        (lift (NewControlPlaneClientProvider (mgr_Client mgr) (mgr_APIReader mgr) requestTimeout));
      call (CRunAggregatedAPIServer provider requestTimeout)
  | MCPServer =>
      _ ← waitForCacheSync ctx mgr "mcp-http";
      match mgr_Client mgr with
      | None => throw (fails "assertion failed: manager client is nil")
      | Some client =>
          _ ← guard_err (negb (mgr_Config mgr)) (fails "assertion failed: manager config is nil");
          clientset ← map_err (wrapping "build Kubernetes clientset: %w") (call CNewClientset);
          _ ← guard_err (negb clientset) (fails "assertion failed: Kubernetes clientset is nil after successful construction");
          call (CRunMCPHTTP client)
      end
  end.

(** * Properties *)

(** ** The order of the calls *)

(** What registers the controllers; [routes]: HTTPRoutes are served by the cluster. *)
Definition controller_calls (mgr : manager) (routes : bool) : list setup_call :=
  let client := negb (is_nil (mgr_Client mgr)) in
  [CIndexField KControlPlane Triggers.licenseSecretNameFieldIndex IndexByLicenseSecretName;
   CIndexField KControlPlane Triggers.envFromConfigMapNameFieldIndex IndexByEnvFromConfigMapName;
   CIndexField KControlPlane Triggers.envFromSecretNameFieldIndex IndexByEnvFromSecretName;
   CRESTMapping "gateway.networking.k8s.io" "v1" "HTTPRoute";
   CComplete (control_plane_registration routes (control_plane_reconciler mgr));
   CComplete (proxy_registration {| wpr_Client := client; wpr_Scheme := mgr_Scheme mgr; wpr_BootstrapClient := true |});
   CIndexField KProvisioner ProvisionerTriggers.provisionerControlPlaneRefNameFieldIndex IndexProvisionerByControlPlaneRefName;
   CComplete (provisioner_registration {| pvr_Client := client; pvr_Scheme := mgr_Scheme mgr; pvr_BootstrapClient := true |})].
Definition probe_calls : list setup_call := [CAddHealthzCheck "healthz" Ping; CAddReadyzCheck "readyz" (CachesSynced (2 * Second))].
(** The manager has a client and a scheme, and so every reconciler has all that it asks for. *)
Definition usable (mgr : manager) : Prop := is_Some (mgr_Client mgr) ∧ mgr_Scheme mgr = true.

Lemma in_order_setup_call c : in_order (just [c]) (call c).
Proof. apply in_order_issue. Qed.
Ltac in_order_call ::= match goal with |- in_order (just [?c]) _ => exact (in_order_setup_call c) end.

Lemma in_order_control_plane r :
  in_order (λ routes, [CIndexField KControlPlane Triggers.licenseSecretNameFieldIndex IndexByLicenseSecretName;
      CIndexField KControlPlane Triggers.envFromConfigMapNameFieldIndex IndexByEnvFromConfigMapName;
      CIndexField KControlPlane Triggers.envFromSecretNameFieldIndex IndexByEnvFromSecretName;
      CRESTMapping "gateway.networking.k8s.io" "v1" "HTTPRoute"; CComplete (control_plane_registration routes r)])
    (controlPlane_SetupWithManager true r).
Proof.
  unfold controlPlane_SetupWithManager, index. do 3 (apply in_order_silent; [in_order_step|intros _]).
  do 3 (apply (in_order_then [_] (λ routes : bool, _ :: _)); [in_order_step|intros _]).
  apply (in_order_then [_] (λ routes : bool, [_])); [apply in_order_attempt_issue|intros mapping].
  apply in_order_silent; [destruct mapping as [[]|err]; in_order_steps|intros routes].
  refine (in_order_mono (just [_]) _ (call _) (in_order_setup_call _) _). intros []. by exists routes.
Qed.
Lemma in_order_proxy r : in_order (just [CComplete (proxy_registration r)]) (workspaceProxy_SetupWithManager true r).
Proof. unfold workspaceProxy_SetupWithManager. in_order_steps. Qed.
Lemma in_order_provisioner r :
  in_order (just [CIndexField KProvisioner ProvisionerTriggers.provisionerControlPlaneRefNameFieldIndex IndexProvisionerByControlPlaneRefName;
    CComplete (provisioner_registration r)]) (provisioner_SetupWithManager true r).
Proof. unfold provisioner_SetupWithManager, index. in_order_steps. Qed.

Lemma in_order_controllers mgr : in_order (controller_calls mgr) (SetupControllers mgr).
Proof.
  unfold SetupControllers. do 2 (apply in_order_silent; [in_order_step|intros _]). cbv zeta.
  refine (in_order_mono _ _ _ (in_order_bind (λ routes, _) (just [_; _; _]) _ _ (in_order_map_err _ _ _ (in_order_control_plane _)) _) _).
  - intros _. apply (in_order_then [_] (just [_; _])); [apply in_order_map_err, in_order_proxy|intros _].
    apply in_order_map_err, in_order_provisioner.
  - intros [routes []]. by exists routes.
Qed.
Lemma in_order_probes : in_order (just probe_calls) SetupProbes.
Proof. unfold SetupProbes. in_order_steps. Qed.

(** *** The answers *)

Abbreviation setup_exchange := (exchange (reply := setup_reply)).
Definition route_mapping : setup_call := CRESTMapping "gateway.networking.k8s.io" "v1" "HTTPRoute".
(** The one error with which the start goes on: the cluster does not know HTTPRoutes. *)
Definition unserved (x : setup_exchange) : bool :=
  match x with
  | existT c o =>
      match c, o with
      | CRESTMapping _ _ _, Err err => IsNoMatchError err
      | _, _ => false
      end
  end.
Definition is_Ret {A} (o : result A) : bool := match o with Ret _ => true | _ => false end.
(** The control plane controller is registered for HTTPRoutes exactly if they were
    found to be served. *)
Definition routes_as_served (x : list setup_exchange) : Prop := ∀ routes r o,
  existT (CComplete (control_plane_registration routes r)) o ∈ x →
  ∃ answer : outcome goerror (), existT route_mapping answer ∈ x ∧
    routes = is_Ret answer.

#[global] Instance routes_closed : Closed routes_as_served.
Proof.
  split.
  - intros routes r o H. by apply elem_of_nil in H.
  - intros x y Hx Hy routes r o [H|H]%elem_of_app; [destruct (Hx _ _ _ H) as (a & Ha & E)|destruct (Hy _ _ _ H) as (a & Ha & E)];
      exists a; (split; [apply elem_of_app; auto|exact E]).
Qed.

Abbreviation strict_setup := (strict (reply := setup_reply) env unserved routes_as_served).
Lemma strict_setup_call c : (∀ routes r, c ≠ CComplete (control_plane_registration routes r)) → strict_setup (call c).
Proof.
  intros Hc. apply (strict_issue env). intros o routes r o' H%list_elem_of_singleton. destruct (Hc routes r).
  exact (eq_sym (f_equal (projT1 (P := λ c, outcome goerror (setup_reply c))) H)).
Qed.
Definition registered_name (c : setup_call) : string := match c with CComplete g => reg_Name g | _ => "" end.
Ltac strict_call ::=
  match goal with
  | |- strict _ _ _ (call ?c) =>
      apply (strict_setup_call c); let H := fresh in intros ? ? H; apply (f_equal registered_name) in H; discriminate H
  end.

(** Registrations with or without HTTPRoutes. *)
Definition registers (b : bool) (x : list setup_exchange) : Prop := ∀ routes r o,
  existT (CComplete (control_plane_registration routes r)) o ∈ x → routes = b.
#[global] Instance registers_closed b : Closed (registers b).
Proof.
  split; [intros routes r o H; by apply elem_of_nil in H|].
  intros x y Hx Hy routes r o [H|H]%elem_of_app; [by eapply Hx|by eapply Hy].
Qed.
Lemma mapping_not_complete routes r : route_mapping ≠ CComplete (control_plane_registration routes r).
Proof. discriminate. Qed.
Lemma control_plane_registration_inj b b' r r' :
  control_plane_registration b r = control_plane_registration b' r' → b = b'.
Proof. unfold control_plane_registration. intros H. injection H as H _. by destruct b, b'. Qed.

Lemma strict_complete b r :
  strict (reply := setup_reply) env unserved (registers b) (call (CComplete (control_plane_registration b r))).
Proof.
  apply (strict_issue env). intros o routes r' o' H. apply list_elem_of_singleton in H.
  apply (f_equal (projT1 (P := λ c, outcome goerror (setup_reply c)))) in H.
  assert (control_plane_registration routes r' = control_plane_registration b r) as Hr by (cbn in H; congruence).
  by apply control_plane_registration_inj in Hr.
Qed.

Lemma strict_control_plane r : strict_setup (controlPlane_SetupWithManager true r).
Proof.
  unfold controlPlane_SetupWithManager, index.
  do 6 (apply strict_bind; [apply _|strict_steps|intros _]).
  refine (strict_attempt_bind env unserved route_mapping _ _ (λ answer, registers (is_Ret answer)) _ _ _ _ _).
  - intros o routes r' o' H. apply list_elem_of_singleton in H. exfalso.
    exact (mapping_not_complete _ _ (eq_sym (f_equal (projT1 (P := λ c, outcome goerror (setup_reply c))) H))).
  - intros o y Hy routes r' o' Hin. apply elem_of_cons in Hin as [Heq|Hin].
    + exfalso. exact (mapping_not_complete _ _ (eq_sym (f_equal (projT1 (P := λ c, outcome goerror (setup_reply c))) Heq))).
    + exists o. split; [by left|by eapply Hy].
  - intros u. exact (strict_complete true r).
  - intros e He. cbn in He. cbn [is_Ret]. rewrite He. exact (strict_complete false r).
  - intros e s He. cbn in He. unfold mbind, M_bind, guard_err, lift, fail_if. rewrite He. cbn [negb]. by eexists.
Qed.

Lemma strict_controllers mgr : strict_setup (SetupControllers mgr).
Proof.
  unfold SetupControllers. do 2 (apply strict_bind; [apply _|strict_steps|intros _]). cbv zeta.
  apply strict_bind; [apply _|apply strict_map_err, strict_control_plane|intros _].
  apply strict_bind; [apply _|apply strict_map_err|intros _; apply strict_map_err].
  - unfold workspaceProxy_SetupWithManager. strict_steps.
  - unfold provisioner_SetupWithManager, index. strict_steps.
Qed.
Lemma strict_probes : strict_setup SetupProbes.
Proof. unfold SetupProbes. strict_steps. Qed.
Lemma strict_manager cfg s : strict_setup (NewManager cfg s).
Proof. unfold NewManager. strict_steps. Qed.

Lemma strict_controller ctx : strict_setup (RunController ctx).
Proof.
  unfold RunController. do 3 (apply strict_bind; [apply _|strict_steps|intros ?]).
  apply strict_bind; [apply _|apply strict_manager|intros mgr].
  apply strict_bind; [apply _|apply strict_controllers|intros _].
  apply strict_bind; [apply _|apply strict_probes|intros _]. strict_steps.
Qed.
Lemma strict_all ctx t : strict_setup (RunAll ctx t).
Proof.
  unfold RunAll. do 2 (apply strict_bind; [apply _|strict_steps|intros _]). cbv zeta.
  do 3 (apply strict_bind; [apply _|strict_steps|intros ?]).
  apply strict_bind; [apply _|apply strict_manager|intros mgr].
  apply strict_bind; [apply _|apply strict_controllers|intros _].
  apply strict_bind; [apply _|apply strict_probes|intros _]. strict_steps.
Qed.

(** A manager that is not usable gets no controller. *)
Lemma SetupControllers_unusable mgr s : ¬ usable mgr → ∃ e, SetupControllers mgr s = (Err e, s).
Proof.
  unfold SetupControllers, usable, mbind, M_bind, guard_err, lift, fail_if. intros Hu.
  destruct (mgr_Client mgr) as [c|]; cbn; [|by eexists]. destruct (mgr_Scheme mgr); [|by eexists].
  destruct Hu. by split.
Qed.

(** What a process does: the configuration, the manager, and with it, if it is
    usable, the controllers, the probes and [rest]. *)
Definition process (rest : list setup_call) (l : list setup_call) (o : result ()) : Prop :=
  let manager_call := CNewManager (manager_options_of sharedscheme_groups) in
  l `prefix_of` [CGetConfig; manager_call] ∧ (∀ a, o ≠ Ret a) ∨
  ∃ mgr routes, answered (reply := setup_reply) env manager_call (Some mgr) ∧ usable mgr ∧
    let all := [CGetConfig; manager_call] ++ controller_calls mgr routes ++ probe_calls ++ rest in
    l `prefix_of` all ∧ (o = Ret () → l = all).

Lemma runs_NewManager {A} cfg s (f : manager → setup A) R :
  (∀ o, (∀ a, o ≠ Ret a) → R [] o) → (∀ o, (∀ a, o ≠ Ret a) → R [CNewManager (manager_options_of s)] o) →
  (∀ mgr, answered (reply := setup_reply) env (CNewManager (manager_options_of s)) (Some mgr) →
     runs (f mgr) (λ l, R (CNewManager (manager_options_of s) :: l))) →
  runs (NewManager cfg s ≫= f) R.
Proof.
  intros H0 H1 Hf. apply (runs_bind _ _ (λ l o, match o with
    | Ret mgr => l = [CNewManager (manager_options_of s)] ∧ answered (reply := setup_reply) env (CNewManager (manager_options_of s)) (Some mgr)
    | _ => l = [] ∨ l = [CNewManager (manager_options_of s)] end)).
  - unfold NewManager. apply runs_guard_bind; [by left|intros _].
    apply (runs_call_bind env (CNewManager (manager_options_of s))).
    + apply calls_once_map_err, calls_once_issue.
    + intros [mgr|] Hm; [by apply runs_ret|apply runs_throw; by right].
    + by right.
    + by right.
  - intros l mgr [-> Hm]. by apply Hf.
  - intros l e [->| ->]; [by apply H0|by apply H1].
  - intros l e [->| ->]; [by apply H0|by apply H1].
Qed.

#[local] Instance usable_dec mgr : Decision (usable mgr).
Proof. unfold usable. apply _. Defined.

Lemma runs_process mgr rest (m : setup ()) :
  in_order (just rest) m → answered (reply := setup_reply) env (CNewManager (manager_options_of sharedscheme_groups)) (Some mgr) →
  runs (_ ← SetupControllers mgr; _ ← SetupProbes; m)
    (λ l o, process rest (CGetConfig :: CNewManager (manager_options_of sharedscheme_groups) :: l) o).
Proof.
  intros Hm Hans. destruct (decide (usable mgr)) as [Hu|Hu].
  - assert (in_order (λ routes, controller_calls mgr routes ++ probe_calls ++ rest) (_ ← SetupControllers mgr; _ ← SetupProbes; m)) as Hrun.
    { refine (in_order_mono _ _ _ (in_order_bind (controller_calls mgr) (just (probe_calls ++ rest)) _ _ (in_order_controllers mgr) _) _).
      - intros _. apply (in_order_then probe_calls (just rest)); [apply in_order_probes|done].
      - intros [routes []]. by exists routes. }
    apply (runs_mono _ _ _ Hrun). intros l o (routes & Hp & Ho). right. exists mgr, routes. split; [done|]. split; [done|].
    split; [by apply (prefix_app [_; _])|]. intros ->. by rewrite (Ho tt).
  - intros s. destruct (SetupControllers_unusable mgr s Hu) as [e He]. unfold mbind, M_bind. rewrite He.
    exists []. split; [unfold sends; by rewrite app_nil_r|]. by left.
Qed.

Lemma New_Ret s : New = Ret s → s = sharedscheme_groups.
Proof. unfold New. by intros (_ & _ & [= <-])%outcome_bind_Ret. Qed.

Lemma run_controller_process ctx : runs (RunController ctx) (process [CStart]).
Proof.
  unfold RunController. apply runs_guard_bind; [left; split; [apply prefix_nil|done]|intros _].
  apply runs_lift_bind; [|intros; left; (split; [apply prefix_nil|done])..]. intros s ->%New_Ret.
  apply (runs_call_bind env CGetConfig); [apply calls_once_issue| |intros; left; (split; [by exists [CNewManager (manager_options_of sharedscheme_groups)]|done])..].
  intros cfg _. apply runs_NewManager.
  - intros o Ho. left. split; [by exists [CNewManager (manager_options_of sharedscheme_groups)]|done].
  - intros o Ho. left. by split.
  - intros mgr Hans. apply runs_process; [|done]. in_order_steps.
Qed.
Definition all_runnables (coderRequestTimeout : Z) : list setup_call :=
  [CAddRunnable (AggregatedAPIServer (if Z.eqb coderRequestTimeout 0 then defaultCoderRequestTimeout else coderRequestTimeout));
   CAddRunnable MCPServer; CStart].
Lemma run_all_process ctx t : runs (RunAll ctx t) (process (all_runnables t)).
Proof.
  unfold RunAll. apply runs_guard_bind; [left; split; [apply prefix_nil|done]|intros _].
  apply runs_guard_bind; [left; split; [apply prefix_nil|done]|intros _]. cbv zeta.
  apply runs_lift_bind; [|intros; left; (split; [apply prefix_nil|done])..]. intros s ->%New_Ret.
  apply (runs_call_bind env CGetConfig); [apply calls_once_issue| |intros; left; (split; [by exists [CNewManager (manager_options_of sharedscheme_groups)]|done])..].
  intros cfg _. apply runs_guard_bind; [left; (split; [by exists [CNewManager (manager_options_of sharedscheme_groups)]|done])|intros _].
  apply runs_NewManager.
  - intros o Ho. left. split; [by exists [CNewManager (manager_options_of sharedscheme_groups)]|done].
  - intros o Ho. left. by split.
  - intros mgr Hans. apply runs_process; [|done]. unfold all_runnables. in_order_steps.
Qed.

(** The calls of a process with their answers: those of [process], up to the first
    that fails, and HTTPRoutes as the cluster answered about them. *)
Definition process_run (rest : list setup_call) (x : list setup_exchange) (o : result ()) : Prop :=
  process rest (asked x) o ∧ straight unserved x o ∧ routes_as_served x.
Lemma run_controller_says ctx : says env (RunController ctx) (process_run [CStart]).
Proof. exact (says_runs env unserved routes_as_served _ _ (run_controller_process ctx) (strict_controller ctx)). Qed.
Lemma run_all_says ctx t : says env (RunAll ctx t) (process_run (all_runnables t)).
Proof. exact (says_runs env unserved routes_as_served _ _ (run_all_process ctx t) (strict_all ctx t)). Qed.

Lemma election_namespace : detectLeaderElectionNamespace ≠ "" ∧
  trim_space (detectLeaderElectionNamespace) = detectLeaderElectionNamespace.
Proof.
  unfold detectLeaderElectionNamespace. cbv zeta.
  destruct (String.eqb_spec (trim_space (getenv "POD_NAMESPACE")) "") as [_|H]; cbn [negb]; [|by rewrite trim_space_idem].
  destruct (ReadFile inClusterNamespacePath) as [data|e|e]; [|done..].
  destruct (String.eqb_spec (trim_space data) "") as [_|H]; cbn [negb]; [done|by rewrite trim_space_idem].
Qed.

(** ** Success *)

(** The cluster answers: the configuration and a usable manager are there, the caches
    are synced, and HTTPRoutes are served or known not to be. *)
Definition there (c : setup_call) : setup_reply c → Prop :=
  match c with
  | CGetConfig | CWaitForCacheSync _ | CNewClientset => λ r, r = true
  | CNewManager _ => λ r, ∃ mgr, r = Some mgr ∧ usable mgr
  | _ => λ _, True
  end.
Definition cluster_answers : Prop := ∀ c w,
  (∃ r w', env c w = (Ret r, w') ∧ there c r) ∨
  ∃ group version kind err w', c = CRESTMapping group version kind ∧ env c w = (Err err, w') ∧ IsNoMatchError err = true.

Section answering.
Context (Henv : cluster_answers) (Hscheme : ∀ group, AddToScheme group = Ret tt).

Lemma succeeds_call c : (∀ g v k, c ≠ CRESTMapping g v k) → succeeds (call c) (there c).
Proof.
  intros Hc. apply succeeds_issue. intros w. destruct (Henv c w) as [H|(g & v & k & err & w' & -> & _)]; [done|by destruct (Hc g v k)].
Qed.
Lemma succeeds_mapping g v k :
  succeeds (attempt (call (CRESTMapping g v k))) (λ r, match r with inl _ => True | inr err => IsNoMatchError err = true end).
Proof.
  intros s. unfold attempt, call, issue.
  destruct (Henv (CRESTMapping g v k) (c_world s)) as [(r & w' & -> & _)|(g' & v' & k' & err & w' & [= -> -> ->] & -> & Hn)]; by eexists _, _.
Qed.
Lemma New_ok : New = Ret sharedscheme_groups.
Proof. unfold New. cbn. by rewrite !Hscheme. Qed.

Ltac succeeds_call ::= match goal with |- succeeds (call ?c) _ => refine (succeeds_call c _); congruence end.

Lemma succeeds_control_plane r :
  hasClient r = true → hasScheme r = true → succeeds (controlPlane_SetupWithManager true r) (λ _, True).
Proof.
  intros Hc Hs. unfold controlPlane_SetupWithManager, index. rewrite Hc, Hs. cbn [negb]. succeeds_steps.
  eapply succeeds_bind; [apply succeeds_mapping|intros [[]|err] Herr]; cbn beta iota.
  - succeeds_steps. succeeds_step.
  - rewrite Herr. cbn [negb]. eapply (succeeds_bind _ _ (λ _, True)); [succeeds_steps; by apply succeeds_ret|intros routes _].
    succeeds_step.
Qed.
Lemma succeeds_controllers mgr : usable mgr → succeeds (SetupControllers mgr) (λ _, True).
Proof.
  intros [[c Hc] Hs]. unfold SetupControllers. rewrite Hc, Hs. cbn [is_nil negb]. cbv zeta. succeeds_steps.
  eapply succeeds_bind; [apply succeeds_map_err, succeeds_control_plane; cbn; by rewrite ?Hc|intros _ _].
  eapply (succeeds_bind _ _ (λ _, True)).
  { apply succeeds_map_err. unfold workspaceProxy_SetupWithManager. cbn [wpr_Client wpr_Scheme negb]. succeeds_steps. succeeds_step. }
  intros _ _. apply succeeds_map_err. unfold provisioner_SetupWithManager, index. cbn [pvr_Client pvr_Scheme pvr_BootstrapClient negb].
  succeeds_steps. succeeds_step.
Qed.
Lemma succeeds_all t : (0 ≤ t)%Z → succeeds (RunAll true t) (λ _, True).
Proof.
  intros Ht. unfold RunAll. cbn [negb]. rewrite (proj2 (Z.ltb_ge _ _) Ht). cbv zeta. rewrite New_ok. succeeds_steps.
  cbn [there] in *. subst. cbn [negb]. succeeds_steps.
  eapply (succeeds_bind _ _ usable).
  { unfold NewManager. cbn [negb]. succeeds_steps.
    match goal with H : there (CNewManager _) _ |- _ => destruct H as (mgr & -> & Hu) end. by apply succeeds_ret. }
  intros mgr Hu. eapply succeeds_bind; [by apply succeeds_controllers|intros _ _].
  eapply (succeeds_bind _ _ (λ _, True)); [unfold SetupProbes; succeeds_steps; succeeds_step|intros _ _].
  succeeds_steps. succeeds_step.
Qed.
End answering.

(** ** The runnables *)

(** A server is run with what the manager has, and only once its caches are synced. *)
Definition runnable_run (mgr : manager) (r : runnable) (l : list setup_call) : Prop :=
  (∃ serving, l `prefix_of` CWaitForCacheSync cacheSyncTimeout :: serving) ∧
  (∀ provider t, CRunAggregatedAPIServer provider t ∈ l →
     r = AggregatedAPIServer t ∧ answered (reply := setup_reply) env (CWaitForCacheSync cacheSyncTimeout) true ∧
     NewControlPlaneClientProvider (mgr_Client mgr) (mgr_APIReader mgr) t = Ret provider) ∧
  (∀ client, CRunMCPHTTP client ∈ l →
     r = MCPServer ∧ answered (reply := setup_reply) env (CWaitForCacheSync cacheSyncTimeout) true ∧ mgr_Client mgr = Some client).

Lemma runs_wait {A} ctx mgr name (f : () → setup A) R :
  (∀ o, (∀ a, o ≠ Ret a) → R [] o) → (∀ o, (∀ a, o ≠ Ret a) → R [CWaitForCacheSync cacheSyncTimeout] o) →
  (answered (reply := setup_reply) env (CWaitForCacheSync cacheSyncTimeout) true →
     runs (f tt) (λ l, R (CWaitForCacheSync cacheSyncTimeout :: l))) →
  runs (waitForCacheSync ctx mgr name ≫= f) R.
Proof.
  intros H0 H1 Hf. apply (runs_bind _ _ (λ l o, match o with
    | Ret _ => l = [CWaitForCacheSync cacheSyncTimeout] ∧ answered (reply := setup_reply) env (CWaitForCacheSync cacheSyncTimeout) true
    | _ => l = [] ∨ l = [CWaitForCacheSync cacheSyncTimeout] end)).
  - unfold waitForCacheSync. do 3 (apply runs_guard_bind; [by left|intros _]).
    apply (runs_call_bind env (CWaitForCacheSync cacheSyncTimeout)); [apply calls_once_issue| |by right..].
    intros synced Hs. apply runs_lift. cbn in synced. destruct synced; cbn; [by split|by right].
  - intros l [] [-> Hs]. by apply Hf.
  - intros l e [->| ->]; [by apply H0|by apply H1].
  - intros l e [->| ->]; [by apply H0|by apply H1].
Qed.
(** A run that has not come to a server. *)
Lemma runnable_run_before mgr r l :
  l `prefix_of` [CWaitForCacheSync cacheSyncTimeout; CNewClientset] → runnable_run mgr r l.
Proof.
  intros Hl. split; [by eexists|]. split; intros x; [intros t|]; intros Hin;
    apply (elem_of_prefix _ _ _ Hin) in Hl; by rewrite !elem_of_cons, elem_of_nil in Hl; destruct Hl as [|[|]].
Qed.
Lemma before_nil : [] `prefix_of` [CWaitForCacheSync cacheSyncTimeout; CNewClientset].
Proof. apply prefix_nil. Qed.
Lemma before_wait : [CWaitForCacheSync cacheSyncTimeout] `prefix_of` [CWaitForCacheSync cacheSyncTimeout; CNewClientset].
Proof. by exists [CNewClientset]. Qed.
#[local] Hint Resolve runnable_run_before before_nil before_wait : core.

Lemma run_runnable mgr ctx r : runs (start_runnable mgr ctx r) (λ l _, runnable_run mgr r l).
Proof.
  unfold start_runnable. apply runs_guard_bind; [by auto|intros _]. destruct r as [t|].
  - apply runs_wait; [by auto..|intros Hs]. do 2 (apply runs_guard_bind; [by auto|intros _]).
    apply (runs_bind _ _ (λ l o, l = [] ∧ ∀ p, o = Ret p → NewControlPlaneClientProvider (mgr_Client mgr) (mgr_APIReader mgr) t = Ret p)).
    + apply runs_map_err, runs_lift. destruct (NewControlPlaneClientProvider _ _ _); (split; [done|]); intros p Hp; by simplify_eq.
    + intros l p [-> Hp]. refine (runs_mono _ _ _ (calls_once_issue env (CRunAggregatedAPIServer p t)) _). intros l o [-> _]. split; [by eexists|]. split.
      * intros p' t' [[=]|[= -> ->]%list_elem_of_singleton]%elem_of_cons. by auto.
      * by intros c [[=]|[=]%list_elem_of_singleton]%elem_of_cons.
    + intros l e [-> _]. by auto.
    + intros l e [-> _]. by auto.
  - apply runs_wait; [by auto..|intros Hs]. destruct (mgr_Client mgr) as [client|] eqn:Hc; [|apply runs_throw; by auto].
    apply runs_guard_bind; [by auto|intros _].
    apply (runs_call_bind env CNewClientset); [apply calls_once_map_err, calls_once_issue| |by auto..].
    intros cs _. apply runs_guard_bind; [by auto|intros _].
    refine (runs_mono _ _ _ (calls_once_issue env (CRunMCPHTTP client)) _). intros l o [-> _]. split; [by eexists|]. split.
    + by intros p' t' [[=]|[[=]|[=]%list_elem_of_singleton]%elem_of_cons]%elem_of_cons.
    + intros c [[=]|[[=]|[= ->]%list_elem_of_singleton]%elem_of_cons]%elem_of_cons. by rewrite Hc.
Qed.
End setup.
#[global] Arguments manager : clear implicits.
#[global] Arguments setup_call : clear implicits.

(** C19: starting a process.  In mode "all" and in mode "controller" the calls into
    controller-runtime are made in one order: configuration, manager (with leader
    election in a namespace that is never blank), the three controllers with their
    indexes, the probes, in mode "all" the aggregated API server and the MCP server,
    and the start as the last ([process]).  The first call that is answered with an
    error is the last one, and then the process fails; the only error it survives is
    that of a cluster that does not know HTTPRoutes ([straight], [unserved]), and the
    control plane controller is registered for them exactly if they were found to be
    served ([routes_as_served]).  Controllers are only registered, each with all its
    collaborators, on a manager with a client and a scheme.  In mode "all" a negative
    timeout starts nothing, and when the cluster answers, with or without the Gateway
    API, everything is started. *)
Theorem process_start_up_contract {V W} (env : ∀ c : setup_call V, M W goerror (setup_reply c))
    (getenv : string → string) (ReadFile : string → result string) (AddToScheme : string → result ()) (ctx : bool) (t : Z) :
  says env (RunController env getenv ReadFile AddToScheme ctx) (process_run env getenv ReadFile [CStart]) ∧
  says env (RunAll env getenv ReadFile AddToScheme ctx t) (process_run env getenv ReadFile (all_runnables t)) ∧
  ((t < 0)%Z → runs (RunAll env getenv ReadFile AddToScheme ctx t) (λ l o, l = [] ∧ ∀ a, o ≠ Ret a)) ∧
  (detectLeaderElectionNamespace getenv ReadFile ≠ "" ∧
   trim_space (detectLeaderElectionNamespace getenv ReadFile) = detectLeaderElectionNamespace getenv ReadFile) ∧
  ((0 ≤ t)%Z → ctx = true → cluster_answers env → (∀ group, AddToScheme group = Ret tt) →
     ∀ s, ∃ s' mgr routes, RunAll env getenv ReadFile AddToScheme ctx t s = (Ret tt, s') ∧ usable mgr ∧
       sends ([CGetConfig; CNewManager (manager_options_of getenv ReadFile sharedscheme_groups)] ++
              controller_calls mgr routes ++ probe_calls ++ all_runnables t) s s').
Proof.
  split; [apply run_controller_says|]. split; [apply run_all_says|]. split; [|split; [apply election_namespace|]].
  - intros Ht. unfold RunAll. apply runs_guard_bind; [done|intros _]. apply runs_guard_bind; [done|intros H%Z.ltb_ge; lia].
  - intros Ht -> Henv Hscheme s.
    destruct (succeeds_all env getenv ReadFile AddToScheme Henv Hscheme t Ht s) as ([] & s' & E & _).
    pose proof (run_all_process env getenv ReadFile AddToScheme true t s) as H. rewrite E in H.
    destruct H as (l & Hl & [[_ Hno]|(mgr & routes & _ & Hu & _ & Ho)]); [by destruct (Hno tt)|].
    exists s', mgr, routes. split; [done|]. split; [done|]. by rewrite <-(Ho eq_refl).
Qed.

(** The options with which a runnable starts the aggregated API server. *)
Definition all_mode_options {V} (url_Parse : string → result url) (range : gmap string Z → list (string * Z))
    (provider : ControlPlaneClientProvider V) (t : Z) : ApiServer.server_options V := {|
  ApiServer.so_SecureServingPort := 0; ApiServer.so_Listener := false;
  ApiServer.so_Options := {| opt_CoderURL := ""; opt_CoderSessionToken := ""; opt_CoderNamespace := ""; opt_CoderRequestTimeout := t |};
  ApiServer.so_ClientProvider := Some (cp_provider url_Parse range provider) |}.

(** the servers of mode "all" wait for the manager: neither is run before the
    manager's caches are known to be synced, and each with the manager's own client.
    The aggregated API server gets the provider that finds the control planes of a
    namespace, and its options are accepted whatever the timeout that mode "all" has
    let through, so that nothing of the configuration of the process can make it refuse
    to start. *)
Theorem runnables_serve_synced {V W} (env : ∀ c : setup_call V, M W goerror (setup_reply c)) (mgr : manager V)
    (ctx : bool) (r : runnable) (url_Parse : string → result url) (register : string → result ())
    (range : gmap string Z → list (string * Z)) :
  NeedLeaderElection r = false ∧
  runs (start_runnable env mgr ctx r) (λ l _, runnable_run env mgr r l ∧
    ∀ provider t scheme, CRunAggregatedAPIServer provider t ∈ l → ApiServer.NewScheme register = Ret scheme →
      requestTimeout provider = t ∧
      ApiServer.accepted url_Parse register true (all_mode_options url_Parse range provider t)
        (cp_provider url_Parse range provider) scheme).
Proof.
  split; [done|]. eapply runs_mono; [apply run_runnable|]. intros l o Hl. split; [exact Hl|].
  intros provider t scheme Hin Hs. destruct Hl as (_ & Hagg & _). destruct (Hagg _ _ Hin) as (_ & _ & Hp).
  unfold NewControlPlaneClientProvider in Hp.
  apply outcome_bind_Ret in Hp as ([] & _ & ([] & _ & ([] & Ht & [= <-])%outcome_bind_Ret)%outcome_bind_Ret).
  apply fail_if_Ret, Z.ltb_ge in Ht. split; [done|]. by repeat split.
Qed.

Module ToyCluster.
Definition reader : cp_reader () := λ _ w, (Ret [], w).
Definition cluster : manager () := {|
  mgr_Client := Some reader; mgr_APIReader := None; mgr_Scheme := true; mgr_Cache := true; mgr_Config := true |}.
(** A cluster without the Gateway API. *)
Definition env (c : setup_call ()) : M () goerror (setup_reply c) := λ w,
  (match c return outcome goerror (setup_reply c) with
   | CGetConfig | CWaitForCacheSync _ | CNewClientset => Ret true
   | CNewManager _ => Ret (Some cluster)
   | CRESTMapping _ _ _ => Err (NoMatchErr "no matches for kind")
   | _ => Ret tt
   end, w).
Definition getenv (_ : string) := "".
Definition file (_ : string) : result string := Ret ("coder-system" +:+ String "010" "").
Definition add (_ : string) : result () := Ret tt.
End ToyCluster.
Theorem process_start_up_contract_witness :
  (∃ s', RunAll ToyCluster.env ToyCluster.getenv ToyCluster.file ToyCluster.add true 0 (CSt () []) = (Ret tt, s') ∧
     length (c_calls s') = 15%nat) ∧
  trim_space (detectLeaderElectionNamespace ToyCluster.getenv ToyCluster.file) = "coder-system".
Proof.
  destruct (process_start_up_contract ToyCluster.env ToyCluster.getenv ToyCluster.file ToyCluster.add true 0)
    as (_ & _ & _ & [_ Hns] & Hok). split; [|rewrite Hns; vm_compute; reflexivity].
  destruct (Hok ltac:(lia) eq_refl) with (s := CSt () ([] : list (setup_call ()))) as (s' & mgr & routes & E & _ & Hl).
  - intros [] w; first
      [ left; eexists _, w; split; [reflexivity|];
        first [exact I|reflexivity|exists ToyCluster.cluster; split; [reflexivity|split; [by eexists|reflexivity]]]
      | right; eexists _, _, _, _, w; split; [reflexivity|split; reflexivity] ].
  - done.
  - exists s'. split; [exact E|]. unfold sends in Hl. rewrite Hl. reflexivity.
Defined.
End Setup.
