(* ===== verification/Drift.v ===== *)
(** * Drift: what the controllers write, they watch

    The event handlers that controller-runtime installs for the registrations of
    [Setup] (vendored, pkg/handler/enqueue.go and enqueue_owner.go, with
    OnlyControllerOwner), put together with the calls of the three reconcilers: a
    change of an object that a reconciliation has written asks for that
    reconciliation again, or the object is polled. *)

From S2P Require Import Prelude GoStd GoErrors ApiTypes Examples KubeObjects Kube ControlPlaneNames ControlPlaneStatus OperatorAccess ServiceAccounts WorkspaceRBAC Workload Exposure ControlPlane SteadyState Provisioner ProvisionerReconcile WorkspaceProxy Calls Setup.

#[local] Open Scope string_scope.
#[local] Open Scope list_scope.

Module Drift.
Import ControlPlaneNames ControlPlaneStatus OperatorAccess ServiceAccounts WorkspaceRBAC Workload Exposure SteadyState Calls Setup.

(** ** The event handlers *)

#[global] Instance kind_eq_dec : EqDecision kind.
Proof. solve_decision. Defined.

(** The group and kind of the type that a controller is [For]. *)
Definition ownerGroup := "coder.com".
Definition owner_kind (k : kind) : string :=
  match k with
  | KControlPlane => controlPlaneKind
  | KProvisioner => Provisioner.provisionerKind
  | KWorkspaceProxy => WorkspaceProxy.workspaceProxyKind
  | _ => ""
  end.

Section handlers.
(** The scope of a kind as the REST mapper knows it: whether it is namespaced. *)
Context (RESTMapping : string → string → option bool).

(** Events of an object of a type the controller [Owns]. *)
Definition getOwnerReconcileRequest (group kind : string) (m : ObjectMeta) : list object_key :=
  match GetControllerOf m with
  | None => []
  | Some ref =>
      match group_of (or_APIVersion ref) with
      | Ret g =>
          if String.eqb (or_Kind ref) kind && String.eqb g group then
            match RESTMapping (or_APIVersion ref) kind with
            | None => []
            | Some namespaced => [(if namespaced then Namespace m else "", or_Name ref)]
            end
          else []
      | _ => []
      end
  end.
(** The requests for an event of an object, besides those of [Watches]. *)
Definition requests (reg : registration) (k : kind) (m : ObjectMeta) : list object_key :=
  (if decide (k = reg_For reg) then [key_of m] else []) ++
  (if decide (k ∈ reg_Owns reg) then getOwnerReconcileRequest ownerGroup (owner_kind (reg_For reg)) m else []).

(** * Properties *)

(** The kind and the metadata of an object that a call creates or updates. *)
Definition put (a : action) : option (kind * ObjectMeta) :=
  match a with ACreate k o | AUpdate k o => Some (k, meta k o) | _ => None end.

Lemma written_put k init f a k' m :
  written k init f a → put a = Some (k', m) →
  k' = k ∧ ∃ base o, f base = Ret o ∧ m = meta k o ∧ key_of m = key_of (meta k init).
Proof. intros [|o Hf Hk|base o Hf Hk]; cbn; [done|..]; intros [= <- <-]; (split; [done|]); by eexists _, o. Qed.

(** An object is requested through its controller, in its namespace. *)
Lemma requested_by_controller reg k m owner :
  RESTMapping controlPlaneAPIVersion (owner_kind (reg_For reg)) = Some true →
  (∃ ref, GetControllerOf m = Some ref ∧ or_APIVersion ref = controlPlaneAPIVersion ∧
     or_Kind ref = owner_kind (reg_For reg) ∧ or_Name ref = Name owner) →
  Namespace m = Namespace owner → k ∈ reg_Owns reg → key_of owner ∈ requests reg k m.
Proof.
  intros Hmap (ref & Hc & Hv & Hk & Hn) Hns Hin. unfold requests. apply elem_of_app. right. rewrite decide_True by done.
  unfold getOwnerReconcileRequest. rewrite Hc, Hv, Hk, String.eqb_refl. cbn [group_of].
  change (group_of controlPlaneAPIVersion) with (Ret "coder.com" : result string). cbv iota. cbn [andb String.eqb].
  rewrite Hmap. apply list_elem_of_singleton. unfold key_of. by rewrite Hn, Hns.
Qed.
Lemma requested_by_reference reg k m0 m owner :
  RESTMapping controlPlaneAPIVersion (owner_kind (reg_For reg)) = Some true →
  SetControllerReference controlPlaneAPIVersion (owner_kind (reg_For reg)) owner m0 = Ret m →
  Namespace m = Namespace owner → k ∈ reg_Owns reg → key_of owner ∈ requests reg k m.
Proof.
  intros Hmap (Hc & _)%SetControllerReference_owner. apply requested_by_controller; [done|].
  eexists. by split; [exact Hc|].
Qed.
Lemma requested_by_owned reg k m cp :
  reg_For reg = KControlPlane → RESTMapping controlPlaneAPIVersion controlPlaneKind = Some true →
  isOwnedByCoderControlPlane m cp = true → Namespace m = Namespace (cp_meta cp) → k ∈ reg_Owns reg →
  key_of (cp_meta cp) ∈ requests reg k m.
Proof.
  intros Hfor Hmap Ho. apply requested_by_controller; rewrite Hfor; [done|]. unfold isOwnedByCoderControlPlane in Ho.
  destruct (GetControllerOf m) as [ref|]; [|done]. exists ref. split; [done|].
  apply andb_true_iff in Ho as [[[->%String.eqb_eq ->%String.eqb_eq]%andb_true_iff ->%String.eqb_eq]%andb_true_iff _]. done.
Qed.

(** ** The control plane *)

Lemma key_namespace m ns name : key_of m = (ns, name) → Namespace m = ns.
Proof. by intros [= -> _]. Qed.

Lemma mutation_owned cp k init f base o routes r :
  mutation cp k init f → f base = Ret o → key_of (meta k o) = key_of (meta k init) → k ≠ KRole → k ≠ KRoleBinding →
  isOwnedByCoderControlPlane (meta k o) cp = true ∧ Namespace (meta k o) = Namespace (cp_meta cp) ∧
  (k ∈ reg_Owns (control_plane_registration routes r) ∨ k = KHTTPRoute ∧ routes = false).
Proof.
  intros Hm Hf Hkey Hr Hb. split; [|split].
  - destruct Hm; cbn [meta]; [| |done|done|..].
    + unfold token_secret in Hf. by apply outcome_bind_Ret in Hf as (m & (Ho & _)%owned_by_spec & [= <-]).
    + unfold service_account in Hf. by apply outcome_bind_Ret in Hf as (m & (Ho & _)%owned_by_spec & [= <-]).
    + unfold desired_deployment in Hf. cbv zeta in Hf. apply outcome_bind_Ret in Hf as (m & (Ho & _)%owned_by_spec & Hrest).
      destruct o as [m' reps sel tpl other ready].
      assert (m' = m) as -> by (repeat (apply outcome_bind_Ret in Hrest as (? & _ & Hrest)); by injection Hrest). done.
    + unfold desired_service in Hf. by apply outcome_bind_Ret in Hf as (m & (Ho & _)%owned_by_spec & [= <-]).
    + unfold desired_ingress in Hf. apply outcome_bind_Ret in Hf as (tls & _ & Hf).
      by apply outcome_bind_Ret in Hf as (m & (Ho & _)%owned_by_spec & [= <-]).
    + unfold desired_route in Hf. apply outcome_bind_Ret in Hf as (refs & _ & (port & _ & Hf)%outcome_bind_Ret).
      by apply outcome_bind_Ret in Hf as (m & (Ho & _)%owned_by_spec & [= <-]).
  - destruct Hm; try done; cbn [meta] in Hkey; exact (key_namespace _ _ _ Hkey).
  - destruct Hm; try done; [left; cbn; set_solver..|]. destruct routes; [left; cbn; set_solver|by right].
Qed.

(** Where the operator grants workspace permissions outside its namespace, it comes back. *)
Lemma foreign_target_polled cp ns :
  trim_space (Namespace (cp_meta cp)) = Namespace (cp_meta cp) →
  ns ∈ targetNamespaces cp → permitted cp ns → trim_space ns ≠ Namespace (cp_meta cp) →
  requiresWorkspaceRBACDriftRequeue (Some cp) = true.
Proof.
  intros Htrim Hin [Hp Hne] Hns. unfold requiresWorkspaceRBACDriftRequeue. rewrite Hp. cbn [negb].
  apply existsb_exists. exists ns. split.
  - unfold targetNamespaces in Hin. apply elem_of_cons in Hin as [->|Hin]; [by rewrite Htrim in Hns|]. by apply list_elem_of_In.
  - by rewrite (proj2 (String.eqb_neq _ _) Hne), (proj2 (String.eqb_neq _ _) Hns).
Qed.

(** A role of the control plane, in a namespace it manages. *)
Lemma workspace_owned cp ns m0 m :
  workspace_owner cp ns m0 = Ret m → ns = Namespace (cp_meta cp) → isOwnedByCoderControlPlane m cp = true.
Proof. intros H ->. unfold workspace_owner in H. rewrite String.eqb_refl in H. by apply owned_by_spec in H as [? _]. Qed.

(** Requested, or a role elsewhere that is polled, or an HTTPRoute that was not
    served at the start. *)
Definition seen_again (routes : bool) (r : reconciler) cp (k : kind) (m : ObjectMeta) : Prop :=
  key_of (cp_meta cp) ∈ requests (control_plane_registration routes r) k m ∨
  (k = KHTTPRoute ∧ routes = false) ∨
  (k = KRole ∨ k = KRoleBinding) ∧ Namespace m ≠ Namespace (cp_meta cp) ∧ requiresWorkspaceRBACDriftRequeue (Some cp) = true.

Section control_plane.
Context {W : Type} (env : ∀ a : action, M W goerror (reply a)) `{!HasClock W} (routes : bool) (r : reconciler).
Context (Hmap : RESTMapping controlPlaneAPIVersion controlPlaneKind = Some true).
Abbreviation reg := (control_plane_registration routes r).

Lemma mutation_seen cp k init f a k' m :
  mutation cp k init f → written k init f a → put a = Some (k', m) → k ≠ KRole → k ≠ KRoleBinding → seen_again routes r cp k' m.
Proof.
  intros Hm Hw Hp Hr Hb. destruct (written_put _ _ _ _ _ _ Hw Hp) as (-> & base & o & Hf & -> & Hk).
  destruct (mutation_owned _ _ _ _ _ _ routes r Hm Hf Hk Hr Hb) as (Ho & Hns & [Hin|Hin]); [left; by apply requested_by_owned|by right; left].
Qed.
Lemma role_seen cp ns m0 m k :
  trim_space (Namespace (cp_meta cp)) = Namespace (cp_meta cp) → k ∈ [KRole; KRoleBinding] →
  ns ∈ targetNamespaces cp → permitted cp ns → workspace_owner cp (trim_space ns) m0 = Ret m → Namespace m = trim_space ns →
  seen_again routes r cp k m.
Proof.
  intros Htrim Hk Hin Hp Ho Hns. destruct (decide (trim_space ns = Namespace (cp_meta cp))) as [E|E].
  - left. apply requested_by_owned; [done..|by eapply workspace_owned|by rewrite Hns|]. cbn. set_solver.
  - right; right. split; [set_solver|]. split; [by rewrite Hns|]. by eapply foreign_target_polled.
Qed.

Lemma live_call_seen cp a k m :
  trim_space (Namespace (cp_meta cp)) = Namespace (cp_meta cp) →
  ControlPlane.live_call env cp a → put a = Some (k, m) → seen_again routes r cp k m.
Proof.
  intros Htrim Hcall Hput. destruct Hcall as [a Ha|a Ha|a Ha|a Ha|a Ha|a Ha|? ? ? ? ? a _ Ha|? ? ? ? ? ? ? a _ _ Ha|rd next a Ha].
  - destruct Ha as [a _ Hw| |]; [|done..]. by eapply (mutation_seen _ _ _ _ _ _ _ (mutation_account cp) Hw).
  - destruct Ha as [a Ha|ns name a Hin Hp Hw|ns name roleName sa a Hin Hp Hw]; [by destruct Ha|..];
      destruct (written_put _ _ _ _ _ _ Hw Hput) as (-> & base & o & Hf & -> & Hk); cbn [meta] in Hk;
      apply key_namespace in Hk; apply outcome_bind_Ret in Hf as (m & Ho & [= <-]);
      eapply role_seen; eauto; set_solver.
  - destruct Ha as [|v a Hw]; [done|]. by eapply (mutation_seen _ _ _ _ _ _ _ (mutation_deployment cp v) Hw).
  - by eapply (mutation_seen _ _ _ _ _ _ _ (mutation_service cp) Ha).
  - destruct Ha as [spec port a _ _ _ Hw|spec a _ _ Hw| | |]; [..|done|done|done].
    + by eapply (mutation_seen _ _ _ _ _ _ _ (mutation_ingress cp _ _ _ _) Hw).
    + by eapply (mutation_seen _ _ _ _ _ _ _ (mutation_route cp _ _) Hw).
  - destruct Ha as [|token a _ _ Hw| | |]; [done| |done..]. by eapply (mutation_seen _ _ _ _ _ _ _ (mutation_token cp _ _ _) Hw).
  - by destruct Ha.
  - by destruct Ha.
  - by destruct Ha.
Qed.

(** The API server answers a read with the object that was asked for. *)
Definition reads_requested (req : object_key) : Prop := ∀ (cp : CoderControlPlane) w w',
  env (AGet CachedReader KControlPlane req) w = (Ret cp, w') → key_of (cp_meta cp) = req.
Definition plane_watched (req : object_key) (a : action) : Prop := ∀ k m, put a = Some (k, m) →
  req ∈ requests reg k m ∨
  (k = KHTTPRoute ∧ routes = false) ∨
  (k = KRole ∨ k = KRoleBinding) ∧ Namespace m ≠ req.1 ∧
  ∃ cp w w', env (AGet CachedReader KControlPlane req) w = (Ret cp, w') ∧ requiresWorkspaceRBACDriftRequeue (Some cp) = true.

Lemma silent_watched req a : put a = None → plane_watched req a.
Proof. intros H k m Hp. by rewrite H in Hp. Qed.
Lemma live_watched req cp a :
  trim_space req.1 = req.1 → reads_requested req →
  (∃ w w', env (AGet CachedReader KControlPlane req) w = (Ret cp, w')) → ControlPlane.live_call env cp a → plane_watched req a.
Proof.
  intros Htrim Hreq (w & w' & Hget) Hcall k m Hput. pose proof (Hreq _ _ _ Hget) as Hkey.
  pose proof (key_namespace _ _ _ (eq_trans Hkey (surjective_pairing req))) as Hn.
  destruct (live_call_seen cp a k m) as [H|[H|(Hk & Hns & Hp)]]; [by rewrite Hn|done..|left; by rewrite <-Hkey|by right; left|].
  right; right. split; [done|]. split; [by rewrite <-Hn|]. by exists cp, w, w'.
Qed.

Lemma plane_calls_watched req acts :
  trim_space req.1 = req.1 → reads_requested req → ControlPlane.reconcile_calls env req acts →
  Forall (plane_watched req) acts.
Proof.
  intros Htrim Hreq [->|(rest & -> & Hrest)]; [constructor|]. constructor; [by apply silent_watched|].
  destruct Hrest as [->|(cp & w & w' & Hget & Hkey & Hcalls)]; [constructor|]. unfold ControlPlane.object_calls in Hcalls.
  destruct (ControlPlane.being_deleted cp).
  - destruct Hcalls as (cleaning & last & -> & Hclean & Hlast). apply Forall_app. split.
    + eapply Forall_impl; [exact Hclean|]. intros a Ha. apply silent_watched. by destruct Ha.
    + destruct Hlast as [->|[-> _]]; [constructor|]. constructor; [by apply silent_watched|constructor].
  - destruct Hcalls as [[_ [->| ->]]|(cp' & guard & work & -> & Hset & Hwork)]; [by repeat (constructor; [by apply silent_watched|])..|].
    apply Forall_app. unfold ControlPlane.finalizer_set in Hset. destruct (ContainsFinalizer _ _).
    + destruct Hset as [-> ->]. split; [constructor|]. eapply Forall_impl; [exact Hwork|]. intros a. apply live_watched; [done..|by exists w, w'].
    + destruct Hset as (-> & _ & Hget'). split; [by repeat (constructor; [by apply silent_watched|])|].
      eapply Forall_impl; [exact Hwork|]. intros a. by apply live_watched.
Qed.
End control_plane.

(** ** Provisioners and workspace proxies *)

Section others.
Context {W : Type} (env : ∀ a : action, M W goerror (reply a)).

(** The provisioner whose reconciliation is asked for: as it was fetched, or as the
    API server answered a status update. *)
Definition provisioner_watched (r : Provisioner.provisioner_reconciler) (req : object_key) (a : action) : Prop := ∀ k m, put a = Some (k, m) →
  ∃ p0 p, ProvisionerReconcile.found env req p0 ∧ ProvisionerReconcile.known env p0 p ∧
    key_of (pv_meta p) ∈ requests (provisioner_registration r) k m.

Lemma provisioner_put_requested r p k m0 m :
  RESTMapping controlPlaneAPIVersion Provisioner.provisionerKind = Some true →
  Provisioner.ownedByProvisioner p m0 = Ret m → Namespace m = Namespace (pv_meta p) → k ∈ reg_Owns (provisioner_registration r) →
  key_of (pv_meta p) ∈ requests (provisioner_registration r) k m.
Proof.
  intros Hmap Ho. unfold Provisioner.ownedByProvisioner in Ho.
  destruct (SetControllerReference _ _ _ _) as [m1|e|e] eqn:H; [injection Ho as ->|done..].
  by eapply requested_by_reference.
Qed.
Lemma provisioner_written r p k init f a k' m :
  RESTMapping controlPlaneAPIVersion Provisioner.provisionerKind = Some true →
  written k init f a → put a = Some (k', m) →
  (∀ base o, f base = Ret o → ∃ m0, Provisioner.ownedByProvisioner p m0 = Ret (meta k o)) →
  Namespace (meta k init) = Namespace (pv_meta p) → k ∈ reg_Owns (provisioner_registration r) →
  key_of (pv_meta p) ∈ requests (provisioner_registration r) k' m.
Proof.
  intros Hmap Hw Hp Hf Hns Hin. destruct (written_put _ _ _ _ _ _ Hw Hp) as (-> & base & o & Ho & -> & Hk).
  destruct (Hf base o Ho) as [m0 Hm]. eapply provisioner_put_requested; [exact Hmap|exact Hm| |exact Hin].
  rewrite <-Hns. by injection Hk.
Qed.
Lemma provisioner_call_watched r req p0 a :
  RESTMapping controlPlaneAPIVersion Provisioner.provisionerKind = Some true → ProvisionerReconcile.found env req p0 →
  ProvisionerReconcile.provisioner_call env p0 a → provisioner_watched r req a.
Proof.
  intros Hmap Hfound Hcall k m Hput. exists p0. destruct Hcall as [| | | |cp token a _ _ _ Ha|cp token ks a _ _ _ _ Hw|cp p a _ Hk Ha|p Hk];
    try discriminate Hput.
  - by destruct Ha.
  - exists p0. split; [done|]. split; [by left|]. eapply (provisioner_written r p0); [exact Hmap|exact Hw|exact Hput| |done|cbn; set_solver].
    intros base o (_ & _ & (m1 & Hm & [= <-])%outcome_bind_Ret)%outcome_bind_Ret. by eexists.
  - exists p. split; [done|]. split; [done|].
    destruct Ha as [a Hw|a Hw|roleName a Hw|value a _ Hw];
      (eapply (provisioner_written r p); [exact Hmap|exact Hw|exact Hput| |done|cbn; set_solver]);
      intros base o (m1 & Hm & [= <-])%outcome_bind_Ret; by eexists.
Qed.
Lemma for_requested r k (m : ObjectMeta) : k = KProvisioner → key_of m ∈ requests (provisioner_registration r) k m.
Proof. intros ->. apply elem_of_app. left. cbn. set_solver. Qed.

Lemma provisioner_calls_watched r req body acts p late :
  RESTMapping controlPlaneAPIVersion Provisioner.provisionerKind = Some true →
  ProvisionerReconcile.body_calls env req body acts → ProvisionerReconcile.late_calls p late →
  Forall (provisioner_watched r req) (acts ++ late).
Proof.
  intros Hmap (rest & -> & Hrest) Hlate. apply Forall_app. split; [constructor; [done|]|by destruct Hlate as [->|[now ->]]; repeat constructor].
  destruct Hrest as [[-> _]|(p0 & Hfound & Hcalls)]; [constructor|].
  assert (∀ m, key_of m = key_of (pv_meta p0) → provisioner_watched r req (AUpdate KProvisioner (Provisioner.with_meta m p0))) as Hself.
  { intros m Hm k m' [= <- <-]. exists p0, p0. split; [done|]. split; [by left|].
    rewrite <-Hm. by apply for_requested. }
  unfold ProvisionerReconcile.object_calls in Hcalls.
  destruct (ProvisionerReconcile.deleting p0), (ProvisionerReconcile.finalized p0).
  - destruct Hcalls as (reads & del & last & -> & Hreads & Hdel & Hlast). apply Forall_app; split; [|apply Forall_app; split].
    + eapply Forall_impl; [exact Hreads|]. intros a Ha. by destruct Ha.
    + destruct Hdel as [->|(a & -> & Ha)]; [constructor|]. constructor; [by destruct Ha|constructor].
    + assert (last = [] ∨ last = [ProvisionerReconcile.release p0]) as [->| ->] by (destruct body; naive_solver); [constructor|].
      constructor; [by apply Hself|constructor].
  - destruct Hcalls as [-> _]. constructor.
  - eapply Forall_impl; [exact Hcalls|]. intros a Ha. eapply provisioner_call_watched; [exact Hmap|exact Hfound|exact Ha].
  - rewrite Hcalls. constructor; [apply Hself; unfold AddFinalizer; by destruct (ContainsFinalizer _ _)|constructor].
Qed.

Definition proxy_watched (r : WorkspaceProxy.proxy_reconciler) (req : object_key) (a : action) : Prop := ∀ k m, put a = Some (k, m) →
  req ∈ requests (proxy_registration r) k m.
Lemma proxy_written r p k init f a k' m :
  RESTMapping controlPlaneAPIVersion WorkspaceProxy.workspaceProxyKind = Some true →
  written k init f a → put a = Some (k', m) →
  (∀ base o, f base = Ret o → ∃ m0, WorkspaceProxy.ownedByProxy p m0 = Ret (meta k o)) →
  Namespace (meta k init) = Namespace (wp_meta p) → k ∈ reg_Owns (proxy_registration r) →
  key_of (wp_meta p) ∈ requests (proxy_registration r) k' m.
Proof.
  intros Hmap Hw Hp Hf Hns Hin. destruct (written_put _ _ _ _ _ _ Hw Hp) as (-> & base & o & Ho & -> & Hk).
  destruct (Hf base o Ho) as [m0 Hm]. unfold WorkspaceProxy.ownedByProxy in Hm.
  destruct (SetControllerReference _ _ _ _) as [m1|e|e] eqn:H; [injection Hm as Hm|done..]. rewrite <-Hm in *.
  eapply requested_by_reference; [exact Hmap|exact H| |exact Hin]. rewrite <-Hns. by injection Hk.
Qed.
Lemma proxy_call_watched r req p a :
  RESTMapping controlPlaneAPIVersion WorkspaceProxy.workspaceProxyKind = Some true → key_of (wp_meta p) = req →
  WorkspaceProxy.proxy_call env p a → proxy_watched r req a.
Proof.
  intros Hmap <- Hcall k m Hput.
  destruct Hcall as [| | |b r' a _ _ _ Hw|url ref reg a _ _ Hw|url ref reg d a _ _ _ Hw|]; try discriminate Hput;
    (eapply (proxy_written r p); [exact Hmap|exact Hw|exact Hput| |done|cbn; set_solver]);
    intros base o (m1 & Hm & [= <-])%outcome_bind_Ret; by eexists.
Qed.
End others.
End handlers.

(** ** The registration *)

(** What [SetupWithManager] registers for control planes depends on whether the
    cluster said at that time that it serves HTTPRoutes. *)
Definition registered_as_served {V} (r : reconciler) (x : list (exchange (reply := setup_reply (V:=V)))) : Prop :=
  ∀ reg o, existT (CComplete reg) o ∈ x → ∃ answer : outcome goerror (),
    existT route_mapping answer ∈ x ∧ reg = control_plane_registration (is_Ret answer) r.

Lemma setup_registers {V S} (senv : ∀ c : setup_call V, M S goerror (setup_reply c)) (r : reconciler) :
  says senv (controlPlane_SetupWithManager senv true r) (λ x _, registered_as_served r x).
Proof.
  eapply says_mono; [exact (says_runs senv unserved routes_as_served _ _ (in_order_control_plane senv r) (strict_control_plane senv r))|].
  intros x o ((routes & Hp & _) & _ & Hserved) reg o' Hin.
  assert (CComplete reg ∈ asked x) as Hc by (apply (list_elem_of_fmap_2 projT1) in Hin; exact Hin).
  assert (reg = control_plane_registration routes r) as ->.
  { apply (elem_of_prefix _ _ _ Hc) in Hp. rewrite !elem_of_cons, elem_of_nil in Hp.
    destruct Hp as [|[|[|[|[|]]]]]; try done; congruence. }
  destruct (Hserved _ _ _ Hin) as (answer & Ha & ->). by exists answer.
Qed.

(** C7: drift does not go unnoticed.  Every object that a reconciliation creates or
    updates, whatever the cluster and the backends answer, is of a kind that its
    controller is registered for, and carries the reference by which a change of the
    object asks for this very reconciliation again.  There are two exceptions.  Roles
    and role bindings of a control plane in other namespaces cannot carry such
    references; a control plane that has any is polled.  And HTTPRoutes are only
    watched if the cluster served them when [SetupWithManager] asked: with
    [routes = false], the registration that it makes then, routes that are written
    later, after the Gateway API was installed, are not watched.  The API server is
    assumed to know the three kinds as namespaced and to answer a read with the object
    asked for. *)
Theorem written_objects_are_watched {W} (env : ∀ a : action, M W goerror (reply a)) `{!HasClock W} `{!Provisioner.HasRand W}
    (RESTMapping : string → string → option bool) (render : text → string) (cpr : reconciler) (pvr : Provisioner.provisioner_reconciler)
    (wpr : WorkspaceProxy.proxy_reconciler) (req : object_key) (st : kst W) (attempts : gmap string Z)
    {V S} (senv : ∀ c : setup_call V, M S goerror (setup_reply c))
    (Hmap : ∀ kind, kind ∈ [controlPlaneKind; Provisioner.provisionerKind; WorkspaceProxy.workspaceProxyKind] →
       RESTMapping controlPlaneAPIVersion kind = Some true)
    (Htrim : trim_space req.1 = req.1) (Hreads : reads_requested env req) :
  says senv (controlPlane_SetupWithManager senv true cpr) (λ x _, registered_as_served cpr x) ∧
  (∃ acts, made acts st (ControlPlane.Reconcile env cpr req st).2 ∧
     ∀ routes, Forall (plane_watched RESTMapping env routes cpr req) acts) ∧
  (∃ acts, made acts st (Provisioner.Reconcile env render pvr req (st, attempts)).2.1 ∧
     Forall (provisioner_watched RESTMapping env pvr req) acts) ∧
  (∃ acts, made acts st (WorkspaceProxy.Reconcile env wpr req st).2 ∧ Forall (proxy_watched RESTMapping wpr req) acts).
Proof.
  split; [apply setup_registers|]. split; [|split].
  - pose proof (ControlPlane.reconcile_run env cpr req st) as Hrun. destruct (ControlPlane.Reconcile env cpr req st) as [o st'].
    destruct Hrun as (acts & Hm & Hc). exists acts. split; [exact Hm|]. intros routes. apply plane_calls_watched; auto. apply Hmap. set_solver.
  - pose proof (ProvisionerReconcile.provisioner_run env render pvr req st attempts) as Hrun.
    destruct (Provisioner.Reconcile env render pvr req (st, attempts)) as [o [st' attempts']].
    destruct Hrun as (acts & late & Hm & Hc). exists (acts ++ late). split; [exact Hm|].
    destruct Hc as [(-> & -> & _)|(body & Hc & [p Hl]%ProvisionerReconcile.deferred_late & _)]; [constructor|].
    eapply provisioner_calls_watched; [apply Hmap; set_solver|exact Hc|exact Hl].
  - pose proof (WorkspaceProxy.proxy_run env wpr req st) as Hrun. destruct (WorkspaceProxy.Reconcile env wpr req st) as [o st'].
    destruct Hrun as [(acts & Hm & _ & Hc) _]. exists acts. split; [exact Hm|].
    destruct Hc as [->|(rest & -> & Hrest)]; [constructor|]. constructor; [done|].
    destruct Hrest as [->|(p & [_ Hkey] & Hall)]; [constructor|]. eapply Forall_impl; [exact Hall|].
    intros a. apply proxy_call_watched; [apply Hmap; set_solver|done].
Qed.

(** A cluster with one control plane, of which nothing has been made yet. *)
Module ToyCluster.
Definition plane : CoderControlPlane := set_cp_meta (AddFinalizer (cp_meta (full_cp [])) workspaceRBACFinalizer) (full_cp []).
Definition missing : goerror := StatusErr (NewNotFound {| gr_Group := ""; gr_Resource := "" |} "").
Definition env (a : action) : M () goerror (reply a) := λ w,
  (match a return outcome goerror (reply a) with
   | AGet _ k key =>
       match k return outcome goerror (obj k) with
       | KControlPlane => if decide (key = ("ns", "coder")) then Ret plane else Err missing
       | _ => Err missing
       end
   | ACreate k o | AUpdate k o => Ret o
   | AList _ _ _ => Ret []
   | AUpdateStatus cp => Ret cp
   | _ => Err missing
   end, w).
#[global] Instance clock : HasClock () := λ w, (5%Z, w).
#[global] Instance rand : Provisioner.HasRand () := λ w, (None, w).
Definition ready : reconciler := {|
  hasClient := true; hasScheme := true; hasAPIReader := true; hasOperatorAccessProvisioner := true;
  hasLicenseUploader := true; hasEntitlementsInspector := true |}.
End ToyCluster.
Theorem written_objects_are_watched_witness : ∃ acts,
  (∀ routes, Forall (plane_watched (λ _ _, Some true) ToyCluster.env routes ToyCluster.ready ("ns", "coder")) acts) ∧
  omap (λ a, fst <$> put a) acts = [KServiceAccount; KRole; KRoleBinding; KRole; KRoleBinding; KDeployment; KService; KIngress].
Proof.
  destruct (written_objects_are_watched ToyCluster.env (λ _ _, Some true) (λ _, "") ToyCluster.ready
    {| Provisioner.pvr_Client := true; Provisioner.pvr_Scheme := true; Provisioner.pvr_BootstrapClient := true |}
    {| WorkspaceProxy.wpr_Client := true; WorkspaceProxy.wpr_Scheme := true; WorkspaceProxy.wpr_BootstrapClient := true |}
    ("ns", "coder") (KSt tt []) ∅ Setup.ToyCluster.env) as (_ & (acts & Hm & Hall) & _).
  - done.
  - reflexivity.
  - intros cp w w' [= <- _]. reflexivity.
  - exists acts. split; [exact Hall|]. unfold made in Hm. cbn [k_trace app] in Hm. rewrite <-Hm. vm_compute. reflexivity.
Defined.

End Drift.
