(* ===== verification/Linked.v ===== *)
(** * Linked: the controllers with their clients

    The reconciliations of [ControlPlane], [Provisioner] and [WorkspaceProxy]
    call Coder's API and its database through interfaces.  Here these calls are
    answered by the programs that implement the interfaces, [BootstrapClient],
    [LicenseClient] and [OperatorDatabase], over the same world, and the requests
    they make are recorded.  The theorems state what a reconciliation asks of
    coderd and of the database in terms of the objects in the cluster and of
    coderd's own answers. *)

From S2P Require Import Prelude GoStd GoErrors Uuid ApiTypes Providers KubeObjects Kube ControlPlaneNames ControlPlaneStatus OperatorAccess License ServiceAccounts WorkspaceRBAC Workload Exposure ControlPlane ProvisionerNames Provisioner ProvisionerReconcile WorkspaceProxy Calls BootstrapClient LicenseClient OperatorDatabase Locality.

#[local] Open Scope string_scope.
#[local] Open Scope list_scope.

Module Linked.
Import ControlPlaneNames OperatorAccess License ProvisionerNames Provisioner ProvisionerReconcile.
Import Calls BootstrapClient Locality.

(** What the clients send. *)
Inductive message :=
  | ToCoderd (x : sent)
  | ToDatabase (c : OperatorDatabase.dbcall).

(** ** Linking *)

Section link.
Context {W : Type}.

(** The world with the messages sent so far. *)
Definition conversation : Type := cst W message.

(** A client's program, started with nothing sent. *)
Definition within {C A} (inj : C → message) (m : calling W C A) : M conversation goerror A := λ s,
  let '(o, s') := m (CSt (c_world s) []) in (o, CSt (c_world s') (c_calls s ++ (inj <$> c_calls s'))).
(** A call that sends no message. *)
Definition silently {A} (m : M W goerror A) : M conversation goerror A := λ s,
  let '(o, w) := m (c_world s) in (o, CSt w (c_calls s)).

#[global] Instance conversation_clock `{!HasClock W} : HasClock conversation := λ s,
  let '(t, w) := tick (c_world s) in (t, CSt w (c_calls s)).
#[global] Instance conversation_rand `{!HasRand W} : HasRand conversation := λ s,
  let '(n, w) := random_bytes (c_world s) in (n, CSt w (c_calls s)).

(** The cluster, coderd and its database. *)
Context (cluster : ∀ a : action, M W goerror (reply a)).
Context (sdk : Providers.client → bool → ∀ r : request, M W goerror (response r)).
Context (database : ∀ c : OperatorDatabase.dbcall, M W goerror (OperatorDatabase.dbreply c)).
Context (url_Parse : string → result Providers.url) (default_transport : bool) (fuel : nat).

(** The context of a reconciliation: not nil, and without the bypass of the rate
    limit. *)
Definition background : context := Some false.

(** [inspect] is the way to the entitlements: [SDKClient] for a provisioner, the
    [EntitlementsInspector] for a control plane. *)
Definition linked (inspect : string → string → requesting (W:=W) Entitlements)
    (a : action) : M conversation goerror (reply a) :=
  match a with
  | AEnsureProvisionerKey req =>
      within ToCoderd (EnsureProvisionerKey sdk url_Parse default_transport background req)
  | ADeleteProvisionerKey coderURL token org key =>
      within ToCoderd (DeleteProvisionerKey sdk url_Parse default_transport background coderURL token org key)
  | AEnsureWorkspaceProxy req =>
      within ToCoderd (EnsureWorkspaceProxy sdk url_Parse default_transport background req)
  | AEntitlements coderURL token => within ToCoderd (inspect coderURL token)
  | AAddLicense coderURL token jwt => within ToCoderd (LicenseClient.AddLicense sdk url_Parse default_transport coderURL token jwt)
  | AHasAnyLicense coderURL token => within ToCoderd (LicenseClient.HasAnyLicense sdk url_Parse default_transport coderURL token)
  | AEnsureOperatorToken req => within ToDatabase (OperatorDatabase.EnsureOperatorToken database fuel true
      (Some (OperatorDatabase.NewPostgresOperatorAccessProvisioner database)) req)
  | ARevokeOperatorToken req => within ToDatabase (OperatorDatabase.RevokeOperatorToken database true
      (Some (OperatorDatabase.NewPostgresOperatorAccessProvisioner database)) req)
  | a => silently (cluster a)
  end.
Definition plane_env := linked (LicenseClient.InspectEntitlements sdk url_Parse default_transport).
Definition bootstrap_env := linked (FetchEntitlements sdk url_Parse default_transport background).

(** ** What a call leads to *)

(** The messages of one call, and its outcome, as the clients' theorems state
    them. *)
Definition told {A} (R : list sent → outcome goerror A → Prop) (l : list message)
    (o : outcome goerror A) : Prop := ∃ xs, l = ToCoderd <$> xs ∧ R xs o.
Definition stored_in {A} (R : list OperatorDatabase.dbcall → outcome goerror A → Prop) (l : list message)
    (o : outcome goerror A) : Prop := ∃ cs, l = ToDatabase <$> cs ∧ R cs o.

#[local] Abbreviation by_client := (with_client url_Parse default_transport).
#[local] Abbreviation asked := (LicenseClient.asked sdk url_Parse default_transport).

Definition entitlements_of_plane coderURL token :=
  asked coderURL token GetEntitlements (λ x e, e = x ∧ ent_Features e ≠ None).
Definition entitlements_of_bootstrap coderURL token :=
  by_client coderURL token (λ c l (o : outcome goerror Entitlements), reads c l ∧
    ∀ e, o = Ret e → ent_Features e ≠ None ∧
      attempted sdk background c GetEntitlements l (Ret e)).

Definition leads_to (entitlements : string → string → list sent → outcome goerror Entitlements → Prop)
    (a : action) : list message → outcome goerror (reply a) → Prop :=
  match a with
  | AEnsureProvisionerKey req => told (by_client (epk_CoderURL req) (epk_SessionToken req)
      (λ c, key_ensured sdk background c req))
  | ADeleteProvisionerKey coderURL token org key => told (by_client coderURL token
      (λ c, key_removed sdk background c org key))
  | AEnsureWorkspaceProxy req => told (by_client (rwp_CoderURL req) (rwp_SessionToken req)
      (λ c, proxy_registered sdk background c req))
  | AEntitlements coderURL token => told (entitlements coderURL token)
  | AAddLicense coderURL token jwt => told (λ l o, (jwt ≠ "" ∨ l = [] ∧ ∀ a, o ≠ Ret a) ∧
      asked coderURL token (AddLicenseJWT jwt) (λ _ _, True) l o)
  | AHasAnyLicense coderURL token => told (asked coderURL token ListLicenses
      (λ x b, b = true ↔ (x : list Z) ≠ []))
  | AEnsureOperatorToken req => stored_in (OperatorDatabase.transacted database (eot_PostgresURL req)
      (OperatorDatabase.token_ensured database req))
  | ARevokeOperatorToken req => stored_in (OperatorDatabase.transacted database (rot_PostgresURL req)
      (OperatorDatabase.token_revoked database req))
  | a => λ l o, l = [] ∧ ∃ w w', cluster a w = (o, w')
  end.

Lemma within_runs {C A} (inj : C → message) (m : calling W C A) R s o s' :
  runs m R → within inj m s = (o, s') → ∃ xs, c_calls s' = c_calls s ++ (inj <$> xs) ∧ R xs o.
Proof.
  intros Hm. specialize (Hm (CSt (c_world s) [])). unfold within.
  destruct (m (CSt (c_world s) [])) as [o1 s1]. destruct Hm as (l & Hl & HR). intros [= <- <-].
  exists l. split; [|done]. unfold sends in Hl. cbn in *. by rewrite Hl.
Qed.

Lemma linked_leads_to inspect entitlements a s o s' :
  (∀ coderURL token, runs (inspect coderURL token) (entitlements coderURL token)) →
  linked inspect a s = (o, s') → ∃ l, c_calls s' = c_calls s ++ l ∧ leads_to entitlements a l o.
Proof.
  intros Hi. assert (∀ A C (inj : C → message) (m : calling W C A) R o,
    runs m R → within inj m s = (o, s') → ∃ l, c_calls s' = c_calls s ++ l ∧ ∃ xs, l = inj <$> xs ∧ R xs o) as Hw.
  { intros A C inj m R o' Hm (xs & Hl & HR)%(within_runs inj m R); [|done]. exists (inj <$> xs). split; [done|]. by exists xs. }
  assert (∀ A (m : M W goerror A) o, silently m s = (o, s') →
    ∃ l, c_calls s' = c_calls s ++ l ∧ l = [] ∧ ∃ w w', m w = (o, w')) as Hs.
  { intros A m o'. unfold silently. destruct (m (c_world s)) as [o1 w] eqn:E. intros [= <- <-].
    exists []. rewrite app_nil_r. split; [done|]. split; [done|]. by exists (c_world s), w. }
  destruct a; cbn [linked leads_to]; first [exact (Hs _ _ _)|eapply Hw].
  - apply runs_EnsureProvisionerKey.
  - apply runs_DeleteProvisionerKey.
  - apply runs_EnsureWorkspaceProxy.
  - apply OperatorDatabase.runs_EnsureOperatorToken.
  - apply OperatorDatabase.runs_RevokeOperatorToken.
  - apply LicenseClient.runs_AddLicense.
  - apply LicenseClient.runs_HasAnyLicense.
  - apply Hi.
Qed.

(** ** What a reconciliation leads to *)

Section chat.
Context (inspect : string → string → requesting (W:=W) Entitlements).
Context (entitlements : string → string → list sent → outcome goerror Entitlements → Prop).
Hypothesis inspects : ∀ coderURL token, runs (inspect coderURL token) (entitlements coderURL token).

(** The messages of the calls, one after the other. *)
Definition chat (acts : list action) (said : list message) : Prop :=
  ∃ ls, said = concat ls ∧ Forall2 (λ a l, ∃ o, leads_to entitlements a l o) acts ls.

Definition chatted (st st' : kst conversation) : Prop := ∃ acts said,
  made acts st st' ∧ c_calls (k_world st') = c_calls (k_world st) ++ said ∧ chat acts said.

Lemma chatted_refl st : chatted st st.
Proof.
  exists [], []. split; [apply made_nil|]. split; [by rewrite app_nil_r|]. exists []. by split; [|constructor].
Qed.
Lemma chatted_act st0 a : keeps (chatted st0) (act (linked inspect) a).
Proof.
  intros st (acts & said & Hm & Hs & ls & -> & Hls). unfold act.
  destruct (linked inspect a (k_world st)) as [o s] eqn:E.
  apply (linked_leads_to _ entitlements) in E as (l & Hl & Ha); [|done].
  exists (acts ++ [a]), (concat ls ++ l). split; [by eapply made_trans|]. split; [cbn; by rewrite Hl, Hs, app_assoc|].
  exists (ls ++ [l]). split; [by rewrite concat_app; cbn; rewrite app_nil_r|]. apply Forall2_app; [done|].
  constructor; [by exists o|constructor].
Qed.
(** What changes neither the calls nor the messages keeps it. *)
Lemma chatted_quiet st0 st w :
  c_calls w = c_calls (k_world st) → chatted st0 st → chatted st0 (KSt w (k_trace st)).
Proof. intros Hw (acts & said & Hm & Hs & Hc). exists acts, said. split; [exact Hm|]. cbn. by rewrite Hw. Qed.
Lemma chatted_Now `{!HasClock W} st0 : keeps (chatted st0) (Now (W:=conversation)).
Proof.
  intros st. unfold Now, tick, conversation_clock. destruct (tick (c_world (k_world st))) as [t w]. by apply chatted_quiet.
Qed.
Lemma chatted_draw `{!HasRand W} st0 req : keeps (chatted st0) (draw (W:=conversation) req).
Proof.
  intros st. unfold draw. destruct (_ || _); [done|]. unfold RandomBytes.
  unfold random_bytes at 1, conversation_rand.
  destruct (random_bytes (c_world (k_world st))) as [n w]. by apply chatted_quiet.
Qed.

(** The calls of the run are known from elsewhere. *)
Lemma chatted_made st st' acts :
  chatted st st' → made acts st st' → ∃ said, c_calls (k_world st') = c_calls (k_world st) ++ said ∧ chat acts said.
Proof.
  intros (acts' & said & Hm' & Hs & Hc) Hm. unfold made in Hm, Hm'. rewrite Hm in Hm'. apply app_inv_head in Hm' as ->.
  by exists said.
Qed.

Lemma chat_message acts said x :
  chat acts said → x ∈ said → ∃ a l o, a ∈ acts ∧ leads_to entitlements a l o ∧ x ∈ l.
Proof.
  intros (ls & -> & Hls) Hx. apply list_elem_of_In, in_concat in Hx as (l & Hl & Hx).
  apply list_elem_of_In in Hl, Hx. apply list_elem_of_lookup in Hl as [i Hi].
  destruct (Forall2_lookup_r _ _ _ _ _ Hls Hi) as (a & Ha & o & Ho).
  exists a, l, o. split; [by eapply list_elem_of_lookup_2|done].
Qed.

(** Calls that lead to no message. *)
Definition silent (a : action) : bool :=
  match a with
  | AEnsureProvisionerKey _ | ADeleteProvisionerKey _ _ _ _ | AEnsureWorkspaceProxy _ | AEntitlements _ _
  | AAddLicense _ _ _ | AHasAnyLicense _ _ | AEnsureOperatorToken _ | ARevokeOperatorToken _ => false
  | _ => true
  end.
Lemma silent_leads_to a l o : silent a = true → leads_to entitlements a l o → l = [].
Proof. by destruct a; intros ? H; destruct H. Qed.
Lemma silent_linked a s o s' : silent a = true → linked inspect a s = (o, s') → ∃ w w', cluster a w = (o, w').
Proof.
  intros Ha. assert (linked inspect a s = silently (cluster a) s) as -> by (by destruct a). unfold silently.
  destruct (cluster a (c_world s)) as [o1 w] eqn:E. intros [= <- _]. by exists (c_world s), w.
Qed.
Lemma written_silent k init f a : written k init f a → silent a = true.
Proof. by destruct 1. Qed.
End chat.

(** The three controllers. *)
Lemma plane_chats `{!HasClock W} r req (st : kst conversation) :
  chatted entitlements_of_plane st (ControlPlane.Reconcile plane_env r req st).2.
Proof.
  assert (∀ url token, runs (LicenseClient.InspectEntitlements sdk url_Parse default_transport url token)
    (entitlements_of_plane url token)) by (intros; apply LicenseClient.runs_InspectEntitlements).
  apply (control_plane_keeps plane_env (chatted entitlements_of_plane st)); [|apply chatted_Now|apply chatted_refl].
  intros a. by apply chatted_act.
Qed.
Lemma proxy_chats r req (st : kst conversation) :
  chatted entitlements_of_bootstrap st (WorkspaceProxy.Reconcile bootstrap_env r req st).2.
Proof.
  assert (∀ url token, runs (FetchEntitlements sdk url_Parse default_transport background url token)
    (entitlements_of_bootstrap url token)) by (intros; apply runs_FetchEntitlements).
  apply (proxy_keeps bootstrap_env (chatted entitlements_of_bootstrap st)); [|apply chatted_refl].
  intros a. by apply chatted_act.
Qed.
Lemma provisioner_chats `{!HasClock W} `{!HasRand W} render r req (st : kst conversation) attempts :
  chatted entitlements_of_bootstrap st (Provisioner.Reconcile bootstrap_env render r req (st, attempts)).2.1.
Proof.
  assert (∀ url token, runs (FetchEntitlements sdk url_Parse default_transport background url token)
    (entitlements_of_bootstrap url token)) by (intros; apply runs_FetchEntitlements).
  apply (provisioner_keeps bootstrap_env (chatted entitlements_of_bootstrap st)).
  - intros a. by apply chatted_act.
  - apply chatted_Now.
  - apply chatted_draw.
  - apply chatted_refl.
Qed.

(** ** Provisioners *)

Section provisioner_facts.
Implicit Types (c : Providers.client) (x : sent).

Lemma attempted_answer ctx c r l o :
  attempted sdk ctx c r l o → ∃ bypass w w', sdk c bypass r w = (o, w').
Proof. destruct 1; by eexists _, _, _. Qed.
Lemma attempted_request ctx c r l o x :
  attempted sdk ctx c r l o → x ∈ l → sent_client x = c ∧ sent_request x = r.
Proof. destruct 1; intros Hx; repeat (apply elem_of_cons in Hx as [->|Hx]; [done|]); by apply not_elem_of_nil in Hx. Qed.
Lemma mutating_write x l : x ∈ l → mutates (sent_request x) = true → x ∈ writes_of l.
Proof. intros Hx Hm. apply list_elem_of_In, filter_In. split; [by apply list_elem_of_In|done]. Qed.
Lemma only_client_of c l x : only_client c l → x ∈ l → sent_client x = c.
Proof. intros Hl. by apply (proj1 (Forall_forall _ _) Hl). Qed.

(** What a request that changes coderd is, in a run that is to make sure of a key,
    or to remove one. *)
Lemma key_ensured_change c req l o x :
  key_ensured sdk background c req l o → x ∈ l → mutates (sent_request x) = true →
  ∃ org, organization_is sdk c (or_default_organization (epk_OrganizationName req)) org ∧
    the_key sdk c org (epk_KeyName req) None ∧ sent_request x = creation org req.
Proof.
  intros [_ H] Hx Hm. pose proof (mutating_write _ _ Hx Hm) as Hw. cbv zeta in H.
  assert (writes_of l = [] ∨ ∃ org o', organization_is sdk c
    (or_default_organization (epk_OrganizationName req)) org ∧
    the_key sdk c org (epk_KeyName req) None ∧
    attempted sdk background c (creation org req) (writes_of l) o') as [Hn|(org & o' & Ho & Hk & Ha)].
  { destruct o as [r|e|e]; [|done..]. destruct H as (_ & _ & _ & _ & H). destruct (String.eqb (epr_Key r) ""); [by left|].
    right. by exists (epr_OrganizationID r), (Ret (epr_Key r)). }
  - rewrite Hn in Hw. by apply not_elem_of_nil in Hw.
  - exists org. split; [done|]. split; [done|]. by eapply attempted_request.
Qed.
Lemma key_removed_change c org key l o x :
  key_removed sdk background c org key l o → x ∈ l → mutates (sent_request x) = true →
  ∃ id, organization_is sdk c (or_default_organization org) id ∧
    sent_request x = DeleteKey id key.
Proof.
  intros [_ H] Hx Hm. pose proof (mutating_write _ _ Hx Hm) as Hw. cbv zeta in H.
  assert (writes_of l = [] ∨ ∃ id o', organization_is sdk c
    (or_default_organization org) id ∧
    attempted sdk background c (DeleteKey id key) (writes_of l) o') as [Hn|(id & o' & Ho & Ha)].
  { destruct o as [u|e|e]; [|done..]. destruct H as (id & o' & H & _). right. by exists id, o'. }
  - rewrite Hn in Hw. by apply not_elem_of_nil in Hw.
  - exists id. split; [done|]. by eapply attempted_request.
Qed.

Context (p0 : CoderProvisioner).
#[local] Abbreviation client_of url token c := (newAuthenticatedClient url_Parse default_transport url token = Ret c).

(** External provisioners are licensed: the status of the control plane says so,
    or coderd did. *)
Definition licensed_by_coderd cp token : Prop :=
  (EntitlementsLastChecked (cp_Status cp) ≠ None ∧
   Entitled (trim_space (ExternalProvisionerDaemonsEntitlement (cp_Status cp))) = true) ∨
  ∃ c bypass e v w w', client_of (URL (cp_Status cp)) token c ∧
    sdk c bypass GetEntitlements w = (Ret e, w') ∧
    feature e FeatureExternalProvisionerDaemons = Some v ∧ Entitled v = true.

Definition entitled_plane cp token : Prop := plane_read cluster p0 cp ∧ token_read cluster p0 cp token ∧ licensed_by_coderd cp token.

Let name := provisionerKeyName p0.
Let orgName := or_default_organization (provisionerOrganizationName (pvs_OrganizationName (pv_Spec p0))).

(** The creation of the provisioner's key, which the listing did not have. *)
Definition creation cp token x : Prop := ∃ org,
  client_of (URL (cp_Status cp)) token (sent_client x) ∧
  organization_is sdk (sent_client x) orgName org ∧
  the_key sdk (sent_client x) org name None ∧
  sent_request x = CreateProvisionerKey org name (pvs_Tags (pv_Spec p0)).
Definition removal url token org key x : Prop := ∃ id,
  client_of url token (sent_client x) ∧
  organization_is sdk (sent_client x) (or_default_organization org) id ∧
  sent_request x = DeleteKey id key.

#[local] Abbreviation recorded_or f desired := (recorded (f (pv_Status p0)) desired).

(** The requests that change coderd. *)
Inductive provisioner_change x : Prop :=
  | changes_create cp token : entitled_plane cp token → creation cp token x → provisioner_change x
  | changes_drifted cp token : entitled_plane cp token →
      driftDetected (key_request_of p0 cp token) (pv_Status p0) = true →
      removal (recorded_or pst_ControlPlaneURL (URL (cp_Status cp))) token
        (recorded_or pst_OrganizationName (provisionerOrganizationName (pvs_OrganizationName (pv_Spec p0))))
        (recorded_or pst_ProvisionerKeyName name) x → provisioner_change x
  | changes_unreadable cp token c org k : entitled_plane cp token →
      client_of (URL (cp_Status cp)) token c → the_key sdk c org name (Some k) →
      removal (URL (cp_Status cp)) token (provisionerOrganizationName (pvs_OrganizationName (pv_Spec p0))) name x →
      provisioner_change x
  | changes_last cp token : deleting p0 = true →
      deletion_plane cluster p0 cp → token_read cluster p0 cp token →
      removal (recorded_or pst_ControlPlaneURL (trim_space (URL (cp_Status cp)))) token
        (recorded_or pst_OrganizationName (provisionerOrganizationName (pvs_OrganizationName (pv_Spec p0))))
        (recorded_or pst_ProvisionerKeyName name) x → provisioner_change x.

(** All requests carry a token that was read for the provisioner, and go to its
    control plane or the one that is recorded. *)
Definition addressed x : Prop := ∃ cp token url,
  (plane_read cluster p0 cp ∨ deletion_plane cluster p0 cp) ∧ token_read cluster p0 cp token ∧
  client_of url token (sent_client x) ∧
  url ∈ [URL (cp_Status cp); trim_space (URL (cp_Status cp)); pst_ControlPlaneURL (pv_Status p0)].

Definition provisioner_message (m : message) : Prop := ∃ x, m = ToCoderd x ∧ addressed x ∧
  (mutates (sent_request x) = true → provisioner_change x).

(** The plaintext is that of a key which coderd made for this provisioner, and
    lists. *)
Definition made_by_coderd cp token (plaintext : string) : Prop := ∃ c org id l,
  client_of (URL (cp_Status cp)) token c ∧ organization_is sdk c orgName org ∧
  attempted sdk background c
    (CreateProvisionerKey org name (pvs_Tags (pv_Spec p0))) l (Ret plaintext) ∧
  the_key sdk c org name (Some {| key_ID := id; key_Name := name |}).

Definition writes_secret (a : action) : bool :=
  match a with ACreate KSecret _ | AUpdate KSecret _ => true | _ => false end.
(** A write of the key's secret keeps the plaintext that is there, or has the one
    of coderd. *)
Definition secret_write (a : action) : Prop := ∃ cp token plaintext, entitled_plane cp token ∧
  written KSecret (new_secret (Namespace (pv_meta p0), provisionerSecretName p0))
    (key_secret p0 (provisionerSecretName p0) (provisionerSecretKey p0) plaintext) a ∧
  (plaintext = "" ∨ made_by_coderd cp token plaintext).

(** *** From the linked world to the cluster and coderd *)

#[local] Abbreviation bootstrap_leads_to := (leads_to entitlements_of_bootstrap).

Lemma bootstrap_leads a s o s' : bootstrap_env a s = (o, s') → ∃ l, bootstrap_leads_to a l o.
Proof.
  intros H. apply (linked_leads_to _ entitlements_of_bootstrap) in H as (l & _ & Hl); [by exists l|].
  intros. apply runs_FetchEntitlements.
Qed.
Lemma bootstrap_reads a s o s' : silent a = true → bootstrap_env a s = (o, s') → ∃ w w', cluster a w = (o, w').
Proof. apply silent_linked. Qed.

Lemma plane_read_linked cp : plane_read bootstrap_env p0 cp → plane_read cluster p0 cp.
Proof. intros [(w & w' & H) ?]. by split; [eapply bootstrap_reads|]. Qed.
Lemma deletion_plane_linked cp : deletion_plane bootstrap_env p0 cp → deletion_plane cluster p0 cp.
Proof. intros [(w & w' & H) ?]. by split; [eapply bootstrap_reads|]. Qed.
Lemma token_read_linked cp token : token_read bootstrap_env p0 cp token → token_read cluster p0 cp token.
Proof.
  intros [Hr (ref & secret & w & w' & Href & H & Hk)]. split; [done|].
  apply bootstrap_reads in H as (v & v' & H); [|done]. by exists ref, secret, v, v'.
Qed.
Lemma licensed_linked cp token : licensed bootstrap_env cp token → licensed_by_coderd cp token.
Proof.
  intros [H|(e & v & w & w' & H & Hv)]; [by left|]. right.
  apply bootstrap_leads in H as (l & xs & _ & [[_ He]|(c & Hc & _ & _ & _ & He)]); [by destruct (He e)|].
  destruct (He e eq_refl) as (_ & (b & u & u' & Ha)%attempted_answer). exists c, b, e, v, u, u'. by split.
Qed.

(** What coderd answered to the request for the key. *)
Lemma ensured_linked cp token r :
  ensured bootstrap_env (key_request_of p0 cp token) r →
  ∃ c org l, client_of (URL (cp_Status cp)) token c ∧ organization_is sdk c orgName org ∧
    the_key sdk c org name (Some {| key_ID := epr_KeyID r; key_Name := name |}) ∧
    (epr_Key r = "" ∨
     attempted sdk background c (CreateProvisionerKey org name (pvs_Tags (pv_Spec p0))) l (Ret (epr_Key r))).
Proof.
  intros (w & w' & H). apply bootstrap_leads in H as (l & xs & _ & [[_ He]|(c & Hc & _ & _ & _ & H)]); [by destruct (He r)|].
  cbv zeta in H. destruct H as (Horg & Hname & _ & Hk & Hw). cbn in Hname, Hw, Horg, Hk, Hc.
  exists c, (epr_OrganizationID r), (writes_of xs). split; [done|]. split; [done|]. split; [done|].
  destruct (String.eqb_spec (epr_Key r) ""); [by left|]. right. by destruct Hw as (_ & _ & Hw).
Qed.

Lemma key_outcome_linked cp token k :
  key_outcome bootstrap_env p0 (key_request_of p0 cp token) k →
  keyMaterial k = "" ∨ made_by_coderd cp token (keyMaterial k).
Proof.
  intros [_ [(Hne & r & Hr & Hk)|[Hk _]]]; [|by left]. right. rewrite <-Hk in *.
  apply ensured_linked in Hr as (c & org & l & Hc & Ho & Hl & [He|Ha]); [done|]. by exists c, org, (epr_KeyID r), l.
Qed.

(** *** The calls, one by one *)

Lemma told_message {A} (R : list sent → outcome goerror A → Prop) l o m :
  told R l o → m ∈ l → ∃ xs x, R xs o ∧ m = ToCoderd x ∧ x ∈ xs.
Proof. intros (xs & -> & HR) (x & -> & Hx)%list_elem_of_fmap. by exists xs, x. Qed.

(** The client of the messages, if there are any. *)
Lemma by_client_message {A} url token (R : Providers.client → list sent → outcome goerror A → Prop) xs o x :
  with_client url_Parse default_transport url token R xs o → x ∈ xs →
  (∀ c, R c xs o → only_client c xs) → client_of url token (sent_client x) ∧ R (sent_client x) xs o.
Proof.
  intros [[-> _]|(c & Hc & _ & _ & HR)] Hx Ho; [by apply not_elem_of_nil in Hx|].
  assert (sent_client x = c) as -> by (eapply only_client_of; [by apply Ho|done]). done.
Qed.

Lemma removal_message url token org key l o m :
  bootstrap_leads_to (ADeleteProvisionerKey url token org key) l o → m ∈ l →
  ∃ x, m = ToCoderd x ∧ client_of url token (sent_client x) ∧ (mutates (sent_request x) = true → removal url token org key x).
Proof.
  intros H Hx. destruct (told_message _ _ _ _ H Hx) as (xs & x & HR & -> & Hin). exists x. split; [done|].
  eapply by_client_message in HR as [Hc HR]; [|done|by intros c []]. split; [done|]. intros Hm.
  destruct (key_removed_change _ _ _ _ _ _ HR Hin Hm) as (id & Ho & Hr). by exists id.
Qed.

Lemma creation_message cp token l o m :
  bootstrap_leads_to (AEnsureProvisionerKey (ensure_request (key_request_of p0 cp token))) l o → m ∈ l →
  ∃ x, m = ToCoderd x ∧ client_of (URL (cp_Status cp)) token (sent_client x) ∧
    (mutates (sent_request x) = true → creation cp token x).
Proof.
  intros H Hx. destruct (told_message _ _ _ _ H Hx) as (xs & x & HR & -> & Hin). exists x. split; [done|].
  eapply by_client_message in HR as [Hc HR]; [|done|by intros c []]. split; [done|]. intros Hm.
  destruct (key_ensured_change _ _ _ _ _ HR Hin Hm) as (org & Ho & Hk & Hr). by exists org.
Qed.

Lemma entitlements_message url token l o m :
  bootstrap_leads_to (AEntitlements url token) l o → m ∈ l →
  ∃ x, m = ToCoderd x ∧ client_of url token (sent_client x) ∧ mutates (sent_request x) = false.
Proof.
  intros H Hx. destruct (told_message _ _ _ _ H Hx) as (xs & x & HR & -> & Hin). exists x. split; [done|].
  eapply by_client_message in HR as [Hc [HR _]]; [|done|by intros c [? _]; apply reads_client]. split; [done|].
  by apply (proj1 (Forall_forall _ _) HR x Hin).
Qed.

Lemma recorded_either value desired : recorded value desired = desired ∨ recorded value desired = value.
Proof. unfold recorded. destruct (String.eqb value ""); auto. Qed.

Lemma key_call_message cp token a l o m :
  entitled_plane cp token → key_call bootstrap_env (key_request_of p0 cp token) (pv_Status p0) a →
  bootstrap_leads_to a l o → m ∈ l → provisioner_message m.
Proof.
  intros He Ha Hl Hm. destruct He as (Hp & Ht & Hlic) eqn:E. clear E.
  assert (∀ x url, client_of url token (sent_client x) →
    url ∈ [URL (cp_Status cp); trim_space (URL (cp_Status cp)); pst_ControlPlaneURL (pv_Status p0)] → addressed x) as Hto.
  { intros x url Hc Hu. exists cp, token, url. split; [by left|done]. }
  destruct Ha as [|Hdrift|r Hr Hk]; cbn [kr_CoderURL kr_SessionToken kr_OrganizationName kr_KeyName key_request_of] in *.
  - destruct (creation_message _ _ _ _ _ Hl Hm) as (x & -> & Hc & Hx). exists x. split; [done|].
    split; [eapply Hto; [exact Hc|by left]|]. intros Hmut. eapply changes_create; [done|by apply Hx].
  - destruct (removal_message _ _ _ _ _ _ _ Hl Hm) as (x & -> & Hc & Hx). exists x. split; [done|]. split.
    { eapply Hto; [exact Hc|]. destruct (recorded_either (pst_ControlPlaneURL (pv_Status p0)) (URL (cp_Status cp))) as [->| ->];
        [by left|by right; right; left]. }
    intros Hmut. eapply changes_drifted; [done|done|by apply Hx].
  - destruct (removal_message _ _ _ _ _ _ _ Hl Hm) as (x & -> & Hc & Hx). exists x. split; [done|].
    split; [eapply Hto; [exact Hc|by left]|]. intros Hmut.
    apply ensured_linked in Hr as (c & org & l' & Hc' & _ & Hkey & _).
    eapply changes_unreadable; [done|exact Hc'|exact Hkey|by apply Hx].
Qed.

(** A call that leads to no message leads to none that needs a reason. *)
Lemma silent_message a l o m P : silent a = true → bootstrap_leads_to a l o → m ∈ l → P.
Proof. intros Ha ->%silent_leads_to Hm; [by apply not_elem_of_nil in Hm|done]. Qed.

Lemma object_call_written cp p a :
  object_call p0 cp p a → silent a = true ∧ writes_secret a = false.
Proof. by destruct 1 as [? []|? []|? ? []|? ? ? []]. Qed.

Lemma entitled_linked cp token :
  plane_read bootstrap_env p0 cp → token_read bootstrap_env p0 cp token → licensed bootstrap_env cp token →
  entitled_plane cp token.
Proof. intros. split; [by apply plane_read_linked|]. split; [by apply token_read_linked|by apply licensed_linked]. Qed.

Lemma provisioner_call_message a l o m :
  provisioner_call bootstrap_env p0 a → bootstrap_leads_to a l o → m ∈ l → provisioner_message m.
Proof.
  intros Ha Hl Hm.
  destruct Ha as [|cp r|cp token Hp Ht| |cp token a Hp Ht Hlic Hk|cp token k a Hp Ht Hlic Hk Hw|cp p a Hp Hkn Ho|p Hkn].
  - by refine (silent_message _ _ _ _ _ _ Hl Hm).
  - by refine (silent_message _ _ _ _ _ _ Hl Hm).
  - destruct (entitlements_message _ _ _ _ _ Hl Hm) as (x & -> & Hc & Hx). exists x. split; [done|]. split; [|by rewrite Hx].
    exists cp, token, (URL (cp_Status cp)). split; [left; by apply plane_read_linked|].
    split; [by apply token_read_linked|]. split; [done|by left].
  - by refine (silent_message _ _ _ _ _ _ Hl Hm).
  - eapply key_call_message; [by apply entitled_linked|done..].
  - exact (silent_message _ _ _ _ _ (written_silent _ _ _ _ Hw) Hl Hm).
  - exact (silent_message _ _ _ _ _ (proj1 (object_call_written _ _ _ Ho)) Hl Hm).
  - by refine (silent_message _ _ _ _ _ _ Hl Hm).
Qed.

Lemma provisioner_call_secret a :
  provisioner_call bootstrap_env p0 a → writes_secret a = true → secret_write a.
Proof.
  intros [|cp r|cp token Hp Ht| |cp token a' Hp Ht Hlic Hk|cp token k a' Hp Ht Hlic Hk Hw|cp p a' Hp Hkn Ho|p Hkn] Hs;
    try discriminate Hs.
  - by destruct Hk.
  - exists cp, token, (keyMaterial k). split; [by apply entitled_linked|]. split; [exact Hw|by apply key_outcome_linked].
  - apply object_call_written in Ho as [_ Ho]. by rewrite Ho in Hs.
Qed.

Lemma deletion_message o acts a :
  deleting p0 = true → deletion_run bootstrap_env p0 o acts → a ∈ acts →
  writes_secret a = false ∧ ∀ l o m, bootstrap_leads_to a l o → m ∈ l → provisioner_message m.
Proof.
  intros Hdel (reads & del & last & -> & Hr & Hd & Hlast) Ha.
  assert (∀ a, a ∈ last → a = release p0) as Hl.
  { destruct o as [res|e|e]; [destruct Hlast as (_ & -> & _)|destruct Hlast as [->|[-> _]]|destruct Hlast as [->| ->]];
      intros b Hb; try (by apply not_elem_of_nil in Hb); by apply list_elem_of_singleton in Hb. }
  rewrite !elem_of_app in Ha. destruct Ha as [Ha|[Ha|Ha]].
  - apply (proj1 (Forall_forall _ _) Hr) in Ha as []; (split; [done|]); intros l o' m Hle Hm; by refine (silent_message _ _ _ _ _ _ Hle Hm).
  - destruct Hd as [->|(b & -> & Hb)]; [by apply not_elem_of_nil in Ha|]. apply list_elem_of_singleton in Ha as ->.
    destruct Hb as [cp token url Hp Ht Hu ->]. split; [done|]. intros l o' m H Hm.
    destruct (removal_message _ _ _ _ _ _ _ H Hm) as (x & -> & Hc & Hx). exists x. split; [done|]. split.
    + eexists cp, token, _. split; [right; by apply deletion_plane_linked|]. split; [by apply token_read_linked|].
      split; [exact Hc|]. destruct (recorded_either (pst_ControlPlaneURL (pv_Status p0)) (trim_space (URL (cp_Status cp)))) as [->| ->];
        [by right; left|by right; right; left].
    + intros Hmut. eapply changes_last; [done|by apply deletion_plane_linked|by apply token_read_linked|by apply Hx].
  - apply Hl in Ha as ->. split; [done|]. intros l o' m H Hm. by refine (silent_message _ _ _ _ _ _ H Hm).
Qed.

(** All calls about the provisioner. *)
Lemma object_message o acts a :
  object_calls bootstrap_env p0 o acts → a ∈ acts →
  (writes_secret a = true → secret_write a) ∧ ∀ l o m, bootstrap_leads_to a l o → m ∈ l → provisioner_message m.
Proof.
  unfold object_calls. destruct (deleting p0) eqn:Hdel, (finalized p0).
  - intros Hr Ha. destruct (deletion_message _ _ _ Hdel Hr Ha) as [Hs Hmsg]. split; [by rewrite Hs|done].
  - intros [-> _] Ha. by apply not_elem_of_nil in Ha.
  - intros Hall Ha. pose proof (proj1 (Forall_forall _ _) Hall a Ha) as Hc.
    split; [by apply provisioner_call_secret|]. intros l o' m. by apply provisioner_call_message.
  - intros -> ->%list_elem_of_singleton. split; [done|]. intros l o' m H Hm. by refine (silent_message _ _ _ _ _ _ H Hm).
Qed.
End provisioner_facts.

(** C5: what the reconciliation of a provisioner asks of coderd, with the client
    that really talks to it.  Every message of a run goes to coderd, with the
    operator's token that was read for the provisioner's control plane, at the
    control plane's URL or the recorded one.  A request that changes coderd creates
    the provisioner's key, which coderd's listing did not have, or deletes a key:
    the recorded one after the spec has changed, the provisioner's own one because
    coderd has it and does not tell its plaintext, or that of a provisioner that is
    being deleted.  Creations, and deletions for a live provisioner, are only asked
    for when external provisioners are licensed.  And the secret is only written
    with the plaintext it has, or with that of a key which coderd accepted for this
    provisioner and lists. *)
Theorem provisioner_and_coderd `{!HasClock W} `{!HasRand W} (render : text → string) (r : provisioner_reconciler)
    (req : object_key) (st : kst conversation) (attempts : gmap string Z) :
  let '(_, (st', _)) := Provisioner.Reconcile bootstrap_env render r req (st, attempts) in
  ∃ acts said, made acts st st' ∧ c_calls (k_world st') = c_calls (k_world st) ++ said ∧
    (said = [] ∧ Forall (λ a, writes_secret a = false) acts ∨
     ∃ p0, found cluster req p0 ∧ Forall (provisioner_message p0) said ∧
       Forall (λ a, writes_secret a = true → secret_write p0 a) acts).
Proof.
  pose proof (provisioner_run bootstrap_env render r req st attempts) as Hrun.
  pose proof (provisioner_chats render r req st attempts) as Hchat.
  destruct (Provisioner.Reconcile bootstrap_env render r req (st, attempts)) as [o [st' attempts']]. cbn [fst snd] in Hchat.
  destruct Hrun as (acts & late & Hm & Hcalls). destruct (chatted_made _ _ _ _ Hchat Hm) as (said & Hsaid & Hc).
  exists (acts ++ late), said. split; [exact Hm|]. split; [exact Hsaid|].
  assert (∀ acts, chat entitlements_of_bootstrap acts said → Forall (λ a, silent a = true) acts → said = []) as Hnone.
  { intros acts' (ls & -> & Hls) Hs. clear -Hls Hs. induction Hls as [|a l acts' ls [o Ho] _ IH]; [done|].
    apply Forall_cons in Hs as [Ha Hs]. apply silent_leads_to in Ho as ->; [|done]. by apply IH. }
  destruct Hcalls as [(-> & -> & _)|(body & (rest & -> & Hrest) & [p Hlate]%deferred_late & _)].
  { left. split; [by eapply Hnone|constructor]. }
  assert (∀ a, a ∈ late → silent a = true ∧ writes_secret a = false) as Hl.
  { intros a Ha. destruct Hlate as [->|[now ->]]; [by apply not_elem_of_nil in Ha|]. by apply list_elem_of_singleton in Ha as ->. }
  destruct Hrest as [[-> _]|(p0 & [(w & w' & Hget) Hkey] & Ho)].
  { left. split.
    - eapply Hnone; [exact Hc|]. constructor; [done|]. apply Forall_forall. intros a Ha. by apply Hl.
    - constructor; [done|]. apply Forall_forall. intros a Ha. by apply Hl. }
  right. exists p0. split; [split; [by eapply bootstrap_reads|done]|]. split; apply Forall_forall.
  - intros m Hin. destruct (chat_message _ _ _ _ Hc Hin) as (a & l & o' & Ha & Hle & Hml).
    apply elem_of_app in Ha as [[Ha|Ha]%elem_of_cons|Ha].
    + refine (silent_message _ _ _ _ _ _ Hle Hml). by rewrite Ha.
    + by eapply (proj2 (object_message p0 body rest a Ho Ha)).
    + apply Hl in Ha as [Ha _]. exact (silent_message _ _ _ _ _ Ha Hle Hml).
  - intros a Ha Hs. apply elem_of_app in Ha as [[->|Ha]%elem_of_cons|Ha]; [done| |].
    + by apply (proj1 (object_message p0 body rest a Ho Ha)).
    + apply Hl in Ha as [_ Ha]. by rewrite Ha in Hs.
Qed.

(** ** Workspace proxies *)

Section proxy_facts.
Context (p : CoderWorkspaceProxy).
Implicit Types (b : ProxyBootstrapSpec).

(** The facts in terms of the cluster. *)
Lemma read_value_linked name key value :
  WorkspaceProxy.read_value bootstrap_env p name key value → WorkspaceProxy.read_value cluster p name key value.
Proof.
  intros (secret & w & w' & H & Hv). apply bootstrap_reads in H as (v & v' & H); [|done]. by exists secret, v, v'.
Qed.
Lemma token_not_read_linked b :
  WorkspaceProxy.token_not_read bootstrap_env p b → WorkspaceProxy.token_not_read cluster p b.
Proof. intros (o & w & w' & H & Ho). apply bootstrap_reads in H as (v & v' & H); [|done]. by exists o, v, v'. Qed.

Definition register_request b (credentials : string) : RegisterWorkspaceProxyRequest := {|
  rwp_CoderURL := pb_CoderURL b; rwp_SessionToken := credentials;
  rwp_ProxyName := WorkspaceProxy.or_else (pb_ProxyName b) (Name (wp_meta p));
  rwp_DisplayName := pb_DisplayName b; rwp_Icon := pb_Icon b |}.

(** The proxy is to be registered: its secret gave no token, and the credentials
    were read. *)
Definition to_register b credentials : Prop :=
  wps_Bootstrap (wp_Spec p) = Some b ∧ WorkspaceProxy.token_not_read cluster p b ∧
  WorkspaceProxy.credentials_read cluster p b credentials.

(** The messages of a run about the proxy: those of one registration, at the URL
    and with the credentials of the spec. *)
Definition registration_messages (said : list message) : Prop := ∃ b credentials xs (o : outcome goerror _),
  to_register b credentials ∧ said = ToCoderd <$> xs ∧
  with_client url_Parse default_transport (pb_CoderURL b) credentials
    (λ c, proxy_registered sdk background c (register_request b credentials)) xs o.

(** coderd accepted the proxy, and gave it the token. *)
Definition accepted b credentials (token : string) : Prop := ∃ c l u,
  newAuthenticatedClient url_Parse default_transport (pb_CoderURL b) credentials = Ret c ∧ token = up_ProxyToken u ∧
  let request := register_request b credentials in
  ((∃ px, proxy_is sdk c (rwp_ProxyName request) (Some px) ∧ attempted sdk background c (patch_of request px) l (Ret u)) ∨
   proxy_is sdk c (rwp_ProxyName request) None ∧ attempted sdk background c (creation_of request) l (Ret u)).

(** A secret is only written with the token of such an acceptance. *)
Definition token_write (a : action) : Prop := ∃ b credentials token,
  to_register b credentials ∧ accepted b credentials token ∧
  written KSecret (new_secret (WorkspaceProxy.proxy_key p (WorkspaceProxy.token_secret_name p b)))
    (WorkspaceProxy.token_secret p DefaultTokenSecretKey token) a.

Lemma registered_as_linked b r :
  WorkspaceProxy.registered_as bootstrap_env p b r →
  ∃ credentials, WorkspaceProxy.credentials_read cluster p b credentials ∧ accepted b credentials (rwr_ProxyToken r).
Proof.
  intros (credentials & w & w' & Hc & H). exists credentials. split; [by apply read_value_linked|].
  apply bootstrap_leads in H as (l & xs & _ & [[_ He]|(c & Hcl & _ & _ & _ & H)]); [by destruct (He r)|].
  destruct H as [[_ He]|[(px & o' & Hp & Ha & Ho)|(o' & Hp & Ha & Ho)]]; [by destruct (He r)|..];
    destruct (Ho r eq_refl) as (u & -> & ->); exists c, (writes_of xs), u; (split; [exact Hcl|]); (split; [done|]).
  - left. by exists px.
  - by right.
Qed.

Lemma proxy_call_kinds a :
  WorkspaceProxy.proxy_call bootstrap_env p a →
  (WorkspaceProxy.registers a = false → silent a = true) ∧ (writes_secret a = true → token_write a) ∧
  (WorkspaceProxy.registers a = true → ∃ b credentials, to_register b credentials ∧
     a = AEnsureWorkspaceProxy (register_request b credentials)).
Proof.
  intros Ha. destruct Ha as [b Hb|b Hb Hn|b credentials Hb Hn Hc|b r a Hb Hn Hr Hw|url ref registered a _ _ Hw|url ref registered d a _ _ _ Hw|url ref registered d s _ _ _ _].
  - done.
  - done.
  - split; [done|]. split; [done|]. intros _. exists b, credentials. split; [|done].
    split; [done|]. split; [by apply token_not_read_linked|by apply read_value_linked].
  - split; [by destruct Hw|]. split; [|by destruct Hw]. intros _.
    apply registered_as_linked in Hr as (credentials & Hc & Ha). exists b, credentials, (rwr_ProxyToken r).
    split; [split; [done|]; split; [by apply token_not_read_linked|done]|]. by split.
  - by destruct Hw.
  - by destruct Hw.
  - done.
Qed.
End proxy_facts.

(** A run with at most one call that leads to messages has its messages. *)
Lemma chat_once entitlements loud acts said :
  chat entitlements acts said → Forall (λ a, loud a = false → silent a = true) acts →
  (length (List.filter loud acts) ≤ 1)%nat →
  said = [] ∨ ∃ a o, a ∈ acts ∧ loud a = true ∧ leads_to entitlements a said o.
Proof.
  intros (ls & -> & Hls). induction Hls as [|a l acts ls [o Ho] Hls IH]; [by left|].
  intros [Ha Hs]%Forall_cons Hn. cbn [List.filter] in Hn. destruct (loud a) eqn:El.
  - assert (concat ls = []) as Hnil.
    { cbn in Hn. clear -Hls Hs Hn. induction Hls as [|a l acts ls [o Ho] _ IH]; [done|].
      apply Forall_cons in Hs as [Ha Hs]. cbn in Hn. destruct (loud a); [cbn in Hn; lia|].
      apply silent_leads_to in Ho as ->; [|by apply Ha]. by apply IH. }
    right. exists a, o. change (concat (l :: ls)) with (l ++ concat ls). rewrite Hnil, app_nil_r. split; [by left|done].
  - apply silent_leads_to in Ho as ->; [|by apply Ha]. change (concat ([] :: ls)) with (concat ls). destruct (IH Hs Hn) as [->|(b & o' & Hb & ? & ?)]; [by left|].
    right. exists b, o'. split; [by right|done].
Qed.

(** C13: what the reconciliation of a workspace proxy asks of coderd, with the client
    that really talks to it.  All messages of a run are those of one registration,
    made only when the proxy's secret gave no token, at the URL and with the
    credentials its spec names: a query for the proxy of that name, then at most
    one change, which patches the proxy found or creates the missing one, repeated
    without the bypass header only if coderd refuses it ([proxy_registered]).
    Secrets are only written with a token that coderd gave in such a
    registration. *)
Theorem proxy_and_coderd (r : WorkspaceProxy.proxy_reconciler) (req : object_key) (st : kst conversation) :
  let '(_, st') := WorkspaceProxy.Reconcile bootstrap_env r req st in
  ∃ acts said, made acts st st' ∧ c_calls (k_world st') = c_calls (k_world st) ++ said ∧
    (said = [] ∧ Forall (λ a, writes_secret a = false) acts ∨
     ∃ p, WorkspaceProxy.proxy_fetched cluster req p ∧ (said = [] ∨ registration_messages p said) ∧
       Forall (λ a, writes_secret a = true → token_write p a) acts).
Proof.
  pose proof (WorkspaceProxy.proxy_run bootstrap_env r req st) as Hrun.
  pose proof (proxy_chats r req st) as Hchat.
  destruct (WorkspaceProxy.Reconcile bootstrap_env r req st) as [o st']. cbn [snd] in Hchat.
  destruct Hrun as [(acts & Hm & Hn & Hacts) _]. destruct (chatted_made _ _ _ _ Hchat Hm) as (said & Hsaid & Hc).
  exists acts, said. split; [exact Hm|]. split; [exact Hsaid|].
  set (get := AGet CachedReader KWorkspaceProxy req) in *.
  assert (acts = [] ∨ acts = [get] → said = []) as Hnone.
  { intros Ha. destruct (chat_once _ WorkspaceProxy.registers _ _ Hc) as [|(a & o' & Ha' & Hr & _)]; [|done|done|].
    - destruct Ha as [->| ->]; by repeat constructor.
    - destruct Ha as [->| ->]; [by apply not_elem_of_nil in Ha'|]. by apply list_elem_of_singleton in Ha' as ->. }
  destruct Hacts as [->|(rest & -> & [->|(p & [(w & w' & Hget) Hkey] & Hall)])].
  { left. split; [apply Hnone; by left|constructor]. }
  { left. split; [apply Hnone; by right|by repeat constructor]. }
  right. exists p. split; [split; [by eapply bootstrap_reads|done]|]. split.
  - destruct (chat_once _ WorkspaceProxy.registers _ _ Hc) as [|(a & o' & Ha' & Hr & Hle)]; [|done|by left|].
    + constructor; [done|]. eapply Forall_impl; [exact Hall|]. intros a Ha. by apply (proxy_call_kinds p).
    + right. apply elem_of_cons in Ha' as [->|Ha]; [done|].
      pose proof (proj1 (Forall_forall _ _) Hall a Ha) as Hp. apply proxy_call_kinds in Hp as (_ & _ & Hp).
      destruct (Hp Hr) as (b & credentials & Hreg & ->). destruct Hle as (xs & -> & Hx).
      by exists b, credentials, xs, o'.
  - constructor; [done|]. eapply Forall_impl; [exact Hall|]. intros a Ha. by apply (proxy_call_kinds p).
Qed.

(** ** Control planes *)

Section plane_facts.
Context (cp : CoderControlPlane).

#[local] Abbreviation plane_leads_to := (leads_to entitlements_of_plane).
#[local] Abbreviation url_of_plane := (controlPlaneSDKURL (Some cp)).

Lemma plane_leads a s o s' : plane_env a s = (o, s') → ∃ l, plane_leads_to a l o.
Proof.
  intros H. apply (linked_leads_to _ entitlements_of_plane) in H as (l & _ & Hl); [by exists l|].
  intros. apply LicenseClient.runs_InspectEntitlements.
Qed.
Lemma plane_reads a s o s' : silent a = true → plane_env a s = (o, s') → ∃ w w', cluster a w = (o, w').
Proof. apply silent_linked. Qed.

Lemma secret_value_linked name key value :
  OperatorAccess.secret_value plane_env cp name key value → OperatorAccess.secret_value cluster cp name key value.
Proof.
  intros (Hne & secret & w & w' & H & Hv). split; [done|]. apply plane_reads in H as (v & v' & H); [|done].
  by exists secret, v, v'.
Qed.
Lemma postgres_url_linked url : postgres_url plane_env cp url → postgres_url cluster cp url.
Proof.
  intros (v & Hv & [H|(Hb & source & ref & Hs & Hr & H)]); exists v; (split; [done|]); [by left|right].
  split; [done|]. exists source, ref. do 2 (split; [done|]). by apply secret_value_linked.
Qed.
Lemma token_known_linked existing : token_known plane_env cp existing → token_known cluster cp existing.
Proof. intros [H|H]; [by left|right; by apply secret_value_linked]. Qed.
Lemma license_value_linked jwt : license_value plane_env cp jwt → license_value cluster cp jwt.
Proof.
  intros (ref & secret & value & w & w' & Href & H & Hv). apply plane_reads in H as (v & v' & H); [|done].
  by exists ref, secret, value, v, v'.
Qed.

(** The database of the control plane gave the operator the token. *)
Definition token_granted (token : string) : Prop := ∃ url existing cs,
  postgres_url cluster cp url ∧ token_known cluster cp existing ∧ token ≠ "" ∧
  OperatorDatabase.transacted database url
    (OperatorDatabase.token_ensured database (token_request cp url existing)) cs (Ret token).

Lemma token_given_linked token : token_given plane_env cp token → token_granted token.
Proof.
  intros (url & existing & w & w' & Hu & He & Hne & H). apply plane_leads in H as (l & cs & _ & Ht).
  exists url, existing, cs. split; [by apply postgres_url_linked|]. split; [by apply token_known_linked|by split].
Qed.

(** The operator's secret with a token in it, which the API server has or has
    accepted. *)
Definition token_stored (token : string) (secret : Secret) : Prop :=
  key_of (secret_meta secret) = (Namespace (cp_meta cp), operatorAccessTokenSecretName (Some cp)) ∧
  secret_Data secret !! DefaultTokenSecretKey = Some token ∧ held cluster KSecret secret.

Lemma held_linked (secret : Secret) : held plane_env KSecret secret → held cluster KSecret secret.
Proof.
  intros [(w & w' & H)|(final & w & w' & [H|H])].
  - left. exact (plane_reads (AGet CachedReader KSecret _) w (Ret secret) w' eq_refl H).
  - destruct (plane_reads (AUpdate KSecret secret) w (Ret final) w' eq_refl H) as (v & v' & Hc).
    right. exists final, v, v'. by left.
  - destruct (plane_reads (ACreate KSecret secret) w (Ret final) w' eq_refl H) as (v & v' & Hc).
    right. exists final, v, v'. by right.
Qed.

(** The token the operator uses: what it read from its secret, after the database
    had granted it a token and the secret had been made to hold that one.  It is
    the granted token, unless the read shows another secret than the one that was
    stored: the cache the operator reads from may be behind, or somebody else may
    have changed the secret. *)
Definition session_token (token : string) : Prop :=
  oa_Disabled (OperatorAccess (cp_Spec cp)) = false ∧ token ≠ "" ∧ ∃ (read secret : Secret) granted,
    (∃ w w', cluster (AGet CachedReader KSecret
       (Namespace (cp_meta cp), trim_space (operatorAccessTokenSecretName (Some cp)))) w = (Ret read, w')) ∧
    secret_Data read !! DefaultTokenSecretKey = Some token ∧
    token_granted granted ∧ token_stored granted secret ∧ (read = secret → token = granted).

Lemma session_token_linked r ready key res next token :
  access_outcome plane_env r cp (ControlPlaneStatus.desiredStatus cp ready key) res next → reachable_plane next →
  operator_token plane_env cp next token → session_token token.
Proof.
  intros [_ H] [_ Hready] (ref & Href & Ht). cbv zeta in H.
  destruct (oa_Disabled _) eqn:Hd; [destruct H as [H _]; by rewrite H in Hready|].
  destruct (ControlPlaneStatus.hasOperatorAccessProvisioner r); [|destruct H as [H _]; by rewrite H in Hready].
  destruct H as [[H _]|(_ & Hr & _ & given & final & Hg & Hst)]; [by rewrite H in Hready|].
  rewrite Hr in Href. injection Href as <-. apply secret_value_linked in Ht as (Hne & read & w & w' & Hget & Hv).
  split; [done|]. split; [exact Hne|]. apply stored_held in Hst as (base & secret & Hf & Hk & Hheld).
  unfold token_secret in Hf. apply outcome_bind_Ret in Hf as (m & _ & [= <-]).
  eexists read, _, given. split; [by exists w, w'|]. split; [exact Hv|]. split; [by apply token_given_linked|]. split.
  - split; [exact Hk|]. split; [cbn; apply lookup_insert_eq|by apply held_linked].
  - intros ->. cbn in Hv. rewrite lookup_insert_eq in Hv. by injection Hv as <-.
Qed.

(** Coderd lists no license. *)
Definition no_license : Prop := ∃ token c w w',
  LicenseClient.newSDKLicenseClient url_Parse default_transport url_of_plane token = Ret c ∧
  session_token token ∧ sdk c false ListLicenses w = (Ret [], w').

(** The messages of one call. *)
Inductive plane_exchange : list message → Prop :=
  | exchange_token url existing cs o : oa_Disabled (OperatorAccess (cp_Spec cp)) = false →
      postgres_url cluster cp url → token_known cluster cp existing →
      OperatorDatabase.transacted database url
        (OperatorDatabase.token_ensured database (token_request cp url existing)) cs o →
      plane_exchange (ToDatabase <$> cs)
  | exchange_revocation url cs o : oa_Disabled (OperatorAccess (cp_Spec cp)) = true → postgres_url cluster cp url →
      OperatorDatabase.transacted database url
        (OperatorDatabase.token_revoked database (revocation_request cp url)) cs o →
      plane_exchange (ToDatabase <$> cs)
  | exchange_licenses token jwt xs o : session_token token → license_value cluster cp jwt →
      applied_before (cp_Status cp) jwt →
      asked url_of_plane token ListLicenses (λ x b, b = true ↔ (x : list Z) ≠ []) xs o →
      plane_exchange (ToCoderd <$> xs)
  | exchange_upload token jwt xs (o : outcome goerror ()) : session_token token → license_value cluster cp jwt →
      (¬ applied_before (cp_Status cp) jwt ∨ no_license) →
      asked url_of_plane token (AddLicenseJWT jwt) (λ _ _, True) xs o → plane_exchange (ToCoderd <$> xs)
  | exchange_entitlements token xs o : session_token token →
      entitlements_of_plane url_of_plane token xs o → plane_exchange (ToCoderd <$> xs).

(** Operator access does not touch what is known of the license. *)
Lemma applied_before_kept r ready key res next jwt :
  access_outcome plane_env r cp (ControlPlaneStatus.desiredStatus cp ready key) res next →
  applied_before next jwt ↔ applied_before (cp_Status cp) jwt.
Proof. intros [H _]. unfold applied_before. by rewrite H. Qed.

Lemma no_license_linked r ready key res next token :
  access_outcome plane_env r cp (ControlPlaneStatus.desiredStatus cp ready key) res next → reachable_plane next →
  operator_token plane_env cp next token →
  (∃ w w', plane_env (AHasAnyLicense url_of_plane token) w = (Ret false, w')) → no_license.
Proof.
  intros Ha Hr Ht (w & w' & H). apply plane_leads in H as (l & xs & _ & [[_ He]|(c & Hc & _ & v & o' & v' & Hs & x & -> & Hx)]);
    [by destruct (He false)|]. exists token, c, v, v'. split; [done|]. split; [by eapply session_token_linked|].
  destruct x as [|i x]; [done|]. assert (false = true) by (by apply Hx). done.
Qed.

(** Applying a license leaves operator access as it is. *)
Lemma license_keeps_access next res next' :
  license_outcome plane_env cp next res next' →
  OperatorTokenSecretRef next' = OperatorTokenSecretRef next ∧ OperatorAccessReady next' = OperatorAccessReady next ∧
  Phase next' = Phase next.
Proof. by destruct 1 as [? ? _ [_ (? & ? & ->)]|? ? _ [_ (? & ? & ->)]|? ? ? _ [_ (? & ? & ->)]|? ? [_ (? & ? & ->)]|? ? ? ? ? ? _ _ _ [_ (? & ? & ->)]|? ? ? ? _ _ [_ (? & ? & ->)]]. Qed.

(** The calls of the components, one by one. *)
Lemma live_call_exchange a l o :
  ControlPlane.live_call plane_env cp a → plane_leads_to a l o → l = [] ∨ plane_exchange l.
Proof.
  assert (∀ a l o, silent a = true → plane_leads_to a l o → l = [] ∨ plane_exchange l) as Hs.
  { intros a' l' o' Ha ->%silent_leads_to; [by left|done]. }
  intros Ha Hl. destruct Ha as [a Ha|a Ha|a Ha|a Ha|a Ha|a Ha|r ready key res next a Hacc Ha
    |r ready key res res' next next' a Hacc Hlic Ha|rd next a Ha].
  - refine (Hs _ _ _ _ Hl). by destruct Ha as [a _ []| |].
  - refine (Hs _ _ _ _ Hl). by destruct Ha as [a []|? ? ? _ _ []|? ? ? ? ? _ _ []].
  - refine (Hs _ _ _ _ Hl). by destruct Ha as [|? ? []].
  - refine (Hs _ _ _ _ Hl). by destruct Ha.
  - refine (Hs _ _ _ _ Hl). by destruct Ha as [? ? ? _ _ _ []|? ? _ _ []| | |].
  - destruct Ha as [name|token a Hg Hd Hw|secret Ho Hd|url existing Hu He Hd|url Hu Hd].
    + by refine (Hs _ _ _ _ Hl).
    + refine (Hs _ _ _ _ Hl). by destruct Hw.
    + by refine (Hs _ _ _ _ Hl).
    + right. destruct Hl as (cs & -> & Hc). eapply exchange_token; [done|by apply postgres_url_linked|by apply token_known_linked|exact Hc].
    + right. destruct Hl as (cs & -> & Hc). eapply exchange_revocation; [done|by apply postgres_url_linked|exact Hc].
  - destruct Ha as [name|token jwt Hr Ht Hv Hb|token jwt Hr Ht Hv Hn].
    + by refine (Hs _ _ _ _ Hl).
    + right. destruct Hl as (xs & -> & Hx). eapply exchange_licenses; [by eapply session_token_linked|by apply license_value_linked| |exact Hx].
      by apply (applied_before_kept _ _ _ _ _ jwt Hacc).
    + right. destruct Hl as (xs & -> & _ & Hx). eapply exchange_upload; [by eapply session_token_linked|by apply license_value_linked| |exact Hx].
      destruct Hn as [Hn|Hn]; [left; by rewrite <-(applied_before_kept _ _ _ _ _ jwt Hacc)|right; by eapply no_license_linked].
  - destruct Ha as [name|token Hr Ht]; [by refine (Hs _ _ _ _ Hl)|].
    right. destruct Hl as (xs & -> & Hx). eapply (exchange_entitlements token); [|exact Hx].
    destruct (license_keeps_access _ _ _ Hlic) as (Hk1 & Hk2 & Hk3).
    eapply session_token_linked; [exact Hacc|unfold reachable_plane in *; by rewrite <-Hk2, <-Hk3|].
    unfold operator_token in *. by rewrite <-Hk1.
  - refine (Hs _ _ _ _ Hl). by destruct Ha.
Qed.

(** The only secret written is the operator's, with a token it was given. *)
Definition granted_write (a : action) : Prop := ∃ token, token_granted token ∧
  written KSecret {| secret_meta := meta_of_key (Namespace (cp_meta cp), operatorAccessTokenSecretName (Some cp));
                     secret_Type := ""; secret_Data := ∅ |}
    (token_secret cp DefaultTokenSecretKey token) a.

Lemma live_call_secret a : ControlPlane.live_call plane_env cp a → writes_secret a = true → granted_write a.
Proof.
  intros [b Hb|b Hb|b Hb|b Hb|b Hb|b Hb|? ? ? ? ? b _ Hb|? ? ? ? ? ? ? b _ _ Hb|? ? b Hb] Hs.
  - by destruct Hb as [b _ []| |].
  - by destruct Hb as [b []|? ? ? _ _ []|? ? ? ? ? _ _ []].
  - by destruct Hb as [|? ? []].
  - by destruct Hb.
  - by destruct Hb as [? ? ? _ _ _ []|? ? _ _ []| | |].
  - destruct Hb as [|token b Hg _ Hw| | |]; [done| |done..]. exists token. split; [by apply token_given_linked|done].
  - by destruct Hb.
  - by destruct Hb.
  - by destruct Hb.
Qed.
End plane_facts.

(** The calls of a run: none that matters, or those about the control plane as it
    was read. *)
Lemma plane_calls req acts :
  ControlPlane.reconcile_calls plane_env req acts →
  Forall (λ a, silent a = true ∧ writes_secret a = false) acts ∨
  ∃ cp, (∃ w w', cluster (AGet CachedReader KControlPlane req) w = (Ret cp, w')) ∧
    Forall (λ a, silent a = true ∧ writes_secret a = false ∨ ControlPlane.live_call plane_env cp a) acts.
Proof.
  intros [->|(rest & -> & [->|(cp & w & w' & Hget & Hkey & Hcalls)])]; [by left; constructor|by left; repeat constructor|].
  unfold ControlPlane.object_calls in Hcalls. destruct (ControlPlane.being_deleted cp).
  - left. constructor; [done|]. destruct Hcalls as (cleaning & last & -> & Hcl & Hlast). apply Forall_app. split.
    + eapply Forall_impl; [exact Hcl|]. by intros a [].
    + destruct Hlast as [->|[-> _]]; by repeat constructor.
  - destruct Hcalls as [[_ [->| ->]]|(cp' & guard & work & -> & Hset & Hwork)]; [by left; repeat constructor..|].
    right. exists cp'. unfold ControlPlane.finalizer_set in Hset.
    destruct (ContainsFinalizer _ _).
    + destruct Hset as [-> ->]. split; [by eapply plane_reads|]. constructor; [by left|].
      eapply Forall_impl; [exact Hwork|]. by right.
    + destruct Hset as (-> & _ & v & v' & Hget'). split; [by eapply plane_reads|]. repeat (constructor; [by left|]).
      eapply Forall_impl; [exact Hwork|]. by right.
Qed.

(** C6: what the reconciliation of a control plane asks of coderd and its
    database, with the clients that really talk to them.  The messages of a run are
    those of a sequence of exchanges: with the database the control plane itself
    uses, one transaction that makes sure of the operator's token, or deletes it
    when access is disabled; and with coderd, at the control plane's own URL: a
    query of the entitlements; a query of the licenses, if the configured one was
    applied before; and one upload of the configured license, if it was not applied
    before or coderd lists none.  The token of the requests to coderd is the one
    read from the operator's own secret, after the database granted a token in a
    committed transaction and the API server had the secret with that token; it is
    the granted token whenever the read shows the secret that was stored
    ([session_token]).  The only secret written is the operator's, with a token its
    database gave in a committed transaction. *)
Theorem plane_and_coderd `{!HasClock W} (r : ControlPlaneStatus.reconciler) (req : object_key) (st : kst conversation) :
  let '(_, st') := ControlPlane.Reconcile plane_env r req st in
  ∃ acts said, made acts st st' ∧ c_calls (k_world st') = c_calls (k_world st) ++ said ∧
    (said = [] ∧ Forall (λ a, writes_secret a = false) acts ∨
     ∃ cp, (∃ w w', cluster (AGet CachedReader KControlPlane req) w = (Ret cp, w')) ∧
       (∃ ls, said = concat ls ∧ Forall (λ l, l = [] ∨ plane_exchange cp l) ls) ∧
       Forall (λ a, writes_secret a = true → granted_write cp a) acts).
Proof.
  pose proof (ControlPlane.reconcile_run plane_env r req st) as Hrun. pose proof (plane_chats r req st) as Hchat.
  destruct (ControlPlane.Reconcile plane_env r req st) as [o st']. cbn [snd] in Hchat.
  destruct Hrun as (acts & Hm & Hcalls). destruct (chatted_made _ _ _ _ Hchat Hm) as (said & Hsaid & ls & -> & Hls).
  exists acts, (concat ls). split; [exact Hm|]. split; [exact Hsaid|].
  apply plane_calls in Hcalls as [Hquiet|(cp & Hget & Hall)].
  - left. split; [|eapply Forall_impl; [exact Hquiet|]; by intros a []].
    clear -Hls Hquiet. induction Hls as [|a l acts ls [o Ho] _ IH]; [done|].
    apply Forall_cons in Hquiet as [[Ha _] Hq]. apply silent_leads_to in Ho as ->; [|done]. by apply IH.
  - right. exists cp. split; [exact Hget|]. split.
    + exists ls. split; [done|]. clear -Hls Hall. induction Hls as [|a l acts ls [o Ho] _ IH]; [constructor|].
      apply Forall_cons in Hall as [[[Ha _]|Ha] Hq]; (constructor; [|by apply IH]).
      * left. by apply silent_leads_to in Ho.
      * by eapply live_call_exchange.
    + eapply Forall_impl; [exact Hall|]. intros a [[_ Ha]|Ha]; [by rewrite Ha|by apply live_call_secret].
Qed.
End link.

(** ** Concrete runs *)

(** A coderd that licenses external provisioners, refuses the bypass header, and
    has the keys that are its world. *)
Definition example_coderd (c : Providers.client) (bypass : bool) (r : request)
    : M (list ProvisionerKey) goerror (response r) := λ keys,
  match r with
  | GetEntitlements =>
      (if bypass then Err (SDKErr (SdkError 428 "" ""))
       else Ret {| ent_Features := Some {[FeatureExternalProvisionerDaemons := EntitlementEntitled]};
                   ent_HasLicense := true; ent_Trial := false |}, keys)
  | DeleteKey _ name =>
      if bypass then (Err (SDKErr (SdkError 428 "" "")), keys)
      else (Ret tt, List.filter (λ k, negb (String.eqb (key_Name k) name)) keys)
  | r => BootstrapClient.example_coderd c bypass r keys
  end.

(** The cluster of [ProvisionerReconcile], with the control plane's URL that the
    provisioner's status records. *)
Definition recorded_at (url : string) (p : CoderProvisioner) : CoderProvisioner :=
  with_status (λ s, {| pst_ObservedGeneration := pst_ObservedGeneration s; pst_ReadyReplicas := pst_ReadyReplicas s;
    pst_Phase := pst_Phase s; pst_Conditions := pst_Conditions s; pst_OrganizationID := pst_OrganizationID s;
    pst_OrganizationName := pst_OrganizationName s; pst_ProvisionerKeyID := pst_ProvisionerKeyID s;
    pst_ProvisionerKeyName := pst_ProvisionerKeyName s; pst_TagsHash := pst_TagsHash s;
    pst_ControlPlaneRefName := pst_ControlPlaneRefName s; pst_ControlPlaneURL := url;
    pst_SecretRef := pst_SecretRef s |}) p.
Definition example_cluster (url : string) (a : action) : M (list ProvisionerKey) goerror (reply a) :=
  match a with
  | AGet rd k key =>
      match k return M (list ProvisionerKey) goerror (obj k) with
      | KProvisioner => λ keys, (Ret (recorded_at url example_provisioner), keys)
      | k => λ keys, ((ProvisionerReconcile.example_env false (AGet rd k key) tt).1, keys)
      end
  | a => λ keys, ((ProvisionerReconcile.example_env false a tt).1, keys)
  end.

#[local] Instance example_clock : HasClock (list ProvisionerKey) := λ w, (5%Z, w).
#[local] Instance example_rand : HasRand (list ProvisionerKey) := λ w, (None, w).

Definition example_run (url : string) (keys : list ProvisionerKey) :=
  Provisioner.Reconcile
    (bootstrap_env (example_cluster url) example_coderd (λ _ w, (Err (Errorf "no database" []), w))
       (λ u, Ret {| Providers.url_Raw := u; Providers.url_Scheme := "http"; Providers.url_Host := "coder" |}) true 0)
    (λ _, "text") {| pvr_Client := true; pvr_Scheme := true; pvr_BootstrapClient := true |} ("ns", "prov")
    (KSt (CSt keys []) [], ∅).

(** The requests that change coderd, with the URL and the token of their client. *)
Definition changes (said : list message) : list (string * string * request) :=
  flat_map (λ m, match m with
    | ToCoderd x => if mutates (sent_request x) then
        [(Providers.url_Raw (Providers.client_URL (sent_client x)), Providers.client_SessionToken (sent_client x), sent_request x)] else []
    | ToDatabase _ => []
    end) said.

Definition example_result (url : string) (keys : list ProvisionerKey) :=
  let '(o, (st, _)) := example_run url keys in
  (o, c_world (k_world st), changes (c_calls (k_world st))).

(** Without a key, one is made, on the second try. *)
Example key_is_made :
  let created := (" http://coder ", "operator", CreateProvisionerKey 7%Z "prov" {["scope" := "org"]}) in
  example_result "" [] = (Ret no_requeue, [{| key_ID := 9%Z; key_Name := "prov" |}], [created; created]).
Proof. vm_compute. reflexivity. Qed.

(** A key whose plaintext is not known is deleted, and another one made. *)
Example unreadable_key_is_replaced :
  let deleted := (" http://coder ", "operator", DeleteKey 7%Z "prov") in
  let created := (" http://coder ", "operator", CreateProvisionerKey 7%Z "prov" {["scope" := "org"]}) in
  example_result "" [{| key_ID := 3%Z; key_Name := "prov" |}] =
    (Ret no_requeue, [{| key_ID := 9%Z; key_Name := "prov" |}], [deleted; deleted; created; created]).
Proof. vm_compute. reflexivity. Qed.

(** When another URL is recorded, the key there is deleted with the token of the
    present control plane. *)
Example token_goes_to_recorded_url :
  head (example_result "http://old" []).2 = Some ("http://old", "operator", DeleteKey 7%Z "prov").
Proof. vm_compute. reflexivity. Qed.

End Linked.
