(* ===== verification/DocsText.v ===== *)
(** * DocsText: the texts and paths of the documentation generator

    The pure part of src/hack/gen-coder-docs-skill/main.go: sections of a text
    between markers, the paths of the manifest's routes, and what the generator
    uses of packages strings and path/filepath. *)

From S2P Require Import Prelude GoStd GoStdFacts StringFacts GoErrors Uuid TemplateFiles.

#[local] Open Scope string_scope.
#[local] Open Scope list_scope.

Module DocsText.
Import TemplateFiles.

(** ** Packages strings and path/filepath *)

Definition newline := String "010" "".

(** [strings.Index], [strings.LastIndex] *)
Fixpoint index (sub s : string) : option nat :=
  if has_prefix sub s then Some 0%nat
  else match s with String _ s' => S <$> index sub s' | EmptyString => None end.
Fixpoint last_index (sub s : string) : option nat :=
  match s with
  | String _ s' =>
      match last_index sub s' with
      | Some i => Some (S i)
      | None => if has_prefix sub s then Some 0%nat else None
      end
  | EmptyString => if has_prefix sub s then Some 0%nat else None
  end.

(** [strings.TrimRight(s, "\n")] *)
Definition trim_newlines (s : string) : string := trim_right_set ["010"%char] s.
(** [strings.Repeat("  ", n)] *)
Fixpoint indent (n : nat) : string := match n with O => "" | S n => "  " +:+ indent n end.
(** [bytes.ReplaceAll(s, "\r\n", "\n")] *)
Fixpoint normalize_lf (s : string) : string :=
  match s with
  | String "013" (String "010" s') => String "010" (normalize_lf s')
  | String a s' => String a (normalize_lf s')
  | EmptyString => ""
  end.

(** Package path/filepath on Unix. *)
Definition filepath_join (elems : list string) : string :=
  match List.filter (λ e, negb (String.eqb e "")) elems with
  | [] => ""
  | elems => path_clean (join "/" elems)
  end.
Definition rooted (p : string) : bool := has_prefix "/" p.
(** The elements of the cleaned path. *)
Definition elements (p : string) : list string := clean_elems (rooted p) (split "/" p).
Fixpoint strip_common (l1 l2 : list string) : list string * list string :=
  match l1, l2 with
  | x :: l1', y :: l2' => if String.eqb x y then strip_common l1' l2' else (l1, l2)
  | _, _ => (l1, l2)
  end.
Definition filepath_rel (basepath targpath : string) : result string :=
  let '(base, targ) := strip_common (elements basepath) (elements targpath) in
  let cannot := Errorf "Rel: can't make %s relative to %s" [FStr targpath; FStr basepath] in
  if negb (Bool.eqb (rooted basepath) (rooted targpath)) then Err cannot
  else match base, targ with
  | [], [] => Ret "."
  | ".." :: _, _ => Err cannot
  | _, _ => Ret (join "/" (((λ _, "..") <$> base) ++ targ))
  end.
Definition filepath_base (p : string) : string :=
  if String.eqb p "" then "."
  else let p := trim_right_set ["/"%char] p in
       if String.eqb p "" then "/" else default "" (last (split "/" p)).
(** The suffix of a base name from its last dot on. *)
Definition filepath_ext (base : string) : string :=
  match last_index "." base with Some i => sdrop i base | None => "" end.
Definition filepath_dir (p : string) : string :=
  match removelast (split "/" p) with
  | [] => path_clean ""
  | l => path_clean (join "/" l +:+ "/")
  end.

(** ** Sections between markers *)

Definition replaceBetweenMarkers (content beginMarker endMarker replacement : string) : result string :=
  match index beginMarker content with
  | None => Err (Errorf "missing begin marker %q" [FStr beginMarker])
  | Some beginIdx =>
      if negb (bool_decide (last_index beginMarker content = Some beginIdx))
      then Err (Errorf "begin marker %q appears multiple times" [FStr beginMarker])
      else match index endMarker content with
      | None => Err (Errorf "missing end marker %q" [FStr endMarker])
      | Some endIdx =>
          if negb (bool_decide (last_index endMarker content = Some endIdx))
          then Err (Errorf "end marker %q appears multiple times" [FStr endMarker])
          else
            let sectionStart := (beginIdx + String.length beginMarker)%nat in
            if (endIdx <? sectionStart)%nat
            then Err (Errorf "marker order invalid: %q appears before %q" [FStr endMarker; FStr beginMarker])
            else
              let head := stake sectionStart content in
              let trimmedReplacement := trim_newlines replacement in
              Ret (head +:+ (if has_suffix newline head then "" else newline)
                     +:+ (if String.eqb trimmedReplacement "" then "" else trimmedReplacement +:+ newline)
                     +:+ sdrop endIdx content)
      end
  end.

(** ** Routes *)

Definition normalizeRoutePath (routePath : string) : result string :=
  let trimmed := trim_space routePath in
  _ ← fail_if (String.eqb trimmed "") (Errorf "path is empty" []);
  let trimmed := trim_prefix "./" trimmed in
  let cleanPath := path_clean trimmed in
  _ ← fail_if (String.eqb cleanPath ".") (Errorf "path %q resolves to current directory" [FStr routePath]);
  _ ← fail_if (has_prefix "/" cleanPath || has_prefix "../" cleanPath || contains "/../" cleanPath)
        (Errorf "path %q escapes docs root" [FStr routePath]);
  mret cleanPath.


(** * Properties *)

(** ** Occurrences of a marker *)

(** The number of positions at which [m] occurs. *)
Fixpoint occ (m s : string) : nat :=
  ((if has_prefix m s then 1 else 0) + match s with String _ s' => occ m s' | EmptyString => 0 end)%nat.

Lemma has_prefix_split m s : has_prefix m s = true ↔ ∃ y, s = m +:+ y.
Proof.
  revert s. induction m as [|a m IH]; intros s; cbn; [split; [by exists s|done]|].
  destruct s as [|b s]; [split; [done|by intros [y [=]]]|]. rewrite andb_true_iff, IH. split.
  - intros [->%Ascii.eqb_eq [y ->]]. by exists y.
  - intros [y [= <- ->]]. split; [by apply Ascii.eqb_eq|by exists y].
Qed.
Lemma has_prefix_self m y : has_prefix m (m +:+ y) = true.
Proof. apply has_prefix_split. by exists y. Qed.

Lemma occ_app_le m x y : m ≠ "" → (occ m x + occ m y ≤ occ m (x +:+ y))%nat.
Proof.
  intros Hm. induction x as [|a x IH]; cbn.
  - destruct m; [done|]. cbn. lia.
  - destruct (has_prefix m (String a x)) eqn:Hp.
    + apply has_prefix_split in Hp as [z Hz]. change (String a (x +:+ y)) with (String a x +:+ y).
      rewrite Hz, Uuid.append_assoc. rewrite has_prefix_self. lia.
    + destruct (has_prefix m _); lia.
Qed.
Lemma occ_self m : m ≠ "" → (1 ≤ occ m m)%nat.
Proof.
  intros Hm. pose proof (has_prefix_self m "") as H. rewrite append_empty_r in H.
  destruct m; [done|]. cbn [occ]. rewrite H. lia.
Qed.

Lemma index_None m s : index m s = None ↔ occ m s = 0%nat.
Proof.
  induction s as [|a s IH]; cbn [index occ]; destruct (has_prefix m _); cbn; [done..|].
  rewrite <-IH. by destruct (index m s).
Qed.
Lemma last_index_None m s : last_index m s = None ↔ occ m s = 0%nat.
Proof.
  induction s as [|a s IH]; cbn [last_index occ]; [by destruct (has_prefix m "")|].
  destruct (last_index m s) as [i|]; rewrite ?Nat.eq_add_0, <-?IH; destruct (has_prefix m (String a s)); naive_solver.
Qed.

(** Both searches find the occurrence if there is just one. *)
Lemma index_spec m s i : index m s = Some i → ∃ x y, s = x +:+ m +:+ y ∧ String.length x = i.
Proof.
  revert i. induction s as [|a s IH]; intros i; cbn [index]; destruct (has_prefix m _) eqn:Hp.
  1,3: intros [= <-]; apply has_prefix_split in Hp as [y Hy]; by exists "", y.
  - done.
  - destruct (index m s) as [j|]; [|done]. intros [= <-]. destruct (IH j eq_refl) as (x & y & -> & Hx).
    exists (String a x), y. split; [done|]. cbn. by rewrite Hx.
Qed.
Lemma last_index_spec m s i : last_index m s = Some i → ∃ x y, s = x +:+ m +:+ y ∧ String.length x = i.
Proof.
  revert i. induction s as [|a s IH]; intros i; cbn [last_index].
  - destruct (has_prefix m "") eqn:Hp; [|done]. intros [= <-]. apply has_prefix_split in Hp as [y Hy]. by exists "", y.
  - destruct (last_index m s) as [j|].
    + intros [= <-]. destruct (IH j eq_refl) as (x & y & -> & Hx). exists (String a x), y. split; [done|]. cbn. by rewrite Hx.
    + destruct (has_prefix m (String a s)) eqn:Hp; [|done]. intros [= <-].
      apply has_prefix_split in Hp as [y Hy]. by exists "", y.
Qed.
Lemma occ_at m x y : m ≠ "" → (S (occ m x + occ m y) ≤ occ m (x +:+ m +:+ y))%nat.
Proof.
  intros Hm. pose proof (occ_app_le m x (m +:+ y) Hm). pose proof (occ_app_le m m y Hm). pose proof (occ_self m Hm). lia.
Qed.
Lemma two_occurrences m x y x' y' :
  m ≠ "" → x +:+ m +:+ y = x' +:+ m +:+ y' → (String.length x < String.length x')%nat → (2 ≤ occ m (x +:+ m +:+ y))%nat.
Proof.
  intros Hm. revert x'. induction x as [|a x IH]; intros [|b x'] He Hl; cbn in Hl; try lia.
  - change ("" +:+ m +:+ y) with (m +:+ y) in *. assert (has_prefix m (m +:+ y) = true) as Hp by apply has_prefix_self.
    rewrite He in *. cbn [append occ]. cbn [append] in Hp. rewrite Hp. pose proof (occ_at m x' y' Hm). lia.
  - cbn in He. injection He as -> He. cbn [append occ]. specialize (IH x' He ltac:(lia)). lia.
Qed.
Lemma index_once m x y : m ≠ "" → occ m (x +:+ m +:+ y) = 1%nat →
  index m (x +:+ m +:+ y) = Some (String.length x) ∧ last_index m (x +:+ m +:+ y) = Some (String.length x).
Proof.
  intros Hm Ho.
  assert (∀ x' y', x +:+ m +:+ y = x' +:+ m +:+ y' → String.length x' = String.length x) as Hu.
  { intros x' y' He. destruct (Nat.lt_total (String.length x) (String.length x')) as [H|[H|H]]; [|done|].
    - pose proof (two_occurrences m x y x' y' Hm He H). lia.
    - pose proof (two_occurrences m x' y' x y Hm (eq_sym He) H). rewrite He in Ho. lia. }
  split.
  - destruct (index m _) as [i|] eqn:Hi; [|apply index_None in Hi; lia].
    apply index_spec in Hi as (x' & y' & He & <-). by rewrite (Hu x' y').
  - destruct (last_index m _) as [i|] eqn:Hi; [|apply last_index_None in Hi; lia].
    apply last_index_spec in Hi as (x' & y' & He & <-). by rewrite (Hu x' y').
Qed.
Lemma index_twice m s i : m ≠ "" → index m s = Some i → last_index m s = Some i → occ m s = 1%nat.
Proof.
  intros Hm. revert i. induction s as [|a s IH]; intros i; cbn [index last_index occ].
  - destruct (has_prefix m ""); [done|]. done.
  - destruct (has_prefix m (String a s)).
    + intros [= <-]. destruct (last_index m s) as [j|] eqn:Hl; [done|]. intros _. apply last_index_None in Hl. lia.
    + destruct (index m s) as [j|] eqn:Hi; [|done]. intros [= <-].
      destruct (last_index m s) as [k|] eqn:Hl; [|done]. intros [= ->]. by rewrite (IH j).
Qed.

(** ** Markers on one line *)

Definition marker (m : string) : Prop := m ≠ "" ∧ contains_char "010" m = false.

Lemma has_prefix_line m x y : marker m → has_prefix m (x +:+ newline +:+ y) = has_prefix m x.
Proof.
  intros [Hm Hc]. revert x Hm Hc. induction m as [|a m IH]; intros x Hm Hc; [done|]. cbn in Hc.
  apply orb_false_iff in Hc as [Ha Hc]. destruct x as [|b x]; cbn.
  - rewrite Ascii.eqb_sym in Ha. by rewrite Ha || rewrite Ascii.eqb_sym, Ha.
  - f_equal. destruct m as [|b' m]; [done|by apply IH].
Qed.
(** A marker does not reach over the end of a line. *)
Lemma occ_line m x y : marker m → occ m (x +:+ newline +:+ y) = (occ m x + occ m y)%nat.
Proof.
  intros Hm. induction x as [|a x IH].
  - pose proof (has_prefix_line m "" y Hm) as H. cbn in *. rewrite H. destruct Hm. by destruct m.
  - change (String a x +:+ newline +:+ y) with (String a (x +:+ newline +:+ y)). cbn [occ]. rewrite IH.
    pose proof (has_prefix_line m (String a x) y Hm) as H. cbn [append] in H. rewrite H. lia.
Qed.
Lemma occ_trim m s : m ≠ "" → (occ m (trim_newlines s) ≤ occ m s)%nat.
Proof.
  intros Hm. assert (∀ cs t, ∃ z, t = trim_right_set cs t +:+ z) as Hz.
  { intros cs t. induction t as [|a t [z IH]]; cbn; [by exists ""|]. destruct (trim_right_set cs t) as [|b r].
    - destruct (existsb _ cs); [by exists (String a t)|]. by exists t.
    - exists z. cbn. f_equal. exact IH. }
  destruct (Hz ["010"%char] s) as [z Hs]. rewrite Hs at 2.
  pose proof (occ_app_le m (trim_newlines s) z Hm). unfold trim_newlines in *. lia.
Qed.
Lemma newline_no_suffix x m : marker m → has_suffix newline (x +:+ m) = false.
Proof.
  intros [Hm Hc]. destruct (has_suffix newline (x +:+ m)) eqn:Hs; [|done]. exfalso.
  apply has_suffix_split in Hs as [y Hy].
  assert (last_is (λ a, Ascii.eqb a "010") m = true) as Hl.
  { rewrite <-(last_is_app _ x m Hm), Hy, last_is_app by done. done. }
  clear -Hc Hl. induction m as [|a [|b m] IH]; [done|..].
  - cbn in *. rewrite orb_false_r in Hc. congruence.
  - cbn in Hc. apply orb_false_iff in Hc as [_ Hc]. by apply IH.
Qed.

(** ** A section is replaced *)

(** The lines of a section. *)
Definition section_body (replacement : string) : string :=
  let t := trim_newlines replacement in if String.eqb t "" then "" else t +:+ newline.
(** The markers occur once. *)
Definition once (m s : string) : Prop := occ m s = 1%nat.

Lemma occ_body m r y : marker m → occ m (section_body r +:+ y) = (occ m (trim_newlines r) + occ m y)%nat.
Proof.
  intros Hm. unfold section_body. destruct (String.eqb_spec (trim_newlines r) "") as [->|Hne].
  - destruct Hm. by destruct m.
  - rewrite Uuid.append_assoc. by apply occ_line.
Qed.

Lemma append_eq_split h y x z : h +:+ y = x +:+ z → (String.length h ≤ String.length x)%nat →
  ∃ mid, x = h +:+ mid ∧ y = mid +:+ z.
Proof.
  revert x. induction h as [|a h IH]; intros x Hc Hl; [by exists x|]. destruct x as [|a' x]; cbn in Hl; [lia|].
  cbn in Hc. injection Hc as <- Hc. destruct (IH x Hc) as (mid & -> & ->); [lia|]. by exists mid.
Qed.
Lemma section_parts x b mid e post :
  let c := x +:+ b +:+ mid +:+ e +:+ post in
  stake (String.length x + String.length b) c = x +:+ b ∧ sdrop (String.length (x +:+ b +:+ mid)) c = e +:+ post.
Proof.
  cbn zeta. split.
  - rewrite <-Uuid.append_assoc, <-length_append. apply stake_app.
  - replace (x +:+ b +:+ mid +:+ e +:+ post) with ((x +:+ b +:+ mid) +:+ e +:+ post) by (by rewrite !Uuid.append_assoc).
    apply sdrop_app.
Qed.
Lemma replace_iff c b e r c' : marker b → marker e →
  replaceBetweenMarkers c b e r = Ret c' ↔
  once b c ∧ once e c ∧ ∃ pre mid post,
    c = pre +:+ b +:+ mid +:+ e +:+ post ∧ c' = pre +:+ b +:+ newline +:+ section_body r +:+ e +:+ post.
Proof.
  intros Hb He. unfold replaceBetweenMarkers. split.
  - destruct (index b c) as [i|] eqn:Hi; [|done]. case_bool_decide as Hli; [|done]. cbn [negb].
    destruct (index e c) as [j|] eqn:Hj; [|done]. case_bool_decide as Hlj; [|done]. cbn [negb].
    destruct (Nat.ltb_spec j (i + String.length b)); [done|]. intros [= <-].
    pose proof (index_twice b c i (proj1 Hb) Hi Hli) as Hob. pose proof (index_twice e c j (proj1 He) Hj Hlj) as Hoe.
    split; [done|]. split; [done|].
    apply index_spec in Hi as (x & y & -> & <-). apply index_spec in Hj as (x' & post & Hc & <-).
    assert (∃ mid, x' = x +:+ b +:+ mid ∧ y = mid +:+ e +:+ post) as (mid & -> & ->).
    { rewrite <-Uuid.append_assoc in Hc. destruct (append_eq_split _ _ _ _ Hc) as (mid & -> & ->).
      - rewrite length_append. lia.
      - exists mid. by rewrite Uuid.append_assoc. }
    destruct (section_parts x b mid e post) as [-> ->]. rewrite (newline_no_suffix x b Hb).
    exists x, mid, post. split; [done|]. by rewrite Uuid.append_assoc.
  - intros (Hob & Hoe & pre & mid & post & -> & ->).
    destruct (index_once b pre (mid +:+ e +:+ post) (proj1 Hb) Hob) as [-> ->]. rewrite bool_decide_true by done. cbn [negb].
    replace (pre +:+ b +:+ mid +:+ e +:+ post) with ((pre +:+ b +:+ mid) +:+ e +:+ post) in * by (by rewrite !Uuid.append_assoc).
    destruct (index_once e (pre +:+ b +:+ mid) post (proj1 He) Hoe) as [-> ->]. rewrite bool_decide_true by done. cbn [negb].
    rewrite (proj2 (Nat.ltb_ge _ _)) by (rewrite !length_append; lia). f_equal.
    replace ((pre +:+ b +:+ mid) +:+ e +:+ post) with (pre +:+ b +:+ mid +:+ e +:+ post) by (by rewrite !Uuid.append_assoc).
    destruct (section_parts pre b mid e post) as [-> ->]. rewrite (newline_no_suffix pre b Hb). by rewrite Uuid.append_assoc.
Qed.

(** ** Two sections *)

(** A text with two sections one after the other. *)
Definition sections (b1 e1 b2 e2 p x q y r : string) : string :=
  p +:+ b1 +:+ x +:+ e1 +:+ q +:+ b2 +:+ y +:+ e2 +:+ r.
Definition rendered (replacement : string) : string := newline +:+ section_body replacement.

(** No marker appears or disappears when the sections are replaced by texts without
    it. *)
Lemma occ_first b1 e1 b2 e2 p x q y r t m : marker m → occ m t = 0%nat →
  (occ m (sections b1 e1 b2 e2 p (rendered t) q y r) ≤ occ m (sections b1 e1 b2 e2 p x q y r))%nat.
Proof.
  intros Hm Ht. unfold sections, rendered. set (z := e1 +:+ q +:+ b2 +:+ y +:+ e2 +:+ r).
  rewrite (Uuid.append_assoc newline). rewrite <-!(Uuid.append_assoc p b1).
  rewrite (occ_line m (p +:+ b1)) by done. rewrite occ_body by done.
  pose proof (occ_trim m t (proj1 Hm)). pose proof (occ_app_le m (p +:+ b1) (x +:+ z) (proj1 Hm)).
  pose proof (occ_app_le m x z (proj1 Hm)). lia.
Qed.
Lemma occ_second b1 e1 b2 e2 p x q y r t m : marker m → occ m t = 0%nat →
  (occ m (sections b1 e1 b2 e2 p x q (rendered t) r) ≤ occ m (sections b1 e1 b2 e2 p x q y r))%nat.
Proof.
  intros Hm Ht. assert (∀ w, sections b1 e1 b2 e2 p x q w r = sections b2 e2 "" "" (p +:+ b1 +:+ x +:+ e1 +:+ q) w r "" "") as Hs.
  { intros w. unfold sections. by rewrite !Uuid.append_assoc, !append_empty_r. }
  rewrite !Hs. by apply occ_first.
Qed.

Section two_sections.
Context (b1 e1 b2 e2 : string) (Hb1 : marker b1) (He1 : marker e1) (Hb2 : marker b2) (He2 : marker e2).
Let markers : list string := [b1; e1; b2; e2].

Definition unmarked (s : string) : Prop := Forall (λ m, occ m s = 0%nat) markers.
Definition all_once (s : string) : Prop := Forall (λ m, once m s) markers.

Lemma occ_positive p x q y r m : m ∈ markers → (1 ≤ occ m (sections b1 e1 b2 e2 p x q y r))%nat.
Proof.
  assert (∀ u v m, marker m → (1 ≤ occ m (u +:+ m +:+ v))%nat) as H.
  { intros u v m' [Hm' _]. pose proof (occ_at m' u v Hm'). lia. }
  unfold markers, sections. rewrite !elem_of_cons, elem_of_nil. intros [->|[->|[->|[->|[]]]]].
  - by apply H.
  - rewrite <-!(Uuid.append_assoc _ _ (e1 +:+ _)). by apply H.
  - rewrite <-!(Uuid.append_assoc _ _ (b2 +:+ _)). by apply H.
  - rewrite <-!(Uuid.append_assoc _ _ (e2 +:+ _)). by apply H.
Qed.
Lemma marker_in m : m ∈ markers → marker m.
Proof. unfold markers. rewrite !elem_of_cons, elem_of_nil. by intros [->|[->|[->|[->|[]]]]]. Qed.

Lemma all_once_first p x q y r t : unmarked t →
  all_once (sections b1 e1 b2 e2 p x q y r) → all_once (sections b1 e1 b2 e2 p (rendered t) q y r).
Proof.
  unfold unmarked, all_once. rewrite !Forall_forall. intros Ht Ho m Hm. specialize (Ht m Hm). specialize (Ho m Hm).
  pose proof (occ_first b1 e1 b2 e2 p x q y r t m (marker_in m Hm) Ht).
  pose proof (occ_positive p (rendered t) q y r m Hm). unfold once in *. lia.
Qed.
Lemma all_once_second p x q y r t : unmarked t →
  all_once (sections b1 e1 b2 e2 p x q y r) → all_once (sections b1 e1 b2 e2 p x q (rendered t) r).
Proof.
  unfold unmarked, all_once. rewrite !Forall_forall. intros Ht Ho m Hm. specialize (Ht m Hm). specialize (Ho m Hm).
  pose proof (occ_second b1 e1 b2 e2 p x q y r t m (marker_in m Hm) Ht).
  pose proof (occ_positive p x q (rendered t) r m Hm). unfold once in *. lia.
Qed.

Lemma replace_first p x q y r t : all_once (sections b1 e1 b2 e2 p x q y r) →
  replaceBetweenMarkers (sections b1 e1 b2 e2 p x q y r) b1 e1 t = Ret (sections b1 e1 b2 e2 p (rendered t) q y r).
Proof.
  unfold all_once. intros H.
  apply replace_iff; [done..|]. unfold markers in H. rewrite !Forall_cons in H. split; [apply H|]. split; [apply H|].
  exists p, x, (q +:+ b2 +:+ y +:+ e2 +:+ r). split; [done|]. unfold sections, rendered. by rewrite !Uuid.append_assoc.
Qed.
Lemma replace_second p x q y r t : all_once (sections b1 e1 b2 e2 p x q y r) →
  replaceBetweenMarkers (sections b1 e1 b2 e2 p x q y r) b2 e2 t = Ret (sections b1 e1 b2 e2 p x q (rendered t) r).
Proof.
  unfold all_once. intros H.
  apply replace_iff; [done..|]. unfold markers in H. rewrite !Forall_cons in H. split; [apply H|]. split; [apply H|].
  exists (p +:+ b1 +:+ x +:+ e1 +:+ q), y, r. unfold sections, rendered. split; by rewrite !Uuid.append_assoc.
Qed.
End two_sections.

(** ** Paths *)

Lemma split_append c x y : split c (x +:+ String c y) = split c x ++ split c y.
Proof.
  induction x as [|a x IH]; cbn.
  - by rewrite Ascii.eqb_refl.
  - destruct (Ascii.eqb a c); [by rewrite IH|]. rewrite IH. pose proof (split_nonempty c x). by destruct (split c x).
Qed.

(** The elements that are kept, from the last on: plain ones below some parents. *)
Definition normal (r : bool) (k : list string) : Prop :=
  ∃ l n, k = l ++ replicate n ".." ∧ Forall plain_elem l ∧ (r = true → n = 0%nat).
Lemma clean_step_normal r k e : contains_char "/" e = false → normal r k → normal r (clean_step r k e).
Proof.
  intros He (l & n & -> & Hl & Hn). unfold clean_step.
  destruct (String.eqb_spec e ""), (String.eqb_spec e "."); cbn [orb]; try by exists l, n.
  destruct (String.eqb_spec e "..") as [->|Hne].
  - destruct l as [|x l]; cbn.
    + destruct n as [|n]; cbn; [destruct r; [by exists [], 0%nat|by exists [], 1%nat]|].
      exists [], (S (S n)). split_and!; [done|constructor|]. intros Hr. by specialize (Hn Hr).
    + apply Forall_cons in Hl as [[_ Hx] Hl]. apply String.eqb_neq in Hx. rewrite Hx. by exists l, n.
  - exists (e :: l), n. split; [done|]. split; [|done]. by constructor.
Qed.
Lemma clean_elems_normal r l : Forall (λ e, contains_char "/" e = false) l → normal r (rev (clean_elems r l)).
Proof.
  intros Hl. unfold clean_elems. rewrite rev_involutive.
  enough (∀ k, normal r k → normal r (foldl (clean_step r) k l)) as H by (apply H; by exists [], 0%nat).
  induction Hl as [|e l He Hl IH]; intros k Hk; [done|]. by apply IH, clean_step_normal.
Qed.
Lemma clean_elems_app_plain r l1 l2 : Forall plain_elem l2 → clean_elems r (l1 ++ l2) = clean_elems r l1 ++ l2.
Proof.
  intros Hl. unfold clean_elems. rewrite foldl_app. generalize (foldl (clean_step r) [] l1) as k.
  induction Hl as [|e l [(H1 & H2 & H3) H4] Hl IH]; intros k; cbn; [by rewrite app_nil_r|].
  rewrite IH. unfold clean_step. apply String.eqb_neq in H1, H2, H4. rewrite H1, H2, H4; cbn. by rewrite <-app_assoc.
Qed.
Lemma rev_parents n : rev (replicate n "..") = replicate n "..".
Proof. induction n as [|n IH]; [done|]. cbn [replicate rev]. by rewrite IH, <-replicate_cons_app. Qed.
Lemma clean_parents r n : (r = true → n = 0%nat) → clean_elems r (replicate n "..") = replicate n "..".
Proof.
  intros Hr. unfold clean_elems. destruct r; [by rewrite Hr|]. clear Hr.
  enough (∀ m, foldl (clean_step false) (replicate m "..") (replicate n "..") = replicate (n + m) "..") as H.
  { specialize (H 0%nat). rewrite Nat.add_0_r in H. change (replicate 0 "..") with (@nil string) in H. rewrite H. apply rev_parents. }
  induction n as [|n IH]; intros m; cbn [replicate foldl]; [done|].
  replace (clean_step false (replicate m "..") "..") with (replicate (S m) "..") by by destruct m.
  rewrite IH. f_equal. lia.
Qed.
Lemma clean_elems_idem r l :
  Forall (λ e, contains_char "/" e = false) l → clean_elems r (clean_elems r l) = clean_elems r l.
Proof.
  intros Hl. destruct (clean_elems_normal r l Hl) as (p & n & Hk & Hp & Hn).
  rewrite <-(rev_involutive (clean_elems r l)), Hk, rev_app_distr.
  rewrite clean_elems_app_plain by by apply Forall_rev. by rewrite rev_parents, clean_parents.
Qed.

Lemma elements_kept p : Forall kept_elem (elements p).
Proof. apply clean_elems_kept, split_no_char. Qed.
Lemma kept_no_slash l : Forall kept_elem l → Forall (λ e, contains_char "/" e = false) l.
Proof. intros Hl. eapply Forall_impl; [exact Hl|]. by intros e (_ & _ & ?). Qed.

(** Cleaning a path keeps its elements. *)
Lemma elements_clean p : elements (path_clean p) = elements p ∧ rooted (path_clean p) = rooted p.
Proof.
  unfold path_clean. destruct (String.eqb_spec p "") as [->|Hp]; [done|]. fold (rooted p) (elements p).
  pose proof (elements_kept p) as Hk. assert (clean_elems (rooted p) (elements p) = elements p) as Hi.
  { unfold elements. apply clean_elems_idem, split_no_char. }
  destruct (rooted p) eqn:Hr.
  - change (rooted ("/" +:+ join "/" (elements p))) with true. split; [|done]. unfold elements at 1.
    change (rooted ("/" +:+ join "/" (elements p))) with true.
    change (split "/" ("/" +:+ join "/" (elements p))) with ("" :: split "/" (join "/" (elements p))).
    change (clean_elems true ("" :: ?l)) with (clean_elems true l).
    destruct (elements p) as [|x l] eqn:He; [done|]. rewrite split_join; [done|done|]. by apply kept_no_slash.
  - destruct (elements p) as [|x l] eqn:He; [done|].
    pose proof (join_nonempty "/" x l) as Hj. pose proof Hk as [(Hx & _ & Hs) _]%Forall_cons. specialize (Hj Hx).
    apply String.eqb_neq in Hj. rewrite Hj.
    assert (rooted (join "/" (x :: l)) = false) as Hrj.
    { destruct (join_head "/" x l) as [r ->]. by apply has_prefix_slash_append. }
    split; [|done]. unfold elements. rewrite Hrj, split_join; [done|done|]. by apply kept_no_slash.
Qed.

(** [p] is below [root], at the plain elements [l]. *)
Definition below (root : string) (l : list string) (p : string) : Prop :=
  elements p = elements root ++ l ∧ rooted p = rooted root ∧ Forall plain_elem l.

Lemma filepath_join_below root l : l ≠ [] → Forall plain_elem l → below root l (filepath_join [root; join "/" l]).
Proof.
  intros Hne Hl. destruct l as [|x l]; [done|]. pose proof (join_plain x l Hl) as (Hs & Hj & _ & Hr & _).
  apply String.eqb_neq in Hj. unfold filepath_join. cbn [List.filter negb]. rewrite Hj. unfold below.
  destruct (String.eqb_spec root "") as [->|Hroot]; cbn [negb].
  - destruct (elements_clean (join "/" [join "/" (x :: l)])) as [-> ->]. change (join "/" [?y]) with y.
    unfold elements. split_and!; [|done|done]. unfold rooted. rewrite Hr, Hs. by apply clean_elems_plain.
  - destruct (elements_clean (join "/" [root; join "/" (x :: l)])) as [-> ->].
    change (join "/" [root; ?y]) with (root +:+ String "/" y).
    assert (rooted (root +:+ String "/" (join "/" (x :: l))) = rooted root) as Hrr by by destruct root.
    split_and!; [|done|done]. unfold elements. rewrite Hrr, split_append, Hs. by apply clean_elems_app_plain.
Qed.
Lemma below_join root l p e : below root l p → plain_elem e → below root (l ++ [e]) (filepath_join [p; e]).
Proof.
  intros (H1 & H2 & H3) He. pose proof (filepath_join_below p [e]) as H. change (join "/" [e]) with e in H.
  destruct H as (H4 & H5 & _); [done|by constructor|].
  split_and!; [by rewrite H4, H1, app_assoc|by rewrite H5|]. apply Forall_app. by split; [|constructor].
Qed.
Lemma below_refl root : below root [] root.
Proof. split_and!; [by rewrite app_nil_r|done|done]. Qed.

Lemma strip_common_app l r : strip_common l (l ++ r) = ([], r).
Proof. induction l as [|x l IH]; cbn; [by destruct r|]. by rewrite String.eqb_refl. Qed.
Lemma filepath_rel_below root l p :
  below root l p → filepath_rel root p = Ret (match l with [] => "." | _ => join "/" l end).
Proof.
  intros (H1 & H2 & _). unfold filepath_rel. rewrite H1, H2, strip_common_app, Bool.eqb_reflx. cbn [negb]. by destruct l.
Qed.

(** The parent of a directory is outside of it, except for the root. *)
Lemma rel_parent root :
  filepath_rel root (filepath_join [root; ".."]) = Ret ".." ∨ below root [] (filepath_join [root; ".."]).
Proof.
  unfold filepath_join. cbn [List.filter]. change (negb (String.eqb ".." "")) with true. cbv iota.
  destruct (String.eqb_spec root "") as [->|Hroot]; cbn [negb]; [by left|].
  change (join "/" [root; ".."]) with (root +:+ String "/" ".."). set (X := root +:+ String "/" "..").
  assert (rooted X = rooted root) as Hr by (unfold X; by destruct root).
  assert (elements X = rev (clean_step (rooted root) (rev (elements root)) "..")) as He.
  { unfold elements at 1. rewrite Hr. unfold X. rewrite split_append. change (split "/" "..") with [".."].
    unfold elements, clean_elems. by rewrite foldl_app, rev_involutive. }
  destruct (elements_clean X) as [HeX HrX]. unfold below, filepath_rel. rewrite HeX, HrX, Hr, He, Bool.eqb_reflx. cbn [negb].
  destruct (clean_elems_normal (rooted root) (split "/" root) (split_no_char _ _)) as (l & n & Hk & Hl & Hn).
  fold (elements root) in Hk. rewrite Hk. clear He HeX. rewrite app_nil_r. destruct l as [|x l].
  - cbn [app] in *. apply (f_equal (@rev _)) in Hk. rewrite rev_involutive, rev_parents in Hk. rewrite Hk. destruct n as [|n].
    + destruct (rooted root); [by right|by left].
    + left. change (clean_step (rooted root) (replicate (S n) "..") "..") with (replicate (S (S n)) "..").
      rewrite rev_parents. change (replicate (S (S n)) "..") with (".." :: replicate (S n) "..").
      by rewrite (replicate_cons_app (S n)), strip_common_app.
  - left. apply Forall_cons in Hl as [[_ Hx] _]. change (clean_step ?r ((x :: l) ++ ?u) "..")
      with (if String.eqb x ".." then ".." :: x :: l ++ u else l ++ u). apply String.eqb_neq in Hx. rewrite Hx.
    apply (f_equal (@rev _)) in Hk. rewrite rev_involutive in Hk. cbn [app rev] in Hk. rewrite Hk.
    assert (∀ a b, strip_common (a ++ [b]) a = ([b], [])) as Hs.
    { intros a b. induction a as [|c a IH]; cbn; [done|]. by rewrite String.eqb_refl. }
    rewrite Hs. by apply String.eqb_neq in Hx; repeat case_match.
Qed.

(** ** The paths of routes *)

Lemma contains_parent s : contains "/../" s = true → ".." ∈ tail (split "/" s).
Proof.
  induction s as [|a s IH]; cbn [contains]; [done|]. intros [Hp|Hc]%orb_true_iff.
  - apply has_prefix_split in Hp as [y Hy]. rewrite Hy. cbn. destruct (split "/" y); cbn; left.
  - specialize (IH Hc). cbn [split]. destruct (Ascii.eqb a "/"); cbn.
    + destruct (split "/" s); [by destruct (not_elem_of_nil ".." )|]. by right.
    + by destruct (split "/" s).
Qed.

#[local] Arguments has_prefix : simpl never.
#[local] Arguments contains : simpl never.
#[local] Arguments join : simpl never.

(** A route is accepted if walking its elements stays inside and ends below the
    root, and then it is the path of that place; the parent directory is accepted as
    well, and refused by the check of the file. *)
Lemma normalize_iff s p :
  normalizeRoutePath s = Ret p ↔
  let t := trim_prefix "./" (trim_space s) in
  t ≠ "" ∧ has_prefix "/" t = false ∧
  ((∃ l, resolve [] (split "/" t) = Some l ∧ l ≠ [] ∧ p = join "/" l) ∨ path_clean t = ".." ∧ p = "..").
Proof.
  unfold normalizeRoutePath. set (t := trim_prefix "./" (trim_space s)). cbn zeta.
  assert (trim_space s = "" → t = "") as Ht0 by (unfold t; by intros ->).
  destruct (String.eqb_spec (trim_space s) "") as [H0|H0]; cbn.
  { split; [done|]. intros [? _]. by rewrite Ht0 in *. }
  destruct (String.eqb_spec t "") as [Ht|Ht].
  { rewrite Ht. cbn. split; [done|by intros [? _]]. }
  destruct (has_prefix "/" t) eqn:Hr.
  { unfold path_clean. apply String.eqb_neq in Ht. rewrite Ht, Hr. unfold fail_if. split; [done|]. by intros (_ & ? & _). }
  pose proof (path_clean_relative t Hr Ht) as Hc. destruct (resolve [] (split "/" t)) as [[|x l]|] eqn:Hl.
  - rewrite Hc. cbn. split; [done|]. by intros (_ & _ & [(l & [= <-] & ? & _)|[? _]]).
  - pose proof (resolve_plain _ [] _ (Forall_nil_2 _) (split_no_char "/" t) Hl) as Hp.
    pose proof (join_plain x l Hp) as (Hs & _ & Hd & Hp1 & Hex & Hup & Hp2). rewrite Hc.
    apply String.eqb_neq in Hd. rewrite Hd, Hp1, Hp2.
    assert (contains "/../" (join "/" (x :: l)) = false) as ->.
    { apply not_true_iff_false. intros H%contains_parent. rewrite Hs in H. cbn in H.
      apply Forall_cons in Hp as [_ Hp]. rewrite Forall_forall in Hp. by destruct (Hp _ H). }
    cbn. split.
    + intros [= <-]. split; [done|]. split; [done|]. left. by exists (x :: l).
    + intros (_ & _ & [(l' & [= <-] & _ & ->)|[H _]]); [done|]. by rewrite H in Hup.
  - pose proof (clean_resolve (split "/" t) [] (Forall_nil_2 _)) as Hlast. rewrite Hl in Hlast.
    apply last_Some in Hlast as [k Hk].
    assert (∃ r, path_clean t = join "/" (".." :: r)) as [r Hpc].
    { exists (rev k). unfold path_clean, clean_elems. rewrite (proj2 (String.eqb_neq _ _) Ht), Hr, Hk, rev_app_distr. cbn [rev app].
      by rewrite (proj2 (String.eqb_neq _ _) (join_nonempty "/" ".." (rev k) ltac:(done))). }
    rewrite Hpc in *. clear Hc. destruct r as [|y r].
    + cbn. split; [intros [= <-]; split; [done|]; split; [done|by right]|]. by intros (_ & _ & [(? & [=] & _)|[_ ->]]).
    + change (join "/" (".." :: y :: r)) with ("../" +:+ join "/" (y :: r)). split; [done|].
      by intros (_ & _ & [(? & [=] & _)|[? _]]).
Qed.
Lemma normalize_plain s p :
  normalizeRoutePath s = Ret p → p = ".." ∨ ∃ l, l ≠ [] ∧ Forall plain_elem l ∧ p = join "/" l.
Proof.
  intros (_ & _ & [(l & Hl & Hne & ->)|[_ ->]])%normalize_iff; [right|by left]. exists l. split_and!; [done| |done].
  exact (resolve_plain _ [] _ (Forall_nil_2 _) (split_no_char "/" _) Hl).
Qed.

End DocsText.
