(* ===== verification/DocsGen.v ===== *)
(** * DocsGen: the generator of the documentation skill

    src/hack/gen-coder-docs-skill/main.go copies a snapshot of Coder's
    documentation, renders the navigation tree of its manifest, and replaces two
    sections of a file between markers.  The file system is behind calls;
    encoding/json is a parameter. *)

From S2P Require Import Prelude GoStd GoStdFacts StringFacts GoErrors Uuid TemplateFiles Calls DocsText.

#[local] Open Scope string_scope.
#[local] Open Scope list_scope.

Module DocsGen.
Import Calls DocsText.

Definition beginDocsTreeMarker := "<!-- BEGIN DOCS_TREE -->".
Definition endDocsTreeMarker := "<!-- END DOCS_TREE -->".
Definition beginSnapshotMarker := "<!-- BEGIN SNAPSHOT -->".
Definition endSnapshotMarker := "<!-- END SNAPSHOT -->".

Definition upstreamRepo := "coder/coder".
Record options := {
  sourceDocsRoot : string; destDocsRoot : string; skillMDPath : string; coderSHA : string; snapshotOut : string
}.
#[local] Set Warnings "-register-all".
Inductive route := Route {
  r_Title : string; r_Description : string; r_Path : string; r_State : list string; r_Children : list route
}.
Record manifest := { mf_Versions : list string; mf_Routes : list route }.
Record snapshotMetadata := { sm_UpstreamRepo : string; sm_UpstreamSHA : string; sm_GeneratedAt : string }.

(** ** Routes *)

Definition routeStateContains (states : list string) (target : string) : bool := existsb (String.eqb target) states.

Definition route_line (level : nat) (r : route) (routePath title : string) : string :=
  let title := match r_Children r with [] => title | _ => "**" +:+ title +:+ "**" end in
  let line := indent level +:+ "- " +:+ title +:+ " (`" +:+ routePath +:+ "`) → `references/docs/" +:+ routePath +:+ "`" in
  let description := trim_space (r_Description r) in
  if String.eqb description "" then line else line +:+ " — " +:+ description.

(** ** Files *)

Inductive file_type := RegularFile | Directory | OtherFile.
#[global] Instance file_type_eq_dec : EqDecision file_type.
Proof. solve_decision. Defined.

Inductive fscall :=
  | FStat (p : string)                    (* IsDir() *)
  | FLstat (p : string)
  | FReadDir (p : string)                 (* the entries in the order of names *)
  | FReadFile (p : string)
  | FWriteFile (p content : string)
  | FMkdirAll (p : string)
  | FRemoveAll (p : string).
Definition fsreply (c : fscall) : Type :=
  match c with
  | FStat _ => bool
  | FLstat _ => file_type
  | FReadDir _ => list (string * file_type)
  | FReadFile _ => string
  | _ => ()
  end.

Definition shouldCopyFile (filePath : string) : bool :=
  let base := filepath_base filePath in
  let ext := to_lower (filepath_ext base) in
  String.eqb base "manifest.json" || String.eqb ext ".md" || String.eqb ext ".json".
Definition hasPathComponent (relPath component : string) : bool :=
  existsb (String.eqb component) (split "/" relPath).

(** The checks of [parseFlags], after the flag set was read; [narg] is the
    number of the remaining arguments. *)
Definition checkFlags (narg : Z) (opts : options) : result () :=
  let missing name := ErrorString ("missing required " +:+ name +:+ " flag") in
  _ ← fail_if (negb (Z.eqb narg 0)) (Errorf "unexpected positional arguments: %v" []);
  _ ← fail_if (String.eqb (trim_space (sourceDocsRoot opts)) "") (missing "--source-docs-root");
  _ ← fail_if (String.eqb (trim_space (destDocsRoot opts)) "") (missing "--dest-docs-root");
  _ ← fail_if (String.eqb (trim_space (skillMDPath opts)) "") (missing "--skill-md");
  _ ← fail_if (String.eqb (trim_space (coderSHA opts)) "") (missing "--coder-sha");
  _ ← fail_if (String.eqb (trim_space (snapshotOut opts)) "") (missing "--snapshot-out");
  fail_if (slen (coderSHA opts) <? 12)%Z (Errorf "--coder-sha must be at least 12 characters, got %d" [FInt (slen (coderSHA opts))]).

Section generator.
Context {W : Type} (env : ∀ c : fscall, M W goerror (fsreply c)).
(** [os.IsNotExist]; the decoding of the manifest and the encoding of the
    snapshot. *)
Context (is_not_exist : goerror → bool).
Context (unmarshal : string → result manifest) (marshal : snapshotMetadata → result string).

Definition fs : Type → Type := calling W fscall.
Definition os (c : fscall) : fs (fsreply c) := issue env c.
Definition wrapping (format : string) (args : list fmt_arg) {A} (m : fs A) : fs A :=
  map_err (λ err, Errorf format (args ++ [FErrW err])) m.

(** [os.Stat] with the errors the three callers make of it. *)
Definition stat (p : string) (missing failed : goerror → goerror) : fs bool :=
  map_err (λ err, if is_not_exist err then missing err else failed err) (os (FStat p)).

Definition requireDirExists (pathValue label : string) : fs () :=
  isDir ← stat pathValue (λ _, Errorf "%s does not exist: %q" [FStr label; FStr pathValue])
            (λ err, Errorf "stat %s (%q): %w" [FStr label; FStr pathValue; FErrW err]);
  guard_err (negb isDir) (Errorf "%s must be a directory: %q" [FStr label; FStr pathValue]).
Definition requireFileExists (pathValue label : string) : fs () :=
  isDir ← stat pathValue (λ _, Errorf "%s does not exist: %q" [FStr label; FStr pathValue])
            (λ err, Errorf "stat %s (%q): %w" [FStr label; FStr pathValue; FErrW err]);
  guard_err isDir (Errorf "%s must be a file: %q" [FStr label; FStr pathValue]).

Definition validatePreconditions (opts : options) : fs () :=
  _ ← requireDirExists (sourceDocsRoot opts) "--source-docs-root";
  _ ← requireFileExists (filepath_join [sourceDocsRoot opts; "manifest.json"]) "manifest.json under --source-docs-root";
  requireFileExists (skillMDPath opts) "--skill-md".

(** *** The snapshot *)

Definition copyTextFileWithNormalizedLF (srcPath destPath : string) : fs () :=
  content ← wrapping "read source file %q: %w" [FStr srcPath] (os (FReadFile srcPath));
  wrapping "write destination file %q: %w" [FStr destPath] (os (FWriteFile destPath (normalize_lf content))).

(** The function called for every entry; [true] stands for [filepath.SkipDir]. *)
Definition visit (sourceRoot destRoot currentPath : string) (t : file_type) : fs bool :=
  relPath ← wrapping "compute relative path for %q: %w" [FStr currentPath] (lift (filepath_rel sourceRoot currentPath));
  if String.eqb relPath "." then mret false
  else if hasPathComponent relPath "images" then mret (bool_decide (t = Directory))
  else if negb (bool_decide (t = RegularFile)) then mret false
  else if negb (shouldCopyFile currentPath) then mret false
  else
    let destPath := filepath_join [destRoot; relPath] in
    _ ← wrapping "create parent directory for %q: %w" [FStr destPath] (os (FMkdirAll (filepath_dir destPath)));
    _ ← wrapping "copy %q -> %q: %w" [FStr currentPath; FStr destPath] (copyTextFileWithNormalizedLF currentPath destPath);
    mret false.

(** [filepath.WalkDir] from an entry on; an error that the walk meets is
    returned by the function. *)
Fixpoint walkDir (fuel : nat) (sourceRoot destRoot p : string) (t : file_type) : fs () :=
  match fuel with
  | O => throw (ErrorString "unreachable: out of fuel")
  | S fuel =>
      skip ← visit sourceRoot destRoot p t;
      if skip || negb (bool_decide (t = Directory)) then mret tt
      else
        entries ← os (FReadDir p);
        mfor (λ _ e, walkDir fuel sourceRoot destRoot (filepath_join [p; e.1]) e.2) tt (entries : list (string * file_type))
  end.

Definition syncDocsSnapshot (fuel : nat) (sourceRoot destRoot : string) : fs () :=
  _ ← wrapping "remove destination root %q: %w" [FStr destRoot] (os (FRemoveAll destRoot));
  _ ← wrapping "create destination root %q: %w" [FStr destRoot] (os (FMkdirAll destRoot));
  _ ← wrapping "walk source docs root %q: %w" [FStr sourceRoot]
        (t ← os (FLstat sourceRoot); walkDir fuel sourceRoot destRoot sourceRoot t);
  requireFileExists (filepath_join [destRoot; "manifest.json"]) "synced manifest.json".

(** *** The tree *)

Definition assertRouteFileExists (destDocsRoot routePath : string) : fs () :=
  let candidate := filepath_join [destDocsRoot; routePath] in
  rel ← wrapping "compute route relative path for %q: %w" [FStr routePath] (lift (filepath_rel destDocsRoot candidate));
  _ ← guard_err (String.eqb rel ".." || has_prefix "../" rel)
        (Errorf "route path %q escaped destination docs root %q" [FStr routePath; FStr destDocsRoot]);
  isDir ← stat candidate (λ _, Errorf "manifest route path %q does not exist at %q" [FStr routePath; FStr candidate])
            (λ err, Errorf "stat manifest route path %q at %q: %w" [FStr routePath; FStr candidate; FErrW err]);
  guard_err isDir (Errorf "manifest route path %q resolves to directory %q, expected file" [FStr routePath; FStr candidate]).

(** One route and what is below it; the lines are in the order of the
    document. *)
Fixpoint routeLines (destDocsRoot : string) (level : nat) (r : route) : fs (list string) :=
  if routeStateContains (r_State r) "hidden" then mret []
  else
    routePath ← wrapping "invalid route path for %q: %w" [FStr (r_Title r)] (lift (normalizeRoutePath (r_Path r)));
    _ ← assertRouteFileExists destDocsRoot routePath;
    let title := trim_space (r_Title r) in
    _ ← guard_err (String.eqb title "") (Errorf "manifest route at path %q has empty title" [FStr routePath]);
    below ← (fix go (routes : list route) : fs (list string) :=
      match routes with
      | [] => mret []
      | c :: routes => lines ← routeLines destDocsRoot (S level) c; more ← go routes; mret (lines ++ more)
      end) (r_Children r);
    mret (route_line level r routePath title :: below).
Fixpoint appendRouteLines (routes : list route) (destDocsRoot : string) (level : nat) : fs (list string) :=
  match routes with
  | [] => mret []
  | r :: routes =>
      lines ← routeLines destDocsRoot level r;
      more ← appendRouteLines routes destDocsRoot level;
      mret (lines ++ more)
  end.
Definition renderDocsTree (routes : list route) (destDocsRoot : string) : fs string :=
  lines ← appendRouteLines routes destDocsRoot 0; mret (join "010" lines).

Definition parseManifest (manifestPath : string) : fs manifest :=
  data ← wrapping "read manifest %q: %w" [FStr manifestPath] (os (FReadFile manifestPath));
  wrapping "decode manifest json: %w" [] (lift (unmarshal data)).

(** *** The two generated files *)

(** The lines of the section SNAPSHOT, and the new text of SKILL.md. *)
Definition snapshotText (coderSHA generatedAt : string) : string :=
  "- **Upstream**: `" +:+ upstreamRepo +:+ "@" +:+ stake 12 coderSHA +:+ "`" +:+ newline
    +:+ "- **Generated**: `" +:+ generatedAt +:+ "`".
Definition updatedSkill (content docsTree coderSHA generatedAt : string) : result string :=
  updated ← match replaceBetweenMarkers content beginDocsTreeMarker endDocsTreeMarker docsTree with
            | Err err => Err (Errorf "replace DOCS_TREE block: %w" [FErrW err]) | o => o end;
  _ ← (if (slen coderSHA <? 12)%Z then Panic (ErrorString "runtime error: slice bounds out of range") else Ret tt);
  match replaceBetweenMarkers updated beginSnapshotMarker endSnapshotMarker (snapshotText coderSHA generatedAt) with
  | Err err => Err (Errorf "replace SNAPSHOT block: %w" [FErrW err]) | o => o end.

(** A SHA of less than twelve bytes, which [parseFlags] refuses, cannot be
    cut. *)
Definition injectGeneratedSections (skillMDPath docsTree coderSHA generatedAt : string) : fs () :=
  content ← wrapping "read SKILL.md %q: %w" [FStr skillMDPath] (os (FReadFile skillMDPath));
  updated ← lift (updatedSkill content docsTree coderSHA generatedAt);
  wrapping "write SKILL.md %q: %w" [FStr skillMDPath] (os (FWriteFile skillMDPath updated)).

Definition writeSnapshot (snapshotOut coderSHA generatedAt : string) : fs () :=
  data ← wrapping "encode snapshot json: %w" []
    (lift (marshal {| sm_UpstreamRepo := upstreamRepo; sm_UpstreamSHA := coderSHA; sm_GeneratedAt := generatedAt |}));
  _ ← wrapping "create snapshot parent directory for %q: %w" [FStr snapshotOut] (os (FMkdirAll (filepath_dir snapshotOut)));
  wrapping "write snapshot json %q: %w" [FStr snapshotOut] (os (FWriteFile snapshotOut (data +:+ newline))).

Definition run (fuel : nat) (opts : options) (generatedAt : string) : fs () :=
  _ ← wrapping "sync docs snapshot: %w" [] (syncDocsSnapshot fuel (sourceDocsRoot opts) (destDocsRoot opts));
  m ← wrapping "parse synced manifest: %w" [] (parseManifest (filepath_join [destDocsRoot opts; "manifest.json"]));
  docsTree ← wrapping "render docs tree: %w" [] (renderDocsTree (mf_Routes m) (destDocsRoot opts));
  _ ← wrapping "inject generated sections into SKILL.md: %w" []
        (injectGeneratedSections (skillMDPath opts) docsTree (coderSHA opts) generatedAt);
  wrapping "write snapshot json: %w" [] (writeSnapshot (snapshotOut opts) (coderSHA opts) generatedAt).

(** [main]: a program that stops with a message on its log has failed.
    [generatedAt] is the time of the start, [narg] the number of positional
    arguments. *)
Definition generate (fuel : nat) (narg : Z) (opts : options) (generatedAt : string) : fs () :=
  _ ← lift (checkFlags narg opts);
  _ ← wrapping "precondition failed: %v" [] (validatePreconditions opts);
  wrapping "generator failed: %v" [] (run fuel opts generatedAt).
End generator.

(** * Properties *)

(** ** What a run may call *)

(** The routes that are shown, in the order of the document, with their level. *)
Fixpoint visible (level : nat) (r : route) : list (nat * route) :=
  if routeStateContains (r_State r) "hidden" then []
  else (level, r) :: (fix go (routes : list route) : list (nat * route) :=
         match routes with [] => [] | c :: routes => visible (S level) c ++ go routes end) (r_Children r).
Fixpoint visible_all (level : nat) (routes : list route) : list (nat * route) :=
  match routes with [] => [] | r :: routes => visible level r ++ visible_all level routes end.

Definition route_path (r : route) : string := match normalizeRoutePath (r_Path r) with Ret p => p | _ => "" end.
Definition route_file (destDocsRoot : string) (r : route) : string := filepath_join [destDocsRoot; route_path r].
Definition rendered_line (x : nat * route) : string := route_line x.1 x.2 (route_path x.2) (trim_space (r_Title x.2)).
Definition docs_tree (m : manifest) : string := join "010" (rendered_line <$> visible_all 0 (mf_Routes m)).

Fixpoint route_ind' (P : route → Prop) (H : ∀ title description path state children,
    Forall P children → P (Route title description path state children)) (r : route) : P r :=
  match r with
  | Route title description path state children =>
      H title description path state children
        ((fix go (l : list route) : Forall P l :=
           match l with [] => @List.Forall_nil _ P | c :: l => @List.Forall_cons _ P c l (route_ind' P H c) (go l) end) children)
  end.
Lemma visible_eq level r : visible level r =
  if routeStateContains (r_State r) "hidden" then [] else (level, r) :: visible_all (S level) (r_Children r).
Proof.
  destruct r as [title description path state children]. cbn [visible r_State r_Children].
  destruct (routeStateContains state "hidden"); [done|]. f_equal.
  induction children as [|c l IH]; [done|]. cbn [visible_all]. by rewrite IH.
Qed.

Section properties.
Context {W : Type} (env : ∀ c : fscall, M W goerror (fsreply c)).
Context (is_not_exist : goerror → bool).
Context (unmarshal : string → result manifest) (marshal : snapshotMetadata → result string).
#[local] Abbreviation answered := (answered env).

Definition plain_names (entries : list (string * file_type)) : Prop := Forall (λ e, plain_elem e.1) entries.

(** What was found below [src]: the file at the names [l] has the path [p] and the
    type [t]. *)
Inductive listed (src : string) : list string → string → file_type → Prop :=
  | listed_root t : answered (FLstat src) t → listed src [] src t
  | listed_entry l dir entries name t :
      listed src l dir Directory → "images" ∉ l → answered (FReadDir dir) entries → (name, t) ∈ entries →
      listed src (l ++ [name]) (filepath_join [dir; name]) t.
(** The files to copy. *)
Definition copied (src : string) (l : list string) (p : string) : Prop :=
  listed src l p RegularFile ∧ l ≠ [] ∧ ("images" ∉ l) ∧ shouldCopyFile p = true.
Definition copy_of (dst : string) (l : list string) : string := filepath_join [dst; join "/" l].

Inductive sync_call (src dst : string) : fscall → Prop :=
  | sync_remove : sync_call src dst (FRemoveAll dst)
  | sync_create : sync_call src dst (FMkdirAll dst)
  | sync_root : sync_call src dst (FLstat src)
  | sync_list l p : listed src l p Directory → "images" ∉ l → sync_call src dst (FReadDir p)
  | sync_read l p : copied src l p → sync_call src dst (FReadFile p)
  | sync_parent l p : copied src l p → sync_call src dst (FMkdirAll (filepath_dir (copy_of dst l)))
  | sync_write l p content : copied src l p → answered (FReadFile p) content → below dst l (copy_of dst l) →
      sync_call src dst (FWriteFile (copy_of dst l) (normalize_lf content))
  | sync_check : sync_call src dst (FStat (filepath_join [dst; "manifest.json"])).

(** Every call of every run satisfies [P], and a value it returns [Q]. *)
Definition makes {A} (P : fscall → Prop) (Q : A → Prop) (m : fs (W := W) A) : Prop :=
  runs m (λ l o, Forall P l ∧ ∀ a, o = Ret a → Q a).
Definition anything {A} (_ : A) : Prop := True.
Lemma makes_bind {A B} P Q Q' (m : fs A) (f : A → fs B) :
  makes P Q m → (∀ a, Q a → makes P Q' (f a)) → makes P Q' (m ≫= f).
Proof.
  intros Hm Hf. apply (runs_bind _ _ _ _ Hm).
  - intros l a [Hl Ha]. eapply runs_mono; [by apply Hf, Ha|]. intros l' o [Hl' Ho]. split; [by apply Forall_app|done].
  - by intros l e [Hl _].
  - by intros l e [Hl _].
Qed.
Lemma makes_call {A} (P : fscall → Prop) Q c m (f : fsreply c → fs A) :
  calls_once env c m → P c → (∀ r, answered c r → makes P Q (f r)) → makes P Q (m ≫= f).
Proof.
  intros Hm Hc Hf. eapply runs_call_bind; [exact Hm| |by split; [constructor|]..]. intros r Hr.
  eapply runs_mono; [by apply Hf|]. intros l o [Hl Ho]. split; [by constructor|done].
Qed.
Lemma makes_once (P : fscall → Prop) c m : calls_once env c m → P c → makes P (answered c) m.
Proof. intros Hm Hc. eapply runs_mono; [exact Hm|]. intros l o [-> Ho]. split; [by constructor|done]. Qed.
Lemma makes_ret {A} P (Q : A → Prop) a : Q a → makes P Q (mret a).
Proof. intros Ha. apply runs_ret. split; [done|]. by intros ? [= <-]. Qed.
Lemma makes_lift {A} P (o : result A) : makes P (λ a, o = Ret a) (lift o).
Proof. by apply runs_lift. Qed.
Lemma makes_throw {A} P (Q : A → Prop) e : makes P Q (throw e).
Proof. by apply runs_throw. Qed.
Lemma makes_mono {A} P (Q Q' : A → Prop) m : makes P Q m → (∀ a, Q a → Q' a) → makes P Q' m.
Proof. intros Hm HQ. eapply runs_mono; [exact Hm|]. intros l o [Hl Ho]. split; [done|auto]. Qed.
Lemma makes_wrapping {A} P (Q : A → Prop) format args m : makes P Q m → makes P Q (wrapping format args m).
Proof. intros Hm. apply runs_map_err. eapply runs_mono; [exact Hm|]. intros l [a|e|e] [Hl Ho]; by split. Qed.
Lemma makes_mfor {A B} P (f : B → A → fs B) b l : (∀ b a, a ∈ l → makes P anything (f b a)) → makes P anything (mfor f b l).
Proof.
  revert b. induction l as [|a l IH]; intros b Hf; [by apply makes_ret|]. cbn [mfor].
  eapply makes_bind; [apply Hf; by left|]. intros b' _. apply IH. intros b2 a2 Ha. apply Hf. by right.
Qed.
Lemma once_wrapping c format args m : calls_once env c m → calls_once env c (wrapping format args m).
Proof. apply calls_once_map_err. Qed.
Lemma once_os c : calls_once env c (os env c).
Proof. apply calls_once_issue. Qed.
Lemma once_stat p f g : calls_once env (FStat p) (stat env is_not_exist p f g).
Proof. apply calls_once_map_err, once_os. Qed.

(** ** The snapshot *)

Context (names_are_plain : ∀ dir entries, answered (FReadDir dir) entries → plain_names entries).

Lemma listed_below src l p t : listed src l p t → below src l p.
Proof.
  induction 1 as [t Ht|l dir entries name t Hd IH Hi Ha Hin]; [apply below_refl|]. apply below_join; [done|].
  pose proof (names_are_plain _ _ Ha) as Hp. unfold plain_names in Hp. rewrite Forall_forall in Hp. exact (Hp _ Hin).
Qed.
Lemma hasPathComponent_spec l e : Forall plain_elem l → l ≠ [] → hasPathComponent (join "/" l) e = bool_decide (e ∈ l).
Proof.
  intros Hl Hne. unfold hasPathComponent. destruct l as [|x l]; [done|]. destruct (TemplateFiles.join_plain x l Hl) as (-> & _).
  apply eq_true_iff_eq. rewrite bool_decide_eq_true, existsb_exists. split.
  - intros (y & Hy & ->%String.eqb_eq). by apply list_elem_of_In.
  - intros Hin. exists e. split; [by apply list_elem_of_In|apply String.eqb_refl].
Qed.

Lemma makes_copy src dst l p : copied src l p →
  makes (sync_call src dst) anything (copyTextFileWithNormalizedLF env p (copy_of dst l)).
Proof.
  intros Hc. unfold copyTextFileWithNormalizedLF. eapply (makes_call _ _ (FReadFile p)); [apply once_wrapping, once_os|by eapply sync_read|].
  intros content Ha. eapply makes_mono; [eapply (makes_once _ (FWriteFile _ _)); [apply once_wrapping, once_os|]|done].
  eapply sync_write; [done..|]. destruct Hc as (Hl & Hne & _). by apply filepath_join_below, (listed_below _ _ _ _ Hl).
Qed.

(** The visitor copies a file, or says whether a directory is skipped. *)
Lemma makes_visit src dst l p t : listed src l p t →
  makes (sync_call src dst) (λ skip, skip = bool_decide (t = Directory) && bool_decide ("images" ∈ l)) (visit env src dst p t).
Proof.
  intros Hl. pose proof (listed_below _ _ _ _ Hl) as Hb. pose proof Hb as (_ & _ & Hp). unfold visit.
  rewrite (filepath_rel_below _ _ _ Hb). change (wrapping ?f ?a (lift (Ret ?x)) ≫= ?g) with (g x). cbv beta.
  destruct l as [|x l]; [apply makes_ret; by rewrite andb_false_r|].
  destruct (TemplateFiles.join_plain x l Hp) as (_ & _ & Hd & _). apply String.eqb_neq in Hd. rewrite Hd.
  rewrite hasPathComponent_spec by done. set (names := x :: l) in *.
  destruct (decide ("images" ∈ names)) as [Him|Him];
    [rewrite (bool_decide_eq_true_2 _ Him); apply makes_ret; by rewrite andb_true_r|].
  rewrite (bool_decide_eq_false_2 _ Him), andb_false_r.
  destruct (decide (t = RegularFile)) as [Ht|Ht];
    [rewrite (bool_decide_eq_true_2 _ Ht)|rewrite (bool_decide_eq_false_2 _ Ht); by apply makes_ret]. cbn [negb].
  destruct (shouldCopyFile p) eqn:Hs; cbn [negb]; [|by apply makes_ret].
  subst t. assert (copied src names p) as Hc by by split_and!. change (filepath_join [dst; join "/" names]) with (copy_of dst names).
  eapply (makes_call _ _ (FMkdirAll _)); [apply once_wrapping, once_os|by eapply sync_parent|]. intros _ _.
  eapply makes_bind; [apply makes_wrapping; by apply makes_copy|]. intros _ _. by apply makes_ret.
Qed.
Lemma makes_walk fuel src dst l p t : listed src l p t →
  makes (sync_call src dst) anything (walkDir env fuel src dst p t).
Proof.
  revert l p t. induction fuel as [|fuel IH]; intros l p t Hl; [apply makes_throw|]. cbn [walkDir].
  eapply makes_bind; [by apply makes_visit|]. intros skip ->. case_bool_decide as Ht; cbn [andb negb orb]; [|by apply makes_ret].
  case_bool_decide as Him; [by apply makes_ret|]. cbn [orb]. subst t.
  eapply (makes_call _ _ (FReadDir p)); [apply once_os|by eapply sync_list|]. intros entries Ha.
  apply makes_mfor. intros [] [name t] Hin. eapply IH. by eapply listed_entry.
Qed.
Lemma makes_sync fuel src dst : makes (sync_call src dst) anything (syncDocsSnapshot env is_not_exist fuel src dst).
Proof.
  unfold syncDocsSnapshot. eapply (makes_call _ _ (FRemoveAll dst)); [apply once_wrapping, once_os|constructor|]. intros _ _.
  eapply (makes_call _ _ (FMkdirAll dst)); [apply once_wrapping, once_os|constructor|]. intros _ _.
  eapply makes_bind.
  - apply makes_wrapping. eapply (makes_call _ _ (FLstat src)); [apply once_os|constructor|]. intros t Ht.
    apply (makes_walk _ _ _ []). by constructor.
  - intros _ _. unfold requireFileExists. eapply (makes_call _ _ (FStat _)); [apply once_stat|constructor|]. intros d _.
    eapply makes_mono; [apply makes_lift|done].
Qed.

(** ** The tree *)

Section tree.
Context (dst : string).

Definition route_stats (vs : list (nat * route)) : list fscall := (λ x, FStat (route_file dst x.2)) <$> vs.
(** Only files of the snapshot are looked at. *)
Definition route_call (c : fscall) : Prop := ∃ l p, c = FStat p ∧ below dst l p.
(** What is required of a route that is shown. *)
Definition route_ok (r : route) : Prop :=
  normalizeRoutePath (r_Path r) = Ret (route_path r) ∧ (∃ l, below dst l (route_file dst r)) ∧
  answered (FStat (route_file dst r)) false ∧ trim_space (r_Title r) ≠ "".

(** The program looks at the files of the routes, in their order, and returns their
    lines if all of them are as required. *)
Definition shows (vs : list (nat * route)) (m : fs (W := W) (list string)) : Prop :=
  runs m (λ l o, l `prefix_of` route_stats vs ∧ Forall route_call l ∧
    ∀ lines, o = Ret lines → l = route_stats vs ∧ lines = rendered_line <$> vs ∧ Forall (λ x, route_ok x.2) vs).

Lemma shows_nil : shows [] (mret []).
Proof. apply runs_ret. split; [done|]. split; [done|]. by intros lines [= <-]. Qed.
Lemma shows_app vs1 vs2 m1 m2 : shows vs1 m1 → shows vs2 m2 →
  shows (vs1 ++ vs2) (lines ← m1; more ← m2; mret (lines ++ more)).
Proof.
  intros H1 H2. unfold shows, route_stats. rewrite !fmap_app. apply (runs_bind _ _ _ _ H1).
  - intros l lines (_ & Hc & Hl). destruct (Hl lines eq_refl) as (-> & -> & Ho).
    apply (runs_bind _ _ _ _ H2).
    + intros l' more (_ & Hc' & Hl'). destruct (Hl' more eq_refl) as (-> & -> & Ho'). apply runs_ret.
      rewrite app_nil_r. split; [done|]. split; [by apply Forall_app|]. intros ? [= <-]. by rewrite Forall_app.
    + intros l' e (Hp & Hc' & _). split; [by apply prefix_app|]. split; [by apply Forall_app|done].
    + intros l' e (Hp & Hc' & _). split; [by apply prefix_app|]. split; [by apply Forall_app|done].
  - intros l e (Hp & Hc & _). split; [by apply prefix_app_r|done].
  - intros l e (Hp & Hc & _). split; [by apply prefix_app_r|done].
Qed.

(** The file of an accepted path is looked at only if it is below the snapshot. *)
Lemma route_path_inside p e :
  normalizeRoutePath p = Ret e → let candidate := filepath_join [dst; e] in
  filepath_rel dst candidate = Ret ".." ∨
  ∃ l rel, below dst l candidate ∧ filepath_rel dst candidate = Ret rel.
Proof.
  intros [->|(l & Hne & Hl & ->)]%normalize_plain.
  - destruct (rel_parent dst) as [H|H]; [by left|right]. exists [], ".". split; [done|]. by apply (filepath_rel_below _ []).
  - right. exists l, (join "/" l). pose proof (filepath_join_below dst l Hne Hl) as Hb. split; [done|].
    rewrite (filepath_rel_below _ _ _ Hb). by destruct l.
Qed.

Lemma runs_assert r : normalizeRoutePath (r_Path r) = Ret (route_path r) →
  runs (assertRouteFileExists env is_not_exist dst (route_path r)) (λ l o,
    (l = [] ∨ l = [FStat (route_file dst r)] ∧ ∃ ls, below dst ls (route_file dst r)) ∧
    (o = Ret tt → l = [FStat (route_file dst r)] ∧ answered (FStat (route_file dst r)) false)).
Proof.
  intros Hp. unfold assertRouteFileExists. destruct (route_path_inside _ _ Hp) as [->|(l & rel & Hb & ->)].
  - apply runs_pure. intros s. eexists. split; [done|]. split; [by left|done].
  - change (wrapping ?f ?a (lift (Ret ?x)) ≫= ?g) with (g x). cbv beta.
    apply runs_guard_bind; [intros _; split; [by left|done]|intros _].
    eapply (runs_call_bind env (FStat _)); [apply once_stat| |intros e; split; [right; eauto|done]..].
    intros isDir Ha. apply runs_pure. intros s. eexists. split; [done|]. split; [right; eauto|]. by destruct isDir.
Qed.

Lemma shows_route level r vs m :
  shows vs m →
  shows ((level, r) :: vs)
    (routePath ← wrapping "invalid route path for %q: %w" [FStr (r_Title r)] (lift (normalizeRoutePath (r_Path r)));
     _ ← assertRouteFileExists env is_not_exist dst routePath;
     let title := trim_space (r_Title r) in
     _ ← guard_err (String.eqb title "") (Errorf "manifest route at path %q has empty title" [FStr routePath]);
     below ← m;
     mret (route_line level r routePath title :: below)).
Proof.
  intros Hm. unfold shows. set (c := FStat (route_file dst r)).
  assert (∀ l (o : result (list string)), l `prefix_of` [c] → Forall route_call l → (∀ lines, o ≠ Ret lines) →
    l `prefix_of` c :: route_stats vs ∧ Forall route_call l ∧ ∀ lines : list string, o = Ret lines →
      l = c :: route_stats vs ∧ lines = rendered_line <$> (level, r) :: vs ∧ Forall (λ x, route_ok x.2) ((level, r) :: vs)) as Hf.
  { intros l o Hp Hc Ho. split; [|split; [done|]]; [|by intros lines ?%Ho].
    transitivity [c]; [done|]. by exists (route_stats vs). }
  destruct (normalizeRoutePath (r_Path r)) as [p|e|e] eqn:Hp;
    [|apply runs_pure; intros s; eexists; (split; [done|]); apply Hf; [apply prefix_nil|done|done]..].
  change (wrapping ?f ?a (lift (Ret ?x)) ≫= ?g) with (g x). cbv beta.
  assert (p = route_path r) as -> by (unfold route_path; by rewrite Hp).
  assert (∀ l, l = [] ∨ l = [c] ∧ (∃ ls, below dst ls (route_file dst r)) → l `prefix_of` [c] ∧ Forall route_call l) as Hl.
  { intros l [->|[-> [ls Hb]]]; [split; [apply prefix_nil|done]|split; [done|]]. constructor; [|done]. by eexists _, _. }
  apply (runs_bind _ _ _ _ (runs_assert r Hp)).
  - intros l [] [H Ha]. destruct (Ha eq_refl) as [-> Hans]. destruct (Hl _ H) as [_ Hc]. destruct H as [|[_ Hb]]; [done|].
    apply runs_guard_bind; [intros _; rewrite app_nil_r; by apply Hf|intros Ht%String.eqb_neq].
    apply (runs_bind _ _ _ _ Hm).
    + intros l lines (_ & Hcs & Hls). destruct (Hls lines eq_refl) as (-> & -> & Ho). apply runs_ret. rewrite app_nil_r.
      split; [done|]. split; [by apply Forall_app|]. intros ? [= <-]. split; [done|]. split; [done|].
      constructor; [by split_and!|done].
    + intros l e (Hpre & Hcs & _). split; [by apply (prefix_cons c)|]. split; [by apply Forall_app|done].
    + intros l e (Hpre & Hcs & _). split; [by apply (prefix_cons c)|]. split; [by apply Forall_app|done].
  - intros l e [H _]. destruct (Hl _ H). by apply Hf.
  - intros l e [H _]. destruct (Hl _ H). by apply Hf.
Qed.

Lemma shows_routeLines r : ∀ level, shows (visible level r) (routeLines env is_not_exist dst level r).
Proof.
  induction r as [title description path state children IH] using route_ind'. intros level. rewrite visible_eq.
  cbn [routeLines r_State r_Children]. destruct (routeStateContains state "hidden"); [apply shows_nil|].
  apply (shows_route level (Route title description path state children)). clear title description path state.
  induction IH as [|c l Hc Hl IHl]; [apply shows_nil|]. by apply shows_app.
Qed.
Lemma shows_appendRouteLines level routes : shows (visible_all level routes) (appendRouteLines env is_not_exist routes dst level).
Proof. induction routes as [|r l IH]; [apply shows_nil|]. by apply shows_app; [apply shows_routeLines|]. Qed.
End tree.

(** ** A run of the program *)

Section program.
Context (opts : options) (generatedAt : string).

Definition manifestPath : string := filepath_join [destDocsRoot opts; "manifest.json"].
Definition snapshot_metadata : snapshotMetadata :=
  {| sm_UpstreamRepo := upstreamRepo; sm_UpstreamSHA := coderSHA opts; sm_GeneratedAt := generatedAt |}.
Definition preconditions : list fscall :=
  [FStat (sourceDocsRoot opts); FStat (filepath_join [sourceDocsRoot opts; "manifest.json"]); FStat (skillMDPath opts)].
Definition ready : Prop :=
  answered (FStat (sourceDocsRoot opts)) true ∧ answered (FStat (filepath_join [sourceDocsRoot opts; "manifest.json"])) false ∧
  answered (FStat (skillMDPath opts)) false ∧ (12 ≤ slen (coderSHA opts))%Z.

(** The manifest was read from the snapshot and all its routes are as required. *)
Definition tree_ready (m : manifest) : Prop :=
  (∃ text, answered (FReadFile manifestPath) text ∧ unmarshal text = Ret m) ∧
  Forall (λ x, route_ok (destDocsRoot opts) x.2) (visible_all 0 (mf_Routes m)).
Definition looked_at (m : manifest) : list fscall :=
  FReadFile manifestPath :: route_stats (destDocsRoot opts) (visible_all 0 (mf_Routes m)).
(** The new text is that of the file that was read. *)
Definition skill_ready (m : manifest) (updated : string) : Prop :=
  tree_ready m ∧ ∃ content, answered (FReadFile (skillMDPath opts)) content ∧
    updatedSkill content (docs_tree m) (coderSHA opts) generatedAt = Ret updated.

(** What happens after the snapshot was copied; [true] for the whole of it. *)
Inductive published : list fscall → bool → Prop :=
  | published_nothing : published [] false
  | published_manifest : published [FReadFile manifestPath] false
  | published_routes text m stats :
      answered (FReadFile manifestPath) text → unmarshal text = Ret m →
      stats `prefix_of` route_stats (destDocsRoot opts) (visible_all 0 (mf_Routes m)) →
      Forall (route_call (destDocsRoot opts)) stats → published (FReadFile manifestPath :: stats) false
  | published_read m : tree_ready m → published (looked_at m ++ [FReadFile (skillMDPath opts)]) false
  | published_skill m updated : skill_ready m updated →
      published (looked_at m ++ [FReadFile (skillMDPath opts); FWriteFile (skillMDPath opts) updated]) false
  | published_dir m updated : skill_ready m updated →
      published (looked_at m ++ [FReadFile (skillMDPath opts); FWriteFile (skillMDPath opts) updated;
                                 FMkdirAll (filepath_dir (snapshotOut opts))]) false
  | published_all m updated data b : skill_ready m updated → marshal snapshot_metadata = Ret data →
      published (looked_at m ++ [FReadFile (skillMDPath opts); FWriteFile (skillMDPath opts) updated;
                                 FMkdirAll (filepath_dir (snapshotOut opts)); FWriteFile (snapshotOut opts) (data +:+ newline)]) b.

(** A run of the program. *)
Inductive generation : list fscall → bool → Prop :=
  | generation_refused l : l `prefix_of` preconditions → generation l false
  | generation_syncing synced : ready → Forall (sync_call (sourceDocsRoot opts) (destDocsRoot opts)) synced →
      generation (preconditions ++ synced) false
  | generation_published synced l b : ready → Forall (sync_call (sourceDocsRoot opts) (destDocsRoot opts)) synced →
      published l b → generation (preconditions ++ synced ++ l) b.

Definition finished {A} (o : result A) (b : bool) : Prop := ∀ a, o = Ret a → b = true.
Lemma finished_not {A} (o : result A) : (∀ a, o ≠ Ret a) → finished o false.
Proof. intros H a Ho. by destruct (H a). Qed.

Lemma runs_wrapping {A} format args (m : fs (W := W) A) (P : list fscall → bool → Prop) :
  runs m (λ l o, ∃ b, P l b ∧ finished o b) → runs (wrapping format args m) (λ l o, ∃ b, P l b ∧ finished o b).
Proof.
  intros H. apply runs_map_err. eapply runs_mono; [exact H|].
  by intros l [a|e|e] (b & Hl & Hb); exists b.
Qed.

(** The error does not matter to the relation. *)
Lemma runs_any_error {A} format args (m : fs (W := W) A) (R : list fscall → result A → Prop) :
  runs m R → (∀ l e e', R l (Err e) → R l (Err e')) → runs (wrapping format args m) R.
Proof. intros H HR. apply runs_map_err. eapply runs_mono; [exact H|]. intros l [a|e|e] Ho; [done|by eapply HR|done]. Qed.

Lemma runs_inject m : tree_ready m →
  runs (injectGeneratedSections env (skillMDPath opts) (docs_tree m) (coderSHA opts) generatedAt) (λ l o,
    ((∀ a, o ≠ Ret a) ∧ l = [FReadFile (skillMDPath opts)]) ∨
    ∃ updated, skill_ready m updated ∧ l = [FReadFile (skillMDPath opts); FWriteFile (skillMDPath opts) updated]).
Proof.
  intros Hm. unfold injectGeneratedSections.
  eapply (runs_call_bind env (FReadFile _)); [apply once_wrapping, once_os| |by left..]. intros content Ha.
  destruct (updatedSkill content (docs_tree m) (coderSHA opts) generatedAt) as [updated|e|e] eqn:Hu.
  - change (lift (Ret ?x) ≫= ?g) with (g x). cbv beta.
    eapply runs_mono; [eapply (once_wrapping (FWriteFile _ _)), once_os|]. intros l o [-> _]. right. exists updated.
    split; [|done]. split; [done|]. by exists content.
  - apply runs_pure. intros s. eexists. split; [done|]. by left.
  - apply runs_pure. intros s. eexists. split; [done|]. by left.
Qed.
Lemma runs_writeSnapshot m updated pre : skill_ready m updated →
  pre = looked_at m ++ [FReadFile (skillMDPath opts); FWriteFile (skillMDPath opts) updated] →
  runs (writeSnapshot env marshal (snapshotOut opts) (coderSHA opts) generatedAt) (λ l o,
    ∃ b, published (pre ++ l) b ∧ finished o b).
Proof.
  intros Hs ->. unfold writeSnapshot. fold snapshot_metadata.
  assert (∀ e : goerror, finished (Err e : result ()) false ∧ finished (Panic e : result ()) false) as Hf by done.
  destruct (marshal snapshot_metadata) as [data|e|e] eqn:Hd.
  2,3: apply runs_pure; intros s; eexists; split; [done|]; exists false; rewrite app_nil_r; by split; [apply published_skill|].
  change (wrapping ?f ?a (lift (Ret ?x)) ≫= ?g) with (g x). cbv beta.
  eapply (runs_call_bind env (FMkdirAll _)); [apply once_wrapping, once_os| |..].
  - intros _ _. eapply runs_mono; [eapply (once_wrapping (FWriteFile _ _)), once_os|]. intros l o [-> _]. exists true.
    rewrite <-app_assoc. by split; [apply published_all|].
  - intros e. exists false. rewrite <-app_assoc. by split; [apply published_dir|].
  - intros e. exists false. rewrite <-app_assoc. by split; [apply published_dir|].
Qed.

Lemma runs_parse : runs (parseManifest env unmarshal manifestPath) (λ l o,
  l = [FReadFile manifestPath] ∧ ∀ m, o = Ret m → ∃ text, answered (FReadFile manifestPath) text ∧ unmarshal text = Ret m).
Proof.
  unfold parseManifest. eapply (runs_call_bind env (FReadFile _)); [apply once_wrapping, once_os| |done..].
  intros text Ha. apply runs_map_err. apply runs_lift. destruct (unmarshal text) as [m|e|e] eqn:Hu; [|done..].
  split; [done|]. intros ? [= <-]. by exists text.
Qed.
Lemma runs_render m : runs (renderDocsTree env is_not_exist (mf_Routes m) (destDocsRoot opts)) (λ l o,
  l `prefix_of` route_stats (destDocsRoot opts) (visible_all 0 (mf_Routes m)) ∧ Forall (route_call (destDocsRoot opts)) l ∧
  ∀ tree, o = Ret tree → FReadFile manifestPath :: l = looked_at m ∧ tree = docs_tree m ∧
    Forall (λ x, route_ok (destDocsRoot opts) x.2) (visible_all 0 (mf_Routes m))).
Proof.
  unfold renderDocsTree. apply (runs_bind _ _ _ _ (shows_appendRouteLines _ 0 (mf_Routes m))).
  - intros l lines (Hp & Hc & Hl). apply runs_ret. rewrite app_nil_r. split; [done|]. split; [done|]. intros tree [= <-].
    destruct (Hl lines eq_refl) as (-> & -> & Ho). done.
  - by intros l e (Hp & Hc & _).
  - by intros l e (Hp & Hc & _).
Qed.
Lemma runs_publish :
  runs (m ← wrapping "parse synced manifest: %w" [] (parseManifest env unmarshal manifestPath);
        docsTree ← wrapping "render docs tree: %w" [] (renderDocsTree env is_not_exist (mf_Routes m) (destDocsRoot opts));
        _ ← wrapping "inject generated sections into SKILL.md: %w" []
              (injectGeneratedSections env (skillMDPath opts) docsTree (coderSHA opts) generatedAt);
        wrapping "write snapshot json: %w" [] (writeSnapshot env marshal (snapshotOut opts) (coderSHA opts) generatedAt))
    (λ l o, ∃ b, published l b ∧ finished o b).
Proof.
  eapply runs_bind; [apply runs_any_error; [apply runs_parse|naive_solver]| | |].
  2,3: intros l e [-> _]; exists false; by split; [apply published_manifest|].
  intros l1 m [-> Hm]. destruct (Hm m eq_refl) as (text & Ha & Hu).
  eapply runs_bind; [apply runs_any_error; [apply runs_render|naive_solver]| | |].
  2,3: intros l e (Hp & Hc & _); exists false; by split; [apply (published_routes text m)|].
  intros l2 tree (_ & _ & Ht). destruct (Ht tree eq_refl) as (Hl & -> & Hok).
  assert (tree_ready m) as Hr by (split; [by exists text|done]).
  assert (∀ l, [FReadFile manifestPath] ++ l2 ++ l = looked_at m ++ l) as Hla by (intros l; by rewrite <-Hl).
  eapply runs_bind; [apply runs_any_error; [by apply runs_inject|naive_solver]| | |].
  - intros l3 [] [[Hn _]|(updated & Hs & ->)]; [by destruct (Hn tt)|].
    eapply runs_mono; [apply runs_wrapping; by apply (runs_writeSnapshot m updated)|]. intros l o H. cbv beta.
    by rewrite Hla, app_assoc.
  - intros l e [[_ ->]|(updated & Hs & ->)]; exists false; rewrite Hla; by split; [constructor|].
  - intros l e [[_ ->]|(updated & Hs & ->)]; exists false; rewrite Hla; by split; [constructor|].
Qed.

(** *** The whole program *)

Lemma once_require_dir p label : 
  runs (requireDirExists env is_not_exist p label) (λ l o, l = [FStat p] ∧ (o = Ret tt → answered (FStat p) true)).
Proof.
  unfold requireDirExists. eapply (runs_call_bind env (FStat p)); [apply once_stat| |done..].
  intros [] Ha; apply runs_pure; intros s; eexists; (split; [done|]); by split.
Qed.
Lemma once_require_file p label :
  runs (requireFileExists env is_not_exist p label) (λ l o, l = [FStat p] ∧ (o = Ret tt → answered (FStat p) false)).
Proof.
  unfold requireFileExists. eapply (runs_call_bind env (FStat p)); [apply once_stat| |done..].
  intros [] Ha; apply runs_pure; intros s; eexists; (split; [done|]); by split.
Qed.
Lemma runs_preconditions :
  runs (validatePreconditions env is_not_exist opts) (λ l o, l `prefix_of` preconditions ∧
    (o = Ret tt → l = preconditions ∧ answered (FStat (sourceDocsRoot opts)) true ∧
       answered (FStat (filepath_join [sourceDocsRoot opts; "manifest.json"])) false ∧ answered (FStat (skillMDPath opts)) false)).
Proof.
  unfold validatePreconditions, preconditions.
  assert (∀ a b c : fscall, [a] `prefix_of` [a; b; c] ∧ [a; b] `prefix_of` [a; b; c]) as Hp.
  { intros a b c. split; by eexists. }
  eapply runs_bind; [apply once_require_dir| | |]; [|by intros l e [-> _]; split; [apply Hp|]..].
  intros l1 [] [-> H1]. eapply runs_bind; [apply once_require_file| | |]; [|by intros l e [-> _]; split; [apply Hp|]..].
  intros l2 [] [-> H2]. eapply runs_mono; [apply once_require_file|]. intros l o [-> H3]. split; [done|].
  intros ->. split; [done|]. by split_and!; [apply H1|apply H2|apply H3].
Qed.
Lemma checked_sha narg : checkFlags narg opts = Ret tt → (12 ≤ slen (coderSHA opts))%Z.
Proof. unfold checkFlags. intros H. inv_outcome H. lia. Qed.

Lemma runs_generate fuel narg :
  runs (generate env is_not_exist unmarshal marshal fuel narg opts generatedAt) (λ l o, ∃ b, generation l b ∧ finished o b).
Proof.
  assert (∀ l (o : result ()), l `prefix_of` preconditions → (∀ a, o ≠ Ret a) → ∃ b, generation l b ∧ finished o b) as Hrefused.
  { intros l o Hl Ho. exists false. split; [by constructor|by apply finished_not]. }
  unfold generate. apply runs_lift_bind; [|intros; apply Hrefused; [apply prefix_nil|done]..]. intros [] Hflags%checked_sha.
  eapply runs_bind; [apply runs_any_error; [apply runs_preconditions|naive_solver]| | |].
  2,3: intros l e [Hl _]; by apply Hrefused.
  intros l [] [_ Hpre]. destruct (Hpre eq_refl) as (-> & Hr1 & Hr2 & Hr3).
  assert ready as Hready by by split_and!.
  apply (runs_mono _ (λ l o, ∃ b, generation (preconditions ++ l) b ∧ finished o b)); [|done].
  apply (runs_wrapping _ _ _ (λ l b, generation (preconditions ++ l) b)). unfold run.
  eapply runs_bind; [apply runs_any_error; [apply makes_sync|naive_solver]| | |].
  - intros synced [] [Hs _]. eapply runs_mono; [apply runs_publish|]. intros l o (b & Hl & Hb). exists b.
    split; [by constructor|done].
  - intros l e [Hs _]. exists false. by split; [constructor|].
  - intros l e [Hs _]. exists false. by split; [constructor|].
Qed.

(** *** Where the program writes *)

Definition may_write (c : fscall) : Prop :=
  match c with
  | FWriteFile p _ => (∃ l, below (destDocsRoot opts) l p) ∨ p = skillMDPath opts ∨ p = snapshotOut opts
  | FRemoveAll p => p = destDocsRoot opts
  | _ => True
  end.
Lemma sync_call_may_write c : sync_call (sourceDocsRoot opts) (destDocsRoot opts) c → may_write c.
Proof. destruct 1; cbn; eauto. Qed.
Lemma route_stats_may_write dst vs : Forall may_write (route_stats dst vs).
Proof. apply Forall_fmap, Forall_true. by intros x. Qed.
Lemma published_may_write l b : published l b → Forall may_write l.
Proof.
  assert (∀ m rest, Forall may_write rest → Forall may_write (looked_at m ++ rest)) as Hl.
  { intros m rest Hr. apply Forall_app. split; [|done]. constructor; [done|apply route_stats_may_write]. }
  destruct 1 as [| |text m stats Ha Hu Hp Hs| | | |]; [by repeat constructor|by repeat constructor| |by apply Hl; repeat constructor; cbn; auto..].
  constructor; [done|]. eapply Forall_impl; [exact Hs|]. by intros c (ls & p & -> & _).
Qed.
Lemma generation_may_write l b : generation l b → Forall may_write l.
Proof.
  assert (Forall may_write preconditions) as Hp by by repeat constructor.
  destruct 1 as [l Hl|synced _ Hs|synced l b _ Hs Hl].
  - destruct Hl as [k Hk]. rewrite Hk in Hp. by apply Forall_app in Hp as [? _].
  - apply Forall_app. split; [done|]. eapply Forall_impl; [exact Hs|]. apply sync_call_may_write.
  - apply Forall_app. split; [done|]. apply Forall_app. split; [|by eapply published_may_write].
    eapply Forall_impl; [exact Hs|]. apply sync_call_may_write.
Qed.
End program.

(** ** A file system that does not change *)

Inductive node := NFile (content : string) | NOther | NDir (entries : list (string * node)).
Definition node_type (n : node) : file_type :=
  match n with NFile _ => RegularFile | NOther => OtherFile | NDir _ => Directory end.
Fixpoint node_ind' (P : node → Prop) (Hf : ∀ content, P (NFile content)) (Ho : P NOther)
    (Hd : ∀ entries, Forall (λ e, P e.2) entries → P (NDir entries)) (n : node) : P n :=
  match n with
  | NFile content => Hf content
  | NOther => Ho
  | NDir entries =>
      Hd entries ((fix go (l : list (string * node)) : Forall (λ e, P e.2) l :=
        match l with
        | [] => @List.Forall_nil _ _
        | e :: l => @List.Forall_cons _ (λ e, P e.2) e l (node_ind' P Hf Ho Hd e.2) (go l)
        end) entries)
  end.
Fixpoint depth (n : node) : nat :=
  match n with
  | NDir entries => S ((fix go (l : list (string * node)) := match l with [] => 0%nat | e :: l => Nat.max (depth e.2) (go l) end) entries)
  | _ => 1
  end.

(** The file system shows the tree [n] at [p]. *)
Definition always (c : fscall) (r : fsreply c) : Prop := ∀ w, ∃ w', env c w = (Ret r, w').
Fixpoint serves (p : string) (n : node) : Prop :=
  match n with
  | NFile content => always (FReadFile p) content
  | NOther => True
  | NDir entries =>
      always (FReadDir p) ((λ e, (e.1, node_type e.2)) <$> entries) ∧
      (fix go (l : list (string * node)) : Prop :=
         match l with [] => True | e :: l => (plain_elem e.1 ∧ serves (filepath_join [p; e.1]) e.2) ∧ go l end) entries
  end.

(** The calls that copy a tree, which has the path [p] and is at the names [l]. *)
Fixpoint copy_calls (dst : string) (l : list string) (p : string) (n : node) : list fscall :=
  if bool_decide ("images" ∈ l) then []
  else match n with
  | NFile content =>
      if negb (bool_decide (l = [])) && shouldCopyFile p
      then [FMkdirAll (filepath_dir (copy_of dst l)); FReadFile p; FWriteFile (copy_of dst l) (normalize_lf content)] else []
  | NOther => []
  | NDir entries =>
      FReadDir p :: (fix go (es : list (string * node)) : list fscall :=
        match es with [] => [] | e :: es => copy_calls dst (l ++ [e.1]) (filepath_join [p; e.1]) e.2 ++ go es end) entries
  end.

Definition does {A} (l : list fscall) (a : A) (m : fs (W := W) A) : Prop := ∀ s, ∃ s', m s = (Ret a, s') ∧ sends l s s'.
Lemma does_ret {A} (a : A) : does [] a (mret a).
Proof. intros s. exists s. split; [done|]. unfold sends. by rewrite app_nil_r. Qed.
Lemma does_bind {A B} l l' a b (m : fs A) (f : A → fs B) : does l a m → does l' b (f a) → does (l ++ l') b (m ≫= f).
Proof.
  intros Hm Hf s. destruct (Hm s) as (s1 & E1 & Hl). destruct (Hf s1) as (s2 & E2 & Hl'). exists s2.
  unfold mbind, M_bind. rewrite E1, E2. split; [done|]. unfold sends in *. by rewrite Hl', Hl, app_assoc.
Qed.
Lemma does_os c r : always c r → does [c] r (os env c).
Proof. intros H s. destruct (H (c_world s)) as [w Hw]. unfold os, issue. rewrite Hw. by eexists. Qed.
Lemma does_wrapping {A} l (a : A) format args m : does l a m → does l a (wrapping format args m).
Proof. intros H s. destruct (H s) as (s' & E & Hl). exists s'. unfold wrapping, map_err. by rewrite E. Qed.

Context (writable : ∀ p content, always (FMkdirAll p) tt ∧ always (FWriteFile p content) tt).

Lemma does_visit src dst l p n : below src l p → serves p n →
  does (match n with NDir _ => [] | _ => copy_calls dst l p n end)
       (bool_decide (node_type n = Directory) && bool_decide ("images" ∈ l)) (visit env src dst p (node_type n)).
Proof.
  intros Hb Hs. pose proof Hb as (_ & _ & Hp). unfold visit.
  rewrite (filepath_rel_below _ _ _ Hb). change (wrapping ?f ?a (lift (Ret ?x)) ≫= ?g) with (g x). cbv beta.
  destruct l as [|x l]; [rewrite andb_false_r; destruct n; apply does_ret|].
  destruct (TemplateFiles.join_plain x l Hp) as (_ & _ & Hd & _). apply String.eqb_neq in Hd. rewrite Hd.
  rewrite hasPathComponent_spec by done. set (names := x :: l) in *.
  destruct n as [content| |entries]; cbn [copy_calls node_type];
    (destruct (decide ("images" ∈ names)) as [Hi|Hi];
      [rewrite !(bool_decide_eq_true_2 _ Hi)|rewrite !(bool_decide_eq_false_2 _ Hi)]); try apply does_ret.
  change (negb (bool_decide (names = []))) with true. cbn [andb negb].
  rewrite (bool_decide_eq_true_2 (RegularFile = RegularFile)) by done. cbn [negb].
  destruct (shouldCopyFile p); cbn [negb]; [|apply does_ret].
  apply (does_bind [_] [_; _] tt); [apply does_wrapping, (does_os (FMkdirAll _) tt); by apply (writable _ "")|].
  apply (does_bind [_; _] [] tt); [|apply does_ret]. apply does_wrapping. unfold copyTextFileWithNormalizedLF.
  apply (does_bind [_] [_] content); [by apply does_wrapping, (does_os (FReadFile p))|].
  apply does_wrapping, (does_os (FWriteFile _ _) tt). by apply writable.
Qed.

(** With fuel for its depth, the walk over a tree copies it. *)
Lemma does_walk src dst n : ∀ fuel l p, (depth n ≤ fuel)%nat → below src l p → serves p n →
  does (copy_calls dst l p n) tt (walkDir env fuel src dst p (node_type n)).
Proof.
  induction n as [content| |entries IH] using node_ind'; intros [|fuel] l p Hf Hb Hs; try (cbn in Hf; lia); cbn [walkDir].
  - pose proof (does_visit src dst l p (NFile content) Hb Hs) as Hv. rewrite <-(app_nil_r (copy_calls _ _ _ _)).
    eapply does_bind; [exact Hv|]. apply does_ret.
  - pose proof (does_visit src dst l p NOther Hb Hs) as Hv. rewrite <-(app_nil_r (copy_calls _ _ _ _)).
    eapply does_bind; [exact Hv|]. apply does_ret.
  - pose proof (does_visit src dst l p (NDir entries) Hb Hs) as Hv. cbn [copy_calls node_type] in *.
    eapply (does_bind []); [exact Hv|]. cbn [negb orb andb bool_decide].
    destruct (decide ("images" ∈ l)) as [Hi|Hi];
      [rewrite (bool_decide_eq_true_2 _ Hi); apply does_ret|rewrite (bool_decide_eq_false_2 _ Hi)].
    rewrite andb_false_r. cbn [orb]. rewrite (bool_decide_eq_true_2 (Directory = Directory)) by done. cbn [negb].
    cbn [serves] in Hs. destruct Hs as [Hdir Hes].
    apply (does_bind [_] _ ((λ e, (e.1, node_type e.2)) <$> entries)); [by apply (does_os (FReadDir p))|].
    cbn [depth] in Hf. apply le_S_n in Hf. clear Hdir Hv.
    induction IH as [|e es He _ IHes]; [apply does_ret|]. destruct Hes as [[Hpl Hse] Hes].
    cbn [fmap list_fmap mfor]. eapply (does_bind _ _ tt); [|apply IHes; [lia|done]].
    apply He; [lia|by apply below_join|done].
Qed.

(** With fuel for the depth of the documentation, a file system that shows it and can
    be written copies all of it: every regular Markdown or JSON file outside of a
    directory named images, with its line ends normalized, and nothing else. *)
Theorem sync_copies_tree fuel src dst entries :
  (depth (NDir entries) ≤ fuel)%nat → serves src (NDir entries) →
  always (FRemoveAll dst) tt → always (FLstat src) Directory → always (FStat (filepath_join [dst; "manifest.json"])) false →
  does ([FRemoveAll dst; FMkdirAll dst; FLstat src] ++ copy_calls dst [] src (NDir entries) ++ [FStat (filepath_join [dst; "manifest.json"])])
       tt (syncDocsSnapshot env is_not_exist fuel src dst).
Proof.
  intros Hf Hs Hrm Hroot Hman. unfold syncDocsSnapshot.
  apply (does_bind [_] _ tt); [by apply does_wrapping, (does_os (FRemoveAll _))|].
  apply (does_bind [_] _ tt); [apply does_wrapping, (does_os (FMkdirAll _)); by apply (writable _ "")|].
  apply (does_bind (_ :: copy_calls dst [] src (NDir entries)) _ tt).
  - apply does_wrapping, (does_bind [_] _ Directory); [by apply (does_os (FLstat _))|].
    apply (does_walk src dst (NDir entries)); [done|apply below_refl|done].
  - unfold requireFileExists. apply (does_bind [_] [] false); [|apply does_ret].
    unfold stat. intros s. destruct (does_os _ _ Hman s) as (s' & E & Hl). exists s'. unfold map_err. by rewrite E.
Qed.
End properties.

(** * The program *)

(** C39: the documentation generator, whatever the file system does (names in a
    directory are plain).  It makes the calls of [generation], in their order: it looks
    at its inputs, and only when they are as required and the SHA is long enough does
    it remove the old snapshot; it copies regular Markdown and JSON files outside of
    directories named images, with normalized line ends, to the same place below the
    destination; it looks at the files of the visible routes of the manifest, in the
    order of the document; only when all of them exist, with a title and inside the
    snapshot, is SKILL.md written, as the update of its own old text; and the snapshot's
    metadata come last.  A run that succeeds has done all of it.  Nothing is written
    but below the destination, SKILL.md and the metadata, and nothing but the
    destination is removed. *)
Theorem docs_generation_contract {W} (env : ∀ c : fscall, M W goerror (fsreply c)) (is_not_exist : goerror → bool)
    (unmarshal : string → result manifest) (marshal : snapshotMetadata → result string)
    (fuel : nat) (narg : Z) (opts : options) (generatedAt : string) :
  (∀ dir entries, answered env (FReadDir dir) entries → plain_names entries) →
  runs (generate env is_not_exist unmarshal marshal fuel narg opts generatedAt) (λ l o,
    (∃ b, generation env unmarshal marshal opts generatedAt l b ∧ (o = Ret tt → b = true)) ∧
    (∀ p content, FWriteFile p content ∈ l →
       (∃ names, below (destDocsRoot opts) names p) ∨ p = skillMDPath opts ∨ p = snapshotOut opts) ∧
    (∀ p, FRemoveAll p ∈ l → p = destDocsRoot opts)).
Proof.
  intros Hnames. eapply runs_mono; [by apply (runs_generate env is_not_exist unmarshal marshal Hnames)|].
  intros l o (b & Hg & Hb). pose proof (generation_may_write env unmarshal marshal opts generatedAt l b Hg) as Hw.
  rewrite Forall_forall in Hw. split; [exists b; split; [done|]; exact (Hb tt)|]. split.
  - intros p content Hin. exact (Hw _ Hin).
  - intros p Hin. exact (Hw _ Hin).
Qed.

(** ** SKILL.md *)

Definition tree_markers : list string := [beginDocsTreeMarker; endDocsTreeMarker; beginSnapshotMarker; endSnapshotMarker].
(** The two sections are apart, in either order, and each marker occurs once. *)
Definition sections_apart (s : string) : Prop :=
  Forall (λ m, once m s) tree_markers ∧ ∃ p x q y r,
    s = sections beginDocsTreeMarker endDocsTreeMarker beginSnapshotMarker endSnapshotMarker p x q y r ∨
    s = sections beginSnapshotMarker endSnapshotMarker beginDocsTreeMarker endDocsTreeMarker p x q y r.

Lemma occ_no_char a m s : contains_char a s = false → occ (String a m) s = 0%nat.
Proof.
  induction s as [|c s IH]; cbn [contains_char occ]; [done|]. intros [Hc Hs]%orb_false_iff. rewrite IH by done.
  cbn [has_prefix]. by rewrite Ascii.eqb_sym, Hc.
Qed.
Lemma snapshotText_unmarked coderSHA generatedAt :
  contains_char "<" coderSHA = false → contains_char "<" generatedAt = false →
  Forall (λ m, occ m (snapshotText coderSHA generatedAt) = 0%nat) tree_markers.
Proof.
  intros Hs Hg. assert (contains_char "<" (stake 12 coderSHA) = false) as Hs'.
  { rewrite <-(stake_sdrop 12 coderSHA), contains_char_app in Hs. by apply orb_false_iff in Hs as [? _]. }
  assert (contains_char "<" (snapshotText coderSHA generatedAt) = false) as H.
  { unfold snapshotText. rewrite !contains_char_app, Hs', Hg. done. }
  unfold tree_markers. repeat constructor; by apply occ_no_char.
Qed.

(** The text with both sections replaced. *)
Inductive updates (tree snapshot : string) : string → string → Prop :=
  | updates_tree_first p x q y r :
      updates tree snapshot
        (sections beginDocsTreeMarker endDocsTreeMarker beginSnapshotMarker endSnapshotMarker p x q y r)
        (sections beginDocsTreeMarker endDocsTreeMarker beginSnapshotMarker endSnapshotMarker p (rendered tree) q (rendered snapshot) r)
  | updates_snapshot_first p x q y r :
      updates tree snapshot
        (sections beginSnapshotMarker endSnapshotMarker beginDocsTreeMarker endDocsTreeMarker p x q y r)
        (sections beginSnapshotMarker endSnapshotMarker beginDocsTreeMarker endDocsTreeMarker p (rendered snapshot) q (rendered tree) r).

Lemma markers_are_markers : Forall marker tree_markers.
Proof. by repeat constructor. Qed.

Lemma updates_apart tree snapshot s s' :
  Forall (λ m, occ m tree = 0%nat) tree_markers → Forall (λ m, occ m snapshot = 0%nat) tree_markers →
  Forall (λ m, once m s) tree_markers → updates tree snapshot s s' → Forall (λ m, once m s') tree_markers.
Proof.
  intros Ht Hs Ho Hu. pose proof markers_are_markers as Hm. unfold tree_markers in *. rewrite !Forall_cons in *.
  destruct Hm as (M1 & M2 & M3 & M4 & _), Ht as (T1 & T2 & T3 & T4 & _), Hs as (S1 & S2 & S3 & S4 & _), Ho as (O1 & O2 & O3 & O4 & _).
  destruct Hu as [p x q y r|p x q y r].
  - enough (all_once beginDocsTreeMarker endDocsTreeMarker beginSnapshotMarker endSnapshotMarker
      (sections beginDocsTreeMarker endDocsTreeMarker beginSnapshotMarker endSnapshotMarker p (rendered tree) q (rendered snapshot) r)) as H.
    { unfold all_once in H. by rewrite !Forall_cons in H. }
    apply (all_once_second _ _ _ _ M1 M2 M3 M4 p (rendered tree) q y r); [by repeat constructor|].
    apply (all_once_first _ _ _ _ M1 M2 M3 M4 p x q y r); by repeat constructor.
  - enough (all_once beginSnapshotMarker endSnapshotMarker beginDocsTreeMarker endDocsTreeMarker
      (sections beginSnapshotMarker endSnapshotMarker beginDocsTreeMarker endDocsTreeMarker p (rendered snapshot) q (rendered tree) r)) as H.
    { unfold all_once in H. rewrite !Forall_cons in H. tauto. }
    apply (all_once_second _ _ _ _ M3 M4 M1 M2 p (rendered snapshot) q y r); [by repeat constructor|].
    apply (all_once_first _ _ _ _ M3 M4 M1 M2 p x q y r); by repeat constructor.
Qed.
Lemma updatedSkill_Ret tree coderSHA generatedAt s s' :
  Forall (λ m, occ m tree = 0%nat) tree_markers → (12 ≤ slen coderSHA)%Z →
  Forall (λ m, once m s) tree_markers → updates tree (snapshotText coderSHA generatedAt) s s' →
  updatedSkill s tree coderSHA generatedAt = Ret s'.
Proof.
  intros Ht Hsha Ho Hu. pose proof markers_are_markers as Hm. unfold tree_markers in *. rewrite !Forall_cons in *.
  destruct Hm as (M1 & M2 & M3 & M4 & _), Ht as (T1 & T2 & T3 & T4 & _), Ho as (O1 & O2 & O3 & O4 & _).
  unfold updatedSkill. rewrite (proj2 (Z.ltb_ge _ _)) by lia. destruct Hu as [p x q y r|p x q y r].
  - rewrite replace_first by (try done; by repeat constructor).
    cbn [mbind outcome_mbind outcome_bind]. rewrite replace_second; [done..|].
    apply (all_once_first _ _ _ _ M1 M2 M3 M4 p x q y r); by repeat constructor.
  - rewrite replace_second by (try done; by repeat constructor).
    cbn [mbind outcome_mbind outcome_bind]. rewrite replace_first; [done..|].
    apply (all_once_second _ _ _ _ M3 M4 M1 M2 p x q y r); by repeat constructor.
Qed.

(** C40: the update of SKILL.md.  If its two sections are apart, in either order, and
    every marker occurs once, then the update with a tree without markers succeeds; it
    replaces what is between the markers and keeps everything else; the sections are
    still apart; and updating again gives what updating the old text would have given,
    so that repeating the generator changes nothing and an old tree leaves no trace. *)
Theorem skill_update_laws (content tree coderSHA generatedAt tree' coderSHA' generatedAt' : string) :
  sections_apart content → Forall (λ m, occ m tree = 0%nat) tree_markers → Forall (λ m, occ m tree' = 0%nat) tree_markers →
  (12 ≤ slen coderSHA)%Z → (12 ≤ slen coderSHA')%Z →
  contains_char "<" coderSHA = false → contains_char "<" generatedAt = false →
  ∃ updated, updatedSkill content tree coderSHA generatedAt = Ret updated ∧
    updates tree (snapshotText coderSHA generatedAt) content updated ∧ sections_apart updated ∧
    updatedSkill updated tree' coderSHA' generatedAt' = updatedSkill content tree' coderSHA' generatedAt'.
Proof.
  intros [Ho (p & x & q & y & r & Hc)] Ht Ht' Hsha Hsha' Hns Hng.
  pose proof (snapshotText_unmarked _ _ Hns Hng) as Hst. set (snap := snapshotText coderSHA generatedAt) in *.
  assert (∃ updated s', updates tree snap content updated ∧ sections_apart updated ∧
    updates tree' (snapshotText coderSHA' generatedAt') content s' ∧
    updates tree' (snapshotText coderSHA' generatedAt') updated s') as (updated & s' & Hu & Ha & H1 & H2).
  { destruct Hc as [Hc|Hc]; rewrite Hc in *; eexists _, _; (split; [constructor|]); (split; [|split; constructor]);
      (split; [eapply updates_apart; [exact Ht|exact Hst|exact Ho|constructor]|]); eexists _, _, _, _, _; [by left|by right]. }
  exists updated. split; [by eapply updatedSkill_Ret|]. split; [done|]. split; [done|].
  rewrite (updatedSkill_Ret tree' coderSHA' generatedAt' content s') by done.
  eapply updatedSkill_Ret; [done|done|by destruct Ha|done].
Qed.

(** * Concrete runs *)

(** A source directory with an image, a manifest and a page, and a SKILL.md. *)
Definition skill_text : string :=
  "# Docs" +:+ newline +:+ beginDocsTreeMarker +:+ newline +:+ "old tree" +:+ newline +:+ endDocsTreeMarker +:+ newline
    +:+ beginSnapshotMarker +:+ endSnapshotMarker +:+ newline +:+ "end".
Definition toy_fs (c : fscall) : M () goerror (fsreply c) := λ w,
  (match c return result (fsreply c) with
   | FStat p => Ret (String.eqb p "docs")
   | FLstat p => Ret Directory
   | FReadDir p => Ret (if String.eqb p "docs" then [("images", Directory); ("logo.png", RegularFile); ("manifest.json", RegularFile);
                                                   ("start.md", RegularFile)] else [])
   | FReadFile p => Ret (if String.eqb p "SKILL.md" then skill_text else "Hello" +:+ String "013" (String "010" "world"))
   | FWriteFile _ _ | FMkdirAll _ | FRemoveAll _ => Ret tt
   end, w).
Definition toy_manifest (_ : string) : result manifest := Ret {|
  mf_Versions := ["main"];
  mf_Routes := [Route "Start" "How to begin" "./start.md" [] [Route "Secret" "" "../x" ["hidden"] []; Route "More" "" "start.md" [] []]]
|}.
Definition toy_options : options := {|
  sourceDocsRoot := "docs"; destDocsRoot := "out/docs"; skillMDPath := "SKILL.md"; coderSHA := "0123456789abcdef"; snapshotOut := "out/SNAPSHOT.json"
|}.
Definition toy_run : result () * list fscall :=
  let '(o, s) := generate toy_fs (λ _, false) toy_manifest (λ _, Ret "{}") 3 0 toy_options "2026-01-02T03:04:05Z" (CSt tt []) in
  (o, c_calls s).

(** The whole run: the image is not copied, the carriage return is, the hidden route is
    left out, and the old tree is gone. *)
Example docs_are_generated : toy_run = (Ret tt, [
  FStat "docs"; FStat "docs/manifest.json"; FStat "SKILL.md";
  FRemoveAll "out/docs"; FMkdirAll "out/docs"; FLstat "docs"; FReadDir "docs";
  FMkdirAll "out/docs"; FReadFile "docs/manifest.json"; FWriteFile "out/docs/manifest.json" ("Hello" +:+ newline +:+ "world");
  FMkdirAll "out/docs"; FReadFile "docs/start.md"; FWriteFile "out/docs/start.md" ("Hello" +:+ newline +:+ "world");
  FStat "out/docs/manifest.json"; FReadFile "out/docs/manifest.json"; FStat "out/docs/start.md"; FStat "out/docs/start.md";
  FReadFile "SKILL.md";
  FWriteFile "SKILL.md" ("# Docs" +:+ newline +:+ beginDocsTreeMarker +:+ newline
    +:+ "- **Start** (`start.md`) → `references/docs/start.md` — How to begin" +:+ newline
    +:+ "  - More (`start.md`) → `references/docs/start.md`" +:+ newline
    +:+ endDocsTreeMarker +:+ newline +:+ beginSnapshotMarker +:+ newline
    +:+ "- **Upstream**: `coder/coder@0123456789ab`" +:+ newline
    +:+ "- **Generated**: `2026-01-02T03:04:05Z`" +:+ newline +:+ endSnapshotMarker +:+ newline +:+ "end");
  FMkdirAll "out"; FWriteFile "out/SNAPSHOT.json" ("{}" +:+ newline) ]).
Proof. vm_compute. reflexivity. Qed.

Lemma toy_names dir entries : answered toy_fs (FReadDir dir) entries → plain_names entries.
Proof.
  intros (w & w' & H). cbn in H. injection H as <- _. destruct (String.eqb dir "docs"); [|constructor].
  by repeat constructor.
Qed.
Lemma docs_generation_contract_witness :
  runs (generate toy_fs (λ _, false) toy_manifest (λ _, Ret "{}") 3 0 toy_options "2026-01-02T03:04:05Z") (λ l o,
    (∃ b, generation toy_fs toy_manifest (λ _, Ret "{}") toy_options "2026-01-02T03:04:05Z" l b ∧ (o = Ret tt → b = true)) ∧
    (∀ p content, FWriteFile p content ∈ l → (∃ names, below "out/docs" names p) ∨ p = "SKILL.md" ∨ p = "out/SNAPSHOT.json") ∧
    (∀ p, FRemoveAll p ∈ l → p = "out/docs")).
Proof. exact (docs_generation_contract toy_fs (λ _, false) toy_manifest (λ _, Ret "{}") 3 0 toy_options _ toy_names). Defined.

Lemma skill_text_apart : sections_apart skill_text.
Proof.
  split; [by repeat constructor|].
  exists ("# Docs" +:+ newline), (newline +:+ "old tree" +:+ newline), newline, "", (newline +:+ "end"). by left.
Qed.
Lemma skill_update_laws_witness :
  ∃ updated, updatedSkill skill_text "- a" "0123456789abcdef" "now" = Ret updated ∧
    updates "- a" (snapshotText "0123456789abcdef" "now") skill_text updated ∧ sections_apart updated ∧
    updatedSkill updated "- b" "fedcba9876543210" "later" = updatedSkill skill_text "- b" "fedcba9876543210" "later".
Proof.
  apply skill_update_laws; [exact skill_text_apart|by repeat constructor|by repeat constructor|by vm_compute|by vm_compute|done|done].
Defined.

(** A tree section inside of the snapshot's section is written and lost in one run, which
    reports success; the next run fails. *)
Definition nested_text : string :=
  beginSnapshotMarker +:+ beginDocsTreeMarker +:+ endDocsTreeMarker +:+ endSnapshotMarker.
Example nested_sections_are_lost :
  ∃ updated, updatedSkill nested_text "- a" "0123456789abcdef" "now" = Ret updated ∧
    updatedSkill updated "- a" "0123456789abcdef" "now" =
      Err (Errorf "replace DOCS_TREE block: %w" [FErrW (Errorf "missing begin marker %q" [FStr beginDocsTreeMarker])]).
Proof. eexists. split; vm_compute; reflexivity. Qed.

End DocsGen.
