(* ===== verification/Memory.v ===== *)
(** * Memory: values of Go with the memory behind them

    The rest of the development represents Go values by what they contain.  Here is
    the memory as well, as far as the generated functions DeepCopyInto
    (api/v1alpha1 and api/aggregation/v1alpha1, zz_generated.deepcopy.go) use it:
    pointers, slices and maps refer to cells of a heap, which two values may share.
    Strings, numbers, booleans and times have no memory that can be written to. *)

From S2P Require Import Prelude GoErrors.

#[local] Open Scope string_scope.
#[local] Open Scope list_scope.
#[local] Set Warnings "-register-all".

Module Memory.

Abbreviation loc := positive.

Inductive base := BString (s : string) | BInt (z : Z) | BBool (b : bool).

(** A struct has its fields by name; a slice is a part of an array. *)
Inductive val :=
  | VBase (b : base)
  | VStruct (fields : gmap string val)
  | VNil
  | VPtr (l : loc)
  | VSlice (l : loc) (offset len : nat)
  | VMap (l : loc).

Inductive cell :=
  | CZero                                  (* allocated, and not filled yet *)
  | CVar (v : val)
  | CArray (vs : list val)
  | CMap (m : gmap string string).
Abbreviation heap := (gmap loc cell).

(** The types of Go, as far as memory is concerned. *)
Inductive gotype :=
  | TBase
  | TPtr (t : gotype)
  | TSlice (t : gotype)
  | TMap
  | TStruct (fields : list (string * gotype)).

(** ** Programs *)

Definition Mem : Type → Type := M heap goerror.
Definition invalid : goerror := ErrorString "runtime error: invalid memory address or nil pointer dereference".
Definition fails {A} : Mem A := lift (Panic invalid).

Definition allocate (c : cell) : Mem loc := λ h, let l := fresh (dom h) in (Ret l, <[l := c]> h).
Definition fetch (l : loc) : Mem cell := λ h, (match h !! l with Some c => Ret c | None => Panic invalid end, h).
Definition store (l : loc) (c : cell) : Mem () := λ h, (Ret tt, <[l := c]> h).
Fixpoint each {A B} (f : A → Mem B) (l : list A) : Mem (list B) :=
  match l with [] => mret [] | a :: l => b ← f a; bs ← each f l; mret (b :: bs) end.
(** A new cell is filled with what [fill] computes; nothing refers to it before. *)
Definition new_cell (fill : Mem cell) : Mem loc := l ← allocate CZero; c ← fill; _ ← store l c; mret l.

(** [out.F = in.F] *)
Definition assign (v : val) : Mem val := mret v.
(** [if in.F != nil { *out = new(T); ... }]: the value of the new variable is computed
    from the old one's. *)
Definition new_var (copy : val → Mem val) (v : val) : Mem val :=
  match v with
  | VNil => mret VNil
  | VPtr l => l' ← new_cell (c ← fetch l; match c with CVar x => y ← copy x; mret (CVar y) | _ => fails end); mret (VPtr l')
  | _ => fails
  end.
(** [if in.F != nil { *out = make([]T, len( *in)); ... }] *)
Definition make_slice (copy : val → Mem val) (v : val) : Mem val :=
  match v with
  | VNil => mret VNil
  | VSlice l offset len =>
      l' ← new_cell (c ← fetch l;
                     match c with
                     | CArray vs => ys ← each copy (take len (drop offset vs)); mret (CArray ys)
                     | _ => fails
                     end);
      mret (VSlice l' 0 len)
  | _ => fails
  end.
(** [if in.F != nil { *out = make(map[string]string, len( *in)); for key, val := range *in { ... } }] *)
Definition make_map (v : val) : Mem val :=
  match v with
  | VNil => mret VNil
  | VMap l => l' ← new_cell (c ← fetch l; match c with CMap m => mret (CMap m) | _ => fails end); mret (VMap l')
  | _ => fails
  end.

(** [*out = *in], and then the fields of [out] one after the other from those of [in]. *)
Fixpoint copy_fields (steps : list (string * (val → Mem val))) (in_ out : gmap string val) : Mem (gmap string val) :=
  match steps with
  | [] => mret out
  | (f, copy) :: steps =>
      match in_ !! f with
      | Some v => y ← copy v; copy_fields steps in_ (<[f := y]> out)
      | None => fails
      end
  end.
Definition copy_struct (steps : list (string * (val → Mem val))) (in_ : val) : Mem val :=
  match in_ with
  | VStruct fields => out ← copy_fields steps fields fields; mret (VStruct out)
  | _ => fails
  end.

(** The copy that the type asks for. *)
Fixpoint deep_copy (t : gotype) : val → Mem val :=
  match t with
  | TBase => assign
  | TPtr t => new_var (deep_copy t)
  | TSlice t => make_slice (deep_copy t)
  | TMap => make_map
  | TStruct fields =>
      copy_struct ((fix go (l : list (string * gotype)) : list (string * (val → Mem val)) :=
        match l with [] => [] | ft :: l => (ft.1, deep_copy ft.2) :: go l end) fields)
  end.

(** ** What a value contains *)

Inductive deep :=
  | DBase (b : base)
  | DStruct (fields : list (string * deep))
  | DNil
  | DPtr (d : deep)
  | DSlice (ds : list deep)
  | DMap (m : gmap string string).

Section reading.
Context (h : heap).

(** The value with all that is behind it; [None] if it is not of the type. *)
Fixpoint contents (t : gotype) (v : val) : option deep :=
  match t, v with
  | TBase, VBase b => Some (DBase b)
  | TPtr _, VNil | TSlice _, VNil | TMap, VNil => Some DNil
  | TPtr t, VPtr l => match h !! l with Some (CVar x) => DPtr <$> contents t x | _ => None end
  | TSlice t, VSlice l offset len =>
      match h !! l with
      | Some (CArray vs) =>
          if bool_decide (offset + len ≤ List.length vs)%nat
          then DSlice <$> mapM (contents t) (take len (drop offset vs)) else None
      | _ => None
      end
  | TMap, VMap l => match h !! l with Some (CMap m) => Some (DMap m) | _ => None end
  | TStruct fields, VStruct m =>
      DStruct <$> (fix go (l : list (string * gotype)) : option (list (string * deep)) :=
        match l with
        | [] => Some []
        | ft :: l => v ← m !! ft.1; d ← contents ft.2 v; ds ← go l; Some ((ft.1, d) :: ds)
        end) fields
  | _, _ => None
  end.

(** The cells behind a value. *)
Fixpoint cells (t : gotype) (v : val) : gset loc :=
  match t, v with
  | TPtr t, VPtr l => {[ l ]} ∪ match h !! l with Some (CVar x) => cells t x | _ => ∅ end
  | TSlice t, VSlice l offset len =>
      {[ l ]} ∪ match h !! l with Some (CArray vs) => ⋃ (cells t <$> take len (drop offset vs)) | _ => ∅ end
  | TMap, VMap l => {[ l ]}
  | TStruct fields, VStruct m =>
      (fix go (l : list (string * gotype)) : gset loc :=
        match l with [] => ∅ | ft :: l => match m !! ft.1 with Some v => cells ft.2 v | None => ∅ end ∪ go l end) fields
  | _, _ => ∅
  end.
End reading.

(** The type has no memory behind its values. *)
Fixpoint flat (t : gotype) : bool :=
  match t with
  | TBase => true
  | TStruct fields => (fix go (l : list (string * gotype)) : bool := match l with [] => true | ft :: l => flat ft.2 && go l end) fields
  | _ => false
  end.

(** [copy] makes deep copies of the values of type [t]: a new value with the same
    contents, whose memory is all new, and nothing that was there changes. *)
Definition copies (t : gotype) (copy : val → Mem val) : Prop := ∀ h v d, contents h t v = Some d →
  ∃ v' h', copy v h = (Ret v', h') ∧ h ⊆ h' ∧ contents h' t v' = Some d ∧ cells h' t v' ## dom h.

(** * Properties *)

Fixpoint gotype_ind' (P : gotype → Prop) (Hb : P TBase) (Hp : ∀ t, P t → P (TPtr t)) (Hs : ∀ t, P t → P (TSlice t))
    (Hm : P TMap) (Hst : ∀ fields, Forall (λ ft, P ft.2) fields → P (TStruct fields)) (t : gotype) : P t :=
  match t with
  | TBase => Hb
  | TPtr t => Hp t (gotype_ind' P Hb Hp Hs Hm Hst t)
  | TSlice t => Hs t (gotype_ind' P Hb Hp Hs Hm Hst t)
  | TMap => Hm
  | TStruct fields =>
      Hst fields ((fix go (l : list (string * gotype)) : Forall (λ ft, P ft.2) l :=
        match l with
        | [] => @List.Forall_nil _ _
        | ft :: l => @List.Forall_cons _ (λ ft, P ft.2) ft l (gotype_ind' P Hb Hp Hs Hm Hst ft.2) (go l)
        end) fields)
  end.

(** The fields of a struct, one by one. *)
Definition field_contents (h : heap) (m : gmap string val) (ft : string * gotype) : option (string * deep) :=
  v ← m !! ft.1; d ← contents h ft.2 v; Some (ft.1, d).
Lemma contents_struct h fields m :
  contents h (TStruct fields) (VStruct m) = DStruct <$> mapM (field_contents h m) fields.
Proof.
  cbn [contents]. f_equal. induction fields as [|[f t] l IH]; [done|].
  cbn [mapM]. rewrite <-IH. unfold field_contents. cbn. destruct (m !! f) as [v|]; [|done]. cbn. by destruct (contents h t v).
Qed.
Lemma field_contents_Some h m ft fd :
  field_contents h m ft = Some fd ↔ fd.1 = ft.1 ∧ ∃ v, m !! ft.1 = Some v ∧ contents h ft.2 v = Some fd.2.
Proof.
  unfold field_contents. rewrite bind_Some. split.
  - intros (v & Hv & (d & Hd & [= <-])%bind_Some). cbn. eauto.
  - intros (Hf & v & Hv & Hd). exists v. split; [done|]. rewrite Hd. cbn. rewrite <-Hf. by destruct fd.
Qed.
Lemma cells_struct h fields m l :
  l ∈ cells h (TStruct fields) (VStruct m) ↔ ∃ f t v, (f, t) ∈ fields ∧ m !! f = Some v ∧ l ∈ cells h t v.
Proof.
  cbn [cells]. induction fields as [|[f t] fs IH].
  - rewrite elem_of_empty. split; [done|]. by intros (? & ? & ? & ?%elem_of_nil & _).
  - rewrite elem_of_union, IH. setoid_rewrite elem_of_cons. cbn. split.
    + intros [Hl|(f' & t' & v & ? & ? & ?)]; [|by eauto 10]. destruct (m !! f) as [v|] eqn:Hv; [by eauto 10|set_solver].
    + intros (f' & t' & v & [[= -> ->]|Hin] & Hv & Hl); [left; by rewrite Hv|right; by eauto 10].
Qed.
Lemma flat_struct fields : flat (TStruct fields) = true ↔ Forall (λ ft, flat ft.2 = true) fields.
Proof.
  cbn [flat]. induction fields as [|ft l IH]; [done|]. by rewrite andb_true_iff, IH, Forall_cons.
Qed.

(** ** Reading in two heaps *)

Lemma cells_slice h t l offset len vs : h !! l = Some (CArray vs) →
  ∀ l', l' ∈ cells h (TSlice t) (VSlice l offset len) ↔ l' = l ∨ ∃ v, v ∈ take len (drop offset vs) ∧ l' ∈ cells h t v.
Proof.
  intros Hl l'. cbn [cells]. rewrite Hl, elem_of_union, elem_of_singleton, elem_of_union_list.
  setoid_rewrite list_elem_of_fmap. naive_solver.
Qed.

Lemma mapM_agree h h' t xs ds :
  (∀ x dx, x ∈ xs → contents h t x = Some dx → contents h' t x = Some dx ∧ cells h' t x = cells h t x) →
  mapM (contents h t) xs = Some ds → mapM (contents h' t) xs = Some ds ∧ cells h' t <$> xs = cells h t <$> xs.
Proof.
  intros Hx Hds. apply mapM_Some in Hds. rewrite mapM_Some. induction Hds as [|x d xs ds Hd Hds IH]; [done|].
  destruct (Hx x d) as [Hc1 Hc2]; [left|done|]. destruct IH as [H1 H2]; [intros ???; apply Hx; by right|].
  split; [by constructor|]. cbn. by rewrite Hc2, H2.
Qed.
(** What a value contains depends on its cells only. *)
Lemma contents_agree t : ∀ h h' v d,
  contents h t v = Some d → (∀ l, l ∈ cells h t v → h' !! l = h !! l) →
  contents h' t v = Some d ∧ cells h' t v = cells h t v.
Proof.
  induction t as [|t IH|t IH| |fields IH] using gotype_ind'; intros h h' v d Hd Hag.
  - by destruct v.
  - destruct v as [| | |l| |]; try done. cbn in *. rewrite (Hag l) by (apply elem_of_union_l; by apply elem_of_singleton).
    destruct (h !! l) as [[|x| |]|]; try done. apply fmap_Some in Hd as (dx & Hx & ->).
    destruct (IH h h' x dx Hx) as [-> ->]; [|done]. intros l' Hl'. apply Hag. by apply elem_of_union_r.
  - destruct v as [| | | |l offset len|]; try done. pose proof (Hag l) as Hl.
    cbn [contents cells] in *. rewrite Hl by (apply elem_of_union_l; by apply elem_of_singleton). clear Hl.
    destruct (h !! l) as [[| |vs|]|] eqn:Hl; try done. destruct (bool_decide _); [|done].
    apply fmap_Some in Hd as (ds & Hds & ->).
    destruct (mapM_agree h h' t (take len (drop offset vs)) ds) as [Hc1 Hc2]; [|done|by rewrite Hc1, Hc2].
    intros x dx Hx Hdx. apply IH; [done|]. intros l' Hl'. apply Hag. apply elem_of_union_r, elem_of_union_list.
    exists (cells h t x). by split; [apply list_elem_of_fmap_2|].
  - destruct v as [| | | | |l]; try done. cbn in *. by rewrite (Hag l) by by apply elem_of_singleton.
  - destruct v as [|m| | | |]; try done. rewrite contents_struct in *. apply fmap_Some in Hd as (ds & Hds & ->).
    apply mapM_Some in Hds.
    assert (Forall2 (λ ft fd, field_contents h' m ft = Some fd) fields ds ∧ (∀ f t v, (f, t) ∈ fields → m !! f = Some v → cells h' t v = cells h t v)) as [Hf Hc].
    { assert (∀ f t v l, (f, t) ∈ fields → m !! f = Some v → l ∈ cells h t v → h' !! l = h !! l) as Hag'.
      { intros f t v l ? ? ?. apply Hag, cells_struct. by exists f, t, v. }
      clear Hag. induction Hds as [|[f t] [f' d] fs ds Hd Hds IHds]; [split; [done|by intros ??? ?%elem_of_nil]|].
      apply Forall_cons in IH as [IHt IH]. apply field_contents_Some in Hd as (Hn & v & Hv & Hd). cbn in *.
      destruct (IHt h h' v d Hd) as [Hd' Hc']; [intros l Hl; apply (Hag' f t v); [left|done|done]|].
      destruct (IHds IH) as [Hfs Hcs]; [intros f2 t2 v2 l2 Hin; apply Hag'; by right|]. split.
      - constructor; [|done]. apply field_contents_Some. cbn. eauto.
      - intros f2 t2 v2 [[= -> ->]|Hin]%elem_of_cons Hv2; [congruence|by apply (Hcs f2)]. }
    split; [by rewrite (proj2 (mapM_Some _ _ _) Hf)|].
    apply set_eq. intros l. rewrite !cells_struct. split; intros (f & t & v & Hin & Hv & Hl); exists f, t, v.
    + by rewrite <-(Hc f t v).
    + by rewrite (Hc f t v).
Qed.
Lemma cells_dom t : ∀ h v d, contents h t v = Some d → cells h t v ⊆ dom h.
Proof.
  induction t as [|t IH|t IH| |fields IH] using gotype_ind'; intros h v d Hd l' Hl'.
  - by destruct v.
  - destruct v as [| | |l| |]; try done. cbn in *. destruct (h !! l) as [[|x| |]|] eqn:Hl; try done.
    apply fmap_Some in Hd as (dx & Hx & ->). apply elem_of_union in Hl' as [->%elem_of_singleton|Hl']; [by apply elem_of_dom_2 in Hl|].
    by apply (IH h x dx Hx).
  - destruct v as [| | | |l offset len|]; try done. cbn [contents] in Hd.
    destruct (h !! l) as [[| |vs|]|] eqn:Hl; try done. destruct (bool_decide _); [|done].
    apply fmap_Some in Hd as (ds & Hds & ->). apply (cells_slice _ _ _ _ _ _ Hl) in Hl' as [->|(v & Hv & Hl')];
      [by apply elem_of_dom_2 in Hl|].
    apply mapM_Some in Hds. apply list_elem_of_lookup in Hv as [i Hi].
    destruct (Forall2_lookup_l _ _ _ _ _ Hds Hi) as (dv & _ & Hdv). by apply (IH h v dv Hdv).
  - destruct v as [| | | | |l]; try done. cbn in *. apply elem_of_singleton in Hl' as ->.
    destruct (h !! l) as [[| | |m]|] eqn:Hl; try done. by apply elem_of_dom_2 in Hl.
  - destruct v as [|m| | | |]; try done. rewrite contents_struct in Hd. apply fmap_Some in Hd as (ds & Hds & ->).
    apply mapM_Some in Hds. apply cells_struct in Hl' as (f & t & v & Hin & Hv & Hl).
    rewrite Forall_forall in IH. pose proof Hin as Hin'. apply list_elem_of_lookup in Hin' as [i Hi].
    destruct (Forall2_lookup_l _ _ _ _ _ Hds Hi) as (fd & _ & Hfd). apply field_contents_Some in Hfd as (_ & v' & Hv' & Hd).
    cbn in *. assert (v' = v) as -> by congruence. by apply (IH (f, t) Hin h v fd.2 Hd).
Qed.
(** It is the same in a larger heap. *)
Lemma contents_mono h h' t v d :
  contents h t v = Some d → h ⊆ h' → contents h' t v = Some d ∧ cells h' t v = cells h t v.
Proof.
  intros Hd Hh. apply contents_agree; [done|]. intros l Hl. pose proof (cells_dom _ _ _ _ Hd _ Hl) as [c Hc]%elem_of_dom.
  trans (Some c); [by eapply lookup_weaken|done].
Qed.
Lemma flat_cells t : ∀ h v d, flat t = true → contents h t v = Some d → cells h t v = ∅.
Proof.
  induction t as [|t IH|t IH| |fields IH] using gotype_ind'; intros h v d Hf Hd; try done.
  destruct v as [|m| | | |]; try done. rewrite contents_struct in Hd. apply fmap_Some in Hd as (ds & Hds & ->).
    apply mapM_Some in Hds. apply flat_struct in Hf. apply elem_of_equiv_empty_L. intros l (f & t & v & Hin & Hv & Hl)%cells_struct.
    rewrite Forall_forall in IH, Hf. pose proof Hin as Hin'. apply list_elem_of_lookup in Hin' as [i Hi].
    destruct (Forall2_lookup_l _ _ _ _ _ Hds Hi) as (fd & _ & Hfd). apply field_contents_Some in Hfd as (_ & v' & Hv' & Hd).
    cbn in *. assert (v' = v) as -> by congruence. specialize (IH (f, t) Hin h v fd.2 (Hf (f, t) Hin) Hd). set_solver.
Qed.

(** ** Copies *)

Lemma fresh_not_in (h : heap) : fresh (dom h) ∉ dom h.
Proof. apply is_fresh. Qed.
Lemma subseteq_fresh (h : heap) c : h ⊆ <[fresh (dom h) := c]> h.
Proof. apply insert_subseteq, not_elem_of_dom, fresh_not_in. Qed.

(** A new cell: what fills it finds the old memory and adds to it. *)
Lemma new_cell_spec (fill : Mem cell) (P : heap → cell → Prop) h :
  (∀ l, l ∉ dom h → ∃ c h', fill (<[l := CZero]> h) = (Ret c, h') ∧ <[l := CZero]> h ⊆ h' ∧
     ∀ h'', <[l := c]> h' = h'' → h ⊆ h'' → P h'' c) →
  ∃ l c h', new_cell fill h = (Ret l, h') ∧ h ⊆ h' ∧ (l ∉ dom h) ∧ h' !! l = Some c ∧ P h' c.
Proof.
  intros Hfill. set (l := fresh (dom h)). assert (l ∉ dom h) as Hl by apply fresh_not_in.
  destruct (Hfill l Hl) as (c & h' & Hrun & Hsub & HP). exists l, c, (<[l := c]> h').
  assert (h ⊆ <[l := c]> h') as Hh.
  { apply map_subseteq_spec. intros l' c' Hl'. assert (l ≠ l') as Hne.
    { intros ->. apply Hl. by apply elem_of_dom_2 in Hl'. }
    rewrite lookup_insert_ne by done. eapply lookup_weaken; [|exact Hsub]. by rewrite lookup_insert_ne. }
  split; [|split; [done|]]; [|split; [done|]; split; [by rewrite lookup_insert_eq|by apply HP]].
  unfold new_cell, mbind, M_bind, allocate. fold l. by rewrite Hrun.
Qed.

Lemma copies_assign t : flat t = true → copies t assign.
Proof.
  intros Hf h v d Hd. exists v, h. rewrite (flat_cells t h v d Hf Hd). split_and!; [done..|]. set_solver.
Qed.

Lemma copies_new_var t copy : copies t copy → copies (TPtr t) (new_var copy).
Proof.
  intros Hc h v d Hd. destruct v as [| | |l| |]; try done.
  - injection Hd as <-. exists VNil, h. split_and!; [done..|]. set_solver.
  - cbn in Hd. destruct (h !! l) as [[|x| |]|] eqn:Hl; try done. apply fmap_Some in Hd as (dx & Hx & ->).
    set (fill := c ← fetch l; match c with CVar x => y ← copy x; mret (CVar y) | _ => fails end).
    destruct (new_cell_spec fill (λ h' c, ∃ y, c = CVar y ∧ contents h' t y = Some dx ∧ cells h' t y ## dom h) h)
      as (l' & c & h' & Hrun & Hsub & Hl' & Hlc & y & -> & Hy & Hcy).
    { intros l' Hl'. set (h1 := <[l' := CZero]> h). assert (h ⊆ h1) as H1 by by apply insert_subseteq, not_elem_of_dom.
      destruct (Hc h1 x dx) as (y & h2 & Hrun & Hsub & Hy & Hcy); [by apply (contents_mono h)|].
      exists (CVar y), h2. split; [|split; [done|]].
      { unfold fill, mbind, M_bind, fetch. rewrite (lookup_weaken _ _ _ _ Hl H1). by rewrite Hrun. }
      intros h3 <- H3. exists y. assert (l' ∉ cells h2 t y) as Hn.
      { intros Hin. apply (Hcy l' Hin). unfold h1. rewrite dom_insert. set_solver. }
      destruct (contents_agree t h2 (<[l' := CVar y]> h2) y dx Hy) as [Hy' ->].
      { intros l2 Hl2. apply lookup_insert_ne. by intros ->. }
      split; [done|]. split; [done|]. unfold h1 in Hcy. rewrite dom_insert in Hcy. set_solver. }
    exists (VPtr l'), h'. split; [unfold new_var; fold fill; unfold mbind, M_bind; by rewrite Hrun|]. split; [done|].
    cbn. rewrite Hlc, Hy. split; [done|]. set_solver.
Qed.

Lemma copies_each t copy h0 : copies t copy → ∀ vs ds h, mapM (contents h0 t) vs = Some ds → h0 ⊆ h →
  ∃ ys h', each copy vs h = (Ret ys, h') ∧ h ⊆ h' ∧ mapM (contents h' t) ys = Some ds ∧
    ∀ y l, y ∈ ys → l ∈ cells h' t y → l ∉ dom h.
Proof.
  intros Hc. induction vs as [|v vs IH]; intros ds h Hds H0; cbn [mapM] in Hds.
  - injection Hds as <-. exists [], h. split_and!; [done..|]. by intros y l ?%elem_of_nil.
  - apply bind_Some in Hds as (d & Hd & (ds' & Hds' & [= <-])%bind_Some).
    destruct (Hc h v d) as (y & h1 & Hrun & H1 & Hy & Hcy); [by apply (contents_mono h0)|].
    destruct (IH ds' h1 Hds') as (ys & h2 & Hruns & H2 & Hys & Hcys); [by transitivity h|].
    destruct (contents_mono h1 h2 t y d Hy H2) as [Hy2 Hcy2].
    exists (y :: ys), h2. split; [cbn; unfold mbind, M_bind; by rewrite Hrun, Hruns|]. split; [by transitivity h1|].
    split; [cbn [mapM]; by rewrite Hy2; cbn; rewrite Hys|].
    intros y' l [->|Hin]%elem_of_cons Hl.
    + rewrite Hcy2 in Hl. intros Hd'. exact (Hcy l Hl Hd').
    + intros Hd'. apply (Hcys y' l Hin Hl). by apply (subseteq_dom _ _ H1).
Qed.

Lemma take_all {A} (l : list A) n : List.length l = n → take n (drop 0 l) = l.
Proof. intros <-. rewrite drop_0. apply firstn_all. Qed.

Lemma length_contents h t vs ds : mapM (contents h t) vs = Some ds → List.length vs = List.length ds.
Proof. intros H%mapM_Some. by eapply Forall2_length. Qed.
Lemma copies_make_slice t copy : copies t copy → copies (TSlice t) (make_slice copy).
Proof.
  intros Hc h v d Hd. destruct v as [| | | |l offset len|]; try done.
  - injection Hd as <-. exists VNil, h. split_and!; [done..|]. set_solver.
  - cbn [contents] in Hd. destruct (h !! l) as [[| |vs|]|] eqn:Hl; try done. case_bool_decide as Hlen; [|done].
    apply fmap_Some in Hd as (ds & Hds & ->). set (part := take len (drop offset vs)) in *.
    assert (List.length ds = len) as Hdl.
    { rewrite <-(length_contents _ _ _ _ Hds). unfold part. rewrite length_take, length_drop. lia. }
    set (fill := c ← fetch l; match c with CArray vs => ys ← each copy (take len (drop offset vs)); mret (CArray ys) | _ => fails end).
    destruct (new_cell_spec fill (λ h' c, ∃ ys, c = CArray ys ∧ mapM (contents h' t) ys = Some ds ∧
        ∀ y l, y ∈ ys → l ∈ cells h' t y → l ∉ dom h) h) as (l' & c & h' & Hrun & Hsub & Hl' & Hlc & ys & -> & Hys & Hcy).
    { intros l' Hl'. set (h1 := <[l' := CZero]> h). assert (h ⊆ h1) as H1 by by apply insert_subseteq, not_elem_of_dom.
      destruct (copies_each t copy h Hc part ds h1 Hds H1) as (ys & h2 & Hrun & Hsub & Hy & Hcy).
      exists (CArray ys), h2. split; [|split; [done|]].
      { unfold fill, mbind, M_bind, fetch. rewrite (lookup_weaken _ _ _ _ Hl H1). fold part. by rewrite Hrun. }
      intros h3 <- H3. exists ys.
      assert (∀ y dy, y ∈ ys → contents h2 t y = Some dy →
        contents (<[l' := CArray ys]> h2) t y = Some dy ∧ cells (<[l' := CArray ys]> h2) t y = cells h2 t y) as Hag.
      { intros y dy Hin Hdy. apply contents_agree; [done|]. intros l2 Hl2. apply lookup_insert_ne. intros ->.
        apply (Hcy y l2 Hin Hl2). unfold h1. rewrite dom_insert. set_solver. }
      destruct (mapM_agree h2 (<[l' := CArray ys]> h2) t ys ds Hag Hy) as [Hys' _].
      split; [done|]. split; [done|]. intros y l2 Hin Hl2 Hd. pose proof Hin as Hin'. apply list_elem_of_lookup in Hin' as [i Hi].
      apply mapM_Some in Hy. destruct (Forall2_lookup_l _ _ _ _ _ Hy Hi) as (dy & _ & Hdy).
      destruct (Hag y dy Hin Hdy) as [_ Hcc]. rewrite Hcc in Hl2. apply (Hcy y l2 Hin Hl2). unfold h1. rewrite dom_insert. set_solver. }
    assert (List.length ys = len) as Hyl by (by rewrite <-Hdl, (length_contents _ _ _ _ Hys)).
    exists (VSlice l' 0 len), h'. split; [unfold make_slice; fold fill; unfold mbind, M_bind; by rewrite Hrun|]. split; [done|].
    split.
    + cbn [contents]. rewrite Hlc, bool_decide_true by lia. by rewrite take_all, Hys by done.
    + intros l2 Hl2. apply (cells_slice _ _ _ _ _ _ Hlc) in Hl2 as [->|(y & Hy & Hl2)]; [done|].
      rewrite take_all in Hy by done. by apply (Hcy y).
Qed.

Lemma copies_make_map : copies TMap make_map.
Proof.
  intros h v d Hd. destruct v as [| | | | |l]; try done.
  - injection Hd as <-. exists VNil, h. split_and!; [done..|]. set_solver.
  - cbn in Hd. destruct (h !! l) as [[| | |m]|] eqn:Hl; try done. injection Hd as <-.
    set (fill := c ← fetch l; match c with CMap m => mret (CMap m) | _ => fails end : Mem cell).
    destruct (new_cell_spec fill (λ h' c, c = CMap m) h) as (l' & c & h' & Hrun & Hsub & Hl' & Hlc & ->).
    { intros l' Hl'. assert (h ⊆ <[l' := CZero]> h) as H1 by by apply insert_subseteq, not_elem_of_dom.
      exists (CMap m), (<[l' := CZero]> h). split; [|by split].
      unfold fill, mbind, M_bind, fetch. by rewrite (lookup_weaken _ _ _ _ Hl H1). }
    exists (VMap l'), h'. split; [unfold make_map; fold fill; unfold mbind, M_bind; by rewrite Hrun|]. split; [done|].
    cbn. rewrite Hlc. split; [done|]. set_solver.
Qed.

(** ** Structs *)

Section struct.
Context (fields : list (string * gotype)) (Hnodup : NoDup fields.*1).

Lemma field_unique f t t' : (f, t) ∈ fields → (f, t') ∈ fields → t = t'.
Proof.
  intros H1 H2. clear -Hnodup H1 H2. induction fields as [|[g u] l IH]; [by apply elem_of_nil in H1|].
  cbn in Hnodup. apply NoDup_cons in Hnodup as [Hg Hn].
  apply elem_of_cons in H1, H2. destruct H1 as [E1|H1], H2 as [E2|H2]; [congruence|..|by apply IH].
  - injection E1 as <- <-. destruct Hg. by apply (list_elem_of_fmap_2 fst) in H2.
  - injection E2 as <- <-. destruct Hg. by apply (list_elem_of_fmap_2 fst) in H1.
Qed.

(** The fields of [out] contain what those of [m] did; those of [done] are new. *)
Definition copied_fields (h0 h : heap) (m out : gmap string val) (done : list string) : Prop :=
  ∀ f t, (f, t) ∈ fields → ∃ v d y, m !! f = Some v ∧ contents h0 t v = Some d ∧ out !! f = Some y ∧
    contents h t y = Some d ∧ (f ∈ done → cells h t y ## dom h0) ∧ (f ∉ done → y = v).

Lemma copy_fields_spec h0 m steps : 
  Forall (λ fc, ∃ t, (fc.1, t) ∈ fields ∧ copies t fc.2) steps →
  ∀ h out done, h0 ⊆ h → copied_fields h0 h m out done →
  ∃ out' h', copy_fields steps m out h = (Ret out', h') ∧ h ⊆ h' ∧ copied_fields h0 h' m out' (done ++ steps.*1).
Proof.
  induction 1 as [|[f copy] steps (t & Hin & Hc) Hs IH]; intros h out dn H0 Hok.
  - exists out, h. by rewrite app_nil_r.
  - cbn in Hin, Hc. destruct (Hok f t Hin) as (v & d & y0 & Hv & Hd & _).
    destruct (Hc h v d) as (y & h1 & Hrun & H1 & Hy & Hcy); [by apply (contents_mono h0)|].
    destruct (IH h1 (<[f := y]> out) (dn ++ [f])) as (out' & h2 & Hruns & H2 & Hok2); [by transitivity h| |].
    + intros f' t' Hin'. destruct (decide (f' = f)) as [->|Hne].
      * rewrite (field_unique f t' t Hin' Hin). exists v, d, y. rewrite lookup_insert_eq. split_and!; [done..| |].
        -- intros _. pose proof (subseteq_dom _ _ H0). set_solver.
        -- intros Hn. destruct Hn. apply elem_of_app. right. by apply list_elem_of_singleton.
      * destruct (Hok f' t' Hin') as (v' & d' & y' & Hv' & Hd' & Hout & Hy' & Hdn & Hndn).
        destruct (contents_mono h h1 t' y' d' Hy' H1) as [Hy1 Hc1]. exists v', d', y'. rewrite lookup_insert_ne by done.
        rewrite Hc1. split_and!; [done..| |].
        -- intros [Hf|Hf%list_elem_of_singleton]%elem_of_app; [by apply Hdn|done].
        -- intros Hf. apply Hndn. intros Hf'. apply Hf. apply elem_of_app. by left.
    + exists out', h2. cbn [copy_fields fmap list_fmap]. rewrite Hv. unfold mbind, M_bind. rewrite Hrun.
      rewrite <-app_assoc in Hok2. split; [exact Hruns|]. split; [by transitivity h1|done].
Qed.

Lemma copies_struct steps :
  Forall (λ fc, ∃ t, (fc.1, t) ∈ fields ∧ copies t fc.2) steps →
  Forall (λ ft, ft.1 ∈ steps.*1 ∨ flat ft.2 = true) fields →
  copies (TStruct fields) (copy_struct steps).
Proof.
  intros Hs Hf h v d Hd. destruct v as [|m| | | |]; try done. rewrite contents_struct in Hd.
  apply fmap_Some in Hd as (ds & Hds & ->). apply mapM_Some in Hds.
  assert (∀ f t, (f, t) ∈ fields → ∃ v d, m !! f = Some v ∧ contents h t v = Some d) as Hm.
  { intros f t Hin. apply list_elem_of_lookup in Hin as [i Hi]. destruct (Forall2_lookup_l _ _ _ _ _ Hds Hi) as (fd & _ & Hfd).
    apply field_contents_Some in Hfd as (_ & v & Hv & Hd). eauto. }
  destruct (copy_fields_spec h m steps Hs h m []) as (out & h' & Hrun & H1 & Hok); [done| |].
  { intros f t Hin. destruct (Hm f t Hin) as (v & d & Hv & Hd). exists v, d, v. split_and!; [done..| |done]. by intros ?%elem_of_nil. }
  exists (VStruct out), h'. split; [cbn; unfold mbind, M_bind; by rewrite Hrun|]. split; [done|]. split.
  - rewrite contents_struct, (proj2 (mapM_Some _ _ ds)); [done|]. apply Forall2_same_length_lookup. 
    split; [by apply Forall2_length in Hds|]. intros i [f t] fd Hi Hfd.
    pose proof (Forall2_lookup_lr _ _ _ _ _ _ Hds Hi Hfd) as (Hn & v & Hv & Hd)%field_contents_Some.
    destruct (Hok f t) as (v' & d' & y & Hv' & Hd' & Hy & Hdy & _); [by apply list_elem_of_lookup_2 in Hi|].
    apply field_contents_Some. split; [done|]. exists y. cbn in *. split; [done|]. congruence.
  - intros l (f & t & y & Hin & Hy & Hl)%cells_struct. destruct (Hok f t Hin) as (v' & d' & y' & Hv' & Hd' & Hy' & Hdy & Hdn & _).
    assert (y' = y) as -> by congruence. rewrite Forall_forall in Hf. destruct (Hf (f, t) Hin) as [Hst|Hfl]; cbn in *.
    + by apply Hdn.
    + rewrite (flat_cells t h' y d' Hfl Hdy) in Hl. set_solver.
Qed.
End struct.

(** ** The reference *)

(** The names of the fields of a struct are distinct. *)
Fixpoint distinct (t : gotype) : bool :=
  match t with
  | TBase | TMap => true
  | TPtr t | TSlice t => distinct t
  | TStruct fields =>
      bool_decide (NoDup fields.*1) &&
      (fix go (l : list (string * gotype)) : bool := match l with [] => true | ft :: l => distinct ft.2 && go l end) fields
  end.

Lemma deep_copy_struct fields : deep_copy (TStruct fields) = copy_struct ((λ ft, (ft.1, deep_copy ft.2)) <$> fields).
Proof. reflexivity. Qed.
Lemma distinct_struct fields :
  distinct (TStruct fields) = true → NoDup fields.*1 ∧ Forall (λ ft, distinct ft.2 = true) fields.
Proof.
  cbn [distinct]. intros [Hn%bool_decide_eq_true Hd]%andb_true_iff. split; [done|]. clear Hn.
  induction fields as [|ft l IH]; [done|]. apply andb_true_iff in Hd as [H1 H2]. constructor; auto.
Qed.
Lemma deep_copy_copies t : distinct t = true → copies t (deep_copy t).
Proof.
  induction t as [|t IH|t IH| |fields IH] using gotype_ind'; intros Hd.
  - by apply copies_assign.
  - by apply copies_new_var, IH.
  - by apply copies_make_slice, IH.
  - apply copies_make_map.
  - apply distinct_struct in Hd as [Hn Hd]. rewrite deep_copy_struct. rewrite Forall_forall in IH, Hd.
    apply copies_struct; [done|apply Forall_forall..].
    + intros fc (ft & -> & Hin)%list_elem_of_fmap. exists ft.2. cbn. split; [by destruct ft|]. by apply IH, Hd.
    + intros ft Hin. left. apply list_elem_of_fmap. exists (ft.1, deep_copy ft.2). split; [done|].
      apply list_elem_of_fmap. by exists ft.
Qed.

(** What is written afterwards through the copy is not seen in the old value, and what
    is written to the old memory is not seen in the copy. *)
Definition independent (h h' : heap) (t : gotype) (v v' : val) (d : deep) : Prop :=
  (∀ h2 : heap, (∀ l, l ∉ cells h' t v' → h2 !! l = h' !! l) → contents h2 t v = Some d) ∧
  (∀ h2 : heap, (∀ l, l ∉ dom h → h2 !! l = h' !! l) → contents h2 t v' = Some d).
Lemma copies_independent h h' t v v' d :
  contents h t v = Some d → h ⊆ h' → contents h' t v' = Some d → cells h' t v' ## dom h → independent h h' t v v' d.
Proof.
  intros Hd Hh Hd' Hdis. destruct (contents_mono h h' t v d Hd Hh) as [Hv Hc]. split; intros h2 Hag.
  - apply (contents_agree t h' h2 v d Hv). intros l Hl. apply Hag. intros Hl'. rewrite Hc in Hl.
    exact (Hdis l Hl' (cells_dom _ _ _ _ Hd l Hl)).
  - apply (contents_agree t h' h2 v' d Hd'). intros l Hl. apply Hag. exact (Hdis l Hl).
Qed.

End Memory.
