(* ===== verification/DeepCopies.v ===== *)
(** * DeepCopies: the generated deep copies of the API types

    The struct types of api/v1alpha1 and api/aggregation/v1alpha1 with their fields, as
    far as memory is concerned, and for each type the functions DeepCopyInto, DeepCopy
    and DeepCopyObject of zz_generated.deepcopy.go, on the memory of [Memory].  A field
    that a function does not mention is copied as it is, by [*out = *in].  The types of
    k8s.io/api and k8s.io/apimachinery and their deep copies are parameters; the functions
    of those libraries copy deeply and treat times as values.  The clone functions of the
    control plane controller are here as well. *)

From S2P Require Import Prelude GoErrors Memory.

#[local] Open Scope string_scope.
#[local] Open Scope list_scope.

Module DeepCopies.
Import Memory.

(** [if c := in.DeepCopy(); c != nil { return c }; return nil]: the interface is nil when
    the pointer is. *)
Definition as_object (copy : val → Mem val) (v : val) : Mem val :=
  c ← copy v; match c with VNil => mret VNil | _ => mret c end.

Section types.
Context (ext : string → gotype) (ext_copy : string → val → Mem val).

(** ** v1alpha1 *)

Definition CertSecretSelector : gotype := TStruct [
  ("Name", TBase);
  ("Key", TBase)].
Definition CertsSpec : gotype := TStruct [
  ("Secrets", TSlice CertSecretSelector)].
Definition ServiceSpec : gotype := TStruct [
  ("Type", TBase);
  ("Port", TBase);
  ("Annotations", TMap)].
Definition OperatorAccessSpec : gotype := TStruct [
  ("Disabled", TBase);
  ("GeneratedTokenSecretName", TBase)].
Definition SecretKeySelector : gotype := TStruct [
  ("Name", TBase);
  ("Key", TBase)].
Definition ServiceAccountSpec : gotype := TStruct [
  ("DisableCreate", TBase);
  ("Name", TBase);
  ("Annotations", TMap);
  ("Labels", TMap)].
Definition RBACSpec : gotype := TStruct [
  ("WorkspacePerms", TPtr TBase);
  ("EnableDeployments", TPtr TBase);
  ("ExtraRules", TSlice (ext "rbacv1.PolicyRule"));
  ("WorkspaceNamespaces", TSlice TBase)].
Definition TLSSpec : gotype := TStruct [
  ("SecretNames", TSlice TBase)].
Definition ProbeSpec : gotype := TStruct [
  ("Enabled", TPtr TBase);
  ("InitialDelaySeconds", TBase);
  ("PeriodSeconds", TPtr TBase);
  ("TimeoutSeconds", TPtr TBase);
  ("SuccessThreshold", TPtr TBase);
  ("FailureThreshold", TPtr TBase)].
Definition IngressTLSExposeSpec : gotype := TStruct [
  ("SecretName", TBase);
  ("WildcardSecretName", TBase)].
Definition IngressExposeSpec : gotype := TStruct [
  ("ClassName", TPtr TBase);
  ("Host", TBase);
  ("WildcardHost", TBase);
  ("Annotations", TMap);
  ("TLS", TPtr IngressTLSExposeSpec)].
Definition GatewayParentRef : gotype := TStruct [
  ("Name", TBase);
  ("Namespace", TPtr TBase);
  ("SectionName", TPtr TBase)].
Definition GatewayExposeSpec : gotype := TStruct [
  ("Host", TBase);
  ("WildcardHost", TBase);
  ("ParentRefs", TSlice GatewayParentRef)].
Definition ExposeSpec : gotype := TStruct [
  ("Ingress", TPtr IngressExposeSpec);
  ("Gateway", TPtr GatewayExposeSpec)].
Definition CoderControlPlaneSpec : gotype := TStruct [
  ("Image", TBase);
  ("Replicas", TPtr TBase);
  ("Service", ServiceSpec);
  ("ExtraArgs", TSlice TBase);
  ("ExtraEnv", TSlice (ext "corev1.EnvVar"));
  ("ImagePullSecrets", TSlice (ext "corev1.LocalObjectReference"));
  ("OperatorAccess", OperatorAccessSpec);
  ("LicenseSecretRef", TPtr SecretKeySelector);
  ("ServiceAccount", ServiceAccountSpec);
  ("RBAC", RBACSpec);
  ("Resources", TPtr (ext "corev1.ResourceRequirements"));
  ("SecurityContext", TPtr (ext "corev1.SecurityContext"));
  ("PodSecurityContext", TPtr (ext "corev1.PodSecurityContext"));
  ("TLS", TLSSpec);
  ("ReadinessProbe", ProbeSpec);
  ("LivenessProbe", ProbeSpec);
  ("EnvUseClusterAccessURL", TPtr TBase);
  ("Expose", TPtr ExposeSpec);
  ("EnvFrom", TSlice (ext "corev1.EnvFromSource"));
  ("Volumes", TSlice (ext "corev1.Volume"));
  ("VolumeMounts", TSlice (ext "corev1.VolumeMount"));
  ("Certs", CertsSpec);
  ("NodeSelector", TMap);
  ("Tolerations", TSlice (ext "corev1.Toleration"));
  ("Affinity", TPtr (ext "corev1.Affinity"));
  ("TopologySpreadConstraints", TSlice (ext "corev1.TopologySpreadConstraint"))].
Definition CoderControlPlaneStatus : gotype := TStruct [
  ("ObservedGeneration", TBase);
  ("ReadyReplicas", TBase);
  ("URL", TBase);
  ("OperatorTokenSecretRef", TPtr SecretKeySelector);
  ("OperatorAccessReady", TBase);
  ("LicenseLastApplied", TPtr (ext "metav1.Time"));
  ("LicenseLastAppliedHash", TBase);
  ("LicenseTier", TBase);
  ("EntitlementsLastChecked", TPtr (ext "metav1.Time"));
  ("ExternalProvisionerDaemonsEntitlement", TBase);
  ("Phase", TBase);
  ("Conditions", TSlice (ext "metav1.Condition"))].
Definition CoderControlPlane : gotype := TStruct [
  ("TypeMeta", ext "metav1.TypeMeta");
  ("ObjectMeta", ext "metav1.ObjectMeta");
  ("Spec", CoderControlPlaneSpec);
  ("Status", CoderControlPlaneStatus)].
Definition CoderControlPlaneList : gotype := TStruct [
  ("TypeMeta", ext "metav1.TypeMeta");
  ("ListMeta", ext "metav1.ListMeta");
  ("Items", TSlice CoderControlPlane)].
Definition CoderProvisionerKeySpec : gotype := TStruct [
  ("Name", TBase);
  ("SecretName", TBase);
  ("SecretKey", TBase)].
Definition CoderProvisionerSpec : gotype := TStruct [
  ("ControlPlaneRef", ext "corev1.LocalObjectReference");
  ("OrganizationName", TBase);
  ("Key", CoderProvisionerKeySpec);
  ("Replicas", TPtr TBase);
  ("Tags", TMap);
  ("Image", TBase);
  ("ExtraArgs", TSlice TBase);
  ("ExtraEnv", TSlice (ext "corev1.EnvVar"));
  ("Resources", ext "corev1.ResourceRequirements");
  ("ImagePullSecrets", TSlice (ext "corev1.LocalObjectReference"));
  ("TerminationGracePeriodSeconds", TPtr TBase)].
Definition CoderProvisionerStatus : gotype := TStruct [
  ("ObservedGeneration", TBase);
  ("ReadyReplicas", TBase);
  ("Phase", TBase);
  ("Conditions", TSlice (ext "metav1.Condition"));
  ("OrganizationID", TBase);
  ("OrganizationName", TBase);
  ("ProvisionerKeyID", TBase);
  ("ProvisionerKeyName", TBase);
  ("TagsHash", TBase);
  ("ControlPlaneRefName", TBase);
  ("ControlPlaneURL", TBase);
  ("SecretRef", TPtr SecretKeySelector)].
Definition CoderProvisioner : gotype := TStruct [
  ("TypeMeta", ext "metav1.TypeMeta");
  ("ObjectMeta", ext "metav1.ObjectMeta");
  ("Spec", CoderProvisionerSpec);
  ("Status", CoderProvisionerStatus)].
Definition CoderProvisionerList : gotype := TStruct [
  ("TypeMeta", ext "metav1.TypeMeta");
  ("ListMeta", ext "metav1.ListMeta");
  ("Items", TSlice CoderProvisioner)].
Definition ProxyBootstrapSpec : gotype := TStruct [
  ("CoderURL", TBase);
  ("CredentialsSecretRef", SecretKeySelector);
  ("ProxyName", TBase);
  ("DisplayName", TBase);
  ("Icon", TBase);
  ("GeneratedTokenSecretName", TBase)].
Definition WorkspaceProxySpec : gotype := TStruct [
  ("Image", TBase);
  ("Replicas", TPtr TBase);
  ("Service", ServiceSpec);
  ("PrimaryAccessURL", TBase);
  ("ProxySessionTokenSecretRef", TPtr SecretKeySelector);
  ("Bootstrap", TPtr ProxyBootstrapSpec);
  ("DerpOnly", TBase);
  ("ExtraArgs", TSlice TBase);
  ("ExtraEnv", TSlice (ext "corev1.EnvVar"));
  ("ImagePullSecrets", TSlice (ext "corev1.LocalObjectReference"))].
Definition WorkspaceProxyStatus : gotype := TStruct [
  ("ObservedGeneration", TBase);
  ("ReadyReplicas", TBase);
  ("Registered", TBase);
  ("ProxyTokenSecretRef", TPtr SecretKeySelector);
  ("Phase", TBase);
  ("Conditions", TSlice (ext "metav1.Condition"))].
Definition CoderWorkspaceProxy : gotype := TStruct [
  ("TypeMeta", ext "metav1.TypeMeta");
  ("ObjectMeta", ext "metav1.ObjectMeta");
  ("Spec", WorkspaceProxySpec);
  ("Status", WorkspaceProxyStatus)].
Definition CoderWorkspaceProxyList : gotype := TStruct [
  ("TypeMeta", ext "metav1.TypeMeta");
  ("ListMeta", ext "metav1.ListMeta");
  ("Items", TSlice CoderWorkspaceProxy)].

Definition CertSecretSelector_DeepCopyInto : val → Mem val := copy_struct [].
Definition CertSecretSelector_DeepCopy : val → Mem val := new_var CertSecretSelector_DeepCopyInto.
Definition CertsSpec_DeepCopyInto : val → Mem val := copy_struct [
  ("Secrets", make_slice assign)].
Definition CertsSpec_DeepCopy : val → Mem val := new_var CertsSpec_DeepCopyInto.
Definition ServiceSpec_DeepCopyInto : val → Mem val := copy_struct [
  ("Annotations", make_map)].
Definition ServiceSpec_DeepCopy : val → Mem val := new_var ServiceSpec_DeepCopyInto.
Definition OperatorAccessSpec_DeepCopyInto : val → Mem val := copy_struct [].
Definition OperatorAccessSpec_DeepCopy : val → Mem val := new_var OperatorAccessSpec_DeepCopyInto.
Definition SecretKeySelector_DeepCopyInto : val → Mem val := copy_struct [].
Definition SecretKeySelector_DeepCopy : val → Mem val := new_var SecretKeySelector_DeepCopyInto.
Definition ServiceAccountSpec_DeepCopyInto : val → Mem val := copy_struct [
  ("Annotations", make_map);
  ("Labels", make_map)].
Definition ServiceAccountSpec_DeepCopy : val → Mem val := new_var ServiceAccountSpec_DeepCopyInto.
Definition RBACSpec_DeepCopyInto : val → Mem val := copy_struct [
  ("WorkspacePerms", new_var assign);
  ("EnableDeployments", new_var assign);
  ("ExtraRules", make_slice (ext_copy "rbacv1.PolicyRule"));
  ("WorkspaceNamespaces", make_slice assign)].
Definition RBACSpec_DeepCopy : val → Mem val := new_var RBACSpec_DeepCopyInto.
Definition TLSSpec_DeepCopyInto : val → Mem val := copy_struct [
  ("SecretNames", make_slice assign)].
Definition TLSSpec_DeepCopy : val → Mem val := new_var TLSSpec_DeepCopyInto.
Definition ProbeSpec_DeepCopyInto : val → Mem val := copy_struct [
  ("Enabled", new_var assign);
  ("PeriodSeconds", new_var assign);
  ("TimeoutSeconds", new_var assign);
  ("SuccessThreshold", new_var assign);
  ("FailureThreshold", new_var assign)].
Definition ProbeSpec_DeepCopy : val → Mem val := new_var ProbeSpec_DeepCopyInto.
Definition IngressTLSExposeSpec_DeepCopyInto : val → Mem val := copy_struct [].
Definition IngressTLSExposeSpec_DeepCopy : val → Mem val := new_var IngressTLSExposeSpec_DeepCopyInto.
Definition IngressExposeSpec_DeepCopyInto : val → Mem val := copy_struct [
  ("ClassName", new_var assign);
  ("Annotations", make_map);
  ("TLS", new_var assign)].
Definition IngressExposeSpec_DeepCopy : val → Mem val := new_var IngressExposeSpec_DeepCopyInto.
Definition GatewayParentRef_DeepCopyInto : val → Mem val := copy_struct [
  ("Namespace", new_var assign);
  ("SectionName", new_var assign)].
Definition GatewayParentRef_DeepCopy : val → Mem val := new_var GatewayParentRef_DeepCopyInto.
Definition GatewayExposeSpec_DeepCopyInto : val → Mem val := copy_struct [
  ("ParentRefs", make_slice GatewayParentRef_DeepCopyInto)].
Definition GatewayExposeSpec_DeepCopy : val → Mem val := new_var GatewayExposeSpec_DeepCopyInto.
Definition ExposeSpec_DeepCopyInto : val → Mem val := copy_struct [
  ("Ingress", new_var IngressExposeSpec_DeepCopyInto);
  ("Gateway", new_var GatewayExposeSpec_DeepCopyInto)].
Definition ExposeSpec_DeepCopy : val → Mem val := new_var ExposeSpec_DeepCopyInto.
Definition CoderControlPlaneSpec_DeepCopyInto : val → Mem val := copy_struct [
  ("Replicas", new_var assign);
  ("Service", ServiceSpec_DeepCopyInto);
  ("ExtraArgs", make_slice assign);
  ("ExtraEnv", make_slice (ext_copy "corev1.EnvVar"));
  ("ImagePullSecrets", make_slice assign);
  ("OperatorAccess", assign);
  ("LicenseSecretRef", new_var assign);
  ("ServiceAccount", ServiceAccountSpec_DeepCopyInto);
  ("RBAC", RBACSpec_DeepCopyInto);
  ("Resources", new_var (ext_copy "corev1.ResourceRequirements"));
  ("SecurityContext", new_var (ext_copy "corev1.SecurityContext"));
  ("PodSecurityContext", new_var (ext_copy "corev1.PodSecurityContext"));
  ("TLS", TLSSpec_DeepCopyInto);
  ("ReadinessProbe", ProbeSpec_DeepCopyInto);
  ("LivenessProbe", ProbeSpec_DeepCopyInto);
  ("EnvUseClusterAccessURL", new_var assign);
  ("Expose", new_var ExposeSpec_DeepCopyInto);
  ("EnvFrom", make_slice (ext_copy "corev1.EnvFromSource"));
  ("Volumes", make_slice (ext_copy "corev1.Volume"));
  ("VolumeMounts", make_slice (ext_copy "corev1.VolumeMount"));
  ("Certs", CertsSpec_DeepCopyInto);
  ("NodeSelector", make_map);
  ("Tolerations", make_slice (ext_copy "corev1.Toleration"));
  ("Affinity", new_var (ext_copy "corev1.Affinity"));
  ("TopologySpreadConstraints", make_slice (ext_copy "corev1.TopologySpreadConstraint"))].
Definition CoderControlPlaneSpec_DeepCopy : val → Mem val := new_var CoderControlPlaneSpec_DeepCopyInto.
Definition CoderControlPlaneStatus_DeepCopyInto : val → Mem val := copy_struct [
  ("OperatorTokenSecretRef", new_var assign);
  ("LicenseLastApplied", new_var (ext_copy "metav1.Time"));
  ("EntitlementsLastChecked", new_var (ext_copy "metav1.Time"));
  ("Conditions", make_slice (ext_copy "metav1.Condition"))].
Definition CoderControlPlaneStatus_DeepCopy : val → Mem val := new_var CoderControlPlaneStatus_DeepCopyInto.
Definition CoderControlPlane_DeepCopyInto : val → Mem val := copy_struct [
  ("TypeMeta", assign);
  ("ObjectMeta", ext_copy "metav1.ObjectMeta");
  ("Spec", CoderControlPlaneSpec_DeepCopyInto);
  ("Status", CoderControlPlaneStatus_DeepCopyInto)].
Definition CoderControlPlane_DeepCopy : val → Mem val := new_var CoderControlPlane_DeepCopyInto.
Definition CoderControlPlane_DeepCopyObject : val → Mem val := as_object CoderControlPlane_DeepCopy.
Definition CoderControlPlaneList_DeepCopyInto : val → Mem val := copy_struct [
  ("TypeMeta", assign);
  ("ListMeta", ext_copy "metav1.ListMeta");
  ("Items", make_slice CoderControlPlane_DeepCopyInto)].
Definition CoderControlPlaneList_DeepCopy : val → Mem val := new_var CoderControlPlaneList_DeepCopyInto.
Definition CoderControlPlaneList_DeepCopyObject : val → Mem val := as_object CoderControlPlaneList_DeepCopy.
Definition CoderProvisionerKeySpec_DeepCopyInto : val → Mem val := copy_struct [].
Definition CoderProvisionerKeySpec_DeepCopy : val → Mem val := new_var CoderProvisionerKeySpec_DeepCopyInto.
Definition CoderProvisionerSpec_DeepCopyInto : val → Mem val := copy_struct [
  ("ControlPlaneRef", assign);
  ("Key", assign);
  ("Replicas", new_var assign);
  ("Tags", make_map);
  ("ExtraArgs", make_slice assign);
  ("ExtraEnv", make_slice (ext_copy "corev1.EnvVar"));
  ("Resources", ext_copy "corev1.ResourceRequirements");
  ("ImagePullSecrets", make_slice assign);
  ("TerminationGracePeriodSeconds", new_var assign)].
Definition CoderProvisionerSpec_DeepCopy : val → Mem val := new_var CoderProvisionerSpec_DeepCopyInto.
Definition CoderProvisionerStatus_DeepCopyInto : val → Mem val := copy_struct [
  ("Conditions", make_slice (ext_copy "metav1.Condition"));
  ("SecretRef", new_var assign)].
Definition CoderProvisionerStatus_DeepCopy : val → Mem val := new_var CoderProvisionerStatus_DeepCopyInto.
Definition CoderProvisioner_DeepCopyInto : val → Mem val := copy_struct [
  ("TypeMeta", assign);
  ("ObjectMeta", ext_copy "metav1.ObjectMeta");
  ("Spec", CoderProvisionerSpec_DeepCopyInto);
  ("Status", CoderProvisionerStatus_DeepCopyInto)].
Definition CoderProvisioner_DeepCopy : val → Mem val := new_var CoderProvisioner_DeepCopyInto.
Definition CoderProvisioner_DeepCopyObject : val → Mem val := as_object CoderProvisioner_DeepCopy.
Definition CoderProvisionerList_DeepCopyInto : val → Mem val := copy_struct [
  ("TypeMeta", assign);
  ("ListMeta", ext_copy "metav1.ListMeta");
  ("Items", make_slice CoderProvisioner_DeepCopyInto)].
Definition CoderProvisionerList_DeepCopy : val → Mem val := new_var CoderProvisionerList_DeepCopyInto.
Definition CoderProvisionerList_DeepCopyObject : val → Mem val := as_object CoderProvisionerList_DeepCopy.
Definition ProxyBootstrapSpec_DeepCopyInto : val → Mem val := copy_struct [
  ("CredentialsSecretRef", assign)].
Definition ProxyBootstrapSpec_DeepCopy : val → Mem val := new_var ProxyBootstrapSpec_DeepCopyInto.
Definition WorkspaceProxySpec_DeepCopyInto : val → Mem val := copy_struct [
  ("Replicas", new_var assign);
  ("Service", ServiceSpec_DeepCopyInto);
  ("ProxySessionTokenSecretRef", new_var assign);
  ("Bootstrap", new_var assign);
  ("ExtraArgs", make_slice assign);
  ("ExtraEnv", make_slice (ext_copy "corev1.EnvVar"));
  ("ImagePullSecrets", make_slice assign)].
Definition WorkspaceProxySpec_DeepCopy : val → Mem val := new_var WorkspaceProxySpec_DeepCopyInto.
Definition WorkspaceProxyStatus_DeepCopyInto : val → Mem val := copy_struct [
  ("ProxyTokenSecretRef", new_var assign);
  ("Conditions", make_slice (ext_copy "metav1.Condition"))].
Definition WorkspaceProxyStatus_DeepCopy : val → Mem val := new_var WorkspaceProxyStatus_DeepCopyInto.
Definition CoderWorkspaceProxy_DeepCopyInto : val → Mem val := copy_struct [
  ("TypeMeta", assign);
  ("ObjectMeta", ext_copy "metav1.ObjectMeta");
  ("Spec", WorkspaceProxySpec_DeepCopyInto);
  ("Status", WorkspaceProxyStatus_DeepCopyInto)].
Definition CoderWorkspaceProxy_DeepCopy : val → Mem val := new_var CoderWorkspaceProxy_DeepCopyInto.
Definition CoderWorkspaceProxy_DeepCopyObject : val → Mem val := as_object CoderWorkspaceProxy_DeepCopy.
Definition CoderWorkspaceProxyList_DeepCopyInto : val → Mem val := copy_struct [
  ("TypeMeta", assign);
  ("ListMeta", ext_copy "metav1.ListMeta");
  ("Items", make_slice CoderWorkspaceProxy_DeepCopyInto)].
Definition CoderWorkspaceProxyList_DeepCopy : val → Mem val := new_var CoderWorkspaceProxyList_DeepCopyInto.
Definition CoderWorkspaceProxyList_DeepCopyObject : val → Mem val := as_object CoderWorkspaceProxyList_DeepCopy.

(** ** aggregation/v1alpha1 *)

Definition CoderTemplateSpec : gotype := TStruct [
  ("Organization", TBase);
  ("VersionID", TBase);
  ("DisplayName", TBase);
  ("Description", TBase);
  ("Icon", TBase);
  ("Files", TMap);
  ("Running", TBase)].
Definition CoderTemplateStatus : gotype := TStruct [
  ("ID", TBase);
  ("OrganizationName", TBase);
  ("ActiveVersionID", TBase);
  ("Deprecated", TBase);
  ("UpdatedAt", TPtr (ext "metav1.Time"));
  ("AutoShutdown", TPtr (ext "metav1.Time"))].
Definition CoderTemplate : gotype := TStruct [
  ("TypeMeta", ext "metav1.TypeMeta");
  ("ObjectMeta", ext "metav1.ObjectMeta");
  ("Spec", CoderTemplateSpec);
  ("Status", CoderTemplateStatus)].
Definition CoderTemplateList : gotype := TStruct [
  ("TypeMeta", ext "metav1.TypeMeta");
  ("ListMeta", ext "metav1.ListMeta");
  ("Items", TSlice CoderTemplate)].
Definition CoderWorkspaceSpec : gotype := TStruct [
  ("Organization", TBase);
  ("TemplateName", TBase);
  ("TemplateVersionID", TBase);
  ("Running", TBase);
  ("TTLMillis", TPtr TBase);
  ("AutostartSchedule", TPtr TBase)].
Definition CoderWorkspaceStatus : gotype := TStruct [
  ("ID", TBase);
  ("OwnerName", TBase);
  ("OrganizationName", TBase);
  ("TemplateName", TBase);
  ("LatestBuildID", TBase);
  ("LatestBuildStatus", TBase);
  ("AutoShutdown", TPtr (ext "metav1.Time"));
  ("LastUsedAt", TPtr (ext "metav1.Time"))].
Definition CoderWorkspace : gotype := TStruct [
  ("TypeMeta", ext "metav1.TypeMeta");
  ("ObjectMeta", ext "metav1.ObjectMeta");
  ("Spec", CoderWorkspaceSpec);
  ("Status", CoderWorkspaceStatus)].
Definition CoderWorkspaceList : gotype := TStruct [
  ("TypeMeta", ext "metav1.TypeMeta");
  ("ListMeta", ext "metav1.ListMeta");
  ("Items", TSlice CoderWorkspace)].

Definition CoderTemplateSpec_DeepCopyInto : val → Mem val := copy_struct [
  ("Files", make_map)].
Definition CoderTemplateSpec_DeepCopy : val → Mem val := new_var CoderTemplateSpec_DeepCopyInto.
Definition CoderTemplateStatus_DeepCopyInto : val → Mem val := copy_struct [
  ("UpdatedAt", new_var (ext_copy "metav1.Time"));
  ("AutoShutdown", new_var (ext_copy "metav1.Time"))].
Definition CoderTemplateStatus_DeepCopy : val → Mem val := new_var CoderTemplateStatus_DeepCopyInto.
Definition CoderTemplate_DeepCopyInto : val → Mem val := copy_struct [
  ("TypeMeta", assign);
  ("ObjectMeta", ext_copy "metav1.ObjectMeta");
  ("Spec", CoderTemplateSpec_DeepCopyInto);
  ("Status", CoderTemplateStatus_DeepCopyInto)].
Definition CoderTemplate_DeepCopy : val → Mem val := new_var CoderTemplate_DeepCopyInto.
Definition CoderTemplate_DeepCopyObject : val → Mem val := as_object CoderTemplate_DeepCopy.
Definition CoderTemplateList_DeepCopyInto : val → Mem val := copy_struct [
  ("TypeMeta", assign);
  ("ListMeta", ext_copy "metav1.ListMeta");
  ("Items", make_slice CoderTemplate_DeepCopyInto)].
Definition CoderTemplateList_DeepCopy : val → Mem val := new_var CoderTemplateList_DeepCopyInto.
Definition CoderTemplateList_DeepCopyObject : val → Mem val := as_object CoderTemplateList_DeepCopy.
Definition CoderWorkspaceSpec_DeepCopyInto : val → Mem val := copy_struct [
  ("TTLMillis", new_var assign);
  ("AutostartSchedule", new_var assign)].
Definition CoderWorkspaceSpec_DeepCopy : val → Mem val := new_var CoderWorkspaceSpec_DeepCopyInto.
Definition CoderWorkspaceStatus_DeepCopyInto : val → Mem val := copy_struct [
  ("AutoShutdown", new_var (ext_copy "metav1.Time"));
  ("LastUsedAt", new_var (ext_copy "metav1.Time"))].
Definition CoderWorkspaceStatus_DeepCopy : val → Mem val := new_var CoderWorkspaceStatus_DeepCopyInto.
Definition CoderWorkspace_DeepCopyInto : val → Mem val := copy_struct [
  ("TypeMeta", assign);
  ("ObjectMeta", ext_copy "metav1.ObjectMeta");
  ("Spec", CoderWorkspaceSpec_DeepCopyInto);
  ("Status", CoderWorkspaceStatus_DeepCopyInto)].
Definition CoderWorkspace_DeepCopy : val → Mem val := new_var CoderWorkspace_DeepCopyInto.
Definition CoderWorkspace_DeepCopyObject : val → Mem val := as_object CoderWorkspace_DeepCopy.
Definition CoderWorkspaceList_DeepCopyInto : val → Mem val := copy_struct [
  ("TypeMeta", assign);
  ("ListMeta", ext_copy "metav1.ListMeta");
  ("Items", make_slice CoderWorkspace_DeepCopyInto)].
Definition CoderWorkspaceList_DeepCopy : val → Mem val := new_var CoderWorkspaceList_DeepCopyInto.
Definition CoderWorkspaceList_DeepCopyObject : val → Mem val := as_object CoderWorkspaceList_DeepCopy.


(** ** internal/controller/codercontrolplane_controller.go *)

(** [copied := *selector; return &copied] *)
Definition cloneSecretKeySelector : val → Mem val := new_var assign.
Definition cloneMetav1Time : val → Mem val := new_var (ext_copy "metav1.Time").

(** ** Properties *)

(** The types of the libraries that are copied with their own functions. *)
Definition external_types : list string := [
  "corev1.Affinity"; "corev1.EnvFromSource"; "corev1.EnvVar"; "corev1.PodSecurityContext";
  "corev1.ResourceRequirements"; "corev1.SecurityContext"; "corev1.Toleration"; "corev1.TopologySpreadConstraint";
  "corev1.Volume"; "corev1.VolumeMount"; "metav1.Condition"; "metav1.ListMeta";
  "metav1.ObjectMeta"; "metav1.Time"; "rbacv1.PolicyRule"].
Context (Hext : ∀ name, name ∈ external_types → copies (ext name) (ext_copy name)).
Context (HTypeMeta : flat (ext "metav1.TypeMeta") = true) (Href : flat (ext "corev1.LocalObjectReference") = true).

Lemma copies_ext name : bool_decide (name ∈ external_types) = true → copies (ext name) (ext_copy name).
Proof. intros H%bool_decide_eq_true. by apply Hext. Qed.

Ltac in_list := repeat first [apply list_elem_of_here | apply list_elem_of_further].
Ltac flat_type := first [reflexivity | exact HTypeMeta | exact Href].
Create HintDb copies discriminated.
#[local] Hint Constants Opaque : copies.
#[local] Hint Resolve copies_new_var copies_make_slice copies_make_map : copies.
#[local] Hint Extern 1 (copies _ assign) => apply copies_assign; flat_type : copies.
#[local] Hint Extern 1 (copies (ext _) (ext_copy _)) => apply copies_ext; reflexivity : copies.
(** A function that copies a struct: each of its steps copies a field, and the other
    fields have no memory. *)
Ltac by_fields :=
  apply copies_struct;
  [ apply (bool_decide_eq_true (NoDup _)); vm_compute; reflexivity
  | repeat (apply List.Forall_cons; [eexists; split; [in_list|cbn [snd]; eauto with copies nocore]|]); apply List.Forall_nil
  | repeat (apply List.Forall_cons; [cbn [fst snd]; first [right; flat_type|left; in_list]|]); apply List.Forall_nil ].

Lemma copies_CertSecretSelector : copies CertSecretSelector CertSecretSelector_DeepCopyInto.
Proof. by_fields. Qed.
#[local] Hint Resolve copies_CertSecretSelector : copies.
Lemma copies_CertsSpec : copies CertsSpec CertsSpec_DeepCopyInto.
Proof. by_fields. Qed.
#[local] Hint Resolve copies_CertsSpec : copies.
Lemma copies_ServiceSpec : copies ServiceSpec ServiceSpec_DeepCopyInto.
Proof. by_fields. Qed.
#[local] Hint Resolve copies_ServiceSpec : copies.
Lemma copies_OperatorAccessSpec : copies OperatorAccessSpec OperatorAccessSpec_DeepCopyInto.
Proof. by_fields. Qed.
#[local] Hint Resolve copies_OperatorAccessSpec : copies.
Lemma copies_SecretKeySelector : copies SecretKeySelector SecretKeySelector_DeepCopyInto.
Proof. by_fields. Qed.
#[local] Hint Resolve copies_SecretKeySelector : copies.
Lemma copies_ServiceAccountSpec : copies ServiceAccountSpec ServiceAccountSpec_DeepCopyInto.
Proof. by_fields. Qed.
#[local] Hint Resolve copies_ServiceAccountSpec : copies.
Lemma copies_RBACSpec : copies RBACSpec RBACSpec_DeepCopyInto.
Proof. by_fields. Qed.
#[local] Hint Resolve copies_RBACSpec : copies.
Lemma copies_TLSSpec : copies TLSSpec TLSSpec_DeepCopyInto.
Proof. by_fields. Qed.
#[local] Hint Resolve copies_TLSSpec : copies.
Lemma copies_ProbeSpec : copies ProbeSpec ProbeSpec_DeepCopyInto.
Proof. by_fields. Qed.
#[local] Hint Resolve copies_ProbeSpec : copies.
Lemma copies_IngressTLSExposeSpec : copies IngressTLSExposeSpec IngressTLSExposeSpec_DeepCopyInto.
Proof. by_fields. Qed.
#[local] Hint Resolve copies_IngressTLSExposeSpec : copies.
Lemma copies_IngressExposeSpec : copies IngressExposeSpec IngressExposeSpec_DeepCopyInto.
Proof. by_fields. Qed.
#[local] Hint Resolve copies_IngressExposeSpec : copies.
Lemma copies_GatewayParentRef : copies GatewayParentRef GatewayParentRef_DeepCopyInto.
Proof. by_fields. Qed.
#[local] Hint Resolve copies_GatewayParentRef : copies.
Lemma copies_GatewayExposeSpec : copies GatewayExposeSpec GatewayExposeSpec_DeepCopyInto.
Proof. by_fields. Qed.
#[local] Hint Resolve copies_GatewayExposeSpec : copies.
Lemma copies_ExposeSpec : copies ExposeSpec ExposeSpec_DeepCopyInto.
Proof. by_fields. Qed.
#[local] Hint Resolve copies_ExposeSpec : copies.
Lemma copies_CoderControlPlaneSpec : copies CoderControlPlaneSpec CoderControlPlaneSpec_DeepCopyInto.
Proof. by_fields. Qed.
#[local] Hint Resolve copies_CoderControlPlaneSpec : copies.
Lemma copies_CoderControlPlaneStatus : copies CoderControlPlaneStatus CoderControlPlaneStatus_DeepCopyInto.
Proof. by_fields. Qed.
#[local] Hint Resolve copies_CoderControlPlaneStatus : copies.
Lemma copies_CoderControlPlane : copies CoderControlPlane CoderControlPlane_DeepCopyInto.
Proof. by_fields. Qed.
#[local] Hint Resolve copies_CoderControlPlane : copies.
Lemma copies_CoderControlPlaneList : copies CoderControlPlaneList CoderControlPlaneList_DeepCopyInto.
Proof. by_fields. Qed.
#[local] Hint Resolve copies_CoderControlPlaneList : copies.
Lemma copies_CoderProvisionerKeySpec : copies CoderProvisionerKeySpec CoderProvisionerKeySpec_DeepCopyInto.
Proof. by_fields. Qed.
#[local] Hint Resolve copies_CoderProvisionerKeySpec : copies.
Lemma copies_CoderProvisionerSpec : copies CoderProvisionerSpec CoderProvisionerSpec_DeepCopyInto.
Proof. by_fields. Qed.
#[local] Hint Resolve copies_CoderProvisionerSpec : copies.
Lemma copies_CoderProvisionerStatus : copies CoderProvisionerStatus CoderProvisionerStatus_DeepCopyInto.
Proof. by_fields. Qed.
#[local] Hint Resolve copies_CoderProvisionerStatus : copies.
Lemma copies_CoderProvisioner : copies CoderProvisioner CoderProvisioner_DeepCopyInto.
Proof. by_fields. Qed.
#[local] Hint Resolve copies_CoderProvisioner : copies.
Lemma copies_CoderProvisionerList : copies CoderProvisionerList CoderProvisionerList_DeepCopyInto.
Proof. by_fields. Qed.
#[local] Hint Resolve copies_CoderProvisionerList : copies.
Lemma copies_ProxyBootstrapSpec : copies ProxyBootstrapSpec ProxyBootstrapSpec_DeepCopyInto.
Proof. by_fields. Qed.
#[local] Hint Resolve copies_ProxyBootstrapSpec : copies.
Lemma copies_WorkspaceProxySpec : copies WorkspaceProxySpec WorkspaceProxySpec_DeepCopyInto.
Proof. by_fields. Qed.
#[local] Hint Resolve copies_WorkspaceProxySpec : copies.
Lemma copies_WorkspaceProxyStatus : copies WorkspaceProxyStatus WorkspaceProxyStatus_DeepCopyInto.
Proof. by_fields. Qed.
#[local] Hint Resolve copies_WorkspaceProxyStatus : copies.
Lemma copies_CoderWorkspaceProxy : copies CoderWorkspaceProxy CoderWorkspaceProxy_DeepCopyInto.
Proof. by_fields. Qed.
#[local] Hint Resolve copies_CoderWorkspaceProxy : copies.
Lemma copies_CoderWorkspaceProxyList : copies CoderWorkspaceProxyList CoderWorkspaceProxyList_DeepCopyInto.
Proof. by_fields. Qed.
#[local] Hint Resolve copies_CoderWorkspaceProxyList : copies.
Lemma copies_CoderTemplateSpec : copies CoderTemplateSpec CoderTemplateSpec_DeepCopyInto.
Proof. by_fields. Qed.
#[local] Hint Resolve copies_CoderTemplateSpec : copies.
Lemma copies_CoderTemplateStatus : copies CoderTemplateStatus CoderTemplateStatus_DeepCopyInto.
Proof. by_fields. Qed.
#[local] Hint Resolve copies_CoderTemplateStatus : copies.
Lemma copies_CoderTemplate : copies CoderTemplate CoderTemplate_DeepCopyInto.
Proof. by_fields. Qed.
#[local] Hint Resolve copies_CoderTemplate : copies.
Lemma copies_CoderTemplateList : copies CoderTemplateList CoderTemplateList_DeepCopyInto.
Proof. by_fields. Qed.
#[local] Hint Resolve copies_CoderTemplateList : copies.
Lemma copies_CoderWorkspaceSpec : copies CoderWorkspaceSpec CoderWorkspaceSpec_DeepCopyInto.
Proof. by_fields. Qed.
#[local] Hint Resolve copies_CoderWorkspaceSpec : copies.
Lemma copies_CoderWorkspaceStatus : copies CoderWorkspaceStatus CoderWorkspaceStatus_DeepCopyInto.
Proof. by_fields. Qed.
#[local] Hint Resolve copies_CoderWorkspaceStatus : copies.
Lemma copies_CoderWorkspace : copies CoderWorkspace CoderWorkspace_DeepCopyInto.
Proof. by_fields. Qed.
#[local] Hint Resolve copies_CoderWorkspace : copies.
Lemma copies_CoderWorkspaceList : copies CoderWorkspaceList CoderWorkspaceList_DeepCopyInto.
Proof. by_fields. Qed.
#[local] Hint Resolve copies_CoderWorkspaceList : copies.

(** Every type with its functions that return a copy, and the two functions with which the
    control plane controller copies fields of a status. *)
Definition deep_copies : list (gotype * (val → Mem val)) := [
  (CertSecretSelector, CertSecretSelector_DeepCopy); (CertsSpec, CertsSpec_DeepCopy);
  (ServiceSpec, ServiceSpec_DeepCopy); (OperatorAccessSpec, OperatorAccessSpec_DeepCopy);
  (SecretKeySelector, SecretKeySelector_DeepCopy); (ServiceAccountSpec, ServiceAccountSpec_DeepCopy);
  (RBACSpec, RBACSpec_DeepCopy); (TLSSpec, TLSSpec_DeepCopy); (ProbeSpec, ProbeSpec_DeepCopy);
  (IngressTLSExposeSpec, IngressTLSExposeSpec_DeepCopy); (IngressExposeSpec, IngressExposeSpec_DeepCopy);
  (GatewayParentRef, GatewayParentRef_DeepCopy); (GatewayExposeSpec, GatewayExposeSpec_DeepCopy);
  (ExposeSpec, ExposeSpec_DeepCopy); (CoderControlPlaneSpec, CoderControlPlaneSpec_DeepCopy);
  (CoderControlPlaneStatus, CoderControlPlaneStatus_DeepCopy);
  (CoderControlPlane, CoderControlPlane_DeepCopy); (CoderControlPlane, CoderControlPlane_DeepCopyObject);
  (CoderControlPlaneList, CoderControlPlaneList_DeepCopy);
  (CoderControlPlaneList, CoderControlPlaneList_DeepCopyObject);
  (CoderProvisionerKeySpec, CoderProvisionerKeySpec_DeepCopy);
  (CoderProvisionerSpec, CoderProvisionerSpec_DeepCopy);
  (CoderProvisionerStatus, CoderProvisionerStatus_DeepCopy);
  (CoderProvisioner, CoderProvisioner_DeepCopy); (CoderProvisioner, CoderProvisioner_DeepCopyObject);
  (CoderProvisionerList, CoderProvisionerList_DeepCopy);
  (CoderProvisionerList, CoderProvisionerList_DeepCopyObject);
  (ProxyBootstrapSpec, ProxyBootstrapSpec_DeepCopy); (WorkspaceProxySpec, WorkspaceProxySpec_DeepCopy);
  (WorkspaceProxyStatus, WorkspaceProxyStatus_DeepCopy);
  (CoderWorkspaceProxy, CoderWorkspaceProxy_DeepCopy);
  (CoderWorkspaceProxy, CoderWorkspaceProxy_DeepCopyObject);
  (CoderWorkspaceProxyList, CoderWorkspaceProxyList_DeepCopy);
  (CoderWorkspaceProxyList, CoderWorkspaceProxyList_DeepCopyObject);
  (CoderTemplateSpec, CoderTemplateSpec_DeepCopy); (CoderTemplateStatus, CoderTemplateStatus_DeepCopy);
  (CoderTemplate, CoderTemplate_DeepCopy); (CoderTemplate, CoderTemplate_DeepCopyObject);
  (CoderTemplateList, CoderTemplateList_DeepCopy); (CoderTemplateList, CoderTemplateList_DeepCopyObject);
  (CoderWorkspaceSpec, CoderWorkspaceSpec_DeepCopy);
  (CoderWorkspaceStatus, CoderWorkspaceStatus_DeepCopy); (CoderWorkspace, CoderWorkspace_DeepCopy);
  (CoderWorkspace, CoderWorkspace_DeepCopyObject); (CoderWorkspaceList, CoderWorkspaceList_DeepCopy);
  (CoderWorkspaceList, CoderWorkspaceList_DeepCopyObject);
  (SecretKeySelector, cloneSecretKeySelector); (ext "metav1.Time", cloneMetav1Time)].

Lemma copies_as_object t copy : copies (TPtr t) copy → copies (TPtr t) (as_object copy).
Proof.
  intros Hc h v d Hd. destruct (Hc h v d Hd) as (v' & h' & Hrun & H1 & Hv & Hcells). exists v', h'.
  split; [|done]. unfold as_object, mbind, M_bind. rewrite Hrun. by destruct v'.
Qed.
Ltac by_its_type :=
  lazymatch goal with
  | |- copies (TPtr _) (new_var _) => apply copies_new_var; solve [eauto with copies nocore]
  | |- copies (TPtr _) (as_object _) => apply copies_as_object; by_its_type
  | |- copies (TPtr _) ?copy => let body := eval red in copy in change copy with body; by_its_type
  end.
Lemma all_copy : Forall (λ '(t, copy), copies (TPtr t) copy) deep_copies.
Proof. unfold deep_copies. repeat (apply List.Forall_cons; [cbv beta iota; by_its_type|]). apply List.Forall_nil. Qed.

(** C15: the deep copies of the API types.  For every struct type of both API groups and
    every pointer to a value of it, DeepCopy (and DeepCopyObject) returns, without
    panicking, a pointer to a value with the same contents; everything behind the copy
    is newly allocated and nothing that was there is changed, so that what is written
    later through one of the two is never seen through the other, and a nil pointer is
    copied to nil.  The same holds of the functions that the control plane controller uses
    to copy fields of a status.  A field with memory that a generated function left out would be
    shared. *)
Theorem deep_copies_are_deep :
  Forall (λ '(t, copy), ∀ h p d, contents h (TPtr t) p = Some d →
    ∃ p' h', copy p h = (Ret p', h') ∧ (p = VNil → p' = VNil) ∧ h ⊆ h' ∧ contents h' (TPtr t) p' = Some d ∧
      cells h' (TPtr t) p' ## dom h ∧ independent h h' (TPtr t) p p' d) deep_copies.
Proof.
  eapply Forall_impl; [exact all_copy|]. intros [t copy] Hc h p d Hd.
  destruct (Hc h p d Hd) as (p' & h' & Hrun & H1 & Hp & Hcells). exists p', h'.
  split; [done|]. split; [|split; [done|]; split; [done|]; split; [done|]; by apply copies_independent].
  intros ->. injection Hd as <-. cbn in Hp. destruct p' as [| | |l| |]; try done.
  destruct (h' !! l) as [[|x| |]|]; try done. by destruct (contents h' t x).
Qed.
End types.

(** * Concrete copies *)

(** Library types with little in them; their copies are those of the reference. *)
Definition toy_ext (name : string) : gotype :=
  if String.eqb name "metav1.ObjectMeta" then TStruct [("Name", TBase); ("Labels", TMap)] else TBase.
Definition toy_ext_copy (name : string) : val → Mem val := deep_copy (toy_ext name).
Lemma toy_copies name : name ∈ external_types → copies (toy_ext name) (toy_ext_copy name).
Proof. intros _. apply deep_copy_copies. unfold toy_ext. by destruct (String.eqb name "metav1.ObjectMeta"). Qed.

(** A service with annotations. *)
Definition toy_service : val :=
  VStruct (<["Type" := VBase (BString "ClusterIP")]> (<["Port" := VBase (BInt 80)]> (<["Annotations" := VMap 2]> ∅))).
Definition toy_heap : heap := <[1%positive := CVar toy_service]> (<[2%positive := CMap {["a" := "b"]}]> ∅).
Definition toy_contents : deep :=
  DPtr (DStruct [("Type", DBase (BString "ClusterIP")); ("Port", DBase (BInt 80)); ("Annotations", DMap {["a" := "b"]})]).

Lemma deep_copies_are_deep_witness :
  contents toy_heap (TPtr ServiceSpec) (VPtr 1) = Some toy_contents ∧
  ∃ p' h', ServiceSpec_DeepCopy (VPtr 1) toy_heap = (Ret p', h') ∧ contents h' (TPtr ServiceSpec) p' = Some toy_contents ∧
    cells h' (TPtr ServiceSpec) p' ## dom toy_heap ∧ independent toy_heap h' (TPtr ServiceSpec) (VPtr 1) p' toy_contents.
Proof.
  assert (contents toy_heap (TPtr ServiceSpec) (VPtr 1) = Some toy_contents) as Hc by (vm_compute; reflexivity).
  split; [exact Hc|].
  pose proof (deep_copies_are_deep toy_ext toy_ext_copy toy_copies eq_refl eq_refl) as Hall.
  rewrite Forall_forall in Hall. specialize (Hall (ServiceSpec, ServiceSpec_DeepCopy)). cbv beta iota in Hall.
  destruct (Hall ltac:(apply list_elem_of_In; cbn; tauto) toy_heap (VPtr 1) toy_contents Hc)
    as (p' & h' & Hrun & _ & _ & Hp & Hcells & Hind).
  exists p', h'. split; [exact Hrun|]. split; [exact Hp|]. split; [exact Hcells|exact Hind].
Defined.

(** A copy of the struct alone would share the annotations: a key that is written through
    it appears in the original. *)
Example shallow_copy_is_seen : ∃ p' h' (h2 : heap),
  new_var assign (VPtr 1) toy_heap = (Ret p', h') ∧ contents h' (TPtr ServiceSpec) p' = Some toy_contents ∧
  (∀ l, l ∉ cells h' (TPtr ServiceSpec) p' → h2 !! l = h' !! l) ∧
  contents h2 (TPtr ServiceSpec) (VPtr 1) ≠ Some toy_contents.
Proof.
  eexists _, _, _. split; [vm_compute; reflexivity|]. split; [vm_compute; reflexivity|]. split.
  - intros l Hl. apply (lookup_insert_ne _ 2%positive l (CMap {["a" := "b"; "c" := "d"]})). intros <-. apply Hl.
    apply (bool_decide_eq_true_1 _). vm_compute. reflexivity.
  - vm_compute. intros [=].
Qed.

End DeepCopies.
